(* ===== verification/_CoqProject ===== *)
-Q . S2P
Prelude.v
GoStrings.v
CoreErrors.v
CoreTypes.v
Facts.v
Reflect.v
Sources.v
Datalog.v
Ground.v
Runtime.v
RuntimeProps.v
Cache.v
Solver.v
SolverProps.v
Supervisor.v
SupervisorProps.v
CircuitBreaker.v
QuadStore.v
Dict.v
Workflow.v
Float64.v
Ooda.v
OodaProps.v
East.v
EastProps.v
Session.v
AgentLoop.v
AgentLoopProps.v
Builder.v
SessionStore.v
SessionStoreProps.v
WorkflowDef.v
WorkflowDefProps.v
Hydrated.v
HydratedProps.v
AgentSystem.v
AgentSystemProps.v
Explain.v
ExplainProps.v
Load.v
Temporal.v
Extern.v
Reconstruct.v
ReconstructProps.v
Evaluator.v
Genes.v
GenesProps.v
Knowledge.v
KnowledgeProps.v
Config.v
Predicates.v
FloatText.v
Scoring.v
ScoringProps.v
ContextManager.v
Memory.v
ClientCalls.v
ClientInit.v
ClientInitProps.v
Generators.v
GeneratorsProps.v
Streaming.v
StreamingProps.v
Providers.v
ProvidersProps.v
Commands.v
CommandsProps.v
RuleGen.v
RuleGenProps.v
Bridges.v
Architect.v
Server.v
ServerProps.v
Enforcement.v
Flows.v
SessionPorts.v
Loaders.v
ToolCommands.v
ToolCommandsProps.v
Doubles.v
