(* ===== verification/Prelude.v ===== *)
(** * Manglekit: a verification development

    Manglekit (Go) is a policy runtime for AI agents: actions of an agent are
    wrapped by a supervisor that asks a Datalog policy engine before an action
    runs and after it has produced a result; a client runs actions in a loop
    that follows the engine's steering; around it are configuration, model
    adapters, workflows, stores, a command line and an HTTP server.  This
    library models these parts and proves the properties that make them
    correct.  A file [X] holds the definitions of a component; its theorems
    are in [XProps], or in [X] itself when they are few.

    ** The program and its model

    The core, from a policy text to a verdict:
    - [GoStrings], [Float64], [FloatText]: the functions on byte strings and
      [float64] of Go's standard library that the sources use.
    - [CoreErrors], [CoreTypes]: core/errors.go, exitcode.go, core/types.go and
      internal/core/domain.  A Go error is a tree of sentinels, texts, wrappers
      and the structured errors; errors.Is and errors.As are functions on it.
      Values of type any are [GoVal]s over a [Heap], so pointers can be shared
      and cyclic.
    - [Facts], [Reflect], [Reconstruct]: facts from values (escapeString,
      ToFacts of reflection.go, Flatten of flattener.go) and values from facts
      (FromFacts of reconstruction.go).
    - [Sources], [Load]: the textual preparation of policies and the loading
      of rule and fact files (internal/engine/runtime.go).
    - [Datalog], [Ground]: what the engine uses of the mangle-go library, as
      interfaces ([FactStore] with its laws, [Mangle]: parser, analyser,
      evaluator); [Ground] is a concrete instance (programs of ground facts) on
      which the witnesses run the engine.
    - [Runtime], [Cache], [Temporal], [Extern]: MangleRuntime of runtime.go,
      one function per operation; the query path is split where the code
      releases its lock, and [Cache] interleaves queries with reloads, added
      policies and loaded facts by a step relation.
    - [Solver]: PolicyEngine of solver.go, against the [GateRuntime] interface
      that [Runtime] implements; [Explain]: explain.go; [Evaluator]:
      evaluator.go.
    - [Supervisor]: internal/supervisor, against the [Evaluator] interface that
      [Solver] implements; a wrapped action is an arbitrary effect on a world.

    The client around it:
    - [AgentLoop], [Session]: sdk/loop.go, client_execute.go and the session
      state with its manager, against [LoopEngine], which [Solver] implements.
    - [Enforcement]: the composition of loop, supervisor, gate and runtime.
    - [Config], [ClientInit], [Predicates]: config/, the construction of a
      client and its options (engines are shared objects behind handles), the
      reference external predicates; [ClientCalls]: planner, plan executor,
      proxies and typed wrappers; [Memory], [ContextManager]; [Loaders]: the
      actions, memories and facts a configuration names, RDF and retrieval.
    - [Server]: cmd/mkit serve, over [ClientInit] and [AgentLoop].
    - [Generators], [Streaming], [Providers], [Scoring]: adapters/ai,
      providers/{openai,google}, adapters/scoring.

    The agents and stores:
    - [Ooda], [East], [Builder], [Flows], [Architect]: x/ooda, x/east,
      x/oodaflow and x/agents.  The components of a frame are [Ports].
    - [Workflow], [WorkflowDef], [Hydrated], [AgentSystem]: multiagent/ and
      core/workflow.go.  The session executor is written against the class
      [SessionStateStore], which the in-memory store of [WorkflowDef] and the
      adapter of [Architect] implement; [SessionPorts] shows that it cannot
      tell them apart, and composes loader, executor and adapter into the
      architect's Run.
    - [QuadStore], [Dict], [SessionStore], [Bridges]: the stores and the
      adapters at the edge, over interfaces of BadgerDB and of scans.
    - [CircuitBreaker]: adapters/resilience, sequentially and under any
      interleaving of executions.
    - [Genes], [Knowledge], [RuleGen], [Commands]: x/genes, the graph readers,
      rule generation, and the commands eval, run, check and inspect;
      [ToolCommands]: the commands gen rule, kg convert and skill new.
    - [Doubles]: the in-memory provider and the test doubles of testutil.

    Conventions.  A function keeps its Go name where Rocq allows it; a Go
    result [(T, error)] is [res error T], or a pair with an [option error] when
    both are meaningful; a method that mutates its receiver returns the new
    state; shared mutable objects are addresses of a heap.  [None] as the
    result of a computation is a panic (a nil dereference, a slice out of
    range), or fuel that ran out where a definition says so.  A caller's
    context is represented by its error at the points where the code reads it
    ([None] while it is live).  The order of Go's [range] over a map is any
    order ([GoRange]).  [float64] is the executable specification of the
    Standard Library; math.Exp and math.Log are parameters.  Third-party code
    (models, JSON and YAML codecs, HTTP, hashing, files, clocks) is a parameter
    of the definitions that use it.

    ** What the theorems show

    - Enforcement: a call of the client is a sequence of executions that
      follows its routes and retries; each changes the world only if the policy
      that was loaded before the call cleared that execution's own request; a
      supervised action has no effect, and its result is not released, without
      a check that passed or named advisory tiers only.  The same is shown for
      whole runs of the loop, for requests and reloads of a server, for
      streams, and for what a configuration builds; "cleared" is spelled out in
      the statements, with what the code lets through (a failing tiered halt
      query is only logged).
    - The gate: exactly which answers let a request pass, which entries its
      trail has and which of them it reports, that its parse cache is
      invisible.  An explanation says what is so (stored facts, instances of
      loaded rules, premises that hold under the bindings made), and is complete
      up to its depth; it need not be a proof, since facts may be cited in
      their own explanation.
    - The runtime: a failed reload changes nothing, soundness and completeness
      of query answers, coherence of the derived-fact cache over every
      interleaving; temporal facts refine a log of additions.
    - Facts and texts: rendering facts from untrusted values (payloads, graph
      files) cannot inject another one; reflection terminates on cyclic data;
      structs, quads and genes are recovered from what is stored, and a
      checkpointed session up to what its JSON codec preserves.
    - The loop, OODA and EAST: what they return, how often they run an action,
      that they stop.
    - Stores and the circuit breaker: refinement of abstract sets and maps
      (quads, transient facts with their deadlines, workflow instances by
      session and workflow), mutual exclusion of probes, recovery; a session
      computes what a plain run computes, over any store of sessions.
    - Configuration, scoring, generation: which environment variables can be
      read, what a parsed configuration satisfies, which option a decision
      picks, that the vocabulary taught to a model is the one loaded.
    - Where the code does something else than its comments or its purpose
      say, a theorem states what it does (for example
      [commit_after_reload_panics], [advisory_rule_unblocks_halt2],
      [serve_answers_nothing], [architect_never_acts]).

    ** Fuel and bounds

    Structural recursion is used wherever the code allows it.  [ToFacts] takes
    [to_facts_fuel], proved enough on every heap; [Flatten] and
    [structToFactsRecursive] take fuel as an argument because they may diverge,
    and the definitions above them return [None] then.  The workflow loops take
    [workflow_fuel], [hyd_fuel] and [session_fuel] and the size of the graph,
    proved enough; the prover of explanations takes [maxExplainDepth], the
    code's own bound; [hydrate] takes the rank of the links; [resolveFiles]
    takes 2, proved enough for file systems with the laws of [Load].  Retry
    loops count down the code's own limits.  64-bit counters are integers with
    their wrap-around written out; theorems that need it assume the counter is
    below its maximum.

    ** Not modelled

    The Datalog evaluator, the parser and BadgerDB (interfaces), with the
    opening of a database and its garbage collection; telemetry and logging,
    which no decision reads; the parsing of command-line flags; the version
    command, which prints build information; the registration of flows with
    Genkit beyond the names.  Time-outs are modelled only as errors of a
    context at the points that read it. *)
From stdpp Require Export base tactics decidable list gmap strings pretty.
From Stdlib Require Export Lia ZArith.

(** ** Results of fallible Go calls

    A Go function returning [(T, error)] is modelled by a function returning
    [res E T]: [Ok] when the returned error is nil, [Err] otherwise. *)

Inductive res (E A : Type) : Type :=
| Ok (a : A)
| Err (e : E).
Arguments Ok {E A} _.
Arguments Err {E A} _.

Definition res_bind {E A B : Type} (m : res E A) (k : A -> res E B) : res E B :=
  match m with
  | Ok a => k a
  | Err e => Err e
  end.

Definition is_ok {E A : Type} (m : res E A) : bool :=
  match m with Ok _ => true | Err _ => false end.

(** [mapM] over [res], left to right, stopping at the first error. *)
Fixpoint res_mapM {E A B : Type} (f : A -> res E B) (l : list A) : res E (list B) :=
  match l with
  | [] => Ok []
  | x :: l' => res_bind (f x) (fun y => res_bind (res_mapM f l') (fun ys => Ok (y :: ys)))
  end.

Declare Scope go_scope.
Delimit Scope go_scope with go.
Notation "'let!' x ':=' e 'in' k" := (res_bind e (fun x => k))
  (at level 10, x pattern, e at level 100, k at level 200) : go_scope.

#[global] Instance res_eq_dec {E A : Type} `{EqDecision E} `{EqDecision A} : EqDecision (res E A).
Proof. solve_decision. Defined.

(** ** Iteration over a map

    Go leaves the order of [range] over a map open: the code is modelled
    against any order that visits every entry once. *)

Class GoRange := {
  range : forall {A : Type}, gmap string A -> list (string * A);
  range_perm : forall {A : Type} (m : gmap string A), range m ≡ₚ map_to_list m
}.

Definition stored_order : GoRange := {| range := fun A => map_to_list; range_perm := fun A m => reflexivity _ |}.

Lemma elem_of_range `{GoRange} {A : Type} (m : gmap string A) k x : (k, x) ∈ range m <-> m !! k = Some x.
Proof. by rewrite range_perm, elem_of_map_to_list. Qed.

Lemma NoDup_range `{GoRange} {A : Type} (m : gmap string A) : NoDup (range m).*1.
Proof. rewrite range_perm. apply NoDup_fst_map_to_list. Qed.

(** ** Automation *)

Create HintDb mk.

(** Case split on every [match]/[if] of the goal and the hypotheses, then
    clean up with stdpp's simplifier. *)
Ltac mk_cases :=
  repeat (simplify_eq/=; repeat case_match; simplify_eq/=).

Ltac mk_auto := mk_cases; eauto with mk lia.

(** Closed equations, decided by the kernel's virtual machine (the two sides
    are compared as values, so functions inside them are not normalised). *)
Ltac by_vm := lazymatch goal with |- _ = ?b => vm_cast_no_check (eq_refl b) end.

(** ** Generic lemmas *)

Lemma res_bind_ok {E A B : Type} (m : res E A) (k : A -> res E B) b :
  res_bind m k = Ok b -> exists a, m = Ok a /\ k a = Ok b.
Proof. destruct m; simpl; [eauto | discriminate]. Qed.

Lemma res_mapM_ok {E A B : Type} (f : A -> res E B) l ys :
  res_mapM f l = Ok ys -> Forall2 (fun x y => f x = Ok y) l ys.
Proof.
  revert ys. induction l as [|x l IH]; simpl; intros ys H.
  - inversion H. constructor.
  - apply res_bind_ok in H as (y & Hy & H).
    apply res_bind_ok in H as (ys' & Hys & H). inversion H. auto.
Qed.

Lemma res_mapM_length {E A B : Type} (f : A -> res E B) l ys :
  res_mapM f l = Ok ys -> length ys = length l.
Proof. intros H%res_mapM_ok. symmetry. by eapply Forall2_length. Qed.

(** First element of a list (left to right) minimising a measure: the loop
    [best := l[0]; for m in l[1:] { if rank(m) < rank(best) { best = m } }]. *)
Fixpoint best_by {A : Type} (rank : A -> Z) (best : A) (l : list A) : A :=
  match l with
  | [] => best
  | m :: l' => if (rank m <? rank best)%Z then best_by rank m l' else best_by rank best l'
  end.

Lemma best_by_le_acc {A : Type} (rank : A -> Z) l best :
  (rank (best_by rank best l) <= rank best)%Z.
Proof.
  revert best. induction l as [|m l IH]; intros best; simpl; [lia|].
  case_match eqn:E; [specialize (IH m); lia | apply IH].
Qed.

Lemma best_by_le {A : Type} (rank : A -> Z) l best x :
  x ∈ best :: l -> (rank (best_by rank best l) <= rank x)%Z.
Proof.
  revert best. induction l as [|m l IH]; intros best Hx; simpl.
  - apply list_elem_of_singleton in Hx as ->. lia.
  - rewrite !elem_of_cons in Hx. case_match eqn:E.
    + destruct Hx as [->|[->|Hx]].
      * pose proof (best_by_le_acc rank l m). lia.
      * apply best_by_le_acc.
      * apply IH. by rewrite elem_of_cons; right.
    + destruct Hx as [->|[->|Hx]].
      * apply best_by_le_acc.
      * pose proof (best_by_le_acc rank l best). lia.
      * apply IH. by rewrite elem_of_cons; right.
Qed.

Lemma best_by_elem {A : Type} (rank : A -> Z) l best :
  best_by rank best l ∈ best :: l.
Proof.
  revert best. induction l as [|m l IH]; intros best; simpl; [set_solver|].
  case_match; rewrite elem_of_cons; [right; apply IH|].
  destruct (proj1 (elem_of_cons _ _ _) (IH best)) as [->|Hin]; [by left|].
  right. by apply elem_of_cons; right.
Qed.

(** The [best_by] fold is stable: it is the first of the minimal elements. *)
Lemma best_by_first {A : Type} (rank : A -> Z) l best :
  (forall x, x ∈ l -> (rank best <= rank x)%Z) -> best_by rank best l = best.
Proof.
  induction l as [|m l IH]; intros H; simpl; [done|].
  case_match eqn:E.
  - specialize (H m). rewrite elem_of_cons in H. apply Z.ltb_lt in E. specialize (H (or_introl eq_refl)). lia.
  - apply IH. intros x Hx. apply H. by rewrite elem_of_cons; right.
Qed.

Lemma best_by_split {A : Type} (rank : A -> Z) l best :
  exists pre post, best :: l = (pre ++ best_by rank best l :: post)%list /\
    (forall x, x ∈ pre -> (rank (best_by rank best l) < rank x)%Z) /\
    (forall x, x ∈ post -> (rank (best_by rank best l) <= rank x)%Z).
Proof.
  revert best. induction l as [|m l IH]; intros best; simpl.
  { exists [], []. set_solver. }
  case_match eqn:E.
  - destruct (IH m) as (pre & post & Heq & H1 & H2). exists (best :: pre), post.
    split; [by rewrite Heq|]. split; [|done]. intros x [->|Hx]%elem_of_cons; [|auto].
    apply Z.ltb_lt in E. pose proof (best_by_le_acc rank l m). lia.
  - destruct (IH best) as (pre & post & Heq & H1 & H2). apply Z.ltb_ge in E.
    destruct pre as [|y pre]; simpl in Heq; injection Heq as Hb Hl.
    + exists [], (m :: post). simpl. rewrite <- Hb, Hl. split; [done|]. split; [set_solver|].
      intros x [->|Hx]%elem_of_cons; [done|]. rewrite Hb. auto.
    + subst y. exists (best :: m :: pre), post. simpl. rewrite Hl at 1. split; [done|]. split; [|done].
      specialize (H1 best ltac:(set_solver)) as Hbest.
      intros x [->|[->|Hx]%elem_of_cons]%elem_of_cons; [done|lia|]. apply H1. set_solver.
Qed.
