(* ===== verification/GoStrings.v ===== *)
(** * Go strings

    The part of Go's string handling the modelled code uses: byte strings,
    [strings.HasPrefix], [HasSuffix], [Index], [Contains], [Split], [Join],
    [TrimSpace], [Trim], [ReplaceAll], [ToLower] and [strconv.Quote].  A Go
    string is a byte sequence, a Rocq [string] is one too (a list of 8-bit
    [ascii]), so indices and lengths agree.  Functions that decode UTF-8 are
    written on bytes: [TrimSpace] recognises the byte sequences of the Unicode
    white-space code points; [ToLower] takes the mapping of non-ASCII text as
    an argument, because Go uses the Unicode tables only when a string has a
    byte above 127. *)
From S2P Require Import Prelude.
From Stdlib Require Import Ascii String.

Open Scope string_scope.

#[global] Arguments String.append : simpl nomatch.

(** ** Bytes *)

Definition bval (c : ascii) : Z := Z.of_N (N_of_ascii c).
Definition byte (n : Z) : ascii := ascii_of_N (Z.to_N n).

Definition c_dq : ascii := byte 34.
Definition c_bs : ascii := byte 92.
Definition c_nl : ascii := byte 10.
Definition c_cr : ascii := byte 13.
Definition c_tab : ascii := byte 9.
Definition c_sp : ascii := byte 32.
Definition c_comma : ascii := byte 44.
Definition c_lpar : ascii := byte 40.
Definition c_rpar : ascii := byte 41.

Definition dq : string := String c_dq "".
Definition nl : string := String c_nl "".

(** ** Slicing *)

Fixpoint str_drop (n : nat) (s : string) : string :=
  match n, s with
  | O, _ => s
  | S n', String _ s' => str_drop n' s'
  | S _, "" => ""
  end.

Fixpoint str_take (n : nat) (s : string) : string :=
  match n, s with
  | O, _ => ""
  | S n', String c s' => String c (str_take n' s')
  | S _, "" => ""
  end.

Fixpoint str_get (n : nat) (s : string) : option ascii :=
  match n, s with
  | _, "" => None
  | O, String c _ => Some c
  | S n', String _ s' => str_get n' s'
  end.

(** ** Prefixes, suffixes and search *)

Definition has_prefix (s p : string) : bool := String.prefix p s.

Definition has_suffix (s p : string) : bool :=
  (String.length p <=? String.length s)%nat &&
  String.eqb (str_drop (String.length s - String.length p) s) p.

(** [strings.Index]: first occurrence, [None] for -1. *)
Fixpoint index_of (s p : string) : option nat :=
  if has_prefix s p then Some O
  else match s with
       | "" => None
       | String _ s' => S <$> index_of s' p
       end.

Definition contains (s p : string) : bool :=
  match index_of s p with Some _ => true | None => false end.

Definition trim_suffix (s p : string) : string :=
  if has_suffix s p then str_take (String.length s - String.length p) s else s.

(** ** Splitting and joining *)

(** [strings.Split(s, sep)] for a one-byte separator. *)
Fixpoint split_on (sep : ascii) (s : string) : list string :=
  match s with
  | "" => [""]
  | String c s' =>
      if Ascii.eqb c sep then "" :: split_on sep s'
      else match split_on sep s' with
           | [] => [String c ""]
           | x :: xs => String c x :: xs
           end
  end.

Fixpoint join (sep : string) (l : list string) : string :=
  match l with
  | [] => ""
  | [x] => x
  | x :: l' => x +:+ sep +:+ join sep l'
  end.

(** [strings.ReplaceAll(s, old, new)] for a non-empty [old]. The argument
    [skip] counts the bytes of a match still to be dropped. *)
Fixpoint replace_all_aux (skip : nat) (old new s : string) : string :=
  match s with
  | "" => ""
  | String c s' =>
      match skip with
      | S k => replace_all_aux k old new s'
      | O => if has_prefix s old
             then new +:+ replace_all_aux (String.length old - 1) old new s'
             else String c (replace_all_aux 0 old new s')
      end
  end.
Definition replace_all (old new s : string) : string := replace_all_aux 0 old new s.

(** ** White space *)

(** Length of the white-space code point at the front of a byte string, 0
    when there is none. *)
Definition space_len (s : string) : nat :=
  match s with
  | "" => 0
  | String a s1 =>
      let za := bval a in
      if ((za =? 9) || (za =? 10) || (za =? 11) || (za =? 12) || (za =? 13) || (za =? 32))%Z
      then 1%nat
      else match s1 with
      | "" => 0
      | String b s2 =>
          let zb := bval b in
          if ((za =? 194) && ((zb =? 133) || (zb =? 160)))%Z then 2%nat
          else match s2 with
          | "" => 0
          | String c _ =>
              let zc := bval c in
              if (((za =? 225) && (zb =? 154) && (zc =? 128))
                 || ((za =? 226) && (zb =? 128) && (128 <=? zc) && (zc <=? 138))
                 || ((za =? 226) && (zb =? 128) && ((zc =? 168) || (zc =? 169) || (zc =? 175)))
                 || ((za =? 226) && (zb =? 129) && (zc =? 159))
                 || ((za =? 227) && (zb =? 128) && (zc =? 128)))%Z
              then 3%nat else 0%nat
          end
      end
  end.

Fixpoint trim_left_fuel (fuel : nat) (s : string) : string :=
  match fuel with
  | O => s
  | S f => match space_len s with
           | O => s
           | n => trim_left_fuel f (str_drop n s)
           end
  end.
Definition trim_left (s : string) : string := trim_left_fuel (String.length s) s.

(** Trailing white space: the last one, two or three bytes form a white-space
    code point. *)
Definition last_space_len (s : string) : nat :=
  let n := String.length s in
  if ((1 <=? n) && (space_len (str_drop (n - 1) s) =? 1))%nat then 1%nat
  else if ((2 <=? n) && (space_len (str_drop (n - 2) s) =? 2))%nat then 2%nat
  else if ((3 <=? n) && (space_len (str_drop (n - 3) s) =? 3))%nat then 3%nat
  else 0%nat.

Fixpoint trim_right_fuel (fuel : nat) (s : string) : string :=
  match fuel with
  | O => s
  | S f => match last_space_len s with
           | O => s
           | n => trim_right_fuel f (str_take (String.length s - n) s)
           end
  end.
Definition trim_right (s : string) : string := trim_right_fuel (String.length s) s.

Definition trim_space (s : string) : string := trim_right (trim_left s).

(** [strings.Trim(s, cutset)] for a cutset of ASCII bytes. *)
Definition in_cutset (cut : string) (c : ascii) : bool := contains cut (String c "").

Fixpoint trim_left_cut (cut s : string) : string :=
  match s with
  | "" => ""
  | String c s' => if in_cutset cut c then trim_left_cut cut s' else s
  end.

Fixpoint str_rev_app (s acc : string) : string :=
  match s with
  | "" => acc
  | String c s' => str_rev_app s' (String c acc)
  end.
Definition str_rev (s : string) : string := str_rev_app s "".

Definition trim_cut (s cut : string) : string :=
  str_rev (trim_left_cut cut (str_rev (trim_left_cut cut s))).

(** ** Case *)

Definition lower_byte (c : ascii) : ascii :=
  let z := bval c in
  if ((65 <=? z) && (z <=? 90))%Z then byte (z + 32) else c.

Fixpoint map_bytes (f : ascii -> ascii) (s : string) : string :=
  match s with
  | "" => ""
  | String c s' => String (f c) (map_bytes f s')
  end.

Fixpoint all_bytes (f : ascii -> bool) (s : string) : bool :=
  match s with
  | "" => true
  | String c s' => f c && all_bytes f s'
  end.

Definition is_ascii_str (s : string) : bool := all_bytes (fun c => (bval c <? 128)%Z) s.

(** [strings.ToLower]; [unicode_lower] is the Unicode case mapping Go applies
    to a string with a non-ASCII byte. *)
Definition to_lower (unicode_lower : string -> string) (s : string) : string :=
  if is_ascii_str s then map_bytes lower_byte s else unicode_lower s.

(** ** Quoting *)

Definition hex_digit (n : Z) : ascii :=
  if (n <? 10)%Z then byte (48 + n) else byte (87 + n).

(** [strconv.Quote] ([%q]) of one byte; bytes above 127 (parts of printable
    UTF-8 sequences) are kept. *)
Definition quote_byte (c : ascii) : string :=
  let z := bval c in
  if (z =? 34)%Z then String c_bs dq
  else if (z =? 92)%Z then String c_bs (String c_bs "")
  else if (z =? 7)%Z then String c_bs "a"
  else if (z =? 8)%Z then String c_bs "b"
  else if (z =? 12)%Z then String c_bs "f"
  else if (z =? 10)%Z then String c_bs "n"
  else if (z =? 13)%Z then String c_bs "r"
  else if (z =? 9)%Z then String c_bs "t"
  else if (z =? 11)%Z then String c_bs "v"
  else if ((z <? 32) || (z =? 127))%Z
       then String c_bs (String (byte 120) (String (hex_digit (z / 16)) (String (hex_digit (z mod 16)) "")))
  else String c "".

Fixpoint quote_body (s : string) : string :=
  match s with
  | "" => ""
  | String c s' => quote_byte c +:+ quote_body s'
  end.
Definition go_quote (s : string) : string := dq +:+ quote_body s +:+ dq.

(** ** Lemmas *)

Lemma str_app_nil_r (s : string) : s +:+ "" = s.
Proof. induction s; simpl; congruence. Qed.

Lemma str_app_assoc (a b c : string) : a +:+ (b +:+ c) = (a +:+ b) +:+ c.
Proof. induction a; simpl; congruence. Qed.

Lemma str_length_app (a b : string) :
  String.length (a +:+ b) = (String.length a + String.length b)%nat.
Proof. induction a; simpl; congruence. Qed.

Lemma str_drop_app (a b : string) : str_drop (String.length a) (a +:+ b) = b.
Proof. induction a; simpl; auto. Qed.

Lemma str_take_app (a b : string) : str_take (String.length a) (a +:+ b) = a.
Proof. induction a; simpl; [done|]. by rewrite IHa. Qed.

Lemma has_prefix_spec (s p : string) :
  has_prefix s p = true <-> exists r, s = p +:+ r.
Proof.
  unfold has_prefix. revert s. induction p as [|a p IH]; intros s; simpl.
  - split; [intros _; by exists s | by destruct s].
  - destruct s as [|b s]; simpl.
    + split; [done|]. intros [r Hr]. discriminate.
    + destruct (ascii_dec a b) as [->|Hne].
      * rewrite IH. split; intros [r Hr]; exists r; congruence.
      * split; [done|]. intros [r Hr]. congruence.
Qed.

Lemma has_suffix_spec (s p : string) :
  has_suffix s p = true -> exists r, s = r +:+ p.
Proof.
  unfold has_suffix. intros [Hl He]%andb_true_iff.
  apply String.eqb_eq in He. apply Nat.leb_le in Hl.
  exists (str_take (String.length s - String.length p) s).
  rewrite <- He at 2.
  generalize (String.length s - String.length p)%nat. clear.
  induction s; intros [|n]; simpl; try done. by rewrite <- IHs.
Qed.

Lemma has_suffix_app (r p : string) : has_suffix (r +:+ p) p = true.
Proof.
  unfold has_suffix. rewrite str_length_app.
  replace (String.length r + String.length p - String.length p)%nat with (String.length r) by lia.
  rewrite str_drop_app, String.eqb_refl.
  apply andb_true_iff. split; [apply Nat.leb_le; lia|done].
Qed.

Lemma index_of_spec (s p : string) n :
  index_of s p = Some n -> exists r, s = str_take n s +:+ p +:+ r.
Proof.
  revert n. induction s as [|c s IH]; intros n; cbn [index_of].
  - destruct (has_prefix "" p) eqn:E; [|done]. intros [= <-].
    apply has_prefix_spec in E as [r Hr]. by exists r.
  - destruct (has_prefix (String c s) p) eqn:E.
    + intros [= <-]. apply has_prefix_spec in E as [r Hr]. by exists r.
    + destruct (index_of s p) as [m|] eqn:Em; [|done]. intros [= <-].
      destruct (IH _ eq_refl) as [r Hr]. exists r. simpl. by rewrite <- Hr.
Qed.

Lemma split_on_not_nil sep s : split_on sep s <> [].
Proof. destruct s as [|c s]; simpl; [done|]. destruct (Ascii.eqb c sep); [done|]. by destruct (split_on sep s). Qed.

(** Splitting and joining with the same separator is the identity. *)
Lemma join_split_on sep s : join (String sep "") (split_on sep s) = s.
Proof.
  induction s as [|c s IH]; [done|]. simpl.
  pose proof (split_on_not_nil sep s).
  destruct (Ascii.eqb_spec c sep) as [->|Hne].
  - destruct (split_on sep s) as [|x xs]; [done|]. simpl in *. by rewrite <- IH.
  - destruct (split_on sep s) as [|x [|y xs]]; [done| |]; simpl in *; by rewrite <- IH.
Qed.

Lemma map_bytes_length f s : String.length (map_bytes f s) = String.length s.
Proof. induction s; simpl; congruence. Qed.

Lemma to_lower_ascii_length u s :
  is_ascii_str s = true -> String.length (to_lower u s) = String.length s.
Proof. unfold to_lower. intros ->. apply map_bytes_length. Qed.

Lemma bval_range c : (0 <= bval c < 256)%Z.
Proof.
  unfold bval. pose proof (N_ascii_bounded c). lia.
Qed.

Lemma bval_inj c d : bval c = bval d -> c = d.
Proof.
  unfold bval. intros H. rewrite <- (ascii_N_embedding c), <- (ascii_N_embedding d).
  f_equal. lia.
Qed.

Lemma bval_byte n : (0 <= n < 256)%Z -> bval (byte n) = n.
Proof. intros H. unfold bval, byte. rewrite N_ascii_embedding; lia. Qed.

#[export] Hint Rewrite str_app_nil_r str_length_app str_drop_app str_take_app : mk.

(** Concrete checks of the string functions. *)
Example trim_space_ex : trim_space (String c_tab "  a b " +:+ nl) = "a b".
Proof. reflexivity. Qed.
Example trim_space_unicode : trim_space (String (byte 194) (String (byte 160) "x")) = "x".
Proof. reflexivity. Qed.
Example split_ex : split_on c_comma "a,b,,c" = ["a"; "b"; ""; "c"].
Proof. reflexivity. Qed.
Example replace_ex : replace_all "aa" "b" "aaaca" = "baca".
Proof. reflexivity. Qed.
Example quote_ex : go_quote ("a" +:+ dq +:+ nl) = dq +:+ "a" +:+ String c_bs dq +:+ String c_bs "n" +:+ dq.
Proof. reflexivity. Qed.

Lemma str_drop_app_le n s t : n <= String.length s -> str_drop n (s +:+ t) = str_drop n s +:+ t.
Proof.
  revert s. induction n as [|n IH]; intros [|c s]; cbn; intros Hle; try done; try lia; apply IH; lia.
Qed.

Lemma str_drop_length n s : String.length (str_drop n s) = String.length s - n.
Proof. revert s. induction n as [|n IH]; intros [|c s]; cbn; try done; by rewrite ?IH. Qed.

Lemma all_bytes_cat f a b : all_bytes f (a +:+ b) = all_bytes f a && all_bytes f b.
Proof. induction a as [|c a IH]; [done|]. cbn. by rewrite <- andb_assoc, <- IH. Qed.

Lemma all_bytes_impl (f g : ascii -> bool) s : (forall c, f c = true -> g c = true) -> all_bytes f s = true -> all_bytes g s = true.
Proof. intros Hfg. induction s as [|c s IH]; [done|]. cbn. intros [Hc Hs]%andb_true_iff. by rewrite (Hfg c Hc), IH. Qed.

Lemma trim_suffix_app a p : trim_suffix (a +:+ p) p = a.
Proof.
  unfold trim_suffix. rewrite has_suffix_app, str_length_app, Nat.add_sub. apply str_take_app.
Qed.
