(* ===== verification/CoreErrors.v ===== *)
(** * Errors and exit codes

    [core/errors.go] (the structured errors of the gate and their [errors.Is]
    / [errors.As] behaviour) and [cmd/mkit/commands/exitcode/exitcode.go] (the
    CLI contract that maps an error to an exit code).  A Go error value is an
    [error] tree: sentinels, plain texts, [fmt.Errorf("...: %w", e)] wrappers
    and the five structured errors. *)
From S2P Require Import Prelude GoStrings.
From Stdlib Require Import Ascii String.
Open Scope string_scope.

(** Sentinel error variables, compared by identity. *)
Inductive Sentinel :=
| ErrAlignment | ErrSystemError | ErrInputValidation | ErrPolicyViolation
| ErrSupervisorFailure | ErrSolutionFound | ErrCircuitOpen
| ErrCanceled | ErrDeadlineExceeded.

#[global] Instance sentinel_eq_dec : EqDecision Sentinel.
Proof. solve_decision. Defined.

(** [type Tier string]: governance tiers keep Go's representation. *)
Definition TierT0_Axiom : string := "T0".
Definition TierT1_Governance : string := "T1".
Definition TierT2_Playbook : string := "T2".
Definition TierT3_User : string := "T3".
Definition TierUnknown : string := "Unknown".

Record AlignmentError := {
  ae_Message : string;
  ae_RuleID : string;
  ae_ActionName : string;
  ae_MatchedRule : string;
  ae_Tier : string
}.

Record PolicyViolationError := {
  pv_Tier : string;
  pv_RuleID : string;
  pv_Violation : string;
  pv_Suggestion : string;
  pv_ActionName : string;
  pv_MatchedRule : string
}.

#[global] Instance alignment_error_eq_dec : EqDecision AlignmentError.
Proof. solve_decision. Defined.
#[global] Instance policy_violation_error_eq_dec : EqDecision PolicyViolationError.
Proof. solve_decision. Defined.

Inductive error :=
| ESentinel (s : Sentinel)
| EText (msg : string)
| EWrap (pre : string) (inner : error)
| ENote (inner : error) (post : string)   (* the [%w] comes first *)
| EAlignment (a : AlignmentError)
| EInput (inner : error)
| EPolicyViolation (p : PolicyViolationError)
| ESupervisor (reason : error)
| EUsage (inner : error).

#[global] Instance error_eq_dec : EqDecision error.
Proof. solve_decision. Defined.

(** ** Rendering ([Error()] methods) *)

Definition sentinel_text (s : Sentinel) : string :=
  match s with
  | ErrAlignment => "alignment error"
  | ErrSystemError => "system error"
  | ErrInputValidation => "input validation error"
  | ErrPolicyViolation => "policy violation"
  | ErrSupervisorFailure => "supervisor failure"
  | ErrSolutionFound => "solution found"
  | ErrCircuitOpen => "circuit breaker is open"
  | ErrCanceled => "context canceled"
  | ErrDeadlineExceeded => "context deadline exceeded"
  end.

Definition AlignmentError_Error (e : AlignmentError) : string :=
  "[INTERVENTION]"
  +:+ (if String.eqb (ae_RuleID e) "" then "" else " [" +:+ ae_RuleID e +:+ "]")
  +:+ (if String.eqb (ae_ActionName e) "" then ""
       else " (action: " +:+ ae_ActionName e
            +:+ (if String.eqb (ae_Tier e) "" then "" else ", tier: " +:+ ae_Tier e)
            +:+ ")")
  +:+ ": " +:+ ae_Message e.

Definition PolicyViolationError_Error (e : PolicyViolationError) : string :=
  "policy violation: blocked at tier " +:+ pv_Tier e +:+ " (rule: " +:+ pv_RuleID e +:+ ")"
  +:+ (if String.eqb (pv_ActionName e) "" then "" else " (action: " +:+ pv_ActionName e +:+ ")")
  +:+ (if String.eqb (pv_Violation e) "" then "" else ": " +:+ pv_Violation e)
  +:+ (if String.eqb (pv_MatchedRule e) "" then "" else " [matched: " +:+ pv_MatchedRule e +:+ "]")
  +:+ (if String.eqb (pv_Suggestion e) "" then "" else " (suggestion: " +:+ pv_Suggestion e +:+ ")").

Fixpoint Error (e : error) : string :=
  match e with
  | ESentinel s => sentinel_text s
  | EText m => m
  | EWrap pre i => pre +:+ Error i
  | ENote i post => Error i +:+ post
  | EAlignment a => AlignmentError_Error a
  | EInput i => "input validation error: " +:+ Error i
  | EPolicyViolation p => PolicyViolationError_Error p
  | ESupervisor r => "supervisor failure: " +:+ Error r
  | EUsage i => Error i
  end.

(** ** errors.Is and errors.As *)

(** The [Is] methods of the structured errors. *)
Definition Is_method (e : error) (target : Sentinel) : bool :=
  match e with
  | EAlignment _ => bool_decide (target = ErrAlignment)
  | EInput _ => bool_decide (target = ErrInputValidation)
  | EPolicyViolation _ => bool_decide (target = ErrPolicyViolation)
  | ESupervisor _ => bool_decide (target = ErrSupervisorFailure)
  | _ => false
  end.

(** The [Unwrap] methods. [InputError] and [SupervisorError] unwrap to their
    sentinel, not to the error they carry. *)
Definition Unwrap (e : error) : option error :=
  match e with
  | EWrap _ i | ENote i _ => Some i
  | EAlignment _ => Some (ESentinel ErrAlignment)
  | EInput _ => Some (ESentinel ErrInputValidation)
  | EPolicyViolation _ => Some (ESentinel ErrPolicyViolation)
  | ESupervisor _ => Some (ESentinel ErrSupervisorFailure)
  | EUsage i => Some i
  | _ => None
  end.

Definition same_sentinel (e : error) (target : Sentinel) : bool :=
  match e with ESentinel s => bool_decide (s = target) | _ => false end.

(** [errors.Is]: the error itself, its [Is] method, then the unwrap chain. *)
Fixpoint errors_Is (e : error) (target : Sentinel) : bool :=
  same_sentinel e target || Is_method e target ||
  match e with
  | EWrap _ i | ENote i _ | EUsage i => errors_Is i target
  | _ => match Unwrap e with
         | Some u => same_sentinel u target
         | None => false
         end
  end.

(** [errors.As(err, *AlignmentError)]. *)
Fixpoint as_alignment (e : error) : option AlignmentError :=
  match e with
  | EAlignment a => Some a
  | EWrap _ i | ENote i _ | EUsage i => as_alignment i
  | _ => None
  end.

(** [errors.As(err, *UsageError)]. *)
Fixpoint as_usage (e : error) : option error :=
  match e with
  | EUsage i => Some i
  | EWrap _ i | ENote i _ => as_usage i
  | _ => None
  end.

Definition IsAlignmentError (e : error) : bool := errors_Is e ErrAlignment.
Definition IsInputError (e : error) : bool := errors_Is e ErrInputValidation.
Definition IsPolicyViolationError (e : error) : bool :=
  errors_Is e ErrPolicyViolation || errors_Is e ErrAlignment.
Definition IsSupervisorError (e : error) : bool := errors_Is e ErrSupervisorFailure.

Definition NewAlignmentError (message ruleID : string) : AlignmentError :=
  {| ae_Message := message; ae_RuleID := ruleID; ae_ActionName := "";
     ae_MatchedRule := ""; ae_Tier := "" |}.

Definition WrapInputError (e : error) : error := EInput e.

Definition NewPolicyViolationError (tier ruleID violation suggestion : string)
  : PolicyViolationError :=
  {| pv_Tier := tier; pv_RuleID := ruleID; pv_Violation := violation;
     pv_Suggestion := suggestion; pv_ActionName := ""; pv_MatchedRule := "" |}.

(** ** Exit codes ([exitcode.go]) *)

Definition ExitSuccess : Z := 0.
Definition ExitPolicyDeny : Z := 1.
Definition ExitUsage : Z := 2.
Definition ExitRuntime : Z := 3.

Definition IsUsageError (e : error) : bool :=
  match as_usage e with Some _ => true | None => false end.

(** [CodeFor]; [None] is the nil error. *)
Definition CodeFor (err : option error) : Z :=
  match err with
  | None => ExitSuccess
  | Some e =>
      if errors_Is e ErrPolicyViolation || errors_Is e ErrAlignment then ExitPolicyDeny
      else if IsUsageError e then ExitUsage
      else ExitRuntime
  end.

(** ** Theorems *)

(** The error under the [fmt.Errorf("%w")] wrappers. *)
Fixpoint root_cause (e : error) : error :=
  match e with EWrap _ i | ENote i _ => root_cause i | _ => e end.

Lemma errors_Is_root e t : errors_Is e t = errors_Is (root_cause e) t.
Proof. induction e; simpl; auto. Qed.

Lemma as_alignment_root e : as_alignment e = as_alignment (root_cause e).
Proof. induction e; simpl; auto. Qed.

Lemma as_usage_root e : as_usage e = as_usage (root_cause e).
Proof. induction e; simpl; auto. Qed.

Lemma root_cause_not_wrap e : match root_cause e with EWrap _ _ | ENote _ _ => False | _ => True end.
Proof. induction e; simpl; auto. Qed.

(** Finding an [*AlignmentError] with [errors.As] implies [errors.Is]. *)
Lemma as_alignment_Is e a : as_alignment e = Some a -> errors_Is e ErrAlignment = true.
Proof.
  induction e; simpl; intros H; simplify_eq; auto.
Qed.

#[export] Hint Resolve as_alignment_Is : mk.

(** The CLI contract of [exitcode.go] on the error under any number of
    wrappers: denials are 1, usage errors 2, everything else 3. *)
Definition exit_table (e : error) : Z :=
  match e with
  | EPolicyViolation _ | EAlignment _
  | ESentinel ErrPolicyViolation | ESentinel ErrAlignment => ExitPolicyDeny
  | EUsage i => if IsPolicyViolationError i then ExitPolicyDeny else ExitUsage
  | _ => ExitRuntime
  end.

(** The exit code of an error depends only on the error under the
    [fmt.Errorf] wrappers, and is the one the CLI contract lists: a policy
    denial (supervisor or engine) exits 1, an invalid invocation 2, and every
    other failure - a supervisor failure whatever error caused it included - 3. *)
Theorem CodeFor_contract (e : error) : CodeFor (Some e) = exit_table (root_cause e).
Proof.
  unfold CodeFor, IsUsageError.
  rewrite (errors_Is_root e ErrPolicyViolation), (errors_Is_root e ErrAlignment), (as_usage_root e).
  pose proof (root_cause_not_wrap e) as Hw.
  destruct (root_cause e) as [s| | | | | | | |i]; try done. by destruct s.
Qed.
