(* ===== verification/CoreTypes.v ===== *)
(** * Core data types

    [core/types.go], [internal/core/domain] and [internal/core/ports]: the
    envelope, its labels and metadata, the audit trail, decisions, quads,
    atoms and trust tiers.

    A Go value of type [any] is a [GoVal].  Pointers, maps and slices are
    references into a [Heap] (an address, which Go's [reflect] exposes as
    [v.Pointer()], and the cell it denotes), so sharing and cycles exist in
    the model.  [GIface] marks a location of interface type (an element of an
    [[]any], say), which [reflect] must dereference. *)
From S2P Require Import Prelude GoStrings CoreErrors.
From Stdlib Require Import Ascii String.
Open Scope string_scope.

(** ** Audit trails *)

Record RuleInference := {
  ri_RuleName : string;
  ri_Tier : string;
  ri_Definition : string;
  ri_SourceFile : string;
  ri_Bindings : list (string * string);
  ri_Predicate : string
}.

Record AuditTrail := {
  at_MatchedRules : list RuleInference;
  at_Timestamp : Z;
  at_EngineID : string;
  at_Query : string;
  at_FactCount : Z;
  at_MatchedCount : Z;
  at_LatencyMs : Z
}.

#[global] Instance rule_inference_eq_dec : EqDecision RuleInference.
Proof. solve_decision. Defined.
#[global] Instance audit_trail_eq_dec : EqDecision AuditTrail.
Proof. solve_decision. Defined.

(** [NewAuditTrail]; [now] is the wall clock it reads. *)
Definition NewAuditTrail (now : Z) (engineID query : string) : AuditTrail :=
  {| at_MatchedRules := []; at_Timestamp := now; at_EngineID := engineID;
     at_Query := query; at_FactCount := 0; at_MatchedCount := 0; at_LatencyMs := 0 |}.

Definition AddRule (a : AuditTrail) (ruleName definition sourceFile predicate tier : string)
    (bindings : list (string * string)) : AuditTrail :=
  {| at_MatchedRules := (at_MatchedRules a ++
       [{| ri_RuleName := ruleName; ri_Tier := tier; ri_Definition := definition;
           ri_SourceFile := sourceFile; ri_Bindings := bindings; ri_Predicate := predicate |}])%list;
     at_Timestamp := at_Timestamp a; at_EngineID := at_EngineID a; at_Query := at_Query a;
     at_FactCount := at_FactCount a; at_MatchedCount := at_MatchedCount a;
     at_LatencyMs := at_LatencyMs a |}.

Definition set_MatchedCount (n : Z) (a : AuditTrail) : AuditTrail :=
  {| at_MatchedRules := at_MatchedRules a; at_Timestamp := at_Timestamp a;
     at_EngineID := at_EngineID a; at_Query := at_Query a; at_FactCount := at_FactCount a;
     at_MatchedCount := n; at_LatencyMs := at_LatencyMs a |}.

(** ** Go values *)

(** What [reflect] exposes of a struct field. *)
Record FieldInfo := {
  fi_Name : string;
  fi_Exported : bool;
  fi_Anonymous : bool;
  fi_mangle : string;   (* the `mangle` struct tag, "" when absent *)
  fi_json : string      (* the `json` struct tag, "" when absent *)
}.

(** A reference: nil, or an address with the heap cell behind it. Two
    references may have the same address and different cells (a pointer to a
    struct and a pointer to its first field). *)
Definition Ref : Type := option (Z * nat).

#[warnings="-register-all"]
Inductive GoVal :=
| GNil
| GBool (b : bool)
| GInt (z : Z)
| GUint (z : Z)
| GFloat (g : string)        (* a float, by its %g text *)
| GStr (s : string)
| GOther (rendering : string) (* a kind with no case in the code, by its %v text *)
| GTrail (t : AuditTrail)     (* a *core.AuditTrail *)
| GIface (v : GoVal)          (* a value of static interface type; GIface GNil is a nil one *)
| GStruct (fields : list (FieldInfo * GoVal))
| GArray (elems : list GoVal)
| GPtr (r : Ref)
| GMap (r : Ref)
| GSlice (r : Ref).

Inductive Cell :=
| CellVal (v : GoVal)                     (* pointee *)
| CellMap (entries : list (string * GoVal)) (* keys by their %v text, in iteration order *)
| CellSlice (elems : list GoVal).

Abbreviation Heap := (gmap nat Cell).

Definition go_bool_text (b : bool) : string := if b then "true" else "false".
Definition go_int_text (z : Z) : string := pretty z.

(** ** Quads, atoms and violations *)

Record Quad := { q_Subject : string; q_Predicate : string; q_Object : string; q_Graph : string }.

(** [Atom.Weight] is 1.0 on every path that builds gate atoms. *)
Record GateAtom := { a_Predicate : string; a_Subject : string; a_Object : string }.

Record ViolationRule := { vr_RuleID : string; vr_Description : string; vr_Severity : Z }.

#[global] Instance quad_eq_dec : EqDecision Quad.
Proof. solve_decision. Defined.

(** ** Envelopes *)

(** [type ContentType string]. *)
Definition TypeStruct : string := "STRUCT".
Definition TypeJSON : string := "JSON".

Record Envelope := {
  env_ID : Z;                         (* uuid.UUID as a 128-bit number, 0 for the nil UUID *)
  env_Payload : GoVal;
  env_Metadata : gmap string GoVal;   (* a nil map reads as the empty map *)
  env_SecurityLabels : list string;
  env_Facts : list string;
  env_ContentType : string;
  env_ContextFacts : list Quad;
  env_Violations : list ViolationRule
}.

Definition emptyEnvelope : Envelope :=
  {| env_ID := 0; env_Payload := GNil; env_Metadata := ∅; env_SecurityLabels := [];
     env_Facts := []; env_ContentType := ""; env_ContextFacts := []; env_Violations := [] |}.

(** [NewEnvelope]; [id] is the fresh UUID. *)
Definition NewEnvelope (id : Z) (payload : GoVal) : Envelope :=
  {| env_ID := id; env_Payload := payload; env_Metadata := ∅; env_SecurityLabels := [];
     env_Facts := []; env_ContentType := TypeStruct; env_ContextFacts := []; env_Violations := [] |}.

Definition set_Metadata (m : gmap string GoVal) (e : Envelope) : Envelope :=
  {| env_ID := env_ID e; env_Payload := env_Payload e; env_Metadata := m;
     env_SecurityLabels := env_SecurityLabels e; env_Facts := env_Facts e;
     env_ContentType := env_ContentType e; env_ContextFacts := env_ContextFacts e;
     env_Violations := env_Violations e |}.

Definition set_Labels (l : list string) (e : Envelope) : Envelope :=
  {| env_ID := env_ID e; env_Payload := env_Payload e; env_Metadata := env_Metadata e;
     env_SecurityLabels := l; env_Facts := env_Facts e;
     env_ContentType := env_ContentType e; env_ContextFacts := env_ContextFacts e;
     env_Violations := env_Violations e |}.

Definition set_Facts (f : list string) (e : Envelope) : Envelope :=
  {| env_ID := env_ID e; env_Payload := env_Payload e; env_Metadata := env_Metadata e;
     env_SecurityLabels := env_SecurityLabels e; env_Facts := f;
     env_ContentType := env_ContentType e; env_ContextFacts := env_ContextFacts e;
     env_Violations := env_Violations e |}.

Definition set_ContextFacts (q : list Quad) (e : Envelope) : Envelope :=
  {| env_ID := env_ID e; env_Payload := env_Payload e; env_Metadata := env_Metadata e;
     env_SecurityLabels := env_SecurityLabels e; env_Facts := env_Facts e;
     env_ContentType := env_ContentType e; env_ContextFacts := q;
     env_Violations := env_Violations e |}.

Definition SetMeta (e : Envelope) (k : string) (v : GoVal) : Envelope :=
  set_Metadata (<[k := v]> (env_Metadata e)) e.

Definition HasLabel (e : Envelope) (label : string) : bool :=
  existsb (String.eqb label) (env_SecurityLabels e).

Definition AddLabel (e : Envelope) (label : string) : Envelope :=
  if HasLabel e label then e
  else set_Labels (env_SecurityLabels e ++ [label])%list e.

Definition MergeLabels (e : Envelope) (other : list string) : Envelope :=
  fold_left AddLabel other e.

(** ** Actions and decisions *)

Record ActionMetadata := {
  am_Name : string;
  am_Type : string;
  am_InputContentType : string;
  am_InputType : string;
  am_OutputType : string;
  am_IsDynamic : bool
}.

Definition named_action (name : string) : ActionMetadata :=
  {| am_Name := name; am_Type := ""; am_InputContentType := ""; am_InputType := "";
     am_OutputType := ""; am_IsDynamic := false |}.

Definition DecisionProceed : string := "PROCEED".
Definition DecisionHalt : string := "HALT".
Definition DecisionRetry : string := "RETRY".
Definition DecisionRoute : string := "ROUTE".

Definition EntityInput : string := "Req".
Definition EntityOutput : string := "Output".
Definition PredHalt : string := "halt".
Definition PredRetry : string := "retry".
Definition PredRoute : string := "route".
Definition PredViolation : string := "violation_msg".

Definition KeyDecision : string := "manglekit.decision".
Definition KeyFeedback : string := "manglekit.feedback".
Definition KeyPrevFeedback : string := "prev_feedback".
Definition KeyNextStep : string := "manglekit.next_step".

(** An action call; arguments by name. *)
Record ActionEnvelope := {
  ac_Name : string;
  ac_Arguments : gmap string GoVal;
  ac_SessionID : string
}.

(** [NewActionEnvelope]; nil arguments become an empty map. *)
Definition NewActionEnvelope (name : string) (args : option (gmap string GoVal)) : ActionEnvelope :=
  {| ac_Name := name; ac_Arguments := default ∅ args; ac_SessionID := "" |}.
Definition action_WithSessionID (sessionID : string) (a : ActionEnvelope) : ActionEnvelope :=
  {| ac_Name := ac_Name a; ac_Arguments := ac_Arguments a; ac_SessionID := sessionID |}.

Record Decision := {
  d_Outcome : string;
  d_Target : string;
  d_Reasons : list string;
  d_Meta : list (string * string);
  d_AuditTrail : option AuditTrail;
  d_Action : option ActionEnvelope
}.

(** [Decision{Outcome, Reasons, Meta, AuditTrail}]: the other fields zero. *)
Definition policy_decision (outcome : string) (reasons : list string) (meta : list (string * string))
    (trail : option AuditTrail) : Decision :=
  {| d_Outcome := outcome; d_Target := ""; d_Reasons := reasons; d_Meta := meta; d_AuditTrail := trail;
     d_Action := None |}.

(** ** Trust tiers and audit results ([internal/core/domain]) *)

Definition Tier0Kernel : string := "TIER_0".
Definition Tier1Admin : string := "TIER_1".
Definition Tier2AI : string := "TIER_2".
Definition Tier3User : string := "TIER_3".

Record AuditResult := {
  ar_Pass : bool;
  ar_ViolationTier : string;
  ar_ConflictPath : string;
  ar_Trail : option AuditTrail
}.

(** ** Properties of the label operations *)

Lemma HasLabel_spec e l : HasLabel e l = true <-> l ∈ env_SecurityLabels e.
Proof.
  unfold HasLabel. rewrite existsb_exists. setoid_rewrite String.eqb_eq.
  rewrite list_elem_of_In. naive_solver.
Qed.

Lemma AddLabel_elem e l x :
  x ∈ env_SecurityLabels (AddLabel e l) <-> x = l \/ x ∈ env_SecurityLabels e.
Proof.
  unfold AddLabel. destruct (HasLabel e l) eqn:E; simpl.
  - apply HasLabel_spec in E. naive_solver.
  - rewrite elem_of_app, list_elem_of_singleton. naive_solver.
Qed.

Lemma AddLabel_nodup e l :
  NoDup (env_SecurityLabels e) -> NoDup (env_SecurityLabels (AddLabel e l)).
Proof.
  unfold AddLabel. intros H. destruct (HasLabel e l) eqn:E; [done|]. simpl.
  apply NoDup_app. split_and!; [done| |apply NoDup_singleton].
  intros x Hx ->%list_elem_of_singleton. apply HasLabel_spec in Hx. congruence.
Qed.

Lemma AddLabel_prefix e l : env_SecurityLabels e `prefix_of` env_SecurityLabels (AddLabel e l).
Proof. unfold AddLabel. destruct (HasLabel e l); simpl; [done|by eexists]. Qed.

(** Taint propagation: merging labels yields exactly the union of the two
    label sets, keeps existing labels in place, and never introduces a
    duplicate into a duplicate-free list. *)
Lemma MergeLabels_spec (e : Envelope) (other : list string) :
  (forall x, x ∈ env_SecurityLabels (MergeLabels e other)
             <-> x ∈ env_SecurityLabels e \/ x ∈ other) /\
  env_SecurityLabels e `prefix_of` env_SecurityLabels (MergeLabels e other) /\
  (NoDup (env_SecurityLabels e) -> NoDup (env_SecurityLabels (MergeLabels e other))).
Proof.
  unfold MergeLabels. revert e. induction other as [|l other IH]; intros e; simpl.
  - split_and!; [set_solver|done|done].
  - destruct (IH (AddLabel e l)) as (H1 & H2 & H3). split_and!.
    + intros x. rewrite H1, AddLabel_elem. set_solver.
    + etrans; [apply AddLabel_prefix|done].
    + intros H. apply H3. by apply AddLabel_nodup.
Qed.
