(* ===== verification/Facts.v ===== *)
(** * From Go values to Datalog facts

    [internal/engine/reflection.go] ([escapeString], [LabelsToFacts],
    [ToFacts]), [internal/engine/flattener.go] ([Flatten]) and the fact
    rendering of [internal/supervisor/sdk_adapter.go] ([atomToDatalog]). *)
From S2P Require Import Prelude GoStrings CoreErrors CoreTypes.
From Stdlib Require Import Ascii String.
Open Scope string_scope.

(** ** Escaping *)

Definition escape_byte (c : ascii) : string :=
  let z := bval c in
  if ((z =? 92) || (z =? 34))%Z then String c_bs (String c "")
  else if (z =? 10)%Z then String c_bs "n"
  else if (z =? 13)%Z then String c_bs "r"
  else if (z =? 9)%Z then String c_bs "t"
  else if (z <? 32)%Z then " "
  else String c "".

Fixpoint escapeString (s : string) : string :=
  match s with
  | "" => ""
  | String c s' => escape_byte c +:+ escapeString s'
  end.

Definition EscapeString (s : string) : string := escapeString s.

Definition quoted (s : string) : string := dq +:+ s +:+ dq.

Definition label_fact (l : string) : string := "label(" +:+ quoted (escapeString l) +:+ ")".

Definition LabelsToFacts (entityID : string) (labels : list string) : list string :=
  map label_fact labels.

(** ** Rendering of gate atoms *)

Definition ident_start (c : ascii) : bool :=
  let z := bval c in
  (((65 <=? z) && (z <=? 90)) || ((97 <=? z) && (z <=? 122)) || (z =? 95))%Z.
Definition ident_char (c : ascii) : bool :=
  let z := bval c in ident_start c || ((48 <=? z) && (z <=? 57))%Z.

(** [predicateIdentRE]: [^[A-Za-z_][A-Za-z0-9_]*$]. *)
Definition is_ident (s : string) : bool :=
  match s with
  | "" => false
  | String c s' => ident_start c && all_bytes ident_char s'
  end.

Definition atomToDatalog (pred subject object : string) : string :=
  if negb (is_ident pred) then ""
  else pred +:+ "(" +:+ quoted (EscapeString subject) +:+ ", "
       +:+ quoted (EscapeString object) +:+ ").".

(** ** Reading facts back

    A reference reader of quoted Datalog string constants: what the fact text
    means to a lexer that ends a constant at the first unescaped quote. *)

Definition unescape_char (c : ascii) : ascii :=
  let z := bval c in
  if (z =? 110)%Z then c_nl else if (z =? 114)%Z then c_cr
  else if (z =? 116)%Z then c_tab else c.

(** Body of a constant whose opening quote was read: the decoded value and
    the text after the closing quote. *)
Fixpoint read_const (s : string) : option (string * string) :=
  match s with
  | "" => None
  | String c s' =>
      if (bval c =? 34)%Z then Some ("", s')
      else if (bval c =? 92)%Z then
        match s' with
        | "" => None
        | String d s'' =>
            match read_const s'' with
            | Some (v, r) => Some (String (unescape_char d) v, r)
            | None => None
            end
        end
      else match read_const s' with
           | Some (v, r) => Some (String c v, r)
           | None => None
           end
  end.

(** The value a payload string denotes: control characters other than tab,
    newline and carriage return are blanked. *)
Definition sanitize_byte (c : ascii) : ascii :=
  let z := bval c in
  if ((z <? 32) && negb ((z =? 9) || (z =? 10) || (z =? 13)))%Z then c_sp else c.
Definition sanitize (s : string) : string := map_bytes sanitize_byte s.

Lemma read_const_escape_byte c s :
  read_const (escape_byte c +:+ s)
  = match read_const s with
    | Some (v, r) => Some (String (sanitize_byte c) v, r)
    | None => None
    end.
Proof.
  destruct c as [[] [] [] [] [] [] [] []]; vm_compute escape_byte; vm_compute sanitize_byte;
    cbn; reflexivity.
Qed.

Lemma read_const_escape s rest :
  read_const (escapeString s +:+ dq +:+ rest) = Some (sanitize s, rest).
Proof.
  induction s as [|c s IH]; [reflexivity|].
  cbn [escapeString]. rewrite <- str_app_assoc, read_const_escape_byte, IH. reflexivity.
Qed.

Definition strip_prefix (p s : string) : option string :=
  if has_prefix s p then Some (str_drop (String.length p) s) else None.

Fixpoint take_ident (s : string) : string * string :=
  match s with
  | "" => ("", "")
  | String c s' => if ident_char c then let '(i, r) := take_ident s' in (String c i, r) else ("", s)
  end.

(** Reference reader of a two-argument fact [pred("a", "b").]. *)
Definition read_fact2 (s : string) : option (string * string * string) :=
  let '(pred, r) := take_ident s in
  r1 ← strip_prefix ("(" +:+ dq) r;
  '(a, r2) ← read_const r1;
  r3 ← strip_prefix (", " +:+ dq) r2;
  '(b, r4) ← read_const r3;
  if String.eqb r4 ")." then Some (pred, a, b) else None.

Lemma strip_prefix_app p s : strip_prefix p (p +:+ s) = Some s.
Proof.
  unfold strip_prefix. rewrite (proj2 (has_prefix_spec _ _)) by eauto. by rewrite str_drop_app.
Qed.

Lemma take_ident_app p s :
  all_bytes ident_char p = true ->
  match s with "" => True | String c _ => ident_char c = false end ->
  take_ident (p +:+ s) = (p, s).
Proof.
  intros Hp Hs. induction p as [|c p IH]; simpl in *.
  - destruct s; simpl; [done|]. by rewrite Hs.
  - apply andb_true_iff in Hp as [-> Hp]. by rewrite IH.
Qed.

Lemma is_ident_chars p : is_ident p = true -> all_bytes ident_char p = true.
Proof.
  destruct p as [|c p]; simpl; [done|]. intros [Hc Hp]%andb_true_iff.
  unfold ident_char at 1. by rewrite Hc, Hp.
Qed.

Lemma fact2_shape a b :
  "(" +:+ quoted a +:+ ", " +:+ quoted b +:+ ")."
  = ("(" +:+ dq) +:+ (a +:+ dq +:+ ((", " +:+ dq) +:+ (b +:+ dq +:+ ")."))).
Proof. unfold quoted. by rewrite <- ?str_app_assoc. Qed.

Lemma atomToDatalog_reads pred subject object :
  is_ident pred = true -> read_fact2 (atomToDatalog pred subject object) = Some (pred, sanitize subject, sanitize object).
Proof.
  intros E. unfold atomToDatalog, EscapeString. rewrite E.
  cbn [negb]. rewrite fact2_shape. unfold read_fact2.
  rewrite take_ident_app by (try apply is_ident_chars; done).
  rewrite strip_prefix_app. cbn [mbind option_bind]. rewrite read_const_escape.
  cbn [mbind option_bind]. rewrite strip_prefix_app. cbn [mbind option_bind].
  by rewrite read_const_escape.
Qed.

(** C15: no payload value can break out of its string constant: a rendered
    gate fact, read back, has exactly the predicate and the (control-character
    blanked) subject and object it was built from, whatever quotes,
    backslashes or newlines they contain; and a predicate that is not a plain
    identifier yields no fact at all. *)
Theorem atomToDatalog_no_injection (pred subject object : string) :
  if is_ident pred
  then read_fact2 (atomToDatalog pred subject object)
       = Some (pred, sanitize subject, sanitize object)
  else atomToDatalog pred subject object = "".
Proof.
  destruct (is_ident pred) eqn:E; [by apply atomToDatalog_reads|]. unfold atomToDatalog. by rewrite E.
Qed.
