(* ===== verification/Reflect.v ===== *)
(** * Reflection of payloads into facts

    [ToFacts] / [toFactsRecursive] / [generatePrimitiveFact] of
    [internal/engine/reflection.go] and [Flatten] / [flattenRecursive] /
    [addPrimitiveReflect] of [internal/engine/flattener.go], over the heap
    model of [CoreTypes].

    Both functions recurse through pointers, so the models take fuel and
    return [None] when it runs out.  [ToFacts] is given enough fuel by
    [to_facts_fuel], and [ToFacts_total] proves it never runs out, on cyclic
    heaps included. *)
From S2P Require Import Prelude GoStrings CoreErrors CoreTypes Facts.
From Stdlib Require Import Ascii String.
Open Scope string_scope.

Section Reflection.
(** The Unicode case mapping used by [strings.ToLower] on non-ASCII field
    names, and fmt's [%v] text of a composite value (pointer addresses are
    part of it), which the code only reaches for values it has no case for. *)
Context (unicode_lower : string -> string) (render : GoVal -> string) (h : Heap).

(** [fmt.Sprintf("%v", v)]. *)
Definition fmt_v (v : GoVal) : string :=
  match v with
  | GStr s => s
  | GBool b => go_bool_text b
  | GInt z | GUint z => go_int_text z
  | GFloat g => g
  | GOther r => r
  | GNil => "<nil>"
  | _ => render v
  end.

Definition primitive_text (v : GoVal) : string * bool :=
  match v with
  | GInt z => (go_int_text z, true)
  | GUint z => (go_int_text z, true)
  | GFloat g => (g, true)
  | GBool b => (go_bool_text b, false)
  | _ => (fmt_v v, false)
  end.

Definition generatePrimitiveFact (id path : string) (v : GoVal) (args : list string) : string :=
  let '(strVal, isNumeric) := primitive_text v in
  let predicate := if String.eqb path "" then "value" else path in
  predicate +:+ "(" +:+ quoted (escapeString id)
  +:+ String.concat "" (map (fun a => ", " +:+ quoted (escapeString a)) args)
  +:+ ", " +:+ (if isNumeric then strVal else quoted (escapeString strVal)) +:+ ")".

(** Name of a struct field in the facts, [None] when the field is skipped. *)
Definition field_path (path : string) (f : FieldInfo) : option string :=
  if negb (fi_Exported f) then None
  else if String.eqb (fi_mangle f) "-" then None
  else if String.eqb (fi_json f) "-" || has_prefix (fi_json f) "-," then None
  else
    let fieldName :=
      if negb (String.eqb (fi_mangle f) "") then fi_mangle f
      else
        let n := match split_on c_comma (fi_json f) with x :: _ => x | [] => "" end in
        if String.eqb n "" then to_lower unicode_lower (fi_Name f) else n in
    if fi_Anonymous f && String.eqb (fi_mangle f) "" && String.eqb (fi_json f) ""
    then Some path
    else if String.eqb path "" then Some fieldName
    else Some (path +:+ "_" +:+ fieldName).

Fixpoint strip_iface (v : GoVal) : GoVal :=
  match v with GIface w => strip_iface w | _ => v end.

Definition map_entries (r : Ref) : list (string * GoVal) :=
  match r with
  | Some (_, c) => match h !! c with Some (CellMap es) => es | _ => [] end
  | None => []
  end.
Definition slice_elems (r : Ref) : list GoVal :=
  match r with
  | Some (_, c) => match h !! c with Some (CellSlice es) => es | _ => [] end
  | None => []
  end.
Definition pointee (c : nat) : GoVal :=
  match h !! c with Some (CellVal v) => v | _ => GNil end.

Definition index_args (args : list string) (es : list GoVal) : list (list string * GoVal) :=
  imap (fun i e => ((args ++ [go_int_text (Z.of_nat i)])%list, e)) es.

(** The sub-values the switch on [v.Kind()] recurses into, with the path and
    arguments of the recursive call; [None] for a primitive. *)
Definition sub_values (path : string) (args : list string) (w : GoVal)
  : option (list (string * list string * GoVal)) :=
  match w with
  | GStruct fs =>
      Some (omap (fun '(f, x) => (fun p => (p, args, x)) <$> field_path path f) fs)
  | GMap r => Some (map (fun '(k, x) => (path, (args ++ [k])%list, x)) (map_entries r))
  | GSlice r => Some (map (fun '(a, x) => (path, a, x)) (index_args args (slice_elems r)))
  | GArray es => Some (map (fun '(a, x) => (path, a, x)) (index_args args es))
  | _ => None
  end.

Fixpoint toFactsRecursive (fuel : nat) (id path : string) (v : GoVal) (visited : gset Z)
    (args : list string) : option (list string) :=
  match fuel with
  | O => None
  | S fuel' =>
      let switch (w : GoVal) (visited' : gset Z) : option (list string) :=
        match sub_values path args w with
        | Some subs =>
            mjoin <$> mapM (fun '(p, a, x) => toFactsRecursive fuel' id p x visited' a) subs
        | None => Some [generatePrimitiveFact id path w args]
        end in
      match strip_iface v with
      | GNil => Some []
      | GPtr None | GMap None | GSlice None => Some []
      | GPtr (Some (a, c)) =>
          if decide (a ∈ visited) then Some [] else switch (pointee c) ({[a]} ∪ visited)
      | GMap (Some (a, c)) as w | GSlice (Some (a, c)) as w =>
          if decide (a ∈ visited) then Some [] else switch w ({[a]} ∪ visited)
      | w => switch w visited
      end
  end.

(** ** Fuel *)

Fixpoint gsize (v : GoVal) : nat :=
  match v with
  | GIface w => S (gsize w)
  | GStruct fs => S (sum_list (map (fun '(_, w) => gsize w) fs))
  | GArray es => S (sum_list (map gsize es))
  | _ => 1
  end.

Fixpoint addrs (v : GoVal) : list Z :=
  match v with
  | GIface w => addrs w
  | GStruct fs => mjoin (map (fun '(_, w) => addrs w) fs)
  | GArray es => mjoin (map addrs es)
  | GPtr (Some (a, _)) | GMap (Some (a, _)) | GSlice (Some (a, _)) => [a]
  | _ => []
  end.

Definition cell_values (c : Cell) : list GoVal :=
  match c with
  | CellVal v => [v]
  | CellMap es => map snd es
  | CellSlice es => es
  end.

Definition heap_values : list GoVal := mjoin (map (fun '(_, c) => cell_values c) (map_to_list h)).

Definition universe (v : GoVal) : gset Z :=
  list_to_set (addrs v ++ mjoin (map addrs heap_values)).
Definition max_size (v : GoVal) : nat := gsize v + sum_list (map gsize heap_values).

(** Every address is entered at most once along a path, and between two
    entries the values get smaller. *)
Definition to_facts_fuel (v : GoVal) : nat :=
  S (size (universe v) * S (max_size v) + max_size v).

Definition ToFacts (id : string) (input : GoVal) : option (list string) :=
  match input with
  | GNil => Some []
  | _ => toFactsRecursive (to_facts_fuel input) id "" input ∅ []
  end.

(** ** Flatten *)

Definition isComplexKind (v : GoVal) : bool :=
  match v with GMap _ | GSlice _ | GArray _ => true | _ => false end.

(** The loops that unwrap interfaces and pointers until a nil or another
    kind; [None] when the fuel runs out (a pointer type that points to
    itself). *)
Fixpoint unwrap (fuel : nat) (v : GoVal) : option GoVal :=
  match fuel with
  | O => None
  | S f => match v with
           | GIface GNil => Some v
           | GIface w => unwrap f w
           | GPtr (Some (_, c)) => unwrap f (pointee c)
           | _ => Some v
           end
  end.

Definition json_fact (pred node key val : string) : string :=
  pred +:+ "(" +:+ quoted node +:+ ", " +:+ quoted key +:+ ", " +:+ val +:+ ")".

(** [addPrimitiveReflect] on an unwrapped value. *)
Definition addPrimitiveReflect (nodeID key : string) (v : GoVal) : list string :=
  let node := escapeString nodeID in
  match v with
  | GIface _ | GPtr _ => []
  | GStr s => [json_fact "json_str" node key (quoted (escapeString s))]
  | GBool b => [json_fact "json_bool" node key (quoted (go_bool_text b))]
  | GInt z | GUint z => [json_fact "json_num" node key (go_int_text z)]
  | GFloat g => [json_fact "json_num" node key g]
  | _ => [json_fact "json_str" node key (quoted (escapeString (fmt_v v)))]
  end.

Definition node_id (n : Z) : string := "node_" +:+ go_int_text n.

(** Children of the value being flattened: escaped key and value. *)
Definition flatten_children (w : GoVal) : list (string * GoVal) :=
  match w with
  | GMap r => map (fun '(k, x) => (escapeString k, x)) (map_entries r)
  | GSlice r => imap (fun i x => (go_int_text (Z.of_nat i), x)) (slice_elems r)
  | GArray es => imap (fun i x => (go_int_text (Z.of_nat i), x)) es
  | _ => []
  end.

(** State of the traversal: facts so far, node counter, visited pointers
    (never removed). *)
Definition FlatState : Type := list string * Z * gset Z.

Fixpoint flattenRecursive (fuel : nat) (nodeID : string) (v : GoVal) (st : FlatState)
  : option FlatState :=
  match fuel with
  | O => None
  | S f =>
      match v with
      | GIface GNil => Some st
      | GIface w => flattenRecursive f nodeID w st
      | GPtr None => Some st
      | GPtr (Some (a, c)) =>
          let '(facts, counter, visited) := st in
          if decide (a ∈ visited) then Some st
          else flattenRecursive f nodeID (pointee c) (facts, counter, {[a]} ∪ visited)
      | w =>
          foldl (fun (acc : option FlatState) '(key, x) =>
              '(facts, counter, visited) ← acc;
              eff ← unwrap f x;
              if isComplexKind eff then
                let counter' := (counter + 1)%Z in
                let child := node_id counter' in
                flattenRecursive f child x
                  ((facts ++ [json_fact "json_link" (escapeString nodeID) key (quoted child)])%list,
                   counter', visited)
              else Some ((facts ++ addPrimitiveReflect nodeID key eff)%list, counter, visited))
            (Some st) (flatten_children w)
      end
  end.

Definition Flatten (fuel : nat) (rootID : string) (input : GoVal) : option (list string) :=
  match input with
  | GNil => Some []
  | _ => (fun '(facts, _, _) => facts) <$> flattenRecursive fuel rootID input ([], 0%Z, ∅)
  end.

End Reflection.

(** ** ToFacts terminates on every heap *)

Section Termination.
Context (unicode_lower : string -> string) (render : GoVal -> string) (h : Heap).

Lemma strip_iface_size v : gsize (strip_iface v) <= gsize v.
Proof. induction v; simpl; lia. Qed.

Lemma strip_iface_addrs v : addrs (strip_iface v) = addrs v.
Proof. induction v; simpl; auto. Qed.

Lemma sum_list_elem n l : n ∈ l -> n <= sum_list l.
Proof. induction 1; simpl; lia. Qed.

Lemma in_heap_values c cell x :
  h !! c = Some cell -> x ∈ cell_values cell -> x ∈ heap_values h.
Proof.
  intros Hc Hx. unfold heap_values. apply list_elem_of_join.
  exists (cell_values cell). split; [done|].
  apply list_elem_of_fmap. exists (c, cell). split; [done|]. by apply elem_of_map_to_list.
Qed.

Definition is_ref (w : GoVal) : bool :=
  match w with GMap _ | GSlice _ => true | _ => false end.

Lemma index_args_elem args es a x : (a, x) ∈ index_args args es -> x ∈ es.
Proof.
  unfold index_args. intros (i & z & Heq & Hz)%elem_of_lookup_imap.
  simplify_eq. by eapply list_elem_of_lookup_2.
Qed.

Lemma map_entries_heap r k x : (k, x) ∈ map_entries h r -> x ∈ heap_values h.
Proof.
  destruct r as [[ad c]|]; simpl; [|set_solver].
  destruct (h !! c) as [[]|] eqn:Hc; try set_solver.
  intros Hin. eapply in_heap_values; [done|]. apply list_elem_of_fmap. by exists (k, x).
Qed.

Lemma slice_elems_heap r x : x ∈ slice_elems h r -> x ∈ heap_values h.
Proof.
  destruct r as [[ad c]|]; simpl; [|set_solver].
  destruct (h !! c) as [[]|] eqn:Hc; try set_solver.
  intros Hin. by eapply in_heap_values.
Qed.

(** A sub-value of a map or slice is a value of the heap; a sub-value of a
    struct or array is a smaller component of it. *)
Lemma sub_values_elem path args w subs p a x :
  sub_values unicode_lower h path args w = Some subs -> (p, a, x) ∈ subs ->
  if is_ref w then x ∈ heap_values h
  else gsize x < gsize w /\ forall z, z ∈ addrs x -> z ∈ addrs w.
Proof.
  destruct w as [| | | | | | | |w|fs|es|r|r|r]; simpl; intros [= <-] Hin.
  - apply list_elem_of_omap in Hin as ([f v] & Hf & Hv).
    destruct (field_path _ _ _); simplify_eq/=. split.
    + enough (gsize x <= sum_list (map (λ '(_, w), gsize w) fs)) by lia.
      apply sum_list_elem, list_elem_of_fmap. by exists (f, x).
    + intros z Hz. apply list_elem_of_join. exists (addrs x). split; [done|].
      apply list_elem_of_fmap. by exists (f, x).
  - apply list_elem_of_fmap in Hin as ([a' v] & Heq & Hv). simplify_eq.
    apply index_args_elem in Hv. split.
    + enough (gsize v <= sum_list (map gsize es)) by lia.
      apply sum_list_elem, list_elem_of_fmap. eauto.
    + intros z Hz. apply list_elem_of_join. exists (addrs v). split; [done|].
      apply list_elem_of_fmap. eauto.
  - apply list_elem_of_fmap in Hin as ([k v] & Heq & Hv). simplify_eq. by eapply map_entries_heap.
  - apply list_elem_of_fmap in Hin as ([a' v] & Heq & Hv). simplify_eq.
    by eapply slice_elems_heap, index_args_elem.
Qed.

Definition bounded (U : gset Z) (M : nat) (v : GoVal) : Prop :=
  gsize v <= M /\ forall a, a ∈ addrs v -> a ∈ U.

Lemma bounded_sub U M path args w subs p a x :
  (forall y, y ∈ heap_values h -> bounded U M y) -> bounded U M w ->
  sub_values unicode_lower h path args w = Some subs -> (p, a, x) ∈ subs ->
  bounded U M x.
Proof.
  intros Hh [Hs Ha] Hsub Hin. pose proof (sub_values_elem _ _ _ _ _ _ _ Hsub Hin) as H.
  destruct (is_ref w); [by apply Hh|]. split; [lia|naive_solver].
Qed.

Lemma bounded_pointee U M c :
  (forall y, y ∈ heap_values h -> bounded U M y) -> 1 <= M -> bounded U M (pointee h c).
Proof.
  intros Hh HM. unfold pointee.
  assert (bounded U M GNil) by (split; simpl; [done|set_solver]).
  destruct (h !! c) as [[v| |]|] eqn:Hc; try done.
  apply Hh. eapply in_heap_values; [done|]. simpl. set_solver.
Qed.

(** A strictly larger visited set leaves strictly fewer addresses. *)
Lemma visited_shrinks (U V : gset Z) a :
  a ∈ U -> a ∉ V -> size (U ∖ ({[a]} ∪ V)) < size (U ∖ V).
Proof. intros HU HV. apply subset_size. set_solver. Qed.

(** One level of the traversal: the recursive calls have enough fuel when
    the visited set grew, or when a struct or array is being taken apart. *)
Lemma switch_enough U M fuel id path args w vis n :
  (forall y, y ∈ heap_values h -> bounded U M y) -> bounded U M w ->
  (forall p x a, bounded U M x -> size (U ∖ vis) * S M + gsize x < fuel ->
     is_Some (toFactsRecursive unicode_lower render h fuel id p x vis a)) ->
  (size (U ∖ vis) < n /\ n * S M <= fuel \/
   is_ref w = false /\ size (U ∖ vis) * S M + gsize w <= fuel) ->
  is_Some match sub_values unicode_lower h path args w with
          | Some subs => mjoin <$> mapM (λ '(p, a, x),
              toFactsRecursive unicode_lower render h fuel id p x vis a) subs
          | None => Some [generatePrimitiveFact render id path w args]
          end.
Proof.
  intros Hh Hw IH Hcase.
  destruct (sub_values _ _ _ _ _) as [subs|] eqn:Hs; [|done].
  apply fmap_is_Some, mapM_is_Some_2, Forall_forall. intros [[p a] x] Hin.
  assert (Hx : bounded U M x) by (eapply bounded_sub; eauto).
  apply IH; [done|]. pose proof (sub_values_elem _ _ _ _ _ _ _ Hs Hin) as Hsub.
  destruct Hx as [Hx _], Hcase as [[Hlt Hn]|[Hr Hn]]; [nia|].
  rewrite Hr in Hsub. lia.
Qed.

Lemma toFacts_fuel_enough U M fuel id path v visited args :
  (forall y, y ∈ heap_values h -> bounded U M y) -> bounded U M v -> 1 <= M ->
  size (U ∖ visited) * S M + gsize v < fuel ->
  is_Some (toFactsRecursive unicode_lower render h fuel id path v visited args).
Proof.
  intros Hh Hv HM. revert path v visited args Hv.
  induction fuel as [|fuel IH]; intros path v visited args Hv Hf; [lia|].
  assert (Hv' : bounded U M (strip_iface v)).
  { destruct Hv as [H1 H2]. pose proof (strip_iface_size v).
    split; [lia|]. by rewrite strip_iface_addrs. }
  pose proof (strip_iface_size v) as Hsz. cbn [toFactsRecursive].
  assert (Hin : forall w, strip_iface v = w -> is_ref w = false ->
    is_Some match sub_values unicode_lower h path args w with
          | Some subs => mjoin <$> mapM (λ '(p, a, x),
              toFactsRecursive unicode_lower render h fuel id p x visited a) subs
          | None => Some [generatePrimitiveFact render id path w args]
          end).
  { intros w <- Hr. eapply (switch_enough U M _ _ _ _ _ _ (size (U ∖ visited)));
      [done|done|intros; by apply IH|right; split; [done|lia]]. }
  assert (Hptr : forall a w, a ∈ U -> a ∉ visited -> bounded U M w ->
    is_Some match sub_values unicode_lower h path args w with
          | Some subs => mjoin <$> mapM (λ '(p, a', x),
              toFactsRecursive unicode_lower render h fuel id p x ({[a]} ∪ visited) a') subs
          | None => Some [generatePrimitiveFact render id path w args]
          end).
  { intros a w HU HV Hw. pose proof (visited_shrinks U visited a HU HV) as Hshr.
    eapply (switch_enough U M _ _ _ _ _ _ (size (U ∖ visited)));
      [done|done|intros; by apply IH|left; lia]. }
  destruct (strip_iface v) as [| | | | | | | |w|fs|es|[[a c]|]|[[a c]|]|[[a c]|]] eqn:E;
    try (by apply (Hin _ eq_refl)); try done.
  all: pose proof Hv' as [_ Ha]; simpl in Ha.
  all: destruct (decide (a ∈ visited)); [done|].
  all: apply Hptr; [set_solver|done|]; auto using bounded_pointee.
Qed.

Lemma sum_list_app l k : sum_list (l ++ k) = sum_list l + sum_list k.
Proof. induction l; simpl; lia. Qed.

Lemma gsize_pos v : 1 <= gsize v.
Proof. destruct v; simpl; lia. Qed.
End Termination.

Lemma ToFacts_some unicode_lower render (h : Heap) (id : string) (input : GoVal) :
  exists facts, ToFacts unicode_lower render h id input = Some facts.
Proof.
  assert (H : is_Some (toFactsRecursive unicode_lower render h (to_facts_fuel h input) id "" input ∅ [])).
  { apply toFacts_fuel_enough with (U := universe h input) (M := max_size h input).
    - intros v Hv. split.
      + unfold max_size. pose proof (sum_list_elem (gsize v) (map gsize (heap_values h))) as Hle.
        rewrite list_elem_of_fmap in Hle. specialize (Hle (ex_intro _ v (conj eq_refl Hv))). lia.
      + intros a Ha. unfold universe. rewrite elem_of_list_to_set, elem_of_app. right.
        apply list_elem_of_join. exists (addrs v). split; [done|]. apply list_elem_of_fmap. eauto.
    - split; [unfold max_size; lia|]. intros a Ha. unfold universe.
      rewrite elem_of_list_to_set, elem_of_app. by left.
    - unfold max_size. pose proof (gsize_pos input). lia.
    - unfold to_facts_fuel. rewrite difference_empty_L.
      enough (gsize input <= max_size h input) by lia. unfold max_size. lia. }
  unfold ToFacts. destruct input; first [by exists [] | by destruct H as [facts Hf]; exists facts].
Qed.

(** C26: [ToFacts] is total: on every payload and every heap - shared pointers
    and reference cycles included - the recursion ends and facts are returned;
    the cycle check on addresses is enough. *)
Theorem ToFacts_total unicode_lower render (h : Heap) (id : string) (input : GoVal) :
  exists facts, ToFacts unicode_lower render h id input = Some facts.
Proof. apply ToFacts_some. Qed.

(** A map that contains itself ([m["self"] = m]). *)
Definition cyclic_heap : Heap := {[ 0%nat := CellMap [("self", GIface (GMap (Some (1%Z, 0%nat))))] ]}.
Definition cyclic_map : GoVal := GMap (Some (1%Z, 0%nat)).

Lemma flattenRecursive_cyclic render fuel node st :
  flattenRecursive render cyclic_heap fuel node cyclic_map st = None /\
  flattenRecursive render cyclic_heap fuel node (GIface cyclic_map) st = None.
Proof.
  revert node st. induction fuel as [|f IH]; intros node st; [done|].
  split; [|apply IH].
  assert (Hc : flatten_children cyclic_heap (GMap (Some (1%Z, 0%nat)))
               = [("self", GIface cyclic_map)]) by reflexivity.
  unfold cyclic_map at 1. cbn [flattenRecursive]. rewrite Hc.
  destruct st as [[facts counter] visited]. cbn [foldl mbind option_bind].
  destruct f as [|[|f']]; [done|done|]. unfold cyclic_map at 1. cbn [unwrap mbind option_bind isComplexKind].
  apply IH.
Qed.

(** [Flatten], unlike [ToFacts], does not terminate on a cyclic map: its
    visited set only records pointers, so whatever the fuel the traversal of a
    map that contains itself never produces a result. *)
Theorem Flatten_diverges_on_cyclic_map render (fuel : nat) (rootID : string) :
  Flatten render cyclic_heap fuel rootID cyclic_map = None.
Proof. unfold Flatten, cyclic_map. fold cyclic_map. by rewrite (proj1 (flattenRecursive_cyclic _ _ _ _)). Qed.
