(* ===== verification/Sources.v ===== *)
(** * Policy sources

    The text processing of [internal/engine/runtime.go] that happens before a
    policy reaches the Datalog parser: [cleanSource] (comments and blank
    lines), [declSym] / [collectCallerDecls] (the [Decl] scan) and
    [prependStdLibIfMissing] (the merge of the standard library), with the
    file classification of [Load]. *)
From S2P Require Import Prelude GoStrings CoreErrors Facts.
From Stdlib Require Import Ascii String.
Open Scope string_scope.

Definition isRuleFile (p : string) : bool := has_suffix p ".dlog" || has_suffix p ".dl".

Definition isFactFile (p : string) : bool :=
  has_suffix p ".facts" || has_suffix p ".fact" || has_suffix p ".edb" || has_suffix p ".data".

(** ** cleanSource *)

Definition bom : string := String (byte 239) (String (byte 187) (String (byte 191) "")).

Definition is_comment_start (s : string) : bool := has_prefix s "%" || has_prefix s "//".

(** Scan of one line for the start of a comment outside quotes: [prev] is the
    previous byte (an escaped quote does not toggle), the result the text
    before the comment. *)
Fixpoint cut_comment (prev : option ascii) (inQuote : bool) (s : string) : string :=
  match s with
  | "" => ""
  | String c s' =>
      let escaped := match prev with Some p => (bval p =? 92)%Z | None => false end in
      let inQuote' := if (bval c =? 34)%Z && negb escaped then negb inQuote else inQuote in
      if negb inQuote' && is_comment_start s then ""
      else String c (cut_comment (Some c) inQuote' s')
  end.

(** One line of [cleanSource]: [None] when the line is dropped. *)
Definition clean_line (ln : string) : option string :=
  let trimLn := trim_space ln in
  if String.eqb trimLn "" then None
  else if is_comment_start trimLn then None
  else
    let ln' := cut_comment None false ln in
    if String.eqb (trim_space ln') "" then None else Some ln'.

Definition cleanSource (raw : string) : string :=
  let raw := if has_prefix raw bom then str_drop 3 raw else raw in
  let s := replace_all (String c_cr nl) nl raw in
  join nl (omap clean_line (split_on c_nl s)).

(** ** Decl scanning *)

Definition re_space (c : ascii) : bool :=
  let z := bval c in ((z =? 9) || (z =? 10) || (z =? 12) || (z =? 13) || (z =? 32))%Z.

Fixpoint skip_space (s : string) : string :=
  match s with
  | "" => ""
  | String c s' => if re_space c then skip_space s' else s
  end.

Fixpoint until_rpar (s : string) : option string :=
  match s with
  | "" => None
  | String c s' => if Ascii.eqb c c_rpar then Some "" else String c <$> until_rpar s'
  end.

(** An identifier at the front of a string, with the rest. *)
Definition re_ident (s : string) : option (string * string) :=
  let '(i, r) := take_ident s in if is_ident i then Some (i, r) else None.

(** [clauseHeadRE]: the predicate at the head of a rule or fact line. *)
Definition clause_head (line : string) : option string :=
  '(i, r) ← re_ident (skip_space line);
  match skip_space r with
  | String c _ => if Ascii.eqb c c_lpar then Some i else None
  | "" => None
  end.

(** A predicate symbol: name and arity. *)
Definition PredSym : Type := string * Z.

(** [declSym] with [declLineRE]. *)
Definition declSym (line : string) : option PredSym :=
  r ← strip_prefix "Decl" (skip_space line);
  match r with
  | "" => None
  | String c _ =>
      if re_space c then
        '(i, r2) ← re_ident (skip_space r);
        match skip_space r2 with
        | String d r3 =>
            if Ascii.eqb d c_lpar then
              args ← until_rpar r3;
              Some (i, if String.eqb (trim_space args) "" then 0%Z
                       else Z.of_nat (List.length (split_on c_comma (trim_space args))))
            else None
        | "" => None
        end
      else None
  end.

Definition collectCallerDecls (source : string) : gset PredSym :=
  list_to_set (omap (fun line => declSym (trim_space line)) (split_on c_nl source)).

(** ** prependStdLibIfMissing *)

(** Whether a line of the standard library starts a statement to drop. *)
Definition drop_line (callerDecls : gset PredSym) (ext : gset string) (trimmed : string) : bool :=
  if has_prefix trimmed "Decl " then
    match declSym trimmed with
    | Some sym => bool_decide (sym ∈ callerDecls) || bool_decide (fst sym ∈ ext)
    | None => false
    end
  else if negb (bool_decide (ext = ∅)) && negb (has_prefix trimmed "%")
          && negb (has_prefix trimmed "//") then
    match clause_head trimmed with
    | Some i => bool_decide (i ∈ ext)
    | None => false
    end
  else false.

(** The filter loop over the lines of the standard library. *)
Fixpoint filter_std (callerDecls : gset PredSym) (ext : gset string) (skipping : bool)
    (lines : list string) : list string :=
  match lines with
  | [] => []
  | line :: rest =>
      let trimmed := trim_space line in
      if skipping then filter_std callerDecls ext (negb (has_suffix trimmed ".")) rest
      else if drop_line callerDecls ext trimmed
           then filter_std callerDecls ext (negb (has_suffix trimmed ".")) rest
           else line :: filter_std callerDecls ext false rest
  end.

Definition prependStdLibIfMissing (stdLib source : string) (callerDecls : gset PredSym)
    (ext : gset string) : string :=
  if bool_decide (callerDecls = ∅) && bool_decide (ext = ∅) then stdLib +:+ nl +:+ source
  else fold_right (fun l acc => l +:+ nl +:+ acc) source
         (filter_std callerDecls ext false (split_on c_nl stdLib)).

(** ** Properties *)

Lemma filter_std_kept callerDecls ext skipping lines line :
  line ∈ filter_std callerDecls ext skipping lines ->
  line ∈ lines /\ drop_line callerDecls ext (trim_space line) = false.
Proof.
  revert skipping. induction lines as [|l lines IH]; intros skipping; simpl; [set_solver|].
  intros Hin. destruct skipping.
  - destruct (IH _ Hin). split; [set_solver|done].
  - destruct (drop_line _ _ (trim_space l)) eqn:E.
    + destruct (IH _ Hin). split; [set_solver|done].
    + apply elem_of_cons in Hin as [->|Hin]; [split; [set_solver|done]|].
      destruct (IH _ Hin). split; [set_solver|done].
Qed.

(** The standard-library merge is collision free: no line that survives
    the filter declares a predicate the caller already declares (same name
    and arity) or one registered as an external predicate, and none starts a
    clause whose head is an external predicate. *)
Theorem stdlib_merge_collision_free (callerDecls : gset PredSym) (ext : gset string)
    (stdLib line : string) :
  line ∈ filter_std callerDecls ext false (split_on c_nl stdLib) ->
  (has_prefix (trim_space line) "Decl " = true ->
     forall sym, declSym (trim_space line) = Some sym -> sym ∉ callerDecls /\ fst sym ∉ ext) /\
  (has_prefix (trim_space line) "Decl " = false ->
     has_prefix (trim_space line) "%" = false -> has_prefix (trim_space line) "//" = false ->
     forall p, clause_head (trim_space line) = Some p -> p ∉ ext).
Proof.
  intros [_ Hd]%filter_std_kept. unfold drop_line in Hd. split.
  - intros HD sym Hs. rewrite HD, Hs in Hd. apply orb_false_iff in Hd as [H1 H2].
    by rewrite bool_decide_eq_false in H1, H2.
  - intros HD H1 H2 p Hp. rewrite HD, H1, H2, Hp in Hd.
    destruct (decide (ext = ∅)) as [->|Hne]; [set_solver|].
    rewrite bool_decide_eq_false_2 in Hd by done. simpl in Hd. by rewrite bool_decide_eq_false in Hd.
Qed.

Definition std_excerpt : string :=
  "Decl halt(Entity, Reason)." +:+ nl +:+ "Decl meta(Key, Value)." +:+ nl
  +:+ "triple(S, P, O) :-" +:+ nl +:+ "  quad(S, P, O, _)." +:+ nl +:+ "halt(R) :- deny(R).".

Lemma stdlib_merge_collision_free_witness :
  let kept := filter_std {[("halt", 2%Z)]} {["triple"]} false (split_on c_nl std_excerpt) in
  kept = ["Decl meta(Key, Value)."; "halt(R) :- deny(R)."] /\
  ("meta", 2%Z) ∉ ({[("halt", 2%Z)]} : gset PredSym).
Proof.
  split; [vm_compute; reflexivity|].
  refine (proj1 (proj1 (stdlib_merge_collision_free {[("halt", 2%Z)]} {["triple"]} std_excerpt
    "Decl meta(Key, Value)." _) _ ("meta", 2%Z) _)).
  - apply (proj2 (list_elem_of_In _ _)). vm_compute. left. reflexivity.
  - vm_compute. reflexivity.
  - vm_compute. reflexivity.
Defined.
