(* ===== verification/Datalog.v ===== *)
(** * The Datalog library, seen from the engine

    What [internal/engine] uses of the external mangle-go library: its terms
    and atoms as data, and the fact store, parser, analyser and evaluator as
    type-class interfaces with the behaviour the engine relies on as laws.
    [list_store] is the instance of the store interface over lists. *)
From S2P Require Import Prelude GoStrings CoreErrors Sources.
From Stdlib Require Import Ascii String.
Open Scope string_scope.

Inductive Constant :=
| CString (s : string)
| CName (s : string)
| CNumber (z : Z)
| CFloat64 (g : string)     (* by its %g text *)
| CComposite (s : string).  (* list, map, struct, ... constants, by their text *)

Inductive BaseTerm :=
| TConst (c : Constant)
| TVar (s : string)
| TApply (s : string).      (* a function application, by its text *)

Record Atom := { atom_sym : string; atom_args : list BaseTerm }.

Inductive Premise :=
| PAtom (a : Atom)
| PNeg (a : Atom)
| PEq (l r : BaseTerm)
| PIneq (l r : BaseTerm)
| POther (text : string).

Record Clause := { cl_head : Atom; cl_premises : list Premise }.

(** A parsed source unit; [su_decls] are its declarations, by symbol. *)
Record SourceUnit := { su_decls : list PredSym; su_clauses : list Clause }.

Definition predicate (a : Atom) : PredSym := (atom_sym a, Z.of_nat (List.length (atom_args a))).

#[global] Instance constant_eq_dec : EqDecision Constant.
Proof. solve_decision. Defined.
#[global] Instance base_term_eq_dec : EqDecision BaseTerm.
Proof. solve_decision. Defined.
#[global] Instance atom_eq_dec : EqDecision Atom.
Proof. solve_decision. Defined.

Definition NewAtom (sym : string) (args : list BaseTerm) : Atom :=
  {| atom_sym := sym; atom_args := args |}.

(** ** Fact stores *)

Class FactStore (St : Type) := {
  st_empty : St;
  st_add : Atom -> St -> St;
  st_contains : St -> Atom -> bool;
  st_facts : St -> PredSym -> list Atom;     (* GetFacts(NewQuery(sym)), in callback order *)
  st_preds : St -> list PredSym;             (* ListPredicates *)
  st_merge : St -> St -> St                  (* st_merge s t: s after s.Merge(t) *)
}.

Class FactStoreLaws (St : Type) `{FactStore St} := {
  contains_empty a : st_contains st_empty a = false;
  contains_add a b s : st_contains (st_add a s) b = bool_decide (a = b) || st_contains s b;
  facts_spec s p a : a ∈ st_facts s p <-> st_contains s a = true /\ predicate a = p;
  preds_spec s p : p ∈ st_preds s <-> exists a, st_contains s a = true /\ predicate a = p;
  contains_merge s t a : st_contains (st_merge s t) a = st_contains s a || st_contains t a
}.

Section StoreLemmas.
Context {St : Type} `{FactStoreLaws St}.

Definition store_equiv (s t : St) : Prop := forall a, st_contains s a = st_contains t a.

#[global] Instance store_equiv_equivalence : Equivalence store_equiv.
Proof. split; unfold store_equiv; repeat intro; congruence. Qed.

#[global] Instance st_add_proper a : Proper (store_equiv ==> store_equiv) (st_add a).
Proof. intros s t Hst b. by rewrite !contains_add, Hst. Qed.

#[global] Instance st_merge_proper : Proper (store_equiv ==> store_equiv ==> store_equiv) st_merge.
Proof. intros s s' Hs t t' Ht a. by rewrite !contains_merge, Hs, Ht. Qed.

Definition add_all (l : list Atom) (s : St) : St := fold_left (fun acc a => st_add a acc) l s.

Lemma contains_add_all l s a :
  st_contains (add_all l s) a = bool_decide (a ∈ l) || st_contains s a.
Proof.
  unfold add_all. revert s. induction l as [|x l IH]; intros s; cbn [fold_left].
  - by rewrite (bool_decide_eq_false_2 (a ∈ [])) by set_solver.
  - rewrite IH, contains_add. destruct (decide (x = a)) as [->|Hne].
    + rewrite (bool_decide_eq_true_2 (a = a)), (bool_decide_eq_true_2 (a ∈ a :: l)) by set_solver.
      by rewrite orb_true_r.
    + rewrite (bool_decide_eq_false_2 (x = a)) by done. cbn [orb]. f_equal.
      apply bool_decide_ext. set_solver.
Qed.
End StoreLemmas.

(** A store as a duplicate-free list in insertion order. *)
Definition list_add (a : Atom) (s : list Atom) : list Atom :=
  if decide (a ∈ s) then s else (s ++ [a])%list.

#[global] Instance list_store : FactStore (list Atom) := {|
  st_empty := [];
  st_add := list_add;
  st_contains s a := bool_decide (a ∈ s);
  st_facts s p := filter (fun a => predicate a = p) s;
  st_preds s := remove_dups (predicate <$> s);
  st_merge s t := fold_left (fun acc a => list_add a acc) t s
|}.

Lemma elem_of_list_add a b s : b ∈ list_add a s <-> b = a \/ b ∈ s.
Proof. unfold list_add. case_decide; [naive_solver|]. rewrite elem_of_app, list_elem_of_singleton. tauto. Qed.

Lemma elem_of_list_merge t s b : b ∈ fold_left (fun acc a => list_add a acc) t s <-> b ∈ s \/ b ∈ t.
Proof.
  revert s. induction t as [|a t IH]; intros s; cbn [fold_left]; [set_solver|].
  rewrite IH, elem_of_list_add, elem_of_cons. tauto.
Qed.

#[global] Instance list_store_laws : FactStoreLaws (list Atom).
Proof.
  split; cbn.
  - intros a. by apply bool_decide_eq_false_2, not_elem_of_nil.
  - intros a b s. rewrite <- bool_decide_or. apply bool_decide_ext. rewrite elem_of_list_add. naive_solver.
  - intros s p a. rewrite list_elem_of_filter, bool_decide_eq_true. tauto.
  - intros s p. rewrite elem_of_remove_dups, list_elem_of_fmap.
    setoid_rewrite bool_decide_eq_true. naive_solver.
  - intros s t a. rewrite <- bool_decide_or. apply bool_decide_ext. apply elem_of_list_merge.
Qed.

(** ** Parser, analyser and evaluator *)

(** Evaluation options: the temporal store and time, the external predicates
    (resolved to symbols) and the created-fact limit. *)
Record EvalOpts := {
  eo_temporal : bool;
  eo_time : option Z;
  eo_external : list PredSym;
  eo_limit : option Z
}.
Definition no_opts : EvalOpts :=
  {| eo_temporal := false; eo_time := None; eo_external := []; eo_limit := None |}.

Class Mangle (St : Type) := {
  ProgramInfo : Type;
  Strata : Type;
  parse_atom : string -> res error Atom;
  parse_unit : string -> res error SourceUnit;
  atom_String : Atom -> string;
  (* analysis.Analyze: rule units and the external declarations (symbol and argument modes) *)
  analyze : list SourceUnit -> list (PredSym * list string) -> res error ProgramInfo;
  stratify : ProgramInfo -> res error Strata;
  idb_preds : ProgramInfo -> list PredSym;
  edb_preds : ProgramInfo -> list PredSym;
  (* EvalStratifiedProgramWithStats: mutates the store, also when it fails *)
  eval_stratified : ProgramInfo -> Strata -> EvalOpts -> Z -> St -> St * option error
}.

(** The evaluator only adds facts. *)
Class MangleLaws (St : Type) `{FactStore St} `{!Mangle St} := {
  eval_monotone pi st o timeout s a :
    st_contains s a = true -> st_contains (fst (eval_stratified pi st o timeout s)) a = true
}.
