(* ===== verification/Ground.v ===== *)
(** * A concrete Datalog instance

    [ground] instantiates the [Mangle] interface with programs of ground
    facts, one per line: enough of the library to run the engine's own
    definitions on concrete policies and facts.  It serves the witnesses; no
    theorem about the engine depends on it. *)
From S2P Require Import Prelude GoStrings CoreErrors Sources Datalog.
From Stdlib Require Import Ascii String.
Open Scope string_scope.

Definition ground_term (t : string) : BaseTerm :=
  let t := trim_space t in
  if has_prefix t dq then TConst (CString (trim_cut t dq)) else TVar t.

(** [pred], [pred(arg, ...)]; a final dot is dropped. *)
Definition ground_atom (s : string) : res error Atom :=
  let s := trim_suffix (trim_space s) "." in
  if String.eqb s "" || contains s "!" then Err (EText "syntax error") else
  match index_of s "(" with
  | None => Ok (NewAtom s [])
  | Some i => Ok (NewAtom (str_take i s)
                    (map ground_term (split_on c_comma (trim_suffix (str_drop (S i) s) ")"))))
  end.

Definition ground_unit (s : string) : res error SourceUnit :=
  match res_mapM ground_atom (List.filter (fun l => negb (String.eqb l "")) (map trim_space (split_on c_nl s))) with
  | Err e => Err e
  | Ok heads => Ok {| su_decls := []; su_clauses := map (fun h => {| cl_head := h; cl_premises := [] |}) heads |}
  end.

Definition ground_text (a : Atom) : string :=
  atom_sym a +:+ "(" +:+
  join "," (map (fun t => match t with
                          | TConst (CString s) => dq +:+ s +:+ dq
                          | TConst (CName s) => s
                          | TConst (CNumber z) => pretty z
                          | TConst (CFloat64 g) => g
                          | TConst (CComposite s) => s
                          | TVar s => s
                          | TApply s => s
                          end) (atom_args a)) +:+ ")".

#[global] Instance ground : Mangle (list Atom) := {|
  ProgramInfo := list Atom;
  Strata := unit;
  parse_atom := ground_atom;
  parse_unit := ground_unit;
  atom_String := ground_text;
  analyze us _ := Ok (map cl_head (mjoin (map su_clauses us)));
  stratify _ := Ok tt;
  idb_preds := map predicate;
  edb_preds _ := [];
  eval_stratified p _ _ _ s := (add_all p s, None)
|}.

#[global] Instance ground_laws : MangleLaws (list Atom).
Proof.
  split. intros pi st o timeout s a Ha.
  change (fst (eval_stratified pi st o timeout s)) with (add_all pi s).
  by rewrite contains_add_all, Ha, orb_true_r.
Qed.
