(* ===== verification/Runtime.v ===== *)
(** * The Datalog runtime

    [MangleRuntime] of [internal/engine/runtime.go]: program and fact state,
    policy loading ([Load], [ReloadFromSource], [AddPolicy],
    [AddPersistentPolicy]), fact loading ([LoadFacts]), external predicates,
    the derived-fact cache and the query paths.  The Datalog library is the
    [Mangle] interface of [Datalog]; an operation takes the runtime state and
    returns the new state with its result.  [ctx] is the error of the
    caller's context at the time of the call ([None] when it is live); a
    deadline that expires inside an evaluation is an error of the evaluator. *)
From S2P Require Import Prelude GoStrings CoreErrors Facts Sources Datalog.
From Stdlib Require Import Ascii String.
Open Scope string_scope.

Definition u64_succ (v : Z) : Z := ((v + 1) mod 2 ^ 64)%Z.

Abbreviation Solution := (gmap string string).

(** Solutions handed to the callback, in order, and the final error. *)
Definition QueryOutcome : Type := list Solution * option error.

(** ** Query matching *)

Definition constantToString (t : BaseTerm) : res error string :=
  match t with
  | TConst (CString v) => Ok v
  | TConst (CName v) => Ok v
  | TConst (CNumber z) => Ok (pretty z)
  | TConst (CFloat64 g) => Ok g
  | TConst (CComposite _) => Err (EText "unsupported constant type")
  | TVar s => Ok s
  | TApply s => Ok s
  end.

(** The argument loop of [QueryWithSolutions]: [Ok None] is a mismatch. *)
Fixpoint match_args (qargs fargs : list BaseTerm) (sol : Solution) : res error (option Solution) :=
  match qargs, fargs with
  | q :: qs, f :: fs =>
      match q with
      | TVar v =>
          match constantToString f with
          | Ok s => match_args qs fs (<[v := s]> sol)
          | Err e => Err (EWrap "error converting term: " e)
          end
      | _ => if decide (q = f) then match_args qs fs sol else Ok None
      end
  | _, _ => Ok (Some sol)
  end.

Fixpoint solve_facts (q : Atom) (facts : list Atom) : QueryOutcome :=
  match facts with
  | [] => ([], None)
  | f :: rest =>
      if negb (Nat.eqb (List.length (atom_args f)) (List.length (atom_args q))) then solve_facts q rest
      else match match_args (atom_args q) (atom_args f) ∅ with
           | Err e => ([], Some e)
           | Ok None => solve_facts q rest
           | Ok (Some sol) => let '(sols, e) := solve_facts q rest in (sol :: sols, e)
           end
  end.

(** ** The cache key: FNV-1a over versions and facts *)

Definition fnv_offset : Z := 14695981039346656037.
Definition fnv_prime : Z := 1099511628211.
Definition fnv_step (hash b : Z) : Z := ((Z.lxor hash b * fnv_prime) mod 2 ^ 64)%Z.

Fixpoint le_bytes (n : nat) (v : Z) : list Z :=
  match n with O => [] | S n' => (v mod 256)%Z :: le_bytes n' (v / 256)%Z end.

Fixpoint string_bytes (s : string) : list Z :=
  match s with "" => [] | String c s' => bval c :: string_bytes s' end.

Section Runtime.
Context {St : Type} `{FactStore St} `{!Mangle St}.

Definition idbCacheKey (programVersion baseVersion : Z) (facts : list Atom) : Z :=
  fold_left fnv_step
    (le_bytes 8 programVersion ++ le_bytes 8 baseVersion
     ++ mjoin (map (fun f => string_bytes (atom_String f) ++ [0%Z]) facts))%list
    fnv_offset.

(** ** State *)

Record RtConfig := {
  cfg_temporalEnabled : bool;
  cfg_evaluationTime : option Z;
  cfg_external : gset string;       (* names of the registered external predicates *)
  cfg_evalTimeout : Z;
  cfg_maxCreatedFacts : Z;
  cfg_disableIDBCache : bool
}.

Record MangleRuntime := {
  rt_program : option (ProgramInfo * Strata);  (* programInfo, strata, predToStratum *)
  rt_base : St;
  rt_explicit : St;
  rt_ruleUnits : list SourceUnit;
  rt_persistentUnits : list SourceUnit;
  rt_persistentSources : list string;
  rt_ready : bool;
  rt_cfg : RtConfig;
  rt_idbCache : option (gmap Z St);   (* None: the nil map *)
  rt_baseVersion : Z;
  rt_programVersion : Z;
  rt_evalCount : Z
}.

Definition maxIDBCacheEntries : nat := 8.

Definition NewMangleRuntime : MangleRuntime :=
  {| rt_program := None; rt_base := st_empty; rt_explicit := st_empty; rt_ruleUnits := [];
     rt_persistentUnits := []; rt_persistentSources := []; rt_ready := false;
     rt_cfg := {| cfg_temporalEnabled := false; cfg_evaluationTime := None; cfg_external := ∅;
                  cfg_evalTimeout := 0; cfg_maxCreatedFacts := 0; cfg_disableIDBCache := false |};
     rt_idbCache := None; rt_baseVersion := 0; rt_programVersion := 0; rt_evalCount := 0 |}.

(** Field updates. *)
Definition set_stores (base explicit : St) (r : MangleRuntime) : MangleRuntime :=
  {| rt_program := rt_program r; rt_base := base; rt_explicit := explicit;
     rt_ruleUnits := rt_ruleUnits r; rt_persistentUnits := rt_persistentUnits r;
     rt_persistentSources := rt_persistentSources r; rt_ready := rt_ready r; rt_cfg := rt_cfg r;
     rt_idbCache := rt_idbCache r; rt_baseVersion := rt_baseVersion r;
     rt_programVersion := rt_programVersion r; rt_evalCount := rt_evalCount r |}.
Definition set_cache (c : option (gmap Z St)) (r : MangleRuntime) : MangleRuntime :=
  {| rt_program := rt_program r; rt_base := rt_base r; rt_explicit := rt_explicit r;
     rt_ruleUnits := rt_ruleUnits r; rt_persistentUnits := rt_persistentUnits r;
     rt_persistentSources := rt_persistentSources r; rt_ready := rt_ready r; rt_cfg := rt_cfg r;
     rt_idbCache := c; rt_baseVersion := rt_baseVersion r;
     rt_programVersion := rt_programVersion r; rt_evalCount := rt_evalCount r |}.
Definition bump_base (r : MangleRuntime) : MangleRuntime :=
  {| rt_program := rt_program r; rt_base := rt_base r; rt_explicit := rt_explicit r;
     rt_ruleUnits := rt_ruleUnits r; rt_persistentUnits := rt_persistentUnits r;
     rt_persistentSources := rt_persistentSources r; rt_ready := rt_ready r; rt_cfg := rt_cfg r;
     rt_idbCache := rt_idbCache r; rt_baseVersion := u64_succ (rt_baseVersion r);
     rt_programVersion := rt_programVersion r; rt_evalCount := rt_evalCount r |}.
Definition count_eval (r : MangleRuntime) : MangleRuntime :=
  {| rt_program := rt_program r; rt_base := rt_base r; rt_explicit := rt_explicit r;
     rt_ruleUnits := rt_ruleUnits r; rt_persistentUnits := rt_persistentUnits r;
     rt_persistentSources := rt_persistentSources r; rt_ready := rt_ready r; rt_cfg := rt_cfg r;
     rt_idbCache := rt_idbCache r; rt_baseVersion := rt_baseVersion r;
     rt_programVersion := rt_programVersion r; rt_evalCount := (rt_evalCount r + 1)%Z |}.
Definition set_cfg (c : RtConfig) (r : MangleRuntime) : MangleRuntime :=
  {| rt_program := rt_program r; rt_base := rt_base r; rt_explicit := rt_explicit r;
     rt_ruleUnits := rt_ruleUnits r; rt_persistentUnits := rt_persistentUnits r;
     rt_persistentSources := rt_persistentSources r; rt_ready := rt_ready r; rt_cfg := c;
     rt_idbCache := rt_idbCache r; rt_baseVersion := rt_baseVersion r;
     rt_programVersion := rt_programVersion r; rt_evalCount := rt_evalCount r |}.
(** Install a program: rule units, program info and strata, ready, and the
    program version. *)
Definition install (units : list SourceUnit) (p : ProgramInfo * Strata) (r : MangleRuntime)
  : MangleRuntime :=
  {| rt_program := Some p; rt_base := rt_base r; rt_explicit := rt_explicit r;
     rt_ruleUnits := units; rt_persistentUnits := rt_persistentUnits r;
     rt_persistentSources := rt_persistentSources r; rt_ready := true; rt_cfg := rt_cfg r;
     rt_idbCache := rt_idbCache r; rt_baseVersion := rt_baseVersion r;
     rt_programVersion := u64_succ (rt_programVersion r); rt_evalCount := rt_evalCount r |}.
Definition add_persistent (u : SourceUnit) (src : string) (r : MangleRuntime) : MangleRuntime :=
  {| rt_program := rt_program r; rt_base := rt_base r; rt_explicit := rt_explicit r;
     rt_ruleUnits := rt_ruleUnits r; rt_persistentUnits := (rt_persistentUnits r ++ [u])%list;
     rt_persistentSources := (rt_persistentSources r ++ [src])%list; rt_ready := rt_ready r;
     rt_cfg := rt_cfg r; rt_idbCache := rt_idbCache r; rt_baseVersion := rt_baseVersion r;
     rt_programVersion := rt_programVersion r; rt_evalCount := rt_evalCount r |}.

Definition IsReady (r : MangleRuntime) : bool := rt_ready r.

Definition invalidateIDBCacheLocked (r : MangleRuntime) : MangleRuntime := set_cache None r.

(** ** External predicates *)

(** [RegisterExternalPredicate] with [ExternalPredicateRegistry.Register];
    [fn_nil] tells whether the callback is nil. *)
Definition RegisterExternalPredicate (name : string) (fn_nil : bool) (r : MangleRuntime)
  : MangleRuntime * option error :=
  if String.eqb name "" then (r, Some (EText "external predicate name cannot be empty"))
  else if fn_nil then (r, Some (EText ("external predicate " +:+ name +:+ " cannot be nil")))
  else
    let c := rt_cfg r in
    (set_cfg {| cfg_temporalEnabled := cfg_temporalEnabled c; cfg_evaluationTime := cfg_evaluationTime c;
                cfg_external := {[name]} ∪ cfg_external c; cfg_evalTimeout := cfg_evalTimeout c;
                cfg_maxCreatedFacts := cfg_maxCreatedFacts c;
                cfg_disableIDBCache := cfg_disableIDBCache c |} r, None).

(** Configuration setters. *)
Definition WithEvalTimeout (d : Z) (r : MangleRuntime) : MangleRuntime :=
  let c := rt_cfg r in
  set_cfg {| cfg_temporalEnabled := cfg_temporalEnabled c; cfg_evaluationTime := cfg_evaluationTime c;
             cfg_external := cfg_external c; cfg_evalTimeout := d;
             cfg_maxCreatedFacts := cfg_maxCreatedFacts c;
             cfg_disableIDBCache := cfg_disableIDBCache c |} r.
Definition WithMaxCreatedFacts (n : Z) (r : MangleRuntime) : MangleRuntime :=
  let c := rt_cfg r in
  set_cfg {| cfg_temporalEnabled := cfg_temporalEnabled c; cfg_evaluationTime := cfg_evaluationTime c;
             cfg_external := cfg_external c; cfg_evalTimeout := cfg_evalTimeout c;
             cfg_maxCreatedFacts := n; cfg_disableIDBCache := cfg_disableIDBCache c |} r.
Definition EnableTemporal (r : MangleRuntime) : MangleRuntime :=
  let c := rt_cfg r in
  set_cfg {| cfg_temporalEnabled := true; cfg_evaluationTime := cfg_evaluationTime c;
             cfg_external := cfg_external c; cfg_evalTimeout := cfg_evalTimeout c;
             cfg_maxCreatedFacts := cfg_maxCreatedFacts c;
             cfg_disableIDBCache := cfg_disableIDBCache c |} r.
Definition SetEvaluationTime (t : option Z) (r : MangleRuntime) : MangleRuntime :=
  let c := rt_cfg r in
  set_cfg {| cfg_temporalEnabled := cfg_temporalEnabled c; cfg_evaluationTime := t;
             cfg_external := cfg_external c; cfg_evalTimeout := cfg_evalTimeout c;
             cfg_maxCreatedFacts := cfg_maxCreatedFacts c;
             cfg_disableIDBCache := cfg_disableIDBCache c |} r.

Definition arg_mode (t : BaseTerm) : string :=
  match t with TConst _ => "+" | _ => "-" end.

Definition find_in_premises (name : string) (ps : list Premise) : option (Z * list string) :=
  head (omap (fun p => match p with
                       | PAtom a => if String.eqb (atom_sym a) name
                                    then Some (snd (predicate a), map arg_mode (atom_args a)) else None
                       | _ => None
                       end) ps).

(** [findPredicateUsage]: arity and argument modes, [None] for -1. *)
Definition findPredicateUsage (u : SourceUnit) (name : string) : option (Z * list string) :=
  head (omap (fun c =>
                match find_in_premises name (cl_premises c) with
                | Some x => Some x
                | None => if String.eqb (atom_sym (cl_head c)) name
                          then Some (snd (predicate (cl_head c)), map arg_mode (atom_args (cl_head c)))
                          else None
                end) (su_clauses u)).

(** External declarations for the registered names, in the first unit that
    uses each. *)
Definition external_decls (names : gset string) (units : list SourceUnit)
  : list (PredSym * list string) :=
  omap (fun name =>
          (fun '(arity, mode) => ((name, arity), mode))
          <$> head (omap (fun u => findPredicateUsage u name) units))
    (elements names).

(** ** Evaluation *)

Definition buildEvalOptionsFor (c : RtConfig) (pi : ProgramInfo) : EvalOpts :=
  {| eo_temporal := cfg_temporalEnabled c;
     eo_time := cfg_evaluationTime c;
     eo_external := omap (fun name => head (filter (fun p => fst p = name) (edb_preds pi)))
                      (elements (cfg_external c));
     eo_limit := None |}.

Definition with_limit (c : RtConfig) (o : EvalOpts) : EvalOpts :=
  if (0 <? cfg_maxCreatedFacts c)%Z
  then {| eo_temporal := eo_temporal o; eo_time := eo_time o; eo_external := eo_external o;
          eo_limit := Some (cfg_maxCreatedFacts c) |}
  else o.

Definition evalStratifiedWithContext (ctx : option error) (p : ProgramInfo * Strata) (store : St)
    (opts : EvalOpts) (timeout : Z) : St * option error :=
  match ctx with
  | Some e => (store, Some e)
  | None => eval_stratified (fst p) (snd p) opts timeout store
  end.

(** [evaluate] on the base store, which it mutates in place. *)
Definition evaluate (ctx : option error) (r : MangleRuntime) : MangleRuntime * option error :=
  let r := count_eval r in
  match rt_program r with
  | None => (r, Some (EText "nil program"))  (* unreachable: callers check ready *)
  | Some p =>
      let opts := with_limit (rt_cfg r) (buildEvalOptionsFor (rt_cfg r) (fst p)) in
      let '(base, err) := evalStratifiedWithContext ctx p (rt_base r) opts (cfg_evalTimeout (rt_cfg r)) in
      (set_stores base (rt_explicit r) r, err)
  end.

(** ** Loading facts *)

(** The loop of [LoadFacts]: facts before a malformed one stay loaded. *)
Fixpoint load_fact_strings (facts : list string) (r : MangleRuntime) : MangleRuntime * option error :=
  match facts with
  | [] => (r, None)
  | f :: rest =>
      match parse_atom f with
      | Err e => (r, Some (EWrap ("failed to parse fact '" +:+ f +:+ "': ") e))
      | Ok a => load_fact_strings rest
                  (set_stores (st_add a (rt_base r)) (st_add a (rt_explicit r)) r)
      end
  end.

Definition LoadFacts (ctx : option error) (facts : list string) (r : MangleRuntime)
  : MangleRuntime * option error :=
  let '(r1, err) := load_fact_strings facts r in
  match err with
  | Some e => (r1, Some e)
  | None =>
      if rt_ready r1 then
        let r2 := invalidateIDBCacheLocked (bump_base r1) in
        let '(r3, err) := evaluate ctx r2 in
        match err with
        | Some e => (r3, Some (EWrap "failed to evaluate program with new facts: " e))
        | None => (r3, None)
        end
      else (r1, None)
  end.

(** ** Loading policies *)

Definition analyze_units (names : gset string) (units : list SourceUnit) (what : string)
  : res error (ProgramInfo * Strata) :=
  match analyze units (external_decls names units) with
  | Err e => Err (EWrap ("failed to analyze " +:+ what +:+ ": ") e)
  | Ok pi => match stratify pi with
             | Err e => Err (EWrap ("failed to stratify " +:+ what +:+ ": ") e)
             | Ok st => Ok (pi, st)
             end
  end.

(** [addPolicy]: the state is updated before the base facts are
    re-evaluated. *)
Definition addPolicy (ctx : option error) (source : string) (persistent : bool) (r : MangleRuntime)
  : MangleRuntime * option error :=
  if String.eqb source "" then (r, None)
  else
    let cleaned := cleanSource source in
    match parse_unit cleaned with
    | Err e => (r, Some (EWrap "failed to parse source: " e))
    | Ok u =>
        let units := (rt_ruleUnits r ++ [u])%list in
        match analyze_units (cfg_external (rt_cfg r)) units "combined program" with
        | Err e => (r, Some e)
        | Ok p =>
            let r1 := install units p r in
            let r2 := if persistent then add_persistent u cleaned r1 else r1 in
            let '(r3, err) := evaluate ctx (invalidateIDBCacheLocked r2) in
            match err with
            | Some e => (r3, Some (EWrap "failed to evaluate combined program: " e))
            | None => (r3, None)
            end
        end
    end.

Definition AddPolicy ctx source r := addPolicy ctx source false r.
Definition AddPersistentPolicy ctx source r := addPolicy ctx source true r.

(** [filterBaseFacts]; [oldIDB] is [None] when no program was loaded. *)
Definition filterBaseFacts (store : St) (oldIDB : option (list PredSym)) (explicit : St) : St :=
  match oldIDB with
  | None => st_merge st_empty store
  | Some idb =>
      fold_left (fun out sym =>
          add_all (if decide (sym ∈ idb)
                   then List.filter (st_contains explicit) (st_facts store sym)
                   else st_facts store sym) out)
        (st_preds store) st_empty
  end.

(** [ReloadFromSource]; [stdLib] is the embedded std.dl. *)
Definition ReloadFromSource (stdLib : string) (ctx : option error) (source : string)
    (r : MangleRuntime) : MangleRuntime * option error :=
  if String.eqb source "" then (r, Some (EText "source cannot be empty"))
  else
    let callerDecls := collectCallerDecls (source +:+ nl +:+ join nl (rt_persistentSources r)) in
    let ext := cfg_external (rt_cfg r) in
    let combined := prependStdLibIfMissing stdLib source callerDecls ext in
    match parse_unit (cleanSource combined) with
    | Err e => (r, Some (EWrap "failed to parse source: " e))
    | Ok u =>
        let units := (u :: rt_persistentUnits r)%list in
        match analyze_units ext units "program" with
        | Err e => (r, Some e)
        | Ok p =>
            let oldIDB := (fun q => idb_preds (fst q)) <$> rt_program r in
            let explicit := st_merge st_empty (rt_explicit r) in
            let merged := filterBaseFacts (rt_base r) oldIDB explicit in
            let r1 := count_eval r in
            let opts := with_limit (rt_cfg r1) (buildEvalOptionsFor (rt_cfg r1) (fst p)) in
            let '(merged', err) :=
              evalStratifiedWithContext ctx p merged opts (cfg_evalTimeout (rt_cfg r1)) in
            match err with
            | Some e => (r1, Some (EWrap "failed to evaluate program: " e))
            | None =>
                (invalidateIDBCacheLocked (bump_base (set_stores merged' explicit (install units p r1))),
                 None)
            end
        end
    end.

Definition LoadFromSource stdLib ctx source r := ReloadFromSource stdLib ctx source r.
Definition LoadFromString stdLib ctx rule r := LoadFromSource stdLib ctx rule r.

(** ** Queries *)

Definition cacheable (r : MangleRuntime) : bool :=
  negb (cfg_disableIDBCache (rt_cfg r)) && bool_decide (cfg_external (rt_cfg r) = ∅)
  && negb (cfg_temporalEnabled (rt_cfg r)).

Definition working_store (base : St) (facts : list Atom) : St :=
  add_all facts (st_merge st_empty base).

(** [evaluatedWorkingStore] runs in two critical sections.  The first, under
    the read lock, snapshots the program and the base facts and consults the
    cache; on a miss it leaves a [Pending] evaluation. *)
Record Pending := {
  pd_program : ProgramInfo * Strata;
  pd_store : St;              (* working copy of the base facts with the request facts *)
  pd_opts : EvalOpts;
  pd_key : option Z           (* cache key, None when the query is not cacheable *)
}.

Inductive Begin :=
| BErr (e : error)
| BHit (s : St)
| BMiss (p : Pending).

(** The cache map is created on first use. *)
Definition ensure_cache (r : MangleRuntime) : MangleRuntime :=
  match rt_idbCache r with Some _ => r | None => set_cache (Some ∅) r end.

Definition ews_begin (facts : list Atom) (opts : EvalOpts) (r : MangleRuntime)
  : MangleRuntime * Begin :=
  match rt_ready r, rt_program r with
  | true, Some p =>
      let key := idbCacheKey (rt_programVersion r) (rt_baseVersion r) facts in
      let r1 := if cacheable r then ensure_cache r else r in
      match (if cacheable r then rt_idbCache r1 ≫= (.!! key) else None) with
      | Some cached => (r1, BHit cached)
      | None => (r1, BMiss {| pd_program := p; pd_store := working_store (rt_base r) facts;
                              pd_opts := opts;
                              pd_key := if cacheable r then Some key else None |})
      end
  | _, _ => (r, BErr (EText "runtime not initialized"))
  end.

(** The insertion of an evaluated store; [None] is Go's panic on an
    assignment to an entry of a nil map. *)
Definition cache_insert (key : Z) (s : St) (r : MangleRuntime) : option MangleRuntime :=
  match rt_idbCache r with
  | None => None
  | Some c =>
      let c' := if (maxIDBCacheEntries <=? size c)%nat then ∅ else c in
      Some (set_cache (Some (<[key := s]> c')) r)
  end.

(** The second section: evaluate the pending store and cache it; [None]
    when it panics. *)
Definition ews_commit (ctx : option error) (pd : Pending) (r : MangleRuntime)
  : option (MangleRuntime * res error St) :=
  match ctx with
  | Some e => Some (r, Err e)
  | None =>
      let r1 := count_eval r in
      let '(s, err) := evalStratifiedWithContext ctx (pd_program pd) (pd_store pd) (pd_opts pd)
                         (cfg_evalTimeout (rt_cfg r1)) in
      match err with
      | Some e => Some (r1, Err (EWrap "evaluation failed: " e))
      | None =>
          match pd_key pd with
          | None => Some (r1, Ok s)
          | Some key => (fun r2 => (r2, Ok s)) <$> cache_insert key s r1
          end
      end
  end.

(** The two sections with nothing in between; the last branch is not
    reachable (lemma [ews_sequential]). *)
Definition evaluatedWorkingStore (ctx : option error) (facts : list Atom) (opts : EvalOpts)
    (r : MangleRuntime) : MangleRuntime * res error St :=
  let '(r1, b) := ews_begin facts opts r in
  match b with
  | BErr e => (r1, Err e)
  | BHit s => (r1, Ok s)
  | BMiss pd => match ews_commit ctx pd r1 with
                | Some x => x
                | None => (r1, Err (EText "panic: assignment to entry in nil map"))
                end
  end.

Definition ExecuteQuery (ctx : option error) (facts : list Atom) (queryStr : string)
    (r : MangleRuntime) : MangleRuntime * res error bool :=
  match ctx with
  | Some e => (r, Err e)
  | None =>
      let '(r1, ws) := evaluatedWorkingStore ctx facts no_opts r in
      (r1, match ws with
           | Err e => Err e
           | Ok s => match parse_atom queryStr with
                     | Err e => Err (EWrap ("failed to parse query '" +:+ queryStr +:+ "': ") e)
                     | Ok q => Ok (st_contains s q)
                     end
           end)
  end.

Definition QueryWithSolutions (ctx : option error) (facts : list Atom) (queryStr : string)
    (r : MangleRuntime) : MangleRuntime * QueryOutcome :=
  match ctx with
  | Some e => (r, ([], Some e))
  | None =>
      let opts := match rt_program r with
                  | Some p => with_limit (rt_cfg r) (buildEvalOptionsFor (rt_cfg r) (fst p))
                  | None => with_limit (rt_cfg r) no_opts
                  end in
      let '(r1, ws) := evaluatedWorkingStore ctx facts opts r in
      (r1, match ws with
           | Err e => ([], Some e)
           | Ok s => match parse_atom queryStr with
                     | Err e => ([], Some (EWrap ("failed to parse query '" +:+ queryStr +:+ "': ") e))
                     | Ok q => solve_facts q (st_facts s (predicate q))
                     end
           end)
  end.
End Runtime.

Arguments MangleRuntime St {_}.
