(* ===== verification/RuntimeProps.v ===== *)
(** * Properties of the Datalog runtime

    Reload atomicity, what survives a reload, [AddPolicy] on a failing
    evaluation, and the answers of queries. *)
From S2P Require Import Prelude GoStrings CoreErrors Facts Sources Datalog Runtime Ground.
From Stdlib Require Import Ascii String.
Open Scope string_scope.

Section RuntimeProps.
Context {St : Type} `{FactStoreLaws St} `{!Mangle St}.

(** ** Reload *)

(** The state a caller can observe: everything but the evaluation counter. *)
Definition same_but_count (r r' : MangleRuntime St) : Prop :=
  r' = r \/ r' = count_eval r.

Lemma reload_failure_keeps stdLib ctx source r r' e :
  ReloadFromSource stdLib ctx source r = (r', Some e) -> same_but_count r r'.
Proof.
  unfold ReloadFromSource. intros Hr. mk_cases; first [by left | by right].
Qed.

Lemma contains_fold_add_all (f : PredSym -> list Atom) l s a :
  st_contains (fold_left (fun out sym => add_all (f sym) out) l s) a = true <->
  (exists p, p ∈ l /\ a ∈ f p) \/ st_contains s a = true.
Proof.
  revert s. induction l as [|p l IH]; intros s; simpl; [set_solver|].
  rewrite IH, contains_add_all, orb_true_iff, bool_decide_eq_true. set_solver.
Qed.

(** The base facts a reload starts from. *)
Lemma contains_filterBaseFacts store idb explicit a :
  st_contains (filterBaseFacts store (Some idb) explicit) a = true <->
  st_contains store a = true /\ (predicate a ∉ idb \/ st_contains explicit a = true).
Proof.
  unfold filterBaseFacts.
  rewrite (contains_fold_add_all (fun sym => if decide (sym ∈ idb)
      then List.filter (st_contains explicit) (st_facts store sym) else st_facts store sym)).
  rewrite contains_empty. split.
  - intros [(p & Hp & Ha)|]; [|done]. case_decide.
    + apply list_elem_of_In, filter_In in Ha as [Ha He].
      apply list_elem_of_In, facts_spec in Ha as [Ha Hpa]. auto.
    + apply facts_spec in Ha as [Ha Hpa]. subst. auto.
  - intros [Hs Hor]. left. exists (predicate a). split; [apply preds_spec; eauto|].
    case_decide.
    + apply list_elem_of_In, filter_In. split; [apply list_elem_of_In, facts_spec; auto|].
      naive_solver.
    + apply facts_spec. auto.
Qed.

Lemma contains_filterBaseFacts_none store explicit a :
  st_contains (filterBaseFacts store None explicit) a = st_contains store a.
Proof. simpl. by rewrite contains_merge, contains_empty. Qed.
(** ** Query answers *)

(** A constant of the query must equal the fact's argument. *)
Definition arg_match (q f : BaseTerm) : Prop :=
  match q with TVar _ => True | _ => q = f end.

Definition term_vars (ts : list BaseTerm) : list string :=
  omap (fun t => match t with TVar v => Some v | _ => None end) ts.

Definition renders (t : BaseTerm) : Prop := is_ok (constantToString t) = true.

(** [sol] binds each variable of the query to the text of the fact's
    argument at its position. *)
Definition binds (sol : Solution) (qs fs : list BaseTerm) : Prop :=
  Forall2 (fun q f => forall v, q = TVar v -> exists s, constantToString f = Ok s /\ sol !! v = Some s) qs fs.

Lemma match_args_keeps qs fs sol sol' v :
  match_args qs fs sol = Ok (Some sol') -> v ∉ term_vars qs -> sol' !! v = sol !! v.
Proof.
  revert fs sol. induction qs as [|q qs IH]; intros [|f fs] sol Hm Hv; simpl in *; try congruence.
  destruct q as [c|w|t]; simpl in *.
  - case_decide; [|done]. eauto.
  - destruct (constantToString f); [|done].
    rewrite (IH _ _ Hm), lookup_insert_ne by set_solver. done.
  - case_decide; [|done]. eauto.
Qed.

Lemma match_args_none qs fs sol :
  match_args qs fs sol = Ok None -> ~ Forall2 arg_match qs fs.
Proof.
  revert fs sol. induction qs as [|q qs IH]; intros [|f fs] sol Hm; simpl in *; try done.
  intros Hf; inversion Hf; subst. destruct q as [c|w|t]; simpl in *; subst.
  - case_decide; [|done]. eapply IH; eauto.
  - destruct (constantToString f); [|done]. eapply IH; eauto.
  - case_decide; [|done]. eapply IH; eauto.
Qed.

Lemma match_args_some qs fs sol sol' :
  List.length qs = List.length fs -> NoDup (term_vars qs) ->
  match_args qs fs sol = Ok (Some sol') -> Forall2 arg_match qs fs /\ binds sol' qs fs.
Proof.
  revert fs sol. induction qs as [|q qs IH]; intros [|f fs] sol Hlen Hnd Hm; simpl in *; try done.
  { split; constructor. }
  destruct q as [c|w|t]; simpl in *.
  - case_decide; [|done]. subst. destruct (IH fs sol) as [I1 I2]; [lia|done|done|].
    split; constructor; done.
  - destruct (constantToString f) as [s|] eqn:Hs; [|done]. inversion Hnd; subst.
    destruct (IH fs _ ltac:(lia) ltac:(done) Hm) as [I1 I2]. split; constructor; try done.
    intros v [= <-]. exists s. split; [done|].
    rewrite (match_args_keeps _ _ _ _ _ Hm) by done. by rewrite lookup_insert_eq.
  - case_decide; [|done]. subst. destruct (IH fs sol) as [I1 I2]; [lia|done|done|].
    split; constructor; done.
Qed.

Lemma match_args_renders qs fs sol :
  Forall renders fs -> exists x, match_args qs fs sol = Ok x.
Proof.
  revert fs sol. induction qs as [|q qs IH]; intros [|f fs] sol Hf; simpl in *; eauto.
  inversion Hf as [|? ? Hr Hfs]; subst. unfold renders in Hr. destruct q; simpl.
  - case_decide; eauto.
  - destruct (constantToString f); [eauto|done].
  - case_decide; eauto.
Qed.

Lemma solve_facts_spec q facts :
  NoDup (term_vars (atom_args q)) -> (forall f, f ∈ facts -> Forall renders (atom_args f)) ->
  exists sols, solve_facts q facts = (sols, None) /\
    (forall f, f ∈ facts -> Forall2 arg_match (atom_args q) (atom_args f) ->
               exists sol, sol ∈ sols /\ binds sol (atom_args q) (atom_args f)) /\
    (forall sol, sol ∈ sols -> exists f, f ∈ facts /\
               Forall2 arg_match (atom_args q) (atom_args f) /\ binds sol (atom_args q) (atom_args f)).
Proof.
  intros Hnd. induction facts as [|f facts IH]; intros Hr; simpl.
  { exists []. set_solver. }
  destruct IH as (sols & Hs & H1 & H2); [set_solver|].
  destruct (Nat.eqb_spec (List.length (atom_args f)) (List.length (atom_args q))) as [Hl|Hl]; simpl.
  - destruct (match_args_renders (atom_args q) (atom_args f) ∅) as [[sol|] Hm]; [set_solver| |]; rewrite Hm.
    + rewrite Hs. destruct (match_args_some _ _ _ _ (eq_sym Hl) Hnd Hm) as [Ha Hb].
      exists (sol :: sols). split; [done|]. split; setoid_rewrite elem_of_cons; naive_solver.
    + exists sols. split; [done|]. apply match_args_none in Hm.
      split; setoid_rewrite elem_of_cons; naive_solver.
  - exists sols. split; [done|]. split; setoid_rewrite elem_of_cons; [|naive_solver].
    intros g [->|Hg] Hf2; [|naive_solver]. apply Forall2_length in Hf2. congruence.
Qed.
End RuntimeProps.

(** C10: a failed reload is harmless: whatever fails (empty source, parse,
    analysis, stratification or the validating evaluation), the program, the
    facts, the cache and the versions are those before the call; only the
    evaluation counter may have moved. *)
Theorem reload_failure_atomic {St : Type} `{FactStoreLaws St} `{!Mangle St}
    (stdLib source : string) (ctx : option error) (r r' : MangleRuntime St) (e : error) :
  ReloadFromSource stdLib ctx source r = (r', Some e) -> same_but_count r r'.
Proof. apply reload_failure_keeps. Qed.

(** A successful reload drops the derivations of the replaced rules and
    nothing else: a fact survives into the new base store when its predicate
    was not rule-defined in the old program or when it was explicitly loaded;
    the builtin units follow the new main unit, the cache is empty and the
    program is ready. *)
Theorem reload_success {St : Type} `{FactStoreLaws St} `{!Mangle St} `{!MangleLaws St}
    (stdLib source : string) (ctx : option error) (r r' : MangleRuntime St) (a : Atom) :
  ReloadFromSource stdLib ctx source r = (r', None) ->
  (st_contains (rt_base r) a = true ->
   (match rt_program r with Some p => predicate a ∉ idb_preds (fst p) | None => True end
    \/ st_contains (rt_explicit r) a = true) ->
   st_contains (rt_base r') a = true) /\
  (exists u, rt_ruleUnits r' = u :: rt_persistentUnits r) /\
  rt_persistentUnits r' = rt_persistentUnits r /\
  rt_idbCache r' = None /\ rt_ready r' = true.
Proof.
  unfold ReloadFromSource. intros Hr.
  destruct (String.eqb source ""); [done|].
  destruct (parse_unit _) as [u|]; [|done]. destruct (analyze_units _ _ _) as [p|]; [|done].
  unfold evalStratifiedWithContext in Hr. destruct ctx as [e|]; [done|].
  destruct (eval_stratified _ _ _ _ _) as [merged err] eqn:Hev. destruct err; [done|].
  simplify_eq/=. split; [|by eauto 6].
  intros Hb Hor.
  pose proof (eval_monotone (fst p) (snd p) (with_limit (rt_cfg r) (buildEvalOptionsFor (rt_cfg r) (fst p)))
     (cfg_evalTimeout (rt_cfg r))
     (filterBaseFacts (rt_base r) ((λ q, idb_preds q.1) <$> rt_program r) (st_merge st_empty (rt_explicit r))) a) as Hm.
  rewrite Hev in Hm. apply Hm. destruct (rt_program r) as [q|]; simpl.
  - apply contains_filterBaseFacts. split; [done|].
    rewrite contains_merge, contains_empty. naive_solver.
  - by rewrite contains_merge, contains_empty.
Qed.

(** Adding a policy is not atomic: when the evaluation of the combined
    program fails, the error is returned with the new program already
    installed, in contrast to a reload. *)
Theorem addPolicy_failure_installs {St : Type} `{FactStore St} `{!Mangle St}
    (ctx : option error) (source : string) (persistent : bool) (r : MangleRuntime St)
    (u : SourceUnit) (p : ProgramInfo * Strata) (e : error) :
  source <> "" -> parse_unit (cleanSource source) = Ok u ->
  analyze_units (cfg_external (rt_cfg r)) (rt_ruleUnits r ++ [u]) "combined program" = Ok p ->
  ctx = Some e ->
  exists r', addPolicy ctx source persistent r
             = (r', Some (EWrap "failed to evaluate combined program: " e)) /\
    rt_program r' = Some p /\ rt_ruleUnits r' = (rt_ruleUnits r ++ [u])%list /\ rt_ready r' = true.
Proof.
  intros Hs Hu Hp ->. unfold addPolicy. apply String.eqb_neq in Hs. rewrite Hs, Hu, Hp.
  destruct persistent; simpl; eexists; (split; [reflexivity|]); done.
Qed.

(** C11: query answers are sound and complete: when the evaluated store
    renders (no composite constants) and the query does not repeat a variable,
    the callback sees exactly the matches: every stored fact that agrees with
    the query's constants yields a solution binding each variable to the text
    of the fact's argument, every solution comes from such a fact, and no
    error is reported. *)
Theorem query_answers {St : Type} `{FactStoreLaws St} `{!Mangle St}
    (facts : list Atom) (queryStr : string) (q : Atom) (r r1 : MangleRuntime St) (p : ProgramInfo * Strata) (s : St) :
  rt_program r = Some p ->
  evaluatedWorkingStore None facts (with_limit (rt_cfg r) (buildEvalOptionsFor (rt_cfg r) (fst p))) r
    = (r1, Ok s) ->
  parse_atom queryStr = Ok q -> NoDup (term_vars (atom_args q)) ->
  (forall f, st_contains s f = true -> predicate f = predicate q -> Forall renders (atom_args f)) ->
  exists sols, QueryWithSolutions None facts queryStr r = (r1, (sols, None)) /\
    (forall f, st_contains s f = true -> predicate f = predicate q ->
       Forall2 arg_match (atom_args q) (atom_args f) ->
       exists sol, sol ∈ sols /\ binds sol (atom_args q) (atom_args f)) /\
    (forall sol, sol ∈ sols -> exists f, st_contains s f = true /\ predicate f = predicate q /\
       Forall2 arg_match (atom_args q) (atom_args f) /\ binds sol (atom_args q) (atom_args f)).
Proof.
  intros Hp He Hq Hnd Hr. unfold QueryWithSolutions. rewrite Hp, He, Hq.
  destruct (solve_facts_spec q (st_facts s (predicate q)) Hnd) as (sols & -> & H2 & H3).
  { intros f [Hf Hpf]%facts_spec. auto. }
  exists sols.
  split; [done|]. split.
  - intros f Hf Hpf. apply H2. by apply facts_spec.
  - intros sol Hsol. destruct (H3 sol Hsol) as (f & [? ?]%facts_spec & ? & ?). eauto 6.
Qed.

(** A repeated variable of a query is not an equality constraint: [q(X, X)]
    also answers with a fact whose arguments differ, binding the variable to
    the last of them. *)
Theorem repeated_variable_not_joined (a b : string) :
  solve_facts (NewAtom "q" [TVar "X"; TVar "X"])
    [NewAtom "q" [TConst (CString a); TConst (CString b)]] = ([{["X" := b]}], None).
Proof. simpl. by rewrite insert_insert_eq. Qed.

(** ** Witnesses *)

Definition rt0 : MangleRuntime (list Atom) := fst (AddPolicy None "p." NewMangleRuntime).
Definition rt1 : MangleRuntime (list Atom) := fst (LoadFacts None ["base"] rt0).

Lemma reload_failure_atomic_witness :
  same_but_count rt1 (fst (ReloadFromSource "" None "bad!" rt1)).
Proof.
  apply (reload_failure_atomic "" "bad!" None rt1 _
           (EWrap "failed to parse source: " (EText "syntax error"))). by_vm.
Defined.

Lemma reload_success_witness :
  st_contains (rt_base (fst (ReloadFromSource "" None "q." rt1))) (NewAtom "base" []) = true /\
  st_contains (rt_base (fst (ReloadFromSource "" None "q." rt1))) (NewAtom "p" []) = false.
Proof.
  split; [|by_vm].
  assert (ReloadFromSource "" None "q." rt1 = (fst (ReloadFromSource "" None "q." rt1), None)) as Hr by by_vm.
  apply (proj1 (reload_success "" "q." None rt1 _ (NewAtom "base" []) Hr)); [by_vm|right; by_vm].
Defined.

Lemma addPolicy_failure_installs_witness :
  exists r', addPolicy (Some (ESentinel ErrCanceled)) "q." false rt1
             = (r', Some (EWrap "failed to evaluate combined program: " (ESentinel ErrCanceled))) /\
    rt_program r' = Some ([NewAtom "p" []; NewAtom "q" []], tt) /\
    rt_ruleUnits r' = (rt_ruleUnits rt1 ++
       [{| su_decls := []; su_clauses := [{| cl_head := NewAtom "q" []; cl_premises := [] |}] |}])%list /\
    rt_ready r' = true.
Proof.
  apply (addPolicy_failure_installs (Some (ESentinel ErrCanceled)) "q." false rt1
           {| su_decls := []; su_clauses := [{| cl_head := NewAtom "q" []; cl_premises := [] |}] |}
           ([NewAtom "p" []; NewAtom "q" []], tt)); [done|by_vm|by_vm|done].
Defined.

Definition rt2 : MangleRuntime (list Atom) :=
  fst (AddPolicy None ("halt(" +:+ dq +:+ "Req" +:+ dq +:+ ", " +:+ dq +:+ "no" +:+ dq +:+ ").") NewMangleRuntime).
Definition halt_atom : Atom := NewAtom "halt" [TConst (CString "Req"); TConst (CString "no")].
Definition halt_query : string := "halt(" +:+ dq +:+ "Req" +:+ dq +:+ ", Reason)".

Lemma query_answers_witness :
  exists sol, sol ∈ fst (snd (QueryWithSolutions None [] halt_query rt2)) /\
    binds sol [TConst (CString "Req"); TVar "Reason"] (atom_args halt_atom).
Proof.
  destruct (query_answers [] halt_query (NewAtom "halt" [TConst (CString "Req"); TVar "Reason"]) rt2
              (fst (evaluatedWorkingStore None [] no_opts rt2)) ([halt_atom], tt) [halt_atom])
    as (sols & Hq & H1 & _).
  - by_vm.
  - by_vm.
  - by_vm.
  - simpl. apply NoDup_singleton.
  - simpl. intros f Hf _. apply bool_decide_eq_true, list_elem_of_singleton in Hf as ->.
    repeat constructor.
  - rewrite Hq. simpl. apply (H1 halt_atom); [by_vm|by_vm|repeat constructor].
Defined.
