(* ===== verification/Cache.v ===== *)
(** * The derived-fact cache under interleaved queries and updates

    [evaluatedWorkingStore] releases the runtime lock between its snapshot
    ([ews_begin]) and its evaluation ([ews_commit]); a reload, an added policy
    or loaded facts may run in between.  [reach] is the step relation of one
    runtime with any number of queries in flight.  The theorems: every hit is
    an evaluation of the current program over the current facts (for traffic
    whose cache keys do not collide), the cache stays within its bound, and
    the interleaving in which a commit panics. *)
From S2P Require Import Prelude GoStrings CoreErrors Facts Sources Datalog Runtime Ground.
From Stdlib Require Import Ascii String.
Open Scope string_scope.

Section Cache.
Context {St : Type} `{FactStore St} `{!Mangle St}.
Implicit Types (r : MangleRuntime St) (pd : Pending).

(** What a query saw at its snapshot (ghost state of the step relation). *)
Record Request := {
  rq_pv : Z;
  rq_bv : Z;
  rq_program : option (ProgramInfo * Strata);
  rq_base : St;
  rq_facts : list Atom
}.
Definition snapshot (r : MangleRuntime St) (facts : list Atom) : Request :=
  {| rq_pv := rt_programVersion r; rq_bv := rt_baseVersion r; rq_program := rt_program r;
     rq_base := rt_base r; rq_facts := facts |}.
Definition rq_key (q : Request) : Z := idbCacheKey (rq_pv q) (rq_bv q) (rq_facts q).

(** A store [s] is an evaluation of what [q] saw. *)
Definition evaluates (q : Request) (s : St) : Prop :=
  exists p opts timeout, rq_program q = Some p /\
    eval_stratified (fst p) (snd p) opts timeout (working_store (rq_base q) (rq_facts q)) = (s, None).

(** The 64-bit version counters do not wrap. *)
Definition no_wrap r : Prop :=
  (rt_programVersion r < 2 ^ 64 - 1 /\ rt_baseVersion r < 2 ^ 64 - 1)%Z.

(** Runtime, queries in flight and requests made so far.  The one operation
    left out is [LoadFacts] with a malformed fact on a ready runtime
    (theorem [LoadFacts_error_keeps_cache]). *)
Inductive reach : MangleRuntime St -> list Pending -> list Request -> Prop :=
| reach_init : reach NewMangleRuntime [] []
| reach_begin r ps qs facts opts r' b :
    reach r ps qs -> rt_ready r = true -> ews_begin facts opts r = (r', b) ->
    reach r' (match b with BMiss pd => pd :: ps | _ => ps end) (snapshot r facts :: qs)
| reach_commit r ps1 pd ps2 qs ctx r' x :
    reach r (ps1 ++ pd :: ps2) qs -> ews_commit ctx pd r = Some (r', x) ->
    reach r' (ps1 ++ ps2) qs
| reach_config r ps qs c : reach r ps qs -> reach (set_cfg c r) ps qs
| reach_reload r ps qs stdLib ctx source :
    reach r ps qs -> no_wrap r -> reach (fst (ReloadFromSource stdLib ctx source r)) ps qs
| reach_add r ps qs ctx source persistent :
    reach r ps qs -> no_wrap r -> reach (fst (addPolicy ctx source persistent r)) ps qs
| reach_facts r ps qs ctx facts :
    reach r ps qs -> no_wrap r ->
    (rt_ready r = true -> snd (load_fact_strings facts r) = None) ->
    reach (fst (LoadFacts ctx facts r)) ps qs.

(** ** How an update relates to the state before it *)

(** Nothing a query depends on changed. *)
Definition keeps r r' : Prop :=
  rt_program r' = rt_program r /\ rt_base r' = rt_base r /\
  rt_programVersion r' = rt_programVersion r /\ rt_baseVersion r' = rt_baseVersion r /\
  rt_idbCache r' = rt_idbCache r /\ rt_ready r' = rt_ready r.

(** A version moved and the cache was dropped. *)
Definition advances r r' : Prop :=
  (rt_programVersion r <= rt_programVersion r' < 2 ^ 64)%Z /\
  (rt_baseVersion r <= rt_baseVersion r' < 2 ^ 64)%Z /\
  (rt_programVersion r < rt_programVersion r' \/ rt_baseVersion r < rt_baseVersion r')%Z /\
  rt_idbCache r' = None /\ rt_ready r' = true.

(** Facts loaded before any program. *)
Definition preloads r r' : Prop :=
  rt_ready r = false /\ rt_ready r' = false /\ rt_idbCache r' = rt_idbCache r /\
  rt_programVersion r' = rt_programVersion r /\ rt_baseVersion r' = rt_baseVersion r.

Definition versions_ok r : Prop :=
  (0 <= rt_programVersion r < 2 ^ 64 /\ 0 <= rt_baseVersion r < 2 ^ 64)%Z.

Lemma u64_succ_small v : (0 <= v < 2 ^ 64 - 1)%Z -> u64_succ v = (v + 1)%Z.
Proof. intros Hv. unfold u64_succ. apply Z.mod_small. lia. Qed.

Lemma keeps_refl r : keeps r r.
Proof. by repeat split. Qed.

Lemma evaluate_keeps_but_base ctx r r' e :
  evaluate ctx r = (r', e) ->
  rt_program r' = rt_program r /\ rt_programVersion r' = rt_programVersion r /\
  rt_baseVersion r' = rt_baseVersion r /\ rt_idbCache r' = rt_idbCache r /\
  rt_ready r' = rt_ready r.
Proof.
  unfold evaluate. intros He. simpl in He. destruct (rt_program r) eqn:?; simplify_eq/=; [|done].
  destruct (evalStratifiedWithContext _ _ _ _ _). by simplify_eq/=.
Qed.

Lemma reload_step stdLib ctx source r :
  no_wrap r -> versions_ok r ->
  let r' := fst (ReloadFromSource stdLib ctx source r) in keeps r r' \/ advances r r'.
Proof.
  intros [Hp Hb] [Hp' Hb']. unfold ReloadFromSource. simpl.
  destruct (String.eqb source ""); [left; apply keeps_refl|].
  destruct (parse_unit _) as [u|]; [|left; apply keeps_refl].
  destruct (analyze_units _ _ _) as [p|]; [|left; apply keeps_refl].
  destruct (evalStratifiedWithContext _ _ _ _ _) as [m [e|]]; simpl; [left; by repeat split|].
  right. unfold advances; simpl. rewrite !u64_succ_small by lia. repeat split; lia.
Qed.

Lemma addPolicy_step ctx source persistent r :
  no_wrap r -> versions_ok r ->
  let r' := fst (addPolicy ctx source persistent r) in keeps r r' \/ advances r r'.
Proof.
  intros [Hp Hb] [Hp' Hb']. unfold addPolicy. simpl.
  destruct (String.eqb source ""); [left; apply keeps_refl|].
  destruct (parse_unit _) as [u|]; [|left; apply keeps_refl].
  destruct (analyze_units _ _ _) as [p|]; [|left; apply keeps_refl].
  destruct (evaluate _ _) as [r3 err] eqn:He. right.
  assert (fst (match err with
               | Some e => (r3, Some (EWrap "failed to evaluate combined program: " e))
               | None => (r3, None) end) = r3) as -> by (by destruct err).
  apply evaluate_keeps_but_base in He as (_ & F2 & F3 & F4 & F5).
  unfold advances. rewrite F2, F3, F4, F5.
  destruct persistent; simpl; rewrite u64_succ_small by lia; repeat split; lia.
Qed.

Lemma load_fact_strings_keeps facts r :
  let r' := fst (load_fact_strings facts r) in
  rt_program r' = rt_program r /\ rt_programVersion r' = rt_programVersion r /\
  rt_baseVersion r' = rt_baseVersion r /\ rt_idbCache r' = rt_idbCache r /\
  rt_ready r' = rt_ready r.
Proof.
  revert r. induction facts as [|f facts IH]; intros r; simpl; [done|].
  destruct (parse_atom f); simpl; [|done].
  apply (IH (set_stores (st_add a (rt_base r)) (st_add a (rt_explicit r)) r)).
Qed.

Lemma LoadFacts_step ctx facts r :
  no_wrap r -> versions_ok r -> (rt_ready r = true -> snd (load_fact_strings facts r) = None) ->
  let r' := fst (LoadFacts ctx facts r) in preloads r r' \/ advances r r'.
Proof.
  intros [Hp Hb] [Hp' Hb'] Hok. unfold LoadFacts.
  destruct (load_fact_strings facts r) as [r1 err] eqn:Hl.
  pose proof (load_fact_strings_keeps facts r) as (E1 & E2 & E3 & E4 & E5).
  rewrite Hl in *. simpl in *. destruct (rt_ready r) eqn:Hrd.
  - rewrite Hok, E5 by done. destruct (evaluate _ _) as [r3 err3] eqn:He. right.
    apply evaluate_keeps_but_base in He as (_ & F2 & F3 & F4 & F5). simpl in *.
    destruct err3; simpl; unfold advances; rewrite F2, F3, F4, F5, E2, E3, E5, u64_succ_small by lia;
      repeat split; lia.
  - left. destruct err; simpl; [by repeat split|]. rewrite E5. by repeat split.
Qed.

(** ** The invariant *)

Definition pending_ok (qs : list Request) pd : Prop :=
  exists q, q ∈ qs /\ rq_program q = Some (pd_program pd) /\
    pd_store pd = working_store (rq_base q) (rq_facts q) /\
    (forall k, pd_key pd = Some k -> k = rq_key q).

Record inv r (ps : list Pending) (qs : list Request) : Prop := {
  inv_versions : versions_ok r;
  inv_current : forall q, q ∈ qs ->
    (rq_pv q <= rt_programVersion r /\ rq_bv q <= rt_baseVersion r)%Z /\
    (rq_pv q = rt_programVersion r -> rq_bv q = rt_baseVersion r ->
     rq_program q = rt_program r /\ rq_base q = rt_base r);
  inv_pending : forall pd, pd ∈ ps -> pending_ok qs pd;
  inv_cache : forall c k s, rt_idbCache r = Some c -> c !! k = Some s ->
    exists q, q ∈ qs /\ k = rq_key q /\ evaluates q s;
  inv_ready : rt_ready r = false -> qs = [];
  inv_bound : forall c, rt_idbCache r = Some c -> size c <= maxIDBCacheEntries
}.

Lemma inv_keeps r r' ps qs : keeps r r' -> inv r ps qs -> inv r' ps qs.
Proof.
  intros (E1 & E2 & E3 & E4 & E5 & E6) [V A B C D F].
  split; unfold versions_ok; rewrite ?E1, ?E2, ?E3, ?E4, ?E5, ?E6; auto.
Qed.

Lemma inv_advances r r' ps qs : advances r r' -> inv r ps qs -> inv r' ps qs.
Proof.
  intros (V1 & V2 & V3 & E4 & E5) [[V V'] A B C D F].
  split; unfold versions_ok; rewrite ?E4, ?E5; try done; [lia|].
  intros q Hq. destruct (A q Hq) as [Hle _]. split; [lia|]. intros; lia.
Qed.

Lemma inv_preloads r r' ps qs : preloads r r' -> inv r ps qs -> inv r' ps qs.
Proof.
  intros (E1 & E2 & E3 & E4 & E5) [V A B C D F]. specialize (D E1) as ->.
  split; unfold versions_ok; rewrite ?E2, ?E3, ?E4, ?E5; auto; set_solver.
Qed.

Lemma pending_ok_mono q qs pd : pending_ok qs pd -> pending_ok (q :: qs) pd.
Proof. intros (x & Hx & Hrest). exists x. split; [set_solver|done]. Qed.

Lemma ensure_cache_lookup r c :
  rt_idbCache (ensure_cache r) = Some c -> rt_idbCache r = Some c \/ c = ∅.
Proof. unfold ensure_cache. destruct (rt_idbCache r) eqn:E; simpl; naive_solver. Qed.

Lemma inv_ensure r ps qs : inv r ps qs -> inv (ensure_cache r) ps qs.
Proof.
  intros [V A B C D F]. unfold ensure_cache. destruct (rt_idbCache r) eqn:E; [by split; rewrite ?E|].
  split; simpl; try done.
  - intros c k s [= <-]. by rewrite lookup_empty.
  - intros c [= <-]. rewrite map_size_empty. lia.
Qed.

Lemma ews_begin_inv r ps qs facts opts r' b :
  inv r ps qs -> rt_ready r = true -> ews_begin facts opts r = (r', b) ->
  inv r' (match b with BMiss pd => pd :: ps | _ => ps end) (snapshot r facts :: qs).
Proof.
  intros Hi Hrd. unfold ews_begin. rewrite Hrd.
  assert (inv r ps (snapshot r facts :: qs)) as Hi'.
  { destruct Hi as [V A B C D F]. split; try done.
    - intros q [->|Hq]%elem_of_cons; [simpl; split; [lia|done]|auto].
    - intros pd Hpd. apply pending_ok_mono; auto.
    - intros c k s Hc Hk. destruct (C c k s Hc Hk) as (q & Hq & Hrest). exists q. set_solver.
    - congruence. }
  destruct (rt_program r) as [p|] eqn:Hp; [|intros ?; simplify_eq; exact Hi'].
  assert (inv (if cacheable r then ensure_cache r else r) ps (snapshot r facts :: qs)) as Hi2
    by (destruct (cacheable r); [by apply inv_ensure|done]).
  destruct (if cacheable r then _ else None); intros ?; simplify_eq; [done|].
  destruct Hi2 as [V A B C D F]. split; try done.
  intros pd [->|Hpd]%elem_of_cons; [|auto].
  exists (snapshot r facts). split; [set_solver|]. simpl. split_and!; [done|done|].
  destruct (cacheable r); naive_solver.
Qed.

Lemma inv_drop r ps1 pd ps2 qs : inv r (ps1 ++ pd :: ps2) qs -> inv r (ps1 ++ ps2) qs.
Proof. intros [V A B C D F]. split; try done. intros x Hx. apply B. set_solver. Qed.

Lemma cache_insert_spec k s r r' :
  cache_insert k s r = Some r' ->
  exists c c', rt_idbCache r = Some c /\ r' = set_cache (Some c') r /\
    (size c <= maxIDBCacheEntries -> size c' <= maxIDBCacheEntries) /\
    (forall k' s', c' !! k' = Some s' -> k' = k /\ s' = s \/ c !! k' = Some s').
Proof.
  unfold cache_insert. destruct (rt_idbCache r) as [c|]; [|done]. intros [= <-].
  exists c, (<[k := s]> (if (maxIDBCacheEntries <=? size c)%nat then ∅ else c)). split_and!; [done|done| |].
  - intros Hle. destruct (maxIDBCacheEntries <=? size c)%nat eqn:E.
    + rewrite insert_empty, map_size_singleton. unfold maxIDBCacheEntries. lia.
    + apply Nat.leb_gt in E. rewrite map_size_insert. destruct (c !! k); simpl; lia.
  - intros k' s'. rewrite lookup_insert_Some.
    destruct (maxIDBCacheEntries <=? size c)%nat; rewrite ?lookup_empty; naive_solver.
Qed.

Lemma ews_commit_inv r ps1 pd ps2 qs ctx r' x :
  inv r (ps1 ++ pd :: ps2) qs -> ews_commit ctx pd r = Some (r', x) -> inv r' (ps1 ++ ps2) qs.
Proof.
  intros Hi. assert (pending_ok qs pd) as (q & Hq & Hp & Hs & Hk) by (apply (inv_pending _ _ _ Hi); set_solver).
  apply inv_drop in Hi. unfold ews_commit, evalStratifiedWithContext.
  destruct ctx as [e|]; [by intros ?; simplify_eq|].
  assert (inv (count_eval r) (ps1 ++ ps2) qs) as Hi' by (eapply inv_keeps; [|done]; by repeat split).
  destruct (eval_stratified _ _ _ _ _) as [s [e|]] eqn:He; [by intros ?; simplify_eq|].
  destruct (pd_key pd) as [k|] eqn:Hkey; [|by intros ?; simplify_eq].
  intros (r2 & Hins & ?)%fmap_Some; simplify_eq.
  apply cache_insert_spec in Hins as (c & c' & Hc & -> & Hsz & Hlk).
  destruct Hi' as [V A B C D F]. split; try done; simpl in *.
  - intros c2 k' s' [= <-] [[-> ->]|Hl]%Hlk; [|eauto].
    exists q. split_and!; [done|auto|]. exists (pd_program pd), (pd_opts pd). eexists.
    split; [done|]. by rewrite <- Hs.
  - intros c2 [= <-]. eauto.
Qed.

Lemma reach_inv r ps qs : reach r ps qs -> inv r ps qs.
Proof.
  induction 1 as [|r ps qs facts opts r' b Hr IH Hrd Hb|r ps1 pd ps2 qs ctx r' x Hr IH Hc
                 |r ps qs c Hr IH|r ps qs std ctx src Hr IH Hw|r ps qs ctx src pe Hr IH Hw
                 |r ps qs ctx facts Hr IH Hw Hok].
  - split; simpl; try set_solver. unfold versions_ok; simpl; lia.
  - by eapply ews_begin_inv.
  - by eapply ews_commit_inv.
  - eapply inv_keeps; [|done]. by repeat split.
  - destruct (reload_step std ctx src r Hw (inv_versions _ _ _ IH)); eauto using inv_keeps, inv_advances.
  - destruct (addPolicy_step ctx src pe r Hw (inv_versions _ _ _ IH)); eauto using inv_keeps, inv_advances.
  - destruct (LoadFacts_step ctx facts r Hw (inv_versions _ _ _ IH) Hok);
      eauto using inv_preloads, inv_advances.
Qed.
End Cache.

(** Requests whose keys are equal are the same request. *)
Definition no_collision {St : Type} `{!Mangle St} (qs : list (@Request St _)) : Prop :=
  Forall (fun q1 => Forall (fun q2 => rq_key q1 = rq_key q2 ->
    rq_pv q1 = rq_pv q2 /\ rq_bv q1 = rq_bv q2 /\ rq_facts q1 = rq_facts q2) qs) qs.

(** C9: cache coherence: in every state reached by interleaved queries,
    reloads, added policies and loaded facts, a cache hit returns a successful
    evaluation of the current program over the current base facts and exactly
    the request's facts; an entry cached under an older program or older facts
    is never returned.  This holds under three restrictions: no [LoadFacts] on
    a ready runtime failed on a malformed fact (the claim is false of the code
    after one: [LoadFacts_error_keeps_cache]), the two 64-bit version counters
    did not wrap around, and the 64-bit keys of the requests so far do not
    collide. *)
Theorem cache_hit_current {St : Type} `{FactStore St} `{!Mangle St}
    (r r' : MangleRuntime St) (ps : list Pending) (qs : list Request)
    (facts : list Atom) (opts : EvalOpts) (s : St) :
  reach r ps qs -> no_collision (snapshot r facts :: qs) ->
  ews_begin facts opts r = (r', BHit s) -> evaluates (snapshot r facts) s.
Proof.
  intros Hr Hnc. unfold ews_begin.
  destruct (rt_ready r) eqn:Hrd, (rt_program r) as [p|] eqn:Hp; try done.
  destruct (cacheable r); [|done].
  destruct (rt_idbCache (ensure_cache r) ≫= _) as [s'|] eqn:Hl; [|done]. intros ?; simplify_eq.
  apply bind_Some in Hl as (c & Hc & Hl).
  destruct (inv_cache _ _ _ (inv_ensure _ _ _ (reach_inv _ _ _ Hr)) _ _ _ Hc Hl) as (q & Hq & Hk & Hev).
  destruct (inv_current _ _ _ (reach_inv _ _ _ Hr) q Hq) as [_ Hcur].
  unfold no_collision in Hnc. rewrite Forall_forall in Hnc.
  pose proof (Hnc (snapshot r facts) ltac:(set_solver)) as Hn. rewrite Forall_forall in Hn.
  destruct (Hn q ltac:(set_solver) Hk) as (E1 & E2 & E3). simpl in *.
  destruct (Hcur (eq_sym E1) (eq_sym E2)) as [E4 E5].
  destruct Hev as (p' & o & t & Hp' & He). exists p', o, t. simpl. split; [congruence|].
  by rewrite E3, <- E5.
Qed.

(** The cache never holds more than [maxIDBCacheEntries] evaluated
    stores, whatever the interleaving. *)
Theorem cache_bounded {St : Type} `{FactStore St} `{!Mangle St}
    (r : MangleRuntime St) (ps : list Pending) (qs : list Request) (c : gmap Z St) :
  reach r ps qs -> rt_idbCache r = Some c -> size c <= maxIDBCacheEntries.
Proof. intros Hr. apply (inv_bound _ _ _ (reach_inv _ _ _ Hr)). Qed.

(** A reload that lands between a query's snapshot and its commit makes
    the commit panic: the reload leaves the cache map nil and the query then
    assigns to it.  Every cacheable query that misses, followed by any
    successful reload, does so once its evaluation succeeds. *)
Theorem commit_after_reload_panics {St : Type} `{FactStore St} `{!Mangle St}
    (stdLib source : string) (ctx : option error) (facts : list Atom) (opts : EvalOpts)
    (r r1 r2 : MangleRuntime St) (pd : Pending) :
  cacheable r = true -> ews_begin facts opts r = (r1, BMiss pd) ->
  ReloadFromSource stdLib ctx source r1 = (r2, None) ->
  snd (eval_stratified (fst (pd_program pd)) (snd (pd_program pd)) (pd_opts pd)
         (cfg_evalTimeout (rt_cfg r2)) (pd_store pd)) = None ->
  ews_commit None pd r2 = None.
Proof.
  intros Hc Hb Hrl Hev. assert (exists k, pd_key pd = Some k) as [k Hk].
  { unfold ews_begin in Hb. rewrite Hc in Hb. mk_cases; eauto. }
  assert (rt_idbCache r2 = None) as Hn.
  { unfold ReloadFromSource in Hrl. mk_cases; done. }
  unfold ews_commit, evalStratifiedWithContext. simpl.
  destruct (eval_stratified _ _ _ _ _) as [s err]. simpl in Hev. subst err.
  rewrite Hk. unfold cache_insert. simpl. by rewrite Hn.
Qed.

(** Without such an interleaving the commit finds the map it needs. *)
Lemma ews_sequential {St : Type} `{FactStore St} `{!Mangle St} facts opts ctx
    (r r1 : MangleRuntime St) pd :
  ews_begin facts opts r = (r1, BMiss pd) -> is_Some (ews_commit ctx pd r1).
Proof.
  unfold ews_begin. destruct (rt_ready r), (rt_program r); try done.
  intros Hb. assert (pd_key pd = None \/ is_Some (rt_idbCache r1)) as Hor.
  { destruct (cacheable r); [right|left]; mk_cases; unfold ensure_cache in *; mk_cases; eauto. }
  unfold ews_commit. destruct ctx; [eauto|]. destruct (evalStratifiedWithContext _ _ _ _ _) as [s [e|]]; [eauto|].
  destruct Hor as [->|[c Hc]]; [eauto|]. destruct (pd_key pd); [|eauto].
  unfold cache_insert. simpl. rewrite Hc. simpl. eauto.
Qed.

(** A malformed fact in a batch leaves the earlier facts of the batch in
    the base store of a ready runtime while the base version and the cache
    stay: a query answered from the cache before keeps its old answer, and no
    re-evaluation has taken the new facts into account. *)
Theorem LoadFacts_error_keeps_cache {St : Type} `{FactStoreLaws St} `{!Mangle St}
    (ctx : option error) (good bad : string) (rest : list string) (a : Atom) (e : error)
    (r : MangleRuntime St) :
  parse_atom good = Ok a -> parse_atom bad = Err e ->
  exists r' e', LoadFacts ctx (good :: bad :: rest) r = (r', Some e') /\
    st_contains (rt_base r') a = true /\ st_contains (rt_explicit r') a = true /\
    rt_baseVersion r' = rt_baseVersion r /\ rt_idbCache r' = rt_idbCache r /\
    rt_evalCount r' = rt_evalCount r.
Proof.
  intros Hg Hb. unfold LoadFacts. cbn [load_fact_strings]. rewrite Hg, Hb.
  eexists _, _. split; [done|]. simpl. rewrite !contains_add, !bool_decide_eq_true_2 by done. done.
Qed.

(** ** Witnesses: a one-line policy, one request fact *)

Definition demo_fact : Atom := NewAtom "req" [TConst (CString "a")].
Definition demo0 : MangleRuntime (list Atom) := fst (addPolicy None "p." false NewMangleRuntime).
Definition demo1 : MangleRuntime (list Atom) := fst (ews_begin [demo_fact] no_opts demo0).
Definition demo_pd : @Pending (list Atom) _ :=
  {| pd_program := ([NewAtom "p" []], tt);
     pd_store := working_store (rt_base demo0) [demo_fact]; pd_opts := no_opts;
     pd_key := Some (idbCacheKey 1 0 [demo_fact]) |}.
Definition demo_store : list Atom := [NewAtom "p" []; demo_fact].
Definition demo2 : MangleRuntime (list Atom) :=
  match ews_commit None demo_pd demo1 with Some (r, _) => r | None => demo1 end.

Lemma demo_miss : ews_begin [demo_fact] no_opts demo0 = (demo1, BMiss demo_pd).
Proof. by_vm. Qed.

Lemma demo_reach : reach demo2 [] [snapshot demo0 [demo_fact]].
Proof.
  apply (reach_commit demo1 [] demo_pd [] _ None demo2 (Ok demo_store)); [|by_vm].
  apply (reach_begin demo0 [] [] [demo_fact] no_opts demo1 (BMiss demo_pd));
    [|by_vm|exact demo_miss].
  apply (reach_add NewMangleRuntime); [constructor|split; vm_compute; reflexivity].
Qed.

Lemma cache_hit_current_witness :
  ews_begin [demo_fact] no_opts demo2 = (demo2, BHit demo_store) /\
  evaluates (snapshot demo2 [demo_fact]) demo_store.
Proof.
  split; [by_vm|].
  apply (cache_hit_current demo2 demo2 [] [snapshot demo0 [demo_fact]] [demo_fact] no_opts demo_store).
  - exact demo_reach.
  - repeat constructor.
  - by_vm.
Defined.

Lemma cache_bounded_witness : exists c, rt_idbCache demo2 = Some c /\ size c <= maxIDBCacheEntries.
Proof.
  exists (<[idbCacheKey 1 0 [demo_fact] := demo_store]> ∅).
  assert (rt_idbCache demo2 = Some (<[idbCacheKey 1 0 [demo_fact] := demo_store]> ∅)) as Hc
    by (by_vm).
  split; [exact Hc|]. apply (cache_bounded demo2 [] [snapshot demo0 [demo_fact]]); [exact demo_reach|exact Hc].
Defined.

(** Std.dl is empty here; the reload source is another one-line policy. *)
Definition demo_reloaded : MangleRuntime (list Atom) := fst (ReloadFromSource "" None "q." demo1).

Lemma commit_after_reload_panics_witness : ews_commit None demo_pd demo_reloaded = None.
Proof.
  apply (commit_after_reload_panics "" "q." None [demo_fact] no_opts demo0 demo1 demo_reloaded demo_pd).
  - by_vm.
  - exact demo_miss.
  - by_vm.
  - by_vm.
Defined.

Lemma LoadFacts_error_keeps_cache_witness :
  rt_ready demo2 = true /\
  exists r' e', LoadFacts None ["good"; "bad!"] demo2 = (r', Some e') /\
    st_contains (rt_base r') (NewAtom "good" []) = true /\
    st_contains (rt_explicit r') (NewAtom "good" []) = true /\
    rt_baseVersion r' = rt_baseVersion demo2 /\ rt_idbCache r' = rt_idbCache demo2 /\
    rt_evalCount r' = rt_evalCount demo2.
Proof.
  split; [by_vm|].
  apply (LoadFacts_error_keeps_cache None "good" "bad!" [] (NewAtom "good" []) (EText "syntax error") demo2);
    by_vm.
Defined.
