(* ===== verification/Solver.v ===== *)
(** * The policy engine

    [PolicyEngine] of [internal/engine/solver.go]: conversion of an envelope
    into request facts, the gate (pre-check [Assess], post-check [Reflect]),
    steering, configuration and requirement queries, action registration.

    The engine is written against the [GateRuntime] interface (what it uses of
    [MangleRuntime]); [mangle_gate_runtime] is the implementation by [Runtime].
    A function that flattens a JSON payload returns [None] when the fuel of
    [Flatten] runs out; everything else is total.  Logging and tracing calls
    are dropped. *)
From S2P Require Import Prelude GoStrings CoreErrors CoreTypes Facts Reflect Sources Datalog Runtime.
From Stdlib Require Import Ascii String.
Open Scope string_scope.

Class GateRuntime (R : Type) := {
  gr_ready : R -> bool;
  gr_parse : string -> res error Atom;   (* parse.Atom *)
  gr_query : option error -> list Atom -> string -> R -> R * QueryOutcome;
  gr_exec : option error -> list Atom -> string -> R -> R * res error bool;
  gr_load : option error -> list string -> R -> R * option error;
  gr_add : option error -> string -> R -> R * option error;
  gr_reload : option error -> string -> R -> R * option error
}.

(** The implementation by [MangleRuntime]; [stdLib] is the embedded std.dl. *)
Definition mangle_gate_runtime {St : Type} `{FactStore St} `{!Mangle St} (stdLib : string)
  : GateRuntime (MangleRuntime St) := {|
  gr_ready := IsReady;
  gr_parse := parse_atom;
  gr_query := QueryWithSolutions;
  gr_exec := ExecuteQuery;
  gr_load := LoadFacts;
  gr_add := AddPolicy;
  gr_reload := ReloadFromSource stdLib
|}.

(** What the engine reads of its surroundings: the case mapping and [%v]
    rendering of [Reflect], the heap the payload lives in, the fuel of
    [Flatten], [strconv.ParseFloat] followed by [%g], the order in which Go
    ranges over a metadata map, and the clock. *)
Record GoEnv := {
  ge_lower : string -> string;
  ge_render : GoVal -> string;
  ge_heap : Heap;
  ge_fuel : nat;
  ge_parse_float : string -> option string;
  ge_range : gmap string GoVal -> list (string * GoVal);
  ge_now : Z
}.

(** ** Parsing numbers *)

Definition digit_value (c : ascii) : option Z :=
  if ((48 <=? bval c) && (bval c <=? 57))%Z then Some (bval c - 48)%Z else None.

Fixpoint digits_value (acc : Z) (s : string) : option Z :=
  match s with
  | "" => Some acc
  | String c s' => match digit_value c with
                   | Some d => digits_value (acc * 10 + d)%Z s'
                   | None => None
                   end
  end.

(** [strconv.ParseInt(s, 10, 64)]. *)
Definition parse_int64 (s : string) : option Z :=
  let '(neg, body) :=
    match s with
    | String c s' => if Z.eqb (bval c) 45 then (true, s') else if Z.eqb (bval c) 43 then (false, s') else (false, s)
    | "" => (false, "")
    end in
  if String.eqb body "" then None else
  match digits_value 0 body with
  | None => None
  | Some v => let z := if neg then (- v)%Z else v in
              if ((- 2 ^ 63 <=? z) && (z <? 2 ^ 63))%Z then Some z else None
  end.

(** ** Tiers *)

Definition tierPriority (tier : string) : Z :=
  if String.eqb tier TierT0_Axiom then 0
  else if String.eqb tier TierT1_Governance then 1
  else if String.eqb tier TierT2_Playbook then 2
  else if String.eqb tier TierT3_User then 3
  else 4.

Definition TierMapping : list (string * string) :=
  [("allow", TierT1_Governance); ("deny", TierT1_Governance); ("may_read", TierT1_Governance);
   ("may_write", TierT1_Governance); ("may_exec", TierT1_Governance);
   ("can_execute", TierT2_Playbook); ("can_access", TierT2_Playbook); ("requires", TierT2_Playbook);
   ("retry_for", TierT2_Playbook); ("validation_rule", TierT2_Playbook);
   ("prompt_template", TierT2_Playbook); ("workflow_node", TierT2_Playbook);
   ("workflow_edge", TierT2_Playbook); ("agent_role", TierT2_Playbook);
   ("role_capability", TierT2_Playbook); ("task_requires", TierT2_Playbook)].

Definition lookup_str {A : Type} (k : string) (l : list (string * A)) : option A :=
  snd <$> List.find (fun p => String.eqb (fst p) k) l.

(** [determineTierFromPredicate]; [mapping] is [TierMapping] in the order the
    prefix loop ranges over it. *)
Definition determineTierFromPredicate (mapping : list (string * string)) (predicate : string) : string :=
  match lookup_str predicate mapping with
  | Some t => t
  | None => match List.find (fun p => has_prefix predicate (fst p)) mapping with
            | Some (_, t) => t
            | None => TierUnknown
            end
  end.

Definition TierSourceFiles (t : string) : string :=
  if String.eqb t TierT0_Axiom then "axioms.dl"
  else if String.eqb t TierT1_Governance then "governance.dl"
  else if String.eqb t TierT2_Playbook then "registry.dl"
  else if String.eqb t TierT3_User then "user-input.dl"
  else if String.eqb t TierUnknown then "unknown" else "".

Definition getSourceFileForPredicate (predicate : string) : string :=
  TierSourceFiles (determineTierFromPredicate TierMapping predicate).

Definition extractPredicateFromQuery (queryStr : string) : string :=
  let q := trim_space queryStr in
  match index_of q "(" with
  | Some (S i) => trim_space (str_take (S i) q)
  | _ => q
  end.

(** ** The engine *)

Record PolicyEngine (R : Type) := {
  pe_runtime : R;
  pe_factCache : gmap string Atom
}.
Arguments pe_runtime {R} _.
Arguments pe_factCache {R} _.

Definition set_runtime {R : Type} (r : R) (e : PolicyEngine R) : PolicyEngine R :=
  {| pe_runtime := r; pe_factCache := pe_factCache e |}.

Definition maxFactParseCacheEntries : nat := 4096.

(** A tier-attributed match of [halt], [retry] or [route]. *)
Record Match := { m_text : string; m_tier : string }.

Section Engine.
Context {R : Type} `{!GateRuntime R} (G : GoEnv).
Implicit Types (e : PolicyEngine R).

Definition stringTerm (s : string) : BaseTerm :=
  match parse_int64 s with
  | Some i => TConst (CNumber i)
  | None => match ge_parse_float G s with
            | Some g => TConst (CFloat64 g)
            | None => TConst (CString s)
            end
  end.

Definition parseCachedAtom (factStr : string) (e : PolicyEngine R)
  : PolicyEngine R * res error Atom :=
  match pe_factCache e !! factStr with
  | Some atom => (e, Ok atom)
  | None =>
      match gr_parse factStr with
      | Err err => (e, Err err)
      | Ok atom =>
          (if (size (pe_factCache e) <? maxFactParseCacheEntries)%nat
           then {| pe_runtime := pe_runtime e; pe_factCache := <[factStr := atom]> (pe_factCache e) |}
           else e, Ok atom)
      end
  end.

Definition meta_atom (k v : string) : Atom := NewAtom "meta" [TConst (CString k); TConst (CString v)].

(** The facts of one metadata entry. *)
Definition meta_facts (k : string) (v : GoVal) : list Atom :=
  let text x := fmt_v (ge_render G) (strip_iface x) in
  let slice elems := map (fun x => meta_atom k (text x)) elems in
  match strip_iface v with
  | GArray elems => slice elems
  | GSlice None => []
  | GSlice (Some (_, c)) => match ge_heap G !! c with Some (CellSlice elems) => slice elems | _ => [] end
  | _ => (meta_atom k (text v) ::
          if String.eqb k "retry_count" then [NewAtom "attempt" [stringTerm (text v)]] else [])%list
  end.

Fixpoint append_fact_strings (facts : list Atom) (strs : list string) (actionName : string)
    (e : PolicyEngine R) : PolicyEngine R * (list Atom * option error) :=
  match strs with
  | [] => (e, (facts, None))
  | s :: rest =>
      let '(e1, r) := parseCachedAtom s e in
      match r with
      | Err err => (e1, (facts, Some (EWrap ("action " +:+ go_quote actionName
                          +:+ ": failed to parse envelope fact " +:+ go_quote s +:+ ": ") err)))
      | Ok a => append_fact_strings (facts ++ [a]) rest actionName e1
      end
  end.

Definition appendEnvelopeFacts (facts : list Atom) (env : Envelope) (actionName : string)
    (e : PolicyEngine R) : PolicyEngine R * (list Atom * option error) :=
  let '(e1, (facts1, err)) := append_fact_strings facts (env_Facts env) actionName e in
  match err with
  | Some x => (e1, (facts1, Some x))
  | None => (e1, (facts1 ++ mjoin (map (fun '(k, v) => meta_facts k v) (ge_range G (env_Metadata env))), None))%list
  end.

Definition toMangleFacts (entityID : string) (input : GoVal) (contentType : string)
  : option (res error (list Atom)) :=
  match input with
  | GNil => Some (Ok [])
  | _ =>
      facts ← (if String.eqb contentType TypeJSON
               then Flatten (ge_render G) (ge_heap G) (ge_fuel G) entityID input
               else ToFacts (ge_lower G) (ge_render G) (ge_heap G) entityID input);
      Some (res_mapM (fun s => match gr_parse s with
                               | Ok a => Ok a
                               | Err err => Err (EWrap ("failed to parse fact '" +:+ s +:+ "': ") err)
                               end) facts)
  end.

Definition parse_labels (fs : list string) : res error (list Atom) :=
  res_mapM (fun f => match gr_parse f with
                     | Ok a => Ok a
                     | Err err => Err (EInput (EWrap "label parsing error: " err))
                     end) fs.

(** Steps 1 to 5 of the gate: all the request facts. *)
Definition gate_facts (actionName entityID : string) (env : Envelope) (extra : list Atom)
    (e : PolicyEngine R) : option (PolicyEngine R * res error (list Atom)) :=
  payload ← toMangleFacts entityID (env_Payload env) (env_ContentType env);
  Some match payload with
       | Err err => (e, Err (EInput (EWrap "fact conversion error: " err)))
       | Ok facts =>
           match parse_labels (LabelsToFacts entityID (env_SecurityLabels env)) with
           | Err err => (e, Err err)
           | Ok labels =>
               let '(e1, (facts1, err)) :=
                 appendEnvelopeFacts (facts ++ extra ++ labels)%list env actionName e in
               match err with
               | Some x => (e1, Err (EInput (EWrap "envelope fact parsing error: " x)))
               | None => (e1, Ok facts1)
               end
           end
       end.

(** ** Matches *)

Definition tier_of (sol : Solution) (key : string) : string :=
  match sol !! key with
  | Some t => if String.eqb t "" then TierUnknown else t
  | None => TierUnknown
  end.

(** Callback of the arity-3 queries. *)
Definition tiered_matches (var : string) (sols : list Solution) : list Match :=
  omap (fun sol => (fun txt => {| m_text := txt; m_tier := tier_of sol "Tier" |}) <$> sol !! var) sols.

(** Callback of the tierless queries. *)
Definition untiered_matches (var : string) (sols : list Solution) : list Match :=
  omap (fun sol => (fun txt => {| m_text := txt; m_tier := TierUnknown |}) <$> sol !! var) sols.

(** First binding of a variable: a callback that stops at the first one. *)
Definition first_binding (var : string) (sols : list Solution) : string :=
  default "" (head (omap (fun sol => sol !! var) sols)).

Definition best_match (m : Match) (ms : list Match) : Match :=
  best_by (fun x => tierPriority (m_tier x)) m ms.

Definition halt_text (entityID : string) (m : Match) : string :=
  "halt(" +:+ quoted entityID +:+ ", " +:+ quoted (m_text m) +:+ ", " +:+ quoted (m_tier m) +:+ ")".

Definition halt_trail (entityID : string) (ms : list Match) : AuditTrail :=
  set_MatchedCount (Z.of_nat (List.length ms))
    (fold_left (fun t m => AddRule t "halt" (halt_text entityID m)
                             (getSourceFileForPredicate "halt") "halt" (m_tier m) [])
       ms (NewAuditTrail (ge_now G) "manglekit-engine" ("halt(" +:+ quoted entityID +:+ ", ...)"))).

(** ** The gate *)

Definition query_halt3 (entityID : string) : string := PredHalt +:+ "(" +:+ quoted entityID +:+ ", Reason, Tier)".
Definition query_halt2 (entityID : string) : string := PredHalt +:+ "(" +:+ quoted entityID +:+ ", Reason)".
Definition query_halt1 (entityID : string) : string := PredHalt +:+ "(" +:+ quoted entityID +:+ ")".

(** Steps 6a and 6b: an error of the arity-3 query is only logged. *)
Definition halt_matches (ctx : option error) (facts : list Atom) (entityID : string) (r : R)
  : R * res error (list Match) :=
  let '(r1, (sols3, _)) := gr_query ctx facts (query_halt3 entityID) r in
  match tiered_matches "Reason" sols3 with
  | [] =>
      let '(r2, (sols2, err2)) := gr_query ctx facts (query_halt2 entityID) r1 in
      match err2 with
      | Some err => (r2, Err (EWrap "halt query error: " err))
      | None => (r2, Ok (untiered_matches "Reason" sols2))
      end
  | ms => (r1, Ok ms)
  end.

(** The query part of the gate, on the request facts. *)
Definition gate_query (ctx : option error) (actionName entityID : string) (facts : list Atom) (r : R)
  : R * (option AuditTrail * option error) :=
  let '(r1, hm) := halt_matches ctx facts entityID r in
  match hm with
  | Err err => (r1, (None, Some err))
  | Ok (m :: ms) =>
      let best := best_match m ms in
      let '(r2, (ids, _)) := gr_query ctx facts "violation_rule(ID)" r1 in
      (r2, (Some (halt_trail entityID (m :: ms)),
            Some (EAlignment {| ae_Message := m_text best; ae_RuleID := first_binding "ID" ids;
                                ae_ActionName := actionName; ae_MatchedRule := halt_text entityID best;
                                ae_Tier := m_tier best |})))
  | Ok [] =>
      let '(r2, denied) := gr_exec ctx facts (query_halt1 entityID) r1 in
      match denied with
      | Err err => (r2, (None, Some (EWrap "policy evaluation error: " err)))
      | Ok false => (r2, (None, None))
      | Ok true =>
          let '(r3, (msgs, _)) := gr_query ctx facts (PredViolation +:+ "(Msg)") r2 in
          let '(r4, (ids, _)) := gr_query ctx facts "violation_rule(ID)" r3 in
          (r4, (None, Some (EAlignment {| ae_Message := first_binding "Msg" msgs;
                   ae_RuleID := first_binding "ID" ids; ae_ActionName := actionName;
                   ae_MatchedRule := query_halt1 entityID; ae_Tier := TierUnknown |})))
      end
  end.

Definition evaluateGateWithTrail (ctx : option error) (actionName entityID : string) (env : Envelope)
    (extra : list Atom) (e : PolicyEngine R)
  : option (PolicyEngine R * (option AuditTrail * option error)) :=
  if negb (gr_ready (pe_runtime e)) then
    Some (e, (None, Some (EAlignment {| ae_Message := "policy engine not initialized: fail-closed";
               ae_RuleID := ""; ae_ActionName := actionName; ae_MatchedRule := ""; ae_Tier := "" |})))
  else
    '(e1, gf) ← gate_facts actionName entityID env extra e;
    Some match gf with
         | Err err => (e1, (None, Some err))
         | Ok facts => let '(r', out) := gate_query ctx actionName entityID facts (pe_runtime e1) in
                       (set_runtime r' e1, out)
         end.

Definition evaluateGate ctx actionName entityID env extra e : option (PolicyEngine R * option error) :=
  (fun '(e1, (_, err)) => (e1, err)) <$> evaluateGateWithTrail ctx actionName entityID env extra e.

Definition assessInternal (ctx : option error) (meta : ActionMetadata) (input : Envelope) (e : PolicyEngine R)
  : option (PolicyEngine R * (option AuditTrail * option error)) :=
  evaluateGateWithTrail ctx (am_Name meta) EntityInput input
    (if String.eqb (am_Name meta) "" then []
     else [NewAtom "action_operation" [TConst (CString EntityInput); TConst (CString (am_Name meta))]]) e.

Definition Assess (ctx : option error) (meta : ActionMetadata) (input : Envelope) (e : PolicyEngine R)
  : option (PolicyEngine R * option error) :=
  (fun '(e1, (_, err)) => (e1, err)) <$> assessInternal ctx meta input e.

Definition Reflect (ctx : option error) (meta : ActionMetadata) (output : Envelope) (e : PolicyEngine R)
  : option (PolicyEngine R * (Envelope * option error)) :=
  (fun '(e1, err) => (e1, match err with
                          | Some x => (emptyEnvelope, Some x)
                          | None => (output, None)
                          end))
  <$> evaluateGate ctx (am_Name meta) EntityOutput output [] e.

Definition AssessPlan (ctx : option error) (input : Envelope) (e : PolicyEngine R)
  : option (PolicyEngine R * (Decision * option error)) :=
  (fun '(e1, (trail, err)) =>
     (e1, match err with
          | None => (policy_decision DecisionProceed [] [] trail, None)
          | Some x =>
              match as_alignment x with
              | Some a => (policy_decision DecisionHalt [ae_Message a] [("rule_id", ae_RuleID a)] trail, None)
              | None => (policy_decision DecisionHalt [Error x] [] trail, Some x)
              end
          end))
  <$> assessInternal ctx (named_action "") input e.

(** ** Steering *)

Definition steering_matches (ctx : option error) (facts : list Atom) (pred var : string) (r : R)
  : R * res error (list Match) :=
  let wrap err := EWrap (pred +:+ " query failed: ") err in
  let '(r1, (sols3, err3)) :=
    gr_query ctx facts (pred +:+ "(" +:+ quoted EntityInput +:+ ", " +:+ var +:+ ", Tier)") r in
  match err3 with
  | Some err => (r1, Err (wrap err))
  | None =>
      match tiered_matches var sols3 with
      | [] => let '(r2, (sols1, err1)) := gr_query ctx facts (pred +:+ "(" +:+ var +:+ ")") r1 in
              match err1 with
              | Some err => (r2, Err (wrap err))
              | None => (r2, Ok (untiered_matches var sols1))
              end
      | ms => (r1, Ok ms)
      end
  end.

Definition steering_query (ctx : option error) (facts : list Atom) (r : R)
  : R * (string * gmap string string * option error) :=
  let '(r1, retries) := steering_matches ctx facts PredRetry "Hint" r in
  match retries with
  | Err err => (r1, (DecisionProceed, ∅, Some err))
  | Ok rms =>
      let '(r2, routes) := steering_matches ctx facts PredRoute "Target" r1 in
      match routes with
      | Err err => (r2, (DecisionProceed, ∅, Some err))
      | Ok tms =>
          (r2, match rms, tms with
               | m :: ms, _ => (DecisionRetry, {[KeyFeedback := m_text (best_match m ms)]}, None)
               | [], m :: ms => (DecisionRoute, {[KeyNextStep := m_text (best_match m ms)]}, None)
               | [], [] => (DecisionProceed, ∅, None)
               end)
      end
  end.

Definition EvaluateSteering (ctx : option error) (input : Envelope) (e : PolicyEngine R)
  : option (PolicyEngine R * (string * gmap string string * option error)) :=
  if negb (gr_ready (pe_runtime e)) then Some (e, (DecisionProceed, ∅, None)) else
  payload ← toMangleFacts EntityInput (env_Payload input) (env_ContentType input);
  Some match payload with
       | Err err => (e, (DecisionProceed, ∅, Some (EWrap "failed to convert input to facts: " err)))
       | Ok facts =>
           let '(e1, (facts1, err)) := appendEnvelopeFacts facts input "" e in
           match err with
           | Some x => (e1, (DecisionProceed, ∅, Some (EWrap "envelope fact parsing error: " x)))
           | None => let '(r', out) := steering_query ctx facts1 (pe_runtime e1) in
                     (set_runtime r' e1, out)
           end
       end.

(** ** Configuration, requirements, registration *)

Definition config_of (sols : list Solution) : gmap string string :=
  fold_left (fun c sol => match sol !! "Key", sol !! "Value" with
                          | Some k, Some v => <[k := v]> c
                          | _, _ => c
                          end) sols ∅.

Definition GetActionConfig (ctx : option error) (input : Envelope) (e : PolicyEngine R)
  : option (PolicyEngine R * gmap string string) :=
  if negb (gr_ready (pe_runtime e)) then Some (e, ∅) else
  payload ← toMangleFacts EntityInput (env_Payload input) (env_ContentType input);
  Some match payload with
       | Err _ => (e, ∅)
       | Ok facts =>
           let '(e1, (facts1, _)) := appendEnvelopeFacts facts input "" e in
           let '(r', (sols, _)) := gr_query ctx facts1 "config(Key, Value)" (pe_runtime e1) in
           (set_runtime r' e1, config_of sols)
       end.

Definition CheckRequirement (ctx : option error) (input : Envelope) (reqName : string) (e : PolicyEngine R)
  : option (PolicyEngine R * res error bool) :=
  payload ← toMangleFacts EntityInput (env_Payload input) (env_ContentType input);
  Some match payload with
       | Err err => (e, Err (EWrap "fact conversion failed: " err))
       | Ok facts =>
           let '(r', out) := gr_exec ctx facts
             ("requires(" +:+ quoted EntityInput +:+ ", " +:+ quoted reqName +:+ ")") (pe_runtime e) in
           (set_runtime r' e, out)
       end.

(** [Query]: request facts as strings, all solutions. *)
Definition Query (ctx : option error) (facts : list string) (queryStr : string) (e : PolicyEngine R)
  : PolicyEngine R * res error (list Solution) :=
  match res_mapM (fun f => match gr_parse f with
                           | Ok a => Ok a
                           | Err err => Err (EWrap ("failed to parse fact '" +:+ f +:+ "': ") err)
                           end) facts with
  | Err err => (e, Err err)
  | Ok atoms => let '(r', (sols, err)) := gr_query ctx atoms queryStr (pe_runtime e) in
                (set_runtime r' e, match err with Some x => Err x | None => Ok sols end)
  end.

Definition action_facts (meta : ActionMetadata) : list string :=
  let n := quoted (escapeString (am_Name meta)) in
  (("action(" +:+ n +:+ ")")
   :: (if String.eqb (am_InputType meta) "" then []
       else ["has_input(" +:+ n +:+ ", " +:+ quoted (escapeString (am_InputType meta)) +:+ ")"])
   ++ (if String.eqb (am_OutputType meta) "" then []
       else ["has_output(" +:+ n +:+ ", " +:+ quoted (escapeString (am_OutputType meta)) +:+ ")"]))%list.

Definition engine_LoadFacts (ctx : option error) (facts : list string) (e : PolicyEngine R)
  : PolicyEngine R * option error :=
  let '(r', err) := gr_load ctx facts (pe_runtime e) in (set_runtime r' e, err).

Definition RegisterAction (meta : ActionMetadata) (e : PolicyEngine R) : PolicyEngine R * option error :=
  engine_LoadFacts None (action_facts meta) e.

Definition RegisterActions (metas : list ActionMetadata) (e : PolicyEngine R)
  : PolicyEngine R * option error :=
  match metas with
  | [] => (e, None)
  | _ => engine_LoadFacts None (mjoin (map action_facts metas)) e
  end.

Definition LoadPolicy (ctx : option error) (policy : string) (e : PolicyEngine R)
  : PolicyEngine R * option error :=
  if String.eqb policy "" then (e, None) else
  let '(r', err) := gr_add ctx policy (pe_runtime e) in
  (set_runtime r' e, EWrap "failed to load policy: " <$> err).

Definition engine_LoadFromSource (ctx : option error) (source : string) (e : PolicyEngine R)
  : PolicyEngine R * option error :=
  if String.eqb source "" then (e, None) else
  let '(r', err) := gr_reload ctx source (pe_runtime e) in
  (set_runtime r' e, EWrap "failed to load policy from source: " <$> err).

Definition ReloadPolicySource (ctx : option error) (source : string) (e : PolicyEngine R)
  : PolicyEngine R * option error :=
  if String.eqb source "" then (e, Some (EText "policy source cannot be empty")) else
  let '(r', err) := gr_reload ctx source (pe_runtime e) in
  (set_runtime r' e, EWrap "failed to reload policy: " <$> err).
End Engine.

(** [New]: a runtime with std.dl loaded. *)
Definition New {St : Type} `{FactStore St} `{!Mangle St} (stdLib : string)
  : res error (PolicyEngine (MangleRuntime St)) :=
  let '(r, err) := AddPolicy None stdLib NewMangleRuntime in
  match err with
  | Some x => Err (EWrap "manglekit: failed to load std.dl: " x)
  | None => Ok {| pe_runtime := r; pe_factCache := ∅ |}
  end.

(** [NewWithObservability]: planner rules (a failure is only logged), then
    std.dl. *)
Definition NewWithObservability {St : Type} `{FactStore St} `{!Mangle St} (plannerRules stdLib : string)
  : res error (PolicyEngine (MangleRuntime St)) :=
  let '(r0, _) := AddPersistentPolicy None plannerRules NewMangleRuntime in
  let '(r, err) := AddPolicy None stdLib r0 in
  match err with
  | Some x => Err (EWrap "manglekit: failed to load std.dl: " x)
  | None => Ok {| pe_runtime := r; pe_factCache := ∅ |}
  end.
