(* ===== verification/SolverProps.v ===== *)
(** * Properties of the policy engine

    The gate is fail-closed and allows exactly the undisturbed requests, a
    halt carries the most authoritative tier of the recorded matches, the
    parse cache does not change any verdict, the gate always returns on
    struct payloads, and steering prefers correction over routing.  The proofs
    use the [GateRuntime] interface only; the closed examples at the end run
    the engine on [Runtime] with the [ground] instance. *)
From S2P Require Import Prelude GoStrings CoreErrors CoreTypes Facts Reflect Sources Datalog Ground Runtime Solver.
From Stdlib Require Import Ascii String.
Open Scope string_scope.

Section Gate.
Context {R : Type} `{!GateRuntime R} (G : GoEnv).
Implicit Types (e : PolicyEngine R).

(** No solution binds the variable. *)
Definition unbound (var : string) (sols : list Solution) : Prop :=
  forall sol, sol ∈ sols -> sol !! var = None.

Lemma omap_nil {A B : Type} (f : A -> option B) l : omap f l = [] <-> forall x, x ∈ l -> f x = None.
Proof.
  split.
  - intros Ho x Hx. destruct (f x) as [y|] eqn:E; [|done].
    assert (y ∈ omap f l) as Hy by (apply list_elem_of_omap; eauto). rewrite Ho in Hy. set_solver.
  - induction l as [|x l IH]; intros Hf; [done|]. simpl. rewrite (Hf x) by set_solver. apply IH. set_solver.
Qed.

Lemma tiered_nil var sols : tiered_matches var sols = [] <-> unbound var sols.
Proof. unfold tiered_matches, unbound. rewrite omap_nil. by setoid_rewrite fmap_None. Qed.
Lemma untiered_nil var sols : untiered_matches var sols = [] <-> unbound var sols.
Proof. unfold untiered_matches, unbound. rewrite omap_nil. by setoid_rewrite fmap_None. Qed.

(** What the three gate queries must answer for a request to pass. *)
Definition undisturbed (ctx : option error) (facts : list Atom) (entityID : string) (r : R) : Prop :=
  let '(r1, (sols3, _)) := gr_query ctx facts (query_halt3 entityID) r in
  let '(r2, (sols2, err2)) := gr_query ctx facts (query_halt2 entityID) r1 in
  unbound "Reason" sols3 /\ unbound "Reason" sols2 /\ err2 = None /\
  snd (gr_exec ctx facts (query_halt1 entityID) r2) = Ok false.

Lemma halt_matches_nil ctx facts entityID r r2 :
  halt_matches ctx facts entityID r = (r2, Ok []) ->
  exists r1 sols3 err3 sols2, gr_query ctx facts (query_halt3 entityID) r = (r1, (sols3, err3)) /\
    gr_query ctx facts (query_halt2 entityID) r1 = (r2, (sols2, None)) /\
    unbound "Reason" sols3 /\ unbound "Reason" sols2.
Proof.
  unfold halt_matches.
  destruct (gr_query ctx facts (query_halt3 entityID) r) as [r1 [sols3 err3]].
  destruct (tiered_matches "Reason" sols3) eqn:H3; [|done].
  destruct (gr_query ctx facts (query_halt2 entityID) r1) as [r' [sols2 [e2|]]] eqn:H2; [done|].
  intros [= <- Hn]. apply tiered_nil in H3. apply untiered_nil in Hn. eauto 10.
Qed.

Lemma gate_query_allows ctx actionName entityID facts r r' t :
  gate_query G ctx actionName entityID facts r = (r', (t, None)) -> undisturbed ctx facts entityID r.
Proof.
  unfold gate_query, undisturbed.
  destruct (halt_matches ctx facts entityID r) as [r2 [[|m ms]|err]] eqn:Hm; [| |done].
  - apply halt_matches_nil in Hm as (r1 & sols3 & err3 & sols2 & -> & -> & H3 & H2).
    destruct (gr_exec ctx facts (query_halt1 entityID) r2) as [r3 [[]|]]; [|done|done].
    destruct (gr_query ctx facts _ r3) as [r4 [msgs ?]].
    by destruct (gr_query ctx facts _ r4) as [r5 [ids ?]].
  - by destruct (gr_query ctx facts _ r2) as [r5 [ids ?]].
Qed.

Lemma gate_query_undisturbed ctx actionName entityID facts r :
  undisturbed ctx facts entityID r -> exists r', gate_query G ctx actionName entityID facts r = (r', (None, None)).
Proof.
  unfold gate_query, undisturbed, halt_matches.
  destruct (gr_query ctx facts (query_halt3 entityID) r) as [r1 [sols3 err3]].
  destruct (gr_query ctx facts (query_halt2 entityID) r1) as [r2 [sols2 err2]].
  intros (H3 & H2 & -> & H1). apply tiered_nil in H3. apply untiered_nil in H2. rewrite H3, H2.
  destruct (gr_exec ctx facts (query_halt1 entityID) r2) as [r3 x]. simpl in H1. subst. eauto.
Qed.

(** ** The parse cache *)

Definition cache_ok e : Prop :=
  (forall s a, pe_factCache e !! s = Some a -> gr_parse s = Ok a) /\
  size (pe_factCache e) <= maxFactParseCacheEntries.

Lemma parseCachedAtom_ok s e : cache_ok e ->
  cache_ok (fst (parseCachedAtom s e)) /\ snd (parseCachedAtom s e) = gr_parse s /\
  pe_runtime (fst (parseCachedAtom s e)) = pe_runtime e.
Proof.
  intros [Hc Hs]. unfold parseCachedAtom. destruct (pe_factCache e !! s) as [a|] eqn:Hl; simpl.
  { rewrite (Hc _ _ Hl). by split_and!. }
  destruct (gr_parse s) as [a|err] eqn:Hp; simpl; [|by split_and!].
  destruct (Nat.ltb_spec (size (pe_factCache e)) maxFactParseCacheEntries) as [Hlt|Hge]; [|by split_and!].
  split_and!; [split| |]; simpl; [| |done|done].
  - intros s' a' [[<- <-]|[_ Hs']]%lookup_insert_Some; auto.
  - rewrite map_size_insert, Hl. lia.
Qed.

(** The reference: the fact strings parsed without a cache. *)
Fixpoint parse_strings (facts : list Atom) (strs : list string) (actionName : string)
  : list Atom * option error :=
  match strs with
  | [] => (facts, None)
  | s :: rest =>
      match gr_parse s with
      | Err err => (facts, Some (EWrap ("action " +:+ go_quote actionName
                      +:+ ": failed to parse envelope fact " +:+ go_quote s +:+ ": ") err))
      | Ok a => parse_strings (facts ++ [a]) rest actionName
      end
  end.

Lemma append_fact_strings_ok strs facts actionName e : cache_ok e ->
  let '(e', out) := append_fact_strings facts strs actionName e in
  cache_ok e' /\ pe_runtime e' = pe_runtime e /\ out = parse_strings facts strs actionName.
Proof.
  revert facts e. induction strs as [|s strs IH]; intros facts e He; simpl; [done|].
  destruct (parseCachedAtom_ok s e He) as (H1 & H2 & H3).
  destruct (parseCachedAtom s e) as [e1 r]. simpl in *. subst r.
  destruct (gr_parse s) as [a|err]; [|done].
  specialize (IH (facts ++ [a])%list e1 H1). destruct (append_fact_strings _ _ _ e1) as [e2 out].
  destruct IH as (? & ? & ?). split_and!; [done|congruence|done].
Qed.

Lemma appendEnvelopeFacts_ok facts env actionName e : cache_ok e ->
  let '(e', out) := appendEnvelopeFacts G facts env actionName e in
  cache_ok e' /\ pe_runtime e' = pe_runtime e /\
  out = (let '(facts1, err) := parse_strings facts (env_Facts env) actionName in
         match err with
         | Some x => (facts1, Some x)
         | None => (facts1 ++ mjoin (map (fun '(k, v) => meta_facts G k v) (ge_range G (env_Metadata env))), None)
         end)%list.
Proof.
  intros He. unfold appendEnvelopeFacts.
  pose proof (append_fact_strings_ok (env_Facts env) facts actionName e He) as H.
  destruct (append_fact_strings _ _ _ e) as [e1 [facts1 [x|]]], H as (H1 & H2 & H3); rewrite <- H3; done.
Qed.

Definition runtime_out {A : Type} (x : PolicyEngine R * A) : R * A := (pe_runtime (fst x), snd x).

Lemma gate_facts_ok actionName entityID env extra e1 e2 :
  cache_ok e1 -> cache_ok e2 -> pe_runtime e1 = pe_runtime e2 ->
  runtime_out <$> gate_facts G actionName entityID env extra e1
  = runtime_out <$> gate_facts G actionName entityID env extra e2.
Proof.
  intros H1 H2 Hr. unfold gate_facts. destruct (toMangleFacts _ _ _ _) as [[facts|err]|]; simpl;
    [|by unfold runtime_out; simpl; rewrite Hr|done].
  destruct (parse_labels _) as [labels|err]; [|by unfold runtime_out; simpl; rewrite Hr].
  pose proof (appendEnvelopeFacts_ok (facts ++ extra ++ labels) env actionName e1 H1) as I1.
  pose proof (appendEnvelopeFacts_ok (facts ++ extra ++ labels) env actionName e2 H2) as I2.
  destruct (appendEnvelopeFacts G _ _ _ e1) as [f1 o1], (appendEnvelopeFacts G _ _ _ e2) as [f2 o2].
  destruct I1 as (_ & R1 & ->), I2 as (_ & R2 & ->). destruct (parse_strings _ _ _) as [g [x|]];
    unfold runtime_out; simpl; by rewrite R1, R2, Hr.
Qed.

Lemma gate_facts_cache actionName entityID env extra e e' x :
  cache_ok e -> gate_facts G actionName entityID env extra e = Some (e', x) -> cache_ok e'.
Proof.
  intros H1. unfold gate_facts. destruct (toMangleFacts _ _ _ _) as [[facts|err]|]; simpl; [|by intros [= <- _]|done].
  destruct (parse_labels _) as [labels|err]; [|by intros [= <- _]].
  pose proof (appendEnvelopeFacts_ok (facts ++ extra ++ labels) env actionName e H1) as I1.
  destruct (appendEnvelopeFacts G _ _ _ e) as [f1 [fs [y|]]]; intros [= <- _]; apply I1.
Qed.

Lemma empty_cache_ok (r : R) : cache_ok {| pe_runtime := r; pe_factCache := ∅ |}.
Proof. split; simpl; [intros s a; by rewrite lookup_empty|]. rewrite map_size_empty. lia. Qed.

(** ** Trails *)

Definition trail_entry (entityID : string) (m : Match) : RuleInference :=
  {| ri_RuleName := "halt"; ri_Tier := m_tier m; ri_Definition := halt_text entityID m;
     ri_SourceFile := "unknown"; ri_Bindings := []; ri_Predicate := "halt" |}.

Lemma halt_trail_rules entityID ms :
  at_MatchedRules (halt_trail G entityID ms) = map (trail_entry entityID) ms /\
  at_MatchedCount (halt_trail G entityID ms) = Z.of_nat (List.length ms).
Proof.
  unfold halt_trail. split; [|done]. simpl.
  change (getSourceFileForPredicate "halt") with "unknown".
  enough (forall t, at_MatchedRules (fold_left (fun t m =>
            AddRule t "halt" (halt_text entityID m) "unknown" "halt" (m_tier m) []) ms t)
          = (at_MatchedRules t ++ map (trail_entry entityID) ms)%list) as -> by done.
  induction ms as [|m ms IH]; intros t; simpl; [by rewrite app_nil_r|].
  rewrite IH. simpl. by rewrite <- app_assoc.
Qed.

Lemma gate_query_trail ctx actionName entityID facts r r' trail err :
  gate_query G ctx actionName entityID facts r = (r', (Some trail, err)) ->
  exists m ms a, trail = halt_trail G entityID (m :: ms) /\ err = Some (EAlignment a) /\
    ae_Tier a = m_tier (best_match m ms) /\ ae_Message a = m_text (best_match m ms) /\
    ae_MatchedRule a = halt_text entityID (best_match m ms) /\ ae_ActionName a = actionName /\
    exists r2, halt_matches ctx facts entityID r = (r2, Ok (m :: ms)).
Proof.
  unfold gate_query. destruct (halt_matches ctx facts entityID r) as [r1 [[|m ms]|x]]; [| |done].
  - destruct (gr_exec ctx facts (query_halt1 entityID) r1) as [r3 [[]|]]; [|done|done].
    destruct (gr_query ctx facts _ r3) as [r4 [msgs ?]].
    by destruct (gr_query ctx facts _ r4) as [r5 [ids ?]].
  - destruct (gr_query ctx facts "violation_rule(ID)" r1) as [r2 [ids eids]].
    intros [= <- <- <-]. eexists m, ms, _. split_and!; try done. by exists r1.
Qed.
End Gate.

(** C4: the gate allows a request exactly when a program is loaded, every
    conversion of the envelope succeeded, no answer to the [halt/3] query binds
    a textual reason, the [halt/2] query did not fail and none of its answers
    binds one either, and the [halt/1] query answered that nothing is derived.
    So a missing program, a malformed payload, label or envelope fact, a
    failing [halt/2] or [halt/1] query, a derived [halt/1] and a halt with a
    textual reason are errors.  What is not an error, as in the code: a failing
    [halt/3] query is only logged and its answers are used as they are, and a
    halt whose reason is not text is not seen by the queries with a reason. *)
Theorem gate_allows_iff {R : Type} `{!GateRuntime R} (G : GoEnv) (ctx : option error)
    (actionName entityID : string) (env : Envelope) (extra : list Atom) (e : PolicyEngine R) :
  (exists e' t, evaluateGateWithTrail G ctx actionName entityID env extra e = Some (e', (t, None))) <->
  gr_ready (pe_runtime e) = true /\
  exists e1 facts, gate_facts G actionName entityID env extra e = Some (e1, Ok facts) /\
    undisturbed ctx facts entityID (pe_runtime e1).
Proof.
  unfold evaluateGateWithTrail. destruct (gr_ready (pe_runtime e)); simpl; [|naive_solver].
  destruct (gate_facts G actionName entityID env extra e) as [[e1 [facts|err]]|]; simpl; [|naive_solver..].
  split.
  - intros (e' & t & Hg). split; [done|]. exists e1, facts. split; [done|].
    destruct (gate_query G ctx actionName entityID facts (pe_runtime e1)) as [r' [t' err]] eqn:Hq.
    simplify_eq. by eapply gate_query_allows.
  - intros (_ & e2 & facts2 & ? & Hu). simplify_eq.
    destruct (gate_query_undisturbed G ctx actionName entityID _ _ Hu) as [r' ->]. eauto.
Qed.

(** The order of authority: the position in T0, T1, T2, T3, anything else last. *)
Definition tier_rank (t : string) : nat :=
  match list_find (t =.) [TierT0_Axiom; TierT1_Governance; TierT2_Playbook; TierT3_User] with
  | Some (i, _) => i
  | None => 4
  end.

Lemma tierPriority_rank t : tierPriority t = Z.of_nat (tier_rank t).
Proof.
  unfold tierPriority, tier_rank. cbn [list_find].
  do 4 (match goal with |- context [decide (t = ?x)] => destruct (decide (t = x)) as [->|?%String.eqb_neq] end;
        [reflexivity|]).
  by repeat match goal with H : String.eqb _ _ = false |- _ => rewrite H; clear H end.
Qed.

(** What the trail must record for an answer to a halt query: nothing without
    a textual reason; otherwise the reason and the tier. *)
Definition halt_entry (entityID : string) (tier : Solution -> string) (sol : Solution) : option RuleInference :=
  reason ← sol !! "Reason";
  Some {| ri_RuleName := "halt"; ri_Tier := tier sol;
          ri_Definition := "halt(" +:+ quoted entityID +:+ ", " +:+ quoted reason +:+ ", " +:+ quoted (tier sol) +:+ ")";
          ri_SourceFile := "unknown"; ri_Bindings := []; ri_Predicate := "halt" |}.

(** The tier that an answer names; none or an empty one is unknown. *)
Definition named_tier (sol : Solution) : string :=
  if decide (default "" (sol !! "Tier") = "") then TierUnknown else default "" (sol !! "Tier").

(** The answers that count: the tiered ones, or else the tierless ones. *)
Definition halt_entries (entityID : string) (tiered tierless : list Solution) : list RuleInference :=
  match omap (halt_entry entityID named_tier) tiered with
  | [] => omap (halt_entry entityID (fun _ => TierUnknown)) tierless
  | entries => entries
  end.

Lemma omap_map {A B C : Type} (f : A -> option B) (g : B -> C) (l : list A) : map g (omap f l) = omap (fun x => g <$> f x) l.
Proof. induction l as [|x l IH]; [done|]. cbn. destruct (f x); cbn; by rewrite IH. Qed.

Lemma omap_same {A B : Type} (f g : A -> option B) (l : list A) : (forall x, f x = g x) -> omap f l = omap g l.
Proof. intros H. induction l as [|x l IH]; [done|]. cbn. by rewrite H, IH. Qed.

Lemma tiered_entries entityID sols : map (trail_entry entityID) (tiered_matches "Reason" sols) = omap (halt_entry entityID named_tier) sols.
Proof.
  unfold tiered_matches. rewrite omap_map. apply omap_same. intros sol. unfold halt_entry. destruct (sol !! "Reason") as [reason|]; [|done]. cbn.
  unfold trail_entry, halt_text, named_tier, tier_of. cbn.
  destruct (sol !! "Tier") as [t|]; cbn; [|done]. destruct (String.eqb_spec t ""), (decide (t = "")); done.
Qed.

Lemma untiered_entries entityID sols :
  map (trail_entry entityID) (untiered_matches "Reason" sols) = omap (halt_entry entityID (fun _ => TierUnknown)) sols.
Proof.
  unfold untiered_matches. rewrite omap_map. apply omap_same. intros sol. unfold halt_entry. by destruct (sol !! "Reason").
Qed.

Section Entries.
Context {R : Type} `{!GateRuntime R}.

Lemma halt_matches_entries ctx facts entityID (r r' : R) ms :
  halt_matches ctx facts entityID r = (r', Ok ms) ->
  exists r1 sols3 err3 sols2 r2 err2, gr_query ctx facts ("halt(" +:+ quoted entityID +:+ ", Reason, Tier)") r = (r1, (sols3, err3)) /\
    gr_query ctx facts ("halt(" +:+ quoted entityID +:+ ", Reason)") r1 = (r2, (sols2, err2)) /\
    map (trail_entry entityID) ms = halt_entries entityID sols3 sols2.
Proof.
  unfold halt_matches, query_halt3, query_halt2, PredHalt.
  destruct (gr_query ctx facts ("halt" +:+ "(" +:+ quoted entityID +:+ ", Reason, Tier)") r) as [r1 [sols3 err3]] eqn:H3.
  destruct (gr_query ctx facts ("halt" +:+ "(" +:+ quoted entityID +:+ ", Reason)") r1) as [r2 [sols2 err2]] eqn:H2.
  intros H. exists r1, sols3, err3, sols2, r2, err2. split_and!; [done|done|]. unfold halt_entries.
  rewrite <- tiered_entries, <- untiered_entries. destruct (tiered_matches "Reason" sols3) as [|m l]; cbn [map].
  - destruct err2; by simplify_eq.
  - by simplify_eq.
Qed.
End Entries.

(** C12: tier resolution: when the gate returns a trail, it asked the policy
    the tiered and the tierless halt query on the facts of the envelope, and
    the trail records exactly one entry per answer with a textual reason, in
    order: the tiered answers with the tiers they name, or, when there is none,
    the tierless answers with an unknown tier.  The error is an alignment
    error of the action; it reports the first of the entries whose tier is the
    most authoritative, strictly above every one before it and at least as
    high as every one after it. *)
Theorem gate_reports_best_tier {R : Type} `{!GateRuntime R} (G : GoEnv) (ctx : option error)
    (actionName entityID : string) (env : Envelope) (extra : list Atom) (e e' : PolicyEngine R)
    (trail : AuditTrail) (err : option error) :
  evaluateGateWithTrail G ctx actionName entityID env extra e = Some (e', (Some trail, err)) ->
  exists e1 facts r1 tiered err3 tierless r2 err2 a pre best post,
    gate_facts G actionName entityID env extra e = Some (e1, Ok facts) /\
    gr_query ctx facts ("halt(" +:+ quoted entityID +:+ ", Reason, Tier)") (pe_runtime e1) = (r1, (tiered, err3)) /\
    gr_query ctx facts ("halt(" +:+ quoted entityID +:+ ", Reason)") r1 = (r2, (tierless, err2)) /\
    at_MatchedRules trail = halt_entries entityID tiered tierless /\
    at_MatchedCount trail = Z.of_nat (List.length (at_MatchedRules trail)) /\
    err = Some (EAlignment a) /\ ae_ActionName a = actionName /\
    at_MatchedRules trail = (pre ++ best :: post)%list /\
    ae_Tier a = ri_Tier best /\ ae_MatchedRule a = ri_Definition best /\
    (forall x, x ∈ pre -> tier_rank (ae_Tier a) < tier_rank (ri_Tier x)) /\
    (forall x, x ∈ post -> tier_rank (ae_Tier a) <= tier_rank (ri_Tier x)).
Proof.
  unfold evaluateGateWithTrail. destruct (gr_ready (pe_runtime e)); simpl; [|done].
  destruct (gate_facts G actionName entityID env extra e) as [[e1 [facts|er]]|]; simpl; [|done..].
  destruct (gate_query G ctx actionName entityID facts (pe_runtime e1)) as [r' [t' err']] eqn:Hq.
  intros [= <- -> ->]. apply gate_query_trail in Hq as (m & ms & a & -> & -> & Ht & Hx & Hm & Ha & r0 & Hms).
  destruct (halt_trail_rules G entityID (m :: ms)) as [Hr Hc].
  apply halt_matches_entries in Hms as (r1 & sols3 & err3 & sols2 & r2 & err2 & H3 & H2 & Hent).
  destruct (best_by_split (fun x => tierPriority (m_tier x)) ms m) as (pre & post & Heq & B1 & B2).
  exists e1, facts, r1, sols3, err3, sols2, r2, err2, a, (map (trail_entry entityID) pre), (trail_entry entityID (best_match m ms)),
    (map (trail_entry entityID) post).
  rewrite Hr, Hc. split_and!; try done.
  - by rewrite length_map.
  - rewrite Heq, map_app. done.
  - intros x (y & -> & Hy)%list_elem_of_fmap. rewrite Ht. cbn.
    specialize (B1 y Hy). cbn in B1. rewrite !tierPriority_rank in B1. by apply Nat2Z.inj_lt.
  - intros x (y & -> & Hy)%list_elem_of_fmap. rewrite Ht. cbn.
    specialize (B2 y Hy). cbn in B2. rewrite !tierPriority_rank in B2. by apply Nat2Z.inj_le.
Qed.

(** C35: the bounded parse cache is invisible: from any engine whose cache
    holds only parse results, the gate gives the same verdict, trail and
    runtime state as an engine with an empty cache, and the cache afterwards
    still holds only parse results and at most [maxFactParseCacheEntries]. *)
Theorem gate_cache_transparent {R : Type} `{!GateRuntime R} (G : GoEnv) (ctx : option error)
    (actionName entityID : string) (env : Envelope) (extra : list Atom) (e : PolicyEngine R) :
  cache_ok e ->
  runtime_out <$> evaluateGateWithTrail G ctx actionName entityID env extra e
  = runtime_out <$> evaluateGateWithTrail G ctx actionName entityID env extra
                      {| pe_runtime := pe_runtime e; pe_factCache := ∅ |} /\
  (forall e' out, evaluateGateWithTrail G ctx actionName entityID env extra e = Some (e', out) -> cache_ok e').
Proof.
  intros He. unfold evaluateGateWithTrail. simpl.
  destruct (gr_ready (pe_runtime e)); simpl; [|split; [done|]; by intros ? ? [= <- _]].
  pose proof (gate_facts_ok G actionName entityID env extra e {| pe_runtime := pe_runtime e; pe_factCache := ∅ |}
                He (empty_cache_ok _) eq_refl) as Hf.
  pose proof (gate_facts_cache G actionName entityID env extra e) as Hc.
  destruct (gate_facts G actionName entityID env extra e) as [[e1 x1]|],
           (gate_facts G actionName entityID env extra {| pe_runtime := pe_runtime e; pe_factCache := ∅ |}) as [[e2 x2]|];
    simpl in *; try done.
  injection Hf as Hrt ->. specialize (Hc e1 x2 He eq_refl). destruct x2 as [facts|er]; simpl.
  - rewrite Hrt. destruct (gate_query _ _ _ _ _ _) as [r' out] eqn:Hq. unfold runtime_out. simpl.
    split; [done|]. intros ? ? [= <- _]. exact Hc.
  - unfold runtime_out. simpl. rewrite Hrt. split; [done|]. by intros ? ? [= <- _].
Qed.

(** The gate always returns on a payload that is converted by reflection:
    whatever the heap (cycles included) and the policy answers, a verdict is
    produced. *)
Theorem gate_returns {R : Type} `{!GateRuntime R} (G : GoEnv) (ctx : option error)
    (actionName entityID : string) (env : Envelope) (extra : list Atom) (e : PolicyEngine R) :
  env_ContentType env <> TypeJSON ->
  exists out, evaluateGateWithTrail G ctx actionName entityID env extra e = Some out.
Proof.
  intros Hct. unfold evaluateGateWithTrail. destruct (gr_ready (pe_runtime e)); simpl; [|eauto].
  assert (exists x, toMangleFacts G entityID (env_Payload env) (env_ContentType env) = Some x) as [x Hx].
  { unfold toMangleFacts. apply String.eqb_neq in Hct. rewrite Hct.
    destruct (ToFacts_some (ge_lower G) (ge_render G) (ge_heap G) entityID (env_Payload env)) as [fs ->].
    destruct (env_Payload env); simpl; eauto. }
  unfold gate_facts. rewrite Hx. destruct x as [facts|er]; simpl; [|eauto].
  destruct (parse_labels _); simpl; [|eauto].
  destruct (appendEnvelopeFacts _ _ _ _ _) as [e1 [facts1 [y|]]]; simpl; [eauto|].
  destruct (gate_query _ _ _ _ _ _). eauto.
Qed.

(** The most authoritative of the matches, and the first such one. *)
Definition is_best (best : Match) (ms : list Match) : Prop :=
  exists pre post, ms = (pre ++ best :: post)%list /\
    (forall x, x ∈ pre -> (tierPriority (m_tier best) < tierPriority (m_tier x))%Z) /\
    (forall x, x ∈ post -> (tierPriority (m_tier best) <= tierPriority (m_tier x))%Z).

Lemma best_match_is_best m ms : is_best (best_match m ms) (m :: ms).
Proof. apply (best_by_split (fun x => tierPriority (m_tier x))). Qed.

(** Steering: a retry outranks any route, whatever their tiers; within
    each kind the most authoritative match decides; without matches the
    decision is to proceed, and a failing query is reported with that
    decision. *)
Theorem steering_decision {R : Type} `{!GateRuntime R} (ctx : option error) (facts : list Atom)
    (r r1 r2 : R) (rms tms : list Match) :
  steering_matches ctx facts PredRetry "Hint" r = (r1, Ok rms) ->
  steering_matches ctx facts PredRoute "Target" r1 = (r2, Ok tms) ->
  exists d meta, steering_query ctx facts r = (r2, (d, meta, None)) /\
    (rms <> [] -> d = DecisionRetry /\ exists best, is_best best rms /\ meta = {[KeyFeedback := m_text best]}) /\
    (rms = [] -> tms <> [] ->
     d = DecisionRoute /\ exists best, is_best best tms /\ meta = {[KeyNextStep := m_text best]}) /\
    (rms = [] -> tms = [] -> d = DecisionProceed /\ meta = ∅).
Proof.
  intros H1 H2. unfold steering_query. rewrite H1, H2.
  destruct rms as [|m ms]; [destruct tms as [|m ms]|]; eexists _, _; split; try reflexivity; split_and!; try done.
  - intros _ _. split; [done|]. exists (best_match m ms). split; [apply best_match_is_best|done].
  - intros _. split; [done|]. exists (best_match m ms). split; [apply best_match_is_best|done].
Qed.

(** ** Running the engine on the [ground] instance *)

#[local] Instance ground_gate : GateRuntime (MangleRuntime (list Atom)) := mangle_gate_runtime "".

Definition plain_env : GoEnv :=
  {| ge_lower s := s; ge_render _ := ""; ge_heap := ∅; ge_fuel := 10; ge_parse_float _ := None;
     ge_range := map_to_list; ge_now := 0 |}.

Definition engine_with (policy : string) : PolicyEngine (MangleRuntime (list Atom)) :=
  {| pe_runtime := fst (AddPolicy None policy NewMangleRuntime); pe_factCache := ∅ |}.

(** [pred("a", "b", ...).] *)
Definition fact_line (pred : string) (args : list string) : string :=
  pred +:+ "(" +:+ join ", " (map quoted args) +:+ ")." +:+ nl.

Definition gate_err (policy : string) : option (option error) :=
  (fun x => snd (snd x)) <$>
    evaluateGateWithTrail plain_env None "act" EntityInput emptyEnvelope [] (engine_with policy).

(** One advisory [halt/3] hides every tierless [halt/2]: a policy that
    halts the request with a plain [halt/2] rule and also emits a T3 [halt/3]
    is reported with tier T3 and the T3 reason only. *)
Theorem advisory_halt3_masks_halt2 :
  exists a, gate_err (fact_line "halt" ["Req"; "forbidden"] +:+ fact_line "halt" ["Req"; "style"; "T3"])
            = Some (Some (EAlignment a)) /\ ae_Tier a = TierT3_User /\ ae_Message a = "style" /\
  exists b, gate_err (fact_line "halt" ["Req"; "forbidden"]) = Some (Some (EAlignment b)) /\
            ae_Tier b = TierUnknown /\ ae_Message b = "forbidden".
Proof. eexists. split; [vm_compute; reflexivity|]. split_and!; [done|done|]. eexists. by vm_compute. Qed.

(** The arity-1 form [halt(Reason)] of the standard vocabulary does not
    halt: the gate looks for [halt("Req")] at that arity, so a policy deriving
    a halt with a reason text is allowed through. *)
Theorem halt1_reason_ignored :
  gate_err (fact_line "halt" ["out of budget"]) = Some None /\
  is_Some (gate_err (fact_line "halt" ["Req"]) ≫= id).
Proof. split; [vm_compute; reflexivity|]. eexists. vm_compute. reflexivity. Qed.

Definition two_halts : PolicyEngine (MangleRuntime (list Atom)) :=
  engine_with (fact_line "halt" ["Req"; "x"; "T3"] +:+ fact_line "halt" ["Req"; "y"; "T0"]).
Definition two_halts_out : PolicyEngine (MangleRuntime (list Atom)) * (option AuditTrail * option error) :=
  default (two_halts, (None, None))
    (evaluateGateWithTrail plain_env None "act" EntityInput emptyEnvelope [] two_halts).
Definition two_halts_trail : AuditTrail := default (NewAuditTrail 0 "" "") (fst (snd two_halts_out)).

Lemma gate_reports_best_tier_witness :
  ae_Tier <$> (snd (snd two_halts_out) ≫= as_alignment) = Some TierT0_Axiom /\
  map ri_Tier (at_MatchedRules two_halts_trail) = ["T3"; "T0"] /\
  exists e1 facts r1 tiered err3 tierless r2 err2 a pre best post,
    gate_facts plain_env "act" EntityInput emptyEnvelope [] two_halts = Some (e1, Ok facts) /\
    gr_query None facts ("halt(" +:+ quoted EntityInput +:+ ", Reason, Tier)") (pe_runtime e1) = (r1, (tiered, err3)) /\
    gr_query None facts ("halt(" +:+ quoted EntityInput +:+ ", Reason)") r1 = (r2, (tierless, err2)) /\
    at_MatchedRules two_halts_trail = halt_entries EntityInput tiered tierless /\
    at_MatchedCount two_halts_trail = Z.of_nat (List.length (at_MatchedRules two_halts_trail)) /\
    snd (snd two_halts_out) = Some (EAlignment a) /\ ae_ActionName a = "act" /\
    at_MatchedRules two_halts_trail = (pre ++ best :: post)%list /\
    ae_Tier a = ri_Tier best /\ ae_MatchedRule a = ri_Definition best /\
    (forall x, x ∈ pre -> tier_rank (ae_Tier a) < tier_rank (ri_Tier x)) /\
    (forall x, x ∈ post -> tier_rank (ae_Tier a) <= tier_rank (ri_Tier x)).
Proof.
  split; [by_vm|]. split; [by_vm|].
  apply (gate_reports_best_tier plain_env None "act" EntityInput emptyEnvelope [] two_halts
           (fst two_halts_out) two_halts_trail (snd (snd two_halts_out))). by_vm.
Defined.

(** An engine that has parsed the fact of the request before. *)
Definition cached_fact : string := "team(" +:+ quoted "Req" +:+ ")".
Definition warm_engine : PolicyEngine (MangleRuntime (list Atom)) :=
  {| pe_runtime := pe_runtime two_halts; pe_factCache := {[ cached_fact := NewAtom "team" [TConst (CString "Req")] ]} |}.

Definition warm_out : PolicyEngine (MangleRuntime (list Atom)) * (option AuditTrail * option error) :=
  default (warm_engine, (None, None))
    (evaluateGateWithTrail plain_env None "act" EntityInput (set_Facts [cached_fact; "g"] emptyEnvelope) [] warm_engine).

Lemma gate_cache_transparent_witness :
  pe_factCache warm_engine !! cached_fact = Some (NewAtom "team" [TConst (CString "Req")]) /\
  runtime_out <$> evaluateGateWithTrail plain_env None "act" EntityInput (set_Facts [cached_fact; "g"] emptyEnvelope) [] warm_engine
  = runtime_out <$> evaluateGateWithTrail plain_env None "act" EntityInput (set_Facts [cached_fact; "g"] emptyEnvelope) []
      {| pe_runtime := pe_runtime warm_engine; pe_factCache := ∅ |} /\
  evaluateGateWithTrail plain_env None "act" EntityInput (set_Facts [cached_fact; "g"] emptyEnvelope) [] warm_engine = Some warm_out /\
  size (pe_factCache (fst warm_out)) = 2 /\ cache_ok (fst warm_out).
Proof.
  destruct (gate_cache_transparent plain_env None "act" EntityInput (set_Facts [cached_fact; "g"] emptyEnvelope) [] warm_engine) as [Ht Hc].
  { split; [|by vm_compute; lia]. intros s a Hs. change (({[ cached_fact := NewAtom "team" [TConst (CString "Req")] ]} : gmap string Atom) !! s = Some a) in Hs.
    apply lookup_singleton_Some in Hs as [<- <-]. by vm_compute. }
  split; [by_vm|]. split; [exact Ht|].
  assert (evaluateGateWithTrail plain_env None "act" EntityInput (set_Facts [cached_fact; "g"] emptyEnvelope) [] warm_engine
    = Some (fst warm_out, snd warm_out)) as He by by_vm.
  split; [exact He|]. split; [by_vm|]. exact (Hc _ _ He).
Defined.

Lemma gate_returns_witness :
  exists out, evaluateGateWithTrail plain_env None "act" EntityInput emptyEnvelope [] two_halts = Some out.
Proof. apply (gate_returns plain_env None "act" EntityInput emptyEnvelope [] two_halts). done. Defined.

Definition steer : MangleRuntime (list Atom) :=
  pe_runtime (engine_with (fact_line "retry" ["Req"; "later"; "T3"] +:+ fact_line "retry" ["Req"; "now"; "T1"]
                           +:+ fact_line "route" ["Req"; "away"; "T0"])).
Definition matches_of {A : Type} (x : A * res error (list Match)) : list Match :=
  match snd x with Ok l => l | Err _ => [] end.
Definition steer1 := steering_matches None [] PredRetry "Hint" steer.
Definition steer2 := steering_matches None [] PredRoute "Target" (fst steer1).

Lemma steering_decision_witness :
  exists d meta, steering_query None [] steer = (fst steer2, (d, meta, None)) /\ d = DecisionRetry /\
    meta !! KeyFeedback = Some "now".
Proof.
  destruct (steering_decision None [] steer (fst steer1) (fst steer2) (matches_of steer1) (matches_of steer2))
    as (d & meta & Hq & Hr & _); [by_vm|by_vm|].
  exists d, meta. split; [exact Hq|]. destruct Hr as [-> _]; [by vm_compute|]. split; [done|].
  assert (meta = snd (fst (snd (steering_query None [] steer)))) as -> by by rewrite Hq.
  by_vm.
Defined.
