(* ===== verification/Supervisor.v ===== *)
(** * The supervisor

    [internal/supervisor/action.go] and [sdk_adapter.go]: the adapter that
    turns gate atoms into an envelope and asks the evaluator, and the
    supervised action that runs a pre-flight check, the wrapped action and a
    post-check.

    The supervisor sees the policy engine through [Evaluator] (Go's
    [core.Evaluator]); [engine_evaluator] is the instance by [Solver].  The
    wrapped action is an arbitrary state transformer on a world [W], so that
    "the action did not run" is "the world is unchanged, for every action".
    [None] is a call that does not return normally (a panic of [reflect] on an
    unexported tagged field, or the fuel of [Flatten]). *)
From S2P Require Import Prelude GoStrings CoreErrors CoreTypes Facts Reflect Sources Datalog Runtime Solver.
From Stdlib Require Import Ascii String.
Open Scope string_scope.

Class Evaluator (E : Type) := {
  ev_AssessPlan : option error -> Envelope -> E -> option (E * (Decision * option error));
  ev_Reflect : option error -> ActionMetadata -> Envelope -> E -> option (E * (Envelope * option error));
  ev_Query : option error -> list string -> string -> E -> E * res error (list Solution)
}.

Definition engine_evaluator {R : Type} `{!GateRuntime R} (G : GoEnv) : Evaluator (PolicyEngine R) := {|
  ev_AssessPlan := AssessPlan G;
  ev_Reflect := Reflect G;
  ev_Query := Query
|}.

Definition maxFactsPerVerify : nat := 1000.

Definition mapCoreTier (t : string) : string :=
  if String.eqb t TierT0_Axiom then Tier0Kernel
  else if String.eqb t TierT1_Governance then Tier1Admin
  else if String.eqb t TierT2_Playbook then Tier2AI
  else if String.eqb t TierT3_User then Tier3User
  else Tier1Admin.

Definition tierSeverity (t : string) : Z :=
  if String.eqb t TierT0_Axiom then 0
  else if String.eqb t TierT1_Governance || String.eqb t "" then 1
  else if String.eqb t TierT2_Playbook then 2
  else if String.eqb t TierT3_User then 3
  else 1.

(** The loop of [violationTierFromDecision]. *)
Fixpoint most_severe (severe : string) (rules : list RuleInference) : string :=
  match rules with
  | [] => severe
  | r :: rest =>
      if String.eqb (ri_Tier r) "" then most_severe severe rest
      else if String.eqb severe "" || (tierSeverity (ri_Tier r) <? tierSeverity severe)%Z
      then most_severe (ri_Tier r) rest
      else most_severe severe rest
  end.

Definition violationTierFromDecision (d : Decision) : string :=
  match d_AuditTrail d with
  | None => Tier1Admin
  | Some t => mapCoreTier (most_severe "" (at_MatchedRules t))
  end.

Definition coreTierName (t : string) : string :=
  if String.eqb t Tier0Kernel then TierT0_Axiom
  else if String.eqb t Tier1Admin then TierT1_Governance
  else if String.eqb t Tier2AI then TierT2_Playbook
  else if String.eqb t Tier3User then TierT3_User
  else t.

(** The request context threaded through [context.Context]. *)
Record preCheckContext := {
  pc_actionName : string;
  pc_metadata : gmap string GoVal;
  pc_labels : list string;
  pc_facts : list string;
  pc_entityID : string
}.

Definition blocking_tier (t : string) : bool := String.eqb t Tier0Kernel || String.eqb t Tier1Admin.

(** The condition of both gates. *)
Definition blocks (res : AuditResult) : bool := negb (ar_Pass res) && blocking_tier (ar_ViolationTier res).

Definition passed (trail : option AuditTrail) : AuditResult :=
  {| ar_Pass := true; ar_ViolationTier := ""; ar_ConflictPath := ""; ar_Trail := trail |}.

Definition failed (tier path : string) (trail : option AuditTrail) : AuditResult :=
  {| ar_Pass := false; ar_ViolationTier := tier; ar_ConflictPath := path; ar_Trail := trail |}.

(** [policyViolationFromResult]; [pc] is the context's request context. *)
Definition policyViolationFromResult (pc : option preCheckContext) (res : AuditResult) (description : string)
  : PolicyViolationError :=
  let rules := match ar_Trail res with Some t => at_MatchedRules t | None => [] end in
  let matching := List.find (fun r => negb (String.eqb (ri_Definition r) "") && negb (String.eqb (ri_Tier r) "")
                                      && String.eqb (mapCoreTier (ri_Tier r)) (ar_ViolationTier res)) rules in
  let first := List.find (fun r => negb (String.eqb (ri_Definition r) "")) rules in
  {| pv_Tier := match matching with Some r => ri_Tier r | None => coreTierName (ar_ViolationTier res) end;
     pv_RuleID := ar_ConflictPath res;
     pv_Violation := description;
     pv_Suggestion := "";
     pv_ActionName := match pc with Some c => pc_actionName c | None => "" end;
     pv_MatchedRule := match matching, first with
                       | Some r, _ => ri_Definition r
                       | None, Some r => ri_Definition r
                       | None, None => ""
                       end |}.

Section Adapter.
Context {E : Type} `{!Evaluator E}.

(** The assessment envelope of [VerifyAtoms]. *)
Definition verify_envelope (pc : option preCheckContext) (atoms : list GateAtom) : Envelope :=
  let facts := omap (fun a => if String.eqb (a_Subject a) "" || String.eqb (a_Predicate a) "" then None
                              else match atomToDatalog (a_Predicate a) (a_Subject a) (a_Object a) with
                                   | "" => None
                                   | f => Some f
                                   end) atoms in
  match pc with
  | None => set_Facts facts emptyEnvelope
  | Some c =>
      let op := if String.eqb (pc_actionName c) "" then []
                else ["action_operation("
                      +:+ go_quote (if String.eqb (pc_entityID c) "" then EntityInput else pc_entityID c)
                      +:+ ", " +:+ go_quote (pc_actionName c) +:+ ")."] in
      set_Metadata (pc_metadata c) (set_Labels (pc_labels c)
        (set_Facts (facts ++ pc_facts c ++ op)%list emptyEnvelope))
  end.

Definition post_check_error (a : AlignmentError) : AuditResult :=
  failed (mapCoreTier (ae_Tier a))
    (if negb (String.eqb (ae_RuleID a) "") then ae_RuleID a
     else if String.eqb (ae_Message a) "" then "sdk_adapter.post_check" else ae_Message a) None.

Definition VerifyAtoms (ctx : option error) (pc : option preCheckContext) (atoms : list GateAtom) (e : E)
  : option (E * res error AuditResult) :=
  match atoms, pc with
  | [], None => Some (e, Ok (passed None))
  | _, _ =>
      if (maxFactsPerVerify <? List.length atoms)%nat then
        Some (e, Ok (failed Tier0Kernel
          ("sdk_adapter.fact_limit_exceeded (" +:+ pretty (Z.of_nat (List.length atoms)) +:+ ">1000)") None))
      else
        let env := verify_envelope pc atoms in
        let entityID := match pc with
                        | Some c => if String.eqb (pc_entityID c) "" then EntityInput else pc_entityID c
                        | None => EntityInput
                        end in
        let name := match pc with Some c => pc_actionName c | None => "" end in
        if String.eqb entityID EntityOutput && negb (String.eqb name "") then
          '(e1, (_, err)) ← ev_Reflect ctx (named_action name) env e;
          Some (e1, match err with
                    | None => Ok (passed None)
                    | Some x => match as_alignment x with
                                | Some a => Ok (post_check_error a)
                                | None => Err (EWrap "sdk_adapter post-check: " x)
                                end
                    end)
        else
          '(e1, (d, err)) ← ev_AssessPlan ctx env e;
          Some (e1, match err with
                    | Some x => Err (EWrap "sdk_adapter verify: " x)
                    | None =>
                        if String.eqb (d_Outcome d) DecisionHalt
                        then Ok (failed (violationTierFromDecision d)
                                   (match d_Reasons d with r :: _ => r | [] => "unknown" end) (d_AuditTrail d))
                        else Ok (passed (d_AuditTrail d))
                    end)
  end.

(** [Verify] on a subject that may not be a list of atoms. *)
Definition Verify (ctx : option error) (pc : option preCheckContext) (subject : option (list GateAtom)) (e : E)
  : option (E * res error AuditResult) :=
  match subject with
  | None => Some (e, Ok (failed Tier0Kernel "sdk_adapter.unknown_subject_type" None))
  | Some atoms => VerifyAtoms ctx pc atoms e
  end.
End Adapter.

Section Action.
Context {E : Type} `{!Evaluator E} {W : Type} (G : GoEnv).

(** A Go [core.Action]: its name and its effect. *)
Record Action := {
  act_name : string;
  act_exec : Envelope -> W -> W * res error Envelope
}.

(** [flattenToQuads]; [None] is the panic of [Interface()] on an unexported
    field that carries a tag. *)
Definition struct_quads (subjectID : string) (fields : list (FieldInfo * GoVal)) : option (list Quad) :=
  foldr (fun '(f, v) acc =>
      if String.eqb (fi_mangle f) "" then acc
      else if fi_Exported f then
        (fun qs => {| q_Subject := subjectID; q_Predicate := fi_mangle f;
                      q_Object := fmt_v (ge_render G) (strip_iface v); q_Graph := "temporal_context" |} :: qs) <$> acc
      else None) (Some []) fields.

Definition flattenToQuads (subjectID : string) (v : GoVal) : option (list Quad) :=
  let target := match strip_iface v with
                | GPtr (Some (_, c)) => match ge_heap G !! c with Some (CellVal w) => w | _ => GNil end
                | w => w
                end in
  match target with
  | GStruct fields => struct_quads subjectID fields
  | _ => Some []
  end.

Definition quad_atom (q : Quad) : GateAtom :=
  {| a_Predicate := q_Predicate q; a_Subject := q_Subject q; a_Object := q_Object q |}.

(** The envelope handed to the wrapped action, and [sdkActionAdapter.Execute]. *)
Definition inner_envelope (input : GoVal) (facts : list Quad) : Envelope :=
  set_ContextFacts facts
    {| env_ID := 0; env_Payload := input; env_Metadata := ∅; env_SecurityLabels := []; env_Facts := [];
       env_ContentType := ""; env_ContextFacts := []; env_Violations := [] |}.

Definition sdk_action_execute (act : Action) (input : Envelope) (w : W) : W * res error Envelope :=
  act_exec act
    {| env_ID := 0; env_Payload := env_Payload input; env_Metadata := env_Metadata input;
       env_SecurityLabels := [];
       env_Facts := omap (fun q => match atomToDatalog (q_Predicate q) (q_Subject q) (q_Object q) with
                                   | "" => None
                                   | f => Some f
                                   end) (env_ContextFacts input);
       env_ContentType := ""; env_ContextFacts := []; env_Violations := [] |} w.

Definition add_violation (res : AuditResult) (description : string) (env : Envelope) : Envelope :=
  {| env_ID := env_ID env; env_Payload := env_Payload env; env_Metadata := env_Metadata env;
     env_SecurityLabels := env_SecurityLabels env; env_Facts := env_Facts env;
     env_ContentType := env_ContentType env; env_ContextFacts := env_ContextFacts env;
     env_Violations := (env_Violations env ++ [{| vr_RuleID := ar_ConflictPath res;
                                                   vr_Description := description; vr_Severity := 0 |}])%list |}.

Definition attach_trail (trail : option AuditTrail) (env : Envelope) : Envelope :=
  match trail with
  | Some t => SetMeta env "manglekit.audit_trail" (GTrail t)
  | None => env
  end.

Definition post_context (c : preCheckContext) : preCheckContext :=
  {| pc_actionName := pc_actionName c; pc_metadata := pc_metadata c; pc_labels := pc_labels c;
     pc_facts := pc_facts c; pc_entityID := EntityOutput |}.

(** Step 4: reflect on the result of the action. *)
Definition post_check (ctx : option error) (pc : option preCheckContext) (outFacts : list Quad)
    (result : Envelope) (e : E) : option (E * (Envelope * option error)) :=
  let release := set_ContextFacts (env_ContextFacts result ++ outFacts)%list result in
  match pc with
  | None => Some (e, (release, None))
  | Some c =>
      '(e1, r) ← VerifyAtoms ctx (Some (post_context c)) (map quad_atom outFacts) e;
      Some (e1, match r with
                | Err x => (emptyEnvelope, Some (ESupervisor (EWrap "post-check (Reflect) verifier error: " x)))
                | Ok res =>
                    if blocks res
                    then (emptyEnvelope, Some (EPolicyViolation
                            (policyViolationFromResult pc res "Supervisor post-check (Reflect) failed.")))
                    else (release, None)
                end)
  end.

(** [ExecuteInternal]; [ctx] and [ctx'] are the context's error at the
    pre-flight check and at the post-check. *)
Definition ExecuteInternal (ctx ctx' : option error) (pc : option preCheckContext) (act : Action)
    (input : GoVal) (e : E) (w : W) : option (E * W * (Envelope * option error)) :=
  facts ← flattenToQuads "Req" input;
  let envelope := inner_envelope input facts in
  '(e1, r) ← VerifyAtoms ctx pc (map quad_atom facts) e;
  match r with
  | Err x => Some (e1, w, (emptyEnvelope, Some (ESupervisor x)))
  | Ok res =>
      if blocks res
      then Some (e1, w, (add_violation res "Supervisor Pre-Flight check failed." envelope,
                         Some (EPolicyViolation
                           (policyViolationFromResult pc res "Supervisor Pre-Flight check failed."))))
      else
        let '(w1, out) := sdk_action_execute act envelope w in
        match out with
        | Err x => Some (e1, w1, (emptyEnvelope, Some x))
        | Ok result =>
            let result := attach_trail (ar_Trail res) result in
            outFacts ← flattenToQuads EntityOutput (env_Payload result);
            '(e2, x) ← post_check ctx' pc outFacts result e1;
            Some (e2, w1, x)
        end
  end.

Definition request_context (act : Action) (input : Envelope) : preCheckContext :=
  {| pc_actionName := act_name act; pc_metadata := env_Metadata input;
     pc_labels := env_SecurityLabels input; pc_facts := env_Facts input; pc_entityID := EntityInput |}.

(** [supervisedActionV2.Execute]; [extractor] is the optional
    text-to-struct converter. *)
Definition supervised_Execute (ctx ctx' : option error) (extractor : option (string -> res error GoVal))
    (act : Action) (input : Envelope) (e : E) (w : W) : option (E * W * (Envelope * option error)) :=
  let payload := match extractor, env_Payload input with
                 | Some ext, GStr text => ext text
                 | _, p => Ok p
                 end in
  match payload with
  | Err x => Some (e, w, (emptyEnvelope, Some (EWrap "extraction failed (fail-closed): " x)))
  | Ok p =>
      '(e1, w1, (out, err)) ← ExecuteInternal ctx ctx' (Some (request_context act input)) act p e w;
      Some (e1, w1, match err with Some x => (emptyEnvelope, Some x) | None => (out, None) end)
  end.
End Action.
Arguments Action W : clear implicits.
