(* ===== verification/SupervisorProps.v ===== *)
(** * Properties of the supervisor

    Enforcement: the wrapped action has no effect unless the pre-flight check
    passed or reported an explicit advisory tier, and its result is released
    only under the same condition on the post-check; tier mapping and blame;
    the fact cap; and closed runs of the whole stack (supervisor, engine,
    runtime) on concrete policies. *)
From S2P Require Import Prelude GoStrings CoreErrors CoreTypes Facts Reflect Sources Datalog Ground Runtime Solver SolverProps Supervisor.
From Stdlib Require Import Ascii String.
Open Scope string_scope.

(** The verdicts that let an action proceed: a pass, or an explicit T2/T3. *)
Definition lenient (res : AuditResult) : Prop :=
  ar_Pass res = true \/ ar_ViolationTier res = Tier2AI \/ ar_ViolationTier res = Tier3User.

Lemma mapCoreTier_range t :
  mapCoreTier t = Tier0Kernel \/ mapCoreTier t = Tier1Admin \/
  mapCoreTier t = Tier2AI \/ mapCoreTier t = Tier3User.
Proof. unfold mapCoreTier. repeat case_match; auto. Qed.

Lemma mapCoreTier_T2 t : mapCoreTier t = Tier2AI <-> t = TierT2_Playbook.
Proof.
  unfold mapCoreTier. split; [|by intros ->].
  repeat case_match; try discriminate. by intros _; apply String.eqb_eq.
Qed.
Lemma mapCoreTier_T3 t : mapCoreTier t = Tier3User <-> t = TierT3_User.
Proof.
  unfold mapCoreTier. split; [|by intros ->].
  repeat case_match; try discriminate. by intros _; apply String.eqb_eq.
Qed.

Lemma blocking_mapCoreTier t :
  blocking_tier (mapCoreTier t) = true <-> t <> TierT2_Playbook /\ t <> TierT3_User.
Proof.
  rewrite <- mapCoreTier_T2, <- mapCoreTier_T3.
  destruct (mapCoreTier_range t) as [-> | [-> | [-> | -> ]]]; naive_solver.
Qed.

Lemma not_blocks_lenient res :
  (exists t, ar_ViolationTier res = mapCoreTier t) \/ ar_Pass res = true ->
  blocks res = false -> lenient res.
Proof.
  intros [[t Ht]|Hp] Hb; [|by left]. unfold blocks, lenient in *. rewrite Ht in *.
  destruct (ar_Pass res); [by left|right]. destruct (mapCoreTier_range t) as [E|[E|[E|E]]]; rewrite E in *; auto; done.
Qed.

Lemma violationTier_mapped d : exists t, violationTierFromDecision d = mapCoreTier t.
Proof. unfold violationTierFromDecision. destruct (d_AuditTrail d); eauto. by exists TierT1_Governance. Qed.

Section Verify.
Context {E : Type} `{!Evaluator E}.

(** A verdict of the adapter is a pass or carries a mapped tier. *)
Lemma VerifyAtoms_verdict ctx pc atoms (e e' : E) res :
  VerifyAtoms ctx pc atoms e = Some (e', Ok res) ->
  (exists t, ar_ViolationTier res = mapCoreTier t) \/ ar_Pass res = true.
Proof.
  unfold VerifyAtoms. intros Hv.
  assert (forall t, (exists t', mapCoreTier t = mapCoreTier t') \/ false = true) as Hm by eauto.
  destruct atoms as [|a atoms], pc as [c|]; try (simplify_eq; by right).
  all: destruct (maxFactsPerVerify <? _)%nat; [simplify_eq/=; left; by exists TierT0_Axiom|].
  all: destruct (_ && _).
  all: first [destruct (ev_Reflect _ _ _ _) as [[e1 [o [x|]]]|] | destruct (ev_AssessPlan _ _ _) as [[e1 [d [x|]]]|]];
    simplify_eq/=; auto.
  all: try (destruct (as_alignment x); simplify_eq/=; left; eauto; done).
  all: destruct (String.eqb _ _); simplify_eq/=; auto using violationTier_mapped.
Qed.
End Verify.

(** ** Which tier a violation gets *)

(** Tiers with an explicit T2/T3 mark. *)
Definition advisory (t : string) : Prop := t = TierT2_Playbook \/ t = TierT3_User.

Lemma tierSeverity_advisory t : (2 <= tierSeverity t)%Z <-> advisory t.
Proof.
  unfold tierSeverity, advisory. split.
  - repeat case_match; try lia; intros _; [left|right]; by apply String.eqb_eq.
  - intros [->| ->]; vm_compute; done.
Qed.

Lemma most_severe_spec severe rules :
  advisory (most_severe severe rules) <->
  (severe = "" \/ advisory severe) /\ (forall r, r ∈ rules -> ri_Tier r = "" \/ advisory (ri_Tier r)) /\
  (severe = "" -> exists r, r ∈ rules /\ ri_Tier r <> "").
Proof.
  revert severe. induction rules as [|r rules IH]; intros severe; cbn [most_severe].
  { split; [intros Ha; split_and!; [auto|set_solver|intros ->; destruct Ha; discriminate]|].
    intros ([->|Ha] & _ & Hex); [|done]. destruct (Hex eq_refl) as (? & ? & _). set_solver. }
  destruct (String.eqb_spec (ri_Tier r) "") as [Hr|Hr].
  { rewrite IH. setoid_rewrite elem_of_cons. naive_solver. }
  destruct (String.eqb_spec severe "") as [->|Hs]; cbn [orb].
  { rewrite IH. setoid_rewrite elem_of_cons. naive_solver. }
  destruct (Z.ltb_spec (tierSeverity (ri_Tier r)) (tierSeverity severe)) as [Hlt|Hge];
    rewrite IH; setoid_rewrite elem_of_cons.
  - assert (advisory (ri_Tier r) -> advisory severe) by (rewrite <- !tierSeverity_advisory; lia). naive_solver.
  - assert (advisory severe -> advisory (ri_Tier r)) by (rewrite <- !tierSeverity_advisory; lia). naive_solver.
Qed.

(** Softness is opt-in: a denied decision blocks unless it has a trail in
    which some rule carries a tier and every tier carried is an explicit T2 or
    T3; a missing trail, missing tiers and unknown tier names all block. *)
Theorem violation_blocks_iff (d : Decision) :
  blocking_tier (violationTierFromDecision d) = false <->
  exists t, d_AuditTrail d = Some t /\
    (forall r, r ∈ at_MatchedRules t -> ri_Tier r = "" \/ advisory (ri_Tier r)) /\
    (exists r, r ∈ at_MatchedRules t /\ ri_Tier r <> "").
Proof.
  unfold violationTierFromDecision. destruct (d_AuditTrail d) as [t|]; [|split; [done|naive_solver]].
  rewrite <- not_true_iff_false, blocking_mapCoreTier.
  trans (advisory (most_severe "" (at_MatchedRules t))).
  - unfold advisory. split; [|naive_solver]. intros Hn.
    destruct (String.eqb_spec (most_severe "" (at_MatchedRules t)) TierT2_Playbook); [auto|].
    destruct (String.eqb_spec (most_severe "" (at_MatchedRules t)) TierT3_User); naive_solver.
  - rewrite most_severe_spec. naive_solver.
Qed.

Lemma coreTierName_mapped t : mapCoreTier (coreTierName (mapCoreTier t)) = mapCoreTier t.
Proof. destruct (mapCoreTier_range t) as [-> | [-> | [-> | -> ]]]; done. Qed.

(** Blame is consistent: the tier named in the deny error of a blocked
    action always maps back to the tier that caused the block, with or
    without a trail, whichever rules it holds. *)
Theorem deny_error_names_blocking_tier (pc : option preCheckContext) (t path : string)
    (trail : option AuditTrail) (description : string) :
  mapCoreTier (pv_Tier (policyViolationFromResult pc (failed (mapCoreTier t) path trail) description))
  = mapCoreTier t.
Proof.
  unfold policyViolationFromResult. simpl.
  destruct (List.find _ _) as [r|] eqn:Hf; [|apply coreTierName_mapped].
  apply List.find_some in Hf as [_ Hf]. rewrite !andb_true_iff in Hf.
  by destruct Hf as [_ ->%String.eqb_eq].
Qed.

(** ** What a check asks *)

(** The payload the check is about: the input's own, or what the extractor
    reads from its text. *)
Definition checked_payload (ext : option (string -> res error GoVal)) (input : Envelope) (p : GoVal) : Prop :=
  match ext, env_Payload input with
  | Some read, GStr text => read text = Ok p
  | _, own => p = own
  end.

Section Questions.
Context (G : GoEnv).

(** The fields of a struct, or of the struct a pointer leads to. *)
Definition struct_fields (v : GoVal) : list (FieldInfo * GoVal) :=
  match strip_iface v with
  | GStruct fields => fields
  | GPtr (Some (_, c)) => match ge_heap G !! c with Some (CellVal (GStruct fields)) => fields | _ => [] end
  | _ => []
  end.

(** One fact about [entity] per field with a tag, in the order of the fields. *)
Definition tagged_facts (entity : string) (v : GoVal) : list string :=
  List.filter (fun fact => negb (String.eqb fact ""))
    (map (fun e => atomToDatalog (fi_mangle (fst e)) entity (fmt_v (ge_render G) (strip_iface (snd e))))
       (List.filter (fun e => negb (String.eqb (fi_mangle (fst e)) "")) (struct_fields v))).

Definition operation_fact (name : string) : list string :=
  if String.eqb name "" then []
  else ["action_operation(" +:+ go_quote EntityInput +:+ ", " +:+ go_quote name +:+ ")."].

(** The envelope the evaluator is asked about says what the request says: its
    metadata, its labels, the tagged fields of the payload, its facts, and
    the name of the action. *)
Definition asks_about {W : Type} (act : Action W) (input : Envelope) (p : GoVal) (env : Envelope) : Prop :=
  env_Metadata env = env_Metadata input /\ env_SecurityLabels env = env_SecurityLabels input /\
  env_Facts env = (tagged_facts EntityInput p ++ env_Facts input ++ operation_fact (act_name act))%list.

Definition fact_of_atom (a : GateAtom) : option string :=
  if String.eqb (a_Subject a) "" || String.eqb (a_Predicate a) "" then None
  else match atomToDatalog (a_Predicate a) (a_Subject a) (a_Object a) with "" => None | f => Some f end.

Lemma flattened_facts entity v qs : entity <> "" ->
  flattenToQuads G entity v = Some qs -> omap fact_of_atom (map quad_atom qs) = tagged_facts entity v.
Proof.
  intros He. unfold flattenToQuads, tagged_facts, struct_fields.
  assert (forall fields qs, struct_quads G entity fields = Some qs -> omap fact_of_atom (map quad_atom qs)
    = List.filter (fun fact => negb (String.eqb fact ""))
        (map (fun e => atomToDatalog (fi_mangle (fst e)) entity (fmt_v (ge_render G) (strip_iface (snd e))))
           (List.filter (fun e : FieldInfo * GoVal => negb (String.eqb (fi_mangle (fst e)) "")) fields))) as Hs.
  { clear qs v. induction fields as [|[f v] fields IH]; intros qs; cbn [struct_quads foldr]; [by intros [= <-]|].
    fold (struct_quads G entity fields). cbn [List.filter fst snd]. destruct (String.eqb (fi_mangle f) "") eqn:Hf; cbn [negb]; [apply IH|].
    destruct (fi_Exported f); [|done]. destruct (struct_quads G entity fields) as [qs'|]; [|done]. intros [= <-].
    cbn [map omap list_omap]. unfold fact_of_atom at 1. cbn [a_Subject a_Predicate a_Object quad_atom q_Subject q_Predicate q_Object].
    apply String.eqb_neq in He. rewrite He, Hf. cbn [orb List.filter fst snd]. rewrite <- (IH qs' eq_refl).
    by destruct (atomToDatalog _ _ _). }
  destruct (strip_iface v) as [| | | | | | | | |fields| |[[t c]|]| |] eqn:Hv; try (by intros [= <-]); try apply Hs.
  destruct (ge_heap G !! c) as [[w| |]|]; try (by intros [= <-]). destruct w; try (by intros [= <-]). apply Hs.
Qed.

Lemma verify_envelope_asks {W : Type} (act : Action W) input p qs : flattenToQuads G EntityInput p = Some qs ->
  asks_about act input p (verify_envelope (Some (request_context act input)) (map quad_atom qs)).
Proof.
  intros Hq. unfold asks_about, verify_envelope, operation_fact. cbn [request_context pc_entityID pc_actionName pc_facts pc_metadata pc_labels].
  split_and!; [done|done|]. cbn [env_Facts set_Metadata set_Labels set_Facts].
  rewrite <- (flattened_facts EntityInput p qs) by done. done.
Qed.
End Questions.

(** The decisions that let an action run: every outcome but a halt, or a halt
    whose trail names an advisory tier and no other. *)
Definition tolerated (d : Decision) : Prop :=
  d_Outcome d = DecisionHalt ->
  exists t, d_AuditTrail d = Some t /\ (forall x, x ∈ at_MatchedRules t -> ri_Tier x = "" \/ advisory (ri_Tier x)) /\
    exists x, x ∈ at_MatchedRules t /\ advisory (ri_Tier x).

(** A lenient answer to the pre-flight check of an action comes from a
    tolerated decision on the envelope of the check. *)
Lemma lenient_assessed {E : Type} `{!Evaluator E} {W : Type} ctx (act : Action W) input atoms (e e1 : E) res :
  VerifyAtoms ctx (Some (request_context act input)) atoms e = Some (e1, Ok res) -> lenient res ->
  exists d, ev_AssessPlan ctx (verify_envelope (Some (request_context act input)) atoms) e = Some (e1, (d, None)) /\ tolerated d.
Proof.
  unfold VerifyAtoms. intros H Hl.
  assert ((if (maxFactsPerVerify <? List.length atoms)%nat then
             Some (e, Ok (failed Tier0Kernel ("sdk_adapter.fact_limit_exceeded (" +:+ pretty (Z.of_nat (List.length atoms)) +:+ ">1000)") None))
           else
             '(e1, (d, err)) ← ev_AssessPlan ctx (verify_envelope (Some (request_context act input)) atoms) e;
             Some (e1, match err with
                       | Some x => Err (EWrap "sdk_adapter verify: " x)
                       | None =>
                           if String.eqb (d_Outcome d) DecisionHalt
                           then Ok (failed (violationTierFromDecision d) (match d_Reasons d with r :: _ => r | [] => "unknown" end) (d_AuditTrail d))
                           else Ok (passed (d_AuditTrail d))
                       end)) = Some (e1, Ok res)) as H' by (destruct atoms; exact H).
  clear H. destruct (maxFactsPerVerify <? _)%nat; [injection H' as _ <-; by destruct Hl as [|[|]]|].
  destruct (ev_AssessPlan _ _ e) as [[e2 [d [x|]]]|]; [done| |done]; cbn [mbind option_bind] in H'.
  destruct (String.eqb_spec (d_Outcome d) DecisionHalt) as [Ho|Ho]; injection H' as -> <-; exists d; (split; [done|]); [|by intros ?].
  intros _. assert (blocking_tier (violationTierFromDecision d) = false) as Hb.
  { destruct Hl as [Hp|[Hp|Hp]]; cbn [ar_Pass ar_ViolationTier failed] in Hp; [done|by rewrite Hp..]. }
  apply violation_blocks_iff in Hb as (t & Ht & Hall & x & Hx & Hne). exists t. split_and!; [done|done|]. exists x. split; [done|].
  by destruct (Hall x Hx).
Qed.

(** ** Enforcement *)

Section Enforcement.
Context {E : Type} `{!Evaluator E} {W : Type} (G : GoEnv).

(** Either the world is as it was, or the pre-flight check let the action run. *)
Lemma ExecuteInternal_effect ctx ctx' pc (act : Action W) input (e e' : E) w w' out :
  ExecuteInternal G ctx ctx' pc act input e w = Some (e', w', out) ->
  w' = w \/
  exists facts e1 res, flattenToQuads G "Req" input = Some facts /\
    VerifyAtoms ctx pc (map quad_atom facts) e = Some (e1, Ok res) /\ lenient res.
Proof.
  unfold ExecuteInternal. destruct (flattenToQuads G "Req" input) as [facts|]; [|done]. simpl.
  destruct (VerifyAtoms _ _ _ _) as [[e1 [res|x]]|] eqn:Hv; [|naive_solver|done]. simpl.
  destruct (blocks res) eqn:Hb; [naive_solver|]. right. exists facts, e1, res. split_and!; [done|done|].
  eapply not_blocks_lenient; [by eapply VerifyAtoms_verdict|done].
Qed.

Lemma ExecuteInternal_release ctx ctx' c (act : Action W) input (e e' : E) w w' out :
  ExecuteInternal G ctx ctx' (Some c) act input e w = Some (e', w', (out, None)) ->
  exists facts e1 res result outFacts res', flattenToQuads G "Req" input = Some facts /\
    VerifyAtoms ctx (Some c) (map quad_atom facts) e = Some (e1, Ok res) /\ blocks res = false /\
    sdk_action_execute act (inner_envelope input facts) w = (w', Ok result) /\
    flattenToQuads G EntityOutput (env_Payload result) = Some outFacts /\
    VerifyAtoms ctx' (Some (post_context c)) (map quad_atom outFacts) e1 = Some (e', Ok res') /\
    blocks res' = false /\
    out = set_ContextFacts (env_ContextFacts result ++ outFacts)%list (attach_trail (ar_Trail res) result).
Proof.
  unfold ExecuteInternal. destruct (flattenToQuads G "Req" input) as [facts|]; [|done]. simpl.
  destruct (VerifyAtoms ctx _ _ _) as [[e1 [res|x]]|] eqn:Hv; [|done..]. simpl.
  destruct (blocks res) eqn:Hb; [done|].
  destruct (sdk_action_execute act _ w) as [w1 [result|x]] eqn:Ha; [|done].
  assert (env_Payload (attach_trail (ar_Trail res) result) = env_Payload result) as ->
    by (by destruct (ar_Trail res)).
  destruct (flattenToQuads G EntityOutput _) as [outFacts|] eqn:Ho; [|done]. simpl.
  destruct (VerifyAtoms ctx' _ _ _) as [[e2 [res'|x]]|] eqn:Hv'; [|done..]. simpl.
  destruct (blocks res') eqn:Hb'; [done|]. intros [= <- <- <-].
  eexists facts, e1, res, result, outFacts, res'. split_and!; try done.
  by destruct (ar_Trail res).
Qed.

Lemma supervised_inv ctx ctx' ext (act : Action W) input (e e' : E) w w' out err :
  supervised_Execute G ctx ctx' ext act input e w = Some (e', w', (out, err)) ->
  (e' = e /\ w' = w /\ is_Some err) \/
  exists p out', ExecuteInternal G ctx ctx' (Some (request_context act input)) act p e w
                 = Some (e', w', (out', err)) /\ (err = None -> out = out').
Proof.
  unfold supervised_Execute.
  destruct (match ext with Some _ => _ | None => _ end) as [p|x]; [|intros [= <- <- <- <-]; eauto].
  destruct (ExecuteInternal _ _ _ _ _ _ _) as [[[e1 w1] [o [x|]]]|] eqn:Hi; simpl;
    intros Hs; simplify_eq; right; exists p; eexists; (split; [exact Hi|done]).
Qed.

Lemma supervised_payload ctx ctx' ext (act : Action W) input (e e' : E) w w' out :
  supervised_Execute G ctx ctx' ext act input e w = Some (e', w', out) ->
  w' = w \/ exists p out', checked_payload ext input p /\
    ExecuteInternal G ctx ctx' (Some (request_context act input)) act p e w = Some (e', w', out').
Proof.
  unfold supervised_Execute, checked_payload. destruct out as [out err].
  destruct (match ext with Some _ => _ | None => _ end) as [p|x] eqn:Hp; [|intros [= _ <- _ _]; by left].
  destruct (ExecuteInternal _ _ _ _ _ _ _) as [[[e1 w1] o]|] eqn:Hi; [|done]. cbn [mbind option_bind]. destruct o as [o oe].
  intros Hs. simplify_eq. right. exists p, (o, oe). split; [|done]. destruct ext, (env_Payload input); by simplify_eq.
Qed.

(** Either the world is as it was, or the request was asked about and let
    through. *)
Definition asked_and_tolerated ctx ext (act : Action W) (input : Envelope) (e : E) : Prop :=
  exists p env e1 d, checked_payload ext input p /\ asks_about G act input p env /\
    ev_AssessPlan ctx env e = Some (e1, (d, None)) /\ tolerated d.

Lemma supervised_effect ctx ctx' ext (act : Action W) input (e e' : E) w w' out :
  supervised_Execute G ctx ctx' ext act input e w = Some (e', w', out) ->
  w' = w \/ asked_and_tolerated ctx ext act input e.
Proof.
  intros [?|(p & o & Hp & Hi)]%supervised_payload; [by left|].
  apply ExecuteInternal_effect in Hi as [?|(facts & e1 & res & Hf & Hv & Hl)]; [by left|right].
  apply lenient_assessed in Hv as (d & Hd & Ht); [|done]. exists p. eexists _, e1, d. split_and!; [done| |done|done].
  by apply verify_envelope_asks.
Qed.
End Enforcement.

(** C2: enforcement before execution: whatever the wrapped action does, its
    effect on the world is nil unless, before it ran, the evaluator was asked
    about this very request (the metadata and labels of the input, the facts
    of its payload's tagged fields, its own facts, and the action's name; with
    an extractor, the payload it read from the text) and answered without
    error, with any outcome but a halt, or with a halt whose trail names an
    advisory tier (T2 or T3) and no other. *)
Theorem no_effect_without_clearance {E : Type} `{!Evaluator E} {W : Type} (G : GoEnv)
    (ctx ctx' : option error) (ext : option (string -> res error GoVal)) (act : Action W)
    (input : Envelope) (e e' : E) (w w' : W) (out : Envelope) (err : option error) :
  supervised_Execute G ctx ctx' ext act input e w = Some (e', w', (out, err)) -> w' <> w ->
  exists p env e1 d, checked_payload ext input p /\ asks_about G act input p env /\
    ev_AssessPlan ctx env e = Some (e1, (d, None)) /\ tolerated d.
Proof. intros Hs Hw. destruct (supervised_effect G _ _ _ _ _ _ _ _ _ _ Hs) as [?|H]; [done|exact H]. Qed.

(** C3: enforcement before release: a result leaves the supervisor without an
    error only if the action produced it after a lenient pre-flight verdict
    and the post-check of that result, evaluated for the output entity,
    answered without error and leniently; the released envelope is the
    action's own with the trail and the output facts added. *)
Theorem no_release_without_post_check {E : Type} `{!Evaluator E} {W : Type} (G : GoEnv)
    (ctx ctx' : option error) (ext : option (string -> res error GoVal)) (act : Action W)
    (input : Envelope) (e e' : E) (w w' : W) (out : Envelope) :
  supervised_Execute G ctx ctx' ext act input e w = Some (e', w', (out, None)) ->
  exists p facts e1 pre result outFacts post,
    flattenToQuads G "Req" p = Some facts /\
    VerifyAtoms ctx (Some (request_context act input)) (map quad_atom facts) e = Some (e1, Ok pre) /\ lenient pre /\
    sdk_action_execute act (inner_envelope p facts) w = (w', Ok result) /\
    flattenToQuads G EntityOutput (env_Payload result) = Some outFacts /\
    VerifyAtoms ctx' (Some (post_context (request_context act input))) (map quad_atom outFacts) e1
      = Some (e', Ok post) /\ lenient post /\
    out = set_ContextFacts (env_ContextFacts result ++ outFacts)%list (attach_trail (ar_Trail pre) result).
Proof.
  intros Hs. apply supervised_inv in Hs as [(_ & _ & [? [=]])|(p & o & Hi & Ho)].
  apply ExecuteInternal_release in Hi as (facts & e1 & pre & result & outFacts & post & H1 & H2 & H3 & H4 & H5 & H6 & H7 & H8).
  rewrite (Ho eq_refl). exists p, facts, e1, pre, result, outFacts, post.
  split_and!; try done; (eapply not_blocks_lenient; [by eapply VerifyAtoms_verdict|done]).
Qed.

(** The fact cap is fail-closed: a payload with more than
    [maxFactsPerVerify] tagged fields is refused with a kernel-tier violation,
    without consulting the evaluator and without running the action. *)
Theorem fact_cap_blocks {E : Type} `{!Evaluator E} {W : Type} (G : GoEnv)
    (ctx ctx' : option error) (act : Action W) (input : Envelope) (facts : list Quad) (e : E) (w : W) :
  flattenToQuads G "Req" (env_Payload input) = Some facts ->
  maxFactsPerVerify < List.length facts ->
  exists p, supervised_Execute G ctx ctx' None act input e w
            = Some (e, w, (emptyEnvelope, Some (EPolicyViolation p))) /\ pv_Tier p = TierT0_Axiom.
Proof.
  intros Hf Hlen. unfold supervised_Execute, ExecuteInternal. simpl. rewrite Hf. simpl.
  unfold VerifyAtoms. rewrite length_map. apply Nat.ltb_lt in Hlen. rewrite Hlen.
  destruct (map quad_atom facts); simpl; eexists; by split.
Qed.

(** An engine with no program is fail-closed end to end: no supervised
    action runs, whatever the action, its input and the runtime, and the
    caller gets an error. *)
Theorem unready_engine_blocks {R : Type} `{!GateRuntime R} {W : Type} (G : GoEnv)
    (ctx ctx' : option error) (act : Action W) (input : Envelope) (e : PolicyEngine R) (w : W) (facts : list Quad) :
  gr_ready (pe_runtime e) = false -> flattenToQuads G "Req" (env_Payload input) = Some facts ->
  exists x, @supervised_Execute _ (engine_evaluator G) W G ctx ctx' None act input e w
            = Some (e, w, (emptyEnvelope, Some (EPolicyViolation x))).
Proof.
  intros Hr Hf. unfold supervised_Execute, ExecuteInternal. simpl. rewrite Hf. simpl.
  unfold VerifyAtoms. cbn [request_context pc_entityID pc_actionName].
  change (String.eqb EntityInput "") with false. cbn [andb String.eqb].
  change (String.eqb EntityInput EntityOutput) with false. cbn [andb].
  assert (forall env, ev_AssessPlan (Evaluator := engine_evaluator G) ctx env e
    = Some (e, (policy_decision DecisionHalt ["policy engine not initialized: fail-closed"] [("rule_id", "")] None, None))) as Ha.
  { intros env. simpl. unfold AssessPlan, assessInternal, evaluateGateWithTrail. simpl. by rewrite Hr. }
  rewrite Ha. destruct (map quad_atom facts) eqn:Hm; cbn [mbind option_bind];
    destruct (maxFactsPerVerify <? _)%nat; simpl; eauto.
Qed.

(** ** The whole stack on concrete policies *)

#[local] Instance ground_runtime : GateRuntime (MangleRuntime (list Atom)) := mangle_gate_runtime "".
#[local] Instance ground_evaluator : Evaluator (PolicyEngine (MangleRuntime (list Atom))) := engine_evaluator plain_env.

(** An action that logs the envelope it receives and returns an empty result. *)
Definition log_action (name : string) : Action (list Envelope) :=
  {| act_name := name; act_exec env w := ((w ++ [env])%list, Ok emptyEnvelope) |}.

Definition run (name policy : string) (input : Envelope) :=
  supervised_Execute plain_env None None None (log_action name) input (engine_with policy) [].

(** What the caller and the world see: the envelopes the action received, and
    the error. *)
Definition observed (name policy : string) (input : Envelope) : option (list Envelope * option error) :=
  (fun x => (snd (fst x), snd (snd x))) <$> run name policy input.

Definition executed (name policy : string) : option nat :=
  (fun x => List.length (fst x)) <$> observed name policy emptyEnvelope.
Definition succeeded (name policy : string) : option bool :=
  (fun x => match snd x with None => true | Some _ => false end) <$> observed name policy emptyEnvelope.

(** Masking end to end: a policy that blocks with a plain [halt/2] stops
    the action; the same policy plus one advisory T3 [halt/3] lets it run and
    returns its result. *)
Theorem advisory_rule_unblocks_halt2 :
  let hard := fact_line "halt" ["Req"; "forbidden"] in
  let soft := fact_line "halt" ["Req"; "style"; "T3"] in
  executed "act" hard = Some 0 /\ succeeded "act" hard = Some false /\
  executed "act" (hard +:+ soft) = Some 1 /\ succeeded "act" (hard +:+ soft) = Some true.
Proof. vm_compute. by split_and!. Qed.

(** Pre-check and post-check disagree on an unknown tier name next to a
    T3: on the request the pair blocks, on the output the same pair passes,
    although an unknown tier alone blocks in both places. *)
Theorem unknown_tier_pre_post_divergence :
  let both entity := fact_line "halt" [entity; "a"; "T9"] +:+ fact_line "halt" [entity; "b"; "T3"] in
  succeeded "act" (both "Req") = Some false /\ succeeded "act" (both "Output") = Some true /\
  succeeded "act" (fact_line "halt" ["Req"; "a"; "T9"]) = Some false /\
  succeeded "act" (fact_line "halt" ["Output"; "a"; "T9"]) = Some false.
Proof. vm_compute. by split_and!. Qed.

(** The result of an action without a name is not checked: a policy that
    halts every output blocks the result of a named action and releases the
    result of an unnamed one. *)
Theorem unnamed_action_output_unchecked :
  let policy := fact_line "halt" ["Output"; "secret"] in
  succeeded "act" policy = Some false /\ succeeded "" policy = Some true.
Proof. vm_compute. by split_and!. Qed.

(** The wrapped action receives the payload and the tagged fields only:
    the caller's metadata, security labels, facts, id and content type never
    reach it. *)
Theorem wrapped_action_loses_context {E : Type} `{!Evaluator E} {W : Type} (G : GoEnv)
    (ctx ctx' : option error) (act1 act2 : Action W) (input : Envelope) (e : E) (w : W) :
  act_name act1 = act_name act2 ->
  (forall env w, env_Metadata env = ∅ -> env_SecurityLabels env = [] -> env_ID env = 0%Z ->
     env_ContentType env = "" -> act_exec act1 env w = act_exec act2 env w) ->
  supervised_Execute G ctx ctx' None act1 input e w = supervised_Execute G ctx ctx' None act2 input e w.
Proof.
  intros Hn Hx. unfold supervised_Execute, ExecuteInternal, request_context. rewrite Hn.
  destruct (flattenToQuads G "Req" (env_Payload input)) as [facts|]; [|done]. simpl.
  destruct (VerifyAtoms _ _ _ _) as [[e1 [res|x]]|]; [|done..]. simpl.
  destruct (blocks res); [done|]. unfold sdk_action_execute. simpl. by rewrite Hx.
Qed.

(** ** Witnesses *)

(** An evaluator that counts its calls, denies every plan with a T3 rule and
    approves every output. *)
Definition style_rule : RuleInference :=
  {| ri_RuleName := "style"; ri_Tier := TierT3_User; ri_Definition := ""; ri_SourceFile := "";
     ri_Bindings := []; ri_Predicate := "halt" |}.
Definition advisory_denial : Decision :=
  policy_decision DecisionHalt ["style"] []
    (Some {| at_MatchedRules := [style_rule]; at_Timestamp := 0; at_EngineID := ""; at_Query := "";
                             at_FactCount := 0; at_MatchedCount := 1; at_LatencyMs := 0 |}).
Definition counting_evaluator : Evaluator nat := {|
  ev_AssessPlan _ _ n := Some (S n, (advisory_denial, None));
  ev_Reflect _ _ env n := Some (S n, (env, None));
  ev_Query _ _ _ n := (n, Ok [])
|}.
Definition counted_run : option (nat * list Envelope * (Envelope * option error)) :=
  @supervised_Execute nat counting_evaluator (list Envelope) plain_env None None None (log_action "act") emptyEnvelope 0 [].
Definition counted_log : list Envelope := default [] ((fun x => snd (fst x)) <$> counted_run).
Definition counted_out : Envelope := default emptyEnvelope ((fun x => fst (snd x)) <$> counted_run).

(** A request with a tagged field, a label, a fact and metadata. *)
Definition amount_field : FieldInfo * GoVal :=
  ({| fi_Name := "Amount"; fi_Exported := true; fi_Anonymous := false; fi_mangle := "amount"; fi_json := "" |}, GBool true).
Definition full_request : Envelope :=
  set_Metadata {["user" := GStr "bob"]} (set_Labels ["pii"] (set_Facts ["vip."] (NewEnvelope 1 (GStruct [amount_field])))).
Definition full_run : option (nat * list Envelope * (Envelope * option error)) :=
  @supervised_Execute nat counting_evaluator (list Envelope) plain_env None None None (log_action "act") full_request 0 [].
Definition full_log : list Envelope := default [] ((fun x => snd (fst x)) <$> full_run).
Definition full_out : Envelope := default emptyEnvelope ((fun x => fst (snd x)) <$> full_run).

Lemma no_effect_without_clearance_witness :
  exists env, asks_about plain_env (log_action "act") full_request (GStruct [amount_field]) env /\
    env_Metadata env !! "user" = Some (GStr "bob") /\ env_SecurityLabels env = ["pii"] /\ List.length (env_Facts env) = 3 /\
    exists e1 d, ev_AssessPlan (Evaluator := counting_evaluator) None env 0 = Some (e1, (d, None)) /\ d_Outcome d = DecisionHalt /\ tolerated d.
Proof.
  destruct (@no_effect_without_clearance nat counting_evaluator (list Envelope) plain_env None None None
           (log_action "act") full_request 0 2 [] full_log full_out None) as (p & env & e1 & d & Hp & Ha & Hd & Ht);
    [by_vm|vm_compute; discriminate|].
  cbn in Hp. subst p. exists env. split; [exact Ha|]. destruct Ha as (-> & -> & Hf). split_and!; [done|done|by rewrite Hf|].
  exists e1, d. split_and!; [done|by injection Hd as _ <-|done].
Defined.

Lemma no_release_without_post_check_witness :
  exists p facts e1 pre result outFacts post,
    flattenToQuads plain_env "Req" p = Some facts /\
    @VerifyAtoms nat counting_evaluator None (Some (request_context (log_action "act") emptyEnvelope))
      (map quad_atom facts) 0 = Some (e1, Ok pre) /\ lenient pre /\
    sdk_action_execute (log_action "act") (inner_envelope p facts) [] = (counted_log, Ok result) /\
    flattenToQuads plain_env EntityOutput (env_Payload result) = Some outFacts /\
    @VerifyAtoms nat counting_evaluator None (Some (post_context (request_context (log_action "act") emptyEnvelope)))
      (map quad_atom outFacts) e1 = Some (2, Ok post) /\ lenient post /\
    counted_out = set_ContextFacts (env_ContextFacts result ++ outFacts)%list (attach_trail (ar_Trail pre) result).
Proof.
  apply (@no_release_without_post_check nat counting_evaluator (list Envelope) plain_env None None None
           (log_action "act") emptyEnvelope 0 2 [] counted_log counted_out). by_vm.
Defined.

Definition tagged_field : FieldInfo * GoVal :=
  ({| fi_Name := "F"; fi_Exported := true; fi_Anonymous := false; fi_mangle := "f"; fi_json := "" |}, GBool true).
Definition big_input : Envelope := NewEnvelope 0 (GStruct (repeat tagged_field 1001)).

Lemma fact_cap_blocks_witness :
  exists p, supervised_Execute plain_env None None None (log_action "act") big_input (engine_with "p.") []
            = Some (engine_with "p.", [], (emptyEnvelope, Some (EPolicyViolation p))) /\ pv_Tier p = TierT0_Axiom.
Proof.
  apply (fact_cap_blocks plain_env None None (log_action "act") big_input
           (repeat {| q_Subject := "Req"; q_Predicate := "f"; q_Object := "true"; q_Graph := "temporal_context" |} 1001));
    [by_vm|rewrite repeat_length; unfold maxFactsPerVerify; lia].
Defined.

Definition unready : PolicyEngine (MangleRuntime (list Atom)) :=
  {| pe_runtime := NewMangleRuntime; pe_factCache := ∅ |}.

Lemma unready_engine_blocks_witness :
  exists x, supervised_Execute plain_env None None None (log_action "act") emptyEnvelope unready []
            = Some (unready, [], (emptyEnvelope, Some (EPolicyViolation x))).
Proof. apply (unready_engine_blocks plain_env None None (log_action "act") emptyEnvelope unready [] []); done. Defined.

(** An action that would leak the caller's labels behaves as the one that ignores them. *)
Definition labels_action : Action (list Envelope) :=
  {| act_name := "act"; act_exec env w := ((w ++ [env])%list, Ok (set_Labels (env_SecurityLabels env) emptyEnvelope)) |}.

Lemma wrapped_action_loses_context_witness :
  supervised_Execute plain_env None None None labels_action (set_Labels ["pii"] emptyEnvelope) (engine_with "p.") []
  = supervised_Execute plain_env None None None (log_action "act") (set_Labels ["pii"] emptyEnvelope) (engine_with "p.") [].
Proof.
  apply (wrapped_action_loses_context plain_env None None labels_action (log_action "act")); [done|].
  intros env w _ Hl _ _. simpl. by rewrite Hl.
Defined.
