(* ===== verification/CircuitBreaker.v ===== *)
(** * The circuit breaker

    [adapters/resilience/circuit_breaker.go].  The breaker's lock is released
    while the wrapped action runs, so an execution is four atomic sections:
    the snapshot, the decision on it (with the write-locked transition to
    half-open), the run of the action, and the completion.  [cb_snapshot],
    [cb_decide], [probe_done] and [standard_done] are those sections;
    [Execute] is their sequential composition; [step] interleaves any number
    of executions with any clock readings and any outcomes of the action.
    Times are nanoseconds. *)
From S2P Require Import Prelude GoStrings CoreErrors CoreTypes.

Inductive State := StateClosed | StateOpen | StateHalfOpen.

#[global] Instance state_eq_dec : EqDecision State.
Proof. solve_decision. Defined.

Record CircuitBreakerConfig := {
  FailureThreshold : Z;                      (* uint64 *)
  ResetTimeout : Z;
  FailureWhen : option (error -> bool)
}.

Record CircuitBreaker := {
  cb_state : State;
  cb_failures : Z;
  cb_lastOpen : Z;
  cb_generation : Z
}.

(** The zero [time.Time] of [lastOpen] is never read: it is only consulted in
    [StateOpen]. *)
Definition NewCircuitBreaker : CircuitBreaker :=
  {| cb_state := StateClosed; cb_failures := 0; cb_lastOpen := 0; cb_generation := 0 |}.

Definition next_u64 (v : Z) : Z := ((v + 1) mod 2 ^ 64)%Z.

Section Breaker.
Context (cfg : CircuitBreakerConfig).
Implicit Types (c : CircuitBreaker).

Definition counts (err : option error) : bool :=
  match err with
  | None => false
  | Some e => match FailureWhen cfg with None => true | Some f => f e end
  end.

(** The read-locked snapshot. *)
Record Snapshot := { sn_state : State; sn_lastOpen : Z; sn_gen : Z }.
Definition cb_snapshot c : Snapshot :=
  {| sn_state := cb_state c; sn_lastOpen := cb_lastOpen c; sn_gen := cb_generation c |}.

Inductive Next := NReject | NRestart | NProbe | NStandard.

(** What [Execute] does with its snapshot at time [now]. *)
Definition cb_decide (now : Z) (s : Snapshot) c : CircuitBreaker * Next :=
  match sn_state s with
  | StateOpen =>
      if (now - sn_lastOpen s <=? ResetTimeout cfg)%Z then (c, NReject)
      else if negb (cb_generation c =? sn_gen s)%Z then (c, NRestart)
      else if decide (cb_state c = StateOpen)
      then ({| cb_state := StateHalfOpen; cb_failures := cb_failures c; cb_lastOpen := cb_lastOpen c;
               cb_generation := next_u64 (cb_generation c) |}, NProbe)
      else (c, NReject)
  | StateHalfOpen => (c, NReject)
  | StateClosed => (c, NStandard)
  end.

Definition trip (now failures : Z) c : CircuitBreaker :=
  {| cb_state := StateOpen; cb_failures := failures; cb_lastOpen := now;
     cb_generation := next_u64 (cb_generation c) |}.

Definition close c : CircuitBreaker :=
  {| cb_state := StateClosed; cb_failures := 0; cb_lastOpen := cb_lastOpen c;
     cb_generation := next_u64 (cb_generation c) |}.

Definition set_failures (n : Z) c : CircuitBreaker :=
  {| cb_state := cb_state c; cb_failures := n; cb_lastOpen := cb_lastOpen c;
     cb_generation := cb_generation c |}.

(** The write-locked end of [runProbe] and of [runStandard]. *)
Definition probe_done (now : Z) (err : option error) c : CircuitBreaker :=
  if counts err then trip now (cb_failures c) c else close c.

Definition standard_done (now : Z) (err : option error) c : CircuitBreaker :=
  if decide (cb_state c = StateClosed) then
    match err with
    | None => set_failures 0 c
    | Some _ =>
        if counts err then
          let n := next_u64 (cb_failures c) in
          if (FailureThreshold cfg <=? n)%Z then trip now n c else set_failures n c
        else c
    end
  else c.

(** ** Sequential execution *)

Context {W : Type} (inner : Envelope -> W -> W * (Envelope * option error)).

(** [Execute] at time [now] with the action finishing at time [fin]; alone,
    it never restarts. *)
Definition Execute (now fin : Z) (env : Envelope) c (w : W)
  : CircuitBreaker * W * (Envelope * option error) :=
  let '(c1, next) := cb_decide now (cb_snapshot c) c in
  match next with
  | NProbe => let '(w1, (resp, err)) := inner env w in (probe_done fin err c1, w1, (resp, err))
  | NStandard => let '(w1, (resp, err)) := inner env w in (standard_done fin err c1, w1, (resp, err))
  | NReject | NRestart => (c1, w, (emptyEnvelope, Some (ESentinel ErrCircuitOpen)))
  end.

(** ** Interleaved executions *)

(** Where an execution is. *)
Inductive Phase :=
| PStart
| PSnap (s : Snapshot)
| PRunning (probe : bool)
| PDone.

Definition System : Type := CircuitBreaker * list Phase.

Inductive step : System -> System -> Prop :=
| step_call c ts : step (c, ts) (c, (ts ++ [PStart])%list)
| step_snap c ts i :
    ts !! i = Some PStart -> step (c, ts) (c, <[i := PSnap (cb_snapshot c)]> ts)
| step_decide c ts i s now c' next :
    ts !! i = Some (PSnap s) -> cb_decide now s c = (c', next) ->
    step (c, ts) (c', <[i := match next with
                             | NReject => PDone
                             | NRestart => PStart
                             | NProbe => PRunning true
                             | NStandard => PRunning false
                             end]> ts)
| step_probe c ts i now err :
    ts !! i = Some (PRunning true) -> step (c, ts) (probe_done now err c, <[i := PDone]> ts)
| step_standard c ts i now err :
    ts !! i = Some (PRunning false) -> step (c, ts) (standard_done now err c, <[i := PDone]> ts).

Inductive cb_reach : System -> Prop :=
| cb_reach_init : cb_reach (NewCircuitBreaker, [])
| cb_reach_step s s' : cb_reach s -> step s s' -> cb_reach s'.

(** Probes in flight. *)
Definition probe_count (ts : list Phase) : nat :=
  List.length (List.filter (fun p => match p with PRunning true => true | _ => false end) ts).

Definition bound : Z := Z.max 1 (FailureThreshold cfg).

Definition cb_inv (s : System) : Prop :=
  probe_count (snd s) = (if decide (cb_state (fst s) = StateHalfOpen) then 1 else 0)%nat /\
  (0 <= cb_failures (fst s))%Z /\
  (cb_state (fst s) = StateClosed -> (cb_failures (fst s) < bound)%Z).

Lemma probe_count_insert ts i p q :
  ts !! i = Some p ->
  probe_count (<[i := q]> ts) + probe_count [p] = probe_count ts + probe_count [q].
Proof.
  revert i. induction ts as [|t ts IH]; intros [|i] Hi; simplify_eq/=; unfold probe_count in *.
  - simpl. destruct p as [| |[]|], q as [| |[]|]; simpl; lia.
  - specialize (IH i Hi). simpl in *. destruct t as [| |[]|]; simpl; lia.
Qed.

Lemma probe_count_app ts q : probe_count (ts ++ [q]) = probe_count ts + probe_count [q].
Proof. unfold probe_count. rewrite List.filter_app, length_app. done. Qed.

(** What each section does to the breaker, for the counters. *)
Lemma standard_done_state now err c :
  cb_state (standard_done now err c) = StateHalfOpen <-> cb_state c = StateHalfOpen.
Proof.
  unfold standard_done. destruct (decide (cb_state c = StateClosed)) as [Hs|]; [|done].
  destruct err as [e|]; [destruct (counts (Some e)); [destruct (_ <=? _)%Z|]|]; simpl; rewrite ?Hs; done.
Qed.

Lemma standard_done_failures now err c :
  (0 <= FailureThreshold cfg < 2 ^ 64)%Z -> (0 <= cb_failures c)%Z ->
  (cb_state c = StateClosed -> (cb_failures c < bound)%Z) ->
  let c' := standard_done now err c in
  (0 <= cb_failures c')%Z /\ (cb_state c' = StateClosed -> (cb_failures c' < bound)%Z).
Proof.
  intros Ht Hn Hc. unfold standard_done, bound in *.
  destruct (decide (cb_state c = StateClosed)) as [Hs|Hs]; [|simpl; by split].
  destruct err as [e|]; [|simpl; split; [lia|intros _; lia]].
  destruct (counts (Some e)); [|simpl; by split].
  specialize (Hc Hs). unfold next_u64. rewrite Z.mod_small by lia.
  destruct (Z.leb_spec (FailureThreshold cfg) (cb_failures c + 1)); simpl; (split; [lia|]); [done|intros _; lia].
Qed.

Lemma step_inv s s' :
  (0 <= FailureThreshold cfg < 2 ^ 64)%Z -> cb_inv s -> step s s' -> cb_inv s'.
Proof.
  intros Ht (Hp & Hn & Hc) Hstep.
  destruct Hstep as [c ts|c ts i Hi|c ts i s now c' next Hi Hd|c ts i now err Hi|c ts i now err Hi];
    unfold cb_inv in *; simpl in *.
  - rewrite probe_count_app. unfold probe_count at 2. simpl. split_and!; try done. lia.
  - pose proof (probe_count_insert ts i PStart (PSnap (cb_snapshot c)) Hi) as Hpc.
    unfold probe_count at 2 4 in Hpc. simpl in Hpc. split_and!; try done. lia.
  - pose proof (probe_count_insert ts i (PSnap s)
      (match next with NReject => PDone | NRestart => PStart | NProbe => PRunning true | NStandard => PRunning false end) Hi) as Hpc.
    unfold probe_count at 2 4 in Hpc. simpl in Hpc. unfold cb_decide in Hd.
    destruct (sn_state s); [|destruct (_ <=? _)%Z; [|destruct (negb _); [|destruct (decide (cb_state c = StateOpen)) as [Ho|]]]|];
      simplify_eq/=; (split_and!; [|done|done]); try lia.
    rewrite Ho in Hp. simpl in Hp. lia.
  - pose proof (probe_count_insert ts i (PRunning true) PDone Hi) as Hpc.
    unfold probe_count at 2 4 in Hpc. simpl in Hpc.
    destruct (decide (cb_state c = StateHalfOpen)) as [Hh|]; [|lia].
    unfold probe_done. destruct (counts err); simpl; (split_and!; [lia|lia|]); [done|].
    intros _. unfold bound. lia.
  - pose proof (probe_count_insert ts i (PRunning false) PDone Hi) as Hpc.
    unfold probe_count at 2 4 in Hpc. simpl in Hpc.
    destruct (standard_done_failures now err c Ht Hn Hc) as [H1 H2]. split_and!; try done.
    pose proof (standard_done_state now err c) as Hs. repeat case_decide; lia || tauto.
Qed.

Lemma cb_reach_inv s : (0 <= FailureThreshold cfg < 2 ^ 64)%Z -> cb_reach s -> cb_inv s.
Proof.
  intros Ht. induction 1 as [|s s' _ IH Hs]; [|by eapply step_inv].
  unfold cb_inv, bound. simpl. split_and!; try done; lia.
Qed.
End Breaker.

(** C31: probe exclusivity: under any interleaving, a half-open breaker has
    exactly one probe in flight and any other breaker has none: at most one
    request at a time tests an unhealthy provider. *)
Theorem at_most_one_probe (cfg : CircuitBreakerConfig) (c : CircuitBreaker) (ts : list Phase) :
  (0 <= FailureThreshold cfg < 2 ^ 64)%Z -> cb_reach cfg (c, ts) ->
  probe_count ts = if decide (cb_state c = StateHalfOpen) then 1 else 0.
Proof. intros Ht Hr. apply (cb_reach_inv cfg _ Ht Hr). Qed.

(** The failure counter of a closed breaker stays below the threshold
    under any interleaving (so it neither overflows nor leaves a breaker
    closed that reached its threshold). *)
Theorem closed_below_threshold (cfg : CircuitBreakerConfig) (c : CircuitBreaker) (ts : list Phase) :
  (0 <= FailureThreshold cfg < 2 ^ 64)%Z -> cb_reach cfg (c, ts) -> cb_state c = StateClosed ->
  (0 <= cb_failures c < Z.max 1 (FailureThreshold cfg))%Z.
Proof. intros Ht Hr Hc. destruct (cb_reach_inv cfg _ Ht Hr) as (_ & H1 & H2). split; [done|]. by apply H2. Qed.

(** Executions one after the other, each given as its start and finish time
    and its envelope. *)
Fixpoint run_all {W : Type} (cfg : CircuitBreakerConfig) (inner : Envelope -> W -> W * (Envelope * option error))
    (calls : list (Z * Z * Envelope)) (c : CircuitBreaker) (w : W) : CircuitBreaker * W :=
  match calls with
  | [] => (c, w)
  | (now, fin, env) :: rest =>
      let '(c1, w1, _) := Execute cfg inner now fin env c w in run_all cfg inner rest c1 w1
  end.

(** The action fails with errors that count. *)
Definition always_fails {W : Type} (cfg : CircuitBreakerConfig) (inner : Envelope -> W -> W * (Envelope * option error)) : Prop :=
  forall env w, counts cfg (snd (snd (inner env w))) = true.

Lemma run_all_failing {W : Type} (cfg : CircuitBreakerConfig) inner (calls : list (Z * Z * Envelope)) c (w : W) :
  (0 <= FailureThreshold cfg < 2 ^ 64)%Z -> always_fails cfg inner ->
  cb_state c = StateClosed -> (0 <= cb_failures c)%Z ->
  (cb_failures c + Z.of_nat (List.length calls) < FailureThreshold cfg)%Z ->
  let c' := fst (run_all cfg inner calls c w) in
  cb_state c' = StateClosed /\ cb_failures c' = (cb_failures c + Z.of_nat (List.length calls))%Z.
Proof.
  intros Ht Hf. revert c w. induction calls as [|[[now fin] env] rest IH]; intros c w Hc Hn Hlt; simpl.
  { simpl in *. split; [done|lia]. }
  unfold Execute, cb_decide. simpl. rewrite Hc. specialize (Hf env w).
  destruct (inner env w) as [w1 [resp err]] eqn:Hi. simpl in Hf.
  assert (standard_done cfg fin err c = set_failures (cb_failures c + 1)%Z c) as ->.
  { unfold standard_done. rewrite decide_True by done. destruct err as [e|]; [|done]. rewrite Hf.
    unfold next_u64. rewrite Z.mod_small by (simpl in *; lia).
    destruct (Z.leb_spec (FailureThreshold cfg) (cb_failures c + 1)); [simpl in *; lia|done]. }
  destruct (IH (set_failures (cb_failures c + 1) c) w1) as [I1 I2]; simpl in *; [done|lia|lia|].
  split; [done|]. rewrite I2. lia.
Qed.

(** The breaker trips at its threshold and protects the provider: from a
    fresh breaker, [FailureThreshold - 1] consecutive counted failures leave
    it closed, the next one opens it, and until [ResetTimeout] has passed
    every further call is refused without touching the action. *)
Theorem trips_at_threshold {W : Type} (cfg : CircuitBreakerConfig)
    (inner : Envelope -> W -> W * (Envelope * option error)) (calls : list (Z * Z * Envelope))
    (now fin : Z) (env : Envelope) (w : W) :
  (1 <= FailureThreshold cfg < 2 ^ 64)%Z -> always_fails cfg inner ->
  Z.of_nat (List.length calls) = (FailureThreshold cfg - 1)%Z ->
  let '(c1, w1) := run_all cfg inner calls NewCircuitBreaker w in
  let '(c2, w2, _) := Execute cfg inner now fin env c1 w1 in
  cb_state c1 = StateClosed /\ cb_state c2 = StateOpen /\
  forall now' fin' env', (now' - fin <= ResetTimeout cfg)%Z ->
    Execute cfg inner now' fin' env' c2 w2 = (c2, w2, (emptyEnvelope, Some (ESentinel ErrCircuitOpen))).
Proof.
  intros Ht Hf Hlen.
  pose proof (run_all_failing cfg inner calls NewCircuitBreaker w) as Hr.
  destruct (run_all cfg inner calls NewCircuitBreaker w) as [c1 w1]. simpl in Hr.
  destruct Hr as [Hc Hn]; [lia|done|done|lia|lia|].
  unfold Execute at 1, cb_decide. simpl. rewrite Hc. specialize (Hf env w1).
  destruct (inner env w1) as [w2 [resp err]]. simpl in Hf.
  assert (standard_done cfg fin err c1 = trip fin (cb_failures c1 + 1)%Z c1) as ->.
  { unfold standard_done. rewrite decide_True by done. destruct err as [e|]; [|done]. rewrite Hf.
    unfold next_u64. rewrite Z.mod_small by lia.
    destruct (Z.leb_spec (FailureThreshold cfg) (cb_failures c1 + 1)); [done|lia]. }
  split_and!; [done|done|]. intros now' fin' env' Hle. unfold Execute, cb_decide. simpl.
  destruct (Z.leb_spec (now' - fin) (ResetTimeout cfg)); [done|lia].
Qed.

(** A probe decides: once [ResetTimeout] has passed, exactly one call goes
    through; it closes the breaker with a clean counter unless its error
    counts against the provider, in which case the breaker is open again from
    that moment; the caller gets the action's own answer either way. *)
Theorem probe_decides {W : Type} (cfg : CircuitBreakerConfig)
    (inner : Envelope -> W -> W * (Envelope * option error)) (now fin : Z) (env : Envelope)
    (c : CircuitBreaker) (w : W) :
  cb_state c = StateOpen -> (ResetTimeout cfg < now - cb_lastOpen c)%Z ->
  let '(c', w', out) := Execute cfg inner now fin env c w in
  (w', out) = inner env w /\
  (if counts cfg (snd out) then cb_state c' = StateOpen /\ cb_lastOpen c' = fin
   else cb_state c' = StateClosed /\ cb_failures c' = 0%Z).
Proof.
  intros Hc Ht. unfold Execute, cb_decide. simpl. rewrite Hc, Z.eqb_refl, decide_True by done. simpl.
  destruct (Z.leb_spec (now - cb_lastOpen c) (ResetTimeout cfg)); [lia|].
  destruct (inner env w) as [w' [resp err]]. simpl. split; [done|].
  unfold probe_done. destruct (counts cfg err); done.
Qed.

(** ** Recovery *)

Lemma running_probe ts : probe_count ts <> 0 -> exists i, ts !! i = Some (PRunning true).
Proof.
  unfold probe_count. induction ts as [|t ts IH]; intros H; [done|]. simpl in H.
  destruct t as [| |[]|]; simpl in H; try (by exists 0);
    destruct (IH H) as [i Hi]; by exists (S i).
Qed.

(** One more call, alone: it is made, takes its snapshot and decides on it. *)
Lemma fresh_call_decides cfg c ts now c' next :
  cb_decide cfg now (cb_snapshot c) c = (c', next) ->
  rtc (step cfg) (c, ts) (c', (ts ++ [match next with
                                      | NReject => PDone
                                      | NRestart => PStart
                                      | NProbe => PRunning true
                                      | NStandard => PRunning false
                                      end])%list).
Proof.
  intros Hd. eapply rtc_l; [apply step_call|].
  assert ((ts ++ [PStart])%list !! List.length ts = Some PStart) as Hi by (rewrite lookup_app_r by lia; by rewrite Nat.sub_diag).
  eapply rtc_l; [by apply step_snap with (i := List.length ts)|].
  rewrite insert_app_r_alt by lia. rewrite Nat.sub_diag. simpl.
  apply rtc_once.
  pose proof (step_decide cfg c (ts ++ [PSnap (cb_snapshot c)]) (List.length ts) (cb_snapshot c) now c' next) as Hs.
  rewrite lookup_app_r, insert_app_r_alt, Nat.sub_diag in Hs by lia. by apply Hs.
Qed.

(** C32: no breaker is stuck: from every state that any interleaving reaches,
    whatever the in-flight executions are doing, answers from the provider
    close it again without the other executions having to move: a half-open
    breaker has a probe in flight whose success closes it, and an open breaker
    admits one as soon as a call reads a clock past [ResetTimeout]. *)
Theorem breaker_recovers (cfg : CircuitBreakerConfig) (c : CircuitBreaker) (ts : list Phase) (now fin : Z) :
  (0 <= FailureThreshold cfg < 2 ^ 64)%Z -> cb_reach cfg (c, ts) -> (ResetTimeout cfg < now - cb_lastOpen c)%Z ->
  exists c' ts', rtc (step cfg) (c, ts) (c', ts') /\ cb_state c' = StateClosed /\
    (cb_state c = StateClosed \/ c' = probe_done cfg fin None (fst (cb_decide cfg now (cb_snapshot c) c))).
Proof.
  intros Ht Hr Hnow. destruct (cb_state c) eqn:Hc.
  - exists c, ts. split_and!; [apply rtc_refl|done|by left].
  - pose proof (fresh_call_decides cfg c ts now) as Hd. unfold cb_decide in *. simpl in *.
    rewrite Hc, Z.eqb_refl, decide_True in * by done. simpl in *.
    destruct (Z.leb_spec (now - cb_lastOpen c) (ResetTimeout cfg)); [lia|].
    specialize (Hd _ _ eq_refl). simpl in Hd.
    eexists _, _. split_and!; [eapply rtc_r; [exact Hd|]|..].
    + apply step_probe with (i := List.length ts) (now := fin) (err := None).
      rewrite lookup_app_r by lia. by rewrite Nat.sub_diag.
    + done.
    + by right.
  - destruct (running_probe ts) as [i Hi].
    { pose proof (proj1 (cb_reach_inv cfg _ Ht Hr)) as Hp. simpl in Hp. by rewrite Hp, Hc. }
    exists (probe_done cfg fin None c), (<[i := PDone]> ts). split_and!; [|done|right].
    + eapply rtc_l; [by apply step_probe|apply rtc_refl].
    + unfold cb_decide. simpl. by rewrite Hc.
Qed.

(** ** A stale execution counts against a recovered provider *)

Definition one_failure : CircuitBreakerConfig :=
  {| FailureThreshold := 1; ResetTimeout := 10; FailureWhen := None |}.
Definition an_error : option error := Some (EText "timeout").

Lemma fresh_calls cfg n : cb_reach cfg (NewCircuitBreaker, repeat PStart n).
Proof.
  induction n as [|n IH]; [constructor|]. eapply cb_reach_step; [exact IH|].
  cbn [repeat]. rewrite repeat_cons. apply step_call.
Qed.

(** Completions of a previous epoch are not ignored: [runStandard] only
    compares the state, so a call that started before the breaker opened and
    fails after a probe has closed it again re-opens the recovered breaker
    (here with threshold 1, at time 100). *)
Theorem stale_failure_reopens :
  exists c1 c2 ts1 ts2,
    cb_reach one_failure (c1, ts1) /\ cb_state c1 = StateClosed /\ cb_failures c1 = 0%Z /\
    ts1 !! 0 = Some (PRunning false) /\ cb_generation c1 = 3%Z /\
    step one_failure (c1, ts1) (c2, ts2) /\ cb_state c2 = StateOpen /\ cb_lastOpen c2 = 100%Z.
Proof.
  set (c_open := trip 5 1 NewCircuitBreaker).
  set (c_half := {| cb_state := StateHalfOpen; cb_failures := 1; cb_lastOpen := 5; cb_generation := 2 |}).
  assert (cb_reach one_failure (NewCircuitBreaker, [PRunning false; PRunning false; PStart])) as R1.
  { pose (s0 := PSnap (cb_snapshot NewCircuitBreaker)).
    apply (cb_reach_step _ (NewCircuitBreaker, [PRunning false; s0; PStart]));
      [|by apply (step_decide one_failure NewCircuitBreaker [PRunning false; s0; PStart] 1
                    (cb_snapshot NewCircuitBreaker) 0 NewCircuitBreaker NStandard)].
    apply (cb_reach_step _ (NewCircuitBreaker, [s0; s0; PStart]));
      [|by apply (step_decide one_failure NewCircuitBreaker [s0; s0; PStart] 0
                    (cb_snapshot NewCircuitBreaker) 0 NewCircuitBreaker NStandard)].
    apply (cb_reach_step _ (NewCircuitBreaker, [s0; PStart; PStart]));
      [|by apply (step_snap one_failure NewCircuitBreaker [s0; PStart; PStart] 1)].
    apply (cb_reach_step _ (NewCircuitBreaker, [PStart; PStart; PStart]));
      [|by apply (step_snap one_failure NewCircuitBreaker [PStart; PStart; PStart] 0)].
    apply (fresh_calls one_failure 3). }
  assert (cb_reach one_failure (c_open, [PRunning false; PDone; PStart])) as R2.
  { eapply cb_reach_step; [exact R1|].
    by apply (step_standard one_failure NewCircuitBreaker [PRunning false; PRunning false; PStart] 1 5 an_error). }
  assert (cb_reach one_failure (c_half, [PRunning false; PDone; PRunning true])) as R3.
  { apply (cb_reach_step _ (c_open, [PRunning false; PDone; PSnap (cb_snapshot c_open)])).
    - eapply cb_reach_step; [exact R2|]. by apply (step_snap one_failure c_open [PRunning false; PDone; PStart] 2).
    - by apply (step_decide one_failure c_open [PRunning false; PDone; PSnap (cb_snapshot c_open)]
                  2 (cb_snapshot c_open) 50 c_half NProbe). }
  assert (cb_reach one_failure (close c_half, [PRunning false; PDone; PDone])) as R4.
  { eapply cb_reach_step; [exact R3|].
    by apply (step_probe one_failure c_half [PRunning false; PDone; PRunning true] 2 60 None). }
  exists (close c_half), (trip 100 1 (close c_half)), [PRunning false; PDone; PDone], [PDone; PDone; PDone].
  split_and!; try done.
  by apply (step_standard one_failure (close c_half) [PRunning false; PDone; PDone] 0 100 an_error).
Qed.

(** ** Witnesses *)

Lemma at_most_one_probe_witness :
  probe_count [PStart] = if decide (cb_state NewCircuitBreaker = StateHalfOpen) then 1 else 0.
Proof.
  apply (at_most_one_probe one_failure NewCircuitBreaker [PStart]); [simpl; lia|].
  apply (cb_reach_step _ (NewCircuitBreaker, [])); [constructor|apply (step_call _ _ [])].
Defined.

Lemma closed_below_threshold_witness :
  (0 <= cb_failures NewCircuitBreaker < Z.max 1 (FailureThreshold one_failure))%Z.
Proof.
  apply (closed_below_threshold one_failure NewCircuitBreaker []); [simpl; lia|constructor|done].
Defined.

Definition failing (env : Envelope) (w : nat) : nat * (Envelope * option error) := (S w, (emptyEnvelope, an_error)).

Lemma trips_at_threshold_witness :
  let '(c1, w1) := run_all one_failure failing [] NewCircuitBreaker 0 in
  let '(c2, w2, _) := Execute one_failure failing 0 1 emptyEnvelope c1 w1 in
  cb_state c1 = StateClosed /\ cb_state c2 = StateOpen /\
  forall now' fin' env', (now' - 1 <= 10)%Z ->
    Execute one_failure failing now' fin' env' c2 w2 = (c2, w2, (emptyEnvelope, Some (ESentinel ErrCircuitOpen))).
Proof.
  apply (trips_at_threshold one_failure failing [] 0 1 emptyEnvelope 0); [simpl; lia|by intros env w|done].
Defined.

Lemma probe_decides_witness :
  let '(c', w', out) := Execute one_failure failing 50 60 emptyEnvelope (trip 5 1 NewCircuitBreaker) 0 in
  (w', out) = failing emptyEnvelope 0 /\
  (if counts one_failure (snd out) then cb_state c' = StateOpen /\ cb_lastOpen c' = 60%Z
   else cb_state c' = StateClosed /\ cb_failures c' = 0%Z).
Proof. apply (probe_decides one_failure failing 50 60 emptyEnvelope (trip 5 1 NewCircuitBreaker) 0); [done|simpl; lia]. Defined.

Lemma opened_reachable : cb_reach one_failure (trip 5 1 NewCircuitBreaker, [PDone]).
Proof.
  apply (cb_reach_step _ (NewCircuitBreaker, [PRunning false]));
    [|by apply (step_standard one_failure NewCircuitBreaker [PRunning false] 0 5 an_error)].
  apply (cb_reach_step _ (NewCircuitBreaker, [PSnap (cb_snapshot NewCircuitBreaker)]));
    [|by apply (step_decide one_failure NewCircuitBreaker [PSnap (cb_snapshot NewCircuitBreaker)] 0
                  (cb_snapshot NewCircuitBreaker) 0 NewCircuitBreaker NStandard)].
  apply (cb_reach_step _ (NewCircuitBreaker, [PStart]));
    [apply (fresh_calls one_failure 1)|by apply (step_snap one_failure NewCircuitBreaker [PStart] 0)].
Qed.

Lemma breaker_recovers_witness :
  exists c' ts', rtc (step one_failure) (trip 5 1 NewCircuitBreaker, [PDone]) (c', ts') /\ cb_state c' = StateClosed /\
    (cb_state (trip 5 1 NewCircuitBreaker) = StateClosed \/
     c' = probe_done one_failure 60 None
            (fst (cb_decide one_failure 50 (cb_snapshot (trip 5 1 NewCircuitBreaker)) (trip 5 1 NewCircuitBreaker)))).
Proof.
  apply (breaker_recovers one_failure (trip 5 1 NewCircuitBreaker) [PDone] 50 60);
    [simpl; lia|apply opened_reachable|simpl; lia].
Defined.
