(* ===== verification/QuadStore.v ===== *)
(** * The quad store

    [internal/adapters/storage/graph]: the 33-byte index keys
    ([encoding.go]) and the store over BadgerDB ([store.go]).  BadgerDB is the
    [KV] interface: an ordered byte-key map whose transactions commit or fail
    as a whole; [map_kv] is an instance.  Bytes are integers in [0, 256). *)
From stdpp Require Import sorting.
From S2P Require Import Prelude GoStrings CoreErrors.
From Stdlib Require Import Ascii String Sorted.
Open Scope string_scope.
Open Scope Z_scope.

Abbreviation Bytes := (list Z).

(** ** Big-endian integers *)

(** [binary.BigEndian.PutUint64] (for n = 8) and [Uint64]. *)
Fixpoint be_bytes (n : nat) (v : Z) : Bytes :=
  match n with
  | O => []
  | S m => (v / 256 ^ Z.of_nat m) mod 256 :: be_bytes m v
  end.

Definition be_val (l : Bytes) : Z := fold_left (fun acc b => acc * 256 + b) l 0.

Definition u64 (v : Z) : Prop := 0 <= v < 2 ^ 64.

(** ** Keys *)

Definition PrefixSPOg : Z := 16.
Definition PrefixPOSg : Z := 17.
Definition PrefixPSOg : Z := 18.
Definition PrefixGSPO : Z := 19.
Definition PrefixSystem : Z := 255.
Definition KeyFactCount : Bytes := [PrefixSystem; 1].

Definition Quad4 : Type := Z * Z * Z * Z.   (* S, P, O, G *)

(** The order of the components under each index. *)
Definition key_order (prefix : Z) (q : Quad4) : option (list Z) :=
  let '(s, p, o, g) := q in
  if prefix =? PrefixSPOg then Some [s; p; o; g]
  else if prefix =? PrefixPOSg then Some [p; o; s; g]
  else if prefix =? PrefixPSOg then Some [p; s; o; g]
  else if prefix =? PrefixGSPO then Some [g; s; p; o]
  else None.

(** [None] is the panic on an unknown prefix. *)
Definition EncodeQuadKey (prefix : Z) (q : Quad4) : option Bytes :=
  (fun fields => prefix :: mjoin (map (be_bytes 8) fields)) <$> key_order prefix q.

Definition field (i : nat) (key : Bytes) : Z := be_val (take 8 (drop (1 + 8 * i) key)).

Definition DecodeQuadKey (key : Bytes) : res error Quad4 :=
  if negb (Nat.eqb (List.length key) 33)
  then Err (EText ("invalid quad key length: got " +:+ pretty (Z.of_nat (List.length key)) +:+ ", want 33"))
  else
    let prefix := default 0 (head key) in
    let '(a, b, c, d) := (field 0 key, field 1 key, field 2 key, field 3 key) in
    if prefix =? PrefixSPOg then Ok (a, b, c, d)
    else if prefix =? PrefixPOSg then Ok (c, a, b, d)
    else if prefix =? PrefixPSOg then Ok (b, a, c, d)
    else if prefix =? PrefixGSPO then Ok (b, c, d, a)
    else Err (EText "invalid quad prefix").

Definition quad64 (q : Quad4) : Prop := let '(s, p, o, g) := q in u64 s /\ u64 p /\ u64 o /\ u64 g.

(** ** The key-value store *)

(** Byte-wise lexicographic order of keys. *)
Fixpoint lex (a b : Bytes) : bool :=
  match a, b with
  | _, [] => false
  | [], _ :: _ => true
  | x :: a', y :: b' => (x <? y) || ((x =? y) && lex a' b')
  end.

Class KV (D : Type) := {
  kv_get : D -> Bytes -> option Bytes;
  kv_set : Bytes -> Bytes -> D -> D;
  kv_keys : D -> list Bytes          (* in iteration order *)
}.

Class KVLaws (D : Type) `{KV D} := {
  get_set d k v k' : kv_get (kv_set k v d) k' = if decide (k = k') then Some v else kv_get d k';
  keys_spec d k : k ∈ kv_keys d <-> is_Some (kv_get d k);
  keys_sorted d : StronglySorted (fun a b => lex a b = true) (kv_keys d)
}.

Record Store (D : Type) := { st_db : D; st_numFacts : Z }.
Arguments st_db {D} _.
Arguments st_numFacts {D} _.

Definition prefixes : list Z := [PrefixSPOg; PrefixPOSg; PrefixPSOg; PrefixGSPO].

Section Store.
Context {D : Type} `{KV D}.

(** [initializeCounters]. *)
Definition open_store (db : D) : Store D :=
  {| st_db := db;
     st_numFacts := match kv_get db KeyFactCount with
                    | Some v => if Nat.eqb (List.length v) 8 then be_val v else 0
                    | None => 0
                    end |}.

(** Write the four index entries of a quad. *)
Definition set_indexes (q : Quad4) (db : D) : D :=
  fold_left (fun d prefix => match EncodeQuadKey prefix q with
                             | Some k => kv_set k [] d
                             | None => d
                             end) prefixes db.

Definition has_quad (db : D) (q : Quad4) : bool :=
  match EncodeQuadKey PrefixSPOg q with
  | Some k => match kv_get db k with Some _ => true | None => false end
  | None => false
  end.

Definition add_u64 (a b : Z) : Z := (a + b) mod 2 ^ 64.

(** [AddFact]; [commit] is the outcome of the transaction's commit.  The
    in-memory counter is moved inside the transaction closure. *)
Definition AddFact (commit : option error) (q : Quad4) (s : Store D) : Store D * option error :=
  let isNew := negb (has_quad (st_db s) q) in
  let num := if isNew then add_u64 (st_numFacts s) 1 else st_numFacts s in
  let db := set_indexes q (st_db s) in
  let db' := if isNew then kv_set KeyFactCount (be_bytes 8 num) db else db in
  match commit with
  | Some e => ({| st_db := st_db s; st_numFacts := num |}, Some e)
  | None => ({| st_db := db'; st_numFacts := num |}, None)
  end.

(** The pre-scan of [AddFacts]: distinct quads of the batch in order, and how
    many the store does not hold. *)
Fixpoint prescan (db : D) (seen : list Quad4) (quads : list Quad4) : list Quad4 * Z :=
  match quads with
  | [] => (seen, 0)
  | q :: rest =>
      if decide (q ∈ seen) then prescan db seen rest
      else let '(set, n) := prescan db (seen ++ [q]) rest in
           (set, if has_quad db q then n else n + 1)
  end.

(** [AddFacts]; a failing flush may have written part of the batch:
    [partial] is the database it leaves. *)
Definition AddFacts (flush : option (error * D)) (quads : list Quad4) (s : Store D)
  : Store D * option error :=
  match quads with
  | [] => (s, None)
  | _ =>
      let '(set, newCount) := prescan (st_db s) [] quads in
      let db := fold_left (fun d q => set_indexes q d) set (st_db s) in
      let num := if 0 <? newCount then add_u64 (st_numFacts s) newCount else st_numFacts s in
      let db' := if 0 <? newCount then kv_set KeyFactCount (be_bytes 8 num) db else db in
      match flush with
      | Some (e, partial) => ({| st_db := partial; st_numFacts := num |}, Some (EWrap "failed to flush batch: " e))
      | None => ({| st_db := db'; st_numFacts := num |}, None)
      end
  end.

(** The iteration of [Scan]: the tuples handed to the callback. *)
Fixpoint scan_keys (limit count : Z) (fn : Quad4 -> bool) (keys : list Bytes) : list Quad4 :=
  match keys with
  | [] => []
  | k :: rest =>
      match DecodeQuadKey k with
      | Err _ => scan_keys limit count fn rest
      | Ok q =>
          if negb (fn q) then [q]
          else if (0 <? limit) && (limit <=? count + 1) then [q]
          else q :: scan_keys limit (count + 1) fn rest
      end
  end.

Definition Scan (prefix : Z) (seekKey : Bytes) (limit : Z) (fn : Quad4 -> bool) (s : Store D) : list Quad4 :=
  scan_keys limit 0 fn
    (List.filter (fun k => (match head k with Some p => p =? prefix | None => false end)
                           && negb (lex k seekKey)) (kv_keys (st_db s))).
End Store.

(** ** Lemmas on bytes *)

Lemma be_bytes_length n v : List.length (be_bytes n v) = n.
Proof. induction n; simpl; congruence. Qed.

Lemma be_val_acc l acc : fold_left (fun a b => a * 256 + b) l acc = acc * 256 ^ Z.of_nat (List.length l) + be_val l.
Proof.
  unfold be_val. revert acc. induction l as [|b l IH]; intros acc; [simpl; lia|].
  cbn [fold_left List.length]. rewrite (IH (acc * 256 + b)), (IH (0 * 256 + b)).
  rewrite Nat2Z.inj_succ, Z.pow_succ_r by lia. lia.
Qed.

Lemma be_val_bytes n v : be_val (be_bytes n v) = v mod 256 ^ Z.of_nat n.
Proof.
  induction n as [|n IH]; [simpl; by rewrite Z.mod_1_r|].
  cbn [be_bytes]. unfold be_val in *. cbn [fold_left]. rewrite be_val_acc, be_bytes_length. unfold be_val. rewrite IH.
  rewrite Nat2Z.inj_succ, Z.pow_succ_r by lia.
  rewrite (Z.mul_comm 256), Z.rem_mul_r by lia. lia.
Qed.

Lemma be_val_u64 v : u64 v -> be_val (be_bytes 8 v) = v.
Proof. intros Hv. rewrite be_val_bytes. change (256 ^ Z.of_nat 8) with (2 ^ 64). by apply Z.mod_small. Qed.

Lemma lex_irrefl a : lex a a = false.
Proof. induction a; simpl; [done|]. rewrite Z.ltb_irrefl, Z.eqb_refl. done. Qed.

Lemma lex_app a a' b b' :
  List.length a = List.length a' ->
  lex (a ++ b) (a' ++ b') = lex a a' || (bool_decide (a = a') && lex b b').
Proof.
  revert a'. induction a as [|x a IH]; intros [|y a'] Hl; simplify_eq/=; [done|].
  rewrite IH by done. destruct (Z.ltb_spec x y); simpl; [done|].
  destruct (Z.eqb_spec x y) as [->|Hne]; simpl.
  - f_equal. f_equal. apply bool_decide_ext. naive_solver.
  - rewrite bool_decide_eq_false_2 by congruence. done.
Qed.

Lemma be_bytes_inj n v w :
  0 <= v < 256 ^ Z.of_nat n -> 0 <= w < 256 ^ Z.of_nat n -> be_bytes n v = be_bytes n w -> v = w.
Proof.
  intros Hv Hw E. apply (f_equal be_val) in E. rewrite !be_val_bytes, !Z.mod_small in E by done. done.
Qed.

Lemma be_bytes_mod n v : be_bytes n (v mod 256 ^ Z.of_nat n) = be_bytes n v.
Proof.
  assert (forall m, (m <= n)%nat -> be_bytes m (v mod 256 ^ Z.of_nat n) = be_bytes m v) as Hm; [|by apply Hm].
  induction m as [|m IH]; intros Hle; [done|]. cbn [be_bytes]. rewrite IH by lia. f_equal.
  replace (Z.of_nat n) with (Z.of_nat m + 1 + (Z.of_nat n - Z.of_nat m - 1)) by lia.
  rewrite !Z.pow_add_r by lia. change (256 ^ 1) with 256.
  set (k := 256 ^ (Z.of_nat n - Z.of_nat m - 1)).
  assert (0 < k) by (apply Z.pow_pos_nonneg; lia).
  assert (0 < 256 ^ Z.of_nat m) by (apply Z.pow_pos_nonneg; lia).
  rewrite <- Z.mul_assoc, Z.rem_mul_r by lia.
  rewrite (Z.add_comm (v mod _)), (Z.mul_comm (256 ^ _)), Z.div_add_l by lia.
  rewrite (Z.div_small (v mod _)) by (apply Z.mod_pos_bound; lia).
  rewrite Z.add_0_r, Z.rem_mul_r by lia.
  rewrite (Z.mul_comm 256), Z.mod_add by lia. by rewrite Z.mod_mod.
Qed.

(** Big-endian bytes compare like the numbers. *)
Lemma lex_be_bytes n v w :
  0 <= v < 256 ^ Z.of_nat n -> 0 <= w < 256 ^ Z.of_nat n ->
  lex (be_bytes n v) (be_bytes n w) = (v <? w).
Proof.
  revert v w. induction n as [|n IH]; intros v w Hv Hw.
  { simpl in *. symmetry. apply Z.ltb_ge. lia. }
  cbn [be_bytes lex].
  assert (0 < 256 ^ Z.of_nat n) as Hk by (apply Z.pow_pos_nonneg; lia).
  rewrite Nat2Z.inj_succ, Z.pow_succ_r in Hv, Hw by lia.
  set (k := 256 ^ Z.of_nat n) in *.
  assert (0 <= v / k < 256) by (split; [apply Z.div_pos; lia|apply Z.div_lt_upper_bound; lia]).
  assert (0 <= w / k < 256) by (split; [apply Z.div_pos; lia|apply Z.div_lt_upper_bound; lia]).
  rewrite !(Z.mod_small (_ / k)) by done.
  rewrite <- (be_bytes_mod n v), <- (be_bytes_mod n w). fold k.
  pose proof (Z.mod_pos_bound v k Hk). pose proof (Z.mod_pos_bound w k Hk).
  rewrite IH by done.
  pose proof (Z.div_mod v k ltac:(lia)) as Ev. pose proof (Z.div_mod w k ltac:(lia)) as Ew.
  set (vq := v / k) in *. set (wq := w / k) in *. set (vr := v mod k) in *. set (wr := w mod k) in *.
  clearbody vq wq vr wr. subst v w.
  destruct (Z.ltb_spec vq wq); simpl; [symmetry; apply Z.ltb_lt; nia|].
  destruct (Z.eqb_spec vq wq) as [->|Hne]; simpl.
  - destruct (Z.ltb_spec vr wr), (Z.ltb_spec (k * wq + vr) (k * wq + wr)); nia.
  - symmetry. apply Z.ltb_ge. nia.
Qed.

(** ** Keys: round trip, order, disjointness *)

Lemma key_order_some prefix q : prefix ∈ prefixes -> exists a b c d, key_order prefix q = Some [a; b; c; d].
Proof.
  destruct q as [[[s p] o] g]. unfold prefixes. rewrite !elem_of_cons, elem_of_nil.
  intros [->|[->|[->|[->|[]]]]]; simpl; eauto.
Qed.

Lemma decode_fields prefix a b c d :
  u64 a -> u64 b -> u64 c -> u64 d ->
  let key := prefix :: mjoin (map (be_bytes 8) [a; b; c; d]) in
  List.length key = 33%nat /\ field 0 key = a /\ field 1 key = b /\ field 2 key = c /\ field 3 key = d.
Proof.
  intros Ha Hb Hc Hd. split; [done|].
  split_and!; [rewrite <- (be_val_u64 a) at 2 by done | rewrite <- (be_val_u64 b) at 2 by done
              | rewrite <- (be_val_u64 c) at 2 by done | rewrite <- (be_val_u64 d) at 2 by done]; reflexivity.
Qed.

Lemma encode_decode prefix q :
  prefix ∈ prefixes -> quad64 q ->
  exists k, EncodeQuadKey prefix q = Some k /\ List.length k = 33%nat /\ head k = Some prefix /\
            DecodeQuadKey k = Ok q.
Proof.
  destruct q as [[[s p] o] g]. unfold prefixes. rewrite !elem_of_cons, elem_of_nil.
  intros Hp (Hs & Hpp & Ho & Hg).
  destruct Hp as [->|[->|[->|[->|[]]]]]; eexists; (split; [reflexivity|]);
    match goal with |- List.length (?pfx :: mjoin (map _ [?a; ?b; ?c; ?d])) = _ /\ _ =>
      destruct (decode_fields pfx a b c d) as (H0 & H1 & H2 & H3 & H4); [done..|] end;
    (split; [done|]); (split; [done|]); unfold DecodeQuadKey; rewrite H0, H1, H2, H3, H4; reflexivity.
Qed.

Lemma encode_inj prefix prefix' q q' k :
  prefix ∈ prefixes -> prefix' ∈ prefixes -> quad64 q -> quad64 q' ->
  EncodeQuadKey prefix q = Some k -> EncodeQuadKey prefix' q' = Some k -> prefix = prefix' /\ q = q'.
Proof.
  intros Hp Hp' Hq Hq' E E'.
  destruct (encode_decode prefix q Hp Hq) as (k1 & E1 & _ & H1 & D1).
  destruct (encode_decode prefix' q' Hp' Hq') as (k2 & E2 & _ & H2 & D2).
  assert (k1 = k) as -> by congruence. assert (k2 = k) as -> by congruence. split; congruence.
Qed.

Lemma lex_fields l l' :
  List.length l = List.length l' -> Forall u64 l -> Forall u64 l' ->
  lex (mjoin (map (be_bytes 8) l)) (mjoin (map (be_bytes 8) l')) = lex l l'.
Proof.
  revert l'. induction l as [|x l IH]; intros [|y l'] Hlen Hf Hf'; try done.
  injection Hlen as Hlen.
  change (mjoin (map (be_bytes 8) (x :: l))) with (be_bytes 8 x ++ mjoin (map (be_bytes 8) l))%list.
  change (mjoin (map (be_bytes 8) (y :: l'))) with (be_bytes 8 y ++ mjoin (map (be_bytes 8) l'))%list.
  cbn [lex]. inversion_clear Hf as [|? ? Hx Hl]. inversion_clear Hf' as [|? ? Hy Hl'].
  pose proof Hx as Hx'. pose proof Hy as Hy'. unfold u64 in Hx', Hy'.
  rewrite lex_app by (by rewrite !be_bytes_length). rewrite lex_be_bytes by done. rewrite IH by done.
  f_equal. f_equal. destruct (Z.eqb_spec x y) as [->|Hne]; [by apply bool_decide_eq_true_2|].
  apply bool_decide_eq_false_2. intros E. by apply be_bytes_inj in E.
Qed.

Lemma key_order_u64 prefix q l : quad64 q -> key_order prefix q = Some l -> Forall u64 l /\ List.length l = 4%nat.
Proof.
  destruct q as [[[s p] o] g]. intros (? & ? & ? & ?). unfold key_order.
  repeat case_match; intros; simplify_eq; (split; [|done]);
    repeat (apply Forall_cons_2; [done|]); apply Forall_nil_2.
Qed.

Lemma encode_not_count prefix q k : prefix ∈ prefixes -> EncodeQuadKey prefix q = Some k -> k <> KeyFactCount.
Proof.
  unfold EncodeQuadKey. intros Hp (l & Hl & ->)%fmap_Some [= -> _].
  unfold prefixes in Hp. rewrite !elem_of_cons, elem_of_nil in Hp. naive_solver.
Qed.

(** The index keys round-trip: for every index and every quad of 64-bit
    ids, encoding gives a 33-byte key that starts with the index byte and
    decodes back to the quad. *)
Theorem quad_key_roundtrip (prefix : Z) (q : Quad4) :
  prefix ∈ prefixes -> quad64 q ->
  exists k, EncodeQuadKey prefix q = Some k /\ List.length k = 33%nat /\ head k = Some prefix /\
            DecodeQuadKey k = Ok q.
Proof. apply encode_decode. Qed.

(** Keys sort like quads: within an index, the byte order of two keys is
    the numeric lexicographic order of the quads' components in the order of
    that index, so a range of the store is a range of ids. *)
Theorem quad_key_order (prefix : Z) (q q' : Quad4) (k k' : Bytes) (l l' : list Z) :
  prefix ∈ prefixes -> quad64 q -> quad64 q' ->
  EncodeQuadKey prefix q = Some k -> EncodeQuadKey prefix q' = Some k' ->
  key_order prefix q = Some l -> key_order prefix q' = Some l' ->
  lex k k' = lex l l'.
Proof.
  unfold EncodeQuadKey. intros Hp Hq Hq' E E' Hl Hl'. rewrite Hl in E. rewrite Hl' in E'.
  injection E as <-. injection E' as <-.
  destruct (key_order_u64 _ _ _ Hq Hl), (key_order_u64 _ _ _ Hq' Hl').
  cbn [lex]. rewrite Z.ltb_irrefl, Z.eqb_refl. simpl. apply lex_fields; congruence || done.
Qed.

(** ** The store as a set of quads *)

Section Refinement.
Context {D : Type} `{KVLaws D}.

(** [s] represents the set [Q]: all four indexes hold exactly the quads of
    [Q], the counter is their number and the persisted count agrees. *)
Definition indexed (db : D) (Q : gset Quad4) : Prop :=
  forall prefix q k, prefix ∈ prefixes -> quad64 q -> EncodeQuadKey prefix q = Some k ->
    (is_Some (kv_get db k) <-> q ∈ Q).

Definition counted (db : D) (n : Z) : Prop :=
  kv_get db KeyFactCount = if 0 <? n then Some (be_bytes 8 n) else None.

Record rep (s : Store D) (Q : gset Quad4) : Prop := {
  rep_quads : forall q, q ∈ Q -> quad64 q;
  rep_index : indexed (st_db s) Q;
  rep_num : st_numFacts s = Z.of_nat (size Q);
  rep_count : counted (st_db s) (st_numFacts s);
  (* nothing but index entries and the counter *)
  rep_keys : forall k, is_Some (kv_get (st_db s) k) -> k = KeyFactCount \/
    exists prefix q, prefix ∈ prefixes /\ q ∈ Q /\ EncodeQuadKey prefix q = Some k
}.

(** [k] is one of the index keys of [q]. *)
Definition index_key (q : Quad4) (k : Bytes) : Prop :=
  Exists (fun prefix => EncodeQuadKey prefix q = Some k) prefixes.

Lemma index_key_spec q k : index_key q k <-> exists prefix, prefix ∈ prefixes /\ EncodeQuadKey prefix q = Some k.
Proof. unfold index_key. rewrite Exists_exists. done. Qed.

Lemma get_set_keys q k l d :
  kv_get (fold_left (fun d prefix => match EncodeQuadKey prefix q with
                                     | Some k => kv_set k [] d | None => d end) l d) k
  = if decide (Exists (fun prefix => EncodeQuadKey prefix q = Some k) l) then Some [] else kv_get d k.
Proof.
  revert d. induction l as [|p l IH]; intros d; cbn [fold_left].
  - destruct (decide _) as [Hn|]; [by apply Exists_nil in Hn|done].
  - rewrite IH. destruct (decide (Exists _ l)) as [Hl|Hl].
    + rewrite decide_True by (rewrite Exists_cons; auto). done.
    + destruct (EncodeQuadKey p q) as [k'|] eqn:E; [rewrite get_set; case_decide as Hk; [subst|]|].
      * rewrite decide_True by (rewrite Exists_cons; auto). done.
      * rewrite decide_False by (rewrite Exists_cons; naive_solver). done.
      * rewrite decide_False by (rewrite Exists_cons; naive_solver). done.
Qed.

Lemma get_set_indexes q db k :
  (index_key q k /\ kv_get (set_indexes q db) k = Some []) \/
  (~ index_key q k /\ kv_get (set_indexes q db) k = kv_get db k).
Proof. unfold set_indexes. rewrite get_set_keys. unfold index_key. destruct (decide _); auto. Qed.

Lemma indexed_set q db Q : quad64 q -> indexed db Q -> indexed (set_indexes q db) ({[q]} ∪ Q).
Proof.
  intros Hq Hi prefix q' k Hp Hq' Hk. rewrite elem_of_union, elem_of_singleton.
  destruct (get_set_indexes q db k) as [[Hex ->]|[Hex ->]]; rewrite index_key_spec in Hex.
  - destruct Hex as (p & Hp' & Hk'). destruct (encode_inj p prefix q q' k) as [-> ->]; try done. naive_solver.
  - rewrite (Hi prefix q' k) by done. split; [auto|]. intros [->|]; [|done]. naive_solver.
Qed.

Lemma has_quad_spec db Q q : quad64 q -> indexed db Q -> has_quad db q = true <-> q ∈ Q.
Proof.
  intros Hq Hi. unfold has_quad.
  destruct (encode_decode PrefixSPOg q) as (k & Hk & _); [set_solver|done|]. rewrite Hk.
  rewrite <- (Hi PrefixSPOg q k) by (done || set_solver). destruct (kv_get db k); split; naive_solver.
Qed.

Lemma get_count_set_indexes q db : kv_get (set_indexes q db) KeyFactCount = kv_get db KeyFactCount.
Proof.
  destruct (get_set_indexes q db KeyFactCount) as [[Hex _]|[_ ->]]; [|done].
  apply index_key_spec in Hex as (p & Hp & Hk). by apply encode_not_count in Hk.
Qed.

Lemma indexed_count db Q v : indexed db Q -> indexed (kv_set KeyFactCount v db) Q.
Proof.
  intros Hi prefix q k Hp Hq Hk. rewrite get_set, decide_False; [by eapply Hi|].
  intros <-. by apply encode_not_count in Hk.
Qed.

Definition only_quads (db : D) (Q : gset Quad4) : Prop :=
  forall k, is_Some (kv_get db k) -> k = KeyFactCount \/
    exists prefix q, prefix ∈ prefixes /\ q ∈ Q /\ EncodeQuadKey prefix q = Some k.

Lemma only_quads_set q db Q : only_quads db Q -> only_quads (set_indexes q db) ({[q]} ∪ Q).
Proof.
  intros Ho k. destruct (get_set_indexes q db k) as [[Hex ->]|[Hex ->]].
  - apply index_key_spec in Hex as (p & Hp & Hk). intros _. right. exists p, q. set_solver.
  - intros Hk. destruct (Ho k Hk) as [->|(p & q' & ? & ? & ?)]; [by left|right; exists p, q'; set_solver].
Qed.

Lemma only_quads_count db Q v : only_quads db Q -> only_quads (kv_set KeyFactCount v db) Q.
Proof. intros Ho k. rewrite get_set. case_decide; [by left|]. apply Ho. Qed.

Lemma AddFact_rep q s Q :
  quad64 q -> rep s Q -> Z.of_nat (size Q) < 2 ^ 64 - 1 ->
  rep (fst (AddFact None q s)) ({[q]} ∪ Q).
Proof.
  intros Hq [R1 R2 R3 R4 R5] Hsz. unfold AddFact.
  pose proof (has_quad_spec (st_db s) Q q Hq R2) as Hh.
  destruct (has_quad (st_db s) q); cbn [negb fst].
  - assert (q ∈ Q) as Hin by tauto. assert ({[q]} ∪ Q = Q) as E by set_solver.
    split; simpl; rewrite ?E; try done.
    + rewrite <- E. by apply indexed_set.
    + unfold counted in *. by rewrite get_count_set_indexes.
    + rewrite <- E. by apply only_quads_set.
  - assert (q ∉ Q) as Hnin by naive_solver.
    unfold add_u64. rewrite R3, Z.mod_small by lia. split; cbn [st_db st_numFacts].
    + set_solver.
    + apply indexed_count. by apply indexed_set.
    + rewrite size_union, size_singleton by set_solver. lia.
    + unfold counted. rewrite get_set, decide_True by done. destruct (Z.ltb_spec 0 (Z.of_nat (size Q) + 1)); [done|lia].
    + apply only_quads_count. by apply only_quads_set.
Qed.

Lemma size_split (q : Quad4) (X Y : gset Quad4) : q ∉ Y -> X = {[q]} ∪ Y -> size X = S (size Y).
Proof. intros Hq ->. rewrite size_union, size_singleton by set_solver. lia. Qed.

Lemma prescan_spec db Q seen quads :
  indexed db Q -> Forall quad64 quads -> NoDup seen ->
  let '(set, n) := prescan db seen quads in
  NoDup set /\ (list_to_set set : gset Quad4) = list_to_set seen ∪ list_to_set quads /\
  n = Z.of_nat (size ((list_to_set quads : gset Quad4) ∖ Q ∖ list_to_set seen)).
Proof.
  intros Hi. revert seen. induction quads as [|q quads IH]; intros seen Hf Hnd; simpl.
  { split_and!; [done|set_solver|]. symmetry. apply (f_equal Z.of_nat (y := 0%nat)), size_empty_iff. set_solver. }
  inversion_clear Hf as [|? ? Hq Hqs]. case_decide as Hin.
  - specialize (IH seen Hqs Hnd). destruct (prescan db seen quads) as [set n].
    destruct IH as (I1 & I2 & ->). split_and!; [done|set_solver|]. f_equal. f_equal. set_solver.
  - assert (NoDup (seen ++ [q])) as Hnd'.
    { apply NoDup_app. split_and!; [done|set_solver|apply NoDup_singleton]. }
    specialize (IH (seen ++ [q])%list Hqs Hnd'). destruct (prescan db (seen ++ [q]) quads) as [set n].
    destruct IH as (I1 & I2 & ->). rewrite list_to_set_app_L in *. simpl in *.
    split_and!; [done|set_solver|].
    pose proof (has_quad_spec db Q q Hq Hi) as Hh. destruct (has_quad db q).
    + f_equal. f_equal. assert (q ∈ Q) by tauto. set_solver.
    + assert (q ∉ Q) by naive_solver.
      rewrite (size_split q (({[q]} ∪ list_to_set quads) ∖ Q ∖ list_to_set seen)
                 (list_to_set quads ∖ Q ∖ (list_to_set seen ∪ ({[q]} ∪ ∅)))); [lia|set_solver|].
      apply set_eq; intros x; destruct (decide (x = q)); set_solver.
Qed.

Lemma set_all_spec quads db Q :
  Forall quad64 quads -> indexed db Q -> only_quads db Q ->
  let db' := fold_left (fun d q => set_indexes q d) quads db in
  indexed db' (list_to_set quads ∪ Q) /\ only_quads db' (list_to_set quads ∪ Q) /\
  kv_get db' KeyFactCount = kv_get db KeyFactCount.
Proof.
  revert db Q. induction quads as [|q quads IH]; intros db Q Hf Hi Ho; simpl.
  { by rewrite union_empty_l_L. }
  inversion_clear Hf as [|? ? Hq Hqs].
  destruct (IH (set_indexes q db) ({[q]} ∪ Q) Hqs) as (I1 & I2 & I3);
    [by apply indexed_set|by apply only_quads_set|].
  rewrite I3, get_count_set_indexes.
  by replace ({[q]} ∪ list_to_set quads ∪ Q) with (list_to_set quads ∪ ({[q]} ∪ Q)) by set_solver.
Qed.

Lemma prescan_quad64 db seen quads :
  Forall quad64 seen -> Forall quad64 quads -> Forall quad64 (fst (prescan db seen quads)).
Proof.
  revert seen. induction quads as [|q quads IH]; intros seen Hs Hf; simpl; [done|].
  inversion_clear Hf. case_decide; [auto|].
  specialize (IH (seen ++ [q])%list). destruct (prescan db (seen ++ [q]) quads). apply IH; [|done].
  apply Forall_app. auto.
Qed.

Lemma AddFacts_rep quads s Q :
  Forall quad64 quads -> rep s Q -> Z.of_nat (size (list_to_set quads ∪ Q)) < 2 ^ 64 ->
  rep (fst (AddFacts None quads s)) (list_to_set quads ∪ Q).
Proof.
  intros Hf [R1 R2 R3 R4 R5] Hsz. unfold AddFacts.
  destruct quads as [|q0 rest] eqn:Hq; [rewrite list_to_set_nil, union_empty_l_L; by split|].
  rewrite <- Hq in *. clear Hq q0 rest.
  pose proof (prescan_spec (st_db s) Q [] quads R2 Hf ltac:(constructor)) as Hp.
  pose proof (prescan_quad64 (st_db s) [] quads ltac:(done) Hf) as Hs64.
  destruct (prescan (st_db s) [] quads) as [set n]. simpl in Hs64. destruct Hp as (P1 & P2 & Hn).
  rewrite list_to_set_nil, union_empty_l_L in P2. rewrite list_to_set_nil, difference_empty_L in Hn.
  destruct (set_all_spec set (st_db s) Q Hs64 R2 R5) as (A1 & A2 & A3). rewrite P2 in A1, A2.
  assert (size (list_to_set quads ∪ Q) = (size Q + size ((list_to_set quads : gset Quad4) ∖ Q))%nat) as Hsize.
  { rewrite <- size_union by set_solver. f_equal. apply set_eq. intros x. destruct (decide (x ∈ Q)); set_solver. }
  assert (forall q, q ∈ list_to_set quads ∪ Q -> quad64 q) as Hall.
  { intros q [Hin%elem_of_list_to_set|Hin]%elem_of_union; [|auto]. rewrite Forall_forall in Hf. auto. }
  destruct (Z.ltb_spec 0 n) as [Hpos|Hz]; split; cbn [fst st_db st_numFacts]; try done.
  - by apply indexed_count.
  - unfold add_u64. rewrite R3, Hn, Z.mod_small by lia. lia.
  - unfold counted, add_u64. rewrite R3, Z.mod_small by lia. rewrite get_set, decide_True by done.
    destruct (Z.ltb_spec 0 (Z.of_nat (size Q) + n)); [done|lia].
  - by apply only_quads_count.
  - lia.
  - unfold counted in *. by rewrite A3.
Qed.
End Refinement.

(** ** Scans *)

Section Scan.
Context {D : Type} `{KVLaws D}.

(** The keys a full scan of an index visits. *)
Definition index_keys (prefix : Z) (s : Store D) : list Bytes :=
  List.filter (fun k => (match head k with Some p => p =? prefix | None => false end)
                        && negb (lex k [prefix])) (kv_keys (st_db s)).

Definition key_of (prefix : Z) (k : Bytes) (q : Quad4) : Prop :=
  EncodeQuadKey prefix q = Some k /\ DecodeQuadKey k = Ok q.

Lemma index_keys_spec prefix s Q k :
  prefix ∈ prefixes -> rep s Q -> k ∈ index_keys prefix s <-> exists q, q ∈ Q /\ key_of prefix k q.
Proof.
  intros Hp [R1 R2 _ _ R5]. unfold index_keys.
  rewrite list_elem_of_In, filter_In, <- list_elem_of_In, keys_spec, andb_true_iff, negb_true_iff. split.
  - intros (Hk & Hh & _). destruct (R5 k Hk) as [->|(p & q & Hp' & Hq & E)].
    { unfold prefixes in Hp. rewrite !elem_of_cons, elem_of_nil in Hp.
      apply Z.eqb_eq in Hh. unfold PrefixSystem in Hh. naive_solver. }
    destruct (encode_decode p q Hp' (R1 q Hq)) as (k' & E' & _ & Hhd & Hd). simplify_eq.
    rewrite Hhd in Hh. apply Z.eqb_eq in Hh. subst p. exists q. by split.
  - intros (q & Hq & E & Hd). destruct (encode_decode prefix q Hp (R1 q Hq)) as (k' & E' & _ & Hhd & _).
    assert (k' = k) as -> by congruence. split; [by apply (R2 prefix q k Hp (R1 q Hq) E)|].
    destruct k as [|x k]; [done|]. simpl in Hhd. simplify_eq.
    cbn [head hd_error lex]. rewrite Z.eqb_refl, Z.ltb_irrefl. by destruct k.
Qed.

Lemma scan_all (keys : list Bytes) c :
  scan_keys 0 c (fun _ => true) keys = omap (fun k => match DecodeQuadKey k with Ok q => Some q | Err _ => None end) keys.
Proof.
  revert c. induction keys as [|k keys IH]; intros c; [done|]. cbn [scan_keys omap list_omap].
  destruct (DecodeQuadKey k); simpl; rewrite IH; done.
Qed.

Lemma keys_to_quads (prefix : Z) (keys : list Bytes) (P : gset Quad4) :
  StronglySorted (fun a b => lex a b = true) keys ->
  (forall k : Bytes, k ∈ keys -> exists q : Quad4, q ∈ P /\ key_of prefix k q) ->
  exists qs : list Quad4, omap (fun k => match DecodeQuadKey k with Ok q => Some q | Err _ => None end) keys = qs /\
    Forall2 (key_of prefix) keys qs /\ Forall (.∈ P) qs /\
    StronglySorted (fun q q' => forall k k', EncodeQuadKey prefix q = Some k -> EncodeQuadKey prefix q' = Some k' ->
                                 lex k k' = true) qs.
Proof.
  intros Hs. induction Hs as [|k keys Hs IH Hlt]; intros Hk.
  { exists []. split; [done|]. split; [constructor|]. split; constructor. }
  destruct IH as (qs & Ho & Hf & HP & Hss); [set_solver|].
  destruct (Hk k ltac:(set_solver)) as (q & Hq & E & Hd).
  exists (q :: qs). cbn [omap list_omap]. rewrite Hd. split; [by rewrite <- Ho|].
  split; [by constructor|]. split; [by constructor|]. constructor; [done|].
  apply Forall_forall. intros q' Hq' k1 k2 E1 E2. simplify_eq.
  apply list_elem_of_lookup in Hq' as [i Hi].
  destruct (Forall2_lookup_r _ _ _ _ _ Hf Hi) as (k3 & Hk3 & [E3 _]).
  rewrite E2 in E3. simplify_eq. rewrite Forall_forall in Hlt. apply Hlt.
  by eapply list_elem_of_lookup_2.
Qed.
End Scan.

(** C34: [AddFact] refines insertion into a set: a committed insertion takes a
    store that represents a set of quads (all four indexes, the counter and
    the persisted count) to one that represents the set with the quad added,
    duplicates included. *)
Theorem AddFact_refines_insert {D : Type} `{KVLaws D} (q : Quad4) (s : Store D) (Q : gset Quad4) :
  quad64 q -> rep s Q -> Z.of_nat (size Q) < 2 ^ 64 - 1 ->
  rep (fst (AddFact None q s)) ({[q]} ∪ Q) /\ snd (AddFact None q s) = None.
Proof. intros Hq Hr Hs. split; [by apply AddFact_rep|done]. Qed.

(** [AddFacts] refines union: a flushed batch, with duplicates inside the
    batch or with the store, represents the union, and the counter stays
    exact. *)
Theorem AddFacts_refines_union {D : Type} `{KVLaws D} (quads : list Quad4) (s : Store D) (Q : gset Quad4) :
  Forall quad64 quads -> rep s Q -> Z.of_nat (size (list_to_set quads ∪ Q)) < 2 ^ 64 ->
  rep (fst (AddFacts None quads s)) (list_to_set quads ∪ Q).
Proof. apply AddFacts_rep. Qed.

(** A transaction that fails to commit still moves the in-memory counter:
    after [AddFact] of a new quad returns the commit's error, the store holds
    the old facts and reports one more. *)
Theorem AddFact_failed_commit_miscounts {D : Type} `{KVLaws D} (q : Quad4) (s : Store D) (Q : gset Quad4) (e : error) :
  quad64 q -> rep s Q -> q ∉ Q -> Z.of_nat (size Q) < 2 ^ 64 - 1 ->
  let '(s', err) := AddFact (Some e) q s in
  err = Some e /\ st_db s' = st_db s /\ st_numFacts s' = Z.of_nat (size Q) + 1.
Proof.
  intros Hq [_ R2 R3 _ _] Hn Hs. unfold AddFact.
  pose proof (has_quad_spec (st_db s) Q q Hq R2) as Hh. destruct (has_quad (st_db s) q); [tauto|].
  cbn [negb]. split_and!; [done|done|]. cbn [st_numFacts]. unfold add_u64. rewrite R3. apply Z.mod_small. lia.
Qed.

(** A full scan of any index returns exactly the stored quads, each once,
    in ascending key order of that index. *)
Theorem full_scan_enumerates {D : Type} `{KVLaws D} (prefix : Z) (s : Store D) (Q : gset Quad4) :
  prefix ∈ prefixes -> rep s Q ->
  let l := Scan prefix [prefix] 0 (fun _ => true) s in
  (forall q, q ∈ l <-> q ∈ Q) /\
  StronglySorted (fun q q' => forall k k', EncodeQuadKey prefix q = Some k -> EncodeQuadKey prefix q' = Some k' ->
                               lex k k' = true) l.
Proof.
  intros Hp Hr. unfold Scan. fold (index_keys prefix s). rewrite scan_all.
  assert (StronglySorted (fun a b => lex a b = true) (index_keys prefix s)) as Hs.
  { unfold index_keys. generalize (keys_sorted (st_db s)). generalize (kv_keys (st_db s)).
    induction 1 as [|k l Hl IH Hf]; simpl; [constructor|]. case_match; [|done]. constructor; [done|].
    rewrite Forall_forall in *. intros x Hx. apply Hf.
    apply list_elem_of_In, filter_In in Hx as [Hx _]. by apply list_elem_of_In. }
  destruct (keys_to_quads prefix (index_keys prefix s) Q Hs) as (qs & -> & Hf & HP & Hss).
  { intros k Hk. by apply (index_keys_spec prefix s Q k Hp Hr). }
  split; [|done]. intros q. split.
  - intros Hq. rewrite Forall_forall in HP. by apply HP.
  - intros Hq. destruct (encode_decode prefix q Hp (rep_quads _ _ Hr q Hq)) as (k & E & _ & _ & Hd).
    assert (k ∈ index_keys prefix s) as [i Hi]%list_elem_of_lookup by (apply (index_keys_spec prefix s Q k Hp Hr); exists q; by split).
    destruct (Forall2_lookup_l _ _ _ _ _ Hf Hi) as (q' & Hq' & [_ Hd']). rewrite Hd in Hd'. simplify_eq.
    by eapply list_elem_of_lookup_2.
Qed.

(** ** An instance of the key-value interface *)

Definition lex_le (a b : Bytes) : Prop := lex b a = false.

Lemma lex_trans a b c : lex a b = true -> lex b c = true -> lex a c = true.
Proof.
  revert b c. induction a as [|x a IH]; intros [|y b] [|z c]; simpl; try done.
  rewrite !orb_true_iff, !andb_true_iff, !Z.ltb_lt, !Z.eqb_eq.
  intros [?|[-> ?]] [?|[-> ?]]; eauto 6 with lia.
Qed.

Lemma lex_total a b : a <> b -> lex a b = true \/ lex b a = true.
Proof.
  revert b. induction a as [|x a IH]; intros [|y b] Hne; simpl; auto; try done.
  rewrite !orb_true_iff, !andb_true_iff, !Z.ltb_lt, !Z.eqb_eq.
  destruct (Z.lt_trichotomy x y) as [?|[->|?]]; auto. destruct (IH b); [congruence|auto..].
Qed.

#[global] Instance lex_le_dec : RelDecision lex_le.
Proof. intros a b. unfold lex_le. apply _. Defined.
#[global] Instance lex_le_total : Total lex_le.
Proof.
  intros a b. unfold lex_le. destruct (lex b a) eqn:E1, (lex a b) eqn:E2; auto.
  pose proof (lex_trans _ _ _ E1 E2) as Ht. by rewrite lex_irrefl in Ht.
Qed.
#[global] Instance lex_le_trans : Transitive lex_le.
Proof.
  intros a b c H1 H2. unfold lex_le in *. destruct (lex c a) eqn:E; [|done].
  destruct (decide (a = b)) as [->|Hne]; [congruence|].
  destruct (lex_total a b Hne) as [Hab|Hba]; [|congruence].
  pose proof (lex_trans _ _ _ E Hab). congruence.
Qed.

#[global] Instance map_kv : KV (gmap Bytes Bytes) := {|
  kv_get d k := d !! k;
  kv_set k v d := <[k := v]> d;
  kv_keys d := merge_sort lex_le (map fst (map_to_list d))
|}.

#[global] Instance map_kv_laws : KVLaws (gmap Bytes Bytes).
Proof.
  split; simpl.
  - intros d k v k'. case_decide; [subst; by rewrite lookup_insert_eq|by rewrite lookup_insert_ne].
  - intros d k. rewrite (merge_sort_Permutation lex_le), list_elem_of_fmap. split.
    + intros ([k' v] & -> & Hin%elem_of_map_to_list). eauto.
    + intros [v Hv%elem_of_map_to_list]. by exists (k, v).
  - intros d. assert (NoDup (merge_sort lex_le (map fst (map_to_list d)))) as Hnd.
    { rewrite (merge_sort_Permutation lex_le). apply NoDup_fst_map_to_list. }
    pose proof (StronglySorted_merge_sort lex_le (map fst (map_to_list d))) as Hs.
    revert Hnd Hs. generalize (merge_sort lex_le (map fst (map_to_list d))).
    induction 2 as [|k l Hl IH Hf]; [constructor|]. inversion_clear Hnd as [|? ? Hk Hnd']. constructor; [auto|].
    rewrite Forall_forall in *. intros x Hx. specialize (Hf x Hx). unfold lex_le in Hf.
    destruct (lex_total k x) as [?|?]; [set_solver|done|congruence].
Qed.

(** ** Witnesses *)

Definition empty_store : Store (gmap Bytes Bytes) := open_store ∅.

Lemma empty_rep : rep empty_store ∅.
Proof.
  split; simpl; try done.
  - intros p q k _ _ _. split; [by intros [? ?]|set_solver].
  - intros k [? ?]. done.
Qed.

Lemma quad_key_roundtrip_witness :
  exists k, EncodeQuadKey PrefixPOSg (1, 2, 3, 4) = Some k /\ List.length k = 33%nat /\
            head k = Some PrefixPOSg /\ DecodeQuadKey k = Ok (1, 2, 3, 4).
Proof. apply (quad_key_roundtrip PrefixPOSg (1, 2, 3, 4)); [set_solver|by vm_compute]. Defined.

Lemma quad_key_order_witness :
  lex (default [] (EncodeQuadKey PrefixSPOg (1, 2, 3, 4))) (default [] (EncodeQuadKey PrefixSPOg (1, 2, 3, 500)))
  = lex [1; 2; 3; 4] [1; 2; 3; 500].
Proof.
  apply (quad_key_order PrefixSPOg (1, 2, 3, 4) (1, 2, 3, 500)); [set_solver|by vm_compute|by vm_compute|done..].
Defined.

Lemma AddFact_refines_insert_witness :
  rep (fst (AddFact None (1, 2, 3, 4) empty_store)) ({[(1, 2, 3, 4)]} ∪ ∅) /\
  snd (AddFact None (1, 2, 3, 4) empty_store) = None.
Proof. apply (AddFact_refines_insert (1, 2, 3, 4) empty_store ∅); [by vm_compute|apply empty_rep|by vm_compute]. Defined.

Lemma AddFacts_refines_union_witness :
  rep (fst (AddFacts None [(1, 2, 3, 4); (1, 2, 3, 4)] empty_store)) (list_to_set [(1, 2, 3, 4); (1, 2, 3, 4)] ∪ ∅).
Proof.
  apply (AddFacts_refines_union [(1, 2, 3, 4); (1, 2, 3, 4)] empty_store ∅);
    [by repeat constructor|apply empty_rep|by vm_compute].
Defined.

Lemma AddFact_failed_commit_miscounts_witness :
  let '(s', err) := AddFact (Some (EText "Transaction Conflict")) (1, 2, 3, 4) empty_store in
  err = Some (EText "Transaction Conflict") /\ st_db s' = st_db empty_store /\
  st_numFacts s' = Z.of_nat (size (∅ : gset Quad4)) + 1.
Proof.
  apply (AddFact_failed_commit_miscounts (1, 2, 3, 4) empty_store ∅ (EText "Transaction Conflict"));
    [by vm_compute|apply empty_rep|set_solver|by vm_compute].
Defined.

Lemma full_scan_enumerates_witness :
  let l := Scan PrefixGSPO [PrefixGSPO] 0 (fun _ => true) empty_store in
  (forall q, q ∈ l <-> q ∈ (∅ : gset Quad4)) /\
  StronglySorted (fun q q' => forall k k', EncodeQuadKey PrefixGSPO q = Some k ->
                               EncodeQuadKey PrefixGSPO q' = Some k' -> lex k k' = true) l.
Proof. apply (full_scan_enumerates PrefixGSPO empty_store ∅); [set_solver|apply empty_rep]. Defined.
