(* ===== verification/Dict.v ===== *)
(** * The sharded string dictionary

    [internal/adapters/storage/dict/sharded.go]: string interning over 32
    shards with one shared id counter.  Every mutation happens under the write
    lock of the string's shard and draws its id atomically, so a call is one
    step.  Ids are 64-bit. *)
From S2P Require Import Prelude GoStrings.
From Stdlib Require Import Ascii String.
Open Scope string_scope.
Open Scope Z_scope.

Definition numShards : nat := 32.

Record dictShard := { strToID : gmap string Z; idToStr : gmap Z string }.

Record ShardedDict := { shards : list dictShard; nextID : Z }.

Definition empty_shard : dictShard := {| strToID := ∅; idToStr := ∅ |}.

Definition NewShardedDict : ShardedDict := {| shards := repeat empty_shard numShards; nextID := 100 |}.

(** FNV-1a, 32 bit. *)
Fixpoint fnv32a (h : Z) (s : string) : Z :=
  match s with
  | "" => h
  | String c s' => fnv32a ((Z.lxor h (bval c) * 16777619) mod 2 ^ 32) s'
  end.

Definition hashString (s : string) : Z := fnv32a 2166136261 s.

Definition shard_index (s : string) : nat := Z.to_nat (hashString s mod Z.of_nat numShards).

Definition shardFor (d : ShardedDict) (s : string) : dictShard := default empty_shard (shards d !! shard_index s).

Definition set_shard (s : string) (sh : dictShard) (n : Z) (d : ShardedDict) : ShardedDict :=
  {| shards := <[shard_index s := sh]> (shards d); nextID := n |}.

Definition bind_id (s : string) (id : Z) (sh : dictShard) : dictShard :=
  {| strToID := <[s := id]> (strToID sh); idToStr := <[id := s]> (idToStr sh) |}.

Definition GetOrCreateID (s : string) (d : ShardedDict) : ShardedDict * Z :=
  let sh := shardFor d s in
  match strToID sh !! s with
  | Some id => (d, id)
  | None =>
      let newID := (nextID d + 1) mod 2 ^ 64 in
      (set_shard s (bind_id s newID sh) newID d, newID)
  end.

(** [GetString]: the first shard that knows the id. *)
Definition GetString (d : ShardedDict) (id : Z) : option string :=
  head (omap (fun sh => idToStr sh !! id) (shards d)).

(** [Load]; the compare-and-swap loop ends with the counter at least at
    [id + 1], computed in 64 bits. *)
Definition Load (s : string) (id : Z) (d : ShardedDict) : ShardedDict :=
  set_shard s (bind_id s id (shardFor d s)) (if id <? nextID d then nextID d else (id + 1) mod 2 ^ 64) d.

(** ** Invariant *)

Lemma shard_index_lt s : (shard_index s < numShards)%nat.
Proof.
  unfold shard_index. pose proof (Z.mod_pos_bound (hashString s) (Z.of_nat numShards)) as H.
  unfold numShards in *. lia.
Qed.

(** Every binding sits in its string's shard, both directions agree, no id is
    bound in two shards, and all ids are below or at the counter. *)
Record dict_ok (d : ShardedDict) : Prop := {
  ok_shards : List.length (shards d) = numShards;
  ok_fwd : forall i sh s id, shards d !! i = Some sh -> strToID sh !! s = Some id ->
             i = shard_index s /\ idToStr sh !! id = Some s;
  ok_bwd : forall i sh s id, shards d !! i = Some sh -> idToStr sh !! id = Some s ->
             strToID sh !! s = Some id /\ id <= nextID d;
  ok_unique : forall i j sh sh' s s' id, shards d !! i = Some sh -> shards d !! j = Some sh' ->
             idToStr sh !! id = Some s -> idToStr sh' !! id = Some s' -> i = j
}.

Lemma shardFor_lookup d s : List.length (shards d) = numShards -> shards d !! shard_index s = Some (shardFor d s).
Proof.
  intros Hl. unfold shardFor.
  destruct (lookup_lt_is_Some_2 (shards d) (shard_index s)) as [sh Hs]; [rewrite Hl; apply shard_index_lt|].
  by rewrite Hs.
Qed.

Lemma NewShardedDict_ok : dict_ok NewShardedDict.
Proof.
  assert (forall i sh, shards NewShardedDict !! i = Some sh -> sh = empty_shard) as He.
  { intros i sh Hi. apply list_elem_of_lookup_2, list_elem_of_In, repeat_spec in Hi. done. }
  split; [done| | |]; intros; repeat match goal with H : shards _ !! _ = Some _ |- _ => apply He in H; subst end;
    simpl in *; simplify_map_eq.
Qed.

(** A binding of a fresh string to a fresh id keeps the dictionary sound. *)
Lemma bind_ok d s id n :
  dict_ok d -> strToID (shardFor d s) !! s = None -> nextID d <= n -> id <= n ->
  (forall i sh, shards d !! i = Some sh -> idToStr sh !! id = None) ->
  dict_ok (set_shard s (bind_id s id (shardFor d s)) n d).
Proof.
  intros [O1 O2 O3 O4] Hs Hn Hid Hfresh.
  pose proof (shardFor_lookup d s O1) as Hsh.
  assert (forall i sh, <[shard_index s := bind_id s id (shardFor d s)]> (shards d) !! i = Some sh ->
     (i = shard_index s /\ sh = bind_id s id (shardFor d s)) \/ (i <> shard_index s /\ shards d !! i = Some sh)) as Hcase.
  { intros i sh. rewrite list_lookup_insert_Some. naive_solver. }
  split; unfold set_shard; cbn [shards nextID].
  - by rewrite length_insert.
  - intros i sh s' id' [[-> ->]|[Hne Hi]]%Hcase Hl; [|by eapply O2]. simpl in *.
    apply lookup_insert_Some in Hl as [[<- <-]|[Hne Hl]]; [by rewrite lookup_insert_eq|].
    destruct (O2 _ _ _ _ Hsh Hl) as [-> Hb]. split; [done|].
    rewrite lookup_insert_ne; [done|]. intros <-. by rewrite (Hfresh _ _ Hsh) in Hb.
  - intros i sh s' id' [[-> ->]|[Hne Hi]]%Hcase Hl.
    + simpl in *. apply lookup_insert_Some in Hl as [[<- <-]|[Hne Hl]]; [by rewrite lookup_insert_eq|].
      destruct (O3 _ _ _ _ Hsh Hl) as [Hb ?]. split; [|lia].
      rewrite lookup_insert_ne; [done|]. intros <-. congruence.
    + destruct (O3 _ _ _ _ Hi Hl). split; [done|lia].
  - intros i j sh sh' s1 s2 id' [[-> ->]|[Hne Hi]]%Hcase [[-> ->]|[Hne' Hj]]%Hcase H1 H2; simpl in *; [done| | |eauto].
    + apply lookup_insert_Some in H1 as [[<- _]|[_ H1]]; [by rewrite (Hfresh _ _ Hj) in H2|eauto].
    + apply lookup_insert_Some in H2 as [[<- _]|[_ H2]]; [by rewrite (Hfresh _ _ Hi) in H1|eauto].
Qed.

Lemma above_counter_fresh d id i sh :
  dict_ok d -> nextID d < id -> shards d !! i = Some sh -> idToStr sh !! id = None.
Proof.
  intros Hd Hlt Hi. destruct (idToStr sh !! id) as [s|] eqn:E; [|done].
  destruct (ok_bwd _ Hd _ _ _ _ Hi E). lia.
Qed.

Lemma GetOrCreateID_ok s d : dict_ok d -> 0 <= nextID d < 2 ^ 64 - 1 -> dict_ok (fst (GetOrCreateID s d)).
Proof.
  intros Hd Hn. unfold GetOrCreateID. destruct (strToID (shardFor d s) !! s) eqn:E; [done|].
  cbn [fst]. rewrite (Z.mod_small (nextID d + 1)) by lia. apply bind_ok; try done; [lia|].
  intros i sh. apply above_counter_fresh; [done|lia].
Qed.

Lemma GetString_some d i sh id s : dict_ok d -> shards d !! i = Some sh -> idToStr sh !! id = Some s -> GetString d id = Some s.
Proof.
  intros Hd Hi Hs. unfold GetString.
  destruct (omap (fun sh => idToStr sh !! id) (shards d)) as [|s' l] eqn:Ho.
  - assert (s ∈ omap (fun sh => idToStr sh !! id) (shards d)) as Hin
      by (apply list_elem_of_omap; exists sh; split; [by eapply list_elem_of_lookup_2|done]).
    rewrite Ho in Hin. set_solver.
  - assert (s' ∈ omap (fun sh => idToStr sh !! id) (shards d)) as Hin by (rewrite Ho; set_solver).
    apply list_elem_of_omap in Hin as (sh' & Hsh' & Hs'). apply list_elem_of_lookup in Hsh' as [j Hj].
    assert (i = j) as -> by (eapply (ok_unique _ Hd); eauto). simpl. congruence.
Qed.

Lemma GetOrCreateID_bound s d : dict_ok d ->
  let '(d', id) := GetOrCreateID s d in
  shards d' !! shard_index s = Some (shardFor d' s) /\ strToID (shardFor d' s) !! s = Some id /\
  idToStr (shardFor d' s) !! id = Some s.
Proof.
  intros Hd. pose proof (shardFor_lookup d s (ok_shards _ Hd)) as Hsh. unfold GetOrCreateID.
  destruct (strToID (shardFor d s) !! s) as [id|] eqn:E.
  - split_and!; [done|done|]. by destruct (ok_fwd _ Hd _ _ _ _ Hsh E).
  - set (id := (nextID d + 1) mod 2 ^ 64).
    assert (shardFor (set_shard s (bind_id s id (shardFor d s)) id d) s = bind_id s id (shardFor d s)) as ->.
    { unfold shardFor at 1, set_shard. simpl. rewrite list_lookup_insert_eq; [done|]. by eapply lookup_lt_Some. }
    simpl. rewrite list_lookup_insert_eq by (by eapply lookup_lt_Some). by rewrite !lookup_insert_eq.
Qed.

(** Interning round-trips: after [GetOrCreateID] the id maps back to the
    string, asking again returns the same id and changes nothing, and the
    dictionary stays sound. *)
Theorem intern_roundtrip (s : string) (d : ShardedDict) :
  dict_ok d -> 0 <= nextID d < 2 ^ 64 - 1 ->
  let '(d', id) := GetOrCreateID s d in
  dict_ok d' /\ GetString d' id = Some s /\ GetOrCreateID s d' = (d', id).
Proof.
  intros Hd Hn. pose proof (GetOrCreateID_ok s d Hd Hn) as Hok.
  pose proof (GetOrCreateID_bound s d Hd) as Hb. destruct (GetOrCreateID s d) as [d' id]. simpl in Hok.
  destruct Hb as (H1 & H2 & H3). split_and!; [done|by eapply GetString_some|].
  unfold GetOrCreateID. by rewrite H2.
Qed.

(** Ids are unique: in a sound dictionary two different strings never
    share an id, even across shards. *)
Theorem intern_injective (s s' : string) (d : ShardedDict) :
  dict_ok d -> s <> s' ->
  forall id id', strToID (shardFor d s) !! s = Some id -> strToID (shardFor d s') !! s' = Some id' -> id <> id'.
Proof.
  intros Hd Hne id id' H1 H2 <-.
  pose proof (shardFor_lookup d s (ok_shards _ Hd)) as L1. pose proof (shardFor_lookup d s' (ok_shards _ Hd)) as L2.
  destruct (ok_fwd _ Hd _ _ _ _ L1 H1) as [_ B1]. destruct (ok_fwd _ Hd _ _ _ _ L2 H2) as [_ B2].
  pose proof (GetString_some _ _ _ _ _ Hd L1 B1). pose proof (GetString_some _ _ _ _ _ Hd L2 B2). congruence.
Qed.

(** Loading the largest id resets the counter: [Load] computes [id + 1] in
    64 bits, so after loading id 2^64 - 1 the counter is 0 and the next new
    string gets id 1, whatever string already has it. *)
Theorem Load_max_id_reuses_ids :
  let d := Load "last" (2 ^ 64 - 1) (Load "first" 1 NewShardedDict) in
  nextID d = 0 /\ snd (GetOrCreateID "new" d) = 1 /\
  strToID (shardFor d "first") !! "first" = Some 1.
Proof. vm_compute. by split_and!. Qed.

Lemma intern_roundtrip_witness :
  let '(d', id) := GetOrCreateID "a" NewShardedDict in
  dict_ok d' /\ GetString d' id = Some "a" /\ GetOrCreateID "a" d' = (d', id).
Proof. apply (intern_roundtrip "a" NewShardedDict); [apply NewShardedDict_ok|by vm_compute]. Defined.

Definition two_strings : ShardedDict := fst (GetOrCreateID "b" (fst (GetOrCreateID "a" NewShardedDict))).

Lemma intern_injective_witness :
  exists id id', strToID (shardFor two_strings "a") !! "a" = Some id /\
                 strToID (shardFor two_strings "b") !! "b" = Some id' /\ id <> id'.
Proof.
  exists 101, 102. split; [by vm_compute|]. split; [by vm_compute|].
  apply (intern_injective "a" "b" two_strings); [|done|by vm_compute|by vm_compute].
  apply GetOrCreateID_ok; [apply GetOrCreateID_ok; [apply NewShardedDict_ok|by vm_compute]|by vm_compute].
Defined.
