(* ===== verification/Workflow.v ===== *)
(** * The workflow executor

    [multiagent/workflow_executor.go]: sequential execution of a workflow
    graph with retries, error edges and conditional edges, and the layered
    parallel variant.

    The surroundings are a [WfEnv] over a world [W]: agent lookup, the node
    executor, condition queries, the state of the context and the waits
    between attempts.  The sequential loop has no structural measure, so it
    takes fuel; [workflow_fuel] is enough ([ExecuteWorkflow_terminates]).
    Start and end times are dropped.  The parallel group is run in one of its
    possible schedules, the order of the group. *)
From S2P Require Import Prelude GoStrings CoreErrors Facts.
From Stdlib Require Import Ascii String.
Open Scope string_scope.

Record WorkflowNode := { n_ID : string; n_Type : string; n_Agent : string; n_Config : gmap string string }.
Record WorkflowEdge := { e_From : string; e_To : string; e_Condition : string }.
Record Workflow := {
  wf_ID : string; wf_Name : string; wf_Version : string;
  wf_Nodes : list WorkflowNode; wf_Edges : list WorkflowEdge
}.

Inductive WValue :=
| WNil
| WStr (s : string)
| WList (l : list string)
| WOther (text : string).   (* any other value, by its %v text *)

Inductive WorkflowStatus := WorkflowStatusPending | WorkflowStatusRunning | WorkflowStatusCompleted | WorkflowStatusFailed | WorkflowStatusCancelled.

Record NodeResult := {
  nr_NodeID : string;
  nr_AgentID : string;
  nr_Input : WValue;
  nr_Output : WValue;
  nr_Error : option error;
  nr_RetryCount : Z
}.

Record WorkflowResult := {
  wr_WorkflowID : string;
  wr_Status : WorkflowStatus;
  wr_Output : WValue;
  wr_NodeResults : gmap string NodeResult;
  wr_Error : option error
}.

Record WfEnv (W : Type) := {
  env_agent : string -> W -> W * option string;   (* first agent for a role; None on error or no agent *)
  env_exec : WorkflowNode -> WValue -> string -> W -> W * res error WValue;
  env_query : list string -> string -> W -> W * res error nat;  (* number of solutions *)
  env_ctx : W -> option error;
  env_wait : Z -> W -> W * option error           (* wait n seconds; Some when the context ends first *)
}.
Arguments env_agent {W} _.
Arguments env_exec {W} _.
Arguments env_query {W} _.
Arguments env_ctx {W} _.
Arguments env_wait {W} _.

Definition formatValue (render : list string -> string) (v : WValue) : string :=
  match v with
  | WStr s => EscapeString s
  | WNil => "null"
  | WList l => render l
  | WOther t => t
  end.

(** ** Graph lookups *)

Definition findNodeByID (wf : Workflow) (id : string) : option WorkflowNode :=
  List.find (fun n => String.eqb (n_ID n) id) (wf_Nodes wf).

Definition isStartNode (wf : Workflow) (n : WorkflowNode) : bool :=
  negb (existsb (fun e => String.eqb (e_To e) (n_ID n) && String.eqb (e_Condition e) "") (wf_Edges wf)).

Definition findStartNode (wf : Workflow) : option WorkflowNode :=
  match List.find (isStartNode wf) (wf_Nodes wf) with
  | Some n => Some n
  | None => head (wf_Nodes wf)
  end.

Definition findErrorEdge (wf : Workflow) (n : WorkflowNode) : option WorkflowEdge :=
  List.find (fun e => String.eqb (e_From e) (n_ID n) && has_prefix (e_Condition e) "error") (wf_Edges wf).

Section Executor.
Context {W : Type} (E : WfEnv W) (render : list string -> string) (maxRetries : Z).

Definition context_fact (k v : string) : string :=
  "context(" +:+ quoted k +:+ ", " +:+ quoted v +:+ ").".

Definition evaluateCondition (condition : string) (output : WValue) (previous : gmap string WValue) (w : W)
  : W * res error bool :=
  if String.eqb condition "" then (w, Ok true) else
  let facts := (context_fact "current_output" (formatValue render output)
                :: map (fun '(k, v) => context_fact k (formatValue render v)) (map_to_list previous))%list in
  let '(w1, r) := env_query E facts condition w in
  (w1, match r with Ok n => Ok (negb (Nat.eqb n 0)) | Err e => Err e end).

(** The edge loop of [findNextNode]; [Ok None] ends the workflow. *)
Fixpoint next_edge (wf : Workflow) (edges : list WorkflowEdge) (output : WValue)
    (previous : gmap string WValue) (w : W) : W * res error (option WorkflowNode) :=
  match edges with
  | [] => (w, Ok None)
  | e :: rest =>
      if String.eqb (e_Condition e) "" then (w, Ok (findNodeByID wf (e_To e)))
      else
        let '(w1, r) := evaluateCondition (e_Condition e) output previous w in
        match r with
        | Err x => (w1, Err x)
        | Ok true => (w1, Ok (findNodeByID wf (e_To e)))
        | Ok false => next_edge wf rest output previous w1
        end
  end.

Definition findNextNode (wf : Workflow) (n : WorkflowNode) (output : WValue)
    (previous : gmap string WValue) (w : W) : W * res error (option WorkflowNode) :=
  next_edge wf (List.filter (fun e => String.eqb (e_From e) (n_ID n)) (wf_Edges wf)) output previous w.

Definition node_result (n : WorkflowNode) (agent : string) (input output : WValue) (err : option error) (retry : Z)
  : NodeResult :=
  {| nr_NodeID := n_ID n; nr_AgentID := agent; nr_Input := input; nr_Output := output; nr_Error := err;
     nr_RetryCount := retry |}.

(** Attempts [attempt .. maxRetries]; [left] counts those remaining. *)
Fixpoint attempts (left : nat) (attempt : Z) (lastErr : option error) (n : WorkflowNode) (input : WValue)
    (agent : string) (w : W) : W * NodeResult :=
  match left with
  | O => (w, node_result n agent input WNil lastErr (attempt - 1))
  | S left' =>
      let '(w1, r) := env_exec E n input agent w in
      match r with
      | Ok output => (w1, node_result n agent input output None attempt)
      | Err x =>
          if (attempt <? maxRetries)%Z then
            let '(w2, done) := env_wait E (attempt + 1) w1 in
            match done with
            | Some c => (w2, node_result n agent input WNil (Some c) attempt)
            | None => attempts left' (attempt + 1) (Some x) n input agent w2
            end
          else attempts left' (attempt + 1) (Some x) n input agent w1
      end
  end.

Definition executeNode (n : WorkflowNode) (input : WValue) (w : W) : W * NodeResult :=
  let '(w1, agent) := env_agent E (n_Agent n) w in
  match agent with
  | None => (w1, node_result n "" input WNil (Some (EText ("no agents found for role " +:+ n_Agent n))) 0)
  | Some a =>
      if (maxRetries <? 0)%Z then (w1, node_result n a input WNil None 0)
      else attempts (Z.to_nat (maxRetries + 1)) 0 None n input a w1
  end.

(** ** The sequential loop *)

(** State of the loop; [lp_trace] lists the executed nodes (ghost). *)
Record Loop := {
  lp_input : WValue;
  lp_outputs : gmap string WValue;       (* nodeResults *)
  lp_results : gmap string NodeResult;   (* result.NodeResults *)
  lp_visited : gmap string Z;
  lp_lastError : option error;
  lp_trace : list string
}.

Definition visits (l : Loop) (id : string) : Z := default 0%Z (lp_visited l !! id).

Definition result_of (wf : Workflow) (status : WorkflowStatus) (output : WValue) (err : option error) (l : Loop)
  : WorkflowResult :=
  {| wr_WorkflowID := wf_ID wf; wr_Status := status; wr_Output := output; wr_NodeResults := lp_results l;
     wr_Error := err |}.

(** After the loop: [status] is still running only when it ended normally. *)
Definition finish (wf : Workflow) (l : Loop) : WorkflowResult :=
  match lp_lastError l with
  | Some e => result_of wf WorkflowStatusFailed WNil (Some e) l
  | None => result_of wf WorkflowStatusCompleted (lp_input l) None l
  end.

Fixpoint run_nodes (fuel : nat) (wf : Workflow) (current : option WorkflowNode) (l : Loop) (w : W)
  : option (W * (WorkflowResult * Loop)) :=
  match current with
  | None => Some (w, (finish wf l, l))
  | Some n =>
      match fuel with
      | O => None
      | S fuel' =>
          match env_ctx E w with
          | Some c => Some (w, (result_of wf WorkflowStatusCancelled WNil (Some c) l, l))
          | None =>
              let id := n_ID n in
              let k := (visits l id + 1)%Z in
              let l1 := {| lp_input := lp_input l; lp_outputs := lp_outputs l; lp_results := lp_results l;
                           lp_visited := <[id := k]> (lp_visited l); lp_lastError := lp_lastError l;
                           lp_trace := lp_trace l |} in
              if (maxRetries <? k)%Z then
                Some (w, (result_of wf WorkflowStatusFailed WNil
                            (Some (EText ("max retries exceeded for node " +:+ id))) l1, l1))
              else
                let '(w1, nr) := executeNode n (lp_input l1) w in
                let results := <[id := nr]> (lp_results l1) in
                let trace := (lp_trace l1 ++ [id])%list in
                match nr_Error nr with
                | Some x =>
                    let l2 := {| lp_input := lp_input l1; lp_outputs := lp_outputs l1; lp_results := results;
                                 lp_visited := lp_visited l1; lp_lastError := Some x; lp_trace := trace |} in
                    match findErrorEdge wf n with
                    | None => Some (w1, (result_of wf WorkflowStatusFailed WNil None l2, l2))
                    | Some edge => run_nodes fuel' wf (findNodeByID wf (e_To edge)) l2 w1
                    end
                | None =>
                    let outputs := <[id := nr_Output nr]> (lp_outputs l1) in
                    let '(w2, next) := findNextNode wf n (nr_Output nr) outputs w1 in
                    let l2 err := {| lp_input := nr_Output nr; lp_outputs := outputs; lp_results := results;
                                     lp_visited := lp_visited l1; lp_lastError := err; lp_trace := trace |} in
                    match next with
                    | Err x => Some (w2, (result_of wf WorkflowStatusFailed WNil None (l2 (Some x)), l2 (Some x)))
                    | Ok next => run_nodes fuel' wf next (l2 (lp_lastError l1)) w2
                    end
                end
          end
      end
  end.

Definition start_loop (input : WValue) : Loop :=
  {| lp_input := input; lp_outputs := ∅; lp_results := ∅; lp_visited := ∅; lp_lastError := None; lp_trace := [] |}.

Definition node_ids (wf : Workflow) : list string := remove_dups (map n_ID (wf_Nodes wf)).

(** Visits allowed in total, and the one that exceeds. *)
Definition workflow_fuel (wf : Workflow) : nat :=
  S (List.length (node_ids wf) * Z.to_nat maxRetries).

(** [ExecuteWorkflow]; the second component is the returned Go error. *)
Definition ExecuteWorkflow (wf : Workflow) (input : WValue) (w : W) : option (W * (WorkflowResult * option error)) :=
  match findStartNode wf with
  | None =>
      let e := EText ("no start node found for workflow " +:+ wf_ID wf) in
      Some (w, (result_of wf WorkflowStatusFailed WNil (Some e) (start_loop input), Some e))
  | Some n => (fun '(w', (r, _)) => (w', (r, None))) <$> run_nodes (workflow_fuel wf) wf (Some n) (start_loop input) w
  end.

(** ** Termination *)

Lemma findNodeByID_in wf id n : findNodeByID wf id = Some n -> n ∈ wf_Nodes wf.
Proof. intros [Hin _]%List.find_some. by apply list_elem_of_In. Qed.

Lemma findStartNode_in wf n : findStartNode wf = Some n -> n ∈ wf_Nodes wf.
Proof.
  unfold findStartNode. destruct (List.find _ _) as [m|] eqn:Hf.
  - intros [= <-]. apply List.find_some in Hf as [Hin _]. by apply list_elem_of_In.
  - destruct (wf_Nodes wf); simpl; [done|]. intros [= <-]. set_solver.
Qed.

Lemma next_edge_in wf edges output previous w w' n :
  next_edge wf edges output previous w = (w', Ok (Some n)) -> n ∈ wf_Nodes wf.
Proof.
  revert w. induction edges as [|e edges IH]; intros w; simpl; [done|].
  destruct (String.eqb (e_Condition e) ""); [intros [= _ Hf]; by eapply findNodeByID_in|].
  destruct (evaluateCondition _ _ _ _) as [w1 [[]|]]; [intros [= _ Hf]; by eapply findNodeByID_in|eauto|done].
Qed.

(** Visits left over all nodes. *)
Definition budget (ids : list string) (l : Loop) : nat :=
  sum_list (map (fun id => Z.to_nat (maxRetries - visits l id)) ids).

Definition visited_bounded (l : Loop) : Prop := forall id, (0 <= visits l id <= Z.max 0 maxRetries)%Z.

Lemma budget_visit ids l l' id :
  id ∈ ids -> NoDup ids -> (0 <= visits l id)%Z -> (visits l id + 1 <= maxRetries)%Z ->
  (forall x, visits l' x = if decide (x = id) then (visits l id + 1)%Z else visits l x) ->
  S (budget ids l') = budget ids l.
Proof.
  intros Hin Hnd H0 Hle Hv. unfold budget. induction ids as [|x ids IH]; [set_solver|].
  inversion_clear Hnd as [|? ? Hx Hnd']. simpl. rewrite Hv.
  destruct (decide (x = id)) as [->|Hne].
  - assert (map (fun id0 => Z.to_nat (maxRetries - visits l' id0)) ids
            = map (fun id0 => Z.to_nat (maxRetries - visits l id0)) ids) as ->.
    { apply map_ext_in. intros y Hy%list_elem_of_In. rewrite Hv, decide_False; [done|]. congruence. }
    lia.
  - specialize (IH ltac:(set_solver) Hnd'). lia.
Qed.

Lemma node_ids_in wf n : n ∈ wf_Nodes wf -> n_ID n ∈ node_ids wf.
Proof. intros Hn. unfold node_ids. rewrite elem_of_remove_dups, list_elem_of_fmap. eauto. Qed.

Lemma visits_insert l1 l2 id k x :
  lp_visited l2 = <[id := k]> (lp_visited l1) -> visits l2 x = if decide (x = id) then k else visits l1 x.
Proof.
  intros Hv. unfold visits. rewrite Hv. case_decide; [subst; by rewrite lookup_insert_eq|].
  by rewrite lookup_insert_ne.
Qed.

Lemma run_nodes_total fuel wf current l w :
  (forall n, current = Some n -> n ∈ wf_Nodes wf) -> (forall id, 0 <= visits l id)%Z ->
  budget (node_ids wf) l < fuel -> is_Some (run_nodes fuel wf current l w).
Proof.
  revert current l w. induction fuel as [|fuel IH]; intros current l w Hin Hpos Hb; [lia|].
  destruct current as [n|]; cbn [run_nodes]; [|eauto].
  destruct (env_ctx E w); [eauto|].
  destruct (Z.ltb_spec maxRetries (visits l (n_ID n) + 1)) as [|Hle]; [eauto|].
  specialize (Hin n eq_refl). specialize (node_ids_in wf n Hin) as Hid.
  assert (forall l2, lp_visited l2 = <[n_ID n := (visits l (n_ID n) + 1)%Z]> (lp_visited l) ->
            (forall id, 0 <= visits l2 id)%Z /\ budget (node_ids wf) l2 < fuel) as Hstep.
  { intros l2 Hv. pose proof (fun x => visits_insert l l2 _ _ x Hv) as Hx. split.
    - intros id. rewrite Hx. case_decide; [specialize (Hpos (n_ID n)); lia|apply Hpos].
    - pose proof (budget_visit (node_ids wf) l l2 (n_ID n) Hid ltac:(apply NoDup_remove_dups) (Hpos _) Hle Hx). lia. }
  destruct (executeNode n _ w) as [w1 nr]. destruct (nr_Error nr) as [x|].
  - destruct (findErrorEdge wf n) as [edge|]; [|eauto].
    apply IH; [by intros m; apply findNodeByID_in|by apply Hstep|by apply Hstep].
  - destruct (findNextNode wf n _ _ w1) as [w2 [next|x]] eqn:Hnext; [|eauto].
    apply IH; [intros m ->; by eapply next_edge_in|by apply Hstep|by apply Hstep].
Qed.

Lemma budget_start ids input : budget ids (start_loop input) <= List.length ids * Z.to_nat maxRetries.
Proof. unfold budget, visits. simpl. induction ids as [|x ids IH]; simpl; rewrite ?lookup_empty in *; simpl in *; lia. Qed.

(** ** What the loop guarantees *)

Definition runs (l : Loop) (id : string) : Z := Z.of_nat (count_occ string_dec (lp_trace l) id).

(** Loop invariant: a node has run no more often than it was visited, visits
    stay within the bound, the last error is set once a recorded node
    failed, and without one the input is the output of the last node run. *)
Record loop_inv (input : WValue) (l : Loop) : Prop := {
  li_runs : forall id, (runs l id <= visits l id <= Z.max 0 maxRetries)%Z;
  li_errors : forall id nr, lp_results l !! id = Some nr -> nr_Error nr <> None -> lp_lastError l <> None;
  li_output : lp_lastError l = None ->
    (lp_trace l = [] /\ lp_input l = input) \/
    exists id nr, last (lp_trace l) = Some id /\ lp_results l !! id = Some nr /\ nr_Output nr = lp_input l
}.

(** What holds of the result. *)
Definition run_ok (input : WValue) (r : WorkflowResult) (l : Loop) : Prop :=
  (forall id, runs l id <= Z.max 0 maxRetries)%Z /\ wr_NodeResults r = lp_results l /\
  (wr_Status r = WorkflowStatusCompleted ->
     wr_Error r = None /\ lp_lastError l = None /\ wr_Output r = lp_input l /\ loop_inv input l).

Lemma runs_app l l' id x :
  lp_trace l' = (lp_trace l ++ [id])%list -> runs l' x = (runs l x + if decide (x = id) then 1 else 0)%Z.
Proof.
  intros Ht. unfold runs. rewrite Ht, count_occ_app. simpl.
  destruct (string_dec id x), (decide (x = id)); simplify_eq; lia.
Qed.

Lemma loop_inv_bound input l l' :
  loop_inv input l -> lp_trace l' = lp_trace l -> forall id, (runs l' id <= Z.max 0 maxRetries)%Z.
Proof. intros [Hr _ _] Ht id. unfold runs in *. rewrite Ht. specialize (Hr id). lia. Qed.

(** One executed node. *)
Lemma loop_inv_runs input l l' id :
  loop_inv input l -> (visits l id + 1 <= maxRetries)%Z ->
  lp_visited l' = <[id := (visits l id + 1)%Z]> (lp_visited l) -> lp_trace l' = (lp_trace l ++ [id])%list ->
  forall x, (runs l' x <= visits l' x <= Z.max 0 maxRetries)%Z.
Proof.
  intros [Hr _ _] Hle Hv Ht x. rewrite (runs_app _ _ _ _ Ht), (visits_insert _ _ _ _ _ Hv).
  specialize (Hr x) as H1. case_decide; subst; lia.
Qed.

Lemma run_nodes_ok fuel wf current input l w w' r l' :
  loop_inv input l -> run_nodes fuel wf current l w = Some (w', (r, l')) -> run_ok input r l'.
Proof.
  revert current l w. induction fuel as [|fuel IH]; intros current l w Hi;
    (destruct current as [n|]; cbn [run_nodes];
     [|intros ?; simplify_eq; unfold run_ok, finish; destruct (lp_lastError l') eqn:El;
       (split; [by eapply loop_inv_bound|split; [done|]]); simpl; [done|]; intros _; by split_and!]); [done|].
  assert (forall r0 l0, lp_trace l0 = lp_trace l -> wr_NodeResults r0 = lp_results l0 ->
            wr_Status r0 <> WorkflowStatusCompleted -> run_ok input r0 l0) as Hstop.
  { intros r0 l0 Ht Hn Hs. split; [by eapply loop_inv_bound|]. split; [done|]. intros; done. }
  destruct (env_ctx E w); [intros ?; simplify_eq; by apply Hstop|].
  destruct (Z.ltb_spec maxRetries (visits l (n_ID n) + 1)) as [|Hle]; [intros ?; simplify_eq; by apply Hstop|].
  destruct (executeNode n _ w) as [w1 nr] eqn:Hx. destruct (nr_Error nr) as [x|] eqn:Hne.
  - match goal with |- context [run_nodes fuel wf _ ?l2 w1] => set (l2' := l2) end.
    pose proof (loop_inv_runs input l l2' (n_ID n) Hi Hle eq_refl eq_refl) as Hr.
    destruct (findErrorEdge wf n) as [edge|].
    + apply IH. split; [done| |done]. intros; done.
    + intros ?; simplify_eq. split; [intros id; specialize (Hr id); lia|]. split; [done|]. intros; done.
  - destruct (findNextNode wf n _ _ w1) as [w2 [next|x]].
    + match goal with |- context [run_nodes fuel wf next ?l2 w2] => set (l2' := l2) end.
      pose proof (loop_inv_runs input l l2' (n_ID n) Hi Hle eq_refl eq_refl) as Hr.
      apply IH. split; [done| |].
      * intros id nr'. unfold l2'. simpl.
        rewrite lookup_insert_Some. intros [[<- <-]|[_ Hl]]; [done|]. by apply (li_errors _ _ Hi id nr').
      * intros _. right. exists (n_ID n), nr. unfold l2'. simpl. rewrite last_snoc, lookup_insert_eq. done.
    + intros ?; simplify_eq. split; [|split; [done|intros; done]].
      intros id. rewrite (runs_app l _ (n_ID n)) by done. pose proof (li_runs _ _ Hi id) as H1.
      case_decide; subst; lia.
Qed.

Lemma start_inv input : loop_inv input (start_loop input).
Proof.
  split; simpl.
  - intros id. unfold runs, visits. simpl. rewrite lookup_empty. simpl. lia.
  - intros id nr. by rewrite lookup_empty.
  - by left.
Qed.
(** ** The parallel variant *)

Definition unconditional (e : WorkflowEdge) : bool := String.eqb (e_Condition e) "".

Definition bump_degree (by_ : Z) (id : string) (d : gmap string Z) : gmap string Z :=
  <[id := (default 0 (d !! id) + by_)%Z]> d.

Definition in_degrees (wf : Workflow) : gmap string Z :=
  fold_left (fun d e => if unconditional e then bump_degree 1 (e_To e) d else d) (wf_Edges wf)
    (fold_left (fun d n => <[n_ID n := 0%Z]> d) (wf_Nodes wf) ∅).

(** The nodes of in-degree 0, in the order the map is ranged over. *)
Definition ready_nodes (d : gmap string Z) : list string :=
  map fst (List.filter (fun p => (snd p =? 0)%Z) (map_to_list d)).

Definition retire (wf : Workflow) (d : gmap string Z) (id : string) : gmap string Z :=
  delete id (fold_left (fun d e => if String.eqb (e_From e) id && unconditional e
                                   then bump_degree (-1) (e_To e) d else d) (wf_Edges wf) d).

(** The layering loop of [identifyParallelGroups]: a layer becomes a group
    only when it has more than one node. *)
Fixpoint layers (fuel : nat) (wf : Workflow) (d : gmap string Z) : list (list string) :=
  match fuel with
  | O => []
  | S fuel' =>
      match ready_nodes d with
      | [] => []
      | current =>
          ((if (1 <? List.length current)%nat then [current] else [])
           ++ layers fuel' wf (fold_left (retire wf) current d))%list
      end
  end.

Definition identifyParallelGroups (wf : Workflow) : list (list string) :=
  layers (List.length (wf_Nodes wf) + List.length (wf_Edges wf)) wf (in_degrees wf).

(** [executeParallelGroup] in the schedule that runs the nodes in order;
    [errors.Join] of the failures. *)
Fixpoint run_group (wf : Workflow) (ids : list string) (input : WValue) (w : W)
  : W * (list (string * WValue) * list error) :=
  match ids with
  | [] => (w, ([], []))
  | id :: rest =>
      let '(w1, (out, err)) :=
        match findNodeByID wf id with
        | None => (w, (WNil, Some (EText ("node not found: " +:+ id))))
        | Some n => let '(w1, nr) := executeNode n input w in (w1, (nr_Output nr, nr_Error nr))
        end in
      let '(w2, (outs, errs)) := run_group wf rest input w1 in
      (w2, ((id, out) :: outs,
            match err with Some e => EWrap ("node " +:+ id +:+ ": ") e :: errs | None => errs end))
  end.

(** [mergeOutputs]: the string outputs, or the map itself when there is none. *)
Definition mergeOutputs (outs : list (string * WValue)) : WValue :=
  match outs with
  | [] => WNil
  | _ =>
      match omap (fun p => match snd p with WStr s => Some s | _ => None end) outs with
      | [] => WOther "map"
      | strs => WList strs
      end
  end.

Definition join_errors (errs : list error) : error :=
  EText (join nl (map Error errs)).

Fixpoint run_groups (wf : Workflow) (groups : list (list string)) (input : WValue) (w : W)
  : W * (WorkflowResult * option error) :=
  let result st out err := {| wr_WorkflowID := wf_ID wf; wr_Status := st; wr_Output := out;
                              wr_NodeResults := ∅; wr_Error := err |} in
  match groups with
  | [] => (w, (result WorkflowStatusCompleted input None, None))
  | g :: rest =>
      let '(w1, (outs, errs)) := run_group wf g input w in
      match errs with
      | [] => run_groups wf rest (mergeOutputs outs) w1
      | _ => (w1, (result WorkflowStatusFailed WNil (Some (join_errors errs)), Some (join_errors errs)))
      end
  end.

Definition ExecuteParallel (wf : Workflow) (input : WValue) (w : W) : option (W * (WorkflowResult * option error)) :=
  match identifyParallelGroups wf with
  | [] => ExecuteWorkflow wf input w
  | groups => Some (run_groups wf groups input w)
  end.
End Executor.
Arguments ExecuteWorkflow {W}.
Arguments ExecuteParallel {W}.

Section Layering.
(** ** The layering loop ends

    [good d]: edges from remaining nodes lead to remaining nodes, and a
    node's degree counts at least those edges.  Retiring a node of degree 0
    keeps this and removes exactly that node, so the number of remaining
    nodes bounds the layers. *)

Definition edge_count (P : WorkflowEdge -> bool) (es : list WorkflowEdge) (v : string) : Z :=
  Z.of_nat (List.length (List.filter (fun e => P e && String.eqb (e_To e) v) es)).

Definition degree (d : gmap string Z) (v : string) : Z := default 0%Z (d !! v).

Lemma exists_in_cons {A : Type} (Q : A -> Prop) (y : A) (l : list A) :
  (exists x, x ∈ y :: l /\ Q x) <-> Q y \/ exists x, x ∈ l /\ Q x.
Proof. setoid_rewrite elem_of_cons. split; [intros (x & [->|] & ?); eauto|intros [|(x & ? & ?)]; eauto]. Qed.

Lemma fold_bump k (P : WorkflowEdge -> bool) (es : list WorkflowEdge) d v :
  let d' := fold_left (fun d e => if P e then bump_degree k (e_To e) d else d) es d in
  degree d' v = (degree d v + k * edge_count P es v)%Z /\
  (is_Some (d' !! v) <-> is_Some (d !! v) \/ exists e, e ∈ es /\ P e = true /\ e_To e = v).
Proof.
  revert d. induction es as [|e es IH]; intros d; cbn [fold_left].
  { unfold edge_count. simpl. split; [lia|]. set_solver. }
  destruct (IH (if P e then bump_degree k (e_To e) d else d)) as [I1 I2]. cbv zeta. rewrite I1. split.
  - unfold edge_count. simpl. destruct (P e); simpl; [|done]. unfold bump_degree, degree.
    destruct (String.eqb_spec (e_To e) v) as [->|Hne]; simpl; [rewrite lookup_insert_eq; simpl|by rewrite lookup_insert_ne].
    lia.
  - rewrite I2, exists_in_cons. clear IH I1 I2. destruct (P e) eqn:HP.
    + unfold bump_degree. rewrite lookup_insert_is_Some. destruct (decide (e_To e = v)); tauto.
    + assert (~ (false = true /\ e_To e = v)) by (by intros []). tauto.
Qed.

Definition from_live (d : gmap string Z) (e : WorkflowEdge) : bool :=
  unconditional e && bool_decide (is_Some (d !! e_From e)).

Record good (wf : Workflow) (d : gmap string Z) : Prop := {
  g_closed : forall e, e ∈ wf_Edges wf -> from_live d e = true -> is_Some (d !! e_To e);
  g_degree : forall v, (edge_count (from_live d) (wf_Edges wf) v <= degree d v)%Z
}.

Lemma edge_count_split (P Q R : WorkflowEdge -> bool) (es : list WorkflowEdge) v :
  (forall e, e ∈ es -> e_To e = v -> P e = Q e || R e) -> (forall e, Q e = true -> R e = false) ->
  edge_count P es v = (edge_count Q es v + edge_count R es v)%Z.
Proof.
  intros HP HQ. unfold edge_count. induction es as [|e es IH]; simpl; [done|].
  specialize (IH ltac:(set_solver)). specialize (HP e ltac:(set_solver)). specialize (HQ e).
  destruct (String.eqb_spec (e_To e) v) as [Hv|]; rewrite ?andb_true_r, ?andb_false_r; [|done].
  rewrite (HP Hv). destruct (Q e); simpl; [rewrite HQ by done|destruct (R e)]; simpl; lia.
Qed.

Lemma edge_count_mono (P Q : WorkflowEdge -> bool) (es : list WorkflowEdge) v :
  (forall e, P e = true -> Q e = true) -> (edge_count P es v <= edge_count Q es v)%Z.
Proof.
  intros HPQ. unfold edge_count. induction es as [|e es IH]; simpl; [lia|]. specialize (HPQ e).
  destruct (P e), (String.eqb (e_To e) v); simpl; try rewrite HPQ by done; simpl; try lia.
  all: destruct (Q e); simpl; lia.
Qed.

Lemma edge_count_zero (P : WorkflowEdge -> bool) (es : list WorkflowEdge) v : (edge_count P es v <= 0)%Z -> forall e, e ∈ es -> e_To e = v -> P e = false.
Proof.
  unfold edge_count. intros Hz e He Hv. destruct (P e) eqn:HP; [|done]. exfalso.
  assert (e ∈ List.filter (fun e => P e && String.eqb (e_To e) v) es) as Hin.
  { apply list_elem_of_In, filter_In. split; [by apply list_elem_of_In|]. rewrite HP. by apply String.eqb_eq. }
  destruct (List.filter _ es); [set_solver|]. simpl in Hz. lia.
Qed.

Lemma retire_good wf d u :
  good wf d -> d !! u = Some 0%Z ->
  good wf (retire wf d u) /\ dom (retire wf d u) = dom d ∖ {[u]} /\
  (forall v, v <> u -> d !! v = Some 0%Z -> retire wf d u !! v = Some 0%Z).
Proof.
  intros [Gc Gd] Hu.
  set (P e := String.eqb (e_From e) u && unconditional e).
  assert (Hfb := fold_bump (-1) P (wf_Edges wf) d). cbv zeta in Hfb. unfold retire. fold P.
  set (d1 := fold_left _ (wf_Edges wf) d) in *.
  assert (HP : forall e, P e = true -> from_live d e = true).
  { intros e. unfold P, from_live. rewrite !andb_true_iff, String.eqb_eq, bool_decide_eq_true.
    intros [-> ->]. split; [done|]. by rewrite Hu. }
  assert (Hno : forall v, d !! v = Some 0%Z -> forall e, e ∈ wf_Edges wf -> e_To e = v -> from_live d e = false).
  { intros v Hv. apply edge_count_zero. specialize (Gd v). unfold degree in Gd. rewrite Hv in Gd. done. }
  assert (Hdom1 : forall v, is_Some (d1 !! v) <-> is_Some (d !! v)).
  { intros v. destruct (Hfb v) as [_ ->]. split; [|auto]. intros [|(e & He & HPe & <-)]; [done|].
    by apply Gc, HP. }
  assert (Hdom : forall v, is_Some (delete u d1 !! v) <-> is_Some (d !! v) /\ v <> u).
  { intros v. rewrite lookup_delete_is_Some, Hdom1. naive_solver. }
  assert (Hlive : forall e, e ∈ wf_Edges wf -> from_live d e = P e || from_live (delete u d1) e).
  { intros e He. unfold P, from_live. destruct (unconditional e); rewrite ?andb_true_r, ?andb_false_r; simpl; [|done].
    destruct (String.eqb_spec (e_From e) u) as [->|Hne]; simpl; [by rewrite bool_decide_eq_true_2 by (by rewrite Hu)|].
    apply bool_decide_ext. rewrite Hdom. naive_solver. }
  split; [split|split].
  - intros e He Hl. apply Hdom. split; [apply (Gc e He); rewrite Hlive by done; by rewrite Hl, orb_true_r|].
    intros Ht. pose proof (Hno u Hu e He Ht) as Hf. rewrite Hlive, Hl, orb_true_r in Hf by done. done.
  - intros v. specialize (Gd v). rewrite (edge_count_split (from_live d) P (from_live (delete u d1))) in Gd;
      [|intros; by apply Hlive|].
    + destruct (Hfb v) as [Hd1 _]. destruct (decide (v = u)) as [->|Hne].
      * unfold degree at 1. rewrite lookup_delete_eq. simpl. unfold degree in Gd. rewrite Hu in Gd. simpl in Gd.
        unfold edge_count in *. lia.
      * unfold degree in *. rewrite lookup_delete_ne by done. lia.
    + intros e. unfold P, from_live. rewrite andb_true_iff, String.eqb_eq. intros [-> _].
      rewrite bool_decide_eq_false_2, andb_false_r; [done|]. rewrite lookup_delete_eq. by intros [].
  - apply set_eq. intros v. rewrite elem_of_dom, Hdom, elem_of_difference, elem_of_dom, elem_of_singleton. done.
  - intros v Hne Hv. rewrite lookup_delete_ne by done. destruct (Hfb v) as [Hd1 _].
    assert (edge_count P (wf_Edges wf) v = 0%Z) as Hz.
    { unfold edge_count. apply (f_equal Z.of_nat (y := 0)). apply length_zero_iff_nil.
      destruct (List.filter _ (wf_Edges wf)) as [|e l] eqn:Hf; [done|]. exfalso.
      assert (e ∈ List.filter (fun e => P e && String.eqb (e_To e) v) (wf_Edges wf)) as Hin by (rewrite Hf; set_solver).
      apply list_elem_of_In, filter_In in Hin as [Hin [HPe Ht]%andb_true_iff]. apply list_elem_of_In in Hin.
      apply String.eqb_eq in Ht. pose proof (Hno v Hv e Hin Ht) as Hx. rewrite (HP e HPe) in Hx. done. }
    rewrite Hz in Hd1. destruct (Hdom1 v) as [_ Hs]. destruct Hs as [z Hzv]; [by rewrite Hv|].
    unfold degree in Hd1. rewrite Hzv, Hv in Hd1. simpl in Hd1. rewrite Hzv. f_equal. lia.
Qed.

Lemma retire_all wf us d :
  good wf d -> NoDup us -> (forall u, u ∈ us -> d !! u = Some 0%Z) ->
  good wf (fold_left (retire wf) us d) /\ size (fold_left (retire wf) us d) + List.length us = size d.
Proof.
  revert d. induction us as [|u us IH]; intros d Hg Hnd Hz; simpl; [split; [done|lia]|].
  inversion_clear Hnd as [|? ? Hu Hnd'].
  destruct (retire_good wf d u Hg) as (G1 & G2 & G3); [apply Hz; set_solver|].
  destruct (IH (retire wf d u) G1 Hnd') as [I1 I2].
  { intros v Hv. apply G3; [set_solver|]. apply Hz. set_solver. }
  split; [done|]. rewrite <- (size_dom d). rewrite <- (size_dom (retire wf d u)), G2 in I2.
  assert (u ∈ dom d) as Hin by (apply elem_of_dom; rewrite (Hz u) by set_solver; eauto).
  rewrite size_difference in I2 by set_solver. rewrite size_singleton in I2.
  assert (size (dom d) <> 0) by (rewrite size_empty_iff; set_solver). lia.
Qed.

Lemma ready_nodes_spec d : NoDup (ready_nodes d) /\ forall u, u ∈ ready_nodes d -> d !! u = Some 0%Z.
Proof.
  unfold ready_nodes. split.
  - pose proof (NoDup_fst_map_to_list d) as Hn. revert Hn.
    generalize (map_to_list d). induction l as [|[k z] l IH]; simpl; [constructor|].
    intros Hn. inversion_clear Hn as [|? ? Hk Hn']. destruct (z =? 0)%Z; [|auto]. simpl. constructor; [|auto].
    intros Hin. apply Hk. apply list_elem_of_fmap in Hin as (y & Hy & Hin). apply list_elem_of_fmap.
    apply list_elem_of_In, filter_In in Hin as [Hin _]. exists y. split; [done|by apply list_elem_of_In].
  - intros u ([k z] & -> & Hin)%list_elem_of_fmap. apply list_elem_of_In, filter_In in Hin as [Hin Hz].
    apply list_elem_of_In, elem_of_map_to_list in Hin. simpl in *. apply Z.eqb_eq in Hz. congruence.
Qed.

Lemma layers_enough wf fuel k d : good wf d -> size d <= fuel -> layers (fuel + k) wf d = layers fuel wf d.
Proof.
  revert d. induction fuel as [|fuel IH]; intros d Hg Hs.
  - assert (d = ∅) as -> by (apply map_size_empty_inv; lia).
    assert (ready_nodes ∅ = []) as Hr by reflexivity. destruct k; simpl; [done|by rewrite Hr].
  - cbn [layers Nat.add]. destruct (ready_nodes_spec d) as [Hnd Hz].
    destruct (ready_nodes d) as [|u us] eqn:Hr; [done|]. f_equal.
    destruct (retire_all wf (u :: us) d Hg Hnd Hz) as [G1 G2]. cbn [List.length] in G2. apply IH; [done|lia].
Qed.

Lemma in_degrees_good wf :
  good wf (in_degrees wf) /\ size (in_degrees wf) <= List.length (wf_Nodes wf) + List.length (wf_Edges wf).
Proof.
  assert (Hfb := fold_bump 1 unconditional (wf_Edges wf) (fold_left (fun d n => <[n_ID n := 0%Z]> d) (wf_Nodes wf) ∅)).
  cbv zeta in Hfb. fold (in_degrees wf) in Hfb. split; [split|].
  - intros e He [Hu _]%andb_true_iff. apply Hfb. right. eauto.
  - intros v. destruct (Hfb v) as [-> _].
    assert (0 <= degree (fold_left (fun d n => <[n_ID n := 0%Z]> d) (wf_Nodes wf) ∅) v)%Z as H0.
    { assert (forall ns (d : gmap string Z), (forall x, 0 <= degree d x)%Z ->
                forall x, (0 <= degree (fold_left (fun d n => <[n_ID n := 0%Z]> d) ns d) x)%Z) as Hg.
      { induction ns as [|n ns IH]; intros d Hd x; simpl; [done|]. apply IH. intros y. unfold degree.
        destruct (decide (n_ID n = y)) as [->|]; [by rewrite lookup_insert_eq|by rewrite lookup_insert_ne; [apply Hd|]]. }
      apply Hg. intros x. unfold degree. by rewrite lookup_empty. }
    assert (edge_count (from_live (in_degrees wf)) (wf_Edges wf) v <= edge_count unconditional (wf_Edges wf) v)%Z; [|lia].
    apply edge_count_mono. by intros e [? _]%andb_true_iff.
  - unfold in_degrees. generalize (wf_Edges wf). intros es.
    assert (forall es (d : gmap string Z), size (fold_left (fun d e => if unconditional e then bump_degree 1 (e_To e) d else d) es d)
              <= size d + List.length es) as He.
    { clear. induction es as [|e es IH]; intros d; simpl; [lia|].
      destruct (unconditional e); [|specialize (IH d); lia]. specialize (IH (bump_degree 1 (e_To e) d)).
      assert (size (bump_degree 1 (e_To e) d) <= S (size d)); [|lia].
      unfold bump_degree. rewrite map_size_insert. destruct (d !! e_To e); simpl; lia. }
    assert (forall ns (d : gmap string Z), size (fold_left (fun d n => <[n_ID n := 0%Z]> d) ns d)
              <= size d + List.length ns) as Hn.
    { clear. induction ns as [|n ns IH]; intros d; simpl; [lia|].
      specialize (IH (<[n_ID n := 0%Z]> d)). rewrite map_size_insert in IH. destruct (d !! n_ID n); simpl in IH; lia. }
    etrans; [apply He|]. specialize (Hn (wf_Nodes wf) ∅). rewrite map_size_empty in Hn. lia.
Qed.
End Layering.

(** A workflow always ends: whatever the graph (cycles through normal,
    conditional and error edges included) and whatever nodes, conditions and
    agents answer, [ExecuteWorkflow] returns. *)
Theorem ExecuteWorkflow_terminates {W : Type} (E : WfEnv W) (render : list string -> string) (maxRetries : Z)
    (wf : Workflow) (input : WValue) (w : W) :
  exists out, ExecuteWorkflow E render maxRetries wf input w = Some out.
Proof.
  unfold ExecuteWorkflow. destruct (findStartNode wf) as [n|] eqn:Hs; [|eauto].
  destruct (run_nodes_total E render maxRetries (workflow_fuel maxRetries wf) wf (Some n) (start_loop input) w)
    as [[w' [r l]] ->]; [|intros id; unfold visits; simpl; by rewrite lookup_empty| |simpl; eauto].
  - intros m [= <-]. by apply findStartNode_in.
  - pose proof (budget_start maxRetries (node_ids wf) input). unfold workflow_fuel. lia.
Qed.

(** Bounded work and honest completion: no node is executed more than
    [maxRetries] times in a run, and a run reported as completed carries no
    error, recorded no failed node, and outputs what the last executed node
    produced (or the input when none ran). *)
Theorem workflow_run_sound {W : Type} (E : WfEnv W) (render : list string -> string) (maxRetries : Z)
    (wf : Workflow) (n : WorkflowNode) (input : WValue) (w w' : W) (r : WorkflowResult) (l : Loop) :
  run_nodes E render maxRetries (workflow_fuel maxRetries wf) wf (Some n) (start_loop input) w = Some (w', (r, l)) ->
  (forall id, runs l id <= Z.max 0 maxRetries)%Z /\
  (wr_Status r = WorkflowStatusCompleted ->
     wr_Error r = None /\
     (forall id nr, wr_NodeResults r !! id = Some nr -> nr_Error nr = None) /\
     ((lp_trace l = [] /\ wr_Output r = input) \/
      exists id nr, last (lp_trace l) = Some id /\ wr_NodeResults r !! id = Some nr /\ nr_Output nr = wr_Output r)).
Proof.
  intros Hr. destruct (run_nodes_ok E render maxRetries _ wf (Some n) input _ w w' r l (start_inv maxRetries input) Hr)
    as (H1 & H2 & H3).
  split; [done|]. intros Hs. destruct (H3 Hs) as (He & Hl & Ho & [_ Hi1 Hi2]). split; [done|]. rewrite H2, Ho. split.
  - intros id nr Hn. destruct (nr_Error nr) eqn:Hne; [|done]. exfalso. eapply Hi1; [done|by rewrite Hne|done].
  - exact (Hi2 Hl).
Qed.

(** The error of a failed run is dropped: when the node that runs first
    fails and has no error edge, the result says failed but carries no error,
    and no Go error is returned either. *)
Theorem failed_node_error_lost {W : Type} (E : WfEnv W) (render : list string -> string) (maxRetries : Z)
    (wf : Workflow) (n : WorkflowNode) (input : WValue) (w w1 : W) (nr : NodeResult) :
  findStartNode wf = Some n -> env_ctx E w = None -> (1 <= maxRetries)%Z ->
  executeNode E maxRetries n input w = (w1, nr) -> nr_Error nr <> None -> findErrorEdge wf n = None ->
  exists r, ExecuteWorkflow E render maxRetries wf input w = Some (w1, (r, None)) /\
    wr_Status r = WorkflowStatusFailed /\ wr_Error r = None /\ wr_NodeResults r !! n_ID n = Some nr.
Proof.
  intros Hs Hc Hm Hx Hne Hee. unfold ExecuteWorkflow. rewrite Hs. unfold workflow_fuel. cbn [run_nodes].
  assert (visits (start_loop input) (n_ID n) = 0%Z) as -> by (unfold visits; simpl; by rewrite lookup_empty).
  rewrite Hc. destruct (Z.ltb_spec maxRetries (0 + 1)); [lia|]. cbn [start_loop lp_input]. rewrite Hx.
  destruct (nr_Error nr) as [x|]; [|done]. rewrite Hee. cbn [fmap option_fmap option_map].
  eexists. split; [reflexivity|]. cbn [wr_Status wr_Error wr_NodeResults result_of lp_results].
  by rewrite lookup_insert_eq.
Qed.

(** The layering of the parallel executor ends on every graph: a layer is
    found for each remaining source until none is left (cycles, self loops,
    dangling and duplicate edges included), and the bound of the model does
    not cut it short: more fuel never gives another grouping. *)
Theorem layering_terminates (wf : Workflow) (k : nat) :
  layers (List.length (wf_Nodes wf) + List.length (wf_Edges wf) + k) wf (in_degrees wf)
  = identifyParallelGroups wf.
Proof. destruct (in_degrees_good wf). unfold identifyParallelGroups. apply layers_enough; assumption. Qed.

(** ** Concrete workflows *)

(** Every role has an agent; a node logs its id and succeeds, except [bad]. *)
Definition log_env : WfEnv (list string) :=
  {| env_agent role w := (w, Some "agent");
     env_exec n input agent w := ((w ++ [n_ID n])%list,
        if String.eqb (n_ID n) "bad" then Err (EText "boom") else Ok (WStr ("out-" +:+ n_ID n)));
     env_query _ _ w := (w, Ok 1);
     env_ctx _ := None;
     env_wait _ w := (w, None) |}.

Definition wnode (id : string) : WorkflowNode := {| n_ID := id; n_Type := "agent"; n_Agent := "role"; n_Config := ∅ |}.
Definition wedge (a b : string) : WorkflowEdge := {| e_From := a; e_To := b; e_Condition := "" |}.

(** [fetch -> {left, right} -> publish]. *)
Definition diamond : Workflow :=
  {| wf_ID := "diamond"; wf_Name := ""; wf_Version := ""; wf_Nodes := map wnode ["fetch"; "left"; "right"; "publish"];
     wf_Edges := [wedge "fetch" "left"; wedge "fetch" "right"; wedge "left" "publish"; wedge "right" "publish"] |}.

(** The parallel executor skips every layer of one node: on a diamond
    (one source, two parallel nodes, one sink) it reports completion having
    run the middle layer only; neither the source nor the sink is executed. *)
Theorem parallel_skips_singleton_layers :
  exists w r, ExecuteParallel log_env (fun _ => "") 3 diamond WNil [] = Some (w, (r, None)) /\
    wr_Status r = WorkflowStatusCompleted /\ ("fetch" ∉ w) /\ ("publish" ∉ w) /\ "left" ∈ w /\ "right" ∈ w.
Proof. eexists _, _. split; [vm_compute; reflexivity|]. split; [done|]. set_solver. Qed.

Definition broken : Workflow := {| wf_ID := "broken"; wf_Name := ""; wf_Version := ""; wf_Nodes := [wnode "bad"]; wf_Edges := [] |}.
Definition broken_node : NodeResult :=
  {| nr_NodeID := "bad"; nr_AgentID := "agent"; nr_Input := WNil; nr_Output := WNil;
     nr_Error := Some (EText "boom"); nr_RetryCount := 1 |}.

Lemma failed_node_error_lost_witness :
  exists r, ExecuteWorkflow log_env (fun _ => "") 1 broken WNil [] = Some (["bad"; "bad"], (r, None)) /\
    wr_Status r = WorkflowStatusFailed /\ wr_Error r = None /\ wr_NodeResults r !! "bad" = Some broken_node.
Proof.
  apply (failed_node_error_lost log_env (fun _ => "") 1 broken (wnode "bad") WNil [] ["bad"; "bad"] broken_node);
    [done|done|lia|by vm_compute|done|done].
Defined.

Definition chain : Workflow :=
  {| wf_ID := "chain"; wf_Name := ""; wf_Version := ""; wf_Nodes := map wnode ["a"; "b"]; wf_Edges := [wedge "a" "b"] |}.
Definition chain_out : list string * (WorkflowResult * Loop) :=
  default ([], (result_of chain WorkflowStatusRunning WNil None (start_loop WNil), start_loop WNil))
    (run_nodes log_env (fun _ => "") 3 (workflow_fuel 3 chain) chain (Some (wnode "a")) (start_loop WNil) []).

Lemma workflow_run_sound_witness :
  (forall id, runs (snd (snd chain_out)) id <= Z.max 0 3)%Z /\ wr_Error (fst (snd chain_out)) = None.
Proof.
  destruct (workflow_run_sound log_env (fun _ => "") 3 chain (wnode "a") WNil [] (fst chain_out)
              (fst (snd chain_out)) (snd (snd chain_out))) as [H1 H2]; [by_vm|].
  split; [exact H1|]. apply H2. by_vm.
Defined.
