(* ===== verification/Float64.v ===== *)
(** * Go's [float64]

    IEEE-754 binary64 as the Standard Library's executable specification
    ([SpecFloat], 53 bits of precision, exponents below 1024): the operations,
    comparisons and conversions the code uses, [math.Min], and the builtins
    [min] and [max] on floats.  Literals are their nearest doubles. *)
From S2P Require Import Prelude.
From Stdlib Require Import SpecFloat.

Abbreviation float64 := spec_float.

#[global] Instance float64_eq_dec : EqDecision float64.
Proof. solve_decision. Defined.

Definition f_add : float64 -> float64 -> float64 := SFadd 53 1024.
Definition f_sub : float64 -> float64 -> float64 := SFsub 53 1024.
Definition f_mul : float64 -> float64 -> float64 := SFmul 53 1024.
Definition f_div : float64 -> float64 -> float64 := SFdiv 53 1024.
Definition f_lt : float64 -> float64 -> bool := SFltb.
Definition f_le : float64 -> float64 -> bool := SFleb.
Definition f_eq : float64 -> float64 -> bool := SFeqb.

(** [float64(n)] for an integer [n]. *)
Definition f_of_int (n : Z) : float64 := binary_normalize 53 1024 n 0 false.

Definition f_zero : float64 := S754_zero false.
Definition f_0_01 : float64 := S754_finite false 5764607523034235 (-59).
Definition f_0_05 : float64 := S754_finite false 7205759403792794 (-57).
Definition f_0_1 : float64 := S754_finite false 7205759403792794 (-56).
Definition f_0_2 : float64 := S754_finite false 7205759403792794 (-55).
Definition f_0_3 : float64 := S754_finite false 5404319552844595 (-54).
Definition f_0_4 : float64 := S754_finite false 7205759403792794 (-54).
Definition f_0_5 : float64 := S754_finite false 4503599627370496 (-53).
Definition f_0_6 : float64 := S754_finite false 5404319552844595 (-53).
Definition f_0_7 : float64 := S754_finite false 6305039478318694 (-53).
Definition f_0_8 : float64 := S754_finite false 7205759403792794 (-53).
Definition f_0_9 : float64 := S754_finite false 8106479329266893 (-53).
Definition f_1 : float64 := S754_finite false 4503599627370496 (-52).

Definition is_nan (x : float64) : bool :=
  match x with S754_nan => true | _ => false end.
Definition signbit (x : float64) : bool :=
  match x with
  | S754_zero s | S754_infinity s | S754_finite s _ _ => s
  | S754_nan => false
  end.

(** [math.Min], with its special cases. *)
Definition math_Min (x y : float64) : float64 :=
  if bool_decide (x = S754_infinity true) || bool_decide (y = S754_infinity true) then S754_infinity true
  else if is_nan x || is_nan y then S754_nan
  else if f_eq x f_zero && f_eq x y then (if signbit x then x else y)
  else if f_lt x y then x else y.

(** The builtins: a NaN wins, and negative zero is below zero. *)
Definition go_min (x y : float64) : float64 :=
  if is_nan x || is_nan y then S754_nan
  else if f_eq x f_zero && f_eq y f_zero then (if signbit x then x else y)
  else if f_lt x y then x else y.
Definition go_max (x y : float64) : float64 :=
  if is_nan x || is_nan y then S754_nan
  else if f_eq x f_zero && f_eq y f_zero then (if signbit x then y else x)
  else if f_lt x y then y else x.

(** ** Lemmas *)

Lemma f_lt_le x y : f_lt x y = true -> f_le x y = true.
Proof. unfold f_lt, f_le, SFltb, SFleb. by destruct (SFcompare x y) as [[]|]. Qed.

Lemma f_le_refl x : is_nan x = false -> f_le x x = true.
Proof.
  unfold f_le, SFleb. destruct x as [s|s| |s m e]; try done; intros _; try by destruct s.
  unfold SFcompare. rewrite Z.compare_refl, Pos.compare_cont_refl. by destruct s.
Qed.

Lemma f_eq_le x y : f_eq x y = true -> f_le x y = true.
Proof. unfold f_eq, f_le, SFeqb, SFleb. by destruct (SFcompare x y) as [[]|]. Qed.

(** A minimum with a number is a number at most that, or NaN. *)
Lemma math_Min_le_r x y :
  is_nan y = false -> is_nan (math_Min x y) = true \/ f_le (math_Min x y) y = true.
Proof.
  intros Hy. unfold math_Min.
  case_bool_decide; simpl; [right; by destruct y as [[]|[]| |[] ? ?]|].
  case_bool_decide; simpl; [right; by subst|]. rewrite Hy, orb_false_r.
  destruct (is_nan x) eqn:Hx; [by left|right].
  destruct (f_eq x f_zero && f_eq x y) eqn:He.
  - apply andb_true_iff in He as [_ He]. destruct (signbit x); [by apply f_eq_le|by apply f_le_refl].
  - destruct (f_lt x y) eqn:Hlt; [by apply f_lt_le|by apply f_le_refl].
Qed.

(** The order is asymmetric. *)
Lemma f_le_not_lt x y : f_le x y = true -> f_lt y x = false.
Proof.
  unfold f_le, f_lt, SFleb, SFltb.
  destruct x as [[]|[]| |[] m e], y as [[]|[]| |[] m' e']; simpl; try done;
    rewrite (Z.compare_antisym e e'); destruct (e ?= e')%Z; simpl; try done;
    pose proof (Pos.compare_cont_antisym m m' Eq) as Hc; cbn in Hc; destruct (Pos.compare_cont Eq m m'), (Pos.compare_cont Eq m' m); done.
Qed.

Lemma is_nan_not_gt x y : is_nan x = true -> f_lt y x = false.
Proof. by destruct x, y as [[]|[]| |[] ? ?]. Qed.

(** A minimum with a number is never above it. *)
Lemma math_Min_not_gt x y : is_nan y = false -> f_lt y (math_Min x y) = false.
Proof. intros H. destruct (math_Min_le_r x y H); auto using is_nan_not_gt, f_le_not_lt. Qed.
