(* ===== verification/Ooda.v ===== *)
(** * The OODA loop

    [x/ooda]: the cognitive frame ([domain.go]), its attention memory
    ([memory.go]), the action registry and dispatcher ([registry.go]), the
    phases and their two drivers [Run] ([frame.go]) and [RunOODA]
    ([oooda.go]), schema and rule validation ([verify.go]), the
    capability-based [Loop] ([loop.go]) and the flow wrapper of
    [x/oodaflow/oodaflow.go].

    The components of a frame (memory, brain, executor, stores, tools) are
    the fields of [Ports], functions on an arbitrary world [W]; they read the
    frame and return their result.  A phase is a [Step]: it returns the frame
    it leaves (also when it fails), the world and the error, or [None] when
    the Go code panics.  The wall clock is not modelled: [fr_PhaseDurations]
    is the set of phases with a recorded duration, and [ctx_done k] is the
    context error that interrupts the wait before attempt [k], if any. *)
From S2P Require Import Prelude GoStrings CoreErrors CoreTypes Reflect Float64.
From Stdlib Require Import Ascii String.
Open Scope string_scope.

Definition PhaseObserve : string := "observe".
Definition PhaseOrient : string := "orient".
Definition PhasePlan : string := "plan".
Definition PhaseDecide : string := "decide".
Definition PhaseVerify : string := "verify".
Definition PhaseAct : string := "act".
Definition PhasePostAct : string := "post_act".

Definition VerifyStatusPending : string := "PENDING".
Definition VerifyStatusPassed : string := "FP32_PASSED".
Definition VerifyStatusFailed : string := "LOGIC_VIOLATION".
Definition VerifyStatusWarning : string := "WARNING".

Definition TaskTypeGeneration : string := "GENERATION".

(** [ooda.Atom] and [core.Atom] have the same fields. *)
Record OAtom := {
  oa_Predicate : string;
  oa_Subject : string;
  oa_Object : string;
  oa_Weight : float64;
  oa_OriginIntent : string
}.

Record EASTState := {
  es_LogicSuccess : float64;
  es_EntropyCoefficient : float64;
  es_SteeringMagnitude : float64;
  es_Entropy : float64;
  es_Activity : gmap string Z;
  es_Saliency : list string;
  es_TrustTier : string;
  es_ParadoxThreshold : float64
}.

Definition DefaultParadoxThreshold : float64 := f_0_8.

(** [EASTState{ParadoxThreshold: t}]. *)
Definition zero_EAST (t : float64) : EASTState :=
  {| es_LogicSuccess := f_zero; es_EntropyCoefficient := f_zero; es_SteeringMagnitude := f_zero;
     es_Entropy := f_zero; es_Activity := ∅; es_Saliency := []; es_TrustTier := ""; es_ParadoxThreshold := t |}.

Record ExecutionObject := {
  eo_AttentionSink : list OAtom;
  eo_Context : list OAtom;
  eo_EAST : EASTState;
  eo_GraphID : string;
  eo_KBVersion : string
}.

Record RefinementContext := {
  rc_FailedRules : list string;
  rc_ConflictPath : string;
  rc_PreviousDraft : GoVal;
  rc_AttemptNumber : Z
}.

(** The values the loops put into [RawContext], and the caller's own. *)
Inductive RawVal :=
| RExec (o : ExecutionObject)
| RFeedback (c : RefinementContext)
| RFloat (x : float64)
| RGo (v : GoVal).

(** [frame.AuditTrail] is a pointer: either the one of [frame.Decision], which
    [executeWithDispatcher] appends to, or another. *)
Inductive TrailRef :=
| TrDecision
| TrOwn (t : option AuditTrail).

(** The fields no phase writes. *)
Record FrameConfig := {
  fc_ID : string;
  fc_Intent : string;
  fc_TaskType : string;
  fc_Input : string;
  fc_GraphID : string;
  fc_KBVersion : string;
  fc_SessionID : string;
  fc_WorkflowID : string;
  fc_MaxRetries : Z
}.

Record CognitiveFrame := {
  fr_cfg : FrameConfig;
  fr_Phase : string;
  fr_Context : list OAtom;
  fr_AttentionSink : list OAtom;
  fr_RawContext : option (gmap string RawVal);
  fr_Draft : GoVal;
  fr_Status : string;
  fr_EAST : EASTState;
  fr_Decision : option Decision;
  fr_AuditTrail : TrailRef;
  fr_ActionResult : GoVal;
  fr_RetryCount : Z;
  fr_PhaseDurations : gset string
}.

Definition with_Phase (v : string) (f : CognitiveFrame) : CognitiveFrame :=
  {| fr_cfg := fr_cfg f; fr_Phase := v; fr_Context := fr_Context f; fr_AttentionSink := fr_AttentionSink f;
     fr_RawContext := fr_RawContext f; fr_Draft := fr_Draft f; fr_Status := fr_Status f; fr_EAST := fr_EAST f;
     fr_Decision := fr_Decision f; fr_AuditTrail := fr_AuditTrail f; fr_ActionResult := fr_ActionResult f;
     fr_RetryCount := fr_RetryCount f; fr_PhaseDurations := fr_PhaseDurations f |}.
Definition with_Context (v : list OAtom) (f : CognitiveFrame) : CognitiveFrame :=
  {| fr_cfg := fr_cfg f; fr_Phase := fr_Phase f; fr_Context := v; fr_AttentionSink := fr_AttentionSink f;
     fr_RawContext := fr_RawContext f; fr_Draft := fr_Draft f; fr_Status := fr_Status f; fr_EAST := fr_EAST f;
     fr_Decision := fr_Decision f; fr_AuditTrail := fr_AuditTrail f; fr_ActionResult := fr_ActionResult f;
     fr_RetryCount := fr_RetryCount f; fr_PhaseDurations := fr_PhaseDurations f |}.
Definition with_AttentionSink (v : list OAtom) (f : CognitiveFrame) : CognitiveFrame :=
  {| fr_cfg := fr_cfg f; fr_Phase := fr_Phase f; fr_Context := fr_Context f; fr_AttentionSink := v;
     fr_RawContext := fr_RawContext f; fr_Draft := fr_Draft f; fr_Status := fr_Status f; fr_EAST := fr_EAST f;
     fr_Decision := fr_Decision f; fr_AuditTrail := fr_AuditTrail f; fr_ActionResult := fr_ActionResult f;
     fr_RetryCount := fr_RetryCount f; fr_PhaseDurations := fr_PhaseDurations f |}.
Definition with_RawContext (v : option (gmap string RawVal)) (f : CognitiveFrame) : CognitiveFrame :=
  {| fr_cfg := fr_cfg f; fr_Phase := fr_Phase f; fr_Context := fr_Context f; fr_AttentionSink :=
     fr_AttentionSink f; fr_RawContext := v; fr_Draft := fr_Draft f; fr_Status := fr_Status f; fr_EAST :=
     fr_EAST f; fr_Decision := fr_Decision f; fr_AuditTrail := fr_AuditTrail f; fr_ActionResult :=
     fr_ActionResult f; fr_RetryCount := fr_RetryCount f; fr_PhaseDurations := fr_PhaseDurations f |}.
Definition with_Status (v : string) (f : CognitiveFrame) : CognitiveFrame :=
  {| fr_cfg := fr_cfg f; fr_Phase := fr_Phase f; fr_Context := fr_Context f; fr_AttentionSink :=
     fr_AttentionSink f; fr_RawContext := fr_RawContext f; fr_Draft := fr_Draft f; fr_Status := v; fr_EAST :=
     fr_EAST f; fr_Decision := fr_Decision f; fr_AuditTrail := fr_AuditTrail f; fr_ActionResult :=
     fr_ActionResult f; fr_RetryCount := fr_RetryCount f; fr_PhaseDurations := fr_PhaseDurations f |}.
Definition with_EAST (v : EASTState) (f : CognitiveFrame) : CognitiveFrame :=
  {| fr_cfg := fr_cfg f; fr_Phase := fr_Phase f; fr_Context := fr_Context f; fr_AttentionSink :=
     fr_AttentionSink f; fr_RawContext := fr_RawContext f; fr_Draft := fr_Draft f; fr_Status := fr_Status f;
     fr_EAST := v; fr_Decision := fr_Decision f; fr_AuditTrail := fr_AuditTrail f; fr_ActionResult :=
     fr_ActionResult f; fr_RetryCount := fr_RetryCount f; fr_PhaseDurations := fr_PhaseDurations f |}.
Definition with_Decision (v : option Decision) (f : CognitiveFrame) : CognitiveFrame :=
  {| fr_cfg := fr_cfg f; fr_Phase := fr_Phase f; fr_Context := fr_Context f; fr_AttentionSink :=
     fr_AttentionSink f; fr_RawContext := fr_RawContext f; fr_Draft := fr_Draft f; fr_Status := fr_Status f;
     fr_EAST := fr_EAST f; fr_Decision := v; fr_AuditTrail := fr_AuditTrail f; fr_ActionResult :=
     fr_ActionResult f; fr_RetryCount := fr_RetryCount f; fr_PhaseDurations := fr_PhaseDurations f |}.
Definition with_AuditTrail (v : TrailRef) (f : CognitiveFrame) : CognitiveFrame :=
  {| fr_cfg := fr_cfg f; fr_Phase := fr_Phase f; fr_Context := fr_Context f; fr_AttentionSink :=
     fr_AttentionSink f; fr_RawContext := fr_RawContext f; fr_Draft := fr_Draft f; fr_Status := fr_Status f;
     fr_EAST := fr_EAST f; fr_Decision := fr_Decision f; fr_AuditTrail := v; fr_ActionResult := fr_ActionResult
     f; fr_RetryCount := fr_RetryCount f; fr_PhaseDurations := fr_PhaseDurations f |}.
Definition with_ActionResult (v : GoVal) (f : CognitiveFrame) : CognitiveFrame :=
  {| fr_cfg := fr_cfg f; fr_Phase := fr_Phase f; fr_Context := fr_Context f; fr_AttentionSink :=
     fr_AttentionSink f; fr_RawContext := fr_RawContext f; fr_Draft := fr_Draft f; fr_Status := fr_Status f;
     fr_EAST := fr_EAST f; fr_Decision := fr_Decision f; fr_AuditTrail := fr_AuditTrail f; fr_ActionResult := v;
     fr_RetryCount := fr_RetryCount f; fr_PhaseDurations := fr_PhaseDurations f |}.
Definition with_RetryCount (v : Z) (f : CognitiveFrame) : CognitiveFrame :=
  {| fr_cfg := fr_cfg f; fr_Phase := fr_Phase f; fr_Context := fr_Context f; fr_AttentionSink :=
     fr_AttentionSink f; fr_RawContext := fr_RawContext f; fr_Draft := fr_Draft f; fr_Status := fr_Status f;
     fr_EAST := fr_EAST f; fr_Decision := fr_Decision f; fr_AuditTrail := fr_AuditTrail f; fr_ActionResult :=
     fr_ActionResult f; fr_RetryCount := v; fr_PhaseDurations := fr_PhaseDurations f |}.
Definition with_PhaseDurations (v : gset string) (f : CognitiveFrame) : CognitiveFrame :=
  {| fr_cfg := fr_cfg f; fr_Phase := fr_Phase f; fr_Context := fr_Context f; fr_AttentionSink :=
     fr_AttentionSink f; fr_RawContext := fr_RawContext f; fr_Draft := fr_Draft f; fr_Status := fr_Status f;
     fr_EAST := fr_EAST f; fr_Decision := fr_Decision f; fr_AuditTrail := fr_AuditTrail f; fr_ActionResult :=
     fr_ActionResult f; fr_RetryCount := fr_RetryCount f; fr_PhaseDurations := v |}.

(** [frame.PhaseDurations[p] = time.Since(start)]. *)
Definition record (p : string) (f : CognitiveFrame) : CognitiveFrame :=
  with_PhaseDurations ({[ p ]} ∪ fr_PhaseDurations f) f.

Definition frame_trail (f : CognitiveFrame) : option AuditTrail :=
  match fr_AuditTrail f with
  | TrDecision => fr_Decision f ≫= d_AuditTrail
  | TrOwn t => t
  end.

(** [frame.Decision = d; if d != nil { frame.AuditTrail = d.AuditTrail }]. *)
Definition assign_decision (d : option Decision) (f : CognitiveFrame) : CognitiveFrame :=
  match d with
  | Some _ => with_AuditTrail TrDecision (with_Decision d f)
  | None => with_Decision None (with_AuditTrail (TrOwn (frame_trail f)) f)
  end.

Definition NewCognitiveFrame (id input intent taskType : string) : CognitiveFrame :=
  {| fr_cfg := {| fc_ID := id; fc_Intent := intent; fc_TaskType := taskType; fc_Input := input; fc_GraphID := "";
                  fc_KBVersion := ""; fc_SessionID := ""; fc_WorkflowID := ""; fc_MaxRetries := 3 |};
     fr_Phase := PhaseObserve; fr_Context := []; fr_AttentionSink := []; fr_RawContext := Some ∅; fr_Draft := GNil;
     fr_Status := VerifyStatusPending; fr_EAST := zero_EAST DefaultParadoxThreshold; fr_Decision := None;
     fr_AuditTrail := TrOwn None; fr_ActionResult := GNil; fr_RetryCount := 0; fr_PhaseDurations := ∅ |}.

Definition NewExecutionObject (f : CognitiveFrame) : ExecutionObject :=
  {| eo_AttentionSink := fr_AttentionSink f; eo_Context := fr_Context f; eo_EAST := fr_EAST f;
     eo_GraphID := fc_GraphID (fr_cfg f); eo_KBVersion := fc_KBVersion (fr_cfg f) |}.

(** ** Attention memory *)

Definition DefaultMaxContextTokens : Z := 24000.
Definition ShaveThreshold : float64 := f_0_5.

Definition with_Weight (v : float64) (a : OAtom) : OAtom :=
  {| oa_Predicate := oa_Predicate a; oa_Subject := oa_Subject a; oa_Object := oa_Object a; oa_Weight := v;
     oa_OriginIntent := oa_OriginIntent a |}.

Definition PinAxiom (f : CognitiveFrame) (a : OAtom) : CognitiveFrame :=
  with_AttentionSink (fr_AttentionSink f ++ [with_Weight f_1 a])%list f.

Definition AddContext (f : CognitiveFrame) (a : OAtom) : CognitiveFrame :=
  let a := if f_eq (oa_Weight a) f_zero then with_Weight f_0_5 a else a in
  with_Context (fr_Context f ++ [a])%list f.

(** Characters of an atom with its separators. *)
Definition atom_chars (a : OAtom) : Z :=
  Z.of_nat (String.length (oa_Predicate a)) + Z.of_nat (String.length (oa_Subject a))
  + Z.of_nat (String.length (oa_Object a)) + 3.

Definition total_chars (atoms : list OAtom) : Z := foldr (fun a n => atom_chars a + n)%Z 0%Z atoms.

Definition estimateTokens (atoms : list OAtom) : Z :=
  let total := total_chars atoms in
  if (0 <? total)%Z then (total / 4)%Z else (Z.of_nat (List.length atoms) * 4)%Z.

Definition EstimateTotalTokens (f : CognitiveFrame) : Z :=
  (estimateTokens (fr_AttentionSink f) + estimateTokens (fr_Context f))%Z.

Fixpoint trim_from (used maxTokens : Z) (atoms : list OAtom) : list OAtom :=
  match atoms with
  | [] => []
  | a :: rest =>
      let tokens := estimateTokens [a] in
      if (maxTokens <? used + tokens)%Z then [] else a :: trim_from (used + tokens) maxTokens rest
  end.
Definition trimmedToBudget (atoms : list OAtom) (maxTokens : Z) : list OAtom := trim_from 0 maxTokens atoms.

(** [sort] is [sort.Slice] by descending weight, which is not stable. *)
Definition ShaveContext (sort : list OAtom -> list OAtom) (maxTokens : Z) (f : CognitiveFrame) : CognitiveFrame :=
  let maxTokens := if (maxTokens <=? 0)%Z then DefaultMaxContextTokens else maxTokens in
  if (estimateTokens (fr_Context f) <=? maxTokens)%Z then f
  else
    let shaved := List.filter (fun a => f_le ShaveThreshold (oa_Weight a)) (fr_Context f) in
    with_Context (trimmedToBudget (sort shaved) maxTokens) f.

Definition activity_key (a : OAtom) : string := oa_Predicate a +:+ ":" +:+ oa_Subject a.

Definition cold (activity : gmap string Z) (a : OAtom) : bool :=
  (default 0 (activity !! activity_key a) <=? 1)%Z && f_lt (oa_Weight a) ShaveThreshold.

Definition PruneColdAtoms (activity : gmap string Z) (f : CognitiveFrame) : CognitiveFrame :=
  with_Context (List.filter (fun a => negb (cold activity a)) (fr_Context f)) f.

(** ** Actions: registry and dispatcher *)

Section Registry.
Context {W : Type}.

(** [ToolFunc]: arguments to a result text and an error. *)
Definition ToolFunc : Type := gmap string GoVal -> W -> W * (string * option error).

(** A registered tool may be the nil function. *)
Definition Registry : Type := gmap string (option ToolFunc).

Definition Registry_Register (name : string) (fn : option ToolFunc) (r : Registry) : Registry * option error :=
  match r !! name with
  | Some _ => (r, Some (EText ("tool '" +:+ name +:+ "' already registered")))
  | None => (<[name := fn]> r, None)
  end.

(** [MustRegister] panics on an error. *)
Definition MustRegister (name : string) (fn : option ToolFunc) (r : Registry) : option Registry :=
  match Registry_Register name fn r with (r', None) => Some r' | (_, Some _) => None end.

Definition Unregister (name : string) (r : Registry) : Registry := delete name r.
Definition Registry_Get (name : string) (r : Registry) : option ToolFunc := mjoin (r !! name).
Definition Registry_Has (name : string) (r : Registry) : bool := bool_decide (is_Some (r !! name)).

(** [listing] is the text of the registered names, in map order. *)
Definition Registry_Execute (listing : Registry -> string) (name : string) (args : gmap string GoVal) (r : Registry) (w : W)
  : W * (string * option error) :=
  match Registry_Get name r with
  | Some fn => fn args w
  | None => (w, ("", Some (EText ("unknown action: " +:+ name +:+ " (registered: " +:+ listing r +:+ ")"))))
  end.

Record Dispatcher := {
  dp_registry : Registry;
  dp_fallback : option ToolFunc
}.

Definition NewDispatcher (r : Registry) : Dispatcher := {| dp_registry := r; dp_fallback := None |}.
Definition WithFallback (fn : option ToolFunc) (d : Dispatcher) : Dispatcher :=
  {| dp_registry := dp_registry d; dp_fallback := fn |}.

(** [SafeStop] ignores its arguments. *)
Definition SafeStop : string * option error :=
  ("STOPPED: SafeStop invoked due to undefined action or high-risk state", None).

Definition Dispatch (d : Dispatcher) (actionName : string) (args : gmap string GoVal) (w : W)
  : W * (string * option error) :=
  match Registry_Get actionName (dp_registry d) with
  | Some fn => fn args w
  | None =>
      let errMsg := "SOVEREIGN VIOLATION: action '" +:+ actionName
                      +:+ "' not found in registry - capability mismatch" in
      match SafeStop with
      | (_, Some e) => (w, ("", Some (EWrap (errMsg +:+ "; SafeStop failed: ") e)))
      | (text, None) => (w, (text, Some (EText errMsg)))
      end
  end.
End Registry.
Arguments ToolFunc W : clear implicits.
Arguments Registry W : clear implicits.
Arguments Dispatcher W : clear implicits.

(** ** The components of a frame *)

Record TransientFact := { tf_Subject : string; tf_Predicate : string; tf_Object : string; tf_Graph : string;
                         tf_CreatedAt : string }.

Record Memory (W : Type) := {
  mem_Recall : string -> W -> W * res error (list OAtom);
  mem_Commit : CognitiveFrame -> W -> W * option error
}.
Record Brain (W : Type) := {
  br_Evaluate : CognitiveFrame -> W -> W * res error (option Decision);
  br_Verify : CognitiveFrame -> W -> W * res error (option AuditTrail);
  (* the brain's planning method, when it has one *)
  br_Plan : option (CognitiveFrame -> W -> CognitiveFrame * W * option error)
}.
Record Executor (W : Type) := {
  ex_Execute : CognitiveFrame -> Decision -> W -> W * res error GoVal;
  ex_Rollback : CognitiveFrame -> GoVal -> W -> W * option error
}.
Record KnowledgeStore (W : Type) := {
  ks_Recall : string -> Z -> string -> W -> W * res error (list OAtom)
}.
Record TransientStore (W : Type) := {
  ts_ToAtoms : string -> W -> W * res error (list OAtom);
  ts_Put : string -> string -> TransientFact -> W -> W * option error
}.
Record ReasoningPort (W : Type) := {
  rp_VerifyWithDatalog : string -> W -> W * res error (list (gmap string string))
}.

Record Ports (W : Type) := {
  po_Memory : option (Memory W);
  po_Brain : option (Brain W);
  po_Executor : option (Executor W);
  po_Dispatcher : option (Dispatcher W);
  po_KnowledgeStore : option (KnowledgeStore W);
  po_TransientStore : option (TransientStore W);
  po_ReasoningPort : option (ReasoningPort W)
}.
Arguments mem_Recall {W} _. Arguments mem_Commit {W} _.
Arguments br_Evaluate {W} _. Arguments br_Verify {W} _. Arguments br_Plan {W} _.
Arguments ex_Execute {W} _. Arguments ex_Rollback {W} _.
Arguments ks_Recall {W} _. Arguments ts_ToAtoms {W} _. Arguments ts_Put {W} _.
Arguments rp_VerifyWithDatalog {W} _.
Arguments po_Memory {W} _. Arguments po_Brain {W} _. Arguments po_Executor {W} _.
Arguments po_Dispatcher {W} _. Arguments po_KnowledgeStore {W} _. Arguments po_TransientStore {W} _.
Arguments po_ReasoningPort {W} _.

(** ** Phases *)

Section Phases.
Context {W : Type} (P : Ports W) (lower : string -> string) (render : GoVal -> string)
  (is_invalid_output : error -> bool) (ctx_done : Z -> option error).

Definition Step : Type := CognitiveFrame -> W -> option (CognitiveFrame * W * option error).

(** [if err := m(); err != nil { return frame, fmt.Errorf("msg: %w", err) }; k]. *)
Definition then_ (msg : string) (m k : Step) : Step := fun f w =>
  '(f1, w1, err) ← m f w;
  match err with
  | Some e => Some (f1, w1, Some (EWrap msg e))
  | None => k f1 w1
  end.

(** A component that may be absent, run for its effect. *)
Definition optionally {C : Type} (c : option C) (k : C -> Step) : Step := fun f w =>
  match c with Some x => k x f w | None => Some (f, w, None) end.

Definition raw_input (f : CognitiveFrame) (weight : float64) : OAtom :=
  {| oa_Predicate := "raw_input"; oa_Subject := fc_ID (fr_cfg f); oa_Object := fc_Input (fr_cfg f);
     oa_Weight := weight; oa_OriginIntent := "" |}.

Definition append_context (atoms : list OAtom) (f : CognitiveFrame) : CognitiveFrame :=
  with_Context (fr_Context f ++ atoms)%list f.

Definition observe : Step := fun f w =>
  let f := with_Phase PhaseObserve f in
  let f := if String.eqb (fc_Input (fr_cfg f)) "" then f else append_context [raw_input f f_1] f in
  Some (record PhaseObserve f, w, None).

Definition observeWithValidation : Step := fun f w =>
  let f := with_Phase PhaseObserve f in
  if String.eqb (fc_Input (fr_cfg f)) "" then Some (f, w, Some (EText "empty input"))
  else Some (record PhaseObserve (append_context [raw_input f f_0_3] f), w, None).

Definition graph_scope (f : CognitiveFrame) : string :=
  if String.eqb (fc_WorkflowID (fr_cfg f)) "" then "default" else fc_WorkflowID (fr_cfg f).

(** The conversions from [core.Atom]. *)
Definition copy_atom (a : OAtom) : OAtom :=
  {| oa_Predicate := oa_Predicate a; oa_Subject := oa_Subject a; oa_Object := oa_Object a;
     oa_Weight := oa_Weight a; oa_OriginIntent := "" |}.
Definition copy_atom_unweighted (a : OAtom) : OAtom :=
  {| oa_Predicate := oa_Predicate a; oa_Subject := oa_Subject a; oa_Object := oa_Object a;
     oa_Weight := f_zero; oa_OriginIntent := "" |}.

(** Append what a recall returns, or fail. *)
Definition recall (msg : string) (conv : OAtom -> OAtom) (r : W * res error (list OAtom)) (f : CognitiveFrame)
  : option (CognitiveFrame * W * option error) :=
  match r with
  | (w1, Ok atoms) => Some (append_context (map conv atoms) f, w1, None)
  | (w1, Err e) => Some (f, w1, Some (EWrap msg e))
  end.

(** Run [m]; on an error return it as it is. *)
Definition and_then (m k : Step) : Step := fun f w =>
  '(f1, w1, err) ← m f w;
  match err with Some e => Some (f1, w1, Some e) | None => k f1 w1 end.

Definition Orient : Step := fun f w =>
  and_then (optionally (po_KnowledgeStore P) (fun ks f w =>
              recall "failed to recall from knowledge store: " copy_atom
                (ks_Recall ks (fc_Input (fr_cfg f)) 10 (graph_scope f) w) f))
  (and_then (optionally (po_TransientStore P) (fun ts f w =>
              if String.eqb (fc_SessionID (fr_cfg f)) "" then Some (f, w, None)
              else recall "failed to recall from transient store: " copy_atom_unweighted
                     (ts_ToAtoms ts (fc_SessionID (fr_cfg f)) w) f))
  (and_then (optionally (po_Memory P) (fun mem f w =>
              recall "failed to recall from memory: " id (mem_Recall mem (fc_Input (fr_cfg f)) w) f))
  (fun f w => Some (record PhaseOrient f, w, None)))) (with_Phase PhaseOrient f) w.

(** A recall whose error is dropped. *)
Definition recall_quietly (conv : OAtom -> OAtom) (r : W * res error (list OAtom)) (f : CognitiveFrame)
  : option (CognitiveFrame * W * option error) :=
  match r with
  | (w1, Ok atoms) => Some (append_context (map conv atoms) f, w1, None)
  | (w1, Err _) => Some (f, w1, None)
  end.

Definition orientForTool : Step := fun f w =>
  and_then (optionally (po_Memory P) (fun mem f w => recall_quietly id (mem_Recall mem (fc_Input (fr_cfg f)) w) f))
  (and_then (optionally (po_KnowledgeStore P) (fun ks f w =>
              recall_quietly copy_atom (ks_Recall ks (fc_Input (fr_cfg f)) 5 (graph_scope f) w) f))
  (fun f w => Some (record PhaseOrient f, w, None))) (with_Phase PhaseOrient f) w.

Definition decide_phase : Step := fun f w =>
  let f := with_Phase PhaseDecide f in
  match po_Brain P with
  | None => Some (f, w, None)
  | Some b =>
      match br_Evaluate b f w with
      | (w1, Err e) => Some (f, w1, Some (EWrap "brain evaluation failed: " e))
      | (w1, Ok d) => Some (record PhaseDecide (assign_decision d f), w1, None)
      end
  end.

(** Append a rule to the trail of a decision. *)
Definition append_rule (r : RuleInference) (d : Decision) : Decision :=
  {| d_Outcome := d_Outcome d; d_Target := d_Target d; d_Reasons := d_Reasons d; d_Meta := d_Meta d;
     d_AuditTrail := (fun t => AddRule t (ri_RuleName r) (ri_Definition r) (ri_SourceFile r) (ri_Predicate r)
                                 (ri_Tier r) (ri_Bindings r)) <$> d_AuditTrail d;
     d_Action := d_Action d |}.

Definition sovereign_violation (name : string) : RuleInference :=
  {| ri_RuleName := "SOVEREIGN_VIOLATION"; ri_Tier := TierUnknown; ri_Definition := "Unknown action: " +:+ name;
     ri_SourceFile := ""; ri_Bindings := []; ri_Predicate := "dispatch" |}.

Definition executeWithDispatcher (dp : Dispatcher W) (d : Decision) (a : ActionEnvelope) (f : CognitiveFrame) (w : W)
  : CognitiveFrame * W * res error GoVal :=
  match Dispatch dp (ac_Name a) (ac_Arguments a) w with
  | (w1, (_, Some e)) =>
      (with_Decision (Some (append_rule (sovereign_violation (ac_Name a)) d)) f, w1, Err e)
  | (w1, (result, None)) => (f, w1, Ok (GStr result))
  end.

(** [executeAction] on the frame's decision [d]. *)
Definition executeAction (d : Decision) (f : CognitiveFrame) (w : W) : CognitiveFrame * W * res error GoVal :=
  match po_Dispatcher P, d_Action d, po_Executor P with
  | Some dp, Some a, _ => executeWithDispatcher dp d a f w
  | _, _, Some ex => let '(w1, r) := ex_Execute ex f d w in (f, w1, r)
  | _, Some a, None =>
      (f, w, Err (EText ("dispatcher not configured but action '" +:+ ac_Name a +:+ "' specified in decision")))
  | _, None, None => (f, w, Ok GNil)
  end.

Definition is_nil (v : GoVal) : bool := match v with GNil => true | _ => false end.

(** Store the result in the session; [None] is the nil dereference of
    [frame.Decision.Action.Name]. *)
Definition store_result (d : Decision) (result : GoVal) (f : CognitiveFrame) (w : W) : option W :=
  match po_TransientStore P with
  | Some ts =>
      if String.eqb (fc_SessionID (fr_cfg f)) "" || is_nil result then Some w
      else match d_Action d with
           | None => None
           | Some a =>
               let sid := if String.eqb (ac_SessionID a) "" then fc_SessionID (fr_cfg f) else ac_SessionID a in
               Some (fst (ts_Put ts sid ("action_result_" +:+ ac_Name a)
                       {| tf_Subject := "action"; tf_Predicate := ac_Name a; tf_Object := fmt_v render result;
                          tf_Graph := "session"; tf_CreatedAt := "" |} w))
           end
  | None => Some w
  end.

Definition Act : Step := fun f w =>
  let f := with_Phase PhaseAct f in
  match fr_Decision f with
  | None => Some (f, w, None)
  | Some d =>
      let '(f1, w1, r) := executeAction d f w in
      match r with
      | Err e => Some (f1, w1, Some (EWrap "execution failed: " e))
      | Ok result =>
          let f2 := with_ActionResult result f1 in
          w2 ← store_result d result f2 w1;
          Some (record PhaseAct f2, w2, None)
      end
  end.

(** [Executor.Rollback] after a failed attempt, its error only logged. *)
Definition rollback (f : CognitiveFrame) (w : W) : W :=
  match po_Executor P with
  | Some ex => if is_nil (fr_ActionResult f) then w else fst (ex_Rollback ex f (fr_ActionResult f) w)
  | None => w
  end.

(** The body of both retry loops, [n] attempts left. *)
Fixpoint act_attempts (n : nat) (attempt : Z) (lastErr : option error) (f : CognitiveFrame) (w : W)
  : option (CognitiveFrame * W * option error) :=
  match n with
  | O => Some (f, w, lastErr)
  | S n' =>
      let f := with_RetryCount attempt f in
      match (if (0 <? attempt)%Z then ctx_done attempt else None) with
      | Some e => Some (f, w, Some e)
      | None =>
          '(f1, w1, err) ← Act f w;
          match err with
          | None => Some (f1, w1, None)
          | Some e => act_attempts n' (attempt + 1) (Some e) f1 (rollback f1 w1)
          end
      end
  end.

Definition actWithRetry : Step := fun f w =>
  act_attempts (Z.to_nat (fc_MaxRetries (fr_cfg f) + 1)) 0 None f w.

Definition effective_retries (f : CognitiveFrame) : Z :=
  if (fc_MaxRetries (fr_cfg f) <=? 0)%Z then 3%Z else fc_MaxRetries (fr_cfg f).

Definition actWithSimpleRetry : Step := fun f w =>
  act_attempts (Z.to_nat (effective_retries f + 1)) 0 None f w.

Definition error_like (text : string) : bool :=
  contains (to_lower lower text) "error" || contains (to_lower lower text) "failed".

Definition put_session (ts : TransientStore W) (sid key subject predicate object : string) (w : W) : W :=
  fst (ts_Put ts sid key {| tf_Subject := subject; tf_Predicate := predicate; tf_Object := object;
                            tf_Graph := "session"; tf_CreatedAt := "" |} w).

(** The session bookkeeping of [verify]. *)
Definition store_verdict (f : CognitiveFrame) (w : W) : W :=
  match po_TransientStore P, fr_Decision f ≫= d_Action with
  | Some ts, Some a =>
      let sid := fc_SessionID (fr_cfg f) in
      if String.eqb sid "" || is_nil (fr_ActionResult f) then w
      else
        let bad := error_like (fmt_v render (fr_ActionResult f)) in
        let w1 := put_session ts sid ("verify_status_" +:+ ac_Name a) "verify" (ac_Name a)
                    (if bad then "failed" else "success") w in
        if bad then put_session ts sid "needs_retry" "workflow" "retry" "true" w1 else w1
  | _, _ => w
  end.

Definition verify : Step := fun f w =>
  let f := with_Phase PhaseVerify f in
  let w := store_verdict f w in
  match po_Brain P with
  | None => Some (record PhaseVerify f, w, None)
  | Some b =>
      match br_Verify b f w with
      | (w1, Err e) => Some (f, w1, Some (EWrap "verification failed: " e))
      | (w1, Ok t) => Some (record PhaseVerify (with_AuditTrail (TrOwn t) f), w1, None)
      end
  end.

Definition commit : Step := optionally (po_Memory P) (fun mem f w =>
  let '(w1, err) := mem_Commit mem f w in Some (f, w1, err)).

(** The retry count in the wrapped message is read after the loop. *)
Definition Run : Step := fun f w =>
  then_ "observe phase failed: " observe
  (then_ "orient phase failed: " Orient
  (then_ "decide phase failed: " decide_phase
  (fun f w =>
     '(f1, w1, err) ← actWithRetry f w;
     match err with
     | Some e => Some (f1, w1, Some (EWrap ("act phase failed after " +:+ pretty (fr_RetryCount f1) +:+ " retries: ") e))
     | None =>
         then_ "verify phase failed: " verify
         (then_ "failed to commit to memory: " commit (fun f w => Some (f, w, None))) f1 w1
     end))) f w.

(** ** Verification ([verify.go]) *)

Definition ValidationError_Error (tier ruleName message : string) : string :=
  "[" +:+ tier +:+ "] " +:+ ruleName +:+ ": " +:+ message.

(** The result check that closes [VerifySchema]. *)
Definition check_result (name : string) (f : CognitiveFrame) (w : W) : option (CognitiveFrame * W * option error) :=
  let text := fmt_v render (fr_ActionResult f) in
  Some (f, w, if error_like text
              then Some (EText ("action '" +:+ name +:+ "' returned error-like result: " +:+ text))
              else None).

Definition VerifySchema : Step := fun f w =>
  match fr_Decision f ≫= d_Action with
  | None => Some (f, w, None)
  | Some a =>
      if is_nil (fr_ActionResult f) then Some (f, w, None)
      else
        match po_Brain P with
        | None => check_result (ac_Name a) f w
        | Some b =>
            match br_Verify b f w with
            | (w1, Err e) =>
                Some (f, w1, Some (if is_invalid_output e
                  then EText (ValidationError_Error Tier1Admin "SCHEMA_VALIDATION"
                         ("action '" +:+ ac_Name a +:+ "' output failed schema validation: " +:+ Error e))
                  else EWrap "schema verification failed: " e))
            | (w1, Ok t) => check_result (ac_Name a) (with_AuditTrail (TrOwn t) f) w1
            end
        end
  end.

Definition RunOODA : Step := fun f w =>
  then_ "observe failed: " observeWithValidation
  (then_ "orient failed: " orientForTool
  (then_ "decide failed: " decide_phase
  (then_ "act failed: " actWithSimpleRetry
  (then_ "verify failed: " VerifySchema
  (then_ "commit failed: " commit
  (fun f w => Some (with_Status VerifyStatusPassed f, w, None))))))) f w.
End Phases.

(** ** Rule validation *)

Record RuleAudit := {
  ra_Pass : bool;
  ra_ViolationTier : string;
  ra_ConflictPath : string;
  ra_EntropyDelta : float64
}.

Definition ooda_mapCoreTier (t : string) : string :=
  if String.eqb t TierT0_Axiom then Tier0Kernel
  else if String.eqb t TierT1_Governance then Tier1Admin
  else if String.eqb t TierT2_Playbook then Tier2AI
  else Tier3User.

Definition tierOrder (t : string) : Z :=
  if String.eqb t Tier0Kernel then 0
  else if String.eqb t Tier1Admin then 1
  else if String.eqb t Tier2AI then 2
  else if String.eqb t Tier3User then 3
  else 4.

Section Rules.
Context (lower : string -> string).

Definition isViolation (r : RuleInference) : bool :=
  let l := to_lower lower (ri_RuleName r) in
  contains l "halt" || contains l "deny" || contains l "violation" || contains l "prohibited".

(** The loop of [ClassifyViolations]. *)
Fixpoint worst_tier (worst : string) (rules : list RuleInference) : string :=
  match rules with
  | [] => worst
  | r :: rest =>
      if isViolation r && (tierOrder (ooda_mapCoreTier (ri_Tier r)) <? tierOrder worst)%Z
      then worst_tier (ooda_mapCoreTier (ri_Tier r)) rest
      else worst_tier worst rest
  end.

Definition ClassifyViolations (trail : option AuditTrail) : string :=
  match trail with
  | None => Tier3User
  | Some t => worst_tier Tier3User (at_MatchedRules t)
  end.

(** The verdict of [ValidateAgainstRules] on the trail the brain returned. *)
Definition judge (t : AuditTrail) : RuleAudit :=
  let worst := ClassifyViolations (Some t) in
  let hit := List.find isViolation (at_MatchedRules t) in
  let pass := match hit with Some _ => false | None => true end in
  let path := match hit with Some r => ri_SourceFile r | None => "" end in
  if String.eqb worst Tier0Kernel then
    {| ra_Pass := false; ra_ViolationTier := worst; ra_ConflictPath := path; ra_EntropyDelta := f_1 |}
  else if String.eqb worst Tier1Admin then
    {| ra_Pass := false; ra_ViolationTier := worst; ra_ConflictPath := path; ra_EntropyDelta := f_0_5 |}
  else if String.eqb worst Tier2AI then
    {| ra_Pass := pass; ra_ViolationTier := worst; ra_ConflictPath := path; ra_EntropyDelta := f_0_2 |}
  else
    {| ra_Pass := pass; ra_ViolationTier := worst; ra_ConflictPath := path; ra_EntropyDelta := f_0_1 |}.

(** The verdict when there is no brain. *)
Definition clean_audit : RuleAudit :=
  {| ra_Pass := true; ra_ViolationTier := ""; ra_ConflictPath := ""; ra_EntropyDelta := f_zero |}.

(** [None] is the nil dereference of a trail the brain did not return. *)
Definition ValidateAgainstRules {W : Type} (P : Ports W) (f : CognitiveFrame) (w : W)
  : option (CognitiveFrame * W * res error RuleAudit) :=
  match po_Brain P with
  | None => Some (f, w, Ok clean_audit)
  | Some b =>
      match br_Verify b f w with
      | (w1, Err e) => Some (f, w1, Err (EWrap "datalog validation failed: " e))
      | (w1, Ok None) => None
      | (w1, Ok (Some t)) => Some (with_AuditTrail (TrOwn (Some t)) f, w1, Ok (judge t))
      end
  end.

(** The loop of [TieredVerify]. *)
Fixpoint tiered (acc : RuleAudit) (rules : list RuleInference) : RuleAudit :=
  let mark pass delta path :=
    {| ra_Pass := pass; ra_ViolationTier := ra_ViolationTier acc; ra_ConflictPath := path; ra_EntropyDelta := delta |} in
  match rules with
  | [] => acc
  | r :: rest =>
      if isViolation r then
        if String.eqb (ri_Tier r) TierT0_Axiom then mark false f_1 (ri_SourceFile r)
        else if String.eqb (ri_Tier r) TierT1_Governance then tiered (mark false f_0_5 (ri_SourceFile r)) rest
        else if String.eqb (ri_Tier r) TierT2_Playbook then tiered (mark (ra_Pass acc) f_0_2 (ra_ConflictPath acc)) rest
        else if String.eqb (ri_Tier r) TierT3_User then tiered (mark (ra_Pass acc) f_0_1 (ra_ConflictPath acc)) rest
        else tiered acc rest
      else tiered acc rest
  end.

Definition TieredVerify {W : Type} (P : Ports W) (f : CognitiveFrame) (w : W)
  : option (W * res error RuleAudit) :=
  match po_Brain P with
  | None => Some (w, Ok clean_audit)
  | Some b =>
      match br_Verify b f w with
      | (w1, Err e) => Some (w1, Err e)
      | (w1, Ok None) => None
      | (w1, Ok (Some t)) =>
          Some (w1, Ok (tiered {| ra_Pass := true; ra_ViolationTier := ClassifyViolations (Some t);
                                  ra_ConflictPath := ""; ra_EntropyDelta := f_zero |} (at_MatchedRules t)))
      end
  end.
End Rules.

Definition ShouldTerminate (audit : RuleAudit) (retryCount maxRetries : Z) (entropy : float64) : string :=
  if String.eqb (ra_ViolationTier audit) Tier0Kernel then "t0_violation"
  else if (maxRetries <=? retryCount)%Z then "max_iterations"
  else if f_lt f_0_9 entropy then "chaos_threshold"
  else "".

Definition NewRefinementContext (audit : RuleAudit) (draft : GoVal) (attempt : Z) : RefinementContext :=
  {| rc_FailedRules := if String.eqb (ra_ConflictPath audit) "" then [] else [ra_ConflictPath audit];
     rc_ConflictPath := ra_ConflictPath audit; rc_PreviousDraft := draft; rc_AttemptNumber := attempt |}.

(** ** Drivers over capabilities ([loop.go]) and the flow wrapper *)

Record Loop (W : Type) := {
  lp_observer : option (Step (W := W));
  lp_orienter : option (Step (W := W));
  lp_decider : option (Step (W := W));
  lp_verifier : option (Step (W := W));
  lp_actor : option (Step (W := W))
}.
Arguments lp_observer {W} _. Arguments lp_orienter {W} _. Arguments lp_decider {W} _.
Arguments lp_verifier {W} _. Arguments lp_actor {W} _.

(** The capability of a phase and the order of the phases. *)
Definition loop_phases {W : Type} (l : Loop W) : list (string * option (Step (W := W))) :=
  [(PhaseObserve, lp_observer l); (PhaseOrient, lp_orienter l); (PhaseDecide, lp_decider l);
   (PhaseVerify, lp_verifier l); (PhaseAct, lp_actor l)].

Fixpoint run_phases {W : Type} (ps : list (string * option (Step (W := W)))) : Step (W := W) := fun f w =>
  match ps with
  | [] => Some (f, w, None)
  | (phase, c) :: rest =>
      '(f1, w1, err) ← optionally c (fun s => s) (with_Phase phase f) w;
      match err with
      | Some e => Some (f1, w1, Some (EWrap ("OODA loop failed at phase " +:+ phase +:+ ": ") e))
      | None => run_phases rest f1 w1
      end
  end.

Definition with_Input (input : string) (f : CognitiveFrame) : CognitiveFrame :=
  let c := fr_cfg f in
  {| fr_cfg := {| fc_ID := fc_ID c; fc_Intent := fc_Intent c; fc_TaskType := fc_TaskType c; fc_Input := input;
                  fc_GraphID := fc_GraphID c; fc_KBVersion := fc_KBVersion c; fc_SessionID := fc_SessionID c;
                  fc_WorkflowID := fc_WorkflowID c; fc_MaxRetries := fc_MaxRetries c |};
     fr_Phase := fr_Phase f; fr_Context := fr_Context f; fr_AttentionSink := fr_AttentionSink f;
     fr_RawContext := fr_RawContext f; fr_Draft := fr_Draft f; fr_Status := fr_Status f; fr_EAST := fr_EAST f;
     fr_Decision := fr_Decision f; fr_AuditTrail := fr_AuditTrail f; fr_ActionResult := fr_ActionResult f;
     fr_RetryCount := fr_RetryCount f; fr_PhaseDurations := fr_PhaseDurations f |}.

(** [id] is the fresh UUID of a new frame. *)
Definition Loop_Run {W : Type} (l : Loop W) (id input : string) (initial : option CognitiveFrame) (w : W)
  : option (CognitiveFrame * W * option error) :=
  let f := match initial with
           | None => NewCognitiveFrame id input "" TaskTypeGeneration
           | Some f => with_Input input f
           end in
  run_phases (loop_phases l) f w.

(** [AuditTrail.Summary]. *)
Fixpoint summary_lines (i : Z) (rules : list RuleInference) : string :=
  match rules with
  | [] => ""
  | r :: rest => "  " +:+ pretty i +:+ ". " +:+ ri_RuleName r +:+ " (" +:+ ri_Tier r +:+ ") - " +:+ ri_SourceFile r
                   +:+ nl +:+ summary_lines (i + 1) rest
  end.
Definition Summary (t : AuditTrail) : string :=
  match at_MatchedRules t with
  | [] => "No rules matched"
  | rules => pretty (Z.of_nat (List.length rules)) +:+ " rule(s) matched:" +:+ nl +:+ summary_lines 1 rules
  end.

Record OODAFlowConfig := {
  of_MaxRetries : Z;
  of_ParadoxThreshold : float64
}.

(** The defaults of [NewOODAFlow] (the timeout has no effect on the model). *)
Definition NewOODAFlow (c : option OODAFlowConfig) : OODAFlowConfig :=
  let c := default {| of_MaxRetries := 0; of_ParadoxThreshold := f_zero |} c in
  {| of_MaxRetries := if (of_MaxRetries c =? 0)%Z then 3 else of_MaxRetries c;
     of_ParadoxThreshold := if f_le (of_ParadoxThreshold c) f_zero then DefaultParadoxThreshold
                            else of_ParadoxThreshold c |}.

Record OODAFlowInput := { fi_Input : string; fi_Intent : string; fi_TaskType : string }.
Record OODAFlowOutput := {
  fo_Output : string;
  fo_Status : string;
  fo_PhaseDurations : gset string;
  fo_RetryCount : Z;
  fo_AuditTrail : string;
  fo_Error : string
}.

(** The frame [OODAFlow.Run] builds. *)
Definition flow_frame (c : OODAFlowConfig) (id : string) (input : OODAFlowInput) : CognitiveFrame :=
  let f := NewCognitiveFrame id (fi_Input input)
             (if String.eqb (fi_Intent input) "" then "default" else fi_Intent input)
             (if String.eqb (fi_TaskType input) "" then TaskTypeGeneration else fi_TaskType input) in
  let g := fr_cfg f in
  with_EAST (zero_EAST (of_ParadoxThreshold c))
    {| fr_cfg := {| fc_ID := fc_ID g; fc_Intent := fc_Intent g; fc_TaskType := fc_TaskType g; fc_Input := fc_Input g;
                    fc_GraphID := fc_GraphID g; fc_KBVersion := fc_KBVersion g; fc_SessionID := fc_SessionID g;
                    fc_WorkflowID := fc_WorkflowID g; fc_MaxRetries := of_MaxRetries c |};
       fr_Phase := fr_Phase f; fr_Context := fr_Context f; fr_AttentionSink := fr_AttentionSink f;
       fr_RawContext := fr_RawContext f; fr_Draft := fr_Draft f; fr_Status := fr_Status f; fr_EAST := fr_EAST f;
       fr_Decision := fr_Decision f; fr_AuditTrail := fr_AuditTrail f; fr_ActionResult := fr_ActionResult f;
       fr_RetryCount := fr_RetryCount f; fr_PhaseDurations := fr_PhaseDurations f |}.

Definition flow_output (f : CognitiveFrame) : string :=
  match fr_ActionResult f with
  | GStr s => s
  | _ => match fr_RawContext f ≫= (.!! "output") with
         | Some (RGo (GStr s)) => s
         | _ => ""
         end
  end.

(** [OODAFlow.Run]: never an error, the failure is in the output. *)
Definition OODAFlow_Run {W : Type} (P : Ports W) (lower : string -> string) (render : GoVal -> string)
    (is_invalid_output : error -> bool) (ctx_done : Z -> option error) (c : OODAFlowConfig) (id : string)
    (input : OODAFlowInput) (w : W) : option (W * OODAFlowOutput) :=
  '(f, w1, err) ← RunOODA P lower render is_invalid_output ctx_done (flow_frame c id input) w;
  Some (w1, match err with
            | Some e => {| fo_Output := ""; fo_Status := fr_Status f; fo_PhaseDurations := fr_PhaseDurations f;
                           fo_RetryCount := fr_RetryCount f; fo_AuditTrail := ""; fo_Error := Error e |}
            | None => {| fo_Output := flow_output f; fo_Status := fr_Status f;
                         fo_PhaseDurations := fr_PhaseDurations f; fo_RetryCount := fr_RetryCount f;
                         fo_AuditTrail := match frame_trail f with Some t => Summary t | None => "" end;
                         fo_Error := "" |}
            end).
