(* ===== verification/OodaProps.v ===== *)
(** * Properties of the OODA loop

    Success of [RunOODA] means a checked result; actions run at most
    [MaxRetries]+1 times; an action the registry does not know never runs
    anything and is recorded once per attempt; when [Act] panics; the
    rollback of the retry loops is dead code; tier classification of rule
    violations; the budget of context shaving. *)
From stdpp Require Import sorting.
From S2P Require Import Prelude GoStrings CoreErrors CoreTypes Reflect Float64 Ooda.
From Stdlib Require Import Ascii String.
Open Scope string_scope.

Section Loops.
Context {W : Type} (P : Ports W) (lower : string -> string) (render : GoVal -> string)
  (is_invalid_output : error -> bool) (ctx_done : Z -> option error).

Lemma then_ok msg (m k : Step (W := W)) f w f' w' :
  then_ msg m k f w = Some (f', w', None) ->
  exists f1 w1, m f w = Some (f1, w1, None) /\ k f1 w1 = Some (f', w', None).
Proof. unfold then_. destruct (m f w) as [[[f1 w1] [e|]]|]; simpl; [done|eauto|done]. Qed.

Lemma then_err msg (m k : Step (W := W)) f w f' w' e :
  then_ msg m k f w = Some (f', w', Some e) ->
  (exists x, m f w = Some (f', w', Some x) /\ e = EWrap msg x) \/
  exists f1 w1, m f w = Some (f1, w1, None) /\ k f1 w1 = Some (f', w', Some e).
Proof. unfold then_. destruct (m f w) as [[[f1 w1] [x|]]|]; simpl; [|eauto|done]. intros [= <- <- <-]. eauto. Qed.

(** ** What the phases leave alone *)

(** [keeps m g]: [m] does not change [g] of the frame. *)
Definition keeps {A : Type} (g : CognitiveFrame -> A) (m : Step (W := W)) : Prop :=
  forall f w f' w' err, m f w = Some (f', w', err) -> g f' = g f.

Lemma keeps_and_then {A : Type} (g : CognitiveFrame -> A) m k :
  keeps g m -> keeps g k -> keeps g (and_then m k).
Proof.
  intros Hm Hk f w f' w' err. unfold and_then.
  destruct (m f w) as [[[f1 w1] [e|]]|] eqn:E; simpl; [|intros H%Hk; rewrite H; by eapply Hm|done].
  intros [= <- <- <-]. by eapply Hm.
Qed.

Lemma keeps_optionally {A C : Type} (g : CognitiveFrame -> A) (c : option C) (k : C -> Step (W := W)) :
  (forall x, keeps g (k x)) -> keeps g (optionally c k).
Proof. intros Hk f w f' w' err. unfold optionally. destruct c; [apply Hk|by intros [= <- <- _]]. Qed.

(** The parts of a frame no phase but the last assignment writes. *)
Definition static (f : CognitiveFrame) : FrameConfig * string := (fr_cfg f, fr_Status f).

Lemma keeps_recall_quietly {A : Type} (g : CognitiveFrame -> A) conv r f f' w' err :
  (forall l h, g (append_context l h) = g h) ->
  recall_quietly (W := W) conv r f = Some (f', w', err) -> g f' = g f.
Proof. intros Hg. unfold recall_quietly. destruct r as [w1 [l|e]]; intros [= <- _ _]; auto. Qed.

Lemma orientForTool_keeps {A : Type} (g : CognitiveFrame -> A) :
  (forall v h, g (with_Context v h) = g h) -> (forall v h, g (with_Phase v h) = g h) ->
  (forall v h, g (with_PhaseDurations v h) = g h) -> keeps g (orientForTool P).
Proof.
  intros Hc Hp Hd f w f' w' err H. rewrite <- (Hp PhaseOrient f). revert H. unfold orientForTool.
  generalize (with_Phase PhaseOrient f). clear f. intros h. revert h w f' w' err.
  apply keeps_and_then; [|apply keeps_and_then]; [apply keeps_optionally..|].
  - intros mem f w f' w' err. apply keeps_recall_quietly. intros; apply Hc.
  - intros ks f w f' w' err. apply keeps_recall_quietly. intros; apply Hc.
  - intros f w f' w' err [= <- _ _]. apply Hd.
Qed.

Lemma decide_phase_static : keeps static (decide_phase P).
Proof.
  intros f w f' w' err. unfold decide_phase. destruct (po_Brain P) as [b|]; [|by intros [= <- _ _]].
  destruct (br_Evaluate b _ w) as [w1 [d|e]]; intros [= <- _ _]; [|done]. by destruct d.
Qed.

Lemma executeAction_static d f w f' w' r :
  executeAction P d f w = (f', w', r) -> static f' = static f /\ fr_ActionResult f' = fr_ActionResult f.
Proof.
  unfold executeAction, executeWithDispatcher. intros H.
  repeat case_match; simplify_eq; done.
Qed.

Lemma Act_static : keeps static (Act P render).
Proof.
  intros f w f' w' err. unfold Act. destruct (fr_Decision _) as [d|]; [|by intros [= <- _ _]].
  destruct (executeAction P d _ w) as [[f1 w1] [v|e]] eqn:E; apply executeAction_static in E as [Hs _].
  - destruct (store_result _ _ _ _ _ _) as [w2|]; simpl; [|done]. intros [= <- _ _]. exact Hs.
  - intros [= <- _ _]. exact Hs.
Qed.

Lemma Act_error_keeps_result f w f' w' e :
  Act P render f w = Some (f', w', Some e) -> fr_ActionResult f' = fr_ActionResult f.
Proof.
  unfold Act. destruct (fr_Decision _) as [d|]; [|done].
  destruct (executeAction P d _ w) as [[f1 w1] [v|x]] eqn:E; apply executeAction_static in E as [_ Hr].
  - by destruct (store_result _ _ _ _ _ _).
  - intros [= <- _ _]. done.
Qed.

Lemma act_attempts_S n attempt last f w :
  act_attempts P render ctx_done (S n) attempt last f w =
  let f0 := with_RetryCount attempt f in
  match (if (0 <? attempt)%Z then ctx_done attempt else None) with
  | Some e => Some (f0, w, Some e)
  | None =>
      '(f1, w1, err) ← Act P render f0 w;
      match err with
      | None => Some (f1, w1, None)
      | Some e => act_attempts P render ctx_done n (attempt + 1) (Some e) f1 (rollback P f1 w1)
      end
  end.
Proof. reflexivity. Qed.

Lemma act_attempts_static n : forall attempt last f w f' w' err,
  act_attempts P render ctx_done n attempt last f w = Some (f', w', err) -> static f' = static f.
Proof.
  induction n as [|n IH]; cbn [act_attempts]; intros attempt last f w f' w' err; [by intros [= <- _ _]|].
  destruct (if (0 <? attempt)%Z then _ else _); [by intros [= <- _ _]|].
  destruct (Act P render _ w) as [[[f1 w1] [e|]]|] eqn:E; simpl; [|intros [= <- _ _]|done].
  - intros H%IH. rewrite H. by eapply Act_static in E.
  - by eapply Act_static in E.
Qed.

(** The retry counter stays within the loop's bound. *)
Lemma act_attempts_count n : forall attempt last f w f' w' err,
  act_attempts P render ctx_done (S n) attempt last f w = Some (f', w', err) ->
  (attempt <= fr_RetryCount f' <= attempt + Z.of_nat n)%Z.
Proof.
  assert (keeps fr_RetryCount (Act P render)) as Hact.
  { intros f w f' w' err. unfold Act. destruct (fr_Decision _) as [d|]; [|by intros [= <- _ _]].
    assert (forall f1 w1 r, executeAction P d (with_Phase PhaseAct f) w = (f1, w1, r) -> fr_RetryCount f1 = fr_RetryCount f).
    { unfold executeAction, executeWithDispatcher. intros. repeat case_match; simplify_eq; done. }
    destruct (executeAction P d _ w) as [[f1 w1] [v|e]]; [|intros [= <- _ _]; eauto].
    destruct (store_result _ _ _ _ _ _); simpl; [|done]. intros [= <- _ _]. simpl. eauto. }
  induction n as [|n IH]; intros attempt last f w f' w' err; rewrite act_attempts_S; cbv zeta;
    (destruct (if (0 <? attempt)%Z then _ else _); [intros [= <- _ _]; simpl; lia|]);
    destruct (Act P render _ w) as [[[f1 w1] [e|]]|] eqn:E; cbn [mbind option_bind]; try done; apply Hact in E; simpl in E.
  - intros [= <- _ _]. lia.
  - intros [= <- _ _]. lia.
  - intros H%IH. lia.
  - intros [= <- _ _]. lia.
Qed.
(** What [VerifySchema] establishes about the result it accepts. *)
Definition accepted (f : CognitiveFrame) : Prop :=
  forall a, fr_Decision f ≫= d_Action = Some a -> fr_ActionResult f <> GNil ->
    error_like lower (fmt_v render (fr_ActionResult f)) = false /\
    forall b, po_Brain P = Some b -> exists g w1 w2 t,
      fr_ActionResult g = fr_ActionResult f /\ fr_Decision g = fr_Decision f /\ br_Verify b g w1 = (w2, Ok t).

Lemma VerifySchema_ok f w f' w' :
  VerifySchema P lower render is_invalid_output f w = Some (f', w', None) ->
  (exists r, f' = with_AuditTrail r f) /\ accepted f'.
Proof.
  assert (exists r, f = with_AuditTrail r f) as Hid by (exists (fr_AuditTrail f); by destruct f).
  unfold VerifySchema, accepted. destruct (fr_Decision f ≫= d_Action) as [a|] eqn:Ha.
  2:{ intros [= <- _]. split; [done|]. intros a Ha'. congruence. }
  destruct (is_nil (fr_ActionResult f)) eqn:Hn.
  { intros [= <- _]. split; [done|]. intros ? _ Hr. by destruct (fr_ActionResult f). }
  unfold check_result. destruct (po_Brain P) as [b|] eqn:Hb.
  - destruct (br_Verify b f w) as [w1 [t|e]] eqn:Hv; [|done]. simpl.
    destruct (error_like _ _) eqn:He; [done|]. intros [= <- _]. split; [eauto|]. intros _ _ _. split; [done|].
    intros ? [= <-]. by exists f, w, w1, t.
  - destruct (error_like _ _) eqn:He; [done|]. intros [= <- _]. split; [done|]. intros _ _ _. by split.
Qed.

Lemma VerifySchema_static : keeps static (VerifySchema P lower render is_invalid_output).
Proof.
  intros f w f' w' err. unfold VerifySchema, check_result.
  repeat case_match; by intros [= <- _ _].
Qed.

Lemma commit_keeps f w f' w' err : commit P f w = Some (f', w', err) -> f' = f.
Proof.
  unfold commit, optionally. destruct (po_Memory P) as [mem|]; [|by intros [= <- _ _]].
  destruct (mem_Commit mem f w). by intros [= <- _ _].
Qed.

Lemma observeWithValidation_inv f (w : W) f' w' err :
  observeWithValidation f w = Some (f', w', err) ->
  static f' = static f /\ (err = None -> fc_Input (fr_cfg f) <> "").
Proof.
  unfold observeWithValidation. simpl. destruct (String.eqb_spec (fc_Input (fr_cfg f)) ""); by intros [= <- _ <-].
Qed.

Lemma orientForTool_static : keeps static (orientForTool P).
Proof. by apply orientForTool_keeps. Qed.
End Loops.

(** C21: Success means a checked result: when [RunOODA] returns no error the
    input was not empty, the frame is marked passed, the retry counter is
    within the configured bound, and the result of a named action contains no
    error text and was verified by the brain, if there is one, under the
    very decision it came from. *)
Theorem RunOODA_success {W : Type} (P : Ports W) (lower : string -> string) (render : GoVal -> string)
    (is_invalid_output : error -> bool) (ctx_done : Z -> option error) (f f' : CognitiveFrame) (w w' : W) :
  RunOODA P lower render is_invalid_output ctx_done f w = Some (f', w', None) ->
  fc_Input (fr_cfg f) <> "" /\ fr_Status f' = VerifyStatusPassed /\
  (0 <= fr_RetryCount f' <= effective_retries f)%Z /\ accepted P lower render f'.
Proof.
  unfold RunOODA.
  intros (f1 & w1 & H1 & (f2 & w2 & H2 & (f3 & w3 & H3 & (f4 & w4 & H4 &
    (f5 & w5 & H5 & (f6 & w6 & H6 & H7)%then_ok)%then_ok)%then_ok)%then_ok)%then_ok)%then_ok.
  apply observeWithValidation_inv in H1 as [S1 Hi]. apply orientForTool_static in H2. apply decide_phase_static in H3.
  unfold actWithSimpleRetry in H4.
  assert (effective_retries f3 = effective_retries f) as Her.
  { assert (fr_cfg f3 = fr_cfg f) as Hc by (unfold static in *; congruence). by unfold effective_retries; rewrite Hc. }
  rewrite Her in H4. assert (0 <= effective_retries f)%Z by (unfold effective_retries; case_match; lia).
  rewrite Z2Nat.inj_add, Nat.add_1_r in H4 by lia. apply act_attempts_count in H4.
  apply VerifySchema_ok in H5 as [[r ->] Hacc]. apply commit_keeps in H6 as ->. simplify_eq.
  split_and!; [by apply Hi|done|simpl; lia..|done].
Qed.

(** Failure is never marked as success: when a phase of [RunOODA] fails
    the frame keeps the status it came in with. *)
Theorem RunOODA_error_keeps_status {W : Type} (P : Ports W) (lower : string -> string) (render : GoVal -> string)
    (is_invalid_output : error -> bool) (ctx_done : Z -> option error) (f f' : CognitiveFrame) (w w' : W) (e : error) :
  RunOODA P lower render is_invalid_output ctx_done f w = Some (f', w', Some e) ->
  fr_Status f' = fr_Status f /\ fr_cfg f' = fr_cfg f.
Proof.
  assert (forall g h, static g = static h -> fr_Status g = fr_Status h /\ fr_cfg g = fr_cfg h) as Hst
    by (unfold static; intros ? ? [= -> ->]; done).
  intros H. apply Hst. revert H. unfold RunOODA, actWithSimpleRetry.
  intros [(x & H1%observeWithValidation_inv & _)|(f1 & w1 & [S1 _]%observeWithValidation_inv & H)]%then_err; [by apply H1|].
  rewrite <- S1. clear S1.
  apply then_err in H as [(x & H1%orientForTool_static & _)|(f2 & w2 & S2%orientForTool_static & H)]; [done|].
  rewrite <- S2. clear S2.
  apply then_err in H as [(x & H1%decide_phase_static & _)|(f3 & w3 & S3%decide_phase_static & H)]; [done|].
  rewrite <- S3. clear S3.
  apply then_err in H as [(x & H1%act_attempts_static & _)|(f4 & w4 & S4%act_attempts_static & H)]; [done|].
  rewrite <- S4. clear S4.
  apply then_err in H as [(x & H1%VerifySchema_static & _)|(f5 & w5 & S5%VerifySchema_static & H)]; [done|].
  rewrite <- S5. by apply then_err in H as [(x & ->%commit_keeps & _)|(f6 & w6 & _ & H)].
Qed.

(** ** Unknown actions *)

Lemma Dispatch_unknown {W : Type} (dp : Dispatcher W) name args (w : W) :
  Registry_Get name (dp_registry dp) = None ->
  exists text, Dispatch dp name args w
    = (w, (text, Some (EText ("SOVEREIGN VIOLATION: action '" +:+ name
                                +:+ "' not found in registry - capability mismatch")))).
Proof. intros H. unfold Dispatch. rewrite H. by eexists. Qed.

(** The decision after [n] failed dispatches. *)
Definition refused (n : nat) (d : Decision) (name : string) : Decision :=
  Nat.iter n (append_rule (sovereign_violation name)) d.

Lemma refused_action n d name : d_Action (refused n d name) = d_Action d.
Proof. by induction n. Qed.

Lemma refused_rules n d name t :
  d_AuditTrail d = Some t ->
  exists t', d_AuditTrail (refused n d name) = Some t' /\
    at_MatchedRules t' = (at_MatchedRules t ++ repeat (sovereign_violation name) n)%list.
Proof.
  intros Ht. induction n as [|n (t' & H1 & H2)]; [exists t; by rewrite app_nil_r|].
  cbn [refused Nat.iter]. change (Nat.iter n _ d) with (refused n d name). simpl. rewrite H1. simpl.
  eexists. split; [done|]. simpl. rewrite H2, <- app_assoc. f_equal. by rewrite <- repeat_cons.
Qed.

Section Unknown.
Context {W : Type} (P : Ports W) (render : GoVal -> string) (dp : Dispatcher W) (a : ActionEnvelope).
Hypothesis Hdp : po_Dispatcher P = Some dp.
Hypothesis Hunknown : Registry_Get (ac_Name a) (dp_registry dp) = None.

Lemma Act_unknown d f w :
  fr_Decision f = Some d -> d_Action d = Some a ->
  exists e, Act P render f w
    = Some (with_Decision (Some (append_rule (sovereign_violation (ac_Name a)) d)) (with_Phase PhaseAct f), w, Some e).
Proof.
  intros Hd Ha. unfold Act. simpl. rewrite Hd. unfold executeAction. rewrite Hdp, Ha. unfold executeWithDispatcher.
  destruct (Dispatch_unknown dp (ac_Name a) (ac_Arguments a) w Hunknown) as [text ->]. by eexists.
Qed.

Lemma act_attempts_unknown n : forall attempt last d f w,
  fr_Decision f = Some d -> d_Action d = Some a -> fr_ActionResult f = GNil ->
  exists f' e, act_attempts P render (fun _ => None) (S n) attempt last f w = Some (f', w, Some e) /\
    fr_Decision f' = Some (refused (S n) d (ac_Name a)) /\ fr_ActionResult f' = GNil /\
    fr_RetryCount f' = (attempt + Z.of_nat n)%Z.
Proof.
  assert (forall f w, fr_ActionResult f = GNil -> rollback P f w = w) as Hrb.
  { intros f w Hr. unfold rollback. rewrite Hr. by destruct (po_Executor P). }
  induction n as [|n IH]; intros attempt last d f w Hd Ha Hr; rewrite act_attempts_S; cbv zeta;
    (destruct (0 <? attempt)%Z; (destruct (Act_unknown d (with_RetryCount attempt f) w Hd Ha) as [e ->])).
  1,2: cbn [mbind option_bind act_attempts]; rewrite Hrb by done; do 2 eexists; split; [done|];
       split_and!; [done|done|simpl; lia].
  all: cbn [mbind option_bind]; rewrite Hrb by done;
    destruct (IH (attempt + 1)%Z (Some e) (append_rule (sovereign_violation (ac_Name a)) d)
      (with_Decision (Some (append_rule (sovereign_violation (ac_Name a)) d)) (with_Phase PhaseAct (with_RetryCount attempt f))) w)
      as (f' & e' & H1 & H2 & H3 & H4); [done..|].
  all: exists f', e'; split_and!; [done| |done|lia]; rewrite H2; f_equal; unfold refused;
       by rewrite <- Nat.iter_succ_r.
Qed.
End Unknown.

(** An action the registry does not know is refused on every attempt: no
    tool, executor or rollback runs, the world does not change, the loop ends
    with an error after all its attempts, and the trail of the decision has
    one sovereign violation per attempt. *)
Theorem unknown_action_refused {W : Type} (P : Ports W) (render : GoVal -> string) (dp : Dispatcher W)
    (a : ActionEnvelope) (d : Decision) (t : AuditTrail) (f : CognitiveFrame) (w : W) :
  po_Dispatcher P = Some dp -> Registry_Get (ac_Name a) (dp_registry dp) = None ->
  fr_Decision f = Some d -> d_Action d = Some a -> d_AuditTrail d = Some t -> fr_ActionResult f = GNil ->
  exists f' e d' t', actWithSimpleRetry P render (fun _ => None) f w = Some (f', w, Some e) /\
    fr_RetryCount f' = effective_retries f /\ fr_ActionResult f' = GNil /\
    fr_Decision f' = Some d' /\ d_Action d' = Some a /\ d_AuditTrail d' = Some t' /\
    at_MatchedRules t' = (at_MatchedRules t
      ++ repeat (sovereign_violation (ac_Name a)) (Z.to_nat (effective_retries f + 1)))%list.
Proof.
  intros Hdp Hu Hd Ha Ht Hr. unfold actWithSimpleRetry.
  assert (0 <= effective_retries f)%Z by (unfold effective_retries; case_match; lia).
  rewrite Z2Nat.inj_add, Nat.add_1_r by lia.
  destruct (act_attempts_unknown P render dp a Hdp Hu (Z.to_nat (effective_retries f)) 0 None d f w Hd Ha Hr)
    as (f' & e & H1 & H2 & H3 & H4).
  destruct (refused_rules (S (Z.to_nat (effective_retries f))) d (ac_Name a) t Ht) as (t' & H5 & H6).
  exists f', e, (refused (S (Z.to_nat (effective_retries f))) d (ac_Name a)), t'.
  split_and!; [done|lia|done|done|by rewrite refused_action|done|done].
Qed.

(** ** How often an action runs *)

(** [counts_actions mu P]: an execution of the action raises [mu] by at most
    one, and the other components do not raise it. *)
Definition counts_actions {W : Type} (mu : W -> nat) (P : Ports W) : Prop :=
  (forall dp name args w, po_Dispatcher P = Some dp -> mu (fst (Dispatch dp name args w)) <= S (mu w)) /\
  (forall ex f d w, po_Executor P = Some ex -> mu (fst (ex_Execute ex f d w)) <= S (mu w)) /\
  (forall ex f v w, po_Executor P = Some ex -> mu (fst (ex_Rollback ex f v w)) <= mu w) /\
  (forall ts sid key fact w, po_TransientStore P = Some ts -> mu (fst (ts_Put ts sid key fact w)) <= mu w).

Lemma Act_counts {W : Type} (mu : W -> nat) (P : Ports W) render f w f' w' err :
  counts_actions mu P -> Act P render f w = Some (f', w', err) -> mu w' <= S (mu w).
Proof.
  intros (Hdp & Hex & _ & Hts) H. unfold Act in H.
  destruct (fr_Decision _) as [d|]; [|simplify_eq; lia].
  destruct (executeAction P d _ w) as [[f1 w1] r] eqn:E.
  assert (mu w1 <= S (mu w)) as Hw1.
  { unfold executeAction, executeWithDispatcher in E.
    destruct (po_Dispatcher P) as [dp|] eqn:Edp, (d_Action d) as [a|], (po_Executor P) as [ex|] eqn:Eex;
      try (simplify_eq; lia);
      try (match type of E with context [Dispatch dp ?n ?x w] => specialize (Hdp dp n x w eq_refl); destruct (Dispatch dp n x w) as [? [? [?|]]] end; simplify_eq/=; lia);
      (match type of E with context [ex_Execute ex ?g d w] => specialize (Hex ex g d w eq_refl); destruct (ex_Execute ex g d w) end; simplify_eq/=; lia). }
  destruct r as [v|e]; [|simplify_eq; lia].
  unfold store_result in H. destruct (po_TransientStore P) as [ts|] eqn:Ets; [|simplify_eq/=; lia].
  destruct (String.eqb _ _ || is_nil v); [simplify_eq/=; lia|]. destruct (d_Action d) as [a|]; [|done].
  simplify_eq/=. etrans; [by apply Hts|done].
Qed.

Lemma act_attempts_counts {W : Type} (mu : W -> nat) (P : Ports W) render ctx_done n :
  counts_actions mu P -> forall attempt last f w f' w' err,
  act_attempts P render ctx_done n attempt last f w = Some (f', w', err) -> mu w' <= n + mu w.
Proof.
  intros Hc. induction n as [|n IH]; intros attempt last f w f' w' err; [by intros [= _ <- _]|].
  rewrite act_attempts_S. cbv zeta. destruct (if (0 <? attempt)%Z then _ else _); [intros [= _ <- _]; lia|].
  destruct (Act P render _ w) as [[[f1 w1] [e|]]|] eqn:E; cbn [mbind option_bind]; [| |done];
    apply (Act_counts mu) in E; [|done| |done]; [|intros [= _ <- _]; lia].
  intros H%IH. assert (mu (rollback P f1 w1) <= mu w1); [|lia].
  destruct Hc as (_ & _ & Hr & _). unfold rollback. destruct (po_Executor P) as [ex|]; [|done].
  destruct (is_nil _); [done|by apply Hr].
Qed.

(** C24: Bounded work: whatever the components do, the retry loop of
    [RunOODA] executes the action at most [MaxRetries]+1 times (four times
    when [MaxRetries] is not positive). *)
Theorem action_runs_bounded {W : Type} (mu : W -> nat) (P : Ports W) (render : GoVal -> string)
    (ctx_done : Z -> option error) (f f' : CognitiveFrame) (w w' : W) (err : option error) :
  counts_actions mu P -> actWithSimpleRetry P render ctx_done f w = Some (f', w', err) ->
  (Z.of_nat (mu w') <= Z.of_nat (mu w) + effective_retries f + 1)%Z.
Proof.
  intros Hc H%(act_attempts_counts mu); [|done].
  assert (0 <= effective_retries f)%Z by (unfold effective_retries; case_match; lia). lia.
Qed.

(** Where [Act] panics: exactly when an executor without an action
    produced a result and a session store is configured, because the result
    key dereferences the missing action. *)
Theorem Act_panics_iff {W : Type} (P : Ports W) (render : GoVal -> string) (f : CognitiveFrame) (w : W) :
  Act P render f w = None <->
  exists d ex w' v, fr_Decision f = Some d /\ d_Action d = None /\ po_Executor P = Some ex /\
    ex_Execute ex (with_Phase PhaseAct f) d w = (w', Ok v) /\ v <> GNil /\
    is_Some (po_TransientStore P) /\ fc_SessionID (fr_cfg f) <> "".
Proof.
  unfold Act. simpl. destruct (fr_Decision f) as [d|]; [|naive_solver].
  destruct (d_Action d) as [a|] eqn:Ha.
  - split; [|naive_solver]. destruct (executeAction P d _ w) as [[f1 w1] [v|e]]; [|done].
    unfold store_result. rewrite Ha. destruct (po_TransientStore P); [|done]. by destruct (_ || _).
  - unfold executeAction. rewrite Ha. destruct (po_Executor P) as [ex|].
    2:{ split; [|naive_solver]. destruct (po_Dispatcher P); simpl; unfold store_result;
        (destruct (po_TransientStore P); [|done]); simpl; by rewrite orb_true_r. }
    destruct (ex_Execute ex (with_Phase PhaseAct f) d w) as [w1 [v|e]] eqn:Ex.
    + trans (store_result P render d v (with_ActionResult v (with_Phase PhaseAct f)) w1 = None).
      { destruct (po_Dispatcher P); destruct (store_result _ _ _ _ _ _); done. }
      unfold store_result. rewrite Ha. simpl. split.
      * destruct (po_TransientStore P) as [ts|]; [|done].
        destruct (String.eqb_spec (fc_SessionID (fr_cfg f)) "") as [|Hs]; [done|]. destruct (is_nil v) eqn:Hv; [done|].
        intros _. exists d, ex, w1, v. split_and!; try done. by intros ->.
      * intros (d' & ex' & w' & v' & [= <-] & _ & [= <-] & Hx & Hv & [ts ->] & Hs).
        rewrite Ex in Hx. simplify_eq. apply String.eqb_neq in Hs as ->. by destruct v'.
    + split; [by destruct (po_Dispatcher P)|]. intros (d' & ex' & w' & v' & [= <-] & _ & [= <-] & Hx & _). congruence.
Qed.

(** The executor with another rollback. *)
Definition with_rollback {W : Type} (rb : CognitiveFrame -> GoVal -> W -> W * option error) (P : Ports W) : Ports W :=
  {| po_Memory := po_Memory P; po_Brain := po_Brain P;
     po_Executor := (fun ex => {| ex_Execute := ex_Execute ex; ex_Rollback := rb |}) <$> po_Executor P;
     po_Dispatcher := po_Dispatcher P; po_KnowledgeStore := po_KnowledgeStore P;
     po_TransientStore := po_TransientStore P; po_ReasoningPort := po_ReasoningPort P |}.

Lemma Act_with_rollback {W : Type} rb (P : Ports W) render f w : Act (with_rollback rb P) render f w = Act P render f w.
Proof.
  unfold Act. destruct (fr_Decision _) as [d|]; [|done].
  assert (executeAction (with_rollback rb P) d (with_Phase PhaseAct f) w = executeAction P d (with_Phase PhaseAct f) w) as ->.
  { unfold executeAction. simpl. by destruct (po_Dispatcher P), (d_Action d), (po_Executor P). }
  done.
Qed.

(** The rollback is dead code: from a frame that holds no result yet,
    both retry loops behave the same whatever [Executor.Rollback] does,
    because a failed attempt never leaves a result to roll back. *)
Theorem rollback_never_runs {W : Type} (rb : CognitiveFrame -> GoVal -> W -> W * option error) (P : Ports W)
    (render : GoVal -> string) (ctx_done : Z -> option error) (f : CognitiveFrame) (w : W) :
  fr_ActionResult f = GNil ->
  actWithRetry (with_rollback rb P) render ctx_done f w = actWithRetry P render ctx_done f w /\
  actWithSimpleRetry (with_rollback rb P) render ctx_done f w = actWithSimpleRetry P render ctx_done f w.
Proof.
  assert (forall n attempt last g v, fr_ActionResult g = GNil ->
    act_attempts (with_rollback rb P) render ctx_done n attempt last g v
    = act_attempts P render ctx_done n attempt last g v) as Hall.
  { induction n as [|n IH]; intros attempt last g v Hg; [done|]. rewrite !act_attempts_S. cbv zeta.
    rewrite Act_with_rollback. destruct (if (0 <? attempt)%Z then _ else _); [done|].
    destruct (Act P render _ v) as [[[f1 w1] [e|]]|] eqn:E; cbn [mbind option_bind]; [|done..].
    apply Act_error_keeps_result in E. simpl in E. rewrite Hg in E.
    rewrite IH by done. f_equal. unfold rollback. rewrite E. simpl. by destruct (po_Executor P). }
  intros Hf. split; by apply Hall.
Qed.

(** [Run] with a negative retry bound runs no action and goes on as if one
    had succeeded. *)
Theorem negative_retries_skip_action {W : Type} (P : Ports W) (render : GoVal -> string)
    (ctx_done : Z -> option error) (f : CognitiveFrame) (w : W) :
  (fc_MaxRetries (fr_cfg f) < 0)%Z -> actWithRetry P render ctx_done f w = Some (f, w, None).
Proof. intros H. unfold actWithRetry. by replace (Z.to_nat (fc_MaxRetries (fr_cfg f) + 1)) with 0 by lia. Qed.

(** The fallback of a dispatcher is never called. *)
Theorem fallback_never_called {W : Type} (fn : option (ToolFunc W)) (d : Dispatcher W) name args (w : W) :
  Dispatch (WithFallback fn d) name args w = Dispatch d name args w.
Proof. done. Qed.

(** ** Tiers of rule violations *)

Definition violates (lower : string -> string) (tier : string) (t : AuditTrail) : Prop :=
  exists r, r ∈ at_MatchedRules t /\ isViolation lower r = true /\ ooda_mapCoreTier (ri_Tier r) = tier.

Lemma tierOrder_inj t u :
  In t [Tier0Kernel; Tier1Admin; Tier2AI; Tier3User] -> In u [Tier0Kernel; Tier1Admin; Tier2AI; Tier3User] ->
  tierOrder t = tierOrder u -> t = u.
Proof. simpl. intros [<-|[<-|[<-|[<-|[]]]]] [<-|[<-|[<-|[<-|[]]]]]; done. Qed.

Lemma ooda_mapCoreTier_range t : In (ooda_mapCoreTier t) [Tier0Kernel; Tier1Admin; Tier2AI; Tier3User].
Proof. unfold ooda_mapCoreTier. repeat case_match; simpl; tauto. Qed.

Lemma worst_tier_spec lower worst rules :
  let res := worst_tier lower worst rules in
  (res = worst \/ exists r, r ∈ rules /\ isViolation lower r = true /\ ooda_mapCoreTier (ri_Tier r) = res) /\
  (tierOrder res <= tierOrder worst)%Z /\
  (forall r, r ∈ rules -> isViolation lower r = true -> (tierOrder res <= tierOrder (ooda_mapCoreTier (ri_Tier r)))%Z).
Proof.
  revert worst. induction rules as [|r rules IH]; intros worst; cbn [worst_tier]; [set_solver by lia|].
  destruct (isViolation lower r) eqn:Hv; cbn [andb].
  1: destruct (Z.ltb_spec (tierOrder (ooda_mapCoreTier (ri_Tier r))) (tierOrder worst)).
  - destruct (IH (ooda_mapCoreTier (ri_Tier r))) as (H1 & H2 & H3). split_and!; [|lia|].
    + right. destruct H1 as [->|(x & Hx & ?)]; [exists r|exists x]; rewrite elem_of_cons; auto.
    + intros x [->|Hx]%elem_of_cons Hxv; auto.
  - destruct (IH worst) as (H1 & H2 & H3). split_and!; [|lia|].
    + destruct H1 as [->|(x & Hx & ?)]; [by left|right; exists x]. rewrite elem_of_cons; auto.
    + intros x [->|Hx]%elem_of_cons Hxv; [lia|auto].
  - destruct (IH worst) as (H1 & H2 & H3). split_and!; [|lia|].
    + destruct H1 as [->|(x & Hx & ?)]; [by left|right; exists x]. rewrite elem_of_cons; auto.
    + intros x [->|Hx]%elem_of_cons Hxv; [congruence|auto].
Qed.

Lemma find_none_iff {A : Type} (p : A -> bool) l :
  List.find p l = None <-> forall x, x ∈ l -> p x = false.
Proof.
  split.
  - intros H x Hx. eapply List.find_none; [done|by apply list_elem_of_In].
  - intros H. destruct (List.find p l) eqn:E; [|done]. apply List.find_some in E as [Hin Hp].
    rewrite H in Hp; [done|by apply list_elem_of_In].
Qed.

(** The verdict on a trail: it passes exactly when no rule of the trail
    is a violation, and the violation tier is the most severe tier among the
    violating rules (the user tier when there is none). *)
Theorem judge_spec (lower : string -> string) (t : AuditTrail) :
  (ra_Pass (judge lower t) = true <-> forall r, r ∈ at_MatchedRules t -> isViolation lower r = false) /\
  (ra_ViolationTier (judge lower t) = Tier3User \/ violates lower (ra_ViolationTier (judge lower t)) t) /\
  (forall tier, violates lower tier t -> (tierOrder (ra_ViolationTier (judge lower t)) <= tierOrder tier)%Z).
Proof.
  assert (ra_ViolationTier (judge lower t) = worst_tier lower Tier3User (at_MatchedRules t)) as Htier
    by (unfold judge; by repeat case_match).
  rewrite Htier. destruct (worst_tier_spec lower Tier3User (at_MatchedRules t)) as (H1 & H2 & H3).
  split_and!; [|by unfold violates|intros tier (r & Hr & Hv & <-); auto].
  rewrite <- find_none_iff. unfold judge. cbn [ClassifyViolations].
  destruct (List.find _ _) eqn:Hf; [by split; [repeat case_match|]|].
  assert (worst_tier lower Tier3User (at_MatchedRules t) = Tier3User) as ->; [|done].
  destruct H1 as [H1|(r & Hr & Hv & _)]; [done|]. rewrite find_none_iff in Hf. by rewrite Hf in Hv.
Qed.

(** The two validators differ: [TieredVerify] passes exactly when no
    violating rule is T0 or T1, so a violation of tier T2, T3 or of an unknown
    tier name passes it. *)
Theorem tiered_passes_iff (lower : string -> string) (acc : RuleAudit) (rules : list RuleInference) :
  ra_Pass (tiered lower acc rules) = true <->
  ra_Pass acc = true /\
  forall r, r ∈ rules -> isViolation lower r = true -> ri_Tier r <> TierT0_Axiom /\ ri_Tier r <> TierT1_Governance.
Proof.
  revert acc. induction rules as [|r rules IH]; intros acc; cbn [tiered]; [set_solver|].
  setoid_rewrite elem_of_cons.
  destruct (isViolation lower r) eqn:Hv; [|rewrite IH; split; intros [H1 H2]; (split; [done|]); intros x Hx; [destruct Hx as [->|Hx]; [congruence|auto]|auto]].
  destruct (String.eqb_spec (ri_Tier r) TierT0_Axiom) as [H0|H0]; [simpl; split; [done|intros [_ H]; by destruct (H r (or_introl eq_refl) Hv)]|].
  destruct (String.eqb_spec (ri_Tier r) TierT1_Governance) as [H1|H1];
    [rewrite IH; simpl; split; [by intros [? _]|intros [_ H]; by destruct (H r (or_introl eq_refl) Hv)]|].
  repeat case_match; rewrite IH; simpl; (split; intros [Ha Hb]; (split; [done|]); intros x Hx; [destruct Hx as [->|Hx]; [done|auto]|auto]).
Qed.

(** ** Context shaving *)

Definition token_sum (atoms : list OAtom) : Z := foldr (fun a n => estimateTokens [a] + n)%Z 0%Z atoms.

Lemma atom_chars_pos a : (0 < atom_chars a)%Z.
Proof. unfold atom_chars. lia. Qed.

Lemma estimateTokens_single a : estimateTokens [a] = (atom_chars a / 4)%Z.
Proof.
  unfold estimateTokens. cbn [total_chars foldr]. rewrite Z.add_0_r. pose proof (atom_chars_pos a).
  by destruct (Z.ltb_spec 0 (atom_chars a)); [|lia].
Qed.

Lemma trim_from_spec used m l :
  exists rest, l = (trim_from used m l ++ rest)%list /\ (used <= m -> used + token_sum (trim_from used m l) <= m)%Z.
Proof.
  revert used. induction l as [|a l IH]; intros used; cbn [trim_from]; [exists []; split; [done|]; simpl; lia|].
  destruct (Z.ltb_spec m (used + estimateTokens [a])); [by exists (a :: l); split; [|simpl; lia]|].
  destruct (IH (used + estimateTokens [a])%Z) as (rest & H1 & H2). exists rest.
  split; [simpl; by f_equal|]. cbn [token_sum foldr]. fold (token_sum (trim_from (used + estimateTokens [a]) m l)). lia.
Qed.

Lemma total_chars_bound l : (total_chars l <= 4 * token_sum l + 3 * Z.of_nat (List.length l))%Z.
Proof.
  induction l as [|a l IH]; [done|]. cbn [total_chars token_sum foldr].
  fold (total_chars l) (token_sum l). rewrite estimateTokens_single. cbn [List.length].
  pose proof (Z.mod_pos_bound (atom_chars a) 4). pose proof (Z.div_mod (atom_chars a) 4). lia.
Qed.

Definition heavy (l : list OAtom) : list OAtom := List.filter (fun a => f_le ShaveThreshold (oa_Weight a)) l.

(** What [sort.Slice] by descending weight does to a list. *)
Definition sorts_by_weight (sort : list OAtom -> list OAtom) (l : list OAtom) : Prop :=
  sort l ≡ₚ l /\ StronglySorted (fun a b => f_lt (oa_Weight a) (oa_Weight b) = false) (sort l).

(** What shaving keeps: only atoms of the old context with weight at
    least the threshold, the heaviest first, with the pinned axioms
    untouched; the sum of the per-atom estimates is within the budget, and
    the context's own estimate exceeds it by at most three quarters of a
    token per atom. *)
Theorem ShaveContext_spec (sort : list OAtom -> list OAtom) (maxTokens : Z) (f : CognitiveFrame) :
  sorts_by_weight sort (heavy (fr_Context f)) -> (0 < maxTokens)%Z -> (maxTokens < estimateTokens (fr_Context f))%Z ->
  let f' := ShaveContext sort maxTokens f in
  fr_AttentionSink f' = fr_AttentionSink f /\
  (forall a, a ∈ fr_Context f' -> a ∈ fr_Context f /\ f_le ShaveThreshold (oa_Weight a) = true) /\
  (exists dropped, fr_Context f' ++ dropped ≡ₚ heavy (fr_Context f) /\
    forall a b, a ∈ fr_Context f' -> b ∈ dropped -> f_lt (oa_Weight a) (oa_Weight b) = false) /\
  (token_sum (fr_Context f') <= maxTokens)%Z /\
  (4 * estimateTokens (fr_Context f') <= 4 * maxTokens + 3 * Z.of_nat (List.length (fr_Context f')))%Z.
Proof.
  intros Hsort Hm Hbig. unfold ShaveContext.
  destruct (Z.leb_spec maxTokens 0); [lia|]. destruct (Z.leb_spec (estimateTokens (fr_Context f)) maxTokens); [lia|].
  unfold trimmedToBudget. simpl. fold (heavy (fr_Context f)). set (kept := heavy (fr_Context f)) in *.
  destruct Hsort as [Hp Hs]. destruct (trim_from_spec 0 maxTokens (sort kept)) as (rest & Hl & Hb).
  specialize (Hb ltac:(lia)). set (l := trim_from 0 maxTokens (sort kept)) in *.
  split_and!; [done| | |lia|].
  - intros a Ha. assert (a ∈ kept) as Hk by (rewrite <- Hp, Hl; set_solver).
    apply list_elem_of_In, List.filter_In in Hk as [Hk ?]. split; [by apply list_elem_of_In|done].
  - exists rest. split; [by rewrite <- Hl|]. intros a b Ha Hb'. rewrite Hl in Hs.
    by eapply (StronglySorted_app_1_elem_of (fun a b => f_lt (oa_Weight a) (oa_Weight b) = false)).
  - pose proof (total_chars_bound l). unfold estimateTokens.
    destruct (Z.ltb_spec 0 (total_chars l)); [pose proof (Z.mul_div_le (total_chars l) 4); lia|].
    destruct l as [|a l']; [simpl; lia|]. exfalso. cbn [total_chars foldr] in *. fold (total_chars l') in *.
    pose proof (atom_chars_pos a). assert (0 <= total_chars l')%Z; [|lia].
    clear. induction l' as [|x l' IH]; [done|]. cbn [total_chars foldr]. fold (total_chars l'). pose proof (atom_chars_pos x). lia.
Qed.

(** ** Witnesses *)

Definition weighted (name : string) (w : float64) : OAtom :=
  {| oa_Predicate := name; oa_Subject := "s"; oa_Object := "o"; oa_Weight := w; oa_OriginIntent := "" |}.
Definition frame_with (atoms : list OAtom) : CognitiveFrame :=
  with_Context atoms (NewCognitiveFrame "id" "hi" "" TaskTypeGeneration).

(** A shaved context may still be estimated above the budget: four atoms of
    seven characters count one token each, seven together. *)
Theorem shaved_context_over_budget :
  let f := frame_with [weighted "ab" f_1; weighted "ab" f_0_9; weighted "ab" f_0_8; weighted "ab" f_0_7] in
  estimateTokens (fr_Context f) = 7%Z /\ estimateTokens (fr_Context (ShaveContext id 4 f)) = 7%Z /\
  fr_Context (ShaveContext id 4 f) = fr_Context f.
Proof. by vm_compute. Qed.

Lemma ShaveContext_spec_witness :
  let f := frame_with [weighted "p" f_0_9; weighted "q" f_0_2; weighted "r" f_0_8] in
  sorts_by_weight id (heavy (fr_Context f)) /\
  (token_sum (fr_Context (ShaveContext id 2 f)) <= 2)%Z /\ List.length (fr_Context (ShaveContext id 2 f)) = 2.
Proof.
  intros f. assert (sorts_by_weight id (heavy (fr_Context f))) as Hs.
  { split; [done|]. repeat (constructor; [|repeat constructor]); vm_compute; repeat constructor. }
  split; [exact Hs|]. split; [|by vm_compute].
  destruct (ShaveContext_spec id 2 f Hs) as (_ & _ & _ & H & _); [lia|by vm_compute|exact H].
Defined.

Definition ping : ActionEnvelope := {| ac_Name := "ping"; ac_Arguments := ∅; ac_SessionID := "" |}.
Definition ping_trail : AuditTrail := NewAuditTrail 0 "engine" "q".
Definition ping_decision : Decision :=
  {| d_Outcome := DecisionProceed; d_Target := ""; d_Reasons := []; d_Meta := []; d_AuditTrail := Some ping_trail;
     d_Action := Some ping |}.
Definition ping_tool : ToolFunc nat := fun _ w => (S w, ("pong", None)).
Definition ping_brain : Brain nat :=
  {| br_Evaluate _ w := (w, Ok (Some ping_decision)); br_Verify _ w := (w, Ok (Some ping_trail)); br_Plan := None |}.

(** A brain that wants [ping], and the tools of [r]. *)
Definition ping_ports (r : Registry nat) : Ports nat :=
  {| po_Memory := None; po_Brain := Some ping_brain; po_Executor := None; po_Dispatcher := Some (NewDispatcher r);
     po_KnowledgeStore := None; po_TransientStore := None; po_ReasoningPort := None |}.
Definition ping_registry : Registry nat := {[ "ping" := Some ping_tool ]}.
Definition hi_frame : CognitiveFrame := NewCognitiveFrame "id" "hi" "" TaskTypeGeneration.

(** How a run ended: without an error, or with one. *)
Definition ended {W : Type} (fails : bool) (x : option (CognitiveFrame * W * option error)) : bool :=
  match x with
  | Some (_, _, None) => negb fails
  | Some (_, _, Some _) => fails
  | None => false
  end.

Lemma ended_ok {W : Type} (x : option (CognitiveFrame * W * option error)) :
  ended false x = true -> exists f w, x = Some (f, w, None).
Proof. destruct x as [[[f w] [e|]]|]; simpl; try discriminate. eauto. Qed.
Lemma ended_err {W : Type} (x : option (CognitiveFrame * W * option error)) :
  ended true x = true -> exists f w e, x = Some (f, w, Some e).
Proof. destruct x as [[[f w] [e|]]|]; simpl; try discriminate. eauto. Qed.

Lemma RunOODA_success_witness :
  exists f w, RunOODA (ping_ports ping_registry) id (fun _ => "") (fun _ => false) (fun _ => None) hi_frame 0 = Some (f, w, None) /\ fr_Status f = VerifyStatusPassed.
Proof.
  destruct (ended_ok (RunOODA (ping_ports ping_registry) id (fun _ => "") (fun _ => false) (fun _ => None) hi_frame 0)) as (f & w & H); [by_vm|].
  exists f, w. split; [exact H|].
  apply (RunOODA_success (ping_ports ping_registry) id (fun _ => "") (fun _ => false) (fun _ => None) hi_frame f 0 w H).
Defined.

Lemma RunOODA_error_keeps_status_witness :
  exists f w e, RunOODA (ping_ports ∅) id (fun _ => "") (fun _ => false) (fun _ => None) hi_frame 0 = Some (f, w, Some e) /\ fr_Status f = VerifyStatusPending.
Proof.
  destruct (ended_err (RunOODA (ping_ports ∅) id (fun _ => "") (fun _ => false) (fun _ => None) hi_frame 0)) as (f & w & e & H); [by_vm|].
  exists f, w, e. split; [exact H|].
  apply (RunOODA_error_keeps_status (ping_ports ∅) id (fun _ => "") (fun _ => false) (fun _ => None) hi_frame f 0 w e H).
Defined.

Definition decided : CognitiveFrame := assign_decision (Some ping_decision) hi_frame.

Lemma unknown_action_refused_witness :
  exists f' e d' t', actWithSimpleRetry (ping_ports ∅) (fun _ => "") (fun _ => None) decided 0 = Some (f', 0, Some e) /\
    fr_RetryCount f' = 3%Z /\ fr_ActionResult f' = GNil /\ fr_Decision f' = Some d' /\ d_Action d' = Some ping /\
    d_AuditTrail d' = Some t' /\ at_MatchedRules t' = repeat (sovereign_violation "ping") 4.
Proof.
  apply (unknown_action_refused (ping_ports ∅) (fun _ => "") (NewDispatcher ∅) ping ping_decision ping_trail decided 0);
    reflexivity.
Defined.

Lemma ping_counts : counts_actions (fun n : nat => n) (ping_ports ping_registry).
Proof.
  split_and!; intros *; cbn [ping_ports po_Dispatcher po_Executor po_TransientStore]; try done.
  intros [= <-]. unfold Dispatch, Registry_Get. cbn [NewDispatcher dp_registry].
  destruct (decide (name = "ping")) as [->|Hn]; [by vm_compute; lia|].
  assert (ping_registry !! name = None) as -> 
    by (apply (lookup_singleton_ne (M := gmap string) "ping" name (Some ping_tool)); congruence).
  cbn. lia.
Defined.

Lemma action_runs_bounded_witness :
  exists f' w', actWithSimpleRetry (ping_ports ping_registry) (fun _ => "") (fun _ => None) decided 0
    = Some (f', w', None) /\ (Z.of_nat w' <= 0 + 3 + 1)%Z.
Proof.
  destruct (ended_ok (actWithSimpleRetry (ping_ports ping_registry) (fun _ => "") (fun _ => None) decided 0))
    as (f' & w' & E); [by_vm|].
  exists f', w'. split; [exact E|].
  exact (action_runs_bounded (fun n => n) (ping_ports ping_registry) (fun _ => "") (fun _ => None) decided f' 0 w' None
           ping_counts E).
Defined.

Lemma rollback_never_runs_witness :
  actWithRetry (with_rollback (fun _ _ w => (S w, None)) (ping_ports ∅)) (fun _ => "") (fun _ => None) decided 0
  = actWithRetry (ping_ports ∅) (fun _ => "") (fun _ => None) decided 0.
Proof.
  apply (rollback_never_runs (fun _ _ w => (S w, None)) (ping_ports ∅) (fun _ => "") (fun _ => None) decided 0).
  reflexivity.
Defined.

Lemma negative_retries_skip_action_witness :
  exists f, fc_MaxRetries (fr_cfg f) = (-1)%Z /\
    actWithRetry (ping_ports ping_registry) (fun _ => "") (fun _ => None) f 0 = Some (f, 0, None).
Proof.
  set (f := flow_frame {| of_MaxRetries := -1; of_ParadoxThreshold := f_zero |} "id"
              {| fi_Input := "hi"; fi_Intent := ""; fi_TaskType := "" |}).
  exists f. split; [reflexivity|]. apply (negative_retries_skip_action (ping_ports ping_registry)). reflexivity.
Defined.
