(* ===== verification/East.v ===== *)
(** * EAST steering

    [x/east]: saliency, entropy and activity metrics ([saliency.go]), the
    steering functions ([steer.go]) and the steered loop [RunOODAEAST] with its
    post-act refinement ([run.go]), over the phases of [Ooda].

    Parameters: [math_Exp] is [math.Exp]; [keywords] lists the keyword table
    in the order Go ranges over it. *)
From S2P Require Import Prelude GoStrings CoreErrors CoreTypes Reflect Float64 Ooda.
From Stdlib Require Import Ascii String.
Open Scope string_scope.

(** ** Metrics *)

Definition keyword_table : list (string * string) :=
  [("production", "high_priority"); ("critical", "high_priority"); ("security", "high_priority");
   ("urgent", "high_priority"); ("migration", "domain_specific"); ("deploy", "domain_specific");
   ("database", "domain_specific"); ("api", "domain_specific")].

Definition MeasureSaliency (lower : string -> string) (keywords : list (string * string)) (input : string) : list string :=
  let l := to_lower lower input in
  let signals := map snd (List.filter (fun kc => contains l (fst kc)) keywords) in
  match signals with [] => [] | _ => (signals ++ ["known_pattern"])%list end.

Definition CalculateEntropy (conflictCount totalRules : Z) : float64 :=
  if (totalRules =? 0)%Z then f_zero else math_Min (f_div (f_of_int conflictCount) (f_of_int totalRules)) f_1.

Definition CalculateActivity (atoms : list OAtom) : gmap string Z :=
  fold_left (fun m a => <[activity_key a := (default 0 (m !! activity_key a) + 1)%Z]> m) atoms ∅.

Definition conflict_key (a : OAtom) : string := oa_Predicate a +:+ ":" +:+ oa_Object a.

(** A context atom that is confident, not itself an axiom, and shares its
    predicate with one. *)
Definition conflicts_with (keys : list string) (a : OAtom) : bool :=
  negb (f_lt (oa_Weight a) f_0_5) && negb (existsb (String.eqb (conflict_key a)) keys)
  && existsb (fun k => has_prefix k (oa_Predicate a +:+ ":")) keys.

Definition DetectConflicts (context axioms : list OAtom) : Z :=
  Z.of_nat (List.length (List.filter (conflicts_with (map conflict_key axioms)) context)).

Definition ClassifyTrustTier (source : string) : string :=
  if String.eqb source "kernel_axiom" then Tier0Kernel
  else if String.eqb source "admin_config" then Tier1Admin
  else if String.eqb source "ai_induced" then Tier2AI
  else Tier3User.

Definition IsSaliencyHigh (saliency : list string) : bool := existsb (String.eqb "high_priority") saliency.
Definition IsSaliencyKnown (saliency : list string) : bool := existsb (String.eqb "known_pattern") saliency.

Definition UpdateEntropy (oldEntropy : float64) (violations totalRules : Z) : float64 :=
  if (totalRules =? 0)%Z then oldEntropy
  else math_Min (f_add oldEntropy (f_div (f_of_int violations) (f_of_int totalRules))) f_1.

(** ** Steering *)

Inductive ExecutionPath := PathFast | PathStandard | PathSlow.

Record SteeringPolicy := { sp_MinMagnitude : float64; sp_HeaderKey : string; sp_BodyKey : string }.

Definition SteeringRegistry : list SteeringPolicy :=
  [{| sp_MinMagnitude := f_0_8; sp_HeaderKey := "prompt_header_paradox"; sp_BodyKey := "prompt_body_conservative" |};
   {| sp_MinMagnitude := f_0_5; sp_HeaderKey := "prompt_header_strict"; sp_BodyKey := "prompt_body_structured" |};
   {| sp_MinMagnitude := f_zero; sp_HeaderKey := "prompt_header_default"; sp_BodyKey := "prompt_body_creative" |}].

(** The fallback is the last entry. *)
Definition GetSteeringPrompts (magnitude : float64) : string * string :=
  match List.find (fun p => f_le (sp_MinMagnitude p) magnitude) SteeringRegistry with
  | Some p => (sp_HeaderKey p, sp_BodyKey p)
  | None => ("prompt_header_default", "prompt_body_creative")
  end.

Definition isKnownPattern (f : CognitiveFrame) : bool :=
  existsb (String.eqb "known_pattern") (es_Saliency (fr_EAST f))
  || match fr_RawContext f ≫= (.!! "project_type") with
     | Some (RGo (GStr v)) => negb (String.eqb v "")
     | _ => false
     end.

Definition Steer (s : EASTState) (f : CognitiveFrame) : ExecutionPath :=
  if f_lt (es_Entropy s) f_0_2 && String.eqb (es_TrustTier s) Tier0Kernel && isKnownPattern f then PathFast
  else if f_lt f_0_7 (es_Entropy s) || String.eqb (es_TrustTier s) Tier3User || String.eqb (es_TrustTier s) Tier2AI
  then PathSlow
  else PathStandard.

(** One Datalog query of [SteerKB]: no error and at least one answer. *)
Definition kb_holds {W : Type} (r : ReasoningPort W) (query : string) (w : W) : W * bool :=
  match rp_VerifyWithDatalog r query w with
  | (w1, Ok (_ :: _)) => (w1, true)
  | (w1, _) => (w1, false)
  end.

Definition SteerKB {W : Type} (r : option (ReasoningPort W)) (s : EASTState) (f : CognitiveFrame) (w : W)
  : W * ExecutionPath :=
  match r with
  | None => (w, Steer s f)
  | Some r =>
      let '(w1, fast) := kb_holds r ("fast_path(" +:+ fc_ID (fr_cfg f) +:+ ")") w in
      if fast then (w1, PathFast)
      else let '(w2, slow) := kb_holds r ("slow_path(" +:+ fc_ID (fr_cfg f) +:+ ")") w1 in
           (w2, if slow then PathSlow else PathStandard)
  end.

Definition ShouldInjectParadox (s : EASTState) : bool :=
  let threshold := if f_le (es_ParadoxThreshold s) f_zero then DefaultParadoxThreshold else es_ParadoxThreshold s in
  f_lt threshold (es_SteeringMagnitude s).

Definition Temperature (s : EASTState) : float64 :=
  let m := es_SteeringMagnitude s in
  if f_lt m f_0_3 then f_0_9 else if f_lt m f_0_6 then f_0_7 else if f_lt m f_0_8 then f_0_4 else f_0_1.

(** Setters of the state. *)
Definition es_with (l p e : float64) (a : gmap string Z) (sal : list string) (t : string) (s : EASTState) : EASTState :=
  {| es_LogicSuccess := l; es_EntropyCoefficient := es_EntropyCoefficient s; es_SteeringMagnitude := p;
     es_Entropy := e; es_Activity := a; es_Saliency := sal; es_TrustTier := t;
     es_ParadoxThreshold := es_ParadoxThreshold s |}.
Definition es_set_logic (l : float64) (s : EASTState) : EASTState :=
  es_with l (es_SteeringMagnitude s) (es_Entropy s) (es_Activity s) (es_Saliency s) (es_TrustTier s) s.
Definition es_set_entropy (e : float64) (s : EASTState) : EASTState :=
  es_with (es_LogicSuccess s) (es_SteeringMagnitude s) e (es_Activity s) (es_Saliency s) (es_TrustTier s) s.
Definition es_set_saliency (l : list string) (s : EASTState) : EASTState :=
  es_with (es_LogicSuccess s) (es_SteeringMagnitude s) (es_Entropy s) (es_Activity s) l (es_TrustTier s) s.

Section Loop.
Context {W : Type} (P : Ports W) (lower : string -> string) (render : GoVal -> string)
  (math_Exp : float64 -> float64) (keywords : list (string * string)).

Definition CalculateEAST (logicSuccess entropyCoefficient : float64) : float64 :=
  let n := if f_le entropyCoefficient f_0_01 then f_0_01 else entropyCoefficient in
  let l := if f_lt logicSuccess f_zero then f_zero else if f_lt f_1 logicSuccess then f_1 else logicSuccess in
  f_div (math_Exp (f_sub f_1 l)) n.

Definition CalculateMagnitude (s : EASTState) : EASTState :=
  if f_eq (es_EntropyCoefficient s) f_zero then s
  else es_with (es_LogicSuccess s) (f_div (math_Exp (f_sub f_1 (es_LogicSuccess s))) (es_EntropyCoefficient s))
         (es_Entropy s) (es_Activity s) (es_Saliency s) (es_TrustTier s) s.

(** [frame.RawContext[k] = v], creating the map when it is nil. *)
Definition raw_set (k : string) (v : RawVal) (f : CognitiveFrame) : CognitiveFrame :=
  with_RawContext (Some (<[k := v]> (default ∅ (fr_RawContext f)))) f.

Definition planWithEAST : Step (W := W) := fun f w =>
  let f := with_Phase PhasePlan f in
  match po_Brain P ≫= br_Plan with
  | None => Some (record PhasePlan f, w, None)
  | Some plan =>
      match plan f w with
      | (f1, w1, Some e) => Some (f1, w1, Some (EWrap "planning failed: " e))
      | (f1, w1, None) => Some (record PhasePlan f1, w1, None)
      end
  end.

Definition observeWithSaliency : Step (W := W) := fun f w =>
  let f := with_Phase PhaseObserve f in
  if String.eqb (fc_Input (fr_cfg f)) "" then Some (f, w, Some (EText "empty input"))
  else
    let f := append_context [raw_input f f_0_3] f in
    Some (record PhaseObserve
            (with_EAST (es_set_saliency (MeasureSaliency lower keywords (fc_Input (fr_cfg f))) (fr_EAST f)) f), w, None).

Definition trust_tier (f : CognitiveFrame) : string :=
  match fr_Decision f, frame_trail f with
  | Some _, Some t => ClassifyViolations lower (Some t)
  | _, _ => match fr_AttentionSink f with [] => Tier2AI | _ => Tier0Kernel end
  end.

Definition totalRulesCount (f : CognitiveFrame) : Z :=
  Z.of_nat (List.length (fr_Context f) + List.length (fr_AttentionSink f)).

(** The metrics of [orientWithEAST], computed before pruning. *)
Definition measured (f : CognitiveFrame) : EASTState :=
  let s := fr_EAST f in
  CalculateMagnitude
    (es_with (es_LogicSuccess s) (es_SteeringMagnitude s)
       (CalculateEntropy (DetectConflicts (fr_Context f) (fr_AttentionSink f)) (totalRulesCount f))
       (CalculateActivity (fr_Context f)) (es_Saliency s) (trust_tier f) s).

(** Metrics, pruning and the execution object. *)
Definition synthesize (f : CognitiveFrame) : CognitiveFrame :=
  let f1 := with_EAST (measured f) f in
  let act := es_Activity (fr_EAST f1) in
  let f2 := if decide (act = ∅) then f1 else PruneColdAtoms act f1 in
  record PhaseOrient (raw_set "execution_object" (RExec (NewExecutionObject f2)) f2).

Definition orientWithEAST : Step (W := W) := fun f w =>
  and_then (Orient P) (fun f w => Some (synthesize f, w, None)) (with_Phase PhaseOrient f) w.

Definition inject_paradox (f : CognitiveFrame) : CognitiveFrame :=
  if ShouldInjectParadox (fr_EAST f) then
    raw_set "east_steering_magnitude" (RFloat (es_SteeringMagnitude (fr_EAST f)))
      (raw_set "east_temperature" (RFloat (Temperature (fr_EAST f)))
         (raw_set "east_inject_paradox" (RGo (GBool true)) f))
  else f.

Definition decideWithEAST : Step (W := W) := fun f w =>
  let f := with_Phase PhaseDecide f in
  match po_Brain P with
  | None => Some (f, w, None)
  | Some b =>
      let f := inject_paradox f in
      let s := fr_EAST f in
      match br_Evaluate b f w with
      | (w1, Err e) =>
          Some (with_EAST (es_set_logic (go_max f_zero (f_sub (es_LogicSuccess s) f_0_1)) s) f, w1,
                Some (EWrap "brain evaluation failed: " e))
      | (w1, Ok d) =>
          let f := with_EAST (es_set_logic (go_min f_1 (f_add (es_LogicSuccess s) f_0_05)) s) f in
          Some (record PhaseDecide (assign_decision d f), w1, None)
      end
  end.

Definition ErrT0Violation : error := EText "T0 violation: immediate halt".
Definition ErrMaxRefinementIterations : error := EText "max refinement iterations exceeded".
Definition ErrChaosThreshold : error := EText "chaos threshold exceeded: entropy too high".

Definition violationsCount (audit : RuleAudit) : Z := if ra_Pass audit then 0 else 1.

(** Return from the post-act loop. *)
Definition stop (status : string) (err : option error) (f : CognitiveFrame) (w : W)
  : option (CognitiveFrame * W * option error) :=
  Some (record PhasePostAct (with_Status status f), w, err).

(** [frame.Memory.Commit], its error dropped; the status is already set. *)
Definition accept (status : string) (f : CognitiveFrame) (w : W) : option (CognitiveFrame * W * option error) :=
  let f := with_Status status f in
  stop status None f (match po_Memory P with Some mem => fst (mem_Commit mem f w) | None => w end).

Definition post_max (f : CognitiveFrame) : Z :=
  if (fc_MaxRetries (fr_cfg f) <=? 0)%Z then 3%Z else fc_MaxRetries (fr_cfg f).

(** One iteration after the validation: stop, accept, or refine and go on
    with [next]. *)
Definition route (next : Step (W := W)) (maxRetries attempt : Z) (audit : RuleAudit) (f : CognitiveFrame) (w : W)
  : option (CognitiveFrame * W * option error) :=
  let entropy := UpdateEntropy (es_Entropy (fr_EAST f)) (violationsCount audit) (totalRulesCount f) in
  let f := with_EAST (es_set_entropy entropy (fr_EAST f)) f in
  let reason := ShouldTerminate audit (fr_RetryCount f) maxRetries entropy in
  if String.eqb reason "t0_violation" then stop VerifyStatusFailed (Some ErrT0Violation) f w
  else if String.eqb reason "max_iterations" then stop VerifyStatusFailed (Some ErrMaxRefinementIterations) f w
  else if String.eqb reason "chaos_threshold" then stop VerifyStatusFailed (Some ErrChaosThreshold) f w
  else if ra_Pass audit then accept VerifyStatusPassed f w
  else if f_lt entropy f_0_7 && String.eqb (ra_ViolationTier audit) Tier3User then accept VerifyStatusWarning f w
  else
    let feedback := NewRefinementContext audit (fr_Draft f) (attempt + 1) in
    then_ "re-decide failed: " decideWithEAST
    (then_ "re-act failed: " (Act P render) next) (raw_set "refinement_feedback" (RFeedback feedback) f) w.

(** The refinement loop from [attempt], [n] iterations left. *)
Fixpoint refine (n : nat) (maxRetries attempt : Z) (f : CognitiveFrame) (w : W)
  : option (CognitiveFrame * W * option error) :=
  match n with
  | O => stop VerifyStatusFailed (Some ErrMaxRefinementIterations) f w
  | S n' =>
      '(f1, w1, r) ← ValidateAgainstRules lower P (with_RetryCount (attempt + 1) f) w;
      match r with
      | Err e => Some (f1, w1, Some (EWrap "validation failed: " e))
      | Ok audit => route (refine n' maxRetries (attempt + 1)) maxRetries attempt audit f1 w1
      end
  end.

Definition eastPostAct : Step (W := W) := fun f w =>
  let f := with_Phase PhasePostAct f in
  refine (Z.to_nat (post_max f)) (post_max f) 0 f w.

(** The path is only logged. *)
Definition steer_phase : Step (W := W) := fun f w =>
  Some (f, fst (SteerKB (po_ReasoningPort P) (fr_EAST f) f w), None).

Definition RunOODAEAST : Step (W := W) := fun f w =>
  then_ "observe failed: " observeWithSaliency
  (then_ "orient failed: " orientWithEAST
  (then_ "plan failed: " planWithEAST
  (and_then steer_phase
  (then_ "decide failed: " decideWithEAST
  (then_ "act failed: " (Act P render) eastPostAct))))) f w.
End Loop.
