(* ===== verification/EastProps.v ===== *)
(** * Properties of EAST steering

    What the refinement loop accepts and when it stops, the range of the
    entropy, which context atoms survive orientation, and the consequences
    for the raw input and for paradox injection. *)
From S2P Require Import Prelude GoStrings CoreErrors CoreTypes Reflect Float64 Ooda OodaProps East.
From Stdlib Require Import Ascii String.
Open Scope string_scope.

Section Refinement.
Context {W : Type} (P : Ports W) (lower : string -> string) (render : GoVal -> string).

(** What acceptance by the post-act loop rests on. *)
Definition validated (f : CognitiveFrame) : Prop :=
  match po_Brain P with
  | None => fr_Status f = VerifyStatusPassed
  | Some b => exists g w w' t, br_Verify b g w = (w', Ok (Some t)) /\
      fr_ActionResult g = fr_ActionResult f /\ fr_Decision g = fr_Decision f /\ frame_trail f = Some t /\
      ((fr_Status f = VerifyStatusPassed /\ forall r, r ∈ at_MatchedRules t -> isViolation lower r = false) \/
       (fr_Status f = VerifyStatusWarning /\ ra_ViolationTier (judge lower t) = Tier3User /\
        f_lt (es_Entropy (fr_EAST f)) f_0_7 = true))
  end.

Lemma judge_pass t :
  ra_Pass (judge lower t) = true -> forall r, r ∈ at_MatchedRules t -> isViolation lower r = false.
Proof.
  rewrite <- find_none_iff. unfold judge. cbn [ClassifyViolations].
  destruct (List.find _ _); [|done]. by repeat case_match.
Qed.

Lemma accept_inv status f w f' w' err :
  accept P status f w = Some (f', w', err) ->
  err = None /\ f' = record PhasePostAct (with_Status status (with_Status status f)).
Proof. unfold accept, stop. by intros [= <- _ <-]. Qed.

(** The entropy an iteration computes, and the frame that holds it. *)
Definition next_entropy (audit : RuleAudit) (f : CognitiveFrame) : float64 :=
  UpdateEntropy (es_Entropy (fr_EAST f)) (violationsCount audit) (totalRulesCount f).
Definition updated (audit : RuleAudit) (f : CognitiveFrame) : CognitiveFrame :=
  with_EAST (es_set_entropy (next_entropy audit f) (fr_EAST f)) f.

(** The ways out of an iteration without an error. *)
Lemma route_ok next m attempt audit f w f' w' :
  route P render next m attempt audit f w = Some (f', w', None) ->
  (fr_RetryCount f < m)%Z /\ ra_ViolationTier audit <> Tier0Kernel /\
  ((exists status, f' = record PhasePostAct (with_Status status (with_Status status (updated audit f))) /\
      (status = VerifyStatusPassed /\ ra_Pass audit = true \/
       status = VerifyStatusWarning /\ ra_ViolationTier audit = Tier3User /\ f_lt (next_entropy audit f) f_0_7 = true)) \/
   exists g v, next g v = Some (f', w', None)).
Proof.
  unfold route. cbv zeta. fold (next_entropy audit f). fold (updated audit f).
  change (fr_RetryCount (updated audit f)) with (fr_RetryCount f). unfold ShouldTerminate.
  destruct (String.eqb_spec (ra_ViolationTier audit) Tier0Kernel) as [|H0]; [done|].
  destruct (Z.leb_spec m (fr_RetryCount f)) as [|Hlt]; [done|]. destruct (f_lt f_0_9 _); [done|].
  cbn [String.eqb]. intros H. split; [done|]. split; [done|]. revert H.
  destruct (ra_Pass audit) eqn:Hp; [intros [_ ->]%accept_inv; left; eexists; split; [done|auto]|].
  destruct (f_lt (next_entropy audit f) f_0_7) eqn:He; cbn [andb].
  1: destruct (String.eqb_spec (ra_ViolationTier audit) Tier3User) as [Ht|Ht];
       [intros [_ ->]%accept_inv; left; eexists; split; [done|auto]|].
  all: intros (f3 & w3 & _ & (f4 & w4 & _ & H)%then_ok)%then_ok; right; eauto.
Qed.

Lemma refine_accepts n : forall m attempt f w f' w',
  refine P lower render n m attempt f w = Some (f', w', None) ->
  validated f' /\ (attempt < fr_RetryCount f' < m)%Z.
Proof.
  induction n as [|n IH]; intros m attempt f w f' w'; cbn [refine]; [done|].
  unfold ValidateAgainstRules. destruct (po_Brain P) as [b|] eqn:Hb.
  - destruct (br_Verify b _ w) as [w1 [[t|]|e]] eqn:Hv; cbn [mbind option_bind]; [|done..].
    intros (Hm & _ & [(status & -> & Hs)|(g & v & H%IH)])%route_ok; [|split; [apply H|lia]].
    split; [|simpl in *; lia]. unfold validated. rewrite Hb.
    exists (with_RetryCount (attempt + 1) f), w, w1, t. split_and!; try done.
    destruct Hs as [[-> Hp]|(-> & Ht & He)]; [left; split; [done|by apply judge_pass]|by right].
  - cbn [mbind option_bind].
    intros (Hm & _ & [(status & -> & Hs)|(g & v & H%IH)])%route_ok; [|split; [apply H|lia]].
    split; [|simpl in *; lia]. unfold validated. rewrite Hb. by destruct Hs as [[-> _]|(_ & Ht & _)].
Qed.
End Refinement.

Lemma user_tier_only lower t : ra_ViolationTier (judge lower t) = Tier3User ->
  forall r, r ∈ at_MatchedRules t -> isViolation lower r = true -> ooda_mapCoreTier (ri_Tier r) = Tier3User.
Proof.
  assert (ra_ViolationTier (judge lower t) = worst_tier lower Tier3User (at_MatchedRules t)) as -> by (unfold judge; by repeat case_match).
  destruct (worst_tier_spec lower Tier3User (at_MatchedRules t)) as (_ & _ & H3). intros Hw r Hr Hv. specialize (H3 r Hr Hv).
  rewrite Hw in H3. destruct (ooda_mapCoreTier_range (ri_Tier r)) as [E|[E|[E|[E|[]]]]]; rewrite <- E in *; vm_compute in H3; done.
Qed.

(** C22: What the steered loop accepts.  When [eastPostAct] returns no error
    the attempt was not the last one, and the frame it leaves is one of these.
    With a brain configured, the brain was asked about a frame with this very
    result and decision and its trail is recorded; either no rule of the trail
    is a violation and the frame is passed, or every violation in it is of the
    user tier, the entropy is below 0.7 and the frame is marked with a warning.
    Without a brain nothing was validated, and the frame is passed all the
    same. *)
Theorem eastPostAct_accepts {W : Type} (P : Ports W) (lower : string -> string) (render : GoVal -> string)
    (f f' : CognitiveFrame) (w w' : W) :
  eastPostAct P lower render f w = Some (f', w', None) ->
  (0 < fr_RetryCount f' < post_max f)%Z /\
  (po_Brain P = None -> fr_Status f' = VerifyStatusPassed) /\
  (forall b, po_Brain P = Some b -> exists g v v' t, br_Verify b g v = (v', Ok (Some t)) /\
     fr_ActionResult g = fr_ActionResult f' /\ fr_Decision g = fr_Decision f' /\ frame_trail f' = Some t /\
     ((fr_Status f' = VerifyStatusPassed /\ forall r, r ∈ at_MatchedRules t -> isViolation lower r = false) \/
      (fr_Status f' = VerifyStatusWarning /\ f_lt (es_Entropy (fr_EAST f')) f_0_7 = true /\
       forall r, r ∈ at_MatchedRules t -> isViolation lower r = true -> ooda_mapCoreTier (ri_Tier r) = Tier3User))).
Proof.
  intros [H Hr]%refine_accepts. split; [done|]. unfold validated in H. split; [intros Hb; by rewrite Hb in H|].
  intros b Hb. rewrite Hb in H. destruct H as (g & v & v' & t & H1 & H2 & H3 & H4 & H5). exists g, v, v', t. split_and!; try done.
  destruct H5 as [?|(? & Ht & ?)]; [by left|right]. split_and!; [done|done|]. by apply user_tier_only.
Qed.

(** The last attempt is never accepted: the iteration limit is tested
    before the verdict, so with [MaxRetries] = 1 the loop fails whatever the
    brain says, even when it finds no violation at all. *)
Theorem single_attempt_never_accepted {W : Type} (P : Ports W) (lower : string -> string) (render : GoVal -> string)
    (f f' : CognitiveFrame) (w w' : W) (err : option error) :
  fc_MaxRetries (fr_cfg f) = 1%Z -> eastPostAct P lower render f w = Some (f', w', err) -> is_Some err.
Proof.
  intros Hm H. destruct err as [e|]; [by eexists|]. apply refine_accepts in H as [_ Hr].
  assert (post_max (with_Phase PhasePostAct f) = 1%Z) as E by (unfold post_max; simpl; by rewrite Hm). lia.
Qed.

(** A kernel violation halts at once: when the first validation finds a
    T0 violation, the loop ends with the T0 error and a failed frame, without
    another decision, action or commit. *)
Theorem kernel_violation_halts {W : Type} (P : Ports W) (lower : string -> string) (render : GoVal -> string)
    (b : Brain W) (f : CognitiveFrame) (w w' : W) (t : AuditTrail) :
  po_Brain P = Some b ->
  br_Verify b (with_RetryCount 1 (with_Phase PhasePostAct f)) w = (w', Ok (Some t)) ->
  violates lower Tier0Kernel t ->
  exists f', eastPostAct P lower render f w = Some (f', w', Some ErrT0Violation) /\
    fr_Status f' = VerifyStatusFailed /\ fr_ActionResult f' = fr_ActionResult f /\ fr_Decision f' = fr_Decision f.
Proof.
  intros Hb Hv (r & Hr & Hviol & Ht).
  assert (ra_ViolationTier (judge lower t) = Tier0Kernel) as H0.
  { assert (ra_ViolationTier (judge lower t) = worst_tier lower Tier3User (at_MatchedRules t)) as ->
      by (unfold judge; by repeat case_match).
    destruct (worst_tier_spec lower Tier3User (at_MatchedRules t)) as (H1 & _ & H3).
    specialize (H3 r Hr Hviol). rewrite Ht in H3.
    assert (In (worst_tier lower Tier3User (at_MatchedRules t)) [Tier0Kernel; Tier1Admin; Tier2AI; Tier3User]) as Hin.
    { destruct H1 as [->|(x & _ & _ & <-)]; [simpl; tauto|apply ooda_mapCoreTier_range]. }
    destruct Hin as [<-|[E|[E|[E|[]]]]]; [done| | |]; rewrite <- E in H3; vm_compute in H3; by destruct H3. }
  unfold eastPostAct. assert (exists n, Z.to_nat (post_max (with_Phase PhasePostAct f)) = S n) as [n ->].
  { unfold post_max. simpl. destruct (Z.leb_spec (fc_MaxRetries (fr_cfg f)) 0); [by exists 2|].
    exists (Z.to_nat (fc_MaxRetries (fr_cfg f) - 1)). lia. }
  cbn [refine]. unfold ValidateAgainstRules. rewrite Hb. change (0 + 1)%Z with 1%Z. rewrite Hv. cbn [mbind option_bind].
  unfold route. cbv zeta. unfold ShouldTerminate. rewrite H0. simpl. eexists. done.
Qed.

(** ** Entropy *)

Definition entropy_capped (f : CognitiveFrame) : Prop := f_lt f_1 (es_Entropy (fr_EAST f)) = false.

Lemma UpdateEntropy_capped e v n : f_lt f_1 e = false -> f_lt f_1 (UpdateEntropy e v n) = false.
Proof. intros He. unfold UpdateEntropy. destruct (n =? 0)%Z; [done|]. by apply math_Min_not_gt. Qed.

Section Entropy.
Context {W : Type} (P : Ports W) (lower : string -> string) (render : GoVal -> string).

Lemma decideWithEAST_entropy : keeps (fun f => es_Entropy (fr_EAST f)) (decideWithEAST P).
Proof.
  intros f w f' w' err. unfold decideWithEAST. destruct (po_Brain P) as [b|]; [|by intros [= <- _ _]].
  assert (forall g, fr_EAST (inject_paradox g) = fr_EAST g) as Hi by (intros g; unfold inject_paradox; by case_match).
  destruct (br_Evaluate b _ w) as [w1 [d|e]]; intros [= <- _ _]; [destruct d|]; simpl; by rewrite Hi.
Qed.

Lemma Act_entropy : keeps (fun f => es_Entropy (fr_EAST f)) (Act P render).
Proof.
  intros f w f' w' err. unfold Act. destruct (fr_Decision _) as [d|]; [|by intros [= <- _ _]].
  assert (forall g w1 r, executeAction P d (with_Phase PhaseAct f) w = (g, w1, r) -> fr_EAST g = fr_EAST f) as He.
  { unfold executeAction, executeWithDispatcher. intros. repeat case_match; simplify_eq; done. }
  destruct (executeAction P d _ w) as [[f1 w1] [v|e]]; [|intros [= <- _ _]; by erewrite He].
  destruct (store_result _ _ _ _ _ _); simpl; [|done]. intros [= <- _ _]. simpl. by erewrite He.
Qed.

Lemma then_keeps_inv msg (m k : Step (W := W)) (Q : CognitiveFrame -> Prop) f w f' w' err :
  (forall f w f' w' err, Q f -> m f w = Some (f', w', err) -> Q f') ->
  (forall f w f' w' err, Q f -> k f w = Some (f', w', err) -> Q f') ->
  Q f -> then_ msg m k f w = Some (f', w', err) -> Q f'.
Proof.
  intros Hm Hk Hq. unfold then_. destruct (m f w) as [[[f1 w1] [e|]]|] eqn:E; simpl; [|eauto|done].
  intros [= <- _ _]. eauto.
Qed.

Lemma refine_entropy n : forall m attempt f w f' w' err,
  entropy_capped f -> refine P lower render n m attempt f w = Some (f', w', err) -> entropy_capped f'.
Proof.
  unfold entropy_capped.
  induction n as [|n IH]; intros m attempt f w f' w' err Hf; cbn [refine]; [by intros [= <- _ _]|].
  destruct (ValidateAgainstRules lower P _ w) as [[[f1 w1] r]|] eqn:Hv; [|done]. cbn [mbind option_bind].
  assert (fr_EAST f1 = fr_EAST f) as He by (unfold ValidateAgainstRules in Hv; repeat case_match; by simplify_eq).
  destruct r as [audit|e]; [|intros [= <- _ _]; by rewrite He].
  unfold route. cbv zeta. rewrite He. set (e' := UpdateEntropy _ _ _).
  assert (f_lt f_1 e' = false) as Hcap by by apply UpdateEntropy_capped.
  repeat (case_match; [by intros [= <- _ _]|]).
  apply (then_keeps_inv _ _ _ (fun g => f_lt f_1 (es_Entropy (fr_EAST g)) = false)); [|clear f' w' err|done].
  - intros g v g' v' err' Hg Hd%decideWithEAST_entropy. by rewrite Hd.
  - intros g v g' v' err' Hg. apply (then_keeps_inv _ _ _ (fun g => f_lt f_1 (es_Entropy (fr_EAST g)) = false)); [|by apply IH|done].
    intros ? ? ? ? ? Hx Ha%Act_entropy. by rewrite Ha.
Qed.
End Entropy.

(** The entropy stays in range: refinement never raises it above one,
    however many attempts fail and however the loop ends. *)
Theorem entropy_never_above_one {W : Type} (P : Ports W) (lower : string -> string) (render : GoVal -> string)
    (f f' : CognitiveFrame) (w w' : W) (err : option error) :
  f_lt f_1 (es_Entropy (fr_EAST f)) = false -> eastPostAct P lower render f w = Some (f', w', err) ->
  f_lt f_1 (es_Entropy (fr_EAST f')) = false.
Proof. intros Hf. by apply refine_entropy. Qed.

(** ** Orientation *)

Definition mentions (k : string) (atoms : list OAtom) : Z :=
  Z.of_nat (List.length (List.filter (fun a => String.eqb (activity_key a) k) atoms)).

Lemma CalculateActivity_fold atoms : forall (m : gmap string Z) k,
  default 0%Z (fold_left (fun m a => <[activity_key a := (default 0 (m !! activity_key a) + 1)%Z]> m) atoms m !! k)
  = (default 0 (m !! k) + mentions k atoms)%Z.
Proof.
  induction atoms as [|a atoms IH]; intros m k; [by rewrite Z.add_0_r|]. cbn [fold_left]. rewrite IH. unfold mentions.
  cbn [List.filter]. destruct (String.eqb_spec (activity_key a) k) as [->|Hk]; cbn [List.length].
  - rewrite lookup_insert_eq. simpl. lia.
  - by rewrite lookup_insert_ne.
Qed.

Lemma CalculateActivity_spec atoms k : default 0%Z (CalculateActivity atoms !! k) = mentions k atoms.
Proof. unfold CalculateActivity. rewrite CalculateActivity_fold, lookup_empty. simpl. lia. Qed.

Lemma CalculateActivity_empty atoms : CalculateActivity atoms = ∅ -> atoms = [].
Proof.
  intros H. destruct atoms as [|a atoms]; [done|]. pose proof (CalculateActivity_spec (a :: atoms) (activity_key a)) as Hs.
  rewrite H, lookup_empty in Hs. unfold mentions in Hs. cbn [List.filter] in Hs.
  rewrite String.eqb_refl in Hs. cbn [List.length default] in Hs. lia.
Qed.

Lemma measured_activity lower math_Exp f : es_Activity (measured lower math_Exp f) = CalculateActivity (fr_Context f).
Proof. unfold measured, CalculateMagnitude. by case_match. Qed.

(** Which atoms survive orientation: exactly those that are not light
    (weight below 0.5) or whose predicate and subject occur more than once in
    the context, in their order; the pinned axioms are untouched. *)
Theorem orientation_keeps (lower : string -> string) (math_Exp : float64 -> float64) (f : CognitiveFrame) :
  fr_Context (synthesize lower math_Exp f)
  = List.filter (fun a => negb (f_lt (oa_Weight a) f_0_5) || (2 <=? mentions (activity_key a) (fr_Context f))%Z)
      (fr_Context f) /\
  fr_AttentionSink (synthesize lower math_Exp f) = fr_AttentionSink f.
Proof.
  unfold synthesize. cbv zeta. change (fr_EAST (with_EAST ?s f)) with s. rewrite measured_activity.
  destruct (decide (CalculateActivity (fr_Context f) = ∅)) as [He|He]; split; try done.
  { apply CalculateActivity_empty in He. simpl. by rewrite He. }
  simpl. apply List.filter_ext. intros a. unfold cold. rewrite CalculateActivity_spec, negb_andb, orb_comm. f_equal.
  destruct (Z.leb_spec (mentions (activity_key a) (fr_Context f)) 1), (Z.leb_spec 2 (mentions (activity_key a) (fr_Context f))); done || lia.
Qed.

(** The user's input does not reach the plan: the atom [observeWithSaliency]
    adds for it weighs 0.3 and is mentioned once, so orientation drops it
    before planning and deciding. *)
Theorem raw_input_pruned {W : Type} (P : Ports W) (lower : string -> string) (math_Exp : float64 -> float64)
    (keywords : list (string * string)) (f : CognitiveFrame) (w : W) :
  po_KnowledgeStore P = None -> po_TransientStore P = None -> po_Memory P = None ->
  fc_Input (fr_cfg f) <> "" -> fr_Context f = [] ->
  exists f', then_ "observe failed: " (observeWithSaliency lower keywords) (orientWithEAST P lower math_Exp) f w
             = Some (f', w, None) /\ fr_Context f' = [].
Proof.
  intros H1 H2 H3 Hi Hc. unfold then_, observeWithSaliency. simpl. apply String.eqb_neq in Hi. rewrite Hi. simpl.
  unfold orientWithEAST, Orient, and_then, optionally. rewrite H1, H2, H3. cbn [mbind option_bind].
  eexists. split; [done|]. rewrite (proj1 (orientation_keeps _ _ _)). simpl. rewrite Hc. simpl.
  unfold mentions. simpl. by rewrite String.eqb_refl.
Qed.

(** Without an entropy coefficient, which no constructor of a frame sets, the
    steering magnitude stays zero and no paradox is ever injected. *)
Theorem no_coefficient_no_paradox (lower : string -> string) (math_Exp : float64 -> float64) (f : CognitiveFrame) :
  f_eq (es_EntropyCoefficient (fr_EAST f)) f_zero = true -> es_SteeringMagnitude (fr_EAST f) = f_zero ->
  f_lt f_zero (es_ParadoxThreshold (fr_EAST f)) = true ->
  inject_paradox (synthesize lower math_Exp f) = synthesize lower math_Exp f.
Proof.
  intros Hc Hm Ht.
  assert (fr_EAST (synthesize lower math_Exp f) = measured lower math_Exp f) as He
    by (unfold synthesize; cbv zeta; by case_match).
  unfold inject_paradox, ShouldInjectParadox. rewrite He. unfold measured, CalculateMagnitude. simpl. rewrite Hc. simpl.
  rewrite Hm. assert (f_le (es_ParadoxThreshold (fr_EAST f)) f_zero = false) as ->.
  { destruct (f_le (es_ParadoxThreshold (fr_EAST f)) f_zero) eqn:E; [|done]. apply f_le_not_lt in E. congruence. }
  by rewrite (f_le_not_lt _ _ (f_lt_le _ _ Ht)).
Qed.

(** ** Witnesses *)

Definition refine_frame (max : Z) : CognitiveFrame :=
  flow_frame {| of_MaxRetries := max; of_ParadoxThreshold := f_zero |} "id"
    {| fi_Input := "hi"; fi_Intent := ""; fi_TaskType := "" |}.

Lemma eastPostAct_accepts_witness :
  exists f w b g v v' t, eastPostAct (ping_ports ping_registry) id (fun _ => "") (refine_frame 3) 0 = Some (f, w, None) /\
    po_Brain (ping_ports ping_registry) = Some b /\ br_Verify b g v = (v', Ok (Some t)) /\ frame_trail f = Some t /\
    (0 < fr_RetryCount f)%Z.
Proof.
  destruct (ended_ok (eastPostAct (ping_ports ping_registry) id (fun _ => "") (refine_frame 3) 0)) as (f & w & H); [by_vm|].
  destruct (eastPostAct_accepts (ping_ports ping_registry) id (fun _ => "") (refine_frame 3) f 0 w H) as ([Hr _] & _ & Hb).
  destruct (Hb _ eq_refl) as (g & v & v' & t & H1 & _ & _ & H2 & _). by eexists f, w, _, g, v, v', t.
Defined.

Lemma single_attempt_never_accepted_witness :
  exists f w e, eastPostAct (ping_ports ping_registry) id (fun _ => "") (refine_frame 1) 0 = Some (f, w, Some e) /\
    is_Some (Some e).
Proof.
  destruct (ended_err (eastPostAct (ping_ports ping_registry) id (fun _ => "") (refine_frame 1) 0)) as (f & w & e & H); [by_vm|].
  exists f, w, e. split; [exact H|].
  apply (single_attempt_never_accepted (ping_ports ping_registry) id (fun _ => "") (refine_frame 1) f 0 w (Some e)); [reflexivity|exact H].
Defined.

Definition halting_rule : RuleInference :=
  {| ri_RuleName := "halt"; ri_Tier := TierT0_Axiom; ri_Definition := ""; ri_SourceFile := "safety.dl";
     ri_Bindings := []; ri_Predicate := "halt" |}.
Definition halting_trail : AuditTrail :=
  {| at_MatchedRules := [halting_rule]; at_Timestamp := 0; at_EngineID := ""; at_Query := ""; at_FactCount := 0;
     at_MatchedCount := 1; at_LatencyMs := 0 |}.
Definition halting_brain : Brain nat :=
  {| br_Evaluate _ w := (w, Ok None); br_Verify _ w := (S w, Ok (Some halting_trail)); br_Plan := None |}.
Definition halting_ports : Ports nat :=
  {| po_Memory := None; po_Brain := Some halting_brain; po_Executor := None; po_Dispatcher := None;
     po_KnowledgeStore := None; po_TransientStore := None; po_ReasoningPort := None |}.

Lemma kernel_violation_halts_witness :
  exists f', eastPostAct halting_ports id (fun _ => "") hi_frame 0 = Some (f', 1, Some ErrT0Violation) /\
    fr_Status f' = VerifyStatusFailed /\ fr_ActionResult f' = fr_ActionResult hi_frame /\
    fr_Decision f' = fr_Decision hi_frame.
Proof.
  apply (kernel_violation_halts halting_ports id (fun _ => "") halting_brain hi_frame 0 1 halting_trail);
    [reflexivity|reflexivity|]. exists halting_rule. split; [by constructor|]. by split.
Defined.

Lemma entropy_never_above_one_witness :
  exists f w e, eastPostAct halting_ports id (fun _ => "") hi_frame 0 = Some (f, w, Some e) /\
    f_lt f_1 (es_Entropy (fr_EAST f)) = false.
Proof.
  destruct (ended_err (eastPostAct halting_ports id (fun _ => "") hi_frame 0)) as (f & w & e & H); [by_vm|].
  exists f, w, e. split; [exact H|].
  apply (entropy_never_above_one halting_ports id (fun _ => "") hi_frame f 0 w (Some e)); [reflexivity|exact H].
Defined.

Lemma raw_input_pruned_witness :
  exists f', then_ "observe failed: " (observeWithSaliency id keyword_table) (orientWithEAST halting_ports id id) hi_frame 0
             = Some (f', 0, None) /\ fr_Context f' = [].
Proof. apply (raw_input_pruned halting_ports id id keyword_table hi_frame 0); [reflexivity..|discriminate|reflexivity]. Defined.

Lemma no_coefficient_no_paradox_witness :
  inject_paradox (synthesize id id hi_frame) = synthesize id id hi_frame.
Proof. apply (no_coefficient_no_paradox id id hi_frame); reflexivity. Defined.
