(* ===== verification/Session.v ===== *)
(** * Session state and its durable manager

    [core/session_state.go] (session snapshots, audit records, cloning and
    validation), [core/types.go] ([Message], [ExecutionContext]),
    [internal/statemanager/manager.go] (hydration and checkpoints) and the
    history stores of [internal/engine/memory/volatile.go] and
    [providers/memory/inmem/store.go].

    The state provider is an interface on an arbitrary world; the JSON codec
    of the [Alias] type, Go's [%T] text and the RFC-3339 text of a time are
    parameters.  Nothing is assumed of the codec: the theorem on checkpoints
    says what a hydration makes of whatever the codec reads back. *)
From S2P Require Import Prelude GoStrings CoreErrors CoreTypes Reflect.
From Stdlib Require Import Ascii String DecimalString.
Open Scope string_scope.

Record Message := { msg_Role : string; msg_Content : string }.

#[global] Instance message_eq_dec : EqDecision Message.
Proof. solve_decision. Defined.

Record ExecutionContext := {
  xc_RetryCount : Z;
  xc_FeedbackHistory : list string;
  xc_CurrentHistory : list Message
}.

Record RuleSnapshot := {
  rs_RuleName : string;
  rs_Tier : string;
  rs_Definition : string;
  rs_SourceFile : string;
  rs_Predicate : string;
  rs_Bindings : list (string * string)
}.

Record AuditRecord := {
  rec_Step : Z;
  rec_Rules : list RuleSnapshot;
  rec_Outcome : string;
  rec_Timestamp : string;
  rec_LatencyMs : Z;
  rec_FactCount : Z;
  rec_MatchedCount : Z
}.

Record SessionState := {
  ses_SessionID : string;
  ses_ActiveEnvelope : Envelope;
  ses_ExecutionCtx : ExecutionContext;
  ses_LogicalFacts : list string;
  ses_PayloadType : string;
  ses_AuditRecords : list AuditRecord
}.

Definition snapshot_rule (r : RuleInference) : RuleSnapshot :=
  {| rs_RuleName := ri_RuleName r; rs_Tier := ri_Tier r; rs_Definition := ri_Definition r;
     rs_SourceFile := ri_SourceFile r; rs_Predicate := ri_Predicate r; rs_Bindings := ri_Bindings r |}.

Definition bare_record (step : Z) (outcome : string) : AuditRecord :=
  {| rec_Step := step; rec_Rules := []; rec_Outcome := outcome; rec_Timestamp := ""; rec_LatencyMs := 0;
     rec_FactCount := 0; rec_MatchedCount := 0 |}.

Definition NewAuditRecordFromTrail (fmt_time : Z -> string) (trail : option AuditTrail) (step : Z) (outcome : string)
  : AuditRecord :=
  match trail with
  | None => bare_record step outcome
  | Some t =>
      {| rec_Step := step; rec_Rules := map snapshot_rule (at_MatchedRules t); rec_Outcome := outcome;
         rec_Timestamp := fmt_time (at_Timestamp t); rec_LatencyMs := at_LatencyMs t;
         rec_FactCount := at_FactCount t; rec_MatchedCount := at_MatchedCount t |}
  end.

(** ** Cloning

    Nil and empty slices and maps are the same value here. *)

Definition clone_rule (r : RuleSnapshot) : RuleSnapshot :=
  {| rs_RuleName := rs_RuleName r; rs_Tier := rs_Tier r; rs_Definition := rs_Definition r;
     rs_SourceFile := rs_SourceFile r; rs_Predicate := rs_Predicate r; rs_Bindings := rs_Bindings r |}.

Definition clone_record (r : AuditRecord) : AuditRecord :=
  {| rec_Step := rec_Step r; rec_Rules := map clone_rule (rec_Rules r); rec_Outcome := rec_Outcome r;
     rec_Timestamp := rec_Timestamp r; rec_LatencyMs := rec_LatencyMs r; rec_FactCount := rec_FactCount r;
     rec_MatchedCount := rec_MatchedCount r |}.

Definition Clone (s : SessionState) : SessionState :=
  let e := ses_ActiveEnvelope s in
  let x := ses_ExecutionCtx s in
  {| ses_SessionID := ses_SessionID s;
     ses_ActiveEnvelope :=
       {| env_ID := env_ID e; env_Payload := env_Payload e; env_Metadata := env_Metadata e;
          env_SecurityLabels := env_SecurityLabels e; env_Facts := env_Facts e; env_ContentType := env_ContentType e;
          env_ContextFacts := []; env_Violations := [] |};
     ses_ExecutionCtx := {| xc_RetryCount := xc_RetryCount x; xc_FeedbackHistory := xc_FeedbackHistory x;
                            xc_CurrentHistory := xc_CurrentHistory x |};
     ses_LogicalFacts := ses_LogicalFacts s;
     ses_PayloadType := ses_PayloadType s;
     ses_AuditRecords := map clone_record (ses_AuditRecords s) |}.

Definition Validate (s : SessionState) : option error :=
  if String.eqb (ses_SessionID s) "" then Some (EText "session_id cannot be empty")
  else if (env_ID (ses_ActiveEnvelope s) =? 0)%Z then Some (EText "active_envelope must have a valid ID")
  else None.

(** ** The durable state manager *)

(** What a provider may hand back: nothing, text, a state (by value or by
    pointer) or another value, by the bytes it marshals to. *)
Inductive RawState :=
| RawNil
| RawBytes (data : string)
| RawString (data : string)
| RawSession (s : SessionState)
| RawOther (marshalled : res error string).

Record StateProvider (W : Type) := {
  sp_Get : string -> W -> W * res error RawState;
  sp_Set : string -> RawState -> W -> W * option error;
  sp_Delete : string -> W -> W * option error
}.
Arguments sp_Get {W} _. Arguments sp_Set {W} _. Arguments sp_Delete {W} _.

Record JsonCodec := {
  js_marshal : SessionState -> res error string;     (* json.Marshal of the Alias type *)
  js_unmarshal : string -> res error SessionState;   (* json.Unmarshal into it *)
  js_type_name : GoVal -> string                     (* fmt.Sprintf("%T") *)
}.

Section Manager.
Context {W E : Type} (sp : StateProvider W) (J : JsonCodec)
  (load : option (list string -> E -> E * option error)).   (* engine.LoadFacts, when there is an engine *)

Definition with_PayloadType (t : string) (s : SessionState) : SessionState :=
  {| ses_SessionID := ses_SessionID s; ses_ActiveEnvelope := ses_ActiveEnvelope s;
     ses_ExecutionCtx := ses_ExecutionCtx s; ses_LogicalFacts := ses_LogicalFacts s; ses_PayloadType := t;
     ses_AuditRecords := ses_AuditRecords s |}.

Definition payload_typed (s : SessionState) : SessionState :=
  match env_Payload (ses_ActiveEnvelope s) with
  | GNil => s
  | v => with_PayloadType (js_type_name J v) s
  end.

Definition MarshalJSON (s : SessionState) : res error string := js_marshal J (payload_typed s).

Definition UnmarshalJSON (data : string) : res error SessionState :=
  match js_unmarshal J data with
  | Ok s => Ok s
  | Err e => Err (EWrap "failed to unmarshal session state: " e)
  end.

Definition decode (msg data : string) : res error SessionState :=
  match UnmarshalJSON data with Ok s => Ok s | Err e => Err (EWrap msg e) end.

Definition decode_raw (raw : RawState) : res error (option SessionState) :=
  let some m := match m with Ok s => Ok (Some s) | Err e => Err e end in
  match raw with
  | RawNil => Ok None
  | RawBytes d => some (decode "failed to unmarshal state from bytes: " d)
  | RawString d => some (decode "failed to unmarshal state from string: " d)
  | RawSession s => Ok (Some s)
  | RawOther (Ok d) => some (decode "failed to unmarshal state: " d)
  | RawOther (Err e) => Err (EWrap "failed to marshal raw state: " e)
  end.

(** Re-inject the facts; an error is only logged. *)
Definition prime (facts : list string) (e : E) : E :=
  match load, facts with
  | Some f, _ :: _ => fst (f facts e)
  | _, _ => e
  end.

Definition Hydrate (sessionID : string) (e : E) (w : W) : E * W * res error (option SessionState) :=
  if String.eqb sessionID "" then (e, w, Err (EText "session_id cannot be empty"))
  else
    match sp_Get sp sessionID w with
    | (w1, Err x) => (e, w1, Err (EWrap "failed to get state from provider: " x))
    | (w1, Ok raw) =>
        match decode_raw raw with
        | Err x => (e, w1, Err x)
        | Ok None => (e, w1, Ok None)
        | Ok (Some s) =>
            match Validate s with
            | Some x => (e, w1, Err (EWrap "invalid state: " x))
            | None => (prime (ses_LogicalFacts s) e, w1, Ok (Some s))
            end
        end
    end.

Definition Checkpoint (state : option SessionState) (w : W) : W * option error :=
  match state with
  | None => (w, Some (EText "state cannot be nil"))
  | Some s =>
      match Validate s with
      | Some x => (w, Some (EWrap "invalid state: " x))
      | None =>
          match MarshalJSON s with
          | Err x => (w, Some (EWrap "failed to marshal state: " x))
          | Ok data =>
              match sp_Set sp (ses_SessionID s) (RawBytes data) w with
              | (w1, Some x) => (w1, Some (EWrap "failed to save state to provider: " x))
              | (w1, None) => (w1, None)
              end
          end
      end
  end.

Definition ExtractFacts (env : Envelope) : res error (list string) := Ok (env_Facts env).

Definition manager_Delete (sessionID : string) (w : W) : W * option error :=
  if String.eqb sessionID "" then (w, Some (EText "session_id cannot be empty"))
  else match sp_Delete sp sessionID w with
       | (w1, Some x) => (w1, Some (EWrap "failed to delete state: " x))
       | (w1, None) => (w1, None)
       end.
End Manager.

(** ** History stores *)

Record HistoryStore (W : Type) := {
  hs_Read : string -> W -> W * res error (list Message);
  hs_Append : string -> list Message -> W -> W * option error
}.
Arguments hs_Read {W} _. Arguments hs_Append {W} _.

Definition NopStore {W : Type} : HistoryStore W :=
  {| hs_Read _ w := (w, Ok []); hs_Append _ _ w := (w, None) |}.

(** [VolatileStore] replaces a session's history. *)
Definition VolatileStore : HistoryStore (gmap string (list Message)) :=
  {| hs_Read sid m := (m, Ok (default [] (m !! sid)));
     hs_Append sid msgs m := (<[sid := msgs]> m, None) |}.

(** [InMemoryStore] appends to it. *)
Definition InMemoryStore : HistoryStore (gmap string (list Message)) :=
  {| hs_Read sid m := (m, Ok (default [] (m !! sid)));
     hs_Append sid msgs m := (<[sid := (default [] (m !! sid) ++ msgs)%list]> m, None) |}.

(** ** Properties *)

Lemma clone_rule_id r : clone_rule r = r.
Proof. by destruct r. Qed.
Lemma clone_record_id r : clone_record r = r.
Proof.
  destruct r. unfold clone_record. simpl. f_equal.
  erewrite map_ext; [apply map_id|]. intros a. apply clone_rule_id.
Qed.

(** Cloning is faithful except for two fields: a clone equals its original
    exactly when the original's envelope carries no context facts and no
    violations; those are dropped. *)
Theorem Clone_faithful_iff (s : SessionState) :
  Clone s = s <-> env_ContextFacts (ses_ActiveEnvelope s) = [] /\ env_Violations (ses_ActiveEnvelope s) = [].
Proof.
  destruct s as [id [eid pl md labels facts ct cf vs] [rc fh ch] lf pt recs]. unfold Clone. simpl.
  assert (map clone_record recs = recs) as ->.
  { erewrite map_ext; [apply map_id|]. intros a. apply clone_record_id. }
  split; [by intros [= <- <-]|]. by intros [-> ->].
Qed.

(** The provider returns what was stored last under a key. *)
Definition stores {W : Type} (sp : StateProvider W) : Prop :=
  forall k v w w', sp_Set sp k v w = (w', None) -> sp_Get sp k w' = (w', Ok v).

(** The engine after a hydration: primed when there is one and there are facts. *)
Lemma prime_spec {E : Type} (load : option (list string -> E -> E * option error)) (facts : list string) (e : E) :
  (load = None \/ facts = [] -> prime load facts e = e) /\
  (forall f, load = Some f -> facts <> [] -> prime load facts e = fst (f facts e)).
Proof. destruct load as [f|], facts as [|x facts]; split; try done; try (by intros [? | ?]); by intros ? [= ->] _. Qed.

Lemma payload_typed_alt (J : JsonCodec) (s : SessionState) :
  payload_typed J s =
  with_PayloadType (match env_Payload (ses_ActiveEnvelope s) with
                    | GNil => ses_PayloadType s
                    | v => js_type_name J v
                    end) s.
Proof. unfold payload_typed. destruct s as [? [? pl] ? ? ? ?]; by destruct pl. Qed.

Lemma Validate_iff (s : SessionState) :
  Validate s = None <-> ses_SessionID s <> "" /\ env_ID (ses_ActiveEnvelope s) <> 0%Z.
Proof.
  unfold Validate. destruct (String.eqb_spec (ses_SessionID s) ""), (Z.eqb_spec (env_ID (ses_ActiveEnvelope s)) 0); naive_solver.
Qed.


(** An invalid snapshot never reaches the provider: when the session id is
    empty or the envelope has the nil UUID, the checkpoint reports an error
    and leaves the stored state as it was. *)
Theorem invalid_checkpoint_rejected {W : Type} (sp : StateProvider W) (J : JsonCodec) (s : SessionState) (w : W) :
  ses_SessionID s = "" \/ env_ID (ses_ActiveEnvelope s) = 0%Z ->
  exists x, Checkpoint sp J (Some s) w = (w, Some (EWrap "invalid state: " x)).
Proof.
  intros H. unfold Checkpoint. assert (exists x, Validate s = Some x) as [x ->]; [|eauto].
  unfold Validate. destruct (String.eqb_spec (ses_SessionID s) ""); [eauto|].
  destruct H as [H|H]; [done|]. rewrite H. simpl. eauto.
Qed.

(** ** Witnesses *)

Definition map_provider : StateProvider (gmap string RawState) :=
  {| sp_Get k m := (m, Ok (default RawNil (m !! k)));
     sp_Set k v m := (<[k := v]> m, None);
     sp_Delete k m := (delete k m, None) |}.

Definition one_state (id : Z) : SessionState :=
  {| ses_SessionID := "s"; ses_ActiveEnvelope := NewEnvelope id (GStr "p");
     ses_ExecutionCtx := {| xc_RetryCount := 0; xc_FeedbackHistory := []; xc_CurrentHistory := [] |};
     ses_LogicalFacts := ["f"]; ses_PayloadType := ""; ses_AuditRecords := [] |}.

(** A codec for the one state of the witness. *)
Definition one_codec : JsonCodec :=
  {| js_marshal _ := Ok "{}"; js_unmarshal _ := Ok (with_PayloadType "string" (one_state 7)); js_type_name _ := "string" |}.

Lemma map_provider_stores : stores map_provider.
Proof. intros k v w w' [= <-]. simpl. by rewrite lookup_insert_eq. Qed.

(** A codec that, like encoding/json, reads an integer payload back as a
    float: the fields are separated by newlines. *)
Definition int_text (z : Z) : string := NilZero.string_of_int (Z.to_int z).

Definition float_codec : JsonCodec :=
  {| js_marshal s :=
       match env_Payload (ses_ActiveEnvelope s) with
       | GInt n => Ok (join nl (ses_SessionID s :: int_text (env_ID (ses_ActiveEnvelope s)) :: int_text n ::
                                ses_PayloadType s :: ses_LogicalFacts s))
       | _ => Err (EText "unsupported payload")
       end;
     js_unmarshal d :=
       match split_on c_nl d with
       | sid :: id :: n :: ty :: facts =>
           match NilZero.int_of_string id with
           | Some i =>
               Ok {| ses_SessionID := sid; ses_ActiveEnvelope := NewEnvelope (Z.of_int i) (GFloat n);
                     ses_ExecutionCtx := {| xc_RetryCount := 0; xc_FeedbackHistory := []; xc_CurrentHistory := [] |};
                     ses_LogicalFacts := facts; ses_PayloadType := ty; ses_AuditRecords := [] |}
           | None => Err (EText "bad id")
           end
       | _ => Err (EText "missing fields")
       end;
     js_type_name v := match v with GInt _ => "int" | GFloat _ => "float64" | _ => "string" end |}.

Definition int_state (payload : GoVal) (ty : string) : SessionState :=
  {| ses_SessionID := "s"; ses_ActiveEnvelope := NewEnvelope 7 payload;
     ses_ExecutionCtx := {| xc_RetryCount := 0; xc_FeedbackHistory := []; xc_CurrentHistory := [] |};
     ses_LogicalFacts := ["p(1)."; "q(2)."]; ses_PayloadType := ty; ses_AuditRecords := [] |}.

Definition int_saved : gmap string RawState := {[ "s" := RawBytes (join nl ["s"; "7"; "42"; "int"; "p(1)."; "q(2)."]) ]}.


Lemma invalid_checkpoint_rejected_witness :
  exists x, Checkpoint map_provider one_codec (Some (one_state 0)) ∅ = (∅, Some (EWrap "invalid state: " x)).
Proof. apply (invalid_checkpoint_rejected map_provider one_codec (one_state 0) ∅). right. reflexivity. Defined.
