(* ===== verification/AgentLoop.v ===== *)
(** * The semantic state machine

    [sdk/loop.go] and [sdk/client_execute.go]: one governed step of an action
    (context injection, execution, steering, history, checkpoint, decision)
    and the loop that follows RETRY and ROUTE decisions; the option functions
    of [sdk/options.go] that set its parameters.

    The engine is the class [LoopEngine] (implemented by [PolicyEngine] in
    [AgentLoopProps]), actions are functions on the engine state [E] and the
    world [W] (a supervised action is one), the memory provider and the state
    provider are records.  [None] is a panic, or a payload whose flattening
    diverges.  Environment parameters are gathered in [LoopEnv]. *)
From S2P Require Import Prelude GoStrings CoreErrors CoreTypes Reflect Session.
From Stdlib Require Import Ascii String.
Open Scope string_scope.

Definition DefaultMaxSteps : Z := 10.
Definition DefaultMaxRetries : Z := 3.

Definition MemoryModeNone : string := "none".
Definition MemoryModeTransient : string := "transient".
Definition MemoryModePersist : string := "persist".

Definition KeyHistory : string := "manglekit_history".
Definition KeyContext : string := "manglekit.context".

Record ExecutionParams := {
  ep_SessionID : string;
  ep_MemoryMode : string;
  ep_Metadata : gmap string string;
  ep_fwdFacts : list string;
  ep_fwdLabels : list string;
  ep_fwdMeta : gmap string GoVal;
  ep_MaxSteps : Z;
  ep_AuditRecords : list AuditRecord;
  ep_CurrentHistory : list Message;
  ep_FeedbackHistory : list string;
  ep_LastFeedback : string;
  ep_RetryCount : Z
}.

Definition default_params : ExecutionParams :=
  {| ep_SessionID := ""; ep_MemoryMode := MemoryModeNone; ep_Metadata := ∅; ep_fwdFacts := []; ep_fwdLabels := [];
     ep_fwdMeta := ∅; ep_MaxSteps := 0; ep_AuditRecords := []; ep_CurrentHistory := []; ep_FeedbackHistory := [];
     ep_LastFeedback := ""; ep_RetryCount := 0 |}.

(** Setters of the configuration part and of the running part. *)
Definition ep_config (sid mode : string) (meta : gmap string string) (facts labels : list string)
    (fwd : gmap string GoVal) (steps : Z) (p : ExecutionParams) : ExecutionParams :=
  {| ep_SessionID := sid; ep_MemoryMode := mode; ep_Metadata := meta; ep_fwdFacts := facts; ep_fwdLabels := labels;
     ep_fwdMeta := fwd; ep_MaxSteps := steps; ep_AuditRecords := ep_AuditRecords p;
     ep_CurrentHistory := ep_CurrentHistory p; ep_FeedbackHistory := ep_FeedbackHistory p;
     ep_LastFeedback := ep_LastFeedback p; ep_RetryCount := ep_RetryCount p |}.
Definition ep_running (recs : list AuditRecord) (hist : list Message) (feedback : list string) (last : string) (n : Z)
    (p : ExecutionParams) : ExecutionParams :=
  {| ep_SessionID := ep_SessionID p; ep_MemoryMode := ep_MemoryMode p; ep_Metadata := ep_Metadata p;
     ep_fwdFacts := ep_fwdFacts p; ep_fwdLabels := ep_fwdLabels p; ep_fwdMeta := ep_fwdMeta p;
     ep_MaxSteps := ep_MaxSteps p; ep_AuditRecords := recs; ep_CurrentHistory := hist;
     ep_FeedbackHistory := feedback; ep_LastFeedback := last; ep_RetryCount := n |}.

Definition set_history (h : list Message) (p : ExecutionParams) : ExecutionParams :=
  ep_running (ep_AuditRecords p) h (ep_FeedbackHistory p) (ep_LastFeedback p) (ep_RetryCount p) p.
Definition set_last (s : string) (p : ExecutionParams) : ExecutionParams :=
  ep_running (ep_AuditRecords p) (ep_CurrentHistory p) (ep_FeedbackHistory p) s (ep_RetryCount p) p.
Definition set_retry (feedback : list string) (last : string) (n : Z) (p : ExecutionParams) : ExecutionParams :=
  ep_running (ep_AuditRecords p) (ep_CurrentHistory p) feedback last n p.
Definition add_record (r : AuditRecord) (p : ExecutionParams) : ExecutionParams :=
  ep_running (ep_AuditRecords p ++ [r])%list (ep_CurrentHistory p) (ep_FeedbackHistory p) (ep_LastFeedback p)
    (ep_RetryCount p) p.

(** ** Options *)

Definition ExecuteOption : Type := ExecutionParams -> ExecutionParams.

Definition WithMaxSteps (n : Z) : ExecuteOption := fun p =>
  if (0 <? n)%Z
  then ep_config (ep_SessionID p) (ep_MemoryMode p) (ep_Metadata p) (ep_fwdFacts p) (ep_fwdLabels p) (ep_fwdMeta p) n p
  else p.
Definition WithSessionID (id : string) : ExecuteOption := fun p =>
  ep_config id MemoryModePersist (ep_Metadata p) (ep_fwdFacts p) (ep_fwdLabels p) (ep_fwdMeta p) (ep_MaxSteps p) p.
Definition WithTransientMemory : ExecuteOption := fun p =>
  ep_config (ep_SessionID p) MemoryModeTransient (ep_Metadata p) (ep_fwdFacts p) (ep_fwdLabels p) (ep_fwdMeta p)
    (ep_MaxSteps p) p.
Definition WithMetadata (key value : string) : ExecuteOption := fun p =>
  ep_config (ep_SessionID p) (ep_MemoryMode p) (<[key := value]> (ep_Metadata p)) (ep_fwdFacts p) (ep_fwdLabels p)
    (ep_fwdMeta p) (ep_MaxSteps p) p.
Definition WithMetadataMap (render : GoVal -> string) (meta : gmap string GoVal) : ExecuteOption := fun p =>
  ep_config (ep_SessionID p) (ep_MemoryMode p) ((fmt_v render <$> meta) ∪ ep_Metadata p) (ep_fwdFacts p)
    (ep_fwdLabels p) (ep_fwdMeta p) (ep_MaxSteps p) p.

(** ** Feedback similarity *)

(** [unicode.IsPunct] on ASCII. *)
Definition ascii_punct (c : ascii) : bool := contains "!#%&'()*,-./:;?@[\]_{}" (String c "") || Ascii.eqb c c_dq.

Fixpoint drop_punct (s : string) : string :=
  match s with
  | "" => ""
  | String c rest => if ascii_punct c then drop_punct rest else String (lower_byte c) (drop_punct rest)
  end.

(** The white space of [strings.Fields] on ASCII. *)
Definition ascii_space (c : ascii) : bool :=
  let z := bval c in ((z =? 32) || ((9 <=? z) && (z <=? 13)))%Z.

(** [strings.Fields], with the word read so far. *)
Fixpoint fields_from (word s : string) : list string :=
  let flush rest := if String.eqb word "" then rest else word :: rest in
  match s with
  | "" => flush []
  | String c rest => if ascii_space c then flush (fields_from "" rest) else fields_from (word +:+ String c "") rest
  end.

(** [unicode_norm] is the same function on text that is not ASCII. *)
Definition normalizeString (unicode_norm : string -> string) (s : string) : string :=
  if is_ascii_str s then join " " (fields_from "" (drop_punct s)) else unicode_norm s.

Definition isSemanticallySimilar (unicode_norm : string -> string) (s1 s2 : string) : bool :=
  String.eqb s1 s2 ||
  let n1 := normalizeString unicode_norm s1 in
  let n2 := normalizeString unicode_norm s2 in
  String.eqb n1 n2 ||
  (negb (String.eqb n1 "") && negb (String.eqb n2 "") && (contains n1 n2 || contains n2 n1)).

(** ** The client *)

Class LoopEngine (E : Type) := {
  le_EvaluateSteering : Envelope -> E -> option (E * (string * gmap string string * option error));
  le_CheckRequirement : Envelope -> string -> E -> option (E * res error bool);
  le_LoadFacts : list string -> E -> E * option error
}.

Record AgentMemory (W : Type) := {
  am_history : HistoryStore W;
  am_Recall : string -> W -> W * res error string;
  (* the extended interface, when the provider has it *)
  am_RecallWithFacts : option (string -> W -> W * res error (string * gmap string GoVal))
}.
Arguments am_history {W} _. Arguments am_Recall {W} _. Arguments am_RecallWithFacts {W} _.

Record LoopEnv := {
  lv_render : GoVal -> string;               (* %v of composite values *)
  lv_render_s : GoVal -> string;             (* %s of values that are not strings *)
  lv_unicode_norm : string -> string;
  lv_history_json : list Message -> res error string;
  lv_fmt_time : Z -> string;
  lv_uuid : Z -> Z;                          (* fresh ids *)
  lv_ctx_facts : gmap string string;         (* core.ContextFacts(ctx) *)
  lv_ctx_err : Z -> option error;            (* ctx.Err() at the start of a step *)
  lv_sleep : Z -> option error               (* the context error that interrupts the backoff of a step *)
}.

Section Client.
Context {E : Type} `{!LoopEngine E} {W : Type} (V : LoopEnv).

(** A registered action. *)
Record LAction := {
  la_InputContentType : string;
  la_Execute : Envelope -> E -> W -> option (E * W * (Envelope * option error))
}.

Record Client := {
  cl_registry : gmap string LAction;
  cl_agentMemory : option (AgentMemory W);
  cl_stateManager : option (StateProvider W * JsonCodec);
  cl_steeringEnabled : bool;
  cl_maxSteps : Z;
  cl_shuttingDown : bool
}.

(** The state a step works on: engine, world, and the background
    [Memorize] calls started so far. *)
Record LState := { ls_E : E; ls_W : W; ls_async : list (string * string) }.

Definition with_E (e : E) (s : LState) : LState := {| ls_E := e; ls_W := ls_W s; ls_async := ls_async s |}.
Definition with_W (w : W) (s : LState) : LState := {| ls_E := ls_E s; ls_W := w; ls_async := ls_async s |}.

Definition safelyStringify (v : GoVal) : string :=
  match v with
  | GNil => ""
  | GStr s => s
  | _ => fmt_v (lv_render V) v
  end.

(** Comparison of an [any] with a string constant: a missing key is nil. *)
Definition meta_is (env : Envelope) (k v : string) : bool :=
  match env_Metadata env !! k with Some (GStr s) => String.eqb s v | _ => false end.

Definition GetMeta (env : Envelope) (k : string) : string :=
  match env_Metadata env !! k with
  | None => ""
  | Some (GStr s) => s
  | Some v => fmt_v (lv_render V) v
  end.
Definition SetFeedback (env : Envelope) (msg : string) : Envelope := SetMeta env KeyFeedback (GStr msg).
Definition GetFeedback (env : Envelope) : string := GetMeta env KeyFeedback.

Definition SetHistory (env : Envelope) (msgs : list Message) : res error Envelope :=
  match lv_history_json V msgs with
  | Ok text => Ok (SetMeta env KeyHistory (GStr text))
  | Err e => Err (EWrap "failed to marshal history: " e)
  end.

(** [for k, v := range m { env.Metadata[k] = v }]. *)
Definition overlay (m : gmap string GoVal) (env : Envelope) : Envelope := set_Metadata (m ∪ env_Metadata env) env.

(** The two recall interfaces: data and facts, or an error. *)
Definition recall_memory (mem : AgentMemory W) (text : string) (w : W)
  : W * res error (string * gmap string GoVal) :=
  match am_RecallWithFacts mem with
  | Some f => f text w
  | None => match am_Recall mem text w with
            | (w1, Ok data) => (w1, Ok (data, ∅))
            | (w1, Err e) => (w1, Err e)
            end
  end.

Definition recallContext (c : Client) (payload : GoVal) (env : Envelope) (s : LState) : option (LState * Envelope) :=
  match cl_agentMemory c with
  | None => Some (s, env)
  | Some mem =>
      '(e1, needed) ← le_CheckRequirement env "memory" (ls_E s);
      let s1 := with_E e1 s in
      match needed with
      | Ok true =>
          let '(w1, r) := recall_memory mem (safelyStringify payload) (ls_W s1) in
          Some (with_W w1 s1,
                match r with
                | Ok (data, facts) =>
                    let env1 := overlay facts env in
                    if String.eqb data "" then env1 else SetMeta env1 KeyContext (GStr data)
                | Err _ => env
                end)
      | _ => Some (s1, env)
      end
  end.

Definition inject_feedback (p : ExecutionParams) (env : Envelope) : Envelope :=
  let env := match ep_FeedbackHistory p with
             | [] => env
             | l => SetMeta env KeyPrevFeedback (GStr (join "; " l))
             end in
  if String.eqb (ep_LastFeedback p) "" then env
  else SetMeta (SetFeedback env (ep_LastFeedback p)) "mangle_feedback" (GStr (ep_LastFeedback p)).

Definition inject_history (p : ExecutionParams) (env : Envelope) : Envelope :=
  match ep_CurrentHistory p with
  | [] => env
  | h => if String.eqb (ep_MemoryMode p) MemoryModeNone then env
         else match SetHistory env h with Ok env' => env' | Err _ => env end
  end.

Definition injectContext (c : Client) (payload : GoVal) (p : ExecutionParams) (env : Envelope) (s : LState)
  : option (LState * Envelope) :=
  '(s1, env1) ← recallContext c payload (inject_history p (inject_feedback p env)) s;
  Some (s1, overlay (GStr <$> lv_ctx_facts V) (overlay (GStr <$> ep_Metadata p) env1)).

(** The envelope of a step before [injectContext]. *)
Definition step_envelope (id : Z) (payload : GoVal) (a : LAction) (p : ExecutionParams) : Envelope :=
  let env := NewEnvelope id payload in
  {| env_ID := env_ID env; env_Payload := payload; env_Metadata := env_Metadata env ∪ ep_fwdMeta p;
     env_SecurityLabels := (env_SecurityLabels env ++ ep_fwdLabels p)%list;
     env_Facts := (env_Facts env ++ ep_fwdFacts p)%list; env_ContentType := la_InputContentType a;
     env_ContextFacts := []; env_Violations := [] |}.

Definition StepResult : Type := LState * ExecutionParams * res error Envelope.

(** [handleExecutionError]; [id] names the envelope of the retry signal. *)
Definition handleExecutionError (step id : Z) (err : error) (payload : GoVal) (p : ExecutionParams) (s : LState)
  : StepResult :=
  match as_alignment err with
  | None => (s, p, Err err)
  | Some a =>
      if (DefaultMaxRetries <=? ep_RetryCount p)%Z then (s, p, Err (EWrap "max retries exceeded: " err))
      else
        let p1 := set_retry (ep_FeedbackHistory p) (ae_Message a) (ep_RetryCount p + 1) p in
        match lv_sleep V step with
        | Some e => (s, p1, Err e)
        | None => (s, p1, Ok (SetMeta (NewEnvelope id payload) KeyDecision (GStr DecisionRetry)))
        end
  end.

(** Post-execution steering; an error of the engine is ignored. *)
Definition apply_steering (c : Client) (result : Envelope) (s : LState) : option (LState * Envelope) :=
  if cl_steeringEnabled c && (negb (bool_decide (is_Some (env_Metadata result !! KeyDecision)))
                              || meta_is result KeyDecision "") then
    '(e1, (dec, meta, err)) ← le_EvaluateSteering result (ls_E s);
    Some (with_E e1 s,
          match err with
          | None => if String.eqb dec "" then result
                    else overlay (GStr <$> meta) (SetMeta result KeyDecision (GStr dec))
          | Some _ => result
          end)
  else Some (s, result).

Definition exchange (payload : GoVal) (result : Envelope) : list Message :=
  [{| msg_Role := "user"; msg_Content := safelyStringify payload |};
   {| msg_Role := "assistant"; msg_Content := safelyStringify (env_Payload result) |}].

Definition updateHistory (c : Client) (payload : GoVal) (result : Envelope) (p : ExecutionParams) (s : LState)
  : LState * ExecutionParams :=
  if String.eqb (ep_MemoryMode p) MemoryModeNone then (s, p)
  else
    let p1 := set_history (ep_CurrentHistory p ++ exchange payload result)%list p in
    if negb (String.eqb (ep_SessionID p1) "") && String.eqb (ep_MemoryMode p1) MemoryModePersist then
      match cl_agentMemory c with
      | Some mem => (with_W (fst (hs_Append (am_history mem) (ep_SessionID p1) (ep_CurrentHistory p1) (ls_W s))) s, p1)
      | None => (s, p1)
      end
    else (s, p1).

Definition proceeds (result : Envelope) : bool :=
  meta_is result KeyDecision "" || meta_is result KeyDecision DecisionProceed.

(** The snapshot of a step. *)
Definition session_snapshot (result : Envelope) (p : ExecutionParams) : SessionState :=
  {| ses_SessionID := ep_SessionID p; ses_ActiveEnvelope := result;
     ses_ExecutionCtx := {| xc_RetryCount := ep_RetryCount p; xc_FeedbackHistory := ep_FeedbackHistory p;
                            xc_CurrentHistory := ep_CurrentHistory p |};
     ses_LogicalFacts := match ExtractFacts result with Ok fs => fs | Err _ => [] end;
     ses_PayloadType := ""; ses_AuditRecords := ep_AuditRecords p |}.

Definition checkpoint_step (c : Client) (result : Envelope) (p : ExecutionParams) (s : LState) : LState :=
  match cl_stateManager c with
  | Some (sp, J) =>
      if negb (String.eqb (ep_SessionID p) "") && proceeds result
      then with_W (fst (Checkpoint sp J (Some (session_snapshot result p)) (ls_W s))) s
      else s
  | None => s
  end.

Definition asyncMemorize (c : Client) (input output : GoVal) (s : LState) : LState :=
  match cl_agentMemory c with
  | Some _ => if cl_shuttingDown c then s
              else {| ls_E := ls_E s; ls_W := ls_W s;
                      ls_async := (ls_async s ++ [(safelyStringify input, safelyStringify output)])%list |}
  | None => s
  end.

(** [fmt.Errorf("...%s", reason)] of an [any]. *)
Definition fmt_s (v : GoVal) : string :=
  match v with
  | GStr s => s
  | GNil => "%!s(<nil>)"
  | _ => lv_render_s V v
  end.

(** A missing key reads as nil, which is not the empty string. *)
Definition buildHaltError (result : Envelope) : error :=
  let meta k := default GNil (env_Metadata result !! k) in
  let is_empty v := match v with GStr s => String.eqb s "" | _ => false end in
  let reason := meta "reason" in
  let reason := if is_empty reason then meta "violation_msg" else reason in
  let reason := if is_empty reason then GStr "blueprint violation" else reason in
  EText ("action halted by blueprint: " +:+ fmt_s reason).

Definition handleRetryDecision (step : Z) (actionName : string) (result : Envelope) (p : ExecutionParams) (s : LState)
  : StepResult :=
  if (DefaultMaxRetries <=? ep_RetryCount p)%Z then
    (s, p, Err (EText ("max retries exceeded for action " +:+ actionName)))
  else
    let hint := GetFeedback result in
    if existsb (fun prev => isSemanticallySimilar (lv_unicode_norm V) prev hint) (ep_FeedbackHistory p) then
      (s, p, Err (EText ("semantic thrashing detected: feedback loop on " +:+ go_quote hint)))
    else
      let p1 := set_retry (ep_FeedbackHistory p ++ [hint])%list hint (ep_RetryCount p + 1) p in
      match lv_sleep V step with
      | Some e => (s, p1, Err e)
      | None => (s, p1, Ok result)
      end.

Definition handleDecision (c : Client) (step : Z) (actionName : string) (result : Envelope) (payload : GoVal)
    (p : ExecutionParams) (s : LState) : StepResult :=
  let s := if proceeds result then asyncMemorize c payload (env_Payload result) s else s in
  if meta_is result KeyDecision DecisionRetry then handleRetryDecision step actionName result p s
  else if meta_is result KeyDecision DecisionRoute then (s, set_retry [] (ep_LastFeedback p) 0 p, Ok result)
  else if proceeds result then (s, p, Ok result)
  else if meta_is result KeyDecision DecisionHalt then (s, p, Err (buildHaltError result))
  else (s, p, Ok result).

Definition ExecuteSingleStep (c : Client) (step : Z) (actionName : string) (payload : GoVal) (p : ExecutionParams)
    (s : LState) : option StepResult :=
  match cl_registry c !! actionName with
  | None => Some (s, p, Err (EText ("action not found: " +:+ actionName)))
  | Some a =>
      '(s1, env) ← injectContext c payload p (step_envelope (lv_uuid V (2 * step)) payload a p) s;
      '(e2, w2, (result, err)) ← la_Execute a env (ls_E s1) (ls_W s1);
      let s2 := with_W w2 (with_E e2 s1) in
      match err with
      | Some x => Some (handleExecutionError step (lv_uuid V (2 * step + 1)) x payload p s2)
      | None =>
          let p1 := set_last "" p in
          '(s3, result) ← apply_steering c result s2;
          let '(s4, p2) := updateHistory c payload result p1 s3 in
          Some (handleDecision c step actionName result payload p2 (checkpoint_step c result p2 s4))
      end
  end.

(** The audit record of a step. *)
Definition step_record (step : Z) (result : Envelope) : AuditRecord :=
  let outcome := match env_Metadata result !! KeyDecision with
                 | Some (GStr d) => if String.eqb d "" then DecisionProceed else d
                 | _ => DecisionProceed
                 end in
  match env_Metadata result !! "manglekit.audit_trail" with
  | Some (GTrail t) => NewAuditRecordFromTrail (lv_fmt_time V) (Some t) step outcome
  | _ => bare_record step outcome
  end.

(** The loop from [step], [n] steps left. *)
Fixpoint run_steps (c : Client) (n : nat) (step : Z) (action : string) (payload : GoVal) (p : ExecutionParams)
    (s : LState) : option StepResult :=
  match n with
  | O => Some (s, p, Err (EText "max steps exceeded"))
  | S n' =>
      match lv_ctx_err V step with
      | Some e => Some (s, p, Err e)
      | None =>
          '(s1, p1, r) ← ExecuteSingleStep c step action payload p s;
          match r with
          | Err e => Some (s1, p1, Err e)
          | Ok result =>
              let p2 := add_record (step_record step result) p1 in
              if meta_is result KeyDecision DecisionRoute then
                match env_Metadata result !! KeyNextStep with
                | Some (GStr next) =>
                    if String.eqb next "" then Some (s1, p2, Err (EText "route decision missing next_step"))
                    else run_steps c n' (step + 1) next (env_Payload result) p2 s1
                | _ => Some (s1, p2, Err (EText "route decision missing next_step"))
                end
              else if meta_is result KeyDecision DecisionRetry then run_steps c n' (step + 1) action payload p2 s1
              else Some (s1, p2, Ok result)
          end
      end
  end.

Definition max_steps (c : Client) (p : ExecutionParams) : Z :=
  if (0 <? ep_MaxSteps p)%Z then ep_MaxSteps p
  else if (0 <? cl_maxSteps c)%Z then cl_maxSteps c else DefaultMaxSteps.

(** Read the history of a persistent session; [None] is the call on a nil
    store when no memory provider is configured. *)
Definition load_history (c : Client) (p : ExecutionParams) (s : LState) : option (LState * ExecutionParams) :=
  if String.eqb (ep_MemoryMode p) MemoryModePersist && negb (String.eqb (ep_SessionID p) "") then
    match cl_agentMemory c with
    | None => None
    | Some mem => let '(w1, r) := hs_Read (am_history mem) (ep_SessionID p) (ls_W s) in
                  Some (with_W w1 s, set_history (match r with Ok h => h | Err _ => [] end) p)
    end
  else Some (s, p).

(** Restore a durable session: history, feedback, retry count and payload. *)
Definition hydrate_session (c : Client) (payload : GoVal) (p : ExecutionParams) (s : LState)
  : LState * ExecutionParams * GoVal :=
  match cl_stateManager c with
  | Some (sp, J) =>
      if String.eqb (ep_SessionID p) "" then (s, p, payload)
      else
        match Hydrate sp J (Some le_LoadFacts) (ep_SessionID p) (ls_E s) (ls_W s) with
        | (e1, w1, Ok (Some st)) =>
            let x := ses_ExecutionCtx st in
            (with_W w1 (with_E e1 s),
             ep_running (ep_AuditRecords p) (xc_CurrentHistory x) (xc_FeedbackHistory x) (ep_LastFeedback p)
               (xc_RetryCount x) p,
             env_Payload (ses_ActiveEnvelope st))
        | (e1, w1, _) => (with_W w1 (with_E e1 s), p, payload)
        end
  | None => (s, p, payload)
  end.

Definition runLoopInternal (c : Client) (startAction : string) (payload : GoVal) (p : ExecutionParams) (s : LState)
  : option StepResult :=
  '(s1, p1) ← load_history c p s;
  let '(s2, p2, payload2) := hydrate_session c payload p1 s1 in
  run_steps c (Z.to_nat (max_steps c p2)) 0 startAction payload2 p2 s2.

(** The input of [ExecuteByName]: a plain payload or an envelope. *)
Inductive LoopInput := InPayload (v : GoVal) | InEnvelope (e : Envelope).

Definition forward_envelope (e : Envelope) (p : ExecutionParams) : ExecutionParams :=
  ep_config (ep_SessionID p) (ep_MemoryMode p) (ep_Metadata p) (ep_fwdFacts p ++ env_Facts e)%list
    (ep_fwdLabels p ++ env_SecurityLabels e)%list
    (if decide (env_Metadata e = ∅) then ep_fwdMeta p else env_Metadata e) (ep_MaxSteps p) p.

(** [ExecuteByName]: the envelope, or the error, with the final state. *)
Definition ExecuteByName (c : Client) (actionName : string) (input : LoopInput) (opts : list ExecuteOption) (s : LState)
  : option (LState * res error Envelope) :=
  let p := fold_left (fun p o => o p) opts default_params in
  let '(p, payload) := match input with
                       | InEnvelope e => (forward_envelope e p, env_Payload e)
                       | InPayload v => (p, v)
                       end in
  '(s1, _, r) ← runLoopInternal c actionName payload p s;
  Some (s1, r).

(** [Execute]: the entry action is chosen by steering; [describe] is the text
    of the decision and its metadata in the final error. *)
Definition Client_Execute (describe : string -> gmap string string -> string) (c : Client) (input : Envelope)
    (opts : list ExecuteOption) (s : LState) : option (LState * res error Envelope) :=
  if negb (cl_steeringEnabled c) then
    Some (s, Err (EText "steering disabled: use ExecuteByName for explicit action routing"))
  else
    '(e1, (decision, meta, err)) ← le_EvaluateSteering input (ls_E s);
    let s1 := with_E e1 s in
    match err with
    | Some x => Some (s1, Err (EWrap "failed to evaluate entry route: " x))
    | None =>
        if String.eqb decision DecisionRoute then
          let name := default "" (meta !! KeyNextStep) in
          if String.eqb name "" then Some (s1, Err (EText "routing decision returned empty action name"))
          else ExecuteByName c name (InPayload (env_Payload input)) opts s1
        else Some (s1, Err (EText ("no execution route defined for this input (" +:+ describe decision meta +:+ ")")))
    end.
End Client.
Arguments LAction E W : clear implicits.
Arguments Client E W : clear implicits.
Arguments LState E W : clear implicits.
