(* ===== verification/AgentLoopProps.v ===== *)
(** * Properties of the semantic state machine

    What the loop returns, how often it retries and how many steps it takes,
    its audit records, when it checkpoints, what context reaches an action,
    and the trace of a run: the executions it consists of, each with its
    request, linked by the world, the engine and the routes and retries
    answered.  The guarantees of supervised actions are stated on such traces. *)
From stdpp Require Import sorting.
From S2P Require Import Prelude GoStrings CoreErrors CoreTypes Facts Reflect Sources Datalog Runtime Solver SolverProps Supervisor SupervisorProps Session AgentLoop.
From Stdlib Require Import Ascii String.
Open Scope string_scope.

(** The policy engine implements the engine interface of the loop. *)
Definition policy_loop_engine {R : Type} `{!GateRuntime R} (G : GoEnv) (ctx : option error)
  : LoopEngine (PolicyEngine R) := {|
  le_EvaluateSteering := EvaluateSteering G ctx;
  le_CheckRequirement := CheckRequirement G ctx;
  le_LoadFacts := engine_LoadFacts ctx
|}.

Section Steps.
Context {E : Type} `{!LoopEngine E} {W : Type} (V : LoopEnv).
Implicit Types (c : Client E W) (s : LState E W) (p : ExecutionParams).

Definition undecided_or (env : Envelope) : Prop :=
  meta_is env KeyDecision DecisionRetry = false /\ meta_is env KeyDecision DecisionRoute = false /\
  meta_is env KeyDecision DecisionHalt = false.

Lemma meta_is_unique env k v v' : meta_is env k v = true -> meta_is env k v' = String.eqb v v'.
Proof.
  unfold meta_is. destruct (env_Metadata env !! k) as [[]|]; try done. by intros ->%String.eqb_eq.
Qed.

Lemma handleDecision_ok c step name result payload p s s' p' env :
  handleDecision V c step name result payload p s = (s', p', Ok env) ->
  env = result /\ meta_is env KeyDecision DecisionHalt = false.
Proof.
  unfold handleDecision, handleRetryDecision.
  destruct (meta_is result KeyDecision DecisionRetry) eqn:Hr.
  { repeat case_match; intros [= _ _ <-]; (split; [done|]); by rewrite (meta_is_unique _ _ _ _ Hr). }
  destruct (meta_is result KeyDecision DecisionRoute) eqn:Ho.
  { intros [= _ _ <-]. split; [done|]. by rewrite (meta_is_unique _ _ _ _ Ho). }
  destruct (proceeds result) eqn:Hp.
  { intros [= _ _ <-]. split; [done|]. unfold proceeds in Hp.
    apply orb_true_iff in Hp as [H|H]; by rewrite (meta_is_unique _ _ _ _ H). }
  destruct (meta_is result KeyDecision DecisionHalt) eqn:Hh; [done|]. by intros [= _ _ <-].
Qed.

Lemma ExecuteSingleStep_ok c step name payload p s s' p' env :
  ExecuteSingleStep V c step name payload p s = Some (s', p', Ok env) -> meta_is env KeyDecision DecisionHalt = false.
Proof.
  unfold ExecuteSingleStep. destruct (cl_registry c !! name) as [a|]; [|done].
  destruct (injectContext V c payload p _ s) as [[s1 env1]|]; [|done]. cbn [mbind option_bind].
  destruct (la_Execute a env1 (ls_E s1) (ls_W s1)) as [[[e2 w2] [result err]]|]; [|done]. cbn [mbind option_bind].
  destruct err as [x|].
  - unfold handleExecutionError. repeat case_match; intros [= _ _ <-].
    unfold meta_is. simpl. by rewrite lookup_insert_eq.
  - destruct (apply_steering c result _) as [[s3 result']|]; [|done]. cbn [mbind option_bind].
    destruct (updateHistory V c payload result' _ s3) as [s4 p2].
    intros [= H]. by apply handleDecision_ok in H as [-> ?].
Qed.

Lemma run_steps_ok c n : forall step action payload p s s' p' env,
  run_steps V c n step action payload p s = Some (s', p', Ok env) -> undecided_or env.
Proof.
  induction n as [|n IH]; intros step action payload p s s' p' env; cbn [run_steps]; [done|].
  destruct (lv_ctx_err V step); [done|].
  destruct (ExecuteSingleStep V c step action payload p s) as [[[s1 p1] [result|e]]|] eqn:Hs; cbn [mbind option_bind]; [|done..].
  destruct (meta_is result KeyDecision DecisionRoute) eqn:Ho.
  { destruct (env_Metadata result !! KeyNextStep) as [[]|]; try done. case_match; [done|apply IH]. }
  destruct (meta_is result KeyDecision DecisionRetry) eqn:Hr; [apply IH|].
  intros [= _ _ <-]. split_and!; [done|done|by eapply ExecuteSingleStep_ok].
Qed.
End Steps.

(** C16: What the loop hands out: an envelope returned without an error never
    carries a RETRY, ROUTE or HALT decision: retries and routes are followed,
    and a halt is always reported as an error. *)
Theorem loop_result_final {E : Type} `{!LoopEngine E} {W : Type} (V : LoopEnv) (c : Client E W) (action : string)
    (input : LoopInput) (opts : list ExecuteOption) (s s' : LState E W) (env : Envelope) :
  ExecuteByName V c action input opts s = Some (s', Ok env) -> undecided_or env.
Proof.
  unfold ExecuteByName. destruct input as [v|e].
  all: unfold runLoopInternal; destruct (load_history c _ s) as [[s1 p1]|]; [|done]; cbn [mbind option_bind].
  all: destruct (hydrate_session c _ p1 s1) as [[s2 p2] payload2].
  all: destruct (run_steps _ _ _ _ _ _ _ _) as [[[s3 p3] r]|] eqn:Hr; [|done]; cbn [mbind option_bind].
  all: intros [= _ ->]; by eapply run_steps_ok.
Qed.

(** ** Retries, feedback and audit records *)

Section Bounds.
Context {E : Type} `{!LoopEngine E} {W : Type} (V : LoopEnv).
Implicit Types (c : Client E W) (s : LState E W) (p : ExecutionParams).

(** No feedback of the history is similar to an earlier one. *)
Definition no_thrashing (l : list string) : Prop :=
  StronglySorted (fun prev hint => isSemanticallySimilar (lv_unicode_norm V) prev hint = false) l.

Definition retry_inv p : Prop := (0 <= ep_RetryCount p <= DefaultMaxRetries)%Z /\ no_thrashing (ep_FeedbackHistory p).

Lemma handleExecutionError_inv step id err payload p s s' p' r :
  handleExecutionError V step id err payload p s = (s', p', r) ->
  (retry_inv p -> retry_inv p') /\ ep_AuditRecords p' = ep_AuditRecords p.
Proof.
  unfold handleExecutionError. destruct (as_alignment err) as [a|]; [|by intros [= _ <- _]].
  destruct (Z.leb_spec DefaultMaxRetries (ep_RetryCount p)) as [|Hlt]; [by intros [= _ <- _]|].
  intros H. assert (p' = set_retry (ep_FeedbackHistory p) (ae_Message a) (ep_RetryCount p + 1) p) as ->
    by (destruct (lv_sleep V step); by simplify_eq).
  split; [|done]. intros [Hr Hf]. split; [simpl; lia|done].
Qed.

Lemma handleDecision_inv c step name result payload p s s' p' r :
  handleDecision V c step name result payload p s = (s', p', r) ->
  (retry_inv p -> retry_inv p') /\ ep_AuditRecords p' = ep_AuditRecords p.
Proof.
  unfold handleDecision, handleRetryDecision. intros H.
  destruct (meta_is result KeyDecision DecisionRetry).
  - destruct (Z.leb_spec DefaultMaxRetries (ep_RetryCount p)) as [|Hlt]; [by simplify_eq|].
    destruct (existsb _ _) eqn:Hx; [by simplify_eq|].
    assert (p' = set_retry (ep_FeedbackHistory p ++ [GetFeedback V result])%list (GetFeedback V result) (ep_RetryCount p + 1) p) as ->
      by (destruct (lv_sleep V step); by simplify_eq).
    split; [|done]. intros [Hr Hf]. split; [simpl; lia|]. simpl. apply StronglySorted_app_2; [|done|repeat constructor].
    intros x y Hxin ->%list_elem_of_singleton. destruct (isSemanticallySimilar _ _ _) eqn:Hs; [|done].
    rewrite <- Hx. symmetry. apply existsb_exists. exists x. split; [by apply list_elem_of_In|done].
  - destruct (meta_is result KeyDecision DecisionRoute).
    { simplify_eq. split; [|done]. intros _. split; [simpl; unfold DefaultMaxRetries; lia|constructor]. }
    repeat case_match; by simplify_eq.
Qed.

Lemma ExecuteSingleStep_inv c step name payload p s s' p' r :
  ExecuteSingleStep V c step name payload p s = Some (s', p', r) ->
  (retry_inv p -> retry_inv p') /\ ep_AuditRecords p' = ep_AuditRecords p.
Proof.
  unfold ExecuteSingleStep. destruct (cl_registry c !! name) as [a|]; [|by intros [= _ <- _]].
  destruct (injectContext V c payload p _ s) as [[s1 env1]|]; [|done]. cbn [mbind option_bind].
  destruct (la_Execute a env1 (ls_E s1) (ls_W s1)) as [[[e2 w2] [result err]]|]; [|done]. cbn [mbind option_bind].
  destruct err as [x|]; [intros [= H]; by eapply handleExecutionError_inv|].
  destruct (apply_steering c result _) as [[s3 result']|]; [|done]. cbn [mbind option_bind].
  destruct (updateHistory V c payload result' _ s3) as [s4 p2] eqn:Hu.
  assert (ep_RetryCount p2 = ep_RetryCount p /\ ep_FeedbackHistory p2 = ep_FeedbackHistory p /\
          ep_AuditRecords p2 = ep_AuditRecords p) as (H1 & H2 & H3)
    by (unfold updateHistory in Hu; repeat case_match; by simplify_eq).
  intros [= H]. apply handleDecision_inv in H as [Hi Ha]. split; [|congruence].
  intros [Hr Hf]. apply Hi. split; [by rewrite H1|by rewrite H2].
Qed.

(** ** The executions of a call

    What a call did, execution by execution: the request an action was
    handed, in which engine and world, and what the step made of it. *)

Record Execution := {
  x_action : string;
  x_payload : GoVal;
  x_request : Envelope;
  x_engine : E;
  x_before : W;
  x_after : W;
  x_output : Envelope * option error;
  x_signal : option Envelope          (* what the step answered, when it completed *)
}.

(** The metadata keys that the loop writes by itself. *)
Definition loop_keys : list string := [KeyPrevFeedback; KeyFeedback; "mangle_feedback"; KeyHistory].

(** The request says what the caller gave: the payload of the step, exactly
    the caller's labels and facts, the facts of the context and the options as
    metadata, and (when no memory adds to it) the forwarded metadata. *)
Definition carries (c : Client E W) (labels facts : list string) (forwarded : gmap string GoVal) (options : gmap string string)
    (payload : GoVal) (env : Envelope) : Prop :=
  env_Payload env = payload /\ env_SecurityLabels env = labels /\ env_Facts env = facts /\
  (forall k v, lv_ctx_facts V !! k = Some v -> env_Metadata env !! k = Some (GStr v)) /\
  (forall k v, lv_ctx_facts V !! k = None -> options !! k = Some v -> env_Metadata env !! k = Some (GStr v)) /\
  (cl_agentMemory c = None -> forall k v, lv_ctx_facts V !! k = None -> options !! k = None -> k ∉ loop_keys ->
     forwarded !! k = Some v -> env_Metadata env !! k = Some v).

Definition carries_params c p (payload : GoVal) (env : Envelope) : Prop :=
  carries c (ep_fwdLabels p) (ep_fwdFacts p) (ep_fwdMeta p) (ep_Metadata p) payload env.

(** The part of the parameters that a call does not change. *)
Definition settings p : list string * list string * gmap string GoVal * gmap string string :=
  (ep_fwdLabels p, ep_fwdFacts p, ep_fwdMeta p, ep_Metadata p).

Lemma carries_settings c p p' payload env : settings p' = settings p -> carries_params c p' payload env -> carries_params c p payload env.
Proof. unfold settings, carries_params. by intros [= -> -> -> ->]. Qed.

(** What a completed step answers: the action's result (steering only adds
    metadata to it), or after an alignment error the same payload, to be
    tried again. *)
Definition answers_for (x : Execution) (signal : Envelope) : Prop :=
  match x_output x with
  | (result, None) => env_Payload signal = env_Payload result
  | (_, Some err) => is_Some (as_alignment err) /\ env_Payload signal = x_payload x /\ meta_is signal KeyDecision DecisionRetry = true
  end.

(** Where the loop goes after an answer: a route names the next action and
    hands it the payload of the answer, a retry repeats the call. *)
Definition goes_on (signal : Envelope) (action : string) (payload : GoVal) (action' : string) (payload' : GoVal) : Prop :=
  if meta_is signal KeyDecision DecisionRoute
  then env_Metadata signal !! KeyNextStep = Some (GStr action') /\ action' <> "" /\ payload' = env_Payload signal
  else meta_is signal KeyDecision DecisionRetry = true /\ action' = action /\ payload' = payload.

(** A sequence of executions that starts with an action on a payload. *)
Inductive follows (P : GoVal -> Envelope -> Prop) : string -> GoVal -> list Execution -> Prop :=
| follows_none action payload : follows P action payload []
| follows_last x : P (x_payload x) (x_request x) ->
    (forall signal, x_signal x = Some signal -> answers_for x signal) ->
    follows P (x_action x) (x_payload x) [x]
| follows_more x signal action payload rest : P (x_payload x) (x_request x) ->
    x_signal x = Some signal -> answers_for x signal ->
    goes_on signal (x_action x) (x_payload x) action payload ->
    follows P action payload rest -> follows P (x_action x) (x_payload x) (x :: rest).

(** The state before and after the step of an execution. *)
Definition step_effect (c : Client E W) s (x : Execution) s' : Prop :=
  exists step a p p' r env0 s1 e2,
    cl_registry c !! x_action x = Some a /\
    injectContext V c (x_payload x) p env0 s = Some (s1, x_request x) /\ x_engine x = ls_E s1 /\ x_before x = ls_W s1 /\
    la_Execute a (x_request x) (ls_E s1) (ls_W s1) = Some (e2, x_after x, x_output x) /\
    match snd (x_output x) with
    | Some err => Some (handleExecutionError V step (lv_uuid V (2 * step + 1)) err (x_payload x) p (with_W (x_after x) (with_E e2 s1)))
    | None =>
        '(s3, result) ← apply_steering c (fst (x_output x)) (with_W (x_after x) (with_E e2 s1));
        let '(s4, p2) := updateHistory V c (x_payload x) result (set_last "" p) s3 in
        Some (handleDecision V c step (x_action x) result (x_payload x) p2 (checkpoint_step c result p2 s4))
    end = Some (s', p', r) /\
    x_signal x = match r with Ok signal => Some signal | Err _ => None end.

Lemma follows_settings c q1 q2 action payload tr : settings q1 = settings q2 ->
  follows (carries_params c q1) action payload tr -> follows (carries_params c q2) action payload tr.
Proof.
  intros Hs Hl. induction Hl as [|? Hq|? ? ? ? ? Hq ? ? ? ? IHl]; [constructor|constructor|econstructor]; try done;
    by eapply carries_settings; [|exact Hq].
Qed.

Lemma follows_carries P action payload tr : follows P action payload tr -> forall x, x ∈ tr -> P (x_payload x) (x_request x).
Proof.
  induction 1 as [|y|y]; intros x Hx; [by apply elem_of_nil in Hx|by apply list_elem_of_singleton in Hx as ->|].
  apply elem_of_cons in Hx as [->|Hx]; auto.
Qed.

Inductive linked (c : Client E W) : LState E W -> list Execution -> LState E W -> Prop :=
| linked_none s : linked c s [] s
| linked_more s x s1 tr s' : step_effect c s x s1 -> linked c s1 tr s' -> linked c s (x :: tr) s'.

Lemma lookup_SetMeta env k v k' : env_Metadata (SetMeta env k v) !! k' = if decide (k = k') then Some v else env_Metadata env !! k'.
Proof. unfold SetMeta, set_Metadata. cbn [env_Metadata]. rewrite lookup_insert. done. Qed.

Lemma inject_feedback_meta p env k : k ∉ loop_keys -> env_Metadata (inject_feedback p env) !! k = env_Metadata env !! k.
Proof.
  unfold loop_keys. rewrite !not_elem_of_cons. intros (H1 & H2 & H3 & _). unfold inject_feedback, SetFeedback.
  destruct (String.eqb (ep_LastFeedback p) ""), (ep_FeedbackHistory p);
    rewrite ?lookup_SetMeta, ?decide_False by congruence; done.
Qed.
Lemma inject_history_meta p env k : k ∉ loop_keys -> env_Metadata (inject_history V p env) !! k = env_Metadata env !! k.
Proof.
  unfold loop_keys. rewrite !not_elem_of_cons. intros (_ & _ & _ & H & _). unfold inject_history, SetHistory.
  destruct (ep_CurrentHistory p); [done|]. case_match; [done|]. destruct (lv_history_json V _); [|done].
  by rewrite lookup_SetMeta, decide_False by congruence.
Qed.

(** What the injection of metadata leaves alone. *)
Definition envelope_core (env : Envelope) : GoVal * list string * list string :=
  (env_Payload env, env_SecurityLabels env, env_Facts env).

Lemma inject_feedback_core p env : envelope_core (inject_feedback p env) = envelope_core env.
Proof. unfold inject_feedback. destruct (ep_FeedbackHistory p); by case_match. Qed.
Lemma inject_history_core p env : envelope_core (inject_history V p env) = envelope_core env.
Proof. unfold inject_history, SetHistory. destruct (ep_CurrentHistory p); [done|]. case_match; [done|]. by destruct (lv_history_json V _). Qed.
Lemma recallContext_core c payload env s s' env' :
  recallContext V c payload env s = Some (s', env') -> envelope_core env' = envelope_core env.
Proof.
  unfold recallContext. destruct (cl_agentMemory c) as [mem|]; [|by intros [= _ <-]].
  destruct (le_CheckRequirement env "memory" (ls_E s)) as [[e1 [[]|x]]|]; cbn [mbind option_bind]; [|by intros [= _ <-]..|done].
  destruct (recall_memory mem _ _) as [w1 [[data facts]|x]]; [|by intros [= _ <-]].
  intros [= _ <-]. by case_match.
Qed.

Lemma injected_carries c id payload (a : LAction E W) p s s' env :
  injectContext V c payload p (step_envelope id payload a p) s = Some (s', env) -> carries_params c p payload env.
Proof.
  unfold injectContext.
  destruct (recallContext V c payload _ s) as [[s1 env1]|] eqn:Hr; [|done]. cbn [mbind option_bind]. intros [= _ <-].
  pose proof Hr as Hc. apply recallContext_core in Hc. rewrite inject_history_core, inject_feedback_core in Hc.
  unfold envelope_core in Hc. simplify_eq/=. unfold carries_params, carries.
  split_and!; [done..| | |]; simpl.
  - intros k v Hk. apply lookup_union_Some_l. by rewrite lookup_fmap, Hk.
  - intros k v Hn Hk. rewrite lookup_union_r by (by rewrite lookup_fmap, Hn). apply lookup_union_Some_l. by rewrite lookup_fmap, Hk.
  - intros Hm k v Hn Ho Hk Hf. rewrite !lookup_union_r by (by rewrite lookup_fmap, ?Hn, ?Ho).
    unfold recallContext in Hr. rewrite Hm in Hr. injection Hr as _ <-.
    rewrite inject_history_meta, inject_feedback_meta by done. cbn [step_envelope env_Metadata NewEnvelope]. by rewrite map_empty_union.
Qed.

Lemma steered_payload c result s s' result' : apply_steering c result s = Some (s', result') -> env_Payload result' = env_Payload result.
Proof.
  unfold apply_steering. case_match; [|by intros [= _ <-]]. destruct (le_EvaluateSteering result (ls_E s)) as [[e1 [[dec meta] err]]|]; [|done].
  intros [= _ <-]. destruct err; [done|]. by case_match.
Qed.

Lemma handleDecision_signal c step name result payload p s s' p' r :
  handleDecision V c step name result payload p s = (s', p', r) -> settings p' = settings p /\ (forall signal, r = Ok signal -> signal = result).
Proof. unfold handleDecision, handleRetryDecision. intros H. repeat case_match; simplify_eq; split; try done; by intros ? [= ->]. Qed.

Lemma handleExecutionError_signal step id err payload p s s' p' r :
  handleExecutionError V step id err payload p s = (s', p', r) -> settings p' = settings p /\ s' = s /\
  (forall signal, r = Ok signal -> is_Some (as_alignment err) /\ env_Payload signal = payload /\ meta_is signal KeyDecision DecisionRetry = true).
Proof.
  unfold handleExecutionError. destruct (as_alignment err) as [a|]; [|by intros [= <- <- <-]].
  destruct (_ <=? _)%Z; [by intros [= <- <- <-]|]. destruct (lv_sleep V step); [by intros [= <- <- <-]|].
  intros [= <- <- <-]. split_and!; [done|done|]. intros signal [= <-]. split_and!; [done|done|].
  unfold meta_is. by rewrite lookup_SetMeta, decide_True.
Qed.

Lemma step_execution c step action payload p s s1 p1 r :
  ExecuteSingleStep V c step action payload p s = Some (s1, p1, r) ->
  settings p1 = settings p /\
  ((s1 = s /\ p1 = p /\ is_ok r = false) \/
   exists x, x_action x = action /\ x_payload x = payload /\ carries_params c p payload (x_request x) /\ step_effect c s x s1 /\
     x_signal x = match r with Ok signal => Some signal | Err _ => None end /\
     forall signal, x_signal x = Some signal -> answers_for x signal).
Proof.
  unfold ExecuteSingleStep. destruct (cl_registry c !! action) as [a|] eqn:Ha; [|intros [= <- <- <-]; split; [done|by left]].
  destruct (injectContext V c payload p _ s) as [[sI env]|] eqn:Hi; [|done]. cbn [mbind option_bind].
  destruct (la_Execute a env (ls_E sI) (ls_W sI)) as [[[e2 w2] [result err]]|] eqn:Hx; [|done]. cbn [mbind option_bind].
  intros H. set (x := {| x_action := action; x_payload := payload; x_request := env; x_engine := ls_E sI; x_before := ls_W sI;
    x_after := w2; x_output := (result, err); x_signal := match r with Ok signal => Some signal | Err _ => None end |}).
  assert (step_effect c s x s1) as He.
  { destruct err as [y|].
    - exists step, a, p, p1, r. eexists _, sI, e2. split_and!; [exact Ha|exact Hi|done|done|exact Hx|exact H|done].
    - exists step, a, p, p1, r. eexists _, sI, e2. split_and!; [exact Ha|exact Hi|done|done|exact Hx|exact H|done]. }
  assert (settings p1 = settings p /\ forall signal, x_signal x = Some signal -> answers_for x signal) as [Hs Hans].
  { unfold answers_for. cbn [x_signal x_output x]. destruct err as [y|].
    - injection H as H. apply handleExecutionError_signal in H as (Hs & _ & Hr). split; [done|].
      intros signal Hsig. destruct r as [sg|]; [|done]. injection Hsig as ->. by apply Hr.
    - destruct (apply_steering c result _) as [[s3 result']|] eqn:Hst; [|done]. cbn [mbind option_bind] in H.
      apply steered_payload in Hst. destruct (updateHistory V c payload result' (set_last "" p) s3) as [s4 p2] eqn:Hu.
      assert (settings p2 = settings p) as Hp2 by (unfold updateHistory in Hu; repeat case_match; by simplify_eq).
      injection H as H. apply handleDecision_signal in H as [Hs Hr]. split; [congruence|].
      intros signal Hsig. destruct r as [sg|]; [|done]. injection Hsig as ->. by rewrite (Hr signal eq_refl). }
  split; [done|]. right. exists x. split_and!; try done. by eapply injected_carries.
Qed.

(** The signals of the completed steps. *)
Definition signals (tr : list Execution) : list Envelope := omap x_signal tr.

(** The outcome on record for an answer. *)
Definition decided (signal : Envelope) : string :=
  match env_Metadata signal !! KeyDecision with
  | Some (GStr d) => if String.eqb d "" then DecisionProceed else d
  | _ => DecisionProceed
  end.

Lemma step_record_spec step signal : rec_Step (step_record V step signal) = step /\ rec_Outcome (step_record V step signal) = decided signal.
Proof. unfold step_record, decided, bare_record, NewAuditRecordFromTrail. repeat case_match; done. Qed.

(** What [n] steps from [step] on did: a linked sequence of at most [n]
    executions, one record per completed one, the result the last answer. *)
Definition traced c (n : nat) (step : Z) action payload p s s' p' (r : res error Envelope) : Prop :=
  settings p' = settings p /\ (retry_inv p -> retry_inv p') /\
  exists tr recs, follows (carries_params c p) action payload tr /\ linked c s tr s' /\ List.length tr <= n /\
    ep_AuditRecords p' = (ep_AuditRecords p ++ recs)%list /\
    map rec_Step recs = seqZ step (Z.of_nat (List.length recs)) /\ map rec_Outcome recs = map decided (signals tr) /\
    (forall env, r = Ok env -> last (signals tr) = Some env).

(** What is known of a step that ran its action. *)
Definition executed_step c p s (x : Execution) s' p' : Prop :=
  settings p' = settings p /\ (retry_inv p -> retry_inv p') /\ ep_AuditRecords p' = ep_AuditRecords p /\
  carries_params c p (x_payload x) (x_request x) /\ step_effect c s x s' /\
  (forall signal, x_signal x = Some signal -> answers_for x signal).

Lemma traced_none c n step action payload p s y : traced c n step action payload p s s p (Err y).
Proof.
  split_and!; [done|done|]. exists [], []. rewrite app_nil_r. split_and!; try done; try constructor; cbn; lia.
Qed.

Lemma traced_failed c n step p s x s' p' y : executed_step c p s x s' p' -> x_signal x = None ->
  traced c (S n) step (x_action x) (x_payload x) p s s' p' (Err y).
Proof.
  intros (Hset & Hi & Ha & Hc & He & Hans) Hsig. split_and!; [done|done|]. exists [x], []. rewrite app_nil_r. unfold signals. cbn. rewrite Hsig.
  split_and!; try done; [by apply follows_last|eapply linked_more; [exact He|constructor]|lia].
Qed.

Lemma traced_last c n step p s x s' p' signal r : executed_step c p s x s' p' -> x_signal x = Some signal ->
  (forall env, r = Ok env -> env = signal) ->
  traced c (S n) step (x_action x) (x_payload x) p s s' (add_record (step_record V step signal) p') r.
Proof.
  intros (Hset & Hi & Ha & Hc & He & Hans) Hsig Hr. destruct (step_record_spec step signal) as [Hst Ho].
  split_and!; [done|exact Hi|]. exists [x], [step_record V step signal]. unfold signals. cbn. rewrite Hsig. cbn. rewrite Ha, Hst, Ho.
  split_and!; try done; [by apply follows_last|eapply linked_more; [exact He|constructor]|lia|]. intros env Henv. by rewrite (Hr env Henv).
Qed.

Lemma traced_more c n step p s x s1 p1 signal action payload s' p' r : executed_step c p s x s1 p1 -> x_signal x = Some signal ->
  goes_on signal (x_action x) (x_payload x) action payload ->
  traced c n (step + 1) action payload (add_record (step_record V step signal) p1) s1 s' p' r ->
  traced c (S n) step (x_action x) (x_payload x) p s s' p' r.
Proof.
  intros (Hset & Hi & Ha & Hc & He & Hans) Hsig Hg (H0 & Hi' & tr & recs & H1 & H2 & H3 & H4 & H5 & H6 & H7).
  destruct (step_record_spec step signal) as [Hst Ho]. split_and!; [etrans; [exact H0|exact Hset]|intros Hp; apply Hi', Hi, Hp|].
  exists (x :: tr), (step_record V step signal :: recs). unfold signals in *. cbn [omap list_omap map List.length]. rewrite Hsig, Hst, Ho.
  cbn [map]. split_and!.
  - eapply follows_more; [done|exact Hsig|by apply Hans|exact Hg|]. by eapply follows_settings; [|exact H1].
  - by econstructor.
  - lia.
  - rewrite H4. cbn. by rewrite Ha, <- app_assoc.
  - rewrite (seqZ_cons step) by lia. f_equal. rewrite H5. f_equal; lia.
  - by rewrite H6.
  - intros env Henv. specialize (H7 env Henv). rewrite last_cons. by rewrite H7.
Qed.

Lemma run_steps_trace c n : forall step action payload p s s' p' r,
  run_steps V c n step action payload p s = Some (s', p', r) -> traced c n step action payload p s s' p' r.
Proof.
  induction n as [|n IH]; intros step action payload p s s' p' r; cbn [run_steps]; [intros [= <- <- <-]; apply traced_none|].
  destruct (lv_ctx_err V step); [intros [= <- <- <-]; apply traced_none|].
  destruct (ExecuteSingleStep V c step action payload p s) as [[[s1 p1] out]|] eqn:Hs; cbn [mbind option_bind]; [|done].
  pose proof (ExecuteSingleStep_inv _ _ _ _ _ _ _ _ _ Hs) as [Hi Ha].
  apply step_execution in Hs as [Hset [(-> & -> & Hr)|(x & <- & <- & Hc & He & Hsig & Hans)]].
  { destruct out as [?|y]; [done|]. intros [= <- <- <-]. apply traced_none. }
  assert (executed_step c p s x s1 p1) as Hx by done.
  destruct out as [signal|y]; [|intros [= <- <- <-]; by apply traced_failed].
  pose proof (fun r => traced_last c n step p s x s1 p1 signal r Hx Hsig) as Hlast.
  assert (forall action' payload', goes_on signal (x_action x) (x_payload x) action' payload' ->
    run_steps V c n (step + 1) action' payload' (add_record (step_record V step signal) p1) s1 = Some (s', p', r) ->
    traced c (S n) step (x_action x) (x_payload x) p s s' p' r) as Hnext by (intros action' payload' Hg H%IH; by eapply traced_more).
  unfold goes_on in Hnext. destruct (meta_is signal KeyDecision DecisionRoute).
  { destruct (env_Metadata signal !! KeyNextStep) as [v|] eqn:Hn; [|intros [= <- <- <-]; by apply Hlast].
    destruct v; try (intros [= <- <- <-]; by apply Hlast).
    destruct (String.eqb_spec s0 "") as [->|Hne]; [intros [= <- <- <-]; by apply Hlast|]. by apply Hnext. }
  destruct (meta_is signal KeyDecision DecisionRetry); [by apply Hnext|]. intros [= <- <- <-]. apply Hlast. by intros env [= ->].
Qed.
End Bounds.
Arguments Execution E W : clear implicits.

(** C17: The loop makes progress under control.  A run of the loop without a
    durable session, from parameters without records, retries and feedback, is
    (after the history is read) a linked sequence of at most [max_steps]
    executions of registered actions, from its first state to its last, that
    starts with the given action and payload and follows the routes and retries
    they answer; there
    is exactly one audit record per completed step, in order, numbered from 0,
    with the decision that the step answered; a result is the answer of the
    last completed step; the retry counter never exceeds [DefaultMaxRetries];
    and no two feedbacks retried on since the last route are similar. *)
Theorem loop_bounded {E : Type} `{!LoopEngine E} {W : Type} (V : LoopEnv) (c : Client E W) (action : string)
    (payload : GoVal) (p p' : ExecutionParams) (s s' : LState E W) (r : res error Envelope) :
  runLoopInternal V c action payload p s = Some (s', p', r) -> cl_stateManager c = None ->
  ep_AuditRecords p = [] -> ep_RetryCount p = 0%Z -> ep_FeedbackHistory p = [] ->
  exists s1 p1 (tr : list (Execution E W)), load_history c p s = Some (s1, p1) /\ linked V c s1 tr s' /\
    follows (carries_params V c p) action payload tr /\ (Z.of_nat (List.length tr) <= max_steps c p)%Z /\
    map rec_Step (ep_AuditRecords p') = seqZ 0 (Z.of_nat (List.length (signals tr))) /\
    map rec_Outcome (ep_AuditRecords p') = map decided (signals tr) /\
    (forall env, r = Ok env -> last (signals tr) = Some env) /\
    (0 <= ep_RetryCount p' <= DefaultMaxRetries)%Z /\ no_thrashing V (ep_FeedbackHistory p').
Proof.
  unfold runLoopInternal, hydrate_session. intros H Hsm Ha Hr Hf. rewrite Hsm in H.
  destruct (load_history c p s) as [[s1 p1]|] eqn:Hl; [|done]. cbn [mbind option_bind] in H.
  assert (settings p1 = settings p /\ ep_AuditRecords p1 = [] /\ ep_RetryCount p1 = 0%Z /\ ep_FeedbackHistory p1 = [] /\ max_steps c p1 = max_steps c p)
    as (H0 & H1 & H2 & H3 & H4).
  { unfold load_history in Hl. repeat case_match; by simplify_eq. }
  apply run_steps_trace in H as (_ & Hi & tr & recs & F1 & FL & F2 & F3 & F4 & F5 & F6). rewrite H1 in F3. cbn in F3. exists s1, p1, tr.
  assert (List.length recs = List.length (signals tr)) as Hlen by (by rewrite <- (length_map rec_Outcome), F5, length_map).
  assert (retry_inv V p1) as (HR & HF)%Hi by (split; [rewrite H2; unfold DefaultMaxRetries; lia|rewrite H3; constructor]).
  rewrite F3, <- Hlen. split_and!; [done|done| | |done|done|done|apply HR..|done].
  - by eapply follows_settings.
  - rewrite H4 in F2. assert (0 < max_steps c p)%Z by (unfold max_steps, DefaultMaxSteps; repeat case_match; lia). lia.
Qed.

(** ** Supervised actions in the loop *)

Section Supervised.
Context {E : Type} `{!LoopEngine E, !Evaluator E} {W : Type} (V : LoopEnv) (G : GoEnv).
Implicit Types (s : LState E W).

Definition supervised_action (ctx ctx' : option error) (ext : option (string -> res error GoVal)) (act : Action W)
    (contentType : string) : LAction E W :=
  {| la_InputContentType := contentType; la_Execute := supervised_Execute G ctx ctx' ext act |}.

Definition all_supervised (c : Client E W) : Prop :=
  forall name a, cl_registry c !! name = Some a ->
    exists ctx ctx' ext act ct, a = supervised_action ctx ctx' ext act ct.

(** What a governed execution asks of the engine. *)
Inductive engine_step : E -> E -> Prop :=
| step_steer env e e' r : le_EvaluateSteering env e = Some (e', r) -> engine_step e e'
| step_require env name e e' r : le_CheckRequirement env name e = Some (e', r) -> engine_step e e'
| step_verify ctx pc atoms e e' r : VerifyAtoms ctx pc atoms e = Some (e', r) -> engine_step e e'.

(** What an execution was: the registered action on the request, with what it
    made of the world; it had an effect only if the action is supervised and
    its evaluator was asked about this very request and let it through. *)
Definition governed_execution (c : Client E W) (e0 : E) (x : Execution E W) : Prop :=
  rtc engine_step e0 (x_engine x) /\
  exists ctx ctx' ext act ct e', cl_registry c !! x_action x = Some (supervised_action ctx ctx' ext act ct) /\
    supervised_Execute G ctx ctx' ext act (x_request x) (x_engine x) (x_before x) = Some (e', x_after x, x_output x) /\
    (x_after x = x_before x \/ asked_and_tolerated G ctx ext act (x_request x) (x_engine x)).

(** The world passes from execution to execution, and nothing else changes it. *)
Fixpoint chained (w : W) (tr : list (Execution E W)) (w' : W) : Prop :=
  match tr with
  | [] => w' = w
  | x :: rest => x_before x = w /\ chained (x_after x) rest w'
  end.

(** A change of the world has an execution behind it. *)
Lemma chained_cause (Q : Execution E W -> Prop) w tr w' :
  (forall x, x ∈ tr -> x_after x = x_before x \/ Q x) -> chained w tr w' -> w' = w \/ exists x, x ∈ tr /\ Q x.
Proof.
  revert w. induction tr as [|x tr IH]; intros w Hq; cbn [chained]; [by left|]. intros [<- Hc].
  destruct (Hq x) as [Hx|Hx]; [set_solver| |right; exists x; set_solver].
  destruct (IH (x_after x)) as [Hw|(y & Hy & HQ)]; [set_solver|done|left; congruence|right; exists y; set_solver].
Qed.

(** The payload, the labels and the facts that a call is given. *)
Definition call_payload (input : LoopInput) : GoVal := match input with InPayload v => v | InEnvelope e => env_Payload e end.
Definition call_labels (input : LoopInput) : list string := match input with InPayload _ => [] | InEnvelope e => env_SecurityLabels e end.
Definition call_facts (input : LoopInput) : list string := match input with InPayload _ => [] | InEnvelope e => env_Facts e end.
Definition call_metadata (input : LoopInput) : gmap string GoVal := match input with InPayload _ => ∅ | InEnvelope e => env_Metadata e end.

(** The options of a call, applied in order. *)
Definition call_options (opts : list ExecuteOption) : ExecutionParams := fold_left (fun p o => o p) opts default_params.

(** A request of a call has the labels, facts and metadata of its input, after
    those that the options set. *)
Definition carries_call (c : Client E W) (input : LoopInput) (opts : list ExecuteOption) : GoVal -> Envelope -> Prop :=
  let q := call_options opts in
  carries V c (ep_fwdLabels q ++ call_labels input) (ep_fwdFacts q ++ call_facts input)
    (if decide (call_metadata input = ∅) then ep_fwdMeta q else call_metadata input) (ep_Metadata q).

Lemma supervised_engine ctx ctx' ext (act : Action W) input e e' w w' out :
  supervised_Execute G ctx ctx' ext act input e w = Some (e', w', out) -> rtc engine_step e e'.
Proof.
  destruct out as [out err]. intros Hx. apply supervised_inv in Hx as [(-> & _)|(p & o & Hi & _)]; [done|].
  unfold ExecuteInternal in Hi. destruct (flattenToQuads G "Req" p) as [facts|]; [|done]. cbn [mbind option_bind] in Hi.
  destruct (VerifyAtoms _ _ _ e) as [[e1 [res|x]]|] eqn:Hv; [| |done]; cbn [mbind option_bind] in Hi;
    apply step_verify in Hv; [|simplify_eq; by apply rtc_once].
  destruct (blocks res); [simplify_eq; by apply rtc_once|].
  destruct (sdk_action_execute act _ w) as [w1 [result|x]]; [|simplify_eq; by apply rtc_once].
  destruct (flattenToQuads G EntityOutput _) as [qs|]; [|done]. cbn [mbind option_bind post_check] in Hi.
  destruct (VerifyAtoms ctx' _ _ e1) as [[e2 r]|] eqn:Hp; [|done]. cbn [mbind option_bind] in Hi. simplify_eq.
  eapply rtc_l; [exact Hv|]. by eapply rtc_once, step_verify.
Qed.

(** A memory that leaves the world alone, as the default one does. *)
Definition inert (mem : AgentMemory W) : Prop :=
  (forall sid w, fst (hs_Read (am_history mem) sid w) = w) /\ (forall sid h w, fst (hs_Append (am_history mem) sid h w) = w) /\
  (forall text w, fst (am_Recall mem text w) = w) /\
  (forall f text w, am_RecallWithFacts mem = Some f -> fst (f text w) = w).

Lemma inert_recall mem text w : inert mem -> fst (recall_memory mem text w) = w.
Proof.
  intros (_ & _ & Hr & Hf). unfold recall_memory. destruct (am_RecallWithFacts mem) as [f|] eqn:Hm; [by apply Hf|].
  specialize (Hr text w). by destruct (am_Recall mem text w) as [w1 [data|e]].
Qed.

Context (c : Client E W).
Hypothesis Hmem : forall mem, cl_agentMemory c = Some mem -> inert mem.
Hypothesis Hsm : cl_stateManager c = None.
Hypothesis Hsup : all_supervised c.

(** The engine moved by its own operations, the world did not. *)
Definition same_world s s' : Prop := rtc engine_step (ls_E s) (ls_E s') /\ ls_W s' = ls_W s.

Lemma injectContext_world payload p env s s' env' :
  injectContext V c payload p env s = Some (s', env') -> same_world s s'.
Proof.
  unfold injectContext, recallContext. destruct (cl_agentMemory c) as [mem|] eqn:Hm; [|by intros [= <- _]].
  destruct (le_CheckRequirement _ "memory" (ls_E s)) as [[e1 needed]|] eqn:Hreq; [|done]. cbn [mbind option_bind].
  apply step_require in Hreq. destruct needed as [[|]|]; [|intros [= <- _]; by split; [apply rtc_once|]..].
  destruct (recall_memory mem _ _) as [w1 r] eqn:Hr. cbn [mbind option_bind]. intros [= <- _].
  split; [by apply rtc_once|]. cbn. pose proof (inert_recall mem (safelyStringify V payload) (ls_W s) (Hmem mem eq_refl)) as Hw.
  cbn in Hr. by rewrite Hr in Hw.
Qed.

Lemma apply_steering_world result s s' result' :
  apply_steering c result s = Some (s', result') -> same_world s s'.
Proof.
  unfold apply_steering. case_match; [|by intros [= <- _]].
  destruct (le_EvaluateSteering result (ls_E s)) as [[e1 [[dec meta] err]]|] eqn:Hs; [|done]. intros [= <- _].
  split; [by eapply rtc_once, step_steer|done].
Qed.

Lemma handleDecision_world step name result payload p s s' p' r :
  handleDecision V c step name result payload p s = (s', p', r) -> same_world s s'.
Proof.
  unfold handleDecision, handleRetryDecision, asyncMemorize. intros H. repeat case_match; by simplify_eq.
Qed.

Lemma updateHistory_world payload result p s : same_world s (fst (updateHistory V c payload result p s)).
Proof.
  unfold updateHistory. repeat case_match; try done. split; [done|]. cbn.
  edestruct Hmem as (_ & Ha & _); [reflexivity|]. apply Ha.
Qed.

Lemma step_effect_governed s x s' : step_effect V c s x s' ->
  x_before x = ls_W s /\ ls_W s' = x_after x /\ rtc engine_step (ls_E s) (ls_E s') /\ governed_execution c (ls_E s) x.
Proof.
  intros (step & a & p & p' & r & env0 & s1 & e2 & Ha & Hi & Hxe & Hxb & Hx & H & _).
  apply injectContext_world in Hi as [He1 Hw1]. pose proof Ha as Ha'. apply Hsup in Ha' as (ctx & ctx' & ext & act & ct & ->).
  cbn [la_Execute supervised_action] in Hx. pose proof (supervised_engine _ _ _ _ _ _ _ _ _ _ Hx) as He2.
  assert (rtc engine_step e2 (ls_E s') /\ ls_W s' = x_after x) as [He3 Hw3].
  { destruct (x_output x) as [result [err|]]; cbn [fst snd] in H.
    - injection H as H. by apply handleExecutionError_signal in H as (_ & -> & _).
    - destruct (apply_steering c result _) as [[s3 result']|] eqn:Hst; [|done]. cbn [mbind option_bind] in H.
      apply apply_steering_world in Hst as [He Hw]. cbn in He, Hw.
      pose proof (updateHistory_world (x_payload x) result' (set_last "" p) s3) as [Heu Hwu].
      destruct (updateHistory V c (x_payload x) result' _ s3) as [s4 p2]. cbn [fst] in Heu, Hwu.
      unfold checkpoint_step in H. rewrite Hsm in H. injection H as H. apply handleDecision_world in H as [Hed Hwd].
      split; [|congruence]. etrans; [exact He|]. by etrans. }
  split_and!; [congruence|done|etrans; [exact He1|by etrans]|]. split; [by rewrite Hxe|].
  exists ctx, ctx', ext, act, ct, e2. rewrite Hxe, Hxb. split_and!; [done|done|]. by apply supervised_effect in Hx.
Qed.

Lemma governed_from e0 e1 x : rtc engine_step e0 e1 -> governed_execution c e1 x -> governed_execution c e0 x.
Proof. intros H0 [He H]. split; [by etrans|done]. Qed.

Lemma linked_governed s tr s' : linked V c s tr s' ->
  chained (ls_W s) tr (ls_W s') /\ rtc engine_step (ls_E s) (ls_E s') /\ Forall (governed_execution c (ls_E s)) tr.
Proof.
  induction 1 as [s|s x s1 tr s' Hx _ (IH1 & IH2 & IH3)]; [by repeat constructor|].
  apply step_effect_governed in Hx as (Hb & Hw & He & Hg). split_and!; [|by etrans|].
  - split; [done|]. by rewrite <- Hw.
  - constructor; [done|]. eapply Forall_impl; [exact IH3|]. intros y. by apply governed_from.
Qed.

(** A whole call is such a sequence, started on the input. *)
Lemma ExecuteByName_governed action input opts s s' r :
  ExecuteByName V c action input opts s = Some (s', r) ->
  rtc engine_step (ls_E s) (ls_E s') /\
  exists tr : list (Execution E W), follows (carries_call c input opts) action (call_payload input) tr /\
    chained (ls_W s) tr (ls_W s') /\ Forall (governed_execution c (ls_E s)) tr.
Proof.
  unfold ExecuteByName. fold (call_options opts). set (q := call_options opts).
  assert (exists p, match input with InPayload v => (q, v) | InEnvelope e => (forward_envelope e q, env_Payload e) end = (p, call_payload input) /\
    carries_call c input opts = carries_params V c p) as (p & -> & Hc).
  { destruct input as [v|e]; eexists; (split; [done|]); unfold carries_call, carries_params; fold q; cbn.
    - by rewrite !app_nil_r.
    - done. }
  rewrite Hc. unfold runLoopInternal, hydrate_session. rewrite Hsm.
  destruct (load_history c p s) as [[s1 p1]|] eqn:Hh; [|done]. cbn [mbind option_bind].
  assert (same_world s s1 /\ settings p1 = settings p) as [[He Hw] Hp].
  { revert Hh. unfold load_history. case_match; [|by intros [= <- <-]].
    destruct (cl_agentMemory c) as [mem|] eqn:Hm; [|done]. destruct (Hmem mem eq_refl) as (Hr & _).
    specialize (Hr (ep_SessionID p) (ls_W s)). destruct (hs_Read _ _ _) as [w1 hist]. intros [= <- <-]. by repeat split. }
  destruct (run_steps _ _ _ _ _ _ _ _) as [[[s3 p3] r']|] eqn:Hr; [|done]. intros [= <- <-].
  apply run_steps_trace in Hr as (_ & _ & tr & _ & Hf & Hl & _). apply linked_governed in Hl as (H1 & H2 & H3).
  split; [by etrans|]. exists tr. split_and!; [|by rewrite <- Hw|].
  - eapply follows_settings; [|exact Hf]. done.
  - eapply Forall_impl; [exact H3|]. intros y. by apply governed_from.
Qed.

(** [Client.Execute] is such a call, of the action that steering routes the
    input to, on the payload of the input. *)
Lemma Client_Execute_governed describe input opts s s' r :
  Client_Execute V describe c input opts s = Some (s', r) ->
  ls_W s' = ls_W s \/
  exists name e1 meta (tr : list (Execution E W)), le_EvaluateSteering input (ls_E s) = Some (e1, (DecisionRoute, meta, None)) /\ meta !! KeyNextStep = Some name /\
    follows (carries_call c (InPayload (env_Payload input)) opts) name (env_Payload input) tr /\
    chained (ls_W s) tr (ls_W s') /\ Forall (governed_execution c (ls_E s)) tr.
Proof.
  unfold Client_Execute. destruct (negb _); [intros [= <- _]; by left|].
  destruct (le_EvaluateSteering input (ls_E s)) as [[e1 [[d meta] err]]|] eqn:Hs; [|done]. cbn [mbind option_bind].
  destruct err; [intros [= <- _]; by left|]. destruct (String.eqb_spec d DecisionRoute) as [->|]; [|intros [= <- _]; by left].
  destruct (meta !! KeyNextStep) as [name|] eqn:Hn; cbn [default]; [|intros [= <- _]; by left].
  case_match; [intros [= <- _]; by left|]. intros (_ & tr & Hf & Hc & Hg)%ExecuteByName_governed.
  right. exists name, e1, meta, tr. split_and!; [done|done|exact Hf|exact Hc|].
  eapply Forall_impl; [exact Hg|]. intros y. apply governed_from. by eapply rtc_once, step_steer.
Qed.
End Supervised.

(** ** Context, checkpoints, hydration *)

(** What an action sees: the envelope of a step has the step's payload,
    exactly the facts and labels forwarded from the caller's envelope, and
    its metadata gives context facts precedence over per-call options, and
    both over everything else. *)
Theorem action_context {E : Type} `{!LoopEngine E} {W : Type} (V : LoopEnv) (c : Client E W) (a : LAction E W) (id : Z)
    (payload : GoVal) (p : ExecutionParams) (s s' : LState E W) (env : Envelope) :
  injectContext V c payload p (step_envelope id payload a p) s = Some (s', env) ->
  env_Payload env = payload /\ env_SecurityLabels env = ep_fwdLabels p /\ env_Facts env = ep_fwdFacts p /\
  (forall k v, lv_ctx_facts V !! k = Some v -> env_Metadata env !! k = Some (GStr v)) /\
  (forall k v, lv_ctx_facts V !! k = None -> ep_Metadata p !! k = Some v -> env_Metadata env !! k = Some (GStr v)).
Proof. intros H. apply injected_carries in H as (H1 & H2 & H3 & H4 & H5 & _). by split_and!. Qed.

(** A result without a decision is never checkpointed: with steering off
    (the default) an action that sets no decision leaves no durable state,
    whatever the state provider, although the step succeeds. *)
Theorem undecided_result_not_checkpointed {E : Type} `{!LoopEngine E} {W : Type} (V : LoopEnv) (c : Client E W)
    (a : LAction E W) (name : string) (payload : GoVal) (p : ExecutionParams) (s s1 : LState E W) (env result : Envelope)
    (e2 : E) (w2 : W) :
  cl_registry c !! name = Some a -> cl_steeringEnabled c = false -> ep_MemoryMode p = MemoryModeNone ->
  injectContext V c payload p (step_envelope (lv_uuid V 0) payload a p) s = Some (s1, env) ->
  la_Execute a env (ls_E s1) (ls_W s1) = Some (e2, w2, (result, None)) -> env_Metadata result !! KeyDecision = None ->
  exists s' p', ExecuteSingleStep V c 0 name payload p s = Some (s', p', Ok result) /\ ls_W s' = w2 /\
    ls_async s' = ls_async s1.
Proof.
  intros Ha Hst Hmode Hi Hx Hd. unfold ExecuteSingleStep. rewrite Ha. change (2 * 0)%Z with 0%Z. rewrite Hi. cbn [mbind option_bind].
  rewrite Hx. cbn [mbind option_bind]. unfold apply_steering. rewrite Hst. cbn [andb mbind option_bind].
  unfold updateHistory. cbn [set_last ep_running ep_MemoryMode]. rewrite Hmode. cbn [String.eqb].
  assert (forall v, meta_is result KeyDecision v = false) as Hno by (intros v; unfold meta_is; by rewrite Hd).
  unfold handleDecision, checkpoint_step, proceeds. rewrite !Hno. cbn [orb].
  do 2 eexists. split; [done|]. destruct (cl_stateManager c) as [[sp J]|]; [rewrite andb_false_r|]; done.
Qed.

(** A hydrated session ignores the caller's input: when a durable state
    exists for the session the loop starts from the payload of its last
    envelope, so two calls with different inputs behave the same. *)
Theorem hydrated_session_ignores_input {E : Type} `{!LoopEngine E} {W : Type} (V : LoopEnv) (c : Client E W)
    (action : string) (v1 v2 : GoVal) (p p1 : ExecutionParams) (s s1 : LState E W) (sp : StateProvider W) (J : JsonCodec)
    (e1 : E) (w1 : W) (st : SessionState) :
  load_history c p s = Some (s1, p1) -> ep_SessionID p1 <> "" -> cl_stateManager c = Some (sp, J) ->
  Hydrate sp J (Some le_LoadFacts) (ep_SessionID p1) (ls_E s1) (ls_W s1) = (e1, w1, Ok (Some st)) ->
  runLoopInternal V c action v1 p s = runLoopInternal V c action v2 p s.
Proof.
  intros Hl Hs Hc Hh. unfold runLoopInternal. rewrite Hl. cbn [mbind option_bind]. unfold hydrate_session.
  apply String.eqb_neq in Hs. by rewrite Hc, Hs, Hh.
Qed.

(** [Client.Execute] forwards the payload only: two envelopes with the same
    payload for which the engine chooses the same route are executed alike,
    whatever their labels, facts and metadata. *)
Theorem Execute_drops_context {E : Type} `{!LoopEngine E} {W : Type} (V : LoopEnv)
    (describe : string -> gmap string string -> string) (c : Client E W) (i1 i2 : Envelope) (opts : list ExecuteOption)
    (s : LState E W) :
  env_Payload i1 = env_Payload i2 -> le_EvaluateSteering i1 (ls_E s) = le_EvaluateSteering i2 (ls_E s) ->
  Client_Execute V describe c i1 opts s = Client_Execute V describe c i2 opts s.
Proof. intros Hp Hs. unfold Client_Execute. by rewrite Hp, Hs. Qed.

(** A halt without a reason is reported as a formatting artefact instead of
    the fallback text. *)
Theorem halt_without_reason (V : LoopEnv) (result : Envelope) :
  env_Metadata result !! "reason" = None ->
  buildHaltError V result = EText "action halted by blueprint: %!s(<nil>)".
Proof. intros H. unfold buildHaltError. by rewrite H. Qed.

(** Similarity of feedback is symmetric and reflexive. *)
Lemma similar_sym norm a b : isSemanticallySimilar norm a b = isSemanticallySimilar norm b a.
Proof.
  unfold isSemanticallySimilar. rewrite (String.eqb_sym a b), (String.eqb_sym (normalizeString norm a)).
  f_equal. f_equal. rewrite (andb_comm (negb (String.eqb (normalizeString norm a) ""))). f_equal. apply orb_comm.
Qed.

(** ** Witnesses *)

Definition quiet_env : LoopEnv :=
  {| lv_render _ := ""; lv_render_s _ := ""; lv_unicode_norm s := s; lv_history_json _ := Ok "[]"; lv_fmt_time _ := "";
     lv_uuid z := (z + 1)%Z; lv_ctx_facts := ∅; lv_ctx_err _ := None; lv_sleep _ := None |}.

(** An engine without steering rules or requirements. *)
Definition idle_engine : LoopEngine nat :=
  {| le_EvaluateSteering _ e := Some (e, (DecisionProceed, ∅, None)); le_CheckRequirement _ _ e := Some (e, Ok false);
     le_LoadFacts _ e := (e, None) |}.

Definition client_of {E W : Type} (a : LAction E W) (mem : option (AgentMemory W))
    (sm : option (StateProvider W * JsonCodec)) (steering : bool) : Client E W :=
  {| cl_registry := {[ "act" := a ]}; cl_agentMemory := mem; cl_stateManager := sm; cl_steeringEnabled := steering;
     cl_maxSteps := 0; cl_shuttingDown := false |}.

Definition logged : LAction nat (list Envelope) :=
  @supervised_action nat counting_evaluator (list Envelope) plain_env None None None (log_action "act") TypeStruct.
Definition log_client : Client nat (list Envelope) := client_of logged None None false.
Definition start : LState nat (list Envelope) := {| ls_E := 0; ls_W := []; ls_async := [] |}.

Definition run_ok {S : Type} (x : option (S * res error Envelope)) : bool :=
  match x with Some (_, Ok _) => true | _ => false end.
Lemma run_ok_inv {S : Type} (x : option (S * res error Envelope)) :
  run_ok x = true -> exists s env, x = Some (s, Ok env).
Proof. destruct x as [[s [env|e]]|]; simpl; try discriminate. eauto. Qed.

Lemma loop_result_final_witness :
  exists s env, @ExecuteByName nat idle_engine _ quiet_env log_client "act" (InPayload GNil) [] start = Some (s, Ok env) /\
    undecided_or env.
Proof.
  destruct (run_ok_inv (@ExecuteByName nat idle_engine _ quiet_env log_client "act" (InPayload GNil) [] start)) as (s & env & H);
    [by_vm|].
  exists s, env. split; [exact H|].
  apply (@loop_result_final nat idle_engine _ quiet_env log_client "act" (InPayload GNil) [] start s env H).
Defined.

Definition run_worked {E W : Type} (x : option (LState E (list W) * res error Envelope)) : bool :=
  match x with Some (s, _) => match ls_W s with [] => false | _ => true end | None => false end.
Lemma run_worked_inv {E W : Type} (x : option (LState E (list W) * res error Envelope)) :
  run_worked x = true -> exists s r, x = Some (s, r) /\ ls_W s <> [].
Proof. destruct x as [[s r]|]; simpl; [|discriminate]. intros H. exists s, r. split; [done|]. by destruct (ls_W s). Qed.

Lemma log_client_supervised : @all_supervised nat counting_evaluator _ plain_env log_client.
Proof.
  intros name a H. change (({[ "act" := logged ]} : gmap string (LAction nat (list Envelope))) !! name = Some a) in H.
  apply lookup_singleton_Some in H as [_ <-]. by exists None, None, None, (log_action "act"), TypeStruct.
Defined.

Definition steps_ok {A B : Type} (x : option (A * B * res error Envelope)) : bool :=
  match x with Some (_, _, Ok _) => true | _ => false end.
Lemma steps_ok_inv {A B : Type} (x : option (A * B * res error Envelope)) :
  steps_ok x = true -> exists s p env, x = Some (s, p, Ok env).
Proof. destruct x as [[[s p] [env|e]]|]; simpl; try discriminate. eauto. Qed.

Lemma loop_bounded_witness :
  exists s p env (tr : list (Execution nat (list Envelope))), @runLoopInternal nat idle_engine _ quiet_env log_client "act" GNil default_params start = Some (s, p, Ok env) /\
    List.length tr <= 10 /\ last (signals tr) = Some env /\ map rec_Outcome (ep_AuditRecords p) = map decided (signals tr) /\
    no_thrashing quiet_env (ep_FeedbackHistory p).
Proof.
  destruct (steps_ok_inv (@runLoopInternal nat idle_engine _ quiet_env log_client "act" GNil default_params start))
    as (s & p & env & H); [by_vm|].
  destruct (@loop_bounded nat idle_engine _ quiet_env log_client "act" GNil default_params p start s (Ok env) H
              eq_refl eq_refl eq_refl eq_refl) as (? & ? & tr & _ & _ & _ & H1 & _ & H2 & H3 & _ & H4).
  exists s, p, env, tr. split_and!; [exact H| |by apply H3|exact H2|exact H4].
  change (max_steps log_client default_params) with 10%Z in H1. lia.
Defined.

Lemma action_context_witness :
  exists s env, @injectContext nat idle_engine _ quiet_env log_client (GStr "x") (WithMetadata "k" "v" default_params)
      (step_envelope 1 (GStr "x") logged (WithMetadata "k" "v" default_params)) start = Some (s, env) /\
    env_Metadata env !! "k" = Some (GStr "v").
Proof.
  destruct (@injectContext nat idle_engine _ quiet_env log_client (GStr "x") (WithMetadata "k" "v" default_params)
      (step_envelope 1 (GStr "x") logged (WithMetadata "k" "v" default_params)) start) as [[s env]|] eqn:H; [|discriminate H].
  exists s, env. split; [reflexivity|].
  destruct (@action_context nat idle_engine _ quiet_env log_client logged 1 (GStr "x") (WithMetadata "k" "v" default_params)
              start s env H) as (_ & _ & _ & _ & Hk). apply Hk; reflexivity.
Defined.

(** An action that echoes its payload. *)
Definition echo {W : Type} : LAction nat W :=
  {| la_InputContentType := TypeStruct;
     la_Execute env e w := Some (e, w, (NewEnvelope 9 (env_Payload env), None)) |}.

Definition durable : Client nat (gmap string RawState) := client_of echo None (Some (map_provider, one_codec)) false.
Definition durable_start (m : gmap string RawState) : LState nat (gmap string RawState) :=
  {| ls_E := 0; ls_W := m; ls_async := [] |}.

Lemma undecided_result_not_checkpointed_witness :
  exists s' p', @ExecuteSingleStep nat idle_engine _ quiet_env durable 0 "act" (GStr "x")
      (ep_config "s" MemoryModeNone ∅ [] [] ∅ 0 default_params) (durable_start ∅) = Some (s', p', Ok (NewEnvelope 9 (GStr "x"))) /\
    ls_W s' = ∅ /\ ls_async s' = [].
Proof.
  apply (@undecided_result_not_checkpointed nat idle_engine _ quiet_env durable echo "act" (GStr "x")
           (ep_config "s" MemoryModeNone ∅ [] [] ∅ 0 default_params) (durable_start ∅) (durable_start ∅)
           (step_envelope 1 (GStr "x") (echo : LAction nat (gmap string RawState)) (ep_config "s" MemoryModeNone ∅ [] [] ∅ 0 default_params))
           (NewEnvelope 9 (GStr "x")) 0 ∅); reflexivity.
Defined.

Definition saved : gmap string RawState := {[ "s" := RawSession (one_state 7) ]}.

Lemma hydrated_session_ignores_input_witness :
  @runLoopInternal nat idle_engine _ quiet_env durable "act" (GStr "a") (ep_config "s" MemoryModeNone ∅ [] [] ∅ 0 default_params)
    (durable_start saved)
  = @runLoopInternal nat idle_engine _ quiet_env durable "act" (GStr "b") (ep_config "s" MemoryModeNone ∅ [] [] ∅ 0 default_params)
    (durable_start saved).
Proof.
  apply (@hydrated_session_ignores_input nat idle_engine _ quiet_env durable "act" (GStr "a") (GStr "b")
           (ep_config "s" MemoryModeNone ∅ [] [] ∅ 0 default_params) (ep_config "s" MemoryModeNone ∅ [] [] ∅ 0 default_params)
           (durable_start saved) (durable_start saved) map_provider one_codec 0 saved (one_state 7));
    [reflexivity|discriminate|reflexivity|reflexivity].
Defined.

Lemma Execute_drops_context_witness :
  @Client_Execute nat idle_engine _ quiet_env (fun _ _ => "") log_client (set_Labels ["pii"] emptyEnvelope) [] start
  = @Client_Execute nat idle_engine _ quiet_env (fun _ _ => "") log_client emptyEnvelope [] start.
Proof.
  apply (@Execute_drops_context nat idle_engine _ quiet_env (fun _ _ => "") log_client (set_Labels ["pii"] emptyEnvelope)
           emptyEnvelope [] start); reflexivity.
Defined.

Lemma halt_without_reason_witness :
  buildHaltError quiet_env (SetMeta emptyEnvelope "violation_msg" (GStr "forbidden"))
  = EText "action halted by blueprint: %!s(<nil>)".
Proof. apply (halt_without_reason quiet_env). reflexivity. Defined.

(** The history of a persistent session is appended to itself: the loop hands
    the whole history to [Append], which by its contract adds new messages,
    so with the in-memory provider the first exchange is stored twice after
    two executions. *)
Definition in_memory : AgentMemory (gmap string (list Message)) :=
  {| am_history := InMemoryStore; am_Recall _ w := (w, Ok ""); am_RecallWithFacts := None |}.
Definition chat : Client nat (gmap string (list Message)) := client_of echo (Some in_memory) None false.
Definition say (text : string) (s : LState nat (gmap string (list Message))) : LState nat (gmap string (list Message)) :=
  match @ExecuteByName nat idle_engine _ quiet_env chat "act" (InPayload (GStr text)) [WithSessionID "s"] s with
  | Some (s', _) => s'
  | None => s
  end.

Theorem persistent_history_duplicated :
  map msg_Content (default [] (ls_W (say "b" (say "a" {| ls_E := 0; ls_W := ∅; ls_async := [] |})) !! "s"))
  = ["a"; "a"; "a"; "a"; "b"; "b"].
Proof. by vm_compute. Qed.
