(* ===== verification/Builder.v ===== *)
(** * The frame builder

    [NewBuilder] and the [Builder] methods of [x/ooda/domain.go].  A builder
    is a frame and its components ([Ports]); [WithTimeout], [WithTraceID] and
    the workflow instance itself are fields no phase reads and are left out. *)
From S2P Require Import Prelude GoStrings CoreErrors CoreTypes Float64 Ooda.
From Stdlib Require Import Ascii String.
Open Scope string_scope.

Section Builder.
Context {W : Type}.

Record Builder := { bd_frame : CognitiveFrame; bd_ports : Ports W }.

Definition no_ports : Ports W :=
  {| po_Memory := None; po_Brain := None; po_Executor := None; po_Dispatcher := None;
     po_KnowledgeStore := None; po_TransientStore := None; po_ReasoningPort := None |}.

(** Unlike [NewCognitiveFrame], the builder's frame has no initial status. *)
Definition NewBuilder (id : string) : Builder :=
  {| bd_frame := with_Status "" (NewCognitiveFrame id "" "" ""); bd_ports := no_ports |}.

Definition on_cfg (k : FrameConfig -> FrameConfig) (b : Builder) : Builder :=
  let f := bd_frame b in
  {| bd_frame := {| fr_cfg := k (fr_cfg f); fr_Phase := fr_Phase f; fr_Context := fr_Context f;
                    fr_AttentionSink := fr_AttentionSink f; fr_RawContext := fr_RawContext f; fr_Draft := fr_Draft f;
                    fr_Status := fr_Status f; fr_EAST := fr_EAST f; fr_Decision := fr_Decision f;
                    fr_AuditTrail := fr_AuditTrail f; fr_ActionResult := fr_ActionResult f;
                    fr_RetryCount := fr_RetryCount f; fr_PhaseDurations := fr_PhaseDurations f |};
     bd_ports := bd_ports b |}.

Definition on_ports (k : Ports W -> Ports W) (b : Builder) : Builder :=
  {| bd_frame := bd_frame b; bd_ports := k (bd_ports b) |}.

Definition WithInput (input : string) : Builder -> Builder := on_cfg (fun c =>
  {| fc_ID := fc_ID c; fc_Intent := fc_Intent c; fc_TaskType := fc_TaskType c; fc_Input := input;
     fc_GraphID := fc_GraphID c; fc_KBVersion := fc_KBVersion c; fc_SessionID := fc_SessionID c;
     fc_WorkflowID := fc_WorkflowID c; fc_MaxRetries := fc_MaxRetries c |}).
Definition WithIntent (intent : string) : Builder -> Builder := on_cfg (fun c =>
  {| fc_ID := fc_ID c; fc_Intent := intent; fc_TaskType := fc_TaskType c; fc_Input := fc_Input c;
     fc_GraphID := fc_GraphID c; fc_KBVersion := fc_KBVersion c; fc_SessionID := fc_SessionID c;
     fc_WorkflowID := fc_WorkflowID c; fc_MaxRetries := fc_MaxRetries c |}).
Definition WithTaskType (taskType : string) : Builder -> Builder := on_cfg (fun c =>
  {| fc_ID := fc_ID c; fc_Intent := fc_Intent c; fc_TaskType := taskType; fc_Input := fc_Input c;
     fc_GraphID := fc_GraphID c; fc_KBVersion := fc_KBVersion c; fc_SessionID := fc_SessionID c;
     fc_WorkflowID := fc_WorkflowID c; fc_MaxRetries := fc_MaxRetries c |}).
Definition WithMaxRetries (n : Z) : Builder -> Builder := on_cfg (fun c =>
  {| fc_ID := fc_ID c; fc_Intent := fc_Intent c; fc_TaskType := fc_TaskType c; fc_Input := fc_Input c;
     fc_GraphID := fc_GraphID c; fc_KBVersion := fc_KBVersion c; fc_SessionID := fc_SessionID c;
     fc_WorkflowID := fc_WorkflowID c; fc_MaxRetries := n |}).
Definition Builder_WithSessionID (sid : string) : Builder -> Builder := on_cfg (fun c =>
  {| fc_ID := fc_ID c; fc_Intent := fc_Intent c; fc_TaskType := fc_TaskType c; fc_Input := fc_Input c;
     fc_GraphID := fc_GraphID c; fc_KBVersion := fc_KBVersion c; fc_SessionID := sid;
     fc_WorkflowID := fc_WorkflowID c; fc_MaxRetries := fc_MaxRetries c |}).
Definition WithWorkflowID (wid : string) : Builder -> Builder := on_cfg (fun c =>
  {| fc_ID := fc_ID c; fc_Intent := fc_Intent c; fc_TaskType := fc_TaskType c; fc_Input := fc_Input c;
     fc_GraphID := fc_GraphID c; fc_KBVersion := fc_KBVersion c; fc_SessionID := fc_SessionID c;
     fc_WorkflowID := wid; fc_MaxRetries := fc_MaxRetries c |}).
Definition WithGraphID (g : string) : Builder -> Builder := on_cfg (fun c =>
  {| fc_ID := fc_ID c; fc_Intent := fc_Intent c; fc_TaskType := fc_TaskType c; fc_Input := fc_Input c;
     fc_GraphID := g; fc_KBVersion := fc_KBVersion c; fc_SessionID := fc_SessionID c;
     fc_WorkflowID := fc_WorkflowID c; fc_MaxRetries := fc_MaxRetries c |}).
Definition WithKBVersion (v : string) : Builder -> Builder := on_cfg (fun c =>
  {| fc_ID := fc_ID c; fc_Intent := fc_Intent c; fc_TaskType := fc_TaskType c; fc_Input := fc_Input c;
     fc_GraphID := fc_GraphID c; fc_KBVersion := v; fc_SessionID := fc_SessionID c;
     fc_WorkflowID := fc_WorkflowID c; fc_MaxRetries := fc_MaxRetries c |}).

(** An instance is its session and its workflow. *)
Definition WithWorkflowInstance (instance : option (string * string)) (b : Builder) : Builder :=
  match instance with
  | Some (sid, wid) => WithWorkflowID wid (Builder_WithSessionID sid b)
  | None => b
  end.

Definition WithMemory (m : option (Memory W)) : Builder -> Builder := on_ports (fun p =>
  {| po_Memory := m; po_Brain := po_Brain p; po_Executor := po_Executor p; po_Dispatcher := po_Dispatcher p;
     po_KnowledgeStore := po_KnowledgeStore p; po_TransientStore := po_TransientStore p; po_ReasoningPort := po_ReasoningPort p |}).
Definition WithBrain (b : option (Brain W)) : Builder -> Builder := on_ports (fun p =>
  {| po_Memory := po_Memory p; po_Brain := b; po_Executor := po_Executor p; po_Dispatcher := po_Dispatcher p;
     po_KnowledgeStore := po_KnowledgeStore p; po_TransientStore := po_TransientStore p; po_ReasoningPort := po_ReasoningPort p |}).
Definition WithExecutor (e : option (Executor W)) : Builder -> Builder := on_ports (fun p =>
  {| po_Memory := po_Memory p; po_Brain := po_Brain p; po_Executor := e; po_Dispatcher := po_Dispatcher p;
     po_KnowledgeStore := po_KnowledgeStore p; po_TransientStore := po_TransientStore p; po_ReasoningPort := po_ReasoningPort p |}).
Definition WithDispatcher (d : option (Dispatcher W)) : Builder -> Builder := on_ports (fun p =>
  {| po_Memory := po_Memory p; po_Brain := po_Brain p; po_Executor := po_Executor p; po_Dispatcher := d;
     po_KnowledgeStore := po_KnowledgeStore p; po_TransientStore := po_TransientStore p; po_ReasoningPort := po_ReasoningPort p |}).
Definition WithRegistry (r : Registry W) : Builder -> Builder := WithDispatcher (Some (NewDispatcher r)).

(** Setting [frame.TransientStore], which has no builder method. *)
Definition set_TransientStore (ts : TransientStore W) : Builder -> Builder := on_ports (fun p =>
  {| po_Memory := po_Memory p; po_Brain := po_Brain p; po_Executor := po_Executor p; po_Dispatcher := po_Dispatcher p;
     po_KnowledgeStore := po_KnowledgeStore p; po_TransientStore := Some ts; po_ReasoningPort := po_ReasoningPort p |}).

Definition or_default (s d : string) : string := if String.eqb s "" then d else s.

Definition Build (b : Builder) : CognitiveFrame * Ports W :=
  let c := fr_cfg (bd_frame b) in
  let b := WithTaskType (or_default (fc_TaskType c) TaskTypeGeneration) b in
  let b := WithIntent (or_default (fc_Intent c) (fc_Input c)) b in
  (bd_frame b, bd_ports b).
End Builder.
Arguments Builder W : clear implicits.

(** [GetAuditSummary]. *)
Definition GetAuditSummary (f : CognitiveFrame) : string :=
  match frame_trail f with
  | None => "No audit trail available"
  | Some t => Summary t
  end.
