(* ===== verification/SessionStore.v ===== *)
(** * The session fact store

    [adapters/storage/session/store.go]: transient coordination facts, kept
    per session and key with a time to live, and the [TransientFactsStore]
    through which the OODA phases use it.

    The store keeps pointers: a fact handed to [SessionStore.Put] stays shared
    with the caller, and [Put] writes its time stamp and its time to live
    through the pointer.  Facts therefore live in a [FactHeap] next to the
    store.  Times are nanoseconds; [range] is any map iteration order.  A
    stored pointer is never nil, because [Put] writes through it first
    ([store_ok]), so readers dereference with a default. *)
From S2P Require Import Prelude GoStrings CoreErrors CoreTypes Float64 Ooda.
From Stdlib Require Import Ascii String.
Open Scope string_scope.

Record SessionFact := {
  sf_Subject : string;
  sf_Predicate : string;
  sf_Object : string;
  sf_Graph : string;
  sf_CreatedAt : Z;
  sf_TTL : Z
}.

Notation FactHeap := (gmap nat SessionFact).

Record SessionStore := {
  ss_sessions : gmap string (gmap string nat);
  ss_ttl : Z
}.

Definition IsExpired (now : Z) (f : SessionFact) : bool :=
  if (sf_TTL f <=? 0)%Z then false else (sf_TTL f <? now - sf_CreatedAt f)%Z.

Definition NewSessionStore : SessionStore := {| ss_sessions := ∅; ss_ttl := 600000000000 |}.

Definition SetTTL (ttl : Z) (s : SessionStore) : SessionStore :=
  {| ss_sessions := ss_sessions s; ss_ttl := ttl |}.

Definition with_sessions (m : gmap string (gmap string nat)) (s : SessionStore) : SessionStore :=
  {| ss_sessions := m; ss_ttl := ss_ttl s |}.

Definition NewSessionFact (subject predicate object graph : string) (ttl : Z) : SessionFact :=
  {| sf_Subject := subject; sf_Predicate := predicate; sf_Object := object; sf_Graph := graph;
     sf_CreatedAt := 0; sf_TTL := ttl |}.

(** What [Put] writes into the fact. *)
Definition stamp (now ttl : Z) (f : SessionFact) : SessionFact :=
  {| sf_Subject := sf_Subject f; sf_Predicate := sf_Predicate f; sf_Object := sf_Object f; sf_Graph := sf_Graph f;
     sf_CreatedAt := now; sf_TTL := if (sf_TTL f <=? 0)%Z then ttl else sf_TTL f |}.

Definition bad_key (sessionID key : string) : bool := String.eqb sessionID "" || String.eqb key "".

(** [None] is the nil dereference of a pointer that is not allocated. *)
Definition SessionStore_Put (now : Z) (sessionID key : string) (p : nat) (h : FactHeap) (s : SessionStore)
  : option (FactHeap * SessionStore * option error) :=
  if bad_key sessionID key then Some (h, s, Some (EText "sessionID and key cannot be empty"))
  else
    f ← h !! p;
    Some (<[p := stamp now (ss_ttl s) f]> h,
          with_sessions (<[sessionID := <[key := p]> (default ∅ (ss_sessions s !! sessionID))]> (ss_sessions s)) s,
          None).

Definition deref (h : FactHeap) (p : nat) : SessionFact := default (NewSessionFact "" "" "" "" 0) (h !! p).

Definition SessionStore_Get (now : Z) (sessionID key : string) (h : FactHeap) (s : SessionStore) : res error nat :=
  match ss_sessions s !! sessionID with
  | None => Err (EText ("session " +:+ sessionID +:+ " not found"))
  | Some session =>
      match session !! key with
      | None => Err (EText ("fact " +:+ key +:+ " not found in session " +:+ sessionID))
      | Some p =>
          if IsExpired now (deref h p) then Err (EText ("fact " +:+ key +:+ " has expired")) else Ok p
      end
  end.

Definition SessionStore_Delete (sessionID key : string) (s : SessionStore) : SessionStore :=
  match ss_sessions s !! sessionID with
  | None => s
  | Some session =>
      let rest := delete key session in
      if decide (rest = ∅) then with_sessions (delete sessionID (ss_sessions s)) s
      else with_sessions (<[sessionID := rest]> (ss_sessions s)) s
  end.

Definition SessionStore_ClearSession (sessionID : string) (s : SessionStore) : SessionStore :=
  with_sessions (delete sessionID (ss_sessions s)) s.

Definition Count (s : SessionStore) : Z := Z.of_nat (size (ss_sessions s)).

Open Scope go_scope.

Section Ranges.
Context `{GoRange}.

Definition GetAll (now : Z) (sessionID : string) (h : FactHeap) (s : SessionStore) : res error (list nat) :=
  match ss_sessions s !! sessionID with
  | None => Err (EText ("session " +:+ sessionID +:+ " not found"))
  | Some session => Ok (List.filter (fun p => negb (IsExpired now (deref h p))) (map snd (range session)))
  end.

Definition ListSessions (s : SessionStore) : list string := map fst (range (ss_sessions s)).

(** The two loops of [CleanupExpired]: the entries of one session, and the
    sessions. *)
Definition clean_entry (now : Z) (h : FactHeap) (acc : gmap string nat * Z) (e : string * nat) : gmap string nat * Z :=
  if IsExpired now (deref h (snd e)) then (delete (fst e) (fst acc), (snd acc + 1)%Z) else acc.

Definition clean_session (now : Z) (h : FactHeap) (acc : gmap string (gmap string nat) * Z) (e : string * gmap string nat)
  : gmap string (gmap string nat) * Z :=
  let '(session, n) := foldl (clean_entry now h) (snd e, snd acc) (range (snd e)) in
  (if decide (session = ∅) then delete (fst e) (fst acc) else <[fst e := session]> (fst acc), n).

Definition CleanupExpired (now : Z) (h : FactHeap) (s : SessionStore) : SessionStore * Z :=
  let '(m, n) := foldl (clean_session now h) (ss_sessions s, 0%Z) (range (ss_sessions s)) in
  (with_sessions m s, n).

Definition fact_atom (f : SessionFact) : OAtom :=
  {| oa_Predicate := sf_Predicate f; oa_Subject := sf_Subject f; oa_Object := sf_Object f;
     oa_Weight := f_zero; oa_OriginIntent := "" |}.

Definition fact_quad (f : SessionFact) : Quad :=
  {| q_Subject := sf_Subject f; q_Predicate := sf_Predicate f; q_Object := sf_Object f; q_Graph := sf_Graph f |}.

Definition ToAtoms (now : Z) (sessionID : string) (h : FactHeap) (s : SessionStore) : res error (list OAtom) :=
  let! facts := GetAll now sessionID h s in Ok (map (fun p => fact_atom (deref h p)) facts).

Definition ToQuads (now : Z) (sessionID : string) (h : FactHeap) (s : SessionStore) : res error (list Quad) :=
  let! facts := GetAll now sessionID h s in Ok (map (fun p => fact_quad (deref h p)) facts).

(** ** The store of the OODA ports *)

Record TransientFactsStore := { tfs_heap : FactHeap; tfs_store : SessionStore }.

Definition NewTransientFactsStore : TransientFactsStore := {| tfs_heap := ∅; tfs_store := NewSessionStore |}.

Definition session_fact (f : TransientFact) : SessionFact :=
  NewSessionFact (tf_Subject f) (tf_Predicate f) (tf_Object f) (tf_Graph f) 0.

(** [Put] wraps the values in a new fact. *)
Definition TransientFactsStore_Put (now : Z) (sessionID key : string) (fact : TransientFact) (t : TransientFactsStore)
  : option (TransientFactsStore * option error) :=
  let p := fresh (dom (tfs_heap t)) in
  '(h, s, err) ← SessionStore_Put now sessionID key p (<[p := session_fact fact]> (tfs_heap t)) (tfs_store t);
  Some ({| tfs_heap := h; tfs_store := s |}, err).

Context (fmt_time : Z -> string).

Definition transient_fact (f : SessionFact) : TransientFact :=
  {| tf_Subject := sf_Subject f; tf_Predicate := sf_Predicate f; tf_Object := sf_Object f; tf_Graph := sf_Graph f;
     tf_CreatedAt := fmt_time (sf_CreatedAt f) |}.

Definition TransientFactsStore_Get (now : Z) (sessionID key : string) (t : TransientFactsStore) : res error TransientFact :=
  let! p := SessionStore_Get now sessionID key (tfs_heap t) (tfs_store t) in
  Ok (transient_fact (deref (tfs_heap t) p)).

Definition TransientFactsStore_GetAll (now : Z) (sessionID : string) (t : TransientFactsStore) : res error (list TransientFact) :=
  let! facts := GetAll now sessionID (tfs_heap t) (tfs_store t) in
  Ok (map (fun p => transient_fact (deref (tfs_heap t) p)) facts).

Definition on_store (k : SessionStore -> SessionStore) (t : TransientFactsStore) : TransientFactsStore :=
  {| tfs_heap := tfs_heap t; tfs_store := k (tfs_store t) |}.

Definition TransientFactsStore_Delete (sessionID key : string) : TransientFactsStore -> TransientFactsStore :=
  on_store (SessionStore_Delete sessionID key).

Definition TransientFactsStore_ClearSession (sessionID : string) : TransientFactsStore -> TransientFactsStore :=
  on_store (SessionStore_ClearSession sessionID).

Definition TransientFactsStore_ToAtoms (now : Z) (sessionID : string) (t : TransientFactsStore) : res error (list OAtom) :=
  ToAtoms now sessionID (tfs_heap t) (tfs_store t).

Definition TransientFactsStore_ToQuads (now : Z) (sessionID : string) (t : TransientFactsStore) : res error (list Quad) :=
  ToQuads now sessionID (tfs_heap t) (tfs_store t).
End Ranges.

(** The store as the port of the OODA loop, over a world with a clock and
    anything else. *)
Definition StoreWorld (X : Type) : Type := Z * TransientFactsStore * X.

Definition transient_port `{GoRange} (X : Type) : TransientStore (StoreWorld X) :=
  {| ts_ToAtoms sessionID w := let '(now, t, x) := w in (w, TransientFactsStore_ToAtoms now sessionID t);
     ts_Put sessionID key fact w :=
       let '(now, t, x) := w in
       match TransientFactsStore_Put now sessionID key fact t with
       | Some (t', err) => ((now, t', x), err)
       | None => (w, None)                       (* not reached: the pointer is fresh *)
       end |}.
