(* ===== verification/SessionStoreProps.v ===== *)
(** * Properties of the session fact store

    The [TransientFactsStore] is a map from session and key to a fact with a
    deadline; removing expired facts does not change what can be read; and
    what the OODA loop makes of it. *)
From S2P Require Import Prelude GoStrings CoreErrors CoreTypes Reflect Float64 Ooda OodaProps SessionStore Builder.
From Stdlib Require Import Ascii String.
Open Scope string_scope.

(** ** Cells *)

(** The pointer stored for a session and key. *)
Definition cell (s : SessionStore) (sid key : string) : option nat :=
  ss_sessions s !! sid ≫= fun session => session !! key.

Lemma cell_put m ttl sid key p s k :
  cell {| ss_sessions := <[sid := <[key := p]> (default ∅ (m !! sid))]> m; ss_ttl := ttl |} s k
  = if decide (s = sid /\ k = key) then Some p else cell {| ss_sessions := m; ss_ttl := ttl |} s k.
Proof.
  unfold cell. simpl. destruct (decide (s = sid)) as [->|Hs].
  - rewrite lookup_insert_eq. simpl. destruct (decide (k = key)) as [->|Hk].
    + by rewrite lookup_insert_eq, decide_True.
    + rewrite lookup_insert_ne, decide_False by naive_solver. by destruct (m !! sid).
  - by rewrite lookup_insert_ne, decide_False by naive_solver.
Qed.

Lemma cell_delete sid key s st k :
  cell (SessionStore_Delete sid key st) s k = if decide (s = sid /\ k = key) then None else cell st s k.
Proof.
  unfold SessionStore_Delete, cell. destruct (ss_sessions st !! sid) as [session|] eqn:Hsid.
  - destruct (decide (delete key session = ∅)) as [He|He]; simpl.
    all: destruct (decide (s = sid)) as [->|Hs];
      [rewrite ?lookup_delete_eq, ?lookup_insert_eq, Hsid; simpl
      |by rewrite ?lookup_delete_ne, ?lookup_insert_ne, decide_False by naive_solver].
    all: destruct (decide (k = key)) as [->|Hk];
      [rewrite decide_True by done|rewrite decide_False by naive_solver].
    + done.
    + rewrite <- (lookup_delete_ne session key k), He by done. by rewrite lookup_empty.
    + by rewrite lookup_delete_eq.
    + by rewrite lookup_delete_ne.
  - destruct (decide (s = sid /\ k = key)) as [[-> ->]|]; [by rewrite Hsid|done].
Qed.

Lemma cell_clear sid s st k :
  cell (SessionStore_ClearSession sid st) s k = if decide (s = sid) then None else cell st s k.
Proof.
  unfold SessionStore_ClearSession, cell. simpl. destruct (decide (s = sid)) as [->|Hs].
  - by rewrite lookup_delete_eq.
  - by rewrite lookup_delete_ne.
Qed.

(** ** The invariant *)

(** No session is empty and every stored pointer is allocated. *)
Record store_ok (h : FactHeap) (s : SessionStore) : Prop := {
  ok_nonempty : forall sid session, ss_sessions s !! sid = Some session -> session <> ∅;
  ok_alloc : forall sid key p, cell s sid key = Some p -> is_Some (h !! p)
}.

(** Each cell has a fact of its own. *)
Definition unshared (s : SessionStore) : Prop :=
  forall s1 k1 s2 k2 p, cell s s1 k1 = Some p -> cell s s2 k2 = Some p -> s1 = s2 /\ k1 = k2.

Lemma delete_nonempty sid key st :
  (forall s session, ss_sessions st !! s = Some session -> session <> ∅) ->
  forall s session, ss_sessions (SessionStore_Delete sid key st) !! s = Some session -> session <> ∅.
Proof.
  intros Hst s session. unfold SessionStore_Delete. destruct (ss_sessions st !! sid) as [old|] eqn:Ho; [|apply Hst].
  destruct (decide (delete key old = ∅)) as [|Hne]; simpl.
  - intros [_ Hs]%lookup_delete_Some. by eapply Hst.
  - intros [[_ <-]|[_ Hs]]%lookup_insert_Some; [done|by eapply Hst].
Qed.

Lemma delete_ok sid key h st : store_ok h st -> store_ok h (SessionStore_Delete sid key st).
Proof.
  intros [Hn Ha]. split; [by apply delete_nonempty|].
  intros s k p. rewrite cell_delete. case_decide; [done|apply Ha].
Qed.

Lemma clear_ok sid h st : store_ok h st -> store_ok h (SessionStore_ClearSession sid st).
Proof.
  intros [Hn Ha]. split.
  - intros s session. simpl. intros [_ Hs]%lookup_delete_Some. by eapply Hn.
  - intros s k p. rewrite cell_clear. case_decide; [done|apply Ha].
Qed.

Lemma put_ok now sid key p h st h' st' err :
  SessionStore_Put now sid key p h st = Some (h', st', err) -> store_ok h st -> store_ok h' st'.
Proof.
  unfold SessionStore_Put. destruct (bad_key sid key); [by intros [= <- <- _]|].
  destruct (h !! p) as [f|] eqn:Hp; [|done]. cbn [mbind option_bind]. intros [= <- <- _] [Hn Ha]. split.
  - intros s session. simpl. intros [[_ <-]|[_ Hs]]%lookup_insert_Some; [|by eapply Hn].
    apply insert_non_empty.
  - intros s k q. unfold with_sessions. rewrite cell_put. intros Hq. destruct (decide (q = p)) as [->|Hne].
    + by rewrite lookup_insert_eq.
    + rewrite lookup_insert_ne by done. case_decide; [by simplify_eq|]. by eapply (Ha s k).
Qed.

(** ** Refinement of a map with deadlines *)

(** What a client sees: the fact kept for each session and key. *)
Definition Spec : Type := string -> string -> option SessionFact.

Inductive TOp :=
| TPut (now : Z) (sid key : string) (f : TransientFact)
| TDelete (sid key : string)
| TClear (sid : string).

Definition spec_step (v : Spec) (op : TOp) : Spec := fun s k =>
  match op with
  | TPut now sid key f =>
      if decide (bad_key sid key = false /\ s = sid /\ k = key)
      then Some (stamp now (ss_ttl NewSessionStore) (session_fact f)) else v s k
  | TDelete sid key => if decide (s = sid /\ k = key) then None else v s k
  | TClear sid => if decide (s = sid) then None else v s k
  end.

(** The operations of the store, in the order they are called. *)
Definition t_step (t : option TransientFactsStore) (op : TOp) : option TransientFactsStore :=
  t ≫= fun t => match op with
  | TPut now sid key f => fst <$> TransientFactsStore_Put now sid key f t
  | TDelete sid key => Some (TransientFactsStore_Delete sid key t)
  | TClear sid => Some (TransientFactsStore_ClearSession sid t)
  end.

Definition view (t : TransientFactsStore) : Spec := fun s k => cell (tfs_store t) s k ≫= fun p => tfs_heap t !! p.

Record refines (t : TransientFactsStore) (v : Spec) : Prop := {
  rf_ok : store_ok (tfs_heap t) (tfs_store t);
  rf_unshared : unshared (tfs_store t);
  rf_ttl : ss_ttl (tfs_store t) = ss_ttl NewSessionStore;
  rf_view : forall s k, view t s k = v s k
}.

Lemma delete_ttl sid key st : ss_ttl (SessionStore_Delete sid key st) = ss_ttl st.
Proof. unfold SessionStore_Delete. destruct (_ !! _); [|done]. by case_decide. Qed.

Lemma put_refines now sid key f t v :
  refines t v -> exists t', t_step (Some t) (TPut now sid key f) = Some t' /\ refines t' (spec_step v (TPut now sid key f)).
Proof.
  intros [Hok Hun Httl Hv]. simpl. unfold TransientFactsStore_Put. set (p := fresh (dom (tfs_heap t))).
  assert (tfs_heap t !! p = None) as Hp by (apply not_elem_of_dom, is_fresh).
  assert (store_ok (<[p := session_fact f]> (tfs_heap t)) (tfs_store t)) as Hok1.
  { destruct Hok as [Hn Ha]. split; [done|]. intros s k q Hq. apply Ha in Hq.
    destruct (decide (q = p)) as [->|Hne]; [by rewrite lookup_insert_eq|by rewrite lookup_insert_ne]. }
  destruct (SessionStore_Put now sid key p (<[p := session_fact f]> (tfs_heap t)) (tfs_store t))
    as [[[h' s'] err]|] eqn:Hput.
  2: { unfold SessionStore_Put in Hput. destruct (bad_key sid key); [done|]. by rewrite lookup_insert_eq in Hput. }
  cbn [mbind option_bind fmap option_fmap option_map fst]. eexists. split; [done|].
  pose proof (put_ok _ _ _ _ _ _ _ _ _ Hput Hok1) as Hok2.
  assert (forall s k q, cell (tfs_store t) s k = Some q -> q <> p) as Hnp.
  { intros s k q Hq ->. destruct Hok as [_ Ha]. apply Ha in Hq as [? Hq]. congruence. }
  unfold SessionStore_Put in Hput. destruct (bad_key sid key) eqn:Hbad.
  - injection Hput as <- <- <-. split; simpl; [done|done|done|]. intros s k.
    case_decide as Hd; [destruct Hd; congruence|]. rewrite <- Hv. unfold view. simpl.
    destruct (cell (tfs_store t) s k) as [q|] eqn:Hq; [|done]. simpl.
    rewrite lookup_insert_ne; [done|]. intros ->. by eapply Hnp.
  - rewrite lookup_insert_eq in Hput. cbn [mbind option_bind] in Hput. injection Hput as <- <- <-.
    split; simpl; [done| |done|].
    + intros s1 k1 s2 k2 q. unfold with_sessions. rewrite !cell_put. simpl.
      destruct (decide (s1 = sid /\ k1 = key)) as [[-> ->]|H1], (decide (s2 = sid /\ k2 = key)) as [[-> ->]|H2];
        intros Hq1 Hq2; simplify_eq; [done| | |by eapply Hun].
      * by edestruct Hnp.
      * by edestruct Hnp.
    + intros s k. unfold view. simpl. unfold with_sessions. rewrite cell_put.
      destruct (decide (s = sid /\ k = key)) as [[-> ->]|Hne].
      * rewrite decide_True by done. simpl. by rewrite lookup_insert_eq, Httl.
      * rewrite decide_False by (intros [_ ?]; done). rewrite <- Hv. unfold view.
        change (cell {| ss_sessions := ss_sessions (tfs_store t); ss_ttl := ss_ttl (tfs_store t) |} s k)
          with (cell (tfs_store t) s k).
        destruct (cell (tfs_store t) s k) as [q|] eqn:Hq; [|done]. simpl.
        rewrite !lookup_insert_ne; [done| |]; intros ->; by eapply Hnp.
Qed.

Lemma shrink_refines (k : SessionStore -> SessionStore) t v v' :
  refines t v -> store_ok (tfs_heap t) (k (tfs_store t)) -> ss_ttl (k (tfs_store t)) = ss_ttl (tfs_store t) ->
  (forall s x, cell (k (tfs_store t)) s x = cell (tfs_store t) s x /\ v' s x = v s x \/
               cell (k (tfs_store t)) s x = None /\ v' s x = None) ->
  refines (on_store k t) v'.
Proof.
  intros [Hok Hun Httl Hv] Hok' Httl' Hc. split; simpl; [done| |by rewrite Httl', Httl|].
  - intros s1 k1 s2 k2 p H1 H2. destruct (Hc s1 k1) as [[E1 _]|[E1 _]], (Hc s2 k2) as [[E2 _]|[E2 _]];
      rewrite ?E1, ?E2 in *; try done. by eapply Hun.
  - intros s x. unfold view. simpl. destruct (Hc s x) as [[-> ->]|[-> ->]]; [apply Hv|done].
Qed.

Lemma t_step_refines t v op : refines t v -> exists t', t_step (Some t) op = Some t' /\ refines t' (spec_step v op).
Proof.
  intros Hr. pose proof (rf_ok _ _ Hr) as Hok. destruct op as [now sid key f|sid key|sid]; [by apply put_refines| |].
  all: eexists; split; [done|]; apply (shrink_refines _ t v); simpl; try done.
  - by apply delete_ok.
  - apply delete_ttl.
  - intros s x. rewrite cell_delete. unfold spec_step. case_decide; [by right|by left].
  - by apply clear_ok.
  - intros s x. rewrite cell_clear. unfold spec_step. case_decide; [by right|by left].
Qed.

Lemma t_run_refines ops t v :
  refines t v -> exists t', foldl t_step (Some t) ops = Some t' /\ refines t' (foldl spec_step v ops).
Proof.
  revert t v. induction ops as [|op ops IH]; intros t v Hr; simpl; [by exists t|].
  destruct (t_step_refines t v op Hr) as (t1 & H1 & Hr1). simpl in H1. rewrite H1. by apply IH.
Qed.

Lemma new_refines : refines NewTransientFactsStore (fun _ _ => None).
Proof. split; simpl; [split| | |]; unfold cell, unshared, view; simpl; intros; unfold cell in *; simpl in *; by rewrite ?lookup_empty in *. Qed.

(** ** Reading *)

Lemma Get_ok now s k h st p :
  SessionStore_Get now s k h st = Ok p <-> cell st s k = Some p /\ IsExpired now (deref h p) = false.
Proof.
  unfold SessionStore_Get, cell. destruct (ss_sessions st !! s) as [session|]; simpl; [|split; [done|by intros [? _]]].
  destruct (session !! k) as [q|]; [|split; [done|by intros [? _]]].
  destruct (IsExpired now (deref h q)) eqn:He; split; [done|intros [? ?]; simplify_eq; congruence| |];
    [intros [= <-]|intros [[= <-] _]]; done.
Qed.

Lemma transient_Get_ok fmt now s k t f :
  store_ok (tfs_heap t) (tfs_store t) ->
  TransientFactsStore_Get fmt now s k t = Ok f <->
  exists sf, view t s k = Some sf /\ IsExpired now sf = false /\ f = transient_fact fmt sf.
Proof.
  intros [_ Ha]. unfold TransientFactsStore_Get, view. split.
  - intros (p & [Hc He]%Get_ok & Hf)%res_bind_ok. injection Hf as <-. destruct (Ha _ _ _ Hc) as [sf Hp].
    unfold deref in *. rewrite Hp in *. simpl in *. exists sf. by rewrite Hc.
  - intros (sf & Hv & He & ->). destruct (cell (tfs_store t) s k) as [p|] eqn:Hc; [|done]. simpl in Hv.
    assert (deref (tfs_heap t) p = sf) as Hd by (unfold deref; by rewrite Hv).
    assert (SessionStore_Get now s k (tfs_heap t) (tfs_store t) = Ok p) as ->
      by (apply Get_ok; by rewrite Hd). simpl. by rewrite Hd.
Qed.

Section Ranges.
Context `{GoRange}.

Lemma elem_of_range_values (m : gmap string nat) p : p ∈ map snd (range m) <-> exists k, m !! k = Some p.
Proof.
  rewrite list_elem_of_fmap. split.
  - intros ([k q] & -> & Hk%elem_of_range). by exists k.
  - intros [k Hk]. exists (k, p). by rewrite elem_of_range.
Qed.

Lemma GetAll_ok now s h st l :
  GetAll now s h st = Ok l -> forall p, p ∈ l <-> exists k, cell st s k = Some p /\ IsExpired now (deref h p) = false.
Proof.
  unfold GetAll, cell. destruct (ss_sessions st !! s) as [session|]; [|done]. intros [= <-] p. simpl.
  rewrite list_elem_of_In, filter_In, <- list_elem_of_In, elem_of_range_values, negb_true_iff. naive_solver.
Qed.

Lemma ToAtoms_defined now s t :
  store_ok (tfs_heap t) (tfs_store t) ->
  is_ok (TransientFactsStore_ToAtoms now s t) = true <-> exists k, is_Some (view t s k).
Proof.
  intros [Hn Ha]. unfold TransientFactsStore_ToAtoms, ToAtoms, GetAll, view, cell.
  destruct (ss_sessions (tfs_store t) !! s) as [session|] eqn:Hs; simpl.
  - split; [intros _|done]. destruct (map_choose session (Hn _ _ Hs)) as (k & p & Hk). exists k.
    rewrite Hk. simpl. apply (Ha s k). unfold cell. by rewrite Hs.
  - split; [done|]. intros [k Hk]. by apply is_Some_None in Hk.
Qed.

Lemma ToAtoms_elems now s t atoms :
  store_ok (tfs_heap t) (tfs_store t) -> TransientFactsStore_ToAtoms now s t = Ok atoms ->
  forall a, a ∈ atoms <-> exists k sf, view t s k = Some sf /\ IsExpired now sf = false /\ a = fact_atom sf.
Proof.
  intros [_ Ha] Hat a. unfold TransientFactsStore_ToAtoms, ToAtoms in Hat.
  apply res_bind_ok in Hat as (l & Hl & [= <-]). rewrite list_elem_of_fmap. split.
  - intros (p & -> & Hp). apply (GetAll_ok _ _ _ _ _ Hl) in Hp as (k & Hc & He).
    destruct (Ha _ _ _ Hc) as [sf Hsf]. exists k, sf. unfold view, deref in *. rewrite Hc, Hsf in *. done.
  - intros (k & sf & Hv & He & ->). unfold view in Hv. destruct (cell (tfs_store t) s k) as [p|] eqn:Hc; [|done].
    simpl in Hv. assert (deref (tfs_heap t) p = sf) as Hd by (unfold deref; by rewrite Hv).
    exists p. rewrite Hd. split; [done|]. apply (GetAll_ok _ _ _ _ _ Hl). exists k. by rewrite Hd.
Qed.

(** The specification: for each session and key the last fact put with
    non-empty names and not removed since, and when it was put.  It can be read
    for ten minutes. *)
Definition Kept : Type := string -> string -> option (Z * TransientFact).

Definition kept_step (v : Kept) (op : TOp) : Kept := fun s k =>
  match op with
  | TPut now sid key f => if decide (sid <> "" /\ key <> "" /\ s = sid /\ k = key) then Some (now, f) else v s k
  | TDelete sid key => if decide (s = sid /\ k = key) then None else v s k
  | TClear sid => if decide (s = sid) then None else v s k
  end.

Definition kept (ops : list TOp) : Kept := foldl kept_step (fun _ _ => None) ops.

Definition ten_minutes : Z := 10 * 60 * 1000 * 1000 * 1000.

Definition stored_as (e : Z * TransientFact) : SessionFact := stamp (fst e) (ss_ttl NewSessionStore) (session_fact (snd e)).

Lemma spec_kept ops s k : foldl spec_step (fun _ _ => None) ops s k = stored_as <$> kept ops s k.
Proof.
  unfold kept. assert (forall v w, (forall s k, v s k = stored_as <$> w s k) ->
    forall s k, foldl spec_step v ops s k = stored_as <$> foldl kept_step w ops s k) as H'; [|by apply H'].
  clear s k. induction ops as [|op ops IH]; intros v w Hvw; [exact Hvw|]. cbn [foldl]. apply IH. intros s k.
  destruct op as [now sid key f|sid key|sid]; cbn [spec_step kept_step].
  - assert (bad_key sid key = false <-> sid <> "" /\ key <> "") as Hb by (unfold bad_key; rewrite orb_false_iff, !String.eqb_neq; done).
    destruct (decide (bad_key sid key = false /\ s = sid /\ k = key)) as [(Hk & Hs)|Hn].
    + rewrite decide_True by (apply Hb in Hk; tauto). done.
    + rewrite decide_False by (intros (? & ? & ?); apply Hn; split; [by apply Hb|done]). apply Hvw.
  - case_decide; [done|apply Hvw].
  - case_decide; [done|apply Hvw].
Qed.

Lemma stored_expires now e : IsExpired now (stored_as e) = false <-> (now <= fst e + ten_minutes)%Z.
Proof. unfold IsExpired, stored_as, ten_minutes. cbn. rewrite Z.ltb_ge. lia. Qed.

Lemma kept_exists (P : SessionFact -> Prop) ops now s k :
  (exists sf, foldl spec_step (fun _ _ => None) ops s k = Some sf /\ IsExpired now sf = false /\ P sf) <->
  (exists put f, kept ops s k = Some (put, f) /\ (now <= put + ten_minutes)%Z /\ P (stored_as (put, f))).
Proof.
  rewrite spec_kept. split.
  - intros (sf & Hsf & He & HP). apply fmap_Some in Hsf as ([put f] & -> & ->). apply stored_expires in He. by exists put, f.
  - intros (put & f & -> & He & HP). exists (stored_as (put, f)). split_and!; [done|by apply stored_expires|done].
Qed.

(** C39: The transient store is a map with deadlines, isolated by session: after
    any sequence of puts, deletions and cleared sessions, a key of a session
    reads exactly the last fact put for that session and key (both non-empty)
    and not removed since, with the time of that put, as long as no more than
    ten minutes have passed since; the atoms of a session are exactly those of
    such facts of it, and listing fails exactly for a session that holds no
    fact at all, whether in time or not. *)
Theorem transient_store_refines (fmt : Z -> string) (ops : list TOp) :
  exists t, foldl t_step (Some NewTransientFactsStore) ops = Some t /\
    (forall now s k f, TransientFactsStore_Get fmt now s k t = Ok f <->
       exists put g, kept ops s k = Some (put, g) /\ (now <= put + ten_minutes)%Z /\
         f = {| tf_Subject := tf_Subject g; tf_Predicate := tf_Predicate g; tf_Object := tf_Object g; tf_Graph := tf_Graph g;
                tf_CreatedAt := fmt put |}) /\
    (forall now s, is_ok (TransientFactsStore_ToAtoms now s t) = true <-> exists k, is_Some (kept ops s k)) /\
    (forall now s atoms, TransientFactsStore_ToAtoms now s t = Ok atoms ->
       forall a, a ∈ atoms <-> exists k put g, kept ops s k = Some (put, g) /\ (now <= put + ten_minutes)%Z /\
         a = {| oa_Predicate := tf_Predicate g; oa_Subject := tf_Subject g; oa_Object := tf_Object g; oa_Weight := f_zero; oa_OriginIntent := "" |}).
Proof.
  destruct (t_run_refines ops _ _ new_refines) as (t & Ht & [Hok _ _ Hv]). exists t. split; [done|]. split_and!.
  - intros. rewrite transient_Get_ok by done. setoid_rewrite Hv. apply (kept_exists (fun sf => f = transient_fact fmt sf)).
  - intros. rewrite ToAtoms_defined by done. setoid_rewrite Hv. setoid_rewrite spec_kept. by setoid_rewrite fmap_is_Some.
  - intros now s atoms Hat a. rewrite (ToAtoms_elems _ _ _ _ Hok Hat). setoid_rewrite Hv.
    split; intros [k Hk]; exists k; by apply (kept_exists (fun sf => a = fact_atom sf)).
Qed.

(** ** Removing expired facts *)

Definition dead (now : Z) (h : FactHeap) (p : nat) : bool := IsExpired now (deref h p).

Lemma clean_entries now h l m n k :
  let r := foldl (clean_entry now h) (m, n) l in
  fst r !! k = (if existsb (fun e => String.eqb (fst e) k && dead now h (snd e)) l then None else m !! k) /\
  snd r = (n + Z.of_nat (List.length (List.filter (fun e => dead now h (snd e)) l)))%Z.
Proof.
  revert m n. induction l as [|[k' p'] l IH]; intros m n; simpl; [split; [done|lia]|].
  unfold clean_entry at 2 4. simpl. fold (dead now h p'). destruct (dead now h p') eqn:Hd; simpl in *.
  - destruct (IH (delete k' m) (n + 1)%Z) as [I1 I2]. rewrite I1, I2. split; [|lia].
    destruct (String.eqb_spec k' k) as [->|Hk]; simpl.
    + rewrite lookup_delete_eq. by destruct (existsb _ _).
    + by rewrite lookup_delete_ne.
  - destruct (IH m n) as [I1 I2]. rewrite I1, I2, andb_false_r. done.
Qed.

(** One session without its expired entries. *)
Definition alive (now : Z) (h : FactHeap) (m : gmap string nat) : gmap string nat :=
  base.filter (fun e : string * nat => dead now h (snd e) = false) m.

Lemma lookup_alive now h m k :
  alive now h m !! k = match m !! k with Some p => if dead now h p then None else Some p | None => None end.
Proof.
  unfold alive. rewrite map_lookup_filter. destruct (m !! k) as [p|]; simpl; [|done].
  destruct (dead now h p) eqn:Hd; [by rewrite option_guard_False by (simpl; congruence)|by rewrite option_guard_True].
Qed.

Lemma clean_session_map now h m n :
  foldl (clean_entry now h) (m, n) (range m)
  = (alive now h m, (n + Z.of_nat (List.length (List.filter (fun e => dead now h (snd e)) (range m))))%Z).
Proof.
  rewrite (surjective_pairing (foldl _ _ _)). f_equal; [|apply (clean_entries now h (range m) m n "")].
  apply map_eq. intros k. rewrite (proj1 (clean_entries now h (range m) m n k)), lookup_alive.
  destruct (existsb _ (range m)) eqn:He.
  - apply existsb_exists in He as ([k' p] & Hin & [Hk Hd]%andb_true_iff). apply String.eqb_eq in Hk. simpl in *. subst k'.
    apply list_elem_of_In, elem_of_range in Hin. by rewrite Hin, Hd.
  - destruct (m !! k) as [p|] eqn:Hk; [|done]. destruct (dead now h p) eqn:Hd; [|done].
    assert (existsb (fun e => String.eqb (fst e) k && dead now h (snd e)) (range m) = true); [|congruence].
    apply existsb_exists. exists (k, p). rewrite <- list_elem_of_In, elem_of_range. simpl. by rewrite String.eqb_refl, Hd.
Qed.

(** The expired entries of the store. *)
Definition expired_entries (now : Z) (h : FactHeap) (l : list (string * gmap string nat)) : list (string * nat) :=
  l ≫= fun e => List.filter (fun e => dead now h (snd e)) (range (snd e)).

Definition cleaned (now : Z) (h : FactHeap) (m : gmap string nat) : option (gmap string nat) :=
  if decide (alive now h m = ∅) then None else Some (alive now h m).

Definition set_cleaned (now : Z) (h : FactHeap) (s : string) (m : gmap string nat) (M : gmap string (gmap string nat))
  : gmap string (gmap string nat) :=
  if decide (alive now h m = ∅) then delete s M else <[s := alive now h m]> M.

Lemma lookup_set_cleaned now h s m M sid :
  set_cleaned now h s m M !! sid = if decide (sid = s) then cleaned now h m else M !! sid.
Proof.
  unfold set_cleaned, cleaned. destruct (decide (sid = s)) as [->|Hne]; case_decide;
    by rewrite ?lookup_delete_eq, ?lookup_insert_eq, ?lookup_delete_ne, ?lookup_insert_ne.
Qed.

Lemma clean_sessions now h l M n :
  NoDup l.*1 ->
  let r := foldl (clean_session now h) (M, n) l in
  (forall sid m, (sid, m) ∈ l -> fst r !! sid = cleaned now h m) /\
  (forall sid, sid ∉ l.*1 -> fst r !! sid = M !! sid) /\
  snd r = (n + Z.of_nat (List.length (expired_entries now h l)))%Z.
Proof.
  revert M n. induction l as [|[s m] l IH]; intros M n Hnd; cbn [foldl].
  { split_and!; [by intros ? ? ?%not_elem_of_nil|done|simpl; lia]. }
  apply NoDup_cons in Hnd as [Hs Hnd]. simpl in Hs.
  unfold clean_session at 2 4 6. cbn [fst snd]. rewrite clean_session_map. fold (set_cleaned now h s m M).
  destruct (IH (set_cleaned now h s m M)
              (n + Z.of_nat (List.length (List.filter (fun e => dead now h (snd e)) (range m))))%Z Hnd) as (I1 & I2 & I3).
  split_and!.
  - intros sid m' [[= -> ->]|Hin]%elem_of_cons; [|by apply I1].
    rewrite I2 by done. by rewrite lookup_set_cleaned, decide_True.
  - intros sid Hsid. rewrite fmap_cons, not_elem_of_cons in Hsid. destruct Hsid as [Hne Hin]. simpl in Hne.
    rewrite I2 by done. by rewrite lookup_set_cleaned, decide_False.
  - rewrite I3. unfold expired_entries. cbn [mbind list_bind]. rewrite length_app. simpl. lia.
Qed.

Lemma lookup_CleanupExpired now h st sid :
  ss_sessions (fst (CleanupExpired now h st)) !! sid = ss_sessions st !! sid ≫= cleaned now h.
Proof.
  unfold CleanupExpired.
  destruct (clean_sessions now h (range (ss_sessions st)) (ss_sessions st) 0 (NoDup_range _)) as (H1 & H2 & _).
  destruct (foldl _ _ _) as [M n]. simpl in *. destruct (ss_sessions st !! sid) as [m|] eqn:Hm; simpl.
  - apply H1. by apply elem_of_range.
  - rewrite <- Hm. apply H2. intros ([? m] & -> & Hin%elem_of_range)%list_elem_of_fmap. simpl in *. congruence.
Qed.

Lemma cell_CleanupExpired now h st sid k :
  cell (fst (CleanupExpired now h st)) sid k
  = match cell st sid k with Some p => if dead now h p then None else Some p | None => None end.
Proof.
  unfold cell. rewrite lookup_CleanupExpired. destruct (ss_sessions st !! sid) as [m|]; [|done]. simpl.
  rewrite <- lookup_alive. unfold cleaned. case_decide as He; simpl; [by rewrite He, lookup_empty|done].
Qed.

Lemma expired_later now now' f : (now <= now')%Z -> IsExpired now f = true -> IsExpired now' f = true.
Proof.
  unfold IsExpired. destruct (_ <=? _)%Z; [done|]. rewrite !Z.ltb_lt. lia.
Qed.

(** Removing expired facts is invisible: [CleanupExpired] keeps the store
    well formed (no empty session, every stored pointer allocated), counts
    exactly the expired entries, and from then on every read answers with the
    same fact, or fails, as it would have without it. *)
Theorem CleanupExpired_transparent (now : Z) (h : FactHeap) (st : SessionStore) :
  store_ok h st ->
  let '(st', n) := CleanupExpired now h st in
  store_ok h st' /\
  n = Z.of_nat (List.length (expired_entries now h (range (ss_sessions st)))) /\
  forall now' sid k p, (now <= now')%Z ->
    SessionStore_Get now' sid k h st' = Ok p <-> SessionStore_Get now' sid k h st = Ok p.
Proof.
  intros [Hn Ha].
  pose proof (lookup_CleanupExpired now h st) as Hl. pose proof (cell_CleanupExpired now h st) as Hc.
  assert (snd (CleanupExpired now h st) = Z.of_nat (List.length (expired_entries now h (range (ss_sessions st))))) as Hcount.
  { unfold CleanupExpired.
    destruct (clean_sessions now h (range (ss_sessions st)) (ss_sessions st) 0 (NoDup_range _)) as (_ & _ & H3).
    by destruct (foldl _ _ _). }
  destruct (CleanupExpired now h st) as [st' n]. simpl in *. split; [split|split; [done|]].
  - intros sid m. rewrite Hl. intros (m0 & Hm0 & Hm)%bind_Some. unfold cleaned in Hm. case_decide; by simplify_eq.
  - intros sid k p. rewrite Hc. intros Hp. apply (Ha sid k). destruct (cell st sid k); [|done]. by destruct (dead _ _ _); simplify_eq.
  - intros now' sid k p Hle. rewrite !Get_ok, Hc. destruct (cell st sid k) as [q|]; [|done].
    destruct (dead now h q) eqn:Hd; [|done]. apply (expired_later _ now') in Hd; [|done].
    split; [by intros [? _]|]. intros [[= ->] ?]. unfold dead in *. congruence.
Qed.
End Ranges.

(** ** The store under the OODA loop *)

(** A fact that was just put is read back until its time to live has passed. *)
Lemma put_get fmt now sid key f t t' err now' :
  TransientFactsStore_Put now sid key f t = Some (t', err) -> bad_key sid key = false ->
  ss_ttl (tfs_store t) = ss_ttl NewSessionStore -> (now' <= now + ss_ttl NewSessionStore)%Z ->
  TransientFactsStore_Get fmt now' sid key t'
  = Ok {| tf_Subject := tf_Subject f; tf_Predicate := tf_Predicate f; tf_Object := tf_Object f; tf_Graph := tf_Graph f;
          tf_CreatedAt := fmt now |}.
Proof.
  unfold TransientFactsStore_Put, SessionStore_Put. intros Hput Hb Httl Hle.
  rewrite Hb, lookup_insert_eq in Hput. cbn [mbind option_bind] in Hput. injection Hput as <- _.
  set (p := fresh _). set (sf := stamp now (ss_ttl (tfs_store t)) (session_fact f)).
  unfold TransientFactsStore_Get. cbn [tfs_heap tfs_store]. fold sf.
  assert (deref (<[p := sf]> (<[p := session_fact f]> (tfs_heap t))) p = sf) as Hd by (unfold deref; by rewrite lookup_insert_eq).
  assert (SessionStore_Get now' sid key (<[p := sf]> (<[p := session_fact f]> (tfs_heap t)))
            (with_sessions (<[sid := <[key := p]> (default ∅ (ss_sessions (tfs_store t) !! sid))]> (ss_sessions (tfs_store t))) (tfs_store t))
          = Ok p) as ->.
  { apply Get_ok. rewrite Hd. unfold with_sessions. rewrite cell_put, decide_True by done. split; [done|].
    unfold IsExpired, sf. simpl. rewrite Httl. simpl. apply Z.ltb_ge. simpl in Hle. lia. }
  cbn [res_bind]. by rewrite Hd.
Qed.

Lemma store_result_put {W : Type} (P : Ports W) render ts d a result f w w' :
  po_TransientStore P = Some ts -> d_Action d = Some a -> is_nil result = false ->
  String.eqb (fc_SessionID (fr_cfg f)) "" = false -> store_result P render d result f w = Some w' ->
  exists err, ts_Put ts (if String.eqb (ac_SessionID a) "" then fc_SessionID (fr_cfg f) else ac_SessionID a)
                ("action_result_" +:+ ac_Name a)
                {| tf_Subject := "action"; tf_Predicate := ac_Name a; tf_Object := fmt_v render result;
                   tf_Graph := "session"; tf_CreatedAt := "" |} w = (w', err).
Proof.
  intros Hts Ha Hr Hs. unfold store_result. rewrite Hts, Hs, Hr, Ha. simpl. intros [= <-].
  destruct (ts_Put _ _ _ _ _) as [w1 err]. by exists err.
Qed.

(** What an action produced is there for the next phase: after a
    successful [Act] of a frame with a session, over a world whose tools may
    have done anything, the store holds the text of the result under
    [action_result_] and the name of the action, in the action's session or
    else the frame's, for ten minutes. *)
Theorem act_result_retrievable `{GoRange} {X : Type} (P : Ports (StoreWorld X)) (render : GoVal -> string) (fmt : Z -> string)
    (f f' : CognitiveFrame) (w : StoreWorld X) (now now' : Z) (t : TransientFactsStore) (x : X)
    (d : Decision) (a : ActionEnvelope) :
  po_TransientStore P = Some (transient_port X) -> Act P render f w = Some (f', (now, t, x), None) ->
  fr_Decision f = Some d -> d_Action d = Some a -> is_nil (fr_ActionResult f') = false ->
  fc_SessionID (fr_cfg f') <> "" -> ss_ttl (tfs_store t) = ss_ttl NewSessionStore ->
  (now' <= now + ss_ttl NewSessionStore)%Z ->
  TransientFactsStore_Get fmt now'
    (if String.eqb (ac_SessionID a) "" then fc_SessionID (fr_cfg f') else ac_SessionID a) ("action_result_" +:+ ac_Name a) t
  = Ok {| tf_Subject := "action"; tf_Predicate := ac_Name a; tf_Object := fmt_v render (fr_ActionResult f');
          tf_Graph := "session"; tf_CreatedAt := fmt now |}.
Proof.
  intros Hts Hact Hd Ha Hnil Hsid Httl Hle. unfold Act in Hact.
  assert (fr_Decision (with_Phase PhaseAct f) = Some d) as Hd' by done. rewrite Hd' in Hact.
  destruct (executeAction P d (with_Phase PhaseAct f) w) as [[f1 w1] [result|e]]; [|by simplify_eq].
  apply bind_Some in Hact as (w2 & Hst & Hact). injection Hact as <- ->. simpl in Hnil, Hsid.
  destruct w1 as [[now1 t1] x1].
  eapply store_result_put in Hst as [err Hput]; [|done..|by apply String.eqb_neq].
  cbn [transient_port ts_Put] in Hput.
  set (sid := if String.eqb (ac_SessionID a) "" then fc_SessionID (fr_cfg f1) else ac_SessionID a) in *.
  change (fc_SessionID (fr_cfg (with_ActionResult result f1))) with (fc_SessionID (fr_cfg f1)) in *. fold sid in Hput.
  assert (bad_key sid ("action_result_" +:+ ac_Name a) = false) as Hbad.
  { unfold bad_key, sid. destruct (String.eqb_spec (ac_SessionID a) ""); apply orb_false_iff; split; try done;
      by apply String.eqb_neq. }
  destruct (TransientFactsStore_Put now1 sid ("action_result_" +:+ ac_Name a) _ t1) as [[t2 err2]|] eqn:Hp.
  2: { unfold TransientFactsStore_Put, SessionStore_Put in Hp. rewrite Hbad, lookup_insert_eq in Hp. done. }
  injection Hput as -> -> -> _. pose proof Hp as Hp'.
  eapply put_get in Hp; [exact Hp|done| |done].
  unfold TransientFactsStore_Put, SessionStore_Put in Hp'. rewrite Hbad, lookup_insert_eq in Hp'.
  cbn [mbind option_bind] in Hp'. by simplify_eq/=.
Qed.

(** A new session cannot be started: with the transient store and no
    knowledge store, [Run] of a frame whose session holds no fact yet ends in
    the orient phase with the session not found, before anything was decided
    or executed, because listing the facts of an unknown session is an error. *)
Theorem fresh_session_run_fails `{GoRange} {X : Type} (P : Ports (StoreWorld X)) (lower : string -> string)
    (render : GoVal -> string) (ctx : Z -> option error)
    (f : CognitiveFrame) (now : Z) (t : TransientFactsStore) (x : X) :
  po_TransientStore P = Some (transient_port X) -> po_KnowledgeStore P = None ->
  fc_SessionID (fr_cfg f) <> "" -> ss_sessions (tfs_store t) !! fc_SessionID (fr_cfg f) = None ->
  exists f', Run P lower render ctx f (now, t, x)
    = Some (f', (now, t, x), Some (EWrap "orient phase failed: " (EWrap "failed to recall from transient store: "
        (EText ("session " +:+ fc_SessionID (fr_cfg f) +:+ " not found"))))) /\
    fr_Decision f' = fr_Decision f /\ fr_ActionResult f' = fr_ActionResult f.
Proof.
  intros Hts Hks Hsid Hnone. unfold Run, then_ at 1, observe. cbn [mbind option_bind].
  set (f1 := record PhaseObserve _).
  assert (fr_cfg f1 = fr_cfg f /\ fr_Decision f1 = fr_Decision f /\ fr_ActionResult f1 = fr_ActionResult f) as (Hc & Hd & Ha).
  { unfold f1. destruct (String.eqb _ _); done. }
  clearbody f1. unfold then_ at 1, Orient, and_then, optionally. rewrite Hks, Hts. cbn [mbind option_bind].
  change (fr_cfg (with_Phase PhaseOrient f1)) with (fr_cfg f1). rewrite Hc.
  rewrite (proj2 (String.eqb_neq _ _) Hsid). cbn [transient_port ts_ToAtoms].
  unfold TransientFactsStore_ToAtoms, ToAtoms, GetAll. rewrite Hnone. cbn [res_bind recall mbind option_bind].
  eexists. split; [done|]. done.
Qed.

(** ** Sharing *)

(** A fact put twice is one fact: putting the same pointer under a second
    session restamps it for the first one too, which keeps answering for a
    full time to live after the second put. *)
Theorem shared_fact_restamped (h h1 h2 : FactHeap) (s s1 s2 : SessionStore) (p : nat) (t1 t2 now : Z)
    (sid1 key1 sid2 key2 : string) (f : SessionFact) :
  SessionStore_Put t1 sid1 key1 p h s = Some (h1, s1, None) ->
  SessionStore_Put t2 sid2 key2 p h1 s1 = Some (h2, s2, None) ->
  h !! p = Some f -> (sf_TTL f <= 0 < ss_ttl s)%Z -> (now <= t2 + ss_ttl s)%Z ->
  SessionStore_Get now sid1 key1 h2 s2 = Ok p.
Proof.
  unfold SessionStore_Put. intros H1 H2 Hp Httl Hnow. destruct (bad_key sid1 key1); [done|]. rewrite Hp in H1.
  destruct (bad_key sid2 key2); [done|]. cbn [mbind option_bind] in H1. injection H1 as <- <-.
  rewrite lookup_insert_eq in H2. cbn [mbind option_bind] in H2. injection H2 as <- <-.
  apply Get_ok. unfold with_sessions. rewrite cell_put. cbn [ss_sessions ss_ttl]. split.
  - case_decide; [done|]. by rewrite cell_put, decide_True.
  - unfold deref. rewrite lookup_insert_eq. unfold IsExpired, stamp. simpl.
    destruct (Z.leb_spec (sf_TTL f) 0); [|lia]. destruct (Z.leb_spec (ss_ttl s) 0); [lia|].
    destruct (Z.leb_spec (ss_ttl s) 0); [lia|]. apply Z.ltb_ge. lia.
Qed.

(** ** Witnesses *)

Definition a_fact : SessionFact := NewSessionFact "s" "p" "o" "session" 0.

Definition two_facts : list TOp :=
  [TPut 5 "a" "k" {| tf_Subject := "s"; tf_Predicate := "p"; tf_Object := "o"; tf_Graph := "g"; tf_CreatedAt := "" |};
   TPut 7 "b" "k" {| tf_Subject := "x"; tf_Predicate := "p"; tf_Object := "y"; tf_Graph := "g"; tf_CreatedAt := "" |}; TDelete "b" "k"].

Lemma transient_store_refines_witness :
  exists t, foldl t_step (Some NewTransientFactsStore) two_facts = Some t /\
    TransientFactsStore_Get pretty 600000000005 "a" "k" t
    = Ok {| tf_Subject := "s"; tf_Predicate := "p"; tf_Object := "o"; tf_Graph := "g"; tf_CreatedAt := "5" |} /\
    (forall f, TransientFactsStore_Get pretty 600000000006 "a" "k" t <> Ok f) /\
    (forall f, TransientFactsStore_Get pretty 7 "b" "k" t <> Ok f).
Proof.
  destruct (transient_store_refines (H := stored_order) pretty two_facts) as (t & Ht & Hg & _). exists t. split_and!; [done|..].
  - apply Hg. eexists 5%Z, _. split; [by vm_compute|]. split; [unfold ten_minutes; lia|by_vm].
  - intros f (put & g & Hk & Hle & _)%Hg. vm_compute in Hk. injection Hk as <- _. unfold ten_minutes in Hle. lia.
  - intros f (put & g & Hk & _)%Hg. by vm_compute in Hk.
Defined.

Lemma CleanupExpired_transparent_witness :
  exists h st, SessionStore_Put 0 "a" "k" 1 {[1 := a_fact]} NewSessionStore = Some (h, st, None) /\
  let '(st', n) := CleanupExpired (H := stored_order) 700000000000 h st in
  store_ok h st' /\
  n = Z.of_nat (List.length (expired_entries (H := stored_order) 700000000000 h (range (GoRange := stored_order) (ss_sessions st)))) /\
  forall now' sid k p, (700000000000 <= now')%Z ->
    SessionStore_Get now' sid k h st' = Ok p <-> SessionStore_Get now' sid k h st = Ok p.
Proof.
  eexists _, _. split; [reflexivity|].
  apply (CleanupExpired_transparent (H := stored_order) 700000000000).
  eapply (put_ok 0 "a" "k" 1 {[1 := a_fact]} NewSessionStore); [reflexivity|].
  split; unfold cell; simpl; intros; by rewrite ?lookup_empty in *.
Defined.

(** A frame with a session, the tool [ping] and the transient store. *)
Definition session_tool : ToolFunc (StoreWorld unit) := fun _ w => (w, ("pong", None)).
Definition session_builder : Builder (StoreWorld unit) :=
  set_TransientStore (transient_port (H := stored_order) unit)
    (WithRegistry {["ping" := Some session_tool]} (Builder_WithSessionID "s1" (WithInput "hi" (NewBuilder "id")))).
Definition session_frame : CognitiveFrame := assign_decision (Some ping_decision) (fst (Build session_builder)).

Lemma act_result_retrievable_witness :
  exists f' t, Act (snd (Build session_builder)) (fun _ => "") session_frame (0%Z, NewTransientFactsStore, tt)
    = Some (f', (0%Z, t, tt), None) /\
  TransientFactsStore_Get (fun _ => "now") 600000000000 "s1" "action_result_ping" t
  = Ok {| tf_Subject := "action"; tf_Predicate := "ping"; tf_Object := "pong"; tf_Graph := "session"; tf_CreatedAt := "now" |}.
Proof.
  exists (record PhaseAct (with_ActionResult (GStr "pong") (with_Phase PhaseAct session_frame))). eexists. split; [reflexivity|].
  refine (act_result_retrievable (H := stored_order) (snd (Build session_builder)) (fun _ => "") (fun _ => "now") session_frame
            (record PhaseAct (with_ActionResult (GStr "pong") (with_Phase PhaseAct session_frame)))
            (0%Z, NewTransientFactsStore, tt) 0 600000000000 _ tt ping_decision ping _ _ _ _ _ _ _ _);
    [reflexivity..|discriminate|reflexivity|simpl; lia].
Defined.

Lemma fresh_session_run_fails_witness :
  exists f', Run (snd (Build session_builder)) id (fun _ => "") (fun _ => None) (fst (Build session_builder)) (0%Z, NewTransientFactsStore, tt)
    = Some (f', (0%Z, NewTransientFactsStore, tt),
        Some (EWrap "orient phase failed: " (EWrap "failed to recall from transient store: " (EText "session s1 not found")))) /\
   fr_Decision f' = None /\ fr_ActionResult f' = GNil.
Proof.
  apply (fresh_session_run_fails (H := stored_order) (snd (Build session_builder)) id (fun _ => "") (fun _ => None)
           (fst (Build session_builder)) 0 NewTransientFactsStore tt); [reflexivity|reflexivity|discriminate|reflexivity].
Defined.

Lemma shared_fact_restamped_witness :
  exists h1 s1 h2 s2,
    SessionStore_Put 0 "a" "k" 1 {[1 := a_fact]} NewSessionStore = Some (h1, s1, None) /\
    SessionStore_Put 900 "b" "k" 1 h1 s1 = Some (h2, s2, None) /\
    SessionStore_Get 600000000900 "a" "k" h2 s2 = Ok 1.
Proof.
  eexists _, _, _, _. split; [reflexivity|split; [reflexivity|]].
  refine (shared_fact_restamped {[1 := a_fact]} _ _ NewSessionStore _ _ 1 0 900 600000000900 "a" "k" "b" "k" a_fact
            _ _ _ _ _); [reflexivity|reflexivity|reflexivity|simpl; lia|simpl; lia].
Defined.
