(* ===== verification/WorkflowDef.v ===== *)
(** * Workflow definitions and instances

    [core/workflow.go]: the immutable definition of a workflow graph and the
    instance that records the progress of one session through it, and
    [sdk/ports/session_store.go], the in-memory store of instances.  The store
    keeps pointers, so instances live in a heap shared with whoever created
    them.  Time stamps are dropped; [range] is any map iteration order. *)
From S2P Require Import Prelude GoStrings CoreErrors Facts Workflow.
From Stdlib Require Import Ascii String.
Open Scope string_scope.

(** ** Definitions *)

Record NodeDef := { nd_ID : string; nd_AgentRole : string; nd_TaskType : string; nd_Config : gmap string WValue }.
Record EdgeDef := { ed_From : string; ed_To : string; ed_Condition : string }.
Record WorkflowDef := {
  wd_ID : string;
  wd_Name : string;
  wd_Version : string;
  wd_RootNodeID : string;
  wd_Nodes : gmap string NodeDef;
  wd_Edges : list EdgeDef
}.

Definition GetNode (wd : WorkflowDef) (nodeID : string) : option NodeDef := wd_Nodes wd !! nodeID.

Definition GetOutgoingEdges (wd : WorkflowDef) (nodeID : string) : list EdgeDef :=
  List.filter (fun e => String.eqb (ed_From e) nodeID) (wd_Edges wd).

Definition hasIncoming (wd : WorkflowDef) (id : string) : bool :=
  existsb (fun e => String.eqb (ed_To e) id) (wd_Edges wd).

(** [if best == nil || id < best.ID { best = node }]; the key is compared with
    the [ID] of the best node so far. *)
Definition pick (best : option NodeDef) (e : string * NodeDef) : option NodeDef :=
  match best with
  | None => Some (snd e)
  | Some b => if String.ltb (fst e) (nd_ID b) then Some (snd e) else Some b
  end.

Definition FindStartNode `{GoRange} (wd : WorkflowDef) : option NodeDef :=
  match (if String.eqb (wd_RootNodeID wd) "" then None else GetNode wd (wd_RootNodeID wd)) with
  | Some n => Some n
  | None =>
      match foldl pick None (List.filter (fun e => negb (hasIncoming wd (fst e))) (range (wd_Nodes wd))) with
      | Some best => Some best
      | None => foldl pick None (range (wd_Nodes wd))
      end
  end.

(** [WorkflowDef.Validate]; the error is the text of [ValidationError]. *)
Definition unknown_node (id : string) : error := EText ("edge" +:+ ": " +:+ "edge references unknown node: " +:+ id).

Fixpoint check_edges (wd : WorkflowDef) (edges : list EdgeDef) : option error :=
  match edges with
  | [] => None
  | e :: rest =>
      match wd_Nodes wd !! ed_From e, wd_Nodes wd !! ed_To e with
      | None, _ => Some (unknown_node (ed_From e))
      | Some _, None => Some (unknown_node (ed_To e))
      | Some _, Some _ => check_edges wd rest
      end
  end.

Definition WorkflowDef_Validate (wd : option WorkflowDef) : option error :=
  match wd with
  | None => None
  | Some wd => if decide (wd_Nodes wd = ∅) then None else check_edges wd (wd_Edges wd)
  end.

(** ** Instances *)

Inductive WorkflowInstanceStatus :=
| WorkflowInstanceStatusPending
| WorkflowInstanceStatusRunning
| WorkflowInstanceStatusPaused
| WorkflowInstanceStatusCompleted
| WorkflowInstanceStatusFailed.

Record WorkflowInstance := {
  wi_WorkflowID : string;
  wi_SessionID : string;
  wi_CurrentNodeID : string;
  wi_Variables : gmap string WValue;
  wi_Metadata : gmap string string;
  wi_LoopCounters : gmap string Z;
  wi_CompletedNodes : list string;
  wi_FailedNodes : list string;
  wi_Status : WorkflowInstanceStatus
}.

Definition NewWorkflowInstance (workflowID sessionID : string) : WorkflowInstance :=
  {| wi_WorkflowID := workflowID; wi_SessionID := sessionID; wi_CurrentNodeID := ""; wi_Variables := ∅;
     wi_Metadata := ∅; wi_LoopCounters := ∅; wi_CompletedNodes := []; wi_FailedNodes := [];
     wi_Status := WorkflowInstanceStatusPending |}.

Definition wi_progress (current : string) (completed failed : list string) (wi : WorkflowInstance) : WorkflowInstance :=
  {| wi_WorkflowID := wi_WorkflowID wi; wi_SessionID := wi_SessionID wi; wi_CurrentNodeID := current;
     wi_Variables := wi_Variables wi; wi_Metadata := wi_Metadata wi; wi_LoopCounters := wi_LoopCounters wi;
     wi_CompletedNodes := completed; wi_FailedNodes := failed; wi_Status := wi_Status wi |}.

Definition set_status (s : WorkflowInstanceStatus) (wi : WorkflowInstance) : WorkflowInstance :=
  {| wi_WorkflowID := wi_WorkflowID wi; wi_SessionID := wi_SessionID wi; wi_CurrentNodeID := wi_CurrentNodeID wi;
     wi_Variables := wi_Variables wi; wi_Metadata := wi_Metadata wi; wi_LoopCounters := wi_LoopCounters wi;
     wi_CompletedNodes := wi_CompletedNodes wi; wi_FailedNodes := wi_FailedNodes wi; wi_Status := s |}.

Definition wi_maps (vars : gmap string WValue) (counters : gmap string Z) (wi : WorkflowInstance) : WorkflowInstance :=
  {| wi_WorkflowID := wi_WorkflowID wi; wi_SessionID := wi_SessionID wi; wi_CurrentNodeID := wi_CurrentNodeID wi;
     wi_Variables := vars; wi_Metadata := wi_Metadata wi; wi_LoopCounters := counters;
     wi_CompletedNodes := wi_CompletedNodes wi; wi_FailedNodes := wi_FailedNodes wi; wi_Status := wi_Status wi |}.

Definition IsNodeCompleted (wi : WorkflowInstance) (nodeID : string) : bool :=
  existsb (fun n => String.eqb n nodeID) (wi_CompletedNodes wi).

Definition completed_with (wi : WorkflowInstance) (nodeID : string) : list string :=
  if IsNodeCompleted wi nodeID then wi_CompletedNodes wi else (wi_CompletedNodes wi ++ [nodeID])%list.

Definition SetCurrentNode (nodeID : string) (wi : WorkflowInstance) : WorkflowInstance :=
  wi_progress nodeID
    (if String.eqb (wi_CurrentNodeID wi) "" then wi_CompletedNodes wi else completed_with wi (wi_CurrentNodeID wi))
    (wi_FailedNodes wi) wi.

Definition MarkNodeCompleted (nodeID : string) (wi : WorkflowInstance) : WorkflowInstance :=
  wi_progress (wi_CurrentNodeID wi) (completed_with wi nodeID) (wi_FailedNodes wi) wi.

Definition MarkNodeFailed (nodeID : string) (wi : WorkflowInstance) : WorkflowInstance :=
  wi_progress (wi_CurrentNodeID wi) (wi_CompletedNodes wi) (wi_FailedNodes wi ++ [nodeID])%list wi.

(** An [int] incremented. *)
Definition int_succ (n : Z) : Z := ((n + 1 + 2 ^ 63) mod 2 ^ 64 - 2 ^ 63)%Z.

Definition GetCounter (name : string) (wi : WorkflowInstance) : Z := default 0%Z (wi_LoopCounters wi !! name).

Definition IncrementCounter (name : string) (wi : WorkflowInstance) : WorkflowInstance * Z :=
  let n := int_succ (GetCounter name wi) in
  (wi_maps (wi_Variables wi) (<[name := n]> (wi_LoopCounters wi)) wi, n).

Definition SetVariable (key : string) (value : WValue) (wi : WorkflowInstance) : WorkflowInstance :=
  wi_maps (<[key := value]> (wi_Variables wi)) (wi_LoopCounters wi) wi.

Definition GetVariable (key : string) (wi : WorkflowInstance) : WValue := default WNil (wi_Variables wi !! key).

Definition SessionKey (wi : WorkflowInstance) : string := wi_SessionID wi +:+ ":" +:+ wi_WorkflowID wi.

(** ** The store of instances *)

Notation InstHeap := (gmap nat WorkflowInstance).

Record InMemorySessionStore := {
  is_sessions : gmap string nat;              (* session key to instance *)
  is_bySession : gmap string (list string)    (* session id to session keys *)
}.

Definition NewInMemorySessionStore : InMemorySessionStore := {| is_sessions := ∅; is_bySession := ∅ |}.

(** [instance == nil] is a pointer that is not allocated. *)
Definition InMemorySessionStore_Create (p : nat) (h : InstHeap) (s : InMemorySessionStore) : InMemorySessionStore * option error :=
  match h !! p with
  | None => (s, Some (EText "instance cannot be nil"))
  | Some wi =>
      let key := SessionKey wi in
      match is_sessions s !! key with
      | Some _ => (s, Some (EText ("instance " +:+ key +:+ " already exists")))
      | None =>
          ({| is_sessions := <[key := p]> (is_sessions s);
              is_bySession := <[wi_SessionID wi := (default [] (is_bySession s !! wi_SessionID wi) ++ [key])%list]>
                                (is_bySession s) |}, None)
      end
  end.

Definition InMemorySessionStore_Get (sessionKey : string) (s : InMemorySessionStore) : res error nat :=
  match is_sessions s !! sessionKey with
  | None => Err (EText ("instance " +:+ sessionKey +:+ " not found"))
  | Some p => Ok p
  end.

Definition InMemorySessionStore_Update (p : nat) (h : InstHeap) (s : InMemorySessionStore) : InMemorySessionStore * option error :=
  match h !! p with
  | None => (s, Some (EText "instance cannot be nil"))
  | Some wi =>
      let key := SessionKey wi in
      match is_sessions s !! key with
      | None => (s, Some (EText ("instance " +:+ key +:+ " not found")))
      | Some _ => ({| is_sessions := <[key := p]> (is_sessions s); is_bySession := is_bySession s |}, None)
      end
  end.

Definition InMemorySessionStore_Delete (sessionKey : string) (h : InstHeap) (s : InMemorySessionStore) : InMemorySessionStore :=
  match is_sessions s !! sessionKey ≫= fun p => h !! p with
  | None => s
  | Some wi =>
      let sid := wi_SessionID wi in
      {| is_sessions := delete sessionKey (is_sessions s);
         is_bySession :=
           match is_bySession s !! sid with
           | None => is_bySession s
           | Some keys =>
               let remaining := List.filter (fun k => negb (String.eqb k sessionKey)) keys in
               if decide (remaining = []) then delete sid (is_bySession s) else <[sid := remaining]> (is_bySession s)
           end |}
  end.

Definition InMemorySessionStore_Exists (sessionKey : string) (s : InMemorySessionStore) : bool :=
  bool_decide (is_Some (is_sessions s !! sessionKey)).

Definition InMemorySessionStore_List (sessionID : string) (s : InMemorySessionStore) : list nat :=
  omap (fun key => is_sessions s !! key) (default [] (is_bySession s !! sessionID)).

Definition InMemorySessionStore_ClearSession (sessionID : string) (s : InMemorySessionStore) : InMemorySessionStore :=
  match is_bySession s !! sessionID with
  | None => s
  | Some keys =>
      {| is_sessions := foldl (fun m key => delete key m) (is_sessions s) keys;
         is_bySession := delete sessionID (is_bySession s) |}
  end.

(** What the executor asks of a store of instances ([ports.SessionStateStore]):
    pointers into the heap of instances, which [Get] may extend. *)
Class SessionStateStore (Store : Type) := {
  ss_Get : string -> InstHeap -> Store -> InstHeap * res error nat;
  ss_Create : nat -> InstHeap -> Store -> Store * option error;
  ss_Update : nat -> InstHeap -> Store -> Store * option error
}.

#[global] Instance in_memory_sessions : SessionStateStore InMemorySessionStore := {|
  ss_Get key h s := (h, InMemorySessionStore_Get key s);
  ss_Create := InMemorySessionStore_Create;
  ss_Update := InMemorySessionStore_Update
|}.

Definition Size (s : InMemorySessionStore) : Z := Z.of_nat (size (is_sessions s)).
Definition SessionCount (s : InMemorySessionStore) : Z := Z.of_nat (size (is_bySession s)).
