(* ===== verification/WorkflowDefProps.v ===== *)
(** * Properties of workflow definitions and of the instance store

    The start node does not depend on the iteration order of the node map, a
    validated definition has no dangling edge, and the instance store refines a
    book of one instance per session and workflow, as long as session ids
    contain no colon. *)
From S2P Require Import Prelude GoStrings CoreErrors Facts Workflow WorkflowDef.
From Stdlib Require Import Ascii String.
Open Scope string_scope.

(** ** The start node *)

(** Every node is stored under its own id. *)
Definition keyed (wd : WorkflowDef) : Prop := forall id n, wd_Nodes wd !! id = Some n -> nd_ID n = id.

Lemma ltb_false a b : String.ltb a b = false -> String.le b a.
Proof.
  unfold String.ltb, String.le, String.leb. rewrite (String.compare_antisym a b).
  by destruct (String.compare b a).
Qed.
Lemma ltb_true a b : String.ltb a b = true -> String.le a b.
Proof. unfold String.ltb, String.le, String.leb. by destruct (String.compare a b). Qed.

Lemma pick_some l b :
  (forall e, e ∈ l -> nd_ID (snd e) = fst e) ->
  exists r, foldl pick (Some b) l = Some r /\ (r = b \/ (nd_ID r, r) ∈ l) /\
    String.le (nd_ID r) (nd_ID b) /\ forall e, e ∈ l -> String.le (nd_ID r) (fst e).
Proof.
  revert b. induction l as [|[id n] l IH]; intros b Hl; cbn [foldl].
  { exists b. split_and!; [done|by left|done|by intros ? ?%not_elem_of_nil]. }
  pose proof (Hl (id, n) ltac:(by left)) as Hid. cbn [fst snd] in Hid.
  assert (forall e, e ∈ l -> nd_ID (snd e) = fst e) as Hl' by (intros e He; apply Hl; by right).
  unfold pick at 2. cbn [fst snd]. destruct (String.ltb id (nd_ID b)) eqn:Hlt.
  - destruct (IH n Hl') as (r & Hr & Hin & Hle & Hall). exists r. apply ltb_true in Hlt. rewrite Hid in Hle. split_and!.
    + done.
    + right. destruct Hin as [->|Hin]; [rewrite Hid; by left|by right].
    + by trans id.
    + intros e [->|He]%elem_of_cons; [done|auto].
  - destruct (IH b Hl') as (r & Hr & Hin & Hle & Hall). exists r. apply ltb_false in Hlt. split_and!.
    + done.
    + destruct Hin as [->|Hin]; [by left|right; by right].
    + done.
    + intros e [->|He]%elem_of_cons; [simpl; by trans (nd_ID b)|auto].
Qed.

(** The least entry of a list, by key. *)
Definition least (l : list (string * NodeDef)) (r : option NodeDef) : Prop :=
  match r with
  | None => l = []
  | Some n => (nd_ID n, n) ∈ l /\ forall e, e ∈ l -> String.le (nd_ID n) (fst e)
  end.

Lemma pick_least l : (forall e, e ∈ l -> nd_ID (snd e) = fst e) -> least l (foldl pick None l).
Proof.
  intros Hl. destruct l as [|[id n] l]; [done|].
  change (foldl pick None ((id, n) :: l)) with (foldl pick (Some n) l).
  destruct (pick_some l n) as (r & -> & Hin & Hle & Hall); [intros e He; apply Hl; by right|].
  pose proof (Hl (id, n) ltac:(by left)) as Hid. cbn [fst snd] in Hid. split.
  - destruct Hin as [->|Hin]; [rewrite Hid; by left|by right].
  - intros e [->|He]%elem_of_cons; [simpl; by rewrite <- Hid|auto].
Qed.

Lemma least_unique l1 l2 r1 r2 : l1 ≡ₚ l2 -> NoDup l1.*1 -> least l1 r1 -> least l2 r2 -> r1 = r2.
Proof.
  intros Hp Hnd. destruct r1 as [n1|], r2 as [n2|]; simpl; [| | |done].
  - intros [H1 L1] [H2 L2]. rewrite <- Hp in H2.
    assert (nd_ID n1 = nd_ID n2) as Heq.
    { apply (anti_symm String.le); [apply (L1 _ H2)|]. apply (L2 (nd_ID n1, n1)). by rewrite <- Hp. }
    f_equal. rewrite Heq in H1. revert H1 H2. generalize (nd_ID n2). clear -Hnd. intros key.
    induction l1 as [|[k x] l IH]; [by intros ?%not_elem_of_nil|]. apply NoDup_cons in Hnd as [Hk Hnd]. simpl in Hk.
    assert (forall n, (k, n) ∉ l) as Hkn by (intros n Hn; apply Hk, list_elem_of_fmap; by exists (k, n)).
    intros [[= E1 <-]|H1]%elem_of_cons [[= E2 <-]|H2]%elem_of_cons; subst; [done| | |by apply IH]; by destruct (Hkn _ ltac:(eassumption)).
  - intros [H1 _] ->. apply Permutation_nil_r in Hp as ->. by apply not_elem_of_nil in H1.
  - intros -> [H2 _]. symmetry in Hp. apply Permutation_nil_r in Hp as ->. by apply not_elem_of_nil in H2.
Qed.

Lemma filter_perm {A : Type} (p : A -> bool) l1 l2 : l1 ≡ₚ l2 -> List.filter p l1 ≡ₚ List.filter p l2.
Proof. induction 1 as [|x l1 l2 _ IH|x y l|l1 l2 l3 _ IH1 _ IH2]; simpl; [done| | |by trans (List.filter p l2)].
  - destruct (p x); [by constructor|done].
  - destruct (p x), (p y); try done. constructor.
Qed.

Lemma NoDup_filter_keys (p : string * NodeDef -> bool) l : NoDup l.*1 -> NoDup (List.filter p l).*1.
Proof.
  induction l as [|e l IH]; simpl; [done|]. intros [He Hnd]%NoDup_cons. destruct (p e); simpl; [|by apply IH].
  constructor; [|by apply IH]. intros (x & Hx & Hin)%list_elem_of_fmap. apply He, list_elem_of_fmap. exists x.
  split; [done|]. rewrite list_elem_of_In in *. by apply filter_In in Hin as [? _].
Qed.

Lemma start_node_least (R1 R2 : GoRange) (wd : WorkflowDef) :
  keyed wd ->
  FindStartNode (H := R1) wd = FindStartNode (H := R2) wd /\
  (FindStartNode (H := R1) wd = None <-> wd_Nodes wd = ∅).
Proof.
  intros Hk.
  assert (forall R : GoRange, forall e, e ∈ range (GoRange := R) (wd_Nodes wd) -> nd_ID (snd e) = fst e) as Hr.
  { intros R [id n] He%elem_of_range. by apply Hk. }
  assert (forall R : GoRange, forall e, e ∈ List.filter (fun e => negb (hasIncoming wd (fst e))) (range (GoRange := R) (wd_Nodes wd)) ->
            nd_ID (snd e) = fst e) as Hf.
  { intros R e He. rewrite list_elem_of_In in He. apply filter_In in He as [He _]. apply (Hr R). by apply list_elem_of_In. }
  assert (range (GoRange := R1) (wd_Nodes wd) ≡ₚ range (GoRange := R2) (wd_Nodes wd)) as Hp by (by rewrite !range_perm).
  unfold FindStartNode. rewrite (least_unique _ _ _ _ (filter_perm _ _ _ Hp)
    (NoDup_filter_keys _ _ (NoDup_range _)) (pick_least _ (Hf R1)) (pick_least _ (Hf R2))).
  rewrite (least_unique _ _ _ _ Hp (NoDup_range _) (pick_least _ (Hr R1)) (pick_least _ (Hr R2))).
  split; [done|]. pose proof (pick_least _ (Hr R2)) as Hl. split.
  - destruct (if String.eqb _ _ then _ else _); [done|]. destruct (foldl pick None (List.filter _ _)); [done|].
    intros He. rewrite He in Hl. simpl in Hl. apply map_eq. intros id.
    destruct (wd_Nodes wd !! id) as [n|] eqn:Hn; [|by rewrite lookup_empty].
    apply (elem_of_range (H := R2)) in Hn. rewrite Hl in Hn. by apply not_elem_of_nil in Hn.
  - intros He. unfold GetNode. rewrite He.
    assert (range (GoRange := R2) (∅ : gmap string NodeDef) = []) as ->
      by (apply Permutation_nil_r; by rewrite range_perm, map_to_list_empty).
    rewrite lookup_empty. by destruct (String.eqb _ _).
Qed.

(** The start node is well defined: when every node is stored under its
    own id, [FindStartNode] returns the same node for every iteration order
    of the map (the root, else the smallest id without an incoming edge, else
    the smallest id), and it finds one whenever there is a node at all. *)
Theorem start_node_deterministic (R1 R2 : GoRange) (wd : WorkflowDef) :
  keyed wd ->
  FindStartNode (H := R1) wd = FindStartNode (H := R2) wd /\
  (FindStartNode (H := R1) wd = None <-> wd_Nodes wd = ∅).
Proof. apply start_node_least. Qed.

(** ** Validation *)

Lemma check_edges_ok wd edges :
  check_edges wd edges = None <->
  forall e, e ∈ edges -> is_Some (wd_Nodes wd !! ed_From e) /\ is_Some (wd_Nodes wd !! ed_To e).
Proof.
  induction edges as [|e edges IH]; cbn [check_edges].
  { split; [|done]. by intros _ ? ?%not_elem_of_nil. }
  split.
  - destruct (wd_Nodes wd !! ed_From e) eqn:Hf; [|done]. destruct (wd_Nodes wd !! ed_To e) eqn:Ht; [|done].
    intros Hc x [->|Hx]%elem_of_cons; [by rewrite Hf, Ht|by apply IH].
  - intros H. destruct (H e ltac:(by left)) as [[? ->] [? ->]]. apply IH. intros y Hy. apply H. by right.
Qed.

(** [Validate] accepts a definition exactly when both ends of every edge
    are nodes of it, or it has no nodes at all (whatever its edges). *)
Theorem Validate_spec (wd : WorkflowDef) :
  WorkflowDef_Validate (Some wd) = None <->
  wd_Nodes wd = ∅ \/ forall e, e ∈ wd_Edges wd -> is_Some (wd_Nodes wd !! ed_From e) /\ is_Some (wd_Nodes wd !! ed_To e).
Proof.
  unfold WorkflowDef_Validate. destruct (decide (wd_Nodes wd = ∅)) as [He|He]; [tauto|].
  rewrite check_edges_ok. tauto.
Qed.

(** ** The instance store *)

Definition no_colon (s : string) : Prop := contains s ":" = false.

Lemma no_colon_cons c s : no_colon (String c s) -> c <> ":"%char /\ no_colon s.
Proof.
  unfold no_colon, contains. cbn [index_of]. destruct (has_prefix (String c s) ":") eqn:Hp; [done|].
  destruct (index_of s ":") eqn:Hi; [done|]. intros _. split; [|done]. intros ->. simpl in Hp. by destruct s.
Qed.

Lemma colon_split s1 s2 w1 w2 :
  no_colon s1 -> no_colon s2 -> s1 +:+ ":" +:+ w1 = s2 +:+ ":" +:+ w2 -> s1 = s2 /\ w1 = w2.
Proof.
  revert s2. induction s1 as [|c1 s1 IH]; intros [|c2 s2] H1 H2 Heq.
  - by injection Heq.
  - apply no_colon_cons in H2 as [H2 _]. injection Heq as Hc _. by destruct H2.
  - apply no_colon_cons in H1 as [H1 _]. injection Heq as Hc _. by destruct H1.
  - apply no_colon_cons in H1 as [_ H1]. apply no_colon_cons in H2 as [_ H2]. injection Heq as -> Heq.
    destruct (IH s2 H1 H2 Heq) as [-> ->]. done.
Qed.

(** The indexes agree: every key leads to the instance it names, and the keys
    of a session are exactly those of its instances. *)
Record index_ok (h : InstHeap) (s : InMemorySessionStore) : Prop := {
  ix_colon : forall p wi, h !! p = Some wi -> no_colon (wi_SessionID wi);
  ix_key : forall key p, is_sessions s !! key = Some p -> exists wi, h !! p = Some wi /\ SessionKey wi = key;
  ix_listed : forall key p wi, is_sessions s !! key = Some p -> h !! p = Some wi ->
    exists keys, is_bySession s !! wi_SessionID wi = Some keys /\ key ∈ keys;
  ix_session : forall sid keys, is_bySession s !! sid = Some keys -> keys <> [] /\ NoDup keys /\
    forall key, key ∈ keys -> exists p wi, is_sessions s !! key = Some p /\ h !! p = Some wi /\ wi_SessionID wi = sid
}.

(** What a program that shares the heap does: it allocates instances,
    changes them, and calls the store. *)
Inductive Call :=
| CallNew (p : nat) (wi : WorkflowInstance)
| CallMutate (p : nat) (wi : WorkflowInstance)
| CallCreate (p : nat)
| CallUpdate (p : nat)
| CallDelete (key : string)
| CallClear (sid : string).

(** Instances are allocated under fresh pointers with a session id without a
    colon, and keep their two ids. *)
Definition legal (c : Call) (h : InstHeap) : Prop :=
  match c with
  | CallNew p wi => h !! p = None /\ no_colon (wi_SessionID wi)
  | CallMutate p wi' =>
      exists wi, h !! p = Some wi /\ wi_SessionID wi' = wi_SessionID wi /\ wi_WorkflowID wi' = wi_WorkflowID wi
  | _ => True
  end.

Definition heap_call (c : Call) (h : InstHeap) : InstHeap :=
  match c with CallNew p wi | CallMutate p wi => <[p := wi]> h | _ => h end.

Fixpoint legal_calls (cs : list Call) (h : InstHeap) : Prop :=
  match cs with [] => True | c :: cs => legal c h /\ legal_calls cs (heap_call c h) end.

(** The store's answers to the calls. *)
Definition store_call (c : Call) (h : InstHeap) (s : InMemorySessionStore) : InMemorySessionStore * option error :=
  match c with
  | CallNew _ _ | CallMutate _ _ => (s, None)
  | CallCreate p => InMemorySessionStore_Create p h s
  | CallUpdate p => InMemorySessionStore_Update p h s
  | CallDelete key => (InMemorySessionStore_Delete key h s, None)
  | CallClear sid => (InMemorySessionStore_ClearSession sid s, None)
  end.

Fixpoint store_calls (cs : list Call) (h : InstHeap) (s : InMemorySessionStore) : InMemorySessionStore * list (option error) :=
  match cs with
  | [] => (s, [])
  | c :: cs => let '(s1, e) := store_call c h s in
               let '(s2, es) := store_calls cs (heap_call c h) s1 in (s2, e :: es)
  end.

(** The specification: a book with at most one instance for each session and
    workflow. *)
Abbreviation Book := (gmap (string * string) nat).

Definition book_call (c : Call) (h : InstHeap) (b : Book) : Book * option error :=
  let named p (f : string * string -> string -> Book * option error) :=
    match h !! p with
    | None => (b, Some (EText "instance cannot be nil"))
    | Some wi => f (wi_SessionID wi, wi_WorkflowID wi) ("instance " +:+ wi_SessionID wi +:+ ":" +:+ wi_WorkflowID wi)
    end in
  match c with
  | CallNew _ _ | CallMutate _ _ => (b, None)
  | CallCreate p =>
      named p (fun id what => match b !! id with
                              | Some _ => (b, Some (EText (what +:+ " already exists")))
                              | None => (<[id := p]> b, None)
                              end)
  | CallUpdate p =>
      named p (fun id what => match b !! id with
                              | Some _ => (<[id := p]> b, None)
                              | None => (b, Some (EText (what +:+ " not found")))
                              end)
  | CallDelete key => (filter (fun x : string * string * nat => fst (fst x) +:+ ":" +:+ snd (fst x) <> key) b, None)
  | CallClear sid => (filter (fun x : string * string * nat => fst (fst x) <> sid) b, None)
  end.

Fixpoint book_calls (cs : list Call) (h : InstHeap) (b : Book) : Book * list (option error) :=
  match cs with
  | [] => (b, [])
  | c :: cs => let '(b1, e) := book_call c h b in
               let '(b2, es) := book_calls cs (heap_call c h) b1 in (b2, e :: es)
  end.

Lemma index_heap h h' s :
  index_ok h s ->
  (forall p wi, h' !! p = Some wi -> no_colon (wi_SessionID wi)) ->
  (forall p wi, h !! p = Some wi -> exists wi', h' !! p = Some wi' /\
     wi_SessionID wi' = wi_SessionID wi /\ wi_WorkflowID wi' = wi_WorkflowID wi) ->
  index_ok h' s.
Proof.
  intros [_ Hk Hl Hs] Hc Hh. split; [done| | |].
  - intros key p Hp. destruct (Hk key p Hp) as (wi & Hwi & <-). destruct (Hh p wi Hwi) as (wi' & Hwi' & E1 & E2).
    exists wi'. unfold SessionKey. by rewrite E1, E2.
  - intros key p wi' Hp Hwi'. destruct (Hk key p Hp) as (wi & Hwi & <-).
    destruct (Hh p wi Hwi) as (wi2 & Hwi2 & E1 & E2). assert (wi2 = wi') as -> by congruence. rewrite E1.
    by apply (Hl _ p).
  - intros sid keys Hsid. destruct (Hs sid keys Hsid) as (H1 & H2 & H3). split_and!; [done|done|].
    intros key Hkey. destruct (H3 key Hkey) as (p & wi & Hp & Hwi & <-).
    destruct (Hh p wi Hwi) as (wi' & Hwi' & E1 & E2). by exists p, wi'.
Qed.

Lemma index_create p h s : index_ok h s -> index_ok h (fst (InMemorySessionStore_Create p h s)).
Proof.
  intros [Hc Hk Hl Hs]. unfold InMemorySessionStore_Create. destruct (h !! p) as [wi|] eqn:Hp; [|done].
  destruct (is_sessions s !! SessionKey wi) as [q|] eqn:Hq; [done|]. simpl.
  assert (SessionKey wi ∉ default [] (is_bySession s !! wi_SessionID wi)) as Hnew.
  { destruct (is_bySession s !! wi_SessionID wi) as [keys|] eqn:Hb; simpl; [|apply not_elem_of_nil].
    intros Hin. destruct (Hs _ _ Hb) as (_ & _ & H3). destruct (H3 _ Hin) as (p' & wi' & Hp' & _). congruence. }
  split; simpl; [done| | |].
  - intros key q. rewrite lookup_insert_Some. intros [[<- <-]|[_ Hq']]; [by exists wi|by apply Hk].
  - intros key q wi' Hq' Hwi'. apply lookup_insert_Some in Hq' as [[<- <-]|[Hne Hq']].
    + assert (wi' = wi) as -> by congruence. rewrite lookup_insert_eq. eexists. split; [done|]. set_solver.
    + destruct (Hl _ _ _ Hq' Hwi') as (keys & Hb & Hin).
      destruct (decide (wi_SessionID wi' = wi_SessionID wi)) as [E|E].
      * rewrite E, lookup_insert_eq. rewrite E in Hb. rewrite Hb. eexists. split; [done|]. set_solver.
      * rewrite lookup_insert_ne by done. by exists keys.
  - intros sid keys. rewrite lookup_insert_Some. intros [[<- <-]|[Hne Hb]].
    + split_and!; [by destruct (default [] _)| |].
      * apply NoDup_app. split_and!; [|set_solver|apply NoDup_singleton].
        destruct (is_bySession s !! wi_SessionID wi) as [keys|] eqn:Hb; simpl; [by apply (Hs _ _ Hb)|constructor].
      * intros key [Hin| ->%list_elem_of_singleton]%elem_of_app; [|exists p, wi; by rewrite lookup_insert_eq].
        destruct (is_bySession s !! wi_SessionID wi) as [keys|] eqn:Hb; simpl in *; [|by apply not_elem_of_nil in Hin].
        destruct (Hs _ _ Hb) as (_ & _ & H3). destruct (H3 _ Hin) as (p' & wi' & Hp' & Hwi' & E).
        exists p', wi'. rewrite lookup_insert_ne; [done|]. intros E'. congruence.
    + destruct (Hs _ _ Hb) as (H1 & H2 & H3). split_and!; [done|done|]. intros key Hin.
      destruct (H3 _ Hin) as (p' & wi' & Hp' & Hwi' & E). exists p', wi'. rewrite lookup_insert_ne; [done|]. intros E'. congruence.
Qed.

Lemma index_update p h s : index_ok h s -> index_ok h (fst (InMemorySessionStore_Update p h s)).
Proof.
  intros [Hc Hk Hl Hs]. unfold InMemorySessionStore_Update. destruct (h !! p) as [wi|] eqn:Hp; [|done].
  destruct (is_sessions s !! SessionKey wi) as [q|] eqn:Hq; [|done]. simpl.
  destruct (Hk _ _ Hq) as (wq & Hwq & Ekey).
  destruct (colon_split _ _ _ _ (Hc _ _ Hwq) (Hc _ _ Hp) Ekey) as [Esid _].
  split; simpl; [done| | |].
  - intros key r. rewrite lookup_insert_Some. intros [[<- <-]|[_ Hr]]; [by exists wi|by apply Hk].
  - intros key r wr. rewrite lookup_insert_Some. intros [[<- <-]|[_ Hr]] Hwr; [|by apply (Hl key r)].
    assert (wr = wi) as -> by congruence. rewrite <- Esid. by apply (Hl _ q).
  - intros sid keys Hb. destruct (Hs _ _ Hb) as (H1 & H2 & H3). split_and!; [done|done|]. intros key Hin.
    destruct (H3 _ Hin) as (p' & wi' & Hp' & Hwi' & E).
    destruct (decide (key = SessionKey wi)) as [->|Hne].
    + exists p, wi. rewrite lookup_insert_eq. split_and!; [done|done|]. assert (p' = q) as -> by congruence. congruence.
    + exists p', wi'. by rewrite lookup_insert_ne.
Qed.

Lemma elem_of_others k key keys :
  k ∈ List.filter (fun x => negb (String.eqb x key)) keys <-> k ∈ keys /\ k <> key.
Proof. by rewrite !list_elem_of_In, filter_In, negb_true_iff, String.eqb_neq. Qed.

Lemma index_delete key h s : index_ok h s -> index_ok h (InMemorySessionStore_Delete key h s).
Proof.
  intros [Hc Hk Hl Hs]. unfold InMemorySessionStore_Delete.
  destruct (is_sessions s !! key) as [p|] eqn:Hp; cbn [mbind option_bind]; [|done].
  destruct (Hk _ _ Hp) as (wi & Hwi & Ekey). rewrite Hwi.
  destruct (Hl _ _ _ Hp Hwi) as (keys & Hb & Hin). rewrite Hb.
  destruct (Hs _ _ Hb) as (_ & Hnd & H3).
  set (rest := List.filter _ keys).
  assert (forall sid keys', (if decide (rest = []) then delete (wi_SessionID wi) (is_bySession s)
                             else <[wi_SessionID wi := rest]> (is_bySession s)) !! sid = Some keys' <->
            (sid = wi_SessionID wi /\ keys' = rest /\ rest <> []) \/ (sid <> wi_SessionID wi /\ is_bySession s !! sid = Some keys')) as Hby.
  { intros sid keys'. case_decide.
    - rewrite lookup_delete_Some. naive_solver.
    - rewrite lookup_insert_Some. naive_solver. }
  split; simpl; [done| | |].
  - intros k q [_ Hq]%lookup_delete_Some. by apply Hk.
  - intros k q wq [Hne Hq]%lookup_delete_Some Hwq. destruct (Hl _ _ _ Hq Hwq) as (keys' & Hb' & Hin').
    setoid_rewrite Hby. destruct (decide (wi_SessionID wq = wi_SessionID wi)) as [E|E]; [|by exists keys'; naive_solver].
    exists rest. rewrite E in Hb'. assert (keys' = keys) as -> by congruence.
    assert (k ∈ rest) as Hr by (by apply elem_of_others). split; [|done]. left. split_and!; [done|done|].
    intros He. rewrite He in Hr. by apply not_elem_of_nil in Hr.
  - intros sid keys'. rewrite Hby. intros [(-> & -> & Hne)|[Hne Hb']].
    + split_and!; [done| |].
      * unfold rest. clear -Hnd. induction keys as [|k keys IH]; simpl; [done|]. apply NoDup_cons in Hnd as [Hk Hnd].
        destruct (negb _); [|by apply IH]. constructor; [|by apply IH]. intros [? _]%elem_of_others. done.
      * intros k [Hk' Hne']%elem_of_others. destruct (H3 _ Hk') as (q & wq & Hq & Hwq & E).
        exists q, wq. by rewrite lookup_delete_ne.
    + destruct (Hs _ _ Hb') as (H1 & H2 & H4). split_and!; [done|done|]. intros k Hk'.
      destruct (H4 _ Hk') as (q & wq & Hq & Hwq & E). exists q, wq. rewrite lookup_delete_ne; [done|].
      intros <-. congruence.
Qed.

Lemma lookup_delete_keys (m : gmap string nat) keys k :
  foldl (fun m key => delete key m) m keys !! k = if decide (k ∈ keys) then None else m !! k.
Proof.
  revert m. induction keys as [|key keys IH]; intros m; cbn [foldl].
  { case_decide as Hd; [by apply not_elem_of_nil in Hd|done]. }
  rewrite IH. destruct (decide (k ∈ keys)) as [Hin|Hin]; case_decide as Hd; try done.
  - destruct Hd. by right.
  - apply elem_of_cons in Hd as [->|]; [by rewrite lookup_delete_eq|done].
  - rewrite lookup_delete_ne; [done|]. intros <-. apply Hd. by left.
Qed.

Lemma index_clear sid h s : index_ok h s -> index_ok h (InMemorySessionStore_ClearSession sid s).
Proof.
  intros [Hc Hk Hl Hs]. unfold InMemorySessionStore_ClearSession.
  destruct (is_bySession s !! sid) as [keys|] eqn:Hb; [|done]. destruct (Hs _ _ Hb) as (_ & _ & H3).
  split; simpl; [done| | |].
  - intros k q. rewrite lookup_delete_keys. case_decide; [done|]. apply Hk.
  - intros k q wq. rewrite lookup_delete_keys. case_decide as Hd; [done|]. intros Hq Hwq.
    destruct (Hl _ _ _ Hq Hwq) as (keys' & Hb' & Hin). exists keys'. rewrite lookup_delete_ne; [done|].
    intros E. rewrite <- E in Hb'. congruence.
  - intros sid' keys' [Hne Hb']%lookup_delete_Some. destruct (Hs _ _ Hb') as (H1 & H2 & H4). split_and!; [done|done|].
    intros k Hk'. destruct (H4 _ Hk') as (q & wq & Hq & Hwq & E). exists q, wq. split_and!; [|done|done].
    rewrite lookup_delete_keys. case_decide as Hd; [|done]. destruct (H3 _ Hd) as (q' & wq' & ? & ? & ?). congruence.
Qed.

Lemma index_call c h s : index_ok h s -> legal c h -> index_ok (heap_call c h) (fst (store_call c h s)).
Proof.
  intros Hok Hl. destruct c as [p wi|p wi'|p|p|key|sid]; simpl in *;
    [| |by apply index_create|by apply index_update|by apply index_delete|by apply index_clear].
  - destruct Hl as [Hp Hc]. apply (index_heap h); [done| |].
    + intros q wq. rewrite lookup_insert_Some. intros [[_ <-]|[_ Hq]]; [done|by apply (ix_colon _ _ Hok q)].
    + intros q wq Hq. exists wq. rewrite lookup_insert_ne by congruence. done.
  - destruct Hl as (wi & Hp & E1 & E2). apply (index_heap h); [done| |].
    + intros q wq. rewrite lookup_insert_Some. intros [[_ <-]|[_ Hq]]; [rewrite E1|]; by eapply (ix_colon _ _ Hok).
    + intros q wq Hq. destruct (decide (q = p)) as [->|Hne].
      * exists wi'. rewrite lookup_insert_eq. assert (wq = wi) as -> by congruence. done.
      * exists wq. by rewrite lookup_insert_ne.
Qed.

(** The book of a store. *)
Record booked (s : InMemorySessionStore) (b : Book) : Prop := {
  bk_colon : forall sid w p, b !! (sid, w) = Some p -> no_colon sid;
  bk_sessions : forall sid w, no_colon sid -> b !! (sid, w) = is_sessions s !! (sid +:+ ":" +:+ w)
}.

Lemma booked_insert s b sid w p by_session :
  booked s b -> no_colon sid ->
  booked {| is_sessions := <[sid +:+ ":" +:+ w := p]> (is_sessions s); is_bySession := by_session |} (<[(sid, w) := p]> b).
Proof.
  intros [H1 H2] Hc. split; cbn [is_sessions].
  - intros sid' w' q. rewrite lookup_insert_Some. intros [[[= <- <-] _]|[_ Hq]]; [done|by eapply H1].
  - intros sid' w' Hc'. destruct (decide ((sid', w') = (sid, w))) as [[= -> ->]|Hne]; [by rewrite !lookup_insert_eq|].
    rewrite !lookup_insert_ne; [by apply H2| |congruence].
    intros E. apply Hne. by destruct (colon_split _ _ _ _ Hc Hc' E) as [-> ->].
Qed.

Lemma booked_filter s s' b (P : string * string * nat -> Prop) `{forall x, Decision (P x)} :
  booked s b ->
  (forall sid w p, no_colon sid -> is_sessions s !! (sid +:+ ":" +:+ w) = Some p ->
     P (sid, w, p) -> is_sessions s' !! (sid +:+ ":" +:+ w) = Some p) ->
  (forall sid w p, is_sessions s' !! (sid +:+ ":" +:+ w) = Some p -> no_colon sid ->
     is_sessions s !! (sid +:+ ":" +:+ w) = Some p /\ P (sid, w, p)) ->
  booked s' (filter P b).
Proof.
  intros [H1 H2] Hin Hout. split.
  - intros sid w p [Hb _]%map_lookup_filter_Some. by eapply H1.
  - intros sid w Hc. apply option_eq. intros p. rewrite map_lookup_filter_Some, (H2 _ _ Hc). split.
    + intros [Hb HP]. by apply Hin.
    + intros Hs. by apply Hout.
Qed.

(** The session of a stored key. *)
Lemma stored_session h s sid w p :
  index_ok h s -> no_colon sid -> is_sessions s !! (sid +:+ ":" +:+ w) = Some p ->
  exists wi keys, h !! p = Some wi /\ wi_SessionID wi = sid /\ wi_WorkflowID wi = w /\
    is_bySession s !! sid = Some keys /\ sid +:+ ":" +:+ w ∈ keys.
Proof.
  intros [Hc Hk Hl _] Hsid Hp. destruct (Hk _ _ Hp) as (wi & Hwi & Ekey).
  destruct (colon_split _ _ _ _ (Hc _ _ Hwi) Hsid Ekey) as [<- <-].
  destruct (Hl _ _ _ Hp Hwi) as (keys & Hb & Hin). by exists wi, keys.
Qed.

Lemma booked_delete key h s b :
  index_ok h s -> booked s b ->
  booked (InMemorySessionStore_Delete key h s)
    (filter (fun x : string * string * nat => fst (fst x) +:+ ":" +:+ snd (fst x) <> key) b).
Proof.
  intros Hok Hb. assert (is_sessions (InMemorySessionStore_Delete key h s) = delete key (is_sessions s)) as Hd.
  { unfold InMemorySessionStore_Delete. destruct (is_sessions s !! key) as [p|] eqn:Hp; cbn [mbind option_bind].
    - destruct (ix_key _ _ Hok _ _ Hp) as (wi & -> & _). done.
    - by rewrite delete_id. }
  eapply booked_filter; [done| |]; intros sid w p; rewrite Hd; cbn [fst snd].
  - intros _ Hs Hne. by rewrite lookup_delete_ne.
  - intros [Hne Hs]%lookup_delete_Some _. done.
Qed.

Lemma booked_clear sid h s b :
  index_ok h s -> booked s b ->
  booked (InMemorySessionStore_ClearSession sid s) (filter (fun x : string * string * nat => fst (fst x) <> sid) b).
Proof.
  intros Hok Hb. eapply booked_filter; [done| |]; intros sid' w p; cbn [fst snd]; unfold InMemorySessionStore_ClearSession.
  - intros Hc Hs Hne. destruct (is_bySession s !! sid) as [keys|] eqn:Hks; [|done]. cbn [is_sessions].
    rewrite lookup_delete_keys. case_decide as Hin; [|done].
    destruct (ix_session _ _ Hok _ _ Hks) as (_ & _ & H3). destruct (H3 _ Hin) as (q & wi & Hq & Hwi & E).
    destruct (stored_session _ _ _ _ _ Hok Hc Hs) as (wi' & ? & Hwi' & E' & _). congruence.
  - destruct (is_bySession s !! sid) as [keys|] eqn:Hks; cbn [is_sessions].
    + rewrite lookup_delete_keys. case_decide as Hin; [done|]. intros Hs Hc. split; [done|]. intros ->.
      destruct (stored_session _ _ _ _ _ Hok Hc Hs) as (? & keys' & _ & _ & _ & Hk & Hin'). congruence.
    + intros Hs Hc. split; [done|]. intros ->.
      destruct (stored_session _ _ _ _ _ Hok Hc Hs) as (? & keys' & _ & _ & _ & Hk & _). congruence.
Qed.

Lemma booked_call c h s b :
  index_ok h s -> booked s b ->
  booked (fst (store_call c h s)) (fst (book_call c h b)) /\ snd (store_call c h s) = snd (book_call c h b).
Proof.
  intros Hok Hb. destruct c as [p wi|p wi'|p|p|key|sid]; cbn [store_call book_call fst snd];
    [done|done| | |split; [by apply booked_delete|done]|split; [by eapply booked_clear|done]];
    unfold InMemorySessionStore_Create, InMemorySessionStore_Update, SessionKey; destruct (h !! p) as [wi|] eqn:Hp; try done;
    pose proof (ix_colon _ _ Hok _ _ Hp) as Hc; rewrite <- (bk_sessions _ _ Hb _ _ Hc);
    destruct (b !! (wi_SessionID wi, wi_WorkflowID wi)) as [q|] eqn:Hq; cbn [fst snd]; rewrite <- ?str_app_assoc;
    split; try done; by apply booked_insert.
Qed.

Lemma booked_calls cs h s b :
  index_ok h s -> booked s b -> legal_calls cs h ->
  (exists h', index_ok h' (fst (store_calls cs h s))) /\
  booked (fst (store_calls cs h s)) (fst (book_calls cs h b)) /\ snd (store_calls cs h s) = snd (book_calls cs h b).
Proof.
  revert h s b. induction cs as [|c cs IH]; intros h s b Hok Hb; cbn [store_calls book_calls legal_calls]; [eauto|].
  intros [Hl Hls]. pose proof (index_call c h s Hok Hl) as Hok1. destruct (booked_call c h s b Hok Hb) as [Hb1 He].
  destruct (store_call c h s) as [s1 e], (book_call c h b) as [b1 e']; cbn in *.
  specialize (IH _ _ _ Hok1 Hb1 Hls). destruct (store_calls _ _ s1), (book_calls _ _ b1); cbn in *. naive_solver.
Qed.

Lemma listed h s b sid p :
  index_ok h s -> booked s b ->
  p ∈ InMemorySessionStore_List sid s <-> exists w, b !! (sid, w) = Some p.
Proof.
  intros Hok Hb. unfold InMemorySessionStore_List. rewrite list_elem_of_omap. split.
  - intros (key & Hin & Hp). destruct (is_bySession s !! sid) as [keys|] eqn:Hks; simpl in Hin; [|by apply not_elem_of_nil in Hin].
    destruct (ix_session _ _ Hok _ _ Hks) as (_ & _ & H3). destruct (H3 _ Hin) as (q & wi & Hq & Hwi & <-).
    destruct (ix_key _ _ Hok _ _ Hq) as (wi' & Hwi' & <-). assert (wi' = wi) as -> by congruence.
    exists (wi_WorkflowID wi). rewrite (bk_sessions _ _ Hb) by (by eapply ix_colon). done.
  - intros [w Hw]. pose proof (bk_colon _ _ Hb _ _ _ Hw) as Hc. rewrite (bk_sessions _ _ Hb) in Hw by done.
    destruct (stored_session _ _ _ _ _ Hok Hc Hw) as (wi & keys & _ & _ & _ & Hks & Hin). rewrite Hks. eauto.
Qed.

Lemma listed_once h s sid : index_ok h s -> NoDup (InMemorySessionStore_List sid s).
Proof.
  intros Hok. unfold InMemorySessionStore_List. destruct (is_bySession s !! sid) as [keys|] eqn:Hks; [|constructor]. cbn [default].
  destruct (ix_session _ _ Hok _ _ Hks) as (_ & Hnd & _). clear Hks. cbv [id from_option].
  induction Hnd as [|k keys Hk Hnd IH]; cbn; [constructor|]. destruct (is_sessions s !! k) as [p|] eqn:Hp; [|done].
  constructor; [|done]. intros (k' & Hin & Hp')%list_elem_of_omap.
  destruct (ix_key _ _ Hok _ _ Hp) as (wi & Hwi & <-), (ix_key _ _ Hok _ _ Hp') as (wi' & Hwi' & <-).
  assert (wi' = wi) as -> by congruence. done.
Qed.

(** C14: The in-memory store of workflow instances refines a book that maps a
    session and a workflow to at most one instance. Run any calls on a new
    store, by a program that allocates instances whose session ids hold no
    colon and never changes an instance's session or workflow id (its other
    fields may change at any time, since the store and the program share
    them): every call has the book's answer (creating a booked pair, updating
    an unbooked one and passing nil are errors, deleting and clearing never
    are). Afterwards the instance got under a session and a workflow, and
    whether there is one, is what the book says; and the instances listed for
    a session are those the book has for it, each once. *)
Theorem session_store_refines (cs : list Call) :
  legal_calls cs ∅ ->
  let '(s, answers) := store_calls cs ∅ NewInMemorySessionStore in
  let '(b, expected) := book_calls cs ∅ ∅ in
  answers = expected /\
  (forall sid w, no_colon sid ->
     InMemorySessionStore_Get (sid +:+ ":" +:+ w) s =
       match b !! (sid, w) with Some p => Ok p | None => Err (EText ("instance " +:+ (sid +:+ ":" +:+ w) +:+ " not found")) end /\
     (InMemorySessionStore_Exists (sid +:+ ":" +:+ w) s = true <-> is_Some (b !! (sid, w)))) /\
  (forall sid, NoDup (InMemorySessionStore_List sid s) /\
     forall p, p ∈ InMemorySessionStore_List sid s <-> exists w, b !! (sid, w) = Some p).
Proof.
  intros Hl. destruct (booked_calls cs ∅ NewInMemorySessionStore ∅) as ([h Hok] & Hb & He); [| |done|].
  { split; simpl; intros *; rewrite lookup_empty; done. }
  { split; simpl; intros *; [by rewrite lookup_empty|by rewrite !lookup_empty]. }
  destruct (store_calls cs ∅ _) as [s answers], (book_calls cs ∅ ∅) as [b expected]; cbn in *.
  split; [done|]. split; intros sid.
  - intros w Hc. unfold InMemorySessionStore_Get, InMemorySessionStore_Exists. rewrite (bk_sessions _ _ Hb _ _ Hc).
    split; [done|apply bool_decide_eq_true].
  - split; [by eapply listed_once|]. intros p. by eapply listed.
Qed.

(** With a colon in a session id the sessions are not isolated: the
    instances of session [a:b] and workflow [c], and of session [a] and
    workflow [b:c], have the same key; creating the second is refused as a
    duplicate, and updating it replaces the first, so session [a:b] then lists
    an instance of session [a]. *)
Theorem session_key_collision :
  let first := NewWorkflowInstance "c" "a:b" in
  let second := NewWorkflowInstance "b:c" "a" in
  let h : InstHeap := {[1 := first; 2 := second]} in
  let s := fst (InMemorySessionStore_Create 1 h NewInMemorySessionStore) in
  snd (InMemorySessionStore_Create 2 h s) = Some (EText "instance a:b:c already exists") /\
  InMemorySessionStore_List "a:b" (fst (InMemorySessionStore_Update 2 h s)) = [2].
Proof. done. Qed.

(** ** Witnesses *)

(** Two workflows of one session and one of another: created, one of them
    refused the second time and replaced by an update, one deleted. *)
Definition mixed_calls : list Call :=
  [CallNew 1 (NewWorkflowInstance "v" "s"); CallNew 2 (NewWorkflowInstance "w" "s"); CallNew 3 (NewWorkflowInstance "v" "t");
   CallNew 4 (NewWorkflowInstance "v" "s"); CallCreate 1; CallCreate 2; CallCreate 3; CallCreate 4; CallUpdate 4;
   CallDelete "s:w"; CallClear "t"].

Lemma session_store_refines_witness :
  let '(s, answers) := store_calls mixed_calls ∅ NewInMemorySessionStore in
  answers !! 7 = Some (Some (EText "instance s:v already exists")) /\
  4 ∈ InMemorySessionStore_List "s" s /\ 1 ∉ InMemorySessionStore_List "s" s /\
  InMemorySessionStore_Get "t:v" s = Err (EText "instance t:v not found").
Proof.
  assert (legal_calls mixed_calls ∅) as Hl by (repeat split; reflexivity).
  pose proof (session_store_refines mixed_calls Hl) as H.
  destruct (store_calls mixed_calls ∅ NewInMemorySessionStore) as [s answers] eqn:Hs.
  destruct (book_calls mixed_calls ∅ ∅) as [b expected] eqn:Hb. destruct H as (-> & Hget & Hlist).
  assert (expected = snd (book_calls mixed_calls ∅ ∅)) as -> by (rewrite Hb; reflexivity).
  assert (b = fst (book_calls mixed_calls ∅ ∅)) as -> by (rewrite Hb; reflexivity).
  split; [by_vm|]. split; [|split].
  - apply Hlist. exists "v". by_vm.
  - intros Hin. apply Hlist in Hin as [w Hw]. assert (w = "v" \/ w <> "v") as [-> |Hne] by (destruct (decide (w = "v")); tauto).
    + vm_compute in Hw. discriminate Hw.
    + assert (fst (book_calls mixed_calls ∅ ∅) = {[("s", "v") := 4]}) as E by (vm_compute; reflexivity).
      rewrite E, lookup_singleton_ne in Hw; [discriminate Hw|congruence].
  - destruct (Hget "t" "v" eq_refl) as [Hg _]. etransitivity; [exact Hg|]. by_vm.
Defined.

Definition two_nodes : WorkflowDef :=
  {| wd_ID := "w"; wd_Name := ""; wd_Version := ""; wd_RootNodeID := "";
     wd_Nodes := {["a" := {| nd_ID := "a"; nd_AgentRole := ""; nd_TaskType := ""; nd_Config := ∅ |};
                   "b" := {| nd_ID := "b"; nd_AgentRole := ""; nd_TaskType := ""; nd_Config := ∅ |}]};
     wd_Edges := [] |}.

Definition reverse_order : GoRange :=
  {| range A m := reverse (map_to_list m); range_perm A m := reverse_Permutation (map_to_list m) |}.

Lemma start_node_deterministic_witness :
  FindStartNode (H := stored_order) two_nodes = FindStartNode (H := reverse_order) two_nodes /\
  (FindStartNode (H := stored_order) two_nodes = None <-> wd_Nodes two_nodes = ∅).
Proof.
  apply (start_node_deterministic stored_order reverse_order two_nodes).
  intros id n. cbn [two_nodes wd_Nodes]. rewrite lookup_insert_Some, lookup_singleton_Some. naive_solver.
Defined.
