(* ===== verification/Hydrated.v ===== *)
(** * The hydrated workflow executor

    [multiagent/hydrated_executor.go]: execution of a [core.WorkflowDef],
    either in one go ([Execute]) or on a session whose progress is kept in an
    instance of the session store ([ExecuteWithSession]), and the conversion
    of Datalog workflows in [multiagent/loader.go].

    The node executor, the context and the waits are those of [WfEnv]
    (package multiagent has one [NodeExecutor] interface); the optional agent
    finder and condition evaluator are a [HydEnv].  The retry loop of
    [executeNode] is the one of the plain executor, [Workflow.attempts].  The
    instance of a session is a pointer into the heap of the store. *)
From S2P Require Import Prelude GoStrings CoreErrors Facts Workflow WorkflowDef.
From Stdlib Require Import Ascii String.
Open Scope string_scope.

(** [fmt.Sprintf("%v", v)]. *)
Definition value_text (render : list string -> string) (v : WValue) : string :=
  match v with
  | WNil => "<nil>"
  | WStr s => s
  | WList l => render l
  | WOther t => t
  end.

Definition toWorkflowNode (render : list string -> string) (n : NodeDef) : WorkflowNode :=
  {| n_ID := nd_ID n; n_Type := nd_TaskType n; n_Agent := nd_AgentRole n;
     n_Config := value_text render <$> nd_Config n |}.

(** ** The loader *)

(** [findStartNode] of loader.go: unlike the executor's, conditional edges
    count as incoming. *)
Definition loader_findStartNode (wf : Workflow) : option WorkflowNode :=
  match List.find (fun n => negb (existsb (fun e => String.eqb (e_To e) (n_ID n)) (wf_Edges wf))) (wf_Nodes wf) with
  | Some n => Some n
  | None => head (wf_Nodes wf)
  end.

Definition node_def (n : WorkflowNode) : NodeDef :=
  {| nd_ID := n_ID n; nd_AgentRole := n_Agent n; nd_TaskType := n_Type n; nd_Config := WStr <$> n_Config n |}.

Definition edge_def (e : WorkflowEdge) : EdgeDef :=
  {| ed_From := e_From e; ed_To := e_To e; ed_Condition := e_Condition e |}.

(** A later node with the same id replaces an earlier one. *)
Definition convertToWorkflowDef (wf : Workflow) : WorkflowDef :=
  {| wd_ID := wf_ID wf; wd_Name := wf_Name wf; wd_Version := wf_Version wf;
     wd_RootNodeID := match loader_findStartNode wf with Some n => n_ID n | None => "" end;
     wd_Nodes := foldl (fun m n => <[n_ID n := node_def n]> m) ∅ (wf_Nodes wf);
     wd_Edges := map edge_def (wf_Edges wf) |}.

(** ** The executor *)

Record HydEnv (W : Type) := {
  he_agentFinder : option (string -> W -> W * res error (list string));
  he_conditionEval : option (string -> gmap string WValue -> W -> W * res error bool)
}.
Arguments he_agentFinder {W} _.
Arguments he_conditionEval {W} _.

(** The state of an execution on a session. *)
Record SState (Store : Type) := { sx_heap : InstHeap; sx_store : Store }.
Arguments Build_SState {Store} _ _.
Arguments sx_heap {Store} _.
Arguments sx_store {Store} _.

Section Executor.
Context `{GoRange} {W : Type} (E : WfEnv W) (HE : HydEnv W) (render : list string -> string) (maxRetries : Z).

Definition find_agent (role : string) (w : W) : W * string :=
  match he_agentFinder HE with
  | None => (w, "")
  | Some find =>
      match find role w with
      | (w1, Ok (a :: _)) => (w1, a)
      | (w1, _) => (w1, "")
      end
  end.

Definition hyd_executeNode (n : NodeDef) (input : WValue) (w : W) : W * NodeResult :=
  let node := toWorkflowNode render n in
  let '(w1, agent) := find_agent (nd_AgentRole n) w in
  if (maxRetries <? 0)%Z then (w1, node_result node agent input WNil None 0)
  else attempts E maxRetries (Z.to_nat (maxRetries + 1)) 0 None node input agent w1.

Definition condition_facts (output : WValue) (previous : gmap string WValue) : gmap string WValue :=
  previous ∪ {["current_output" := output]}.

Fixpoint hyd_next_edge (wd : WorkflowDef) (edges : list EdgeDef) (output : WValue) (previous : gmap string WValue) (w : W)
  : W * res error (option NodeDef) :=
  match edges with
  | [] => (w, Ok None)
  | e :: rest =>
      if String.eqb (ed_Condition e) "" then (w, Ok (GetNode wd (ed_To e)))
      else
        match he_conditionEval HE with
        | None => hyd_next_edge wd rest output previous w
        | Some eval =>
            match eval (ed_Condition e) (condition_facts output previous) w with
            | (w1, Err x) => (w1, Err x)
            | (w1, Ok true) => (w1, Ok (GetNode wd (ed_To e)))
            | (w1, Ok false) => hyd_next_edge wd rest output previous w1
            end
        end
  end.

Definition hyd_findNextNode (wd : WorkflowDef) (id : string) (output : WValue) (previous : gmap string WValue) (w : W)
  : W * res error (option NodeDef) :=
  hyd_next_edge wd (GetOutgoingEdges wd id) output previous w.

Definition hyd_findErrorEdge (wd : WorkflowDef) (id : string) : option EdgeDef :=
  List.find (fun e => String.eqb (ed_From e) id && has_prefix (ed_Condition e) "error") (wd_Edges wd).

Definition hyd_result (wd : WorkflowDef) (status : WorkflowStatus) (output : WValue) (err : option error) (l : Loop)
  : WorkflowResult :=
  {| wr_WorkflowID := wd_ID wd; wr_Status := status; wr_Output := output; wr_NodeResults := lp_results l;
     wr_Error := err |}.

Definition hyd_finish (wd : WorkflowDef) (l : Loop) : WorkflowResult :=
  match lp_lastError l with
  | Some e => hyd_result wd WorkflowStatusFailed WNil (Some e) l
  | None => hyd_result wd WorkflowStatusCompleted (lp_input l) None l
  end.

(** The steps of the loop bodies on the loop state. *)
Definition visit (id : string) (l : Loop) : Loop :=
  {| lp_input := lp_input l; lp_outputs := lp_outputs l; lp_results := lp_results l;
     lp_visited := <[id := (visits l id + 1)%Z]> (lp_visited l); lp_lastError := lp_lastError l; lp_trace := lp_trace l |}.

Definition failed_node (id : string) (nr : NodeResult) (x : error) (l : Loop) : Loop :=
  {| lp_input := lp_input l; lp_outputs := lp_outputs l; lp_results := <[id := nr]> (lp_results l);
     lp_visited := lp_visited l; lp_lastError := Some x; lp_trace := (lp_trace l ++ [id])%list |}.

Definition done_node (id : string) (nr : NodeResult) (l : Loop) : Loop :=
  {| lp_input := nr_Output nr; lp_outputs := <[id := nr_Output nr]> (lp_outputs l); lp_results := <[id := nr]> (lp_results l);
     lp_visited := lp_visited l; lp_lastError := lp_lastError l; lp_trace := (lp_trace l ++ [id])%list |}.

Definition with_error (x : error) (l : Loop) : Loop :=
  {| lp_input := lp_input l; lp_outputs := lp_outputs l; lp_results := lp_results l; lp_visited := lp_visited l;
     lp_lastError := Some x; lp_trace := lp_trace l |}.

Definition too_many (id : string) : error := EText ("max retries exceeded for node " +:+ id).

Fixpoint hyd_nodes (fuel : nat) (wd : WorkflowDef) (current : option NodeDef) (l : Loop) (w : W)
  : option (W * (WorkflowResult * Loop)) :=
  match current with
  | None => Some (w, (hyd_finish wd l, l))
  | Some n =>
      match fuel with
      | O => None
      | S fuel' =>
          match env_ctx E w with
          | Some c => Some (w, (hyd_result wd WorkflowStatusCancelled WNil (Some c) l, l))
          | None =>
              let id := nd_ID n in
              let l1 := visit id l in
              if (maxRetries <? visits l1 id)%Z then
                Some (w, (hyd_result wd WorkflowStatusFailed WNil (Some (too_many id)) l1, l1))
              else
                let '(w1, nr) := hyd_executeNode n (lp_input l1) w in
                match nr_Error nr with
                | Some x =>
                    let l2 := failed_node id nr x l1 in
                    match hyd_findErrorEdge wd id with
                    | None => Some (w1, (hyd_result wd WorkflowStatusFailed WNil None l2, l2))
                    | Some edge => hyd_nodes fuel' wd (GetNode wd (ed_To edge)) l2 w1
                    end
                | None =>
                    let l2 := done_node id nr l1 in
                    match hyd_findNextNode wd id (nr_Output nr) (lp_outputs l2) w1 with
                    | (w2, Err x) =>
                        Some (w2, (hyd_result wd WorkflowStatusFailed WNil None (with_error x l2), with_error x l2))
                    | (w2, Ok next) => hyd_nodes fuel' wd next l2 w2
                    end
                end
          end
      end
  end.

Definition hyd_fuel (wd : WorkflowDef) : nat := S (size (wd_Nodes wd) * Z.to_nat maxRetries).

(** [Execute]; the definition may be nil. *)
Definition hyd_Execute (wd : option WorkflowDef) (input : WValue) (w : W)
  : option (W * (option WorkflowResult * option error)) :=
  match wd with
  | None => Some (w, (None, Some (EText "workflow definition is nil")))
  | Some wd =>
      match FindStartNode wd with
      | None =>
          let e := EText "no start node found" in
          Some (w, (Some (hyd_result wd WorkflowStatusFailed WNil (Some e) (start_loop input)), Some e))
      | Some n => (fun '(w', (r, _)) => (w', (Some r, None))) <$> hyd_nodes (hyd_fuel wd) wd (Some n) (start_loop input) w
      end
  end.

(** ** Execution on a session *)

(** The heap of instances, and a store of them. *)
Context {Store : Type} `{!SessionStateStore Store}.

(** A write through the instance pointer. *)
Definition on_inst (p : nat) (k : WorkflowInstance -> WorkflowInstance) (s : SState Store) : SState Store :=
  {| sx_heap := alter k p (sx_heap s); sx_store := sx_store s |}.

(** [e.sessionStore.Update(ctx, instance)], its error ignored. *)
Definition update (p : nat) (s : SState Store) : SState Store :=
  {| sx_heap := sx_heap s; sx_store := fst (ss_Update p (sx_heap s) (sx_store s)) |}.

(** After the loop with the status still running. *)
Definition session_close (wd : WorkflowDef) (p : nat) (l : Loop) (s : SState Store) : SState Store * WorkflowResult :=
  (update p (on_inst p (set_status (match lp_lastError l with
                                    | Some _ => WorkflowInstanceStatusFailed
                                    | None => WorkflowInstanceStatusCompleted
                                    end)) s),
   hyd_finish wd l).

(** After the loop with a final status. *)
Definition session_stop (p : nat) (st : WorkflowInstanceStatus) (s : SState Store) : SState Store :=
  update p (on_inst p (set_status st) s).

(** One round of the loop: the end of the execution, or the state of the next
    round. *)
Inductive Round :=
| RStop (w : W) (s : SState Store) (r : WorkflowResult)
| RNext (w : W) (s : SState Store) (l : Loop).

Definition session_round (wd : WorkflowDef) (p : nat) (wi : WorkflowInstance) (l : Loop) (s : SState Store) (w : W) : Round :=
  match env_ctx E w with
  | Some c =>
      RStop w (update p (session_stop p WorkflowInstanceStatusPaused s)) (hyd_result wd WorkflowStatusCancelled WNil (Some c) l)
  | None =>
      let currentNodeID := wi_CurrentNodeID wi in
      match (if String.eqb currentNodeID "" then None else GetNode wd currentNodeID) with
      | None => let '(s', r) := session_close wd p l s in RStop w s' r
      | Some n =>
          let l1 := visit currentNodeID l in
          if (maxRetries <? visits l1 currentNodeID)%Z then
            RStop w (session_stop p WorkflowInstanceStatusFailed s)
              (hyd_result wd WorkflowStatusFailed WNil (Some (too_many currentNodeID)) l1)
          else
            let s1 := update p (on_inst p (SetVariable "current_input" (lp_input l1)) s) in
            let '(w1, nr) := hyd_executeNode n (lp_input l1) w in
            let id := nd_ID n in
            match nr_Error nr with
            | Some x =>
                let l2 := failed_node id nr x l1 in
                let s2 := on_inst p (MarkNodeFailed id) s1 in
                match hyd_findErrorEdge wd id with
                | None =>
                    RStop w1 (session_stop p WorkflowInstanceStatusFailed s2) (hyd_result wd WorkflowStatusFailed WNil None l2)
                | Some edge => RNext w1 (update p (on_inst p (SetCurrentNode (ed_To edge)) s2)) l2
                end
            | None =>
                let l2 := done_node id nr l1 in
                let s2 := on_inst p (fun wi => MarkNodeCompleted id (SetVariable (id +:+ "_output") (nr_Output nr) wi)) s1 in
                match hyd_findNextNode wd id (nr_Output nr) (lp_outputs l2) w1 with
                | (w2, Err x) =>
                    RStop w2 (session_stop p WorkflowInstanceStatusFailed s2)
                      (hyd_result wd WorkflowStatusFailed WNil None (with_error x l2))
                | (w2, Ok None) =>
                    let '(s', r) := session_close wd p l2 (on_inst p (set_status WorkflowInstanceStatusCompleted) s2) in RStop w2 s' r
                | (w2, Ok (Some next)) => RNext w2 (update p (on_inst p (SetCurrentNode (nd_ID next)) s2)) l2
                end
            end
      end
  end.

Fixpoint session_nodes (fuel : nat) (wd : WorkflowDef) (p : nat) (l : Loop) (s : SState Store) (w : W)
  : option (W * SState Store * WorkflowResult) :=
  match fuel with
  | O => None
  | S fuel' =>
      wi ← sx_heap s !! p;
      match session_round wd p wi l s w with
      | RStop w' s' r => Some (w', s', r)
      | RNext w' s' l' => session_nodes fuel' wd p l' s' w'
      end
  end.

(** The instance of the session, created when there is none. *)
Definition open_session (sessionID : string) (wd : WorkflowDef) (s : SState Store) : SState Store * res error nat :=
  match ss_Get (sessionID +:+ ":" +:+ wd_ID wd) (sx_heap s) (sx_store s) with
  | (h, Ok p) => ({| sx_heap := h; sx_store := sx_store s |}, Ok p)
  | (h0, Err _) =>
      let p := fresh (dom h0) in
      let h := <[p := set_status WorkflowInstanceStatusRunning (NewWorkflowInstance (wd_ID wd) sessionID)]> h0 in
      match ss_Create p h (sx_store s) with
      | (st, None) => ({| sx_heap := h; sx_store := st |}, Ok p)
      | (st, Some e) => ({| sx_heap := h; sx_store := st |}, Err (EWrap "failed to create session: " e))
      end
  end.

(** [visited[nodeID] = 1] for the nodes already completed. *)
Definition resumed_loop (input : WValue) (wi : WorkflowInstance) : Loop :=
  {| lp_input := input; lp_outputs := wi_Variables wi; lp_results := ∅;
     lp_visited := foldl (fun m id => <[id := 1%Z]> m) ∅ (wi_CompletedNodes wi); lp_lastError := None; lp_trace := [] |}.

(** Visits allowed in total over the nodes, the one that exceeds, and the
    round that finds no current node. *)
Definition session_fuel (wd : WorkflowDef) : nat := S (S (size (wd_Nodes wd) * Z.to_nat maxRetries)).

Definition SResult : Type := option WorkflowResult * option nat * option error.

Definition session_run (wd : WorkflowDef) (p : nat) (wi : WorkflowInstance) (input : WValue) (s : SState Store) (w : W)
  : option (W * SState Store * SResult) :=
  let finish (l : Loop) (s : SState Store) :=
    (fun '(w', s', r) => (w', s', (Some r, Some p, None))) <$> session_nodes (session_fuel wd) wd p l s w in
  if String.eqb (wi_CurrentNodeID wi) "" then
    match FindStartNode wd with
    | None =>
        let e := EText "no start node found" in
        Some (w, s, (Some (hyd_result wd WorkflowStatusFailed WNil (Some e) (resumed_loop input wi)), Some p, Some e))
    | Some n => finish (resumed_loop input (SetCurrentNode (nd_ID n) wi)) (on_inst p (SetCurrentNode (nd_ID n)) s)
    end
  else
    finish (resumed_loop (match GetNode wd (wi_CurrentNodeID wi) with
                          | Some _ => GetVariable "current_input" wi
                          | None => input
                          end) wi) s.

(** [None] is a stored pointer that is not allocated, or too little fuel. *)
Definition ExecuteWithSession (store : bool) (sessionID : string) (wd : option WorkflowDef) (input : WValue)
    (s : SState Store) (w : W) : option (W * SState Store * SResult) :=
  match wd with
  | None => Some (w, s, (None, None, Some (EText "workflow definition is nil")))
  | Some d =>
      if negb store || String.eqb sessionID "" then
        (fun '(w', (r, e)) => (w', s, (r, None, e))) <$> hyd_Execute wd input w
      else
        match open_session sessionID d s with
        | (s1, Err e) => Some (w, s1, (None, None, Some e))
        | (s1, Ok p) =>
            wi ← sx_heap s1 !! p;
            session_run d p wi input s1 w
        end
  end.
End Executor.
