(* ===== verification/HydratedProps.v ===== *)
(** * Properties of the hydrated executor

    Both executions return, a fresh session computes what the plain execution
    computes, a converted workflow runs as the Datalog one does, and where the
    session bookkeeping departs from what happened. *)
From S2P Require Import Prelude GoStrings CoreErrors Facts Workflow WorkflowDef WorkflowDefProps Hydrated.
From Stdlib Require Import Ascii String.
Open Scope string_scope.

(** ** Termination *)

Lemma pick_in l b r : foldl pick b l = Some r -> b = Some r \/ r ∈ l.*2.
Proof.
  revert b. induction l as [|[id n] l IH]; intros b; cbn [foldl]; [by left|].
  intros [Hp|Hin]%IH; [|right; by right].
  destruct b as [b|]; simpl in Hp; [destruct (String.ltb id (nd_ID b))|]; simplify_eq; [right; left|by left|right; left].
Qed.

Lemma FindStartNode_in `{GoRange} wd n : FindStartNode wd = Some n -> exists id, wd_Nodes wd !! id = Some n.
Proof.
  unfold FindStartNode, GetNode.
  assert (forall l, (forall e, e ∈ l -> e ∈ range (wd_Nodes wd)) -> foldl pick None l = Some n -> exists id, wd_Nodes wd !! id = Some n) as Hl.
  { intros l Hl Hp. apply pick_in in Hp as [|([id m] & -> & He)%list_elem_of_fmap]; [done|].
    apply Hl, elem_of_range in He. by exists id. }
  destruct (if String.eqb _ _ then _ else _) as [m|] eqn:Hr.
  { intros [= <-]. destruct (String.eqb _ _); [done|]. by eexists. }
  destruct (foldl pick None (List.filter _ _)) as [m|] eqn:Hf.
  - intros [= <-]. eapply Hl; [|done]. intros e He. rewrite list_elem_of_In in *. by apply filter_In in He as [? _].
  - by apply Hl.
Qed.

Definition hyd_ids (wd : WorkflowDef) : list string := remove_dups (map (fun e => nd_ID (snd e)) (map_to_list (wd_Nodes wd))).

Lemma remove_dups_length (l : list string) : List.length (remove_dups l) <= List.length l.
Proof. induction l as [|x l IH]; simpl; [done|]. case_decide; simpl; lia. Qed.

Lemma hyd_ids_in wd id n : wd_Nodes wd !! id = Some n -> nd_ID n ∈ hyd_ids wd.
Proof.
  intros Hn. unfold hyd_ids. rewrite elem_of_remove_dups, list_elem_of_fmap. exists (id, n).
  by rewrite elem_of_map_to_list.
Qed.

Lemma hyd_ids_length wd : List.length (hyd_ids wd) <= size (wd_Nodes wd).
Proof. unfold hyd_ids. etrans; [apply remove_dups_length|]. by rewrite length_map, length_map_to_list. Qed.

Lemma visits_visit l id x : visits (visit id l) x = if decide (x = id) then (visits l id + 1)%Z else visits l x.
Proof. by apply visits_insert. Qed.

Lemma hyd_next_edge_in `{GoRange} {W : Type} (HE : HydEnv W) wd edges output previous w w' n :
  hyd_next_edge HE wd edges output previous w = (w', Ok (Some n)) -> exists id, wd_Nodes wd !! id = Some n.
Proof.
  revert w. induction edges as [|e edges IH]; intros w; cbn [hyd_next_edge]; [done|].
  destruct (String.eqb (ed_Condition e) ""); [intros [= _ Hg]; by eexists|].
  destruct (he_conditionEval HE) as [eval|]; [|apply IH].
  destruct (eval _ _ w) as [w1 [[]|]]; [intros [= _ Hg]; by eexists|apply IH|done].
Qed.

Section Termination.
Context `{GoRange} {W : Type} (E : WfEnv W) (HE : HydEnv W) (render : list string -> string) (maxRetries : Z).

(** A visit uses up one of the visits left. *)
Lemma visit_budget ids id l :
  NoDup ids -> id ∈ ids -> (forall x, 0 <= visits l x)%Z -> (visits (visit id l) id <= maxRetries)%Z ->
  S (budget maxRetries ids (visit id l)) = budget maxRetries ids l /\ (forall x, 0 <= visits (visit id l) x)%Z.
Proof.
  intros Hnd Hid Hpos Hle. rewrite visits_visit, decide_True in Hle by done. split.
  - apply (budget_visit render maxRetries ids l (visit id l) id); [done|done|apply Hpos|done|apply visits_visit].
  - intros x. rewrite visits_visit. specialize (Hpos id) as Hi. specialize (Hpos x). case_decide; lia.
Qed.

Lemma hyd_nodes_total fuel wd current l w :
  (forall n, current = Some n -> exists id, wd_Nodes wd !! id = Some n) -> (forall id, 0 <= visits l id)%Z ->
  budget maxRetries (hyd_ids wd) l < fuel -> is_Some (hyd_nodes E HE render maxRetries fuel wd current l w).
Proof.
  revert current l w. induction fuel as [|fuel IH]; intros current l w Hin Hpos Hb; [lia|].
  destruct current as [n|]; cbn [hyd_nodes]; [|eauto].
  destruct (env_ctx E w); [eauto|]. destruct (Z.ltb_spec maxRetries (visits (visit (nd_ID n) l) (nd_ID n))) as [|Hle]; [eauto|].
  destruct (Hin n eq_refl) as [k Hk].
  destruct (visit_budget (hyd_ids wd) (nd_ID n) l ltac:(apply NoDup_remove_dups) ltac:(by eapply hyd_ids_in) Hpos Hle) as [Hb1 Hpos1].
  assert (forall l2, lp_visited l2 = lp_visited (visit (nd_ID n) l) -> (forall id, 0 <= visits l2 id)%Z /\
            budget maxRetries (hyd_ids wd) l2 < fuel) as Hstep.
  { intros l2 Hv. assert (forall id, visits l2 id = visits (visit (nd_ID n) l) id) as Hvis by (intros id; unfold visits; by rewrite Hv).
    split; [intros id; rewrite Hvis; apply Hpos1|]. unfold budget in *. setoid_rewrite Hvis. lia. }
  destruct (hyd_executeNode _ _ _ _ n _ w) as [w1 nr]. destruct (nr_Error nr) as [x|].
  - destruct (hyd_findErrorEdge wd (nd_ID n)) as [edge|]; [|eauto].
    apply IH; [intros m Hm; by eexists|by apply Hstep|by apply Hstep].
  - destruct (hyd_findNextNode _ _ _ _ _ w1) as [w2 [next|x]] eqn:Hnext; [|eauto].
    apply IH; [intros m ->; by eapply hyd_next_edge_in|by apply Hstep|by apply Hstep].
Qed.

Lemma hyd_budget_start wd input : budget maxRetries (hyd_ids wd) (start_loop input) < hyd_fuel maxRetries wd.
Proof.
  unfold hyd_fuel. pose proof (budget_start maxRetries (hyd_ids wd) input). pose proof (hyd_ids_length wd). nia.
Qed.

Definition keys (wd : WorkflowDef) : list string := (map_to_list (wd_Nodes wd)).*1.

Section Session.
Context {Store : Type} `{!SessionStateStore Store}.
Implicit Types s : SState Store.

Lemma heap_on_inst p k s : sx_heap (on_inst p k s) !! p = k <$> sx_heap s !! p.
Proof. unfold on_inst. simpl. by rewrite lookup_alter_eq. Qed.

Lemma heap_update p s : sx_heap (update p s) = sx_heap s.
Proof. done. Qed.

(** The instance the next round works on. *)
Lemma round_next wd p wi l s w w' s' l' :
  sx_heap s !! p = Some wi -> session_round E HE render maxRetries wd p wi l s w = RNext w' s' l' ->
  exists n wi', wi_CurrentNodeID wi <> "" /\ GetNode wd (wi_CurrentNodeID wi) = Some n /\
    (visits (visit (wi_CurrentNodeID wi) l) (wi_CurrentNodeID wi) <= maxRetries)%Z /\
    lp_visited l' = lp_visited (visit (wi_CurrentNodeID wi) l) /\ sx_heap s' !! p = Some wi'.
Proof.
  intros Hp. unfold session_round. destruct (env_ctx E w); [done|].
  destruct (String.eqb_spec (wi_CurrentNodeID wi) "") as [|Hne]; [by unfold session_close|].
  destruct (GetNode wd (wi_CurrentNodeID wi)) as [n|] eqn:Hn; [|by unfold session_close].
  destruct (Z.ltb_spec maxRetries (visits (visit (wi_CurrentNodeID wi) l) (wi_CurrentNodeID wi))) as [|Hle]; [done|].
  destruct (hyd_executeNode _ _ _ _ n _ w) as [w1 nr]. destruct (nr_Error nr) as [x|].
  - destruct (hyd_findErrorEdge wd (nd_ID n)) as [edge|]; [|done]. intros [= <- <- <-].
    eexists n, _. split_and!; [done|done|done|done|].
    rewrite heap_update, heap_on_inst, heap_on_inst, heap_update, heap_on_inst, Hp. done.
  - destruct (hyd_findNextNode _ _ _ _ _ w1) as [w2 [[next|]|x]]; [|by unfold session_close|done]. intros [= <- <- <-].
    eexists n, _. split_and!; [done|done|done|done|].
    rewrite heap_update, heap_on_inst, heap_on_inst, heap_update, heap_on_inst, Hp. done.
Qed.

Lemma session_nodes_total fuel wd p l s w :
  is_Some (sx_heap s !! p) -> (forall id, 0 <= visits l id)%Z -> budget maxRetries (keys wd) l < fuel ->
  is_Some (session_nodes E HE render maxRetries fuel wd p l s w).
Proof.
  revert l s w. induction fuel as [|fuel IH]; intros l s w [wi Hp] Hpos Hb; [lia|].
  cbn [session_nodes]. rewrite Hp. cbn [mbind option_bind].
  destruct (session_round _ _ _ _ wd p wi l s w) as [w' s' r|w' s' l'] eqn:Hr; [eauto|].
  destruct (round_next _ _ _ _ _ _ _ _ _ Hp Hr) as (n & wi' & Hne & Hn & Hle & Hv & Hp').
  destruct (visit_budget (keys wd) (wi_CurrentNodeID wi) l) as [Hb1 Hpos1];
    [apply NoDup_fst_map_to_list|apply list_elem_of_fmap; exists (wi_CurrentNodeID wi, n); by rewrite elem_of_map_to_list|done|done|].
  assert (forall id, visits l' id = visits (visit (wi_CurrentNodeID wi) l) id) as Hvis by (intros id; unfold visits; by rewrite Hv).
  apply IH; [by eexists|intros id; rewrite Hvis; apply Hpos1|]. unfold budget in *. setoid_rewrite Hvis. lia.
Qed.

Lemma budget_le ids l : (forall id, 0 <= visits l id)%Z -> budget maxRetries ids l <= List.length ids * Z.to_nat maxRetries.
Proof.
  intros Hpos. unfold budget. induction ids as [|x ids IH]; simpl; [lia|]. specialize (Hpos x). lia.
Qed.

Lemma resumed_visits input wi id : (0 <= visits (resumed_loop input wi) id)%Z.
Proof.
  unfold visits, resumed_loop. cbn [lp_visited].
  assert (forall (ids : list string) (m : gmap string Z), (forall v, m !! id = Some v -> 0 <= v)%Z ->
            (0 <= default 0 (foldl (fun m id => <[id := 1]> m) m ids !! id))%Z) as Hm.
  { induction ids as [|x ids IH]; intros m Hm; cbn [foldl].
    - destruct (m !! id) eqn:Hi; [by apply Hm|done].
    - apply IH. intros v. rewrite lookup_insert_Some. intros [[_ <-]|[_ Hv]]; [done|by apply Hm]. }
  apply Hm. intros v. by rewrite lookup_empty.
Qed.

Lemma keys_length wd : List.length (keys wd) = size (wd_Nodes wd).
Proof. unfold keys. by rewrite length_map, length_map_to_list. Qed.

Lemma session_run_total wd p wi input s w :
  is_Some (sx_heap s !! p) -> is_Some (session_run E HE render maxRetries wd p wi input s w).
Proof.
  intros Hp. unfold session_run.
  assert (forall input' wi' s', is_Some (sx_heap s' !! p) ->
            is_Some (session_nodes E HE render maxRetries (session_fuel maxRetries wd) wd p (resumed_loop input' wi') s' w)) as Ht.
  { intros input' wi' s' Hp'. apply session_nodes_total; [done|apply resumed_visits|]. unfold session_fuel.
    pose proof (budget_le (keys wd) (resumed_loop input' wi') (resumed_visits _ _)) as Hb. rewrite keys_length in Hb. lia. }
  destruct (String.eqb _ _).
  - destruct (FindStartNode wd) as [n|]; [|eauto]. apply fmap_is_Some, Ht. rewrite heap_on_inst. by apply fmap_is_Some.
  - by apply fmap_is_Some, Ht.
Qed.

(** A store that hands out pointers to instances that exist. *)
Definition hands_out (wd : WorkflowDef) (sid : string) (s : SState Store) : Prop :=
  forall h p, ss_Get (sid +:+ ":" +:+ wd_ID wd) (sx_heap s) (sx_store s) = (h, Ok p) -> is_Some (h !! p).

Lemma execute_with_session_total store wd sid input s w :
  (forall d, wd = Some d -> hands_out d sid s) ->
  is_Some (hyd_Execute E HE render maxRetries wd input w) ->
  is_Some (ExecuteWithSession E HE render maxRetries store sid wd input s w).
Proof.
  intros Hout He. unfold ExecuteWithSession. destruct wd as [wd|]; [|eauto].
  destruct (negb store || String.eqb sid ""); [by apply fmap_is_Some|]. unfold open_session.
  specialize (Hout wd eq_refl). unfold hands_out in Hout.
  destruct (ss_Get _ _ _) as [h [p|x]].
  - destruct (Hout h p eq_refl) as [wi Hp]. cbn [sx_heap]. rewrite Hp. cbn [mbind option_bind]. apply session_run_total. by eexists.
  - destruct (ss_Create _ _ _) as [st [e|]]; [eauto|]. cbn [sx_heap]. rewrite lookup_insert_eq.
    cbn [mbind option_bind]. apply session_run_total. cbn [sx_heap]. rewrite lookup_insert_eq. by eexists.
Qed.
End Session.

Lemma hyd_Execute_total wd input w : is_Some (hyd_Execute E HE render maxRetries wd input w).
Proof.
  unfold hyd_Execute. destruct wd as [wd|]; [|eauto]. destruct (FindStartNode wd) as [n|] eqn:Hn; [|eauto].
  apply fmap_is_Some, hyd_nodes_total; [intros m [= <-]; by apply FindStartNode_in| |apply hyd_budget_start].
  intros id. unfold visits. simpl. by rewrite lookup_empty.
Qed.
End Termination.

(** Both executions of a hydrated workflow return, whatever the graph, the
    nodes and the conditions do: the fuel [hyd_fuel] (the retries allowed per
    node, over the nodes, and one) and [session_fuel] are enough, for every
    session state whose stored instances exist. *)
Theorem hydrated_terminates `{GoRange} {W : Type} (E : WfEnv W) (HE : HydEnv W) (render : list string -> string)
    (maxRetries : Z) (wd : option WorkflowDef) (input : WValue) (w : W) (sid : string) (s : SState InMemorySessionStore) :
  index_ok (sx_heap s) (sx_store s) ->
  is_Some (hyd_Execute E HE render maxRetries wd input w) /\
  is_Some (ExecuteWithSession E HE render maxRetries true sid wd input s w).
Proof.
  intros Hok. split; [apply hyd_Execute_total|]. apply execute_with_session_total; [|apply hyd_Execute_total].
  intros d _ h p [= <- Hg]. revert Hg. unfold InMemorySessionStore_Get. destruct (is_sessions (sx_store s) !! _) as [q|] eqn:Hq; [|done].
  intros [= <-]. destruct (ix_key _ _ Hok _ _ Hq) as (wi & Hwi & _). by eexists.
Qed.

(** ** A session computes what the plain execution computes *)

Definition session_status (st : WorkflowStatus) : WorkflowInstanceStatus :=
  match st with
  | WorkflowStatusCompleted => WorkflowInstanceStatusCompleted
  | WorkflowStatusCancelled => WorkflowInstanceStatusPaused
  | WorkflowStatusFailed => WorkflowInstanceStatusFailed
  | WorkflowStatusRunning => WorkflowInstanceStatusRunning
  | WorkflowStatusPending => WorkflowInstanceStatusPending
  end.

(** The store keeps the instance [wi] at [p] under [key]. *)
Definition keeps (p : nat) (key : string) (wi : WorkflowInstance) (s : SState InMemorySessionStore) : Prop :=
  sx_heap s !! p = Some wi /\ SessionKey wi = key /\ is_sessions (sx_store s) !! key = Some p.

Lemma keeps_update p key wi s : keeps p key wi s -> keeps p key wi (update p s).
Proof.
  intros (Hp & Hk & Hs). split_and!; [done|done|]. unfold update.
  cbn [sx_heap sx_store ss_Update in_memory_sessions]. unfold InMemorySessionStore_Update.
  rewrite Hp, Hk, Hs. simpl. by rewrite lookup_insert_eq.
Qed.

Lemma keeps_on_inst p key wi s k : SessionKey (k wi) = SessionKey wi -> keeps p key wi s -> keeps p key (k wi) (on_inst p k s).
Proof. intros Hk (Hp & Hk' & Hs). split_and!; [by rewrite heap_on_inst, Hp|congruence|done]. Qed.

Lemma keeps_stop p key wi s st : keeps p key wi s -> keeps p key (set_status st wi) (session_stop p st s).
Proof. intros Hk. by apply keeps_update, (keeps_on_inst p key wi s (set_status st)). Qed.

(** A definition that [Validate] accepts, with every node under its own,
    non-empty id. *)
Definition sound_def (wd : WorkflowDef) : Prop :=
  keyed wd /\ wd_Nodes wd !! "" = None /\ check_edges wd (wd_Edges wd) = None.

Lemma sound_node wd id n : sound_def wd -> wd_Nodes wd !! id = Some n -> nd_ID n = id /\ id <> "".
Proof. intros (Hk & He & _) Hn. split; [by apply Hk|]. intros ->. congruence. Qed.

Lemma sound_edge wd e : sound_def wd -> e ∈ wd_Edges wd -> is_Some (GetNode wd (ed_To e)).
Proof. intros (_ & _ & Hv) He. by apply (proj1 (check_edges_ok wd (wd_Edges wd)) Hv). Qed.

Section Agree.
Context `{GoRange} {W : Type} (E : WfEnv W) (HE : HydEnv W) (render : list string -> string) (maxRetries : Z) (wd : WorkflowDef).
Context (Hwd : sound_def wd).

(** One round of a session on node [n]: it ends with the result of the plain
    execution, or goes on as the plain execution does. *)
Lemma round_agrees fuel p key wi n l s w w' r l' :
  keeps p key wi s -> wi_CurrentNodeID wi = nd_ID n -> GetNode wd (nd_ID n) = Some n ->
  hyd_nodes E HE render maxRetries (S fuel) wd (Some n) l w = Some (w', (r, l')) ->
  (exists s' wi', session_round E HE render maxRetries wd p wi l s w = RStop w' s' r /\
     keeps p key wi' s' /\ wi_Status wi' = session_status (wr_Status r)) \/
  (exists s2 wi2 l2 w2 n2, session_round E HE render maxRetries wd p wi l s w = RNext w2 s2 l2 /\
     keeps p key wi2 s2 /\ wi_CurrentNodeID wi2 = nd_ID n2 /\ GetNode wd (nd_ID n2) = Some n2 /\
     hyd_nodes E HE render maxRetries fuel wd (Some n2) l2 w2 = Some (w', (r, l'))).
Proof.
  intros Hk Hcur Hn. cbn [hyd_nodes]. unfold session_round. rewrite Hcur, Hn.
  destruct (env_ctx E w) as [c|].
  { intros [= <- <- <-]. left. eexists _, _. split; [done|]. split; [by apply keeps_update, keeps_stop|done]. }
  destruct (sound_node _ _ _ Hwd Hn) as [_ Hne]. rewrite (proj2 (String.eqb_neq _ _) Hne).
  destruct (maxRetries <? _)%Z.
  { intros [= <- <- <-]. left. eexists _, _. split; [done|]. split; [by apply keeps_stop|done]. }
  set (wi1 := SetVariable "current_input" (lp_input (visit (nd_ID n) l)) wi).
  set (s1 := update p (on_inst p _ s)). assert (keeps p key wi1 s1) as Hk1.
  { apply keeps_update, (keeps_on_inst p key wi s (SetVariable "current_input" (lp_input (visit (nd_ID n) l)))); done. }
  clearbody s1 wi1. destruct (hyd_executeNode _ _ _ _ n _ w) as [w1 nr].
  destruct (nr_Error nr) as [x|].
  - set (s2 := on_inst p (MarkNodeFailed (nd_ID n)) s1).
    assert (keeps p key (MarkNodeFailed (nd_ID n) wi1) s2) as Hk2 by (by apply (keeps_on_inst p key wi1 s1 (MarkNodeFailed (nd_ID n)))).
    clearbody s2. destruct (hyd_findErrorEdge wd (nd_ID n)) as [edge|] eqn:Hedge.
    + intros Hrun. right. apply List.find_some in Hedge as [Hin _].
      destruct (sound_edge wd edge Hwd) as [n2 Hn2]; [by apply list_elem_of_In|].
      rewrite Hn2 in Hrun. destruct (sound_node _ _ _ Hwd Hn2) as [E2 _]. rewrite <- E2 in *.
      eexists _, _, _, _, n2. split; [done|]. split.
      { eapply keeps_update, keeps_on_inst; [|exact Hk2]; done. }
      split; [done|]. split; [done|exact Hrun].
    + intros [= <- <- <-]. left. eexists _, _. split; [done|]. split; [by apply keeps_stop|done].
  - set (s2 := on_inst p _ s1).
    assert (keeps p key (MarkNodeCompleted (nd_ID n) (SetVariable (nd_ID n +:+ "_output") (nr_Output nr) wi1)) s2) as Hk2.
    { apply (keeps_on_inst p key wi1 s1 (fun wi => MarkNodeCompleted (nd_ID n) (SetVariable (nd_ID n +:+ "_output") (nr_Output nr) wi))); done. }
    clearbody s2. destruct (hyd_findNextNode _ _ _ _ _ w1) as [w2 [[n2|]|x]] eqn:Hnext.
    + intros Hrun. right. destruct (hyd_next_edge_in _ _ _ _ _ _ _ _ Hnext) as [k2 Hn2].
      destruct (sound_node _ _ _ Hwd Hn2) as [E2 _]. rewrite <- E2 in Hn2.
      eexists _, _, _, _, n2. split; [done|]. split.
      { eapply keeps_update, keeps_on_inst; [|exact Hk2]; done. }
      split; [done|]. split; [done|exact Hrun].
    + intros Hfin. left. assert (Some (w2, (hyd_finish wd (done_node (nd_ID n) nr (visit (nd_ID n) l)), done_node (nd_ID n) nr (visit (nd_ID n) l)))
                                   = Some (w', (r, l'))) as Hfin' by (rewrite <- Hfin; by destruct fuel).
      injection Hfin' as <- <- <-. unfold session_close. eexists _, _. split; [done|]. split.
      * eapply keeps_update, keeps_on_inst; [|eapply keeps_on_inst; [|exact Hk2]]; done.
      * unfold hyd_finish. by destruct (lp_lastError _).
    + intros [= <- <- <-]. left. eexists _, _. split; [done|]. split; [by apply keeps_stop|done].
Qed.

Lemma session_agrees fuel extra p key wi n l s w w' r l' :
  keeps p key wi s -> wi_CurrentNodeID wi = nd_ID n -> GetNode wd (nd_ID n) = Some n ->
  hyd_nodes E HE render maxRetries fuel wd (Some n) l w = Some (w', (r, l')) ->
  exists s' wi', session_nodes E HE render maxRetries (fuel + extra) wd p l s w = Some (w', s', r) /\
    keeps p key wi' s' /\ wi_Status wi' = session_status (wr_Status r).
Proof.
  revert wi n l s w. induction fuel as [|fuel IH]; intros wi n l s w Hk Hcur Hn Hrun; [done|].
  cbn [Nat.add session_nodes]. pose proof Hk as (Hp & _ & _). rewrite Hp. cbn [mbind option_bind].
  destruct (round_agrees _ _ _ _ _ _ _ _ _ _ _ Hk Hcur Hn Hrun)
    as [(s' & wi' & -> & Hk' & Hst)|(s2 & wi2 & l2 & w2 & n2 & -> & Hk2 & Hcur2 & Hn2 & Hrun2)].
  - by exists s', wi'.
  - by eapply IH.
Qed.
End Agree.

(** A run on a fresh session of the in-memory store. *)
Lemma fresh_session_runs `{GoRange} {W : Type} (E : WfEnv W) (HE : HydEnv W) (render : list string -> string)
    (maxRetries : Z) (wd : WorkflowDef) (input : WValue) (w : W) (sid : string) (s : SState InMemorySessionStore) :
  sound_def wd -> wd_Nodes wd <> ∅ -> sid <> "" -> is_sessions (sx_store s) !! (sid +:+ ":" +:+ wd_ID wd) = None ->
  exists w' r s' p wi,
    hyd_Execute E HE render maxRetries (Some wd) input w = Some (w', (Some r, None)) /\
    ExecuteWithSession E HE render maxRetries true sid (Some wd) input s w = Some (w', s', (Some r, Some p, None)) /\
    InMemorySessionStore_Get (sid +:+ ":" +:+ wd_ID wd) (sx_store s') = Ok p /\
    sx_heap s' !! p = Some wi /\ wi_Status wi = session_status (wr_Status r).
Proof.
  intros Hwd Hne Hsid Hfresh. pose proof Hwd as (Hkeyed & _ & _).
  assert (exists n, FindStartNode wd = Some n) as [n Hn].
  { destruct (FindStartNode wd) eqn:Hs; [by eexists|]. by apply (start_node_least _ _ wd Hkeyed) in Hs. }
  destruct (FindStartNode_in wd n Hn) as [id Hid]. destruct (sound_node wd id n Hwd Hid) as [Eid Hidne].
  destruct (hyd_nodes_total E HE render maxRetries (hyd_fuel maxRetries wd) wd (Some n) (start_loop input) w) as [[w' [r l']] Hrun].
  { intros m [= <-]. by exists id. }
  { intros x. unfold visits. simpl. by rewrite lookup_empty. }
  { apply hyd_budget_start. }
  set (p := fresh (dom (sx_heap s))).
  set (wi0 := set_status WorkflowInstanceStatusRunning (NewWorkflowInstance (wd_ID wd) sid)).
  set (h := <[p := wi0]> (sx_heap s)).
  destruct (InMemorySessionStore_Create p h (sx_store s)) as [st err] eqn:Hcr.
  assert (err = None /\ is_sessions st !! (sid +:+ ":" +:+ wd_ID wd) = Some p) as [-> Hst].
  { unfold InMemorySessionStore_Create, h in Hcr. rewrite lookup_insert_eq in Hcr.
    change (SessionKey wi0) with (sid +:+ ":" +:+ wd_ID wd) in Hcr. rewrite Hfresh in Hcr.
    injection Hcr as <- <-. simpl. by rewrite lookup_insert_eq. }
  set (s1 := {| sx_heap := h; sx_store := st |}).
  assert (keeps p (sid +:+ ":" +:+ wd_ID wd) (SetCurrentNode (nd_ID n) wi0) (on_inst p (SetCurrentNode (nd_ID n)) s1)) as Hk.
  { apply (keeps_on_inst p _ wi0 s1); [done|]. split; [|split; [done|done]]. unfold s1, h. simpl. by rewrite lookup_insert_eq. }
  destruct (session_agrees E HE render maxRetries wd Hwd (hyd_fuel maxRetries wd) 1 _ _ _ n (start_loop input) _ w w' r l' Hk
              eq_refl ltac:(by rewrite Eid) Hrun) as (s' & wi & Hses & (Hp & _ & Hstore) & Hstatus).
  exists w', r, s', p, wi. split_and!; [| | |done|done].
  - unfold hyd_Execute. rewrite Hn. by rewrite Hrun.
  - unfold ExecuteWithSession. cbn [negb orb]. rewrite (proj2 (String.eqb_neq _ _) Hsid).
    unfold open_session; cbn [ss_Get ss_Create in_memory_sessions]; unfold InMemorySessionStore_Get. rewrite Hfresh. fold p wi0 h. rewrite Hcr. fold s1.
    assert (sx_heap s1 !! p = Some wi0) as -> by (unfold s1, h; simpl; by rewrite lookup_insert_eq). cbn [mbind option_bind]. unfold session_run.
    cbn [wi0 set_status wi_CurrentNodeID NewWorkflowInstance]. rewrite String.eqb_refl, Hn.
    change (resumed_loop input (SetCurrentNode (nd_ID n) wi0)) with (start_loop input).
    replace (session_fuel maxRetries wd) with (hyd_fuel maxRetries wd + 1) by (unfold session_fuel, hyd_fuel; lia).
    rewrite Hses. done.
  - unfold InMemorySessionStore_Get. by rewrite Hstore.
Qed.

(** C27: Running on a new session is running: for a valid definition with a
    start node, [ExecuteWithSession] on a session that has no instance yet
    makes the same calls and returns the same result as [Execute], and
    afterwards the store holds an instance of the session whose status is
    that of the result (paused when the run was cancelled). *)
Theorem fresh_session_agrees `{GoRange} {W : Type} (E : WfEnv W) (HE : HydEnv W) (render : list string -> string)
    (maxRetries : Z) (wd : WorkflowDef) (input : WValue) (w : W) (sid : string) (s : SState InMemorySessionStore) :
  sound_def wd -> wd_Nodes wd <> ∅ -> sid <> "" -> is_sessions (sx_store s) !! (sid +:+ ":" +:+ wd_ID wd) = None ->
  exists w' r s' p wi,
    hyd_Execute E HE render maxRetries (Some wd) input w = Some (w', (Some r, None)) /\
    ExecuteWithSession E HE render maxRetries true sid (Some wd) input s w = Some (w', s', (Some r, Some p, None)) /\
    InMemorySessionStore_Get (sid +:+ ":" +:+ wd_ID wd) (sx_store s') = Ok p /\
    sx_heap s' !! p = Some wi /\ wi_Status wi = session_status (wr_Status r).
Proof. by apply fresh_session_runs. Qed.

(** ** A converted workflow runs as the Datalog one *)

Section Converted.
Context `{GoRange} {W : Type} (E : WfEnv W) (HE : HydEnv W) (render : list string -> string) (maxRetries : Z) (wf : Workflow).
Context (Hnd : NoDup (map n_ID (wf_Nodes wf))) (Hne : "" ∉ map n_ID (wf_Nodes wf)).
(** The two executors find the same agents and judge conditions alike. *)
Context (Hagent : forall role w, exists w1 a, env_agent E role w = (w1, Some a) /\ find_agent HE role w = (w1, a)).
Context (Hcond : forall c out prev w, c <> "" -> exists eval, he_conditionEval HE = Some eval /\
           eval c (condition_facts out prev) w = evaluateCondition E render c out prev w).

Notation wd := (convertToWorkflowDef wf).

Lemma lookup_inserts (l : list WorkflowNode) (m : gmap string NodeDef) id :
  NoDup (map n_ID l) ->
  foldl (fun m n => <[n_ID n := node_def n]> m) m l !! id
  = match List.find (fun n => String.eqb (n_ID n) id) l with Some n => Some (node_def n) | None => m !! id end.
Proof.
  revert m. induction l as [|n l IH]; intros m Hl; cbn [foldl map List.find]; [done|].
  apply NoDup_cons in Hl as [Hn Hl]. rewrite IH by done.
  destruct (String.eqb_spec (n_ID n) id) as [<-|Hid].
  - destruct (List.find _ l) as [n'|] eqn:Hf; [|by rewrite lookup_insert_eq].
    apply List.find_some in Hf as [Hin E']. apply String.eqb_eq in E'. destruct Hn. rewrite <- E'.
    apply list_elem_of_fmap. exists n'. split; [done|by apply list_elem_of_In].
  - destruct (List.find _ l); [done|]. by rewrite lookup_insert_ne.
Qed.

Lemma GetNode_converted id : GetNode wd id = node_def <$> findNodeByID wf id.
Proof.
  unfold GetNode, findNodeByID. simpl. rewrite lookup_inserts by done. rewrite lookup_empty.
  by destruct (List.find _ _).
Qed.

Lemma node_roundtrip n : toWorkflowNode render (node_def n) = n.
Proof.
  unfold toWorkflowNode, node_def. destruct n as [i t a c]. simpl. f_equal. rewrite <- map_fmap_compose.
  rewrite <- (map_fmap_id c) at 2. by apply map_fmap_ext.
Qed.

Lemma find_map {A B : Type} (f : A -> B) (q : B -> bool) l : List.find q (map f l) = f <$> List.find (fun x => q (f x)) l.
Proof. induction l as [|x l IH]; simpl; [done|]. by destruct (q (f x)). Qed.

Lemma filter_map_comm {A B : Type} (f : A -> B) (q : B -> bool) l :
  List.filter q (map f l) = map f (List.filter (fun x => q (f x)) l).
Proof. induction l as [|x l IH]; simpl; [done|]. destruct (q (f x)); simpl; by rewrite IH. Qed.

Lemma errorEdge_converted n : hyd_findErrorEdge wd (n_ID n) = edge_def <$> findErrorEdge wf n.
Proof. unfold hyd_findErrorEdge, findErrorEdge. simpl. by rewrite find_map. Qed.

Lemma next_converted edges out prev w :
  hyd_next_edge HE wd (map edge_def edges) out prev w
  = let '(w1, r) := next_edge E render wf edges out prev w in
    (w1, match r with Ok n => Ok (node_def <$> n) | Err x => Err x end).
Proof.
  revert w. induction edges as [|e edges IH]; intros w; cbn [map hyd_next_edge next_edge]; [done|].
  change (ed_Condition (edge_def e)) with (e_Condition e). change (ed_To (edge_def e)) with (e_To e).
  destruct (String.eqb_spec (e_Condition e) "") as [|Hc]; [by rewrite GetNode_converted|].
  destruct (Hcond (e_Condition e) out prev w Hc) as (eval & -> & ->).
  destruct (evaluateCondition _ _ _ _ _ w) as [w1 [[]|x]]; [by rewrite GetNode_converted|apply IH|done].
Qed.

Lemma execute_converted n input w : hyd_executeNode E HE render maxRetries (node_def n) input w = executeNode E maxRetries n input w.
Proof.
  unfold hyd_executeNode, executeNode. rewrite node_roundtrip. change (nd_AgentRole (node_def n)) with (n_Agent n).
  destruct (Hagent (n_Agent n) w) as (w1 & a & -> & ->). done.
Qed.

Lemma run_converted fuel current l w :
  hyd_nodes E HE render maxRetries fuel wd (node_def <$> current) l w = run_nodes E render maxRetries fuel wf current l w.
Proof.
  revert current l w. induction fuel as [|fuel IH]; intros [n|] l w; cbn [fmap option_fmap option_map hyd_nodes run_nodes]; try done.
  destruct (env_ctx E w); [done|]. change (nd_ID (node_def n)) with (n_ID n).
  rewrite visits_visit, decide_True by done. fold (visit (n_ID n) l).
  destruct (maxRetries <? _)%Z; [done|]. rewrite execute_converted.
  destruct (executeNode _ _ n _ w) as [w1 nr]. destruct (nr_Error nr) as [x|].
  - rewrite errorEdge_converted. destruct (findErrorEdge wf n) as [edge|]; [|done]. cbn [fmap option_fmap option_map].
    change (ed_To (edge_def edge)) with (e_To edge). rewrite GetNode_converted. apply IH.
  - unfold hyd_findNextNode, findNextNode, GetOutgoingEdges. simpl. rewrite filter_map_comm, next_converted. simpl.
    destruct (next_edge _ _ _ _ _ _ w1) as [w2 [next|x]]; [apply IH|done].
Qed.

Lemma inserts_size (l : list WorkflowNode) (m : gmap string NodeDef) :
  NoDup (map n_ID l) -> (forall n, n ∈ l -> m !! n_ID n = None) ->
  size (foldl (fun m n => <[n_ID n := node_def n]> m) m l) = size m + List.length l.
Proof.
  revert m. induction l as [|n l IH]; intros m Hl Hm; cbn [foldl map List.length]; [lia|].
  apply NoDup_cons in Hl as [Hn Hl]. rewrite IH; [|done|].
  - rewrite map_size_insert_None by (apply Hm; by left). lia.
  - intros x Hx. rewrite lookup_insert_ne; [apply Hm; by right|]. intros E'. apply Hn. rewrite E'.
    apply list_elem_of_fmap. by exists x.
Qed.

Lemma fuel_converted : hyd_fuel maxRetries wd = workflow_fuel maxRetries wf.
Proof.
  unfold hyd_fuel, workflow_fuel, node_ids. simpl. rewrite inserts_size by (done || (intros; apply lookup_empty)).
  rewrite map_size_empty. clear -Hnd.
  assert (forall l : list string, NoDup l -> remove_dups l = l) as Hr.
  { induction l as [|x l IH]; simpl; [done|]. intros [Hx Hl]%NoDup_cons. case_decide; [done|]. by rewrite IH. }
  rewrite Hr by done. by rewrite length_map.
Qed.

Lemma start_converted n :
  findStartNode wf = Some n -> loader_findStartNode wf = findStartNode wf -> FindStartNode wd = Some (node_def n).
Proof.
  intros Hn Hl. unfold FindStartNode. cbn [convertToWorkflowDef wd_RootNodeID]. rewrite Hl, Hn.
  assert (n ∈ wf_Nodes wf) as Hin by (by apply findStartNode_in).
  assert (n_ID n <> "") as Hid by (intros E'; apply Hne; rewrite <- E'; apply list_elem_of_fmap; by exists n).
  rewrite (proj2 (String.eqb_neq _ _) Hid).
  assert (GetNode wd (n_ID n) = Some (node_def n)) as Hg; [|unfold GetNode in *; simpl in *; by rewrite Hg].
  rewrite GetNode_converted. unfold findNodeByID. clear -Hnd Hin. induction (wf_Nodes wf) as [|x l IH]; [by apply not_elem_of_nil in Hin|].
  cbn [List.find map] in *. apply NoDup_cons in Hnd as [Hx Hnd]. apply elem_of_cons in Hin as [->|Hin]; [by rewrite String.eqb_refl|].
  destruct (String.eqb_spec (n_ID x) (n_ID n)) as [E'|]; [|by apply IH].
  destruct Hx. rewrite E'. apply list_elem_of_fmap. by exists n.
Qed.
End Converted.

(** The two executors agree: a Datalog workflow with distinct, non-empty
    node ids whose start node both choose alike runs the same after its
    conversion to a [WorkflowDef]: with the same node executor, agents and
    condition verdicts, both make the same calls and return the same result. *)
Theorem converted_workflow_agrees `{GoRange} {W : Type} (E : WfEnv W) (HE : HydEnv W) (render : list string -> string)
    (maxRetries : Z) (wf : Workflow) (input : WValue) (w : W) :
  NoDup (map n_ID (wf_Nodes wf)) -> "" ∉ map n_ID (wf_Nodes wf) -> wf_Nodes wf <> [] ->
  loader_findStartNode wf = findStartNode wf ->
  (forall role w, exists w1 a, env_agent E role w = (w1, Some a) /\ find_agent HE role w = (w1, a)) ->
  (forall c out prev w, c <> "" -> exists eval, he_conditionEval HE = Some eval /\
     eval c (condition_facts out prev) w = evaluateCondition E render c out prev w) ->
  exists w' r, ExecuteWorkflow E render maxRetries wf input w = Some (w', (r, None)) /\
    hyd_Execute E HE render maxRetries (Some (convertToWorkflowDef wf)) input w = Some (w', (Some r, None)).
Proof.
  intros Hnd Hne Hnodes Hstart Hagent Hcond.
  assert (exists n, findStartNode wf = Some n) as [n Hn].
  { unfold findStartNode. destruct (List.find _ _); [by eexists|]. destruct (wf_Nodes wf); [done|by eexists]. }
  destruct (run_nodes_total E render maxRetries (workflow_fuel maxRetries wf) wf (Some n) (start_loop input) w) as [[w' [r l]] Hrun].
  { intros m [= <-]. by apply findStartNode_in. }
  { intros id. unfold visits. simpl. by rewrite lookup_empty. }
  { unfold workflow_fuel. pose proof (budget_start maxRetries (node_ids wf) input). lia. }
  exists w', r. unfold ExecuteWorkflow, hyd_Execute.
  rewrite Hn, Hrun, (start_converted wf Hnd Hne n Hn Hstart). split; [done|].
  rewrite fuel_converted by done. change (Some (node_def n)) with (node_def <$> Some n).
  rewrite run_converted by done. by rewrite Hrun.
Qed.

(** ** Where the bookkeeping departs *)

Lemma completed_with_in wi id : id ∈ completed_with wi id.
Proof.
  unfold completed_with, IsNodeCompleted. destruct (existsb _ _) eqn:He; [|set_solver].
  apply existsb_exists in He as (x & Hin & ->%String.eqb_eq). by apply list_elem_of_In.
Qed.

(** A failed node counts as completed: when the node of a round fails and
    its error edge is taken, the instance records it as failed and also as
    completed, because [SetCurrentNode] completes the node it leaves; a
    resumed session counts a visit for it. *)
Theorem failed_node_recorded_completed `{GoRange} {W : Type} (E : WfEnv W) (HE : HydEnv W) (render : list string -> string)
    (maxRetries : Z) (wd : WorkflowDef) (p : nat) (wi : WorkflowInstance) (l : Loop) (s : SState InMemorySessionStore) (w : W)
    (n : NodeDef) (w1 w' : W) (nr : NodeResult) (s' : SState InMemorySessionStore) (l' : Loop) :
  sx_heap s !! p = Some wi -> GetNode wd (wi_CurrentNodeID wi) = Some n -> nd_ID n = wi_CurrentNodeID wi ->
  hyd_executeNode E HE render maxRetries n (lp_input l) w = (w1, nr) -> nr_Error nr <> None ->
  session_round E HE render maxRetries wd p wi l s w = RNext w' s' l' ->
  exists wi', sx_heap s' !! p = Some wi' /\ nd_ID n ∈ wi_CompletedNodes wi' /\ nd_ID n ∈ wi_FailedNodes wi' /\
    forall input, visits (resumed_loop input wi') (nd_ID n) = 1%Z.
Proof.
  intros Hp Hn Hid Hex Herr. unfold session_round. rewrite Hn. destruct (env_ctx E w); [done|].
  destruct (String.eqb_spec (wi_CurrentNodeID wi) "") as [|Hne]; [by unfold session_close|].
  destruct (maxRetries <? _)%Z; [done|]. cbn [visit lp_input]. rewrite Hex. destruct (nr_Error nr) as [x|]; [|done].
  destruct (hyd_findErrorEdge wd (nd_ID n)) as [edge|]; [|done]. intros [= <- <- <-].
  set (wi1 := MarkNodeFailed (nd_ID n) (SetVariable "current_input" (lp_input l) wi)).
  exists (SetCurrentNode (ed_To edge) wi1). rewrite heap_update, heap_on_inst, heap_on_inst, heap_update, heap_on_inst, Hp.
  assert (nd_ID n ∈ wi_CompletedNodes (SetCurrentNode (ed_To edge) wi1)) as Hin.
  { unfold SetCurrentNode. cbn [wi_progress wi_CompletedNodes]. change (wi_CurrentNodeID wi1) with (wi_CurrentNodeID wi).
    rewrite (proj2 (String.eqb_neq _ _) Hne), Hid. apply completed_with_in. }
  split_and!; [done|done|simpl; set_solver|]. intros input. unfold visits, resumed_loop. cbn [lp_visited].
  generalize (∅ : gmap string Z). revert Hin. generalize (wi_CompletedNodes (SetCurrentNode (ed_To edge) wi1)).
  assert (forall l (m : gmap string Z), m !! nd_ID n = Some 1%Z -> foldl (fun m id => <[id := 1%Z]> m) m l !! nd_ID n = Some 1%Z) as Hkeep.
  { induction l0 as [|y l0 IH]; intros m Hm; cbn [foldl]; [done|]. apply IH. rewrite lookup_insert. by case_decide. }
  induction l0 as [|y l0 IH]; intros Hin m; [by apply not_elem_of_nil in Hin|]. cbn [foldl].
  destruct (decide (y = nd_ID n)) as [->|Hy].
  - rewrite Hkeep; [done|]. by rewrite lookup_insert_eq.
  - apply IH. apply elem_of_cons in Hin as [E'|]; [by destruct Hy|done].
Qed.

(** A session that points to a node its workflow no longer has is reported
    completed: nothing runs, the output is the caller's input, and the
    instance is marked completed. *)
Theorem stale_session_completes `{GoRange} {W : Type} (E : WfEnv W) (HE : HydEnv W) (render : list string -> string)
    (maxRetries : Z) (wd : WorkflowDef) (input : WValue) (w : W) (sid : string) (s : SState InMemorySessionStore) (p : nat) (wi : WorkflowInstance) :
  env_ctx E w = None -> keeps p (sid +:+ ":" +:+ wd_ID wd) wi s -> sid <> "" ->
  wi_CurrentNodeID wi <> "" -> GetNode wd (wi_CurrentNodeID wi) = None ->
  exists r s' wi', ExecuteWithSession E HE render maxRetries true sid (Some wd) input s w = Some (w, s', (Some r, Some p, None)) /\
    wr_Status r = WorkflowStatusCompleted /\ wr_Output r = input /\ wr_NodeResults r = ∅ /\
    sx_heap s' !! p = Some wi' /\ wi_Status wi' = WorkflowInstanceStatusCompleted.
Proof.
  intros Hctx (Hp & Hkey & Hst) Hsid Hcur Hnone. destruct s as [h0 st]. cbn [sx_heap sx_store] in *.
  unfold ExecuteWithSession. cbn [negb orb].
  rewrite (proj2 (String.eqb_neq _ _) Hsid). unfold open_session; cbn [ss_Get ss_Create in_memory_sessions]; unfold InMemorySessionStore_Get.
  cbn [sx_heap sx_store]. rewrite Hst. cbn [sx_heap]. rewrite Hp.
  cbn [mbind option_bind]. unfold session_run. rewrite (proj2 (String.eqb_neq _ _) Hcur), Hnone.
  unfold session_fuel. cbn [session_nodes sx_heap]. rewrite Hp. cbn [mbind option_bind]. unfold session_round.
  rewrite Hctx, (proj2 (String.eqb_neq _ _) Hcur), Hnone. unfold session_close. cbn [resumed_loop lp_lastError].
  eexists _, _, _. split; [done|]. split_and!; [done|done|done| |].
  - rewrite heap_update, heap_on_inst. cbn [sx_heap]. by rewrite Hp.
  - done.
Qed.

(** ** Examples *)

Definition echo_env : WfEnv nat :=
  {| env_agent role w := (w, Some "agent");
     env_exec n input agent w := if String.eqb (n_ID n) "bad" then (S w, Err (EText "bad node")) else (S w, Ok input);
     env_query facts query w := (w, Ok 1); env_ctx w := None; env_wait n w := (w, None) |}.
Definition plain_env : HydEnv nat :=
  {| he_agentFinder := Some (fun role w => (w, Ok ["agent"]));
     he_conditionEval := Some (fun c facts w => (w, Ok true)) |}.
Definition node (id : string) : NodeDef := {| nd_ID := id; nd_AgentRole := "role"; nd_TaskType := "agent"; nd_Config := ∅ |}.
Definition one_node : WorkflowDef :=
  {| wd_ID := "w"; wd_Name := ""; wd_Version := ""; wd_RootNodeID := ""; wd_Nodes := {["a" := node "a"]}; wd_Edges := [] |}.
Definition no_sessions : SState InMemorySessionStore := {| sx_heap := ∅; sx_store := NewInMemorySessionStore |}.
Definition run_one (id : string) (input : WValue) (s : SState InMemorySessionStore) (w : nat) : option (nat * SState InMemorySessionStore * SResult) :=
  ExecuteWithSession (H := stored_order) echo_env plain_env (fun _ => "") 3 true id (Some one_node) input s w.

(** A completed session runs its last node again: calling
    [ExecuteWithSession] once more on a session that completed executes the
    last node a second time, with the input of the first call instead of the
    new one. *)
Theorem completed_session_reruns :
  match run_one "s" (WStr "first") no_sessions 0 with
  | Some (1, s1, (Some r1, Some p, None)) =>
      wr_Status r1 = WorkflowStatusCompleted /\ wi_Status <$> sx_heap s1 !! p = Some WorkflowInstanceStatusCompleted /\
      match run_one "s" (WStr "second") s1 1 with
      | Some (2, _, (Some r2, _, None)) =>
          wr_Status r2 = WorkflowStatusCompleted /\ wr_Output r2 = WStr "first" /\
          nr_Input <$> wr_NodeResults r2 !! "a" = Some (WStr "first")
      | _ => False
      end
  | _ => False
  end.
Proof. vm_compute. repeat split. Qed.

(** ** Witnesses *)

Lemma sound_one_node : sound_def one_node.
Proof.
  split_and!; [|done|done]. intros id n. cbn [one_node wd_Nodes]. rewrite lookup_singleton_Some. by intros [<- <-].
Defined.

Lemma empty_index : index_ok (sx_heap no_sessions) (sx_store no_sessions).
Proof. split; simpl; intros *; rewrite lookup_empty; discriminate. Defined.

Lemma hydrated_terminates_witness :
  is_Some (hyd_Execute (H := stored_order) echo_env plain_env (fun _ => "") 3 (Some one_node) (WStr "in") 0) /\
  is_Some (ExecuteWithSession (H := stored_order) echo_env plain_env (fun _ => "") 3 true "s" (Some one_node) (WStr "in") no_sessions 0).
Proof.
  apply (hydrated_terminates (H := stored_order) echo_env plain_env (fun _ => "") 3 (Some one_node) (WStr "in") 0 "s" no_sessions empty_index).
Defined.

Lemma fresh_session_agrees_witness :
  exists w' r s' p wi,
    hyd_Execute (H := stored_order) echo_env plain_env (fun _ => "") 3 (Some one_node) (WStr "in") 0 = Some (w', (Some r, None)) /\
    ExecuteWithSession (H := stored_order) echo_env plain_env (fun _ => "") 3 true "s" (Some one_node) (WStr "in") no_sessions 0
      = Some (w', s', (Some r, Some p, None)) /\
    InMemorySessionStore_Get "s:w" (sx_store s') = Ok p /\
    sx_heap s' !! p = Some wi /\ wi_Status wi = session_status (wr_Status r).
Proof.
  apply (fresh_session_agrees (H := stored_order) echo_env plain_env (fun _ => "") 3 one_node (WStr "in") 0 "s" no_sessions
           sound_one_node); [discriminate|discriminate|reflexivity].
Defined.

Definition chain : Workflow :=
  {| wf_ID := "w"; wf_Name := ""; wf_Version := "";
     wf_Nodes := [{| n_ID := "a"; n_Type := "agent"; n_Agent := "r"; n_Config := ∅ |};
                  {| n_ID := "b"; n_Type := "agent"; n_Agent := "r"; n_Config := ∅ |}];
     wf_Edges := [{| e_From := "a"; e_To := "b"; e_Condition := "ok(X)" |}] |}.

Lemma converted_workflow_agrees_witness :
  exists w' r, ExecuteWorkflow echo_env (fun _ => "") 3 chain (WStr "in") 0 = Some (w', (r, None)) /\
    hyd_Execute (H := stored_order) echo_env plain_env (fun _ => "") 3 (Some (convertToWorkflowDef chain)) (WStr "in") 0
      = Some (w', (Some r, None)).
Proof.
  apply (converted_workflow_agrees (H := stored_order) echo_env plain_env (fun _ => "") 3 chain (WStr "in") 0).
  - apply (bool_decide_unpack _). by vm_compute.
  - apply (bool_decide_unpack _). by vm_compute.
  - discriminate.
  - reflexivity.
  - intros role w. exists w, "agent". done.
  - intros c out prev w Hc. eexists. split; [reflexivity|]. unfold evaluateCondition.
    by rewrite (proj2 (String.eqb_neq c "") Hc).
Defined.

Definition with_bad : WorkflowDef :=
  {| wd_ID := "w"; wd_Name := ""; wd_Version := ""; wd_RootNodeID := "bad"; wd_Nodes := {["bad" := node "bad"; "a" := node "a"]};
     wd_Edges := [{| ed_From := "bad"; ed_To := "a"; ed_Condition := "error" |}] |}.
Definition at_bad : WorkflowInstance := SetCurrentNode "bad" (NewWorkflowInstance "w" "s").
Definition bad_state : SState InMemorySessionStore := {| sx_heap := {[1 := at_bad]}; sx_store := NewInMemorySessionStore |}.

Lemma failed_node_recorded_completed_witness :
  exists w' s' l' wi', session_round echo_env plain_env (fun _ => "") 3 with_bad 1 at_bad (start_loop WNil) bad_state 0
      = RNext w' s' l' /\
    sx_heap s' !! 1 = Some wi' /\ "bad" ∈ wi_CompletedNodes wi' /\ "bad" ∈ wi_FailedNodes wi' /\
    forall input, visits (resumed_loop input wi') "bad" = 1%Z.
Proof.
  destruct (session_round echo_env plain_env (fun _ => "") 3 with_bad 1 at_bad (start_loop WNil) bad_state 0)
    as [w' s' r|w' s' l'] eqn:Hr; [vm_compute in Hr; discriminate|].
  destruct (hyd_executeNode echo_env plain_env (fun _ => "") 3 (node "bad") WNil 0) as [w1 nr] eqn:Hx.
  assert (nr_Error nr <> None) as Herr by (vm_compute in Hx; injection Hx as _ <-; discriminate).
  destruct (failed_node_recorded_completed (H := stored_order) echo_env plain_env (fun _ => "") 3 with_bad 1 at_bad (start_loop WNil)
              bad_state 0 (node "bad") w1 w' nr s' l' eq_refl eq_refl eq_refl Hx Herr Hr) as (wi' & Hw).
  exists w', s', l', wi'. split; [reflexivity|exact Hw].
Defined.

Lemma stale_session_completes_witness :
  let s := {| sx_heap := {[1 := at_bad]}; sx_store := fst (InMemorySessionStore_Create 1 {[1 := at_bad]} NewInMemorySessionStore) |} in
  exists r s' wi', ExecuteWithSession (H := stored_order) echo_env plain_env (fun _ => "") 3 true "s" (Some one_node) (WStr "in") s 0
      = Some (0, s', (Some r, Some 1, None)) /\
    wr_Status r = WorkflowStatusCompleted /\ wr_Output r = WStr "in" /\ wr_NodeResults r = ∅ /\
    sx_heap s' !! 1 = Some wi' /\ wi_Status wi' = WorkflowInstanceStatusCompleted.
Proof.
  intros s. apply (stale_session_completes (H := stored_order) echo_env plain_env (fun _ => "") 3 one_node (WStr "in") 0 "s" s 1 at_bad);
    [reflexivity|split; [reflexivity|split; reflexivity]|discriminate|discriminate|reflexivity].
Defined.
