(* ===== verification/AgentSystem.v ===== *)
(** * The agent system

    [multiagent/agent_system.go] and the adapters of [multiagent/loader.go]:
    agents, roles and workflows read from Datalog, a cache of the agents
    already read, and the conditions of workflow edges.

    The policy engine is the interface [AgentEngine] ([Query] of solver.go and
    the persistent policies of runtime.go), over an engine state [S].  The four
    queries that [GetAgent] starts concurrently are made in the order they are
    started, one of their schedules.  Agents are handed out as pointers into
    the cache, so the cache entry is the agent. *)
From S2P Require Import Prelude GoStrings CoreErrors CoreTypes Facts Datalog Runtime Solver Workflow WorkflowDef Hydrated.
From Stdlib Require Import Ascii String.
Open Scope string_scope.

Definition StatusAvailable : string := "available".
Definition StatusBusy : string := "busy".
Definition StatusOffline : string := "offline".

Record Agent := {
  ag_ID : string;
  ag_Role : string;
  ag_Capabilities : list string;
  ag_Config : gmap string string;
  ag_Status : string
}.

Class AgentEngine (S : Type) := {
  ae_query : list string -> string -> S -> S * res error (list (gmap string string));
  ae_persist : string -> S -> S * option error
}.

(** The policy engine as the agent system's engine. *)
Definition policy_agent_engine {St : Type} `{FactStore St} `{!Mangle St} (stdLib : string)
  : AgentEngine (PolicyEngine (MangleRuntime St)) :=
  let _ := mangle_gate_runtime stdLib in
  {| ae_query facts q e := Query None facts q e;
     ae_persist source e := let '(r, err) := AddPersistentPolicy None source (pe_runtime e) in (set_runtime r e, err) |}.

Section System.
Context `{GoRange} {S : Type} `{!AgentEngine S}.

Record AgentSystem := { as_engine : S; as_registry : gmap string Agent }.

Definition NewAgentSystem (eng : S) : AgentSystem := {| as_engine := eng; as_registry := ∅ |}.

Definition with_engine (e : S) (s : AgentSystem) : AgentSystem := {| as_engine := e; as_registry := as_registry s |}.
Definition with_registry (r : gmap string Agent) (s : AgentSystem) : AgentSystem := {| as_engine := as_engine s; as_registry := r |}.

Definition system_Query (facts : list string) (query : string) (s : AgentSystem)
  : AgentSystem * res error (list (gmap string string)) :=
  let '(e, r) := ae_query facts query (as_engine s) in (with_engine e s, r).

Definition LoadAgentDefinitions (defaultAgentRegistry : string) (s : AgentSystem) : AgentSystem * option error :=
  let '(e, err) := ae_persist defaultAgentRegistry (as_engine s) in
  (with_engine e s, match err with Some x => Some (EWrap "failed to load agent rules: " x) | None => None end).

(** A column of a solution; a missing key is the empty string. *)
Definition column (r : gmap string string) (k : string) : string := default "" (r !! k).

(** [pred("arg", V1, V2).] with the argument escaped. *)
Definition ask (pred arg vars : string) : string := pred +:+ "(" +:+ quoted (EscapeString arg) +:+ ", " +:+ vars +:+ ").".

(** ** Agents *)

Definition wrap (msg : string) {A : Type} (r : res error A) : res error A :=
  match r with Ok x => Ok x | Err e => Err (EWrap msg e) end.

(** The first error of the concurrent queries, in the order of the schedule. *)
Definition first_error {A : Type} (rs : list (res error A)) : option error :=
  foldr (fun r acc => match r with Err e => Some e | Ok _ => acc end) None rs.

Definition rows {A : Type} (r : res error (list A)) : list A := match r with Ok l => l | Err _ => [] end.

Definition GetAgent (agentID : string) (s : AgentSystem) : AgentSystem * res error Agent :=
  match as_registry s !! agentID with
  | Some a => (s, Ok a)
  | None =>
      let '(s1, role) := system_Query [] (ask "agent" agentID "Role") s in
      let '(s2, caps) := system_Query [] (ask "agent_capability" agentID "Capability") s1 in
      let '(s3, config) := system_Query [] (ask "agent_config" agentID "Key, Value") s2 in
      let '(s4, status) := system_Query [] (ask "agent_status" agentID "Status") s3 in
      match first_error [wrap "agent query failed: " role; wrap "capability query failed: " caps;
                         wrap "config query failed: " config] with
      | Some e => (s4, Err e)
      | None =>
          let roleName := match rows role with r :: _ => column r "Role" | [] => "" end in
          if String.eqb roleName "" then (s4, Err (EText ("agent not found: " +:+ agentID)))
          else
            let a := {| ag_ID := agentID; ag_Role := roleName;
                        ag_Capabilities := map (fun r => column r "Capability") (rows caps);
                        ag_Config := foldl (fun m r => <[column r "Key" := column r "Value"]> m) ∅ (rows config);
                        ag_Status := match rows status with r :: _ => column r "Status" | [] => StatusAvailable end |} in
            (with_registry (<[agentID := a]> (as_registry s4)) s4, Ok a)
      end
  end.

(** The loop over the solutions: each agent once, agents that cannot be read
    are skipped. *)
Fixpoint collect (seen : list string) (results : list (gmap string string)) (s : AgentSystem) : AgentSystem * list Agent :=
  match results with
  | [] => (s, [])
  | r :: rest =>
      let id := column r "AgentID" in
      if existsb (String.eqb id) seen then collect seen rest s
      else
        let '(s1, a) := GetAgent id s in
        let '(s2, agents) := collect (id :: seen) rest s1 in
        (s2, match a with Ok a => a :: agents | Err _ => agents end)
  end.

Definition role_query (role : string) : string :=
  "agent(AgentID, " +:+ quoted (EscapeString role) +:+ "), agent_status(AgentID, " +:+ quoted "available" +:+ ").".

Definition GetAgentsByRole (role : string) (s : AgentSystem) : AgentSystem * res error (list Agent) :=
  let '(s1, r) := system_Query [] (role_query role) s in
  match r with
  | Err e => (s1, Err (EWrap "query failed: " e))
  | Ok results => let '(s2, agents) := collect [] results s1 in (s2, Ok agents)
  end.

Definition task_query (task : string) : string :=
  let nl := String (ascii_of_nat 10) "" in
  let tab := String (ascii_of_nat 9) (String (ascii_of_nat 9) "") in
  nl +:+ tab +:+ "agent(AgentID, _)," +:+ nl +:+ tab +:+ "agent_capability(AgentID, Capability)," +:+ nl
  +:+ tab +:+ "agent_status(AgentID, " +:+ quoted "available" +:+ ")," +:+ nl
  +:+ tab +:+ "task_requires_capability(" +:+ quoted (EscapeString task) +:+ ", Capability).".

Definition FindAgentsForTask (task : string) (s : AgentSystem) : AgentSystem * res error (list Agent) :=
  let '(s1, r) := system_Query [] (task_query task) s in
  match r with
  | Err e => (s1, Err (EWrap "query failed: " e))
  | Ok results =>
      let '(s2, agents) := collect [] results s1 in
      (s2, match agents with [] => Err (EText ("no agents found for task: " +:+ task)) | _ => Ok agents end)
  end.

(** The capabilities are a map; the slice lists its keys in iteration order. *)
Fixpoint inherited (roles : list (gmap string string)) (caps : gmap string unit) (s : AgentSystem) : AgentSystem * gmap string unit :=
  match roles with
  | [] => (s, caps)
  | r :: rest =>
      let '(s1, sub) := system_Query [] (ask "role_capability" (column r "InheritedRole") "Capability") s in
      inherited rest (foldl (fun m x => <[column x "Capability" := tt]> m) caps (rows sub)) s1
  end.

Definition GetRoleCapabilities (role : string) (s : AgentSystem) : AgentSystem * res error (list string) :=
  let '(s1, r) := system_Query [] (ask "role_capability" role "Capability") s in
  match r with
  | Err e => (s1, Err e)
  | Ok results =>
      let caps := foldl (fun m x => <[column x "Capability" := tt]> m) ∅ results in
      let '(s2, inh) := system_Query [] (ask "role_inherits" role "InheritedRole") s1 in
      let '(s3, caps) := inherited (rows inh) caps s2 in
      (s3, Ok (map fst (range caps)))
  end.

Definition GetAgentRoles (s : AgentSystem) : AgentSystem * res error (list string) :=
  let '(s1, r) := system_Query [] "agent_role(Role)." s in
  (s1, match r with Ok results => Ok (map (fun x => column x "Role") results) | Err e => Err e end).

(** [SetAgentStatus] writes to the cached agent only and never fails. *)
Definition SetAgentStatus (agentID status : string) (s : AgentSystem) : AgentSystem :=
  match as_registry s !! agentID with
  | None => s
  | Some a =>
      with_registry (<[agentID := {| ag_ID := ag_ID a; ag_Role := ag_Role a; ag_Capabilities := ag_Capabilities a;
                                     ag_Config := ag_Config a; ag_Status := status |}]> (as_registry s)) s
  end.

(** ** Workflows *)

Definition row_edge (r : gmap string string) : WorkflowEdge :=
  {| e_From := column r "From"; e_To := column r "To"; e_Condition := column r "Condition" |}.

(** A failed configuration query leaves the map nil. *)
Definition node_config (workflowName id : string) (s : AgentSystem) : AgentSystem * gmap string string :=
  let '(s1, r) := system_Query [] ("node_config(" +:+ quoted (EscapeString workflowName) +:+ ", " +:+ quoted (EscapeString id)
                                    +:+ ", Key, Value).") s in
  (s1, foldl (fun m x => <[column x "Key" := column x "Value"]> m) ∅ (rows r)).

Fixpoint read_nodes (workflowName : string) (results : list (gmap string string)) (s : AgentSystem)
  : AgentSystem * list WorkflowNode :=
  match results with
  | [] => (s, [])
  | r :: rest =>
      let '(s1, config) := node_config workflowName (column r "NodeID") s in
      let '(s2, nodes) := read_nodes workflowName rest s1 in
      (s2, {| n_ID := column r "NodeID"; n_Type := column r "Type"; n_Agent := column r "Agent"; n_Config := config |} :: nodes)
  end.

Definition GetWorkflow (workflowName : string) (s : AgentSystem) : AgentSystem * res error Workflow :=
  let '(s1, meta) := system_Query [] (ask "workflow" workflowName "Name, Version") s in
  match rows meta with
  | [] => (s1, Err (EText ("workflow not found: " +:+ workflowName)))
  | m :: _ =>
      let '(s2, nodes) := system_Query [] (ask "workflow_node" workflowName "NodeID, Type, Agent") s1 in
      let '(s3, ns) := read_nodes workflowName (rows nodes) s2 in
      let '(s4, edges) := system_Query [] (ask "workflow_edge" workflowName "From, To") s3 in
      let '(s5, cond) := system_Query [] (ask "conditional_edge" workflowName "From, To, Condition") s4 in
      (s5, Ok {| wf_ID := workflowName; wf_Name := column m "Name"; wf_Version := column m "Version"; wf_Nodes := ns;
                 wf_Edges := (map (fun r => {| e_From := column r "From"; e_To := column r "To"; e_Condition := "" |}) (rows edges)
                              ++ map row_edge (rows cond))%list |})
  end.

Fixpoint read_workflows (ids : list string) (s : AgentSystem) : AgentSystem * list Workflow :=
  match ids with
  | [] => (s, [])
  | id :: rest =>
      let '(s1, r) := GetWorkflow id s in
      let '(s2, wfs) := read_workflows rest s1 in
      (s2, match r with Ok wf => wf :: wfs | Err _ => wfs end)
  end.

Definition GetWorkflows (s : AgentSystem) : AgentSystem * res error (list Workflow) :=
  let '(s1, r) := system_Query [] "workflow(ID, Name, Version)." s in
  match r with
  | Err e => (s1, Err e)
  | Ok results => let '(s2, wfs) := read_workflows (map (fun x => column x "ID") results) s1 in (s2, Ok wfs)
  end.

Definition GetWorkflowEdges (workflowName nodeID : string) (s : AgentSystem) : AgentSystem * res error (list WorkflowEdge) :=
  let from := "(" +:+ quoted (EscapeString workflowName) +:+ ", " +:+ quoted (EscapeString nodeID) +:+ ", " in
  let '(s1, r) := system_Query [] ("workflow_edge" +:+ from +:+ "To).") s in
  match r with
  | Err e => (s1, Err e)
  | Ok results =>
      let '(s2, cond) := system_Query [] ("conditional_edge" +:+ from +:+ "To, Condition).") s1 in
      (s2, Ok (map (fun x => {| e_From := nodeID; e_To := column x "To"; e_Condition := "" |}) results
               ++ map (fun x => {| e_From := nodeID; e_To := column x "To"; e_Condition := column x "Condition" |}) (rows cond))%list)
  end.

(** ** Conditions *)

Definition holds (r : AgentSystem * res error (list (gmap string string))) : AgentSystem * res error bool :=
  (fst r, match snd r with Ok results => Ok (negb (Nat.eqb (List.length results) 0)) | Err e => Err e end).

Definition data_fact (e : string * string) : string :=
  "context(" +:+ quoted (EscapeString (fst e)) +:+ ", " +:+ quoted (EscapeString (snd e)) +:+ ").".

Definition system_EvaluateCondition (condition : string) (contextData : gmap string string) (s : AgentSystem)
  : AgentSystem * res error bool :=
  if String.eqb condition "" then (s, Ok true)
  else holds (system_Query (map data_fact (range contextData)) condition s).

(** [ConditionEvaluatorAdapter]: key and value are not escaped. *)
Definition adapter_fact (render : list string -> string) (e : string * WValue) : string :=
  "context(" +:+ quoted (fst e) +:+ ", " +:+ quoted (value_text render (snd e)) +:+ ").".

Definition adapter_EvaluateCondition (render : list string -> string) (condition : string) (facts : gmap string WValue)
    (s : AgentSystem) : AgentSystem * res error bool :=
  if String.eqb condition "" then (s, Ok true)
  else holds (system_Query (map (adapter_fact render) (range facts)) condition s).

(** [AgentFinderAdapter] and [DatalogWorkflowLoader]. *)
Definition FindAgentsByRole (role : string) (s : AgentSystem) : AgentSystem * res error (list string) :=
  let '(s1, r) := GetAgentsByRole role s in
  (s1, match r with Ok agents => Ok (map ag_ID agents) | Err e => Err e end).

Definition LoadWorkflow (workflowID : string) (s : AgentSystem) : AgentSystem * res error WorkflowDef :=
  let '(s1, r) := GetWorkflow workflowID s in
  (s1, match r with
       | Ok wf => Ok (convertToWorkflowDef wf)
       | Err e => Err (EWrap ("failed to load workflow " +:+ workflowID +:+ ": ") e)
       end).

(** The adapters as the hydrated executor uses them. *)
Definition system_env (render : list string -> string) : HydEnv AgentSystem :=
  {| he_agentFinder := Some FindAgentsByRole; he_conditionEval := Some (adapter_EvaluateCondition render) |}.
End System.
Arguments AgentSystem S : clear implicits.
