(* ===== verification/AgentSystemProps.v ===== *)
(** * Properties of the agent system

    What a role lookup returns, that the cache of agents is never refreshed,
    which errors a workflow query hides, that loaded definitions are well
    formed, and the quoting of condition facts. *)
From S2P Require Import Prelude GoStrings CoreErrors CoreTypes Facts Workflow WorkflowDef WorkflowDefProps Hydrated AgentSystem.
From Stdlib Require Import Ascii String.
Open Scope string_scope.

Section System.
Context {S : Type} `{!AgentEngine S}.
Implicit Types (s : AgentSystem S).

(** ** The cache *)

(** Agents are cached under their own id. *)
Definition registry_ok s : Prop := forall id a, as_registry s !! id = Some a -> ag_ID a = id.

Lemma query_registry facts q s s' r : system_Query facts q s = (s', r) -> as_registry s' = as_registry s.
Proof. unfold system_Query. destruct (ae_query _ _ _) as [e x]. by intros [= <- _]. Qed.

(** [GetAgent] only adds the agent it returns. *)
Lemma GetAgent_registry id s s' r :
  GetAgent id s = (s', r) ->
  match r with
  | Ok a => as_registry s' = <[id := a]> (as_registry s) /\ (as_registry s !! id = Some a \/ ag_ID a = id)
  | Err _ => as_registry s' = as_registry s /\ as_registry s !! id = None
  end.
Proof.
  unfold GetAgent. destruct (as_registry s !! id) as [a|] eqn:Hid.
  { intros [= <- <-]. split; [by rewrite insert_id|by left]. }
  destruct (system_Query [] _ s) as [s1 role] eqn:Q1. destruct (system_Query [] _ s1) as [s2 caps] eqn:Q2.
  destruct (system_Query [] _ s2) as [s3 config] eqn:Q3. destruct (system_Query [] _ s3) as [s4 status] eqn:Q4.
  assert (as_registry s4 = as_registry s) as Hreg.
  { by rewrite (query_registry _ _ _ _ _ Q4), (query_registry _ _ _ _ _ Q3), (query_registry _ _ _ _ _ Q2), (query_registry _ _ _ _ _ Q1). }
  destruct (first_error _); [by intros [= <- <-]|]. destruct (String.eqb _ ""); [by intros [= <- <-]|].
  intros [= <- <-]. simpl. rewrite Hreg. split; [done|by right].
Qed.

Lemma collect_spec seen results s s' agents :
  registry_ok s -> collect seen results s = (s', agents) ->
  registry_ok s' /\ as_registry s ⊆ as_registry s' /\ NoDup (map ag_ID agents) /\
  (forall a, a ∈ agents -> ag_ID a ∉ seen /\ as_registry s' !! ag_ID a = Some a /\ exists r, r ∈ results /\ column r "AgentID" = ag_ID a) /\
  (forall r, r ∈ results -> column r "AgentID" ∉ seen -> (exists a, a ∈ agents /\ ag_ID a = column r "AgentID") \/ as_registry s !! column r "AgentID" = None).
Proof.
  revert seen s s' agents. induction results as [|r rest IH]; intros seen s s' agents Hok; cbn [collect].
  { intros [= <- <-]. split_and!; [done|done|constructor|by intros ? ?%not_elem_of_nil|by intros ? ?%not_elem_of_nil]. }
  destruct (existsb _ seen) eqn:Hseen.
  - apply existsb_exists in Hseen as (x & Hx & E'%String.eqb_eq). rewrite <- E' in Hx.
    intros Hc. destruct (IH _ _ _ _ Hok Hc) as (H1 & H2 & H3 & H4 & H5). split_and!; [done|done|done| |].
    + intros a Ha. destruct (H4 a Ha) as (? & ? & r' & Hr' & ?). split_and!; [done|done|exists r'; by split; [right|]].
    + intros r' [->|Hr']%elem_of_cons Hns; [|by apply H5]. destruct Hns. by apply list_elem_of_In.
  - assert (column r "AgentID" ∉ seen) as Hns.
    { intros Hin. assert (existsb (String.eqb (column r "AgentID")) seen = true); [|congruence].
      apply existsb_exists. exists (column r "AgentID"). by rewrite String.eqb_refl, <- list_elem_of_In. }
    set (id := column r "AgentID") in *.
    destruct (GetAgent id s) as [s1 ra] eqn:Hg. destruct (collect (id :: seen) rest s1) as [s2 ags] eqn:Hc.
    pose proof (GetAgent_registry _ _ _ _ Hg) as Hreg.
    assert (registry_ok s1 /\ as_registry s ⊆ as_registry s1) as [Hok1 Hsub].
    { destruct ra as [a|e]; [|destruct Hreg as [Hreg _]; unfold registry_ok; by rewrite Hreg].
      destruct Hreg as [Hreg Hor]. assert (ag_ID a = id) as Hid by (destruct Hor as [Hin|]; [by apply Hok|done]). split.
      - intros i b. rewrite Hreg, lookup_insert_Some. intros [[<- <-]|[_ Hb]]; [done|by apply Hok].
      - rewrite Hreg. destruct Hor as [Hin|]; [by rewrite insert_id|].
        destruct (as_registry s !! id) as [b|] eqn:Hb; [|by apply insert_subseteq].
        unfold GetAgent in Hg. rewrite Hb in Hg. injection Hg as <- <-. by rewrite insert_id. }
    destruct (IH _ _ _ _ Hok1 Hc) as (H1 & H2 & H3 & H4 & H5).
    assert (forall a, a ∈ ags -> ag_ID a ∉ seen /\ as_registry s2 !! ag_ID a = Some a /\ exists r', r' ∈ r :: rest /\ column r' "AgentID" = ag_ID a) as H4'.
    { intros a Ha. destruct (H4 a Ha) as (Hn & ? & r' & Hr' & ?). rewrite not_elem_of_cons in Hn.
      split_and!; [by apply Hn|done|exists r'; by split; [right|]]. }
    intros [= <- <-]. destruct ra as [a|e].
    + destruct Hreg as [Hreg Hor]. assert (ag_ID a = id) as Hid by (destruct Hor as [Hin|]; [by apply Hok|done]).
      split_and!; [done|by trans (as_registry s1)| | |].
      * cbn [map]. constructor; [|done]. rewrite Hid. intros (b & Hb & Hin)%list_elem_of_fmap.
        destruct (H4 b Hin) as (Hn & _). rewrite not_elem_of_cons in Hn. destruct Hn as [Hn _]. congruence.
      * intros b [->|Hb]%elem_of_cons; [|by apply H4']. rewrite Hid. split_and!; [done| |exists r; by split; [left|]].
        eapply lookup_weaken; [|done]. by rewrite Hreg, lookup_insert_eq.
      * intros r' Hr' Hns'. destruct (decide (column r' "AgentID" = id)) as [E'|E'].
        { left. exists a. split; [by left|congruence]. }
        apply elem_of_cons in Hr' as [->|Hr']; [done|].
        destruct (H5 r' Hr') as [(b & Hb & ?)|Hnone]; [rewrite not_elem_of_cons; done|left; exists b; by split; [right|]|].
        right. rewrite Hreg, lookup_insert_ne in Hnone by done. done.
    + destruct Hreg as [Hreg Hnone]. split_and!; [done|by trans (as_registry s1)|done|done|].
      intros r' Hr' Hns'. destruct (decide (column r' "AgentID" = id)) as [E'|E']; [right; congruence|].
      apply elem_of_cons in Hr' as [->|Hr']; [done|].
      destruct (H5 r' Hr') as [(b & Hb & ?)|Hn2]; [rewrite not_elem_of_cons; done|left; by exists b|]. right. congruence.
Qed.
End System.

Lemma role_lookup {S : Type} `{!AgentEngine S} (role : string) (s s' : AgentSystem S) (agents : list Agent) :
  registry_ok s -> GetAgentsByRole role s = (s', Ok agents) ->
  registry_ok s' /\ as_registry s ⊆ as_registry s' /\ NoDup (map ag_ID agents) /\
  exists e results, ae_query [] (role_query role) (as_engine s) = (e, Ok results) /\
    (forall a, a ∈ agents -> as_registry s' !! ag_ID a = Some a /\ exists r, r ∈ results /\ column r "AgentID" = ag_ID a) /\
    (forall r a, r ∈ results -> as_registry s !! column r "AgentID" = Some a -> exists a', a' ∈ agents /\ ag_ID a' = column r "AgentID").
Proof.
  intros Hok. unfold GetAgentsByRole, system_Query. destruct (ae_query _ _ _) as [e [results|x]] eqn:Hq; [|done].
  destruct (collect [] results _) as [s2 ags] eqn:Hc. intros [= <- <-].
  destruct (collect_spec [] results (with_engine e s) s2 ags Hok Hc) as (H1 & H2 & H3 & H4 & H5).
  split_and!; [done|done|done|]. exists e, results. split_and!; [done| |].
  - intros a Ha. by destruct (H4 a Ha) as (_ & ? & ?).
  - intros r a Hr Ha. destruct (H5 r Hr) as [|Hn]; [apply not_elem_of_nil|done|]. simpl in Hn. congruence.
Qed.

(** What a role lookup returns: each agent once, every one named by a
    solution of the role query and cached under its id, and every named agent
    that was already cached; earlier entries of the cache stay as they are. *)
Theorem GetAgentsByRole_spec {S : Type} `{!AgentEngine S} (role : string) (s s' : AgentSystem S) (agents : list Agent) :
  registry_ok s -> GetAgentsByRole role s = (s', Ok agents) ->
  registry_ok s' /\ as_registry s ⊆ as_registry s' /\ NoDup (map ag_ID agents) /\
  exists e results, ae_query [] (role_query role) (as_engine s) = (e, Ok results) /\
    (forall a, a ∈ agents -> as_registry s' !! ag_ID a = Some a /\ exists r, r ∈ results /\ column r "AgentID" = ag_ID a) /\
    (forall r a, r ∈ results -> as_registry s !! column r "AgentID" = Some a -> exists a', a' ∈ agents /\ ag_ID a' = column r "AgentID").
Proof. apply role_lookup. Qed.

(** The cache is never refreshed, and it does not decide availability: an
    agent that was read once is answered from the cache whatever the engine
    says later, and an agent set to offline is still returned by its role
    lookup, with that status, because the lookup asks the engine, which
    [SetAgentStatus] does not change. *)
Theorem offline_agent_still_found {S : Type} `{!AgentEngine S} (role id : string) (a : Agent) (s s' : AgentSystem S)
    (agents : list Agent) (e : S) (results : list (gmap string string)) (r : gmap string string) :
  registry_ok s -> as_registry s !! id = Some a ->
  ae_query [] (role_query role) (as_engine s) = (e, Ok results) -> r ∈ results -> column r "AgentID" = id ->
  GetAgentsByRole role (SetAgentStatus id StatusOffline s) = (s', Ok agents) ->
  (forall eng, GetAgent id (with_engine eng s) = (with_engine eng s, Ok a)) /\
  exists a', a' ∈ agents /\ ag_ID a' = id /\ ag_Status a' = StatusOffline.
Proof.
  intros Hok Ha Hq Hr Hid Hget. split; [intros eng; unfold GetAgent; simpl; by rewrite Ha|].
  set (a1 := {| ag_ID := ag_ID a; ag_Role := ag_Role a; ag_Capabilities := ag_Capabilities a;
                ag_Config := ag_Config a; ag_Status := StatusOffline |}).
  assert (SetAgentStatus id StatusOffline s = with_registry (<[id := a1]> (as_registry s)) s) as Hset
    by (unfold SetAgentStatus; by rewrite Ha).
  assert (registry_ok (with_registry (<[id := a1]> (as_registry s)) s)) as Hok1.
  { intros i b. simpl. rewrite lookup_insert_Some. intros [[<- <-]|[_ Hb]]; [apply (Hok _ _ Ha)|by apply Hok]. }
  rewrite Hset in Hget. destruct (role_lookup _ _ _ _ Hok1 Hget) as (_ & Hsub & _ & e' & results' & Hq' & Hin & Hall).
  assert (results' = results) as -> by (simpl in Hq'; congruence).
  destruct (Hall r a1 Hr) as (a' & Ha' & Hid'); [rewrite Hid; simpl; by rewrite lookup_insert_eq|].
  exists a'. split; [done|]. split; [congruence|]. destruct (Hin a' Ha') as [Hreg _].
  assert (as_registry s' !! id = Some a1) as Hreg1 by (eapply lookup_weaken; [|exact Hsub]; simpl; by rewrite lookup_insert_eq).
  assert (a' = a1) as -> by congruence. done.
Qed.

(** ** Workflows *)

Lemma inserts_keyed (l : list WorkflowNode) (m : gmap string NodeDef) :
  (forall id n, m !! id = Some n -> nd_ID n = id) ->
  forall id n, foldl (fun m n => <[n_ID n := node_def n]> m) m l !! id = Some n -> nd_ID n = id.
Proof.
  revert m. induction l as [|x l IH]; intros m Hm; cbn [foldl]; [done|]. apply IH.
  intros id n. rewrite lookup_insert_Some. intros [[<- <-]|[_ Hn]]; [done|by apply Hm].
Qed.

Lemma inserts_present (l : list WorkflowNode) (m : gmap string NodeDef) n :
  n ∈ l \/ is_Some (m !! n_ID n) -> is_Some (foldl (fun m n => <[n_ID n := node_def n]> m) m l !! n_ID n).
Proof.
  revert m. induction l as [|x l IH]; intros m; cbn [foldl]; [by intros [?%not_elem_of_nil|]|].
  intros [[->|Hin]%elem_of_cons|Hm]; apply IH; [right; by rewrite lookup_insert_eq|by left|right].
  rewrite lookup_insert. by case_decide.
Qed.

Lemma loader_start_in wf n : loader_findStartNode wf = Some n -> n ∈ wf_Nodes wf.
Proof.
  unfold loader_findStartNode. destruct (List.find _ _) as [m|] eqn:Hf.
  - intros [= <-]. apply List.find_some in Hf as [Hin _]. by apply list_elem_of_In.
  - destruct (wf_Nodes wf); simpl; [done|]. intros [= <-]. by left.
Qed.

(** Every workflow definition that the loader produces is well formed:
    each node is stored under its own id, the root is one of the nodes unless
    there are none, and so the start node is found and does not depend on the
    iteration order of the node map. *)
Theorem loaded_workflow_wf {S : Type} `{!AgentEngine S} (R1 R2 : GoRange) (name : string) (s s' : AgentSystem S) (wd : WorkflowDef) :
  LoadWorkflow name s = (s', Ok wd) ->
  keyed wd /\ (wd_Nodes wd <> ∅ -> is_Some (GetNode wd (wd_RootNodeID wd)) /\ is_Some (FindStartNode (H := R1) wd)) /\
  FindStartNode (H := R1) wd = FindStartNode (H := R2) wd.
Proof.
  unfold LoadWorkflow. destruct (GetWorkflow name s) as [s1 [wf|e]]; intros [= _ <-].
  assert (keyed (convertToWorkflowDef wf)) as Hk by (intros id n; by apply inserts_keyed).
  destruct (start_node_least R1 R2 (convertToWorkflowDef wf) Hk) as [Hdet Hnone].
  split; [done|]. split; [|done]. intros Hne. split.
  - simpl. destruct (loader_findStartNode wf) as [n|] eqn:Hs; [apply inserts_present; left; by apply loader_start_in|].
    unfold loader_findStartNode in Hs. destruct (List.find _ _); [done|]. destruct (wf_Nodes wf) as [|x l] eqn:Hn; [|done].
    destruct Hne. simpl. by rewrite Hn.
  - destruct (FindStartNode (H := R1) _); [by eexists|]. by destruct Hne, (proj1 Hnone).
Qed.

(** A workflow whose parts cannot be read is returned empty: once the
    metadata query answers, errors of the node and edge queries are dropped
    and the caller gets a workflow without nodes and edges instead of an
    error. *)
Theorem GetWorkflow_hides_errors {S : Type} `{!AgentEngine S} (name : string) (s : AgentSystem S) (m : gmap string string)
    (more : list (gmap string string)) (e1 e2 e3 e4 : S) (x2 x3 x4 : error) :
  ae_query [] (ask "workflow" name "Name, Version") (as_engine s) = (e1, Ok (m :: more)) ->
  ae_query [] (ask "workflow_node" name "NodeID, Type, Agent") e1 = (e2, Err x2) ->
  ae_query [] (ask "workflow_edge" name "From, To") e2 = (e3, Err x3) ->
  ae_query [] (ask "conditional_edge" name "From, To, Condition") e3 = (e4, Err x4) ->
  exists s', GetWorkflow name s = (s', Ok {| wf_ID := name; wf_Name := column m "Name"; wf_Version := column m "Version";
                                             wf_Nodes := []; wf_Edges := [] |}).
Proof.
  intros H1 H2 H3 H4. unfold GetWorkflow, system_Query. rewrite H1. cbn [rows with_engine as_engine].
  rewrite H2. cbn [rows read_nodes with_engine as_engine]. rewrite H3. cbn [with_engine as_engine]. rewrite H4. by eexists.
Qed.

(** ** Condition facts *)

(** The facts of [AgentSystem.EvaluateCondition] always read back as the
    entries they were made of; those of the adapter, which does not escape,
    do not when a value contains a quote. *)
Theorem condition_facts_quoting (render : list string -> string) :
  (forall k v, read_fact2 (data_fact (k, v)) = Some ("context", sanitize k, sanitize v)) /\
  read_fact2 (adapter_fact render ("reply", WStr ("say " +:+ quoted "yes"))) = None /\
  read_fact2 (adapter_fact render ("a" +:+ dq +:+ ", " +:+ dq +:+ "b" +:+ String c_bs "", WStr ("x" +:+ String c_bs "")))
    = None.
Proof.
  split_and!; [|done|done]. intros k v. by apply (atomToDatalog_reads "context" k v).
Qed.

(** ** Witnesses *)

(** An engine that answers from a table of query texts and fails on others. *)
Definition table_engine : AgentEngine (list (string * list (gmap string string))) :=
  {| ae_query facts q t := (t, match List.find (fun e => String.eqb (fst e) q) t with
                               | Some e => Ok (snd e)
                               | None => Err (EText "no such query")
                               end);
     ae_persist p t := (t, None) |}.

Definition row (k v : string) : gmap string string := {[k := v]}.
Definition agent_table : list (string * list (gmap string string)) :=
  [(role_query "writer", [row "AgentID" "a1"; row "AgentID" "a1"]);
   (ask "agent" "a1" "Role", [row "Role" "writer"]);
   (ask "agent_capability" "a1" "Capability", [row "Capability" "write"]);
   (ask "agent_config" "a1" "Key, Value", []);
   (ask "agent_status" "a1" "Status", [row "Status" "available"])].
Definition agent_a1 : Agent :=
  {| ag_ID := "a1"; ag_Role := "writer"; ag_Capabilities := ["write"]; ag_Config := ∅; ag_Status := "available" |}.
Definition table_system : AgentSystem (list (string * list (gmap string string))) := NewAgentSystem agent_table.
Definition warm_system : AgentSystem (list (string * list (gmap string string))) := with_registry {["a1" := agent_a1]} table_system.

Lemma GetAgentsByRole_spec_witness :
  exists s', GetAgentsByRole (AgentEngine0 := table_engine) "writer" table_system = (s', Ok [agent_a1]) /\ registry_ok s' /\
    NoDup (map ag_ID [agent_a1]).
Proof.
  eexists. split; [reflexivity|].
  match goal with |- registry_ok ?s /\ _ =>
    destruct (GetAgentsByRole_spec (AgentEngine0 := table_engine) "writer" table_system s [agent_a1]) as (H1 & _ & H2 & _)
  end; [intros id a; cbn; by rewrite lookup_empty|reflexivity|by split].
Defined.

Lemma warm_ok : registry_ok warm_system.
Proof. intros id a. cbn [warm_system with_registry as_registry]. rewrite lookup_singleton_Some. by intros [<- <-]. Qed.

Lemma offline_agent_still_found_witness :
  exists s' agents a', GetAgentsByRole (AgentEngine0 := table_engine) "writer" (SetAgentStatus "a1" StatusOffline warm_system) = (s', Ok agents) /\
    a' ∈ agents /\ ag_ID a' = "a1" /\ ag_Status a' = StatusOffline.
Proof.
  destruct (GetAgentsByRole (AgentEngine0 := table_engine) "writer" (SetAgentStatus "a1" StatusOffline warm_system))
    as [s' [agents|e]] eqn:Hg; [|vm_compute in Hg; discriminate].
  destruct (offline_agent_still_found (AgentEngine0 := table_engine) "writer" "a1" agent_a1 warm_system s' agents agent_table
              [row "AgentID" "a1"; row "AgentID" "a1"] (row "AgentID" "a1")) as (_ & a' & Ha);
    [apply warm_ok|reflexivity|reflexivity|by left|reflexivity|exact Hg|].
  exists s', agents, a'. split; [reflexivity|exact Ha].
Defined.

Definition workflow_table : list (string * list (gmap string string)) := [(ask "workflow" "w" "Name, Version", [row "Name" "demo"])].

Lemma GetWorkflow_hides_errors_witness :
  exists s', GetWorkflow (AgentEngine0 := table_engine) "w" (NewAgentSystem workflow_table)
    = (s', Ok {| wf_ID := "w"; wf_Name := "demo"; wf_Version := ""; wf_Nodes := []; wf_Edges := [] |}).
Proof.
  apply (GetWorkflow_hides_errors (AgentEngine0 := table_engine) "w" (NewAgentSystem workflow_table) (row "Name" "demo") []
           workflow_table workflow_table workflow_table workflow_table (EText "no such query") (EText "no such query")
           (EText "no such query")); reflexivity.
Defined.

Definition graph_table : list (string * list (gmap string string)) :=
  [(ask "workflow" "w" "Name, Version", [row "Name" "demo"]);
   (ask "workflow_node" "w" "NodeID, Type, Agent", [row "NodeID" "n1"; row "NodeID" "n2"]);
   (ask "workflow_edge" "w" "From, To", [{["From" := "n1"; "To" := "n2"]}])].

Lemma loaded_workflow_wf_witness :
  exists s' wd, LoadWorkflow (AgentEngine0 := table_engine) "w" (NewAgentSystem graph_table) = (s', Ok wd) /\
    keyed wd /\ FindStartNode (H := stored_order) wd = FindStartNode (H := reverse_order) wd.
Proof.
  destruct (LoadWorkflow (AgentEngine0 := table_engine) "w" (NewAgentSystem graph_table)) as [s' [wd|e]] eqn:Hl;
    [|vm_compute in Hl; discriminate].
  destruct (loaded_workflow_wf (AgentEngine0 := table_engine) stored_order reverse_order "w" (NewAgentSystem graph_table) s' wd Hl)
    as (Hk & _ & Hd).
  exists s', wd. split; [reflexivity|by split].
Defined.
