(* ===== verification/Explain.v ===== *)
(** * Explanations

    [internal/engine/explain.go], [core/explain.go] and [QueryWithAudit] of
    solver.go: for every fact that matches a query, a derivation tree rebuilt
    by backward chaining over the loaded rules in the evaluated store.

    The recursion of the prover is bounded by [maxExplainDepth], which is its
    fuel here; the step counter of the prover is threaded as state.  The text
    of terms, clauses and negated atoms is the library's. *)
From S2P Require Import Prelude GoStrings CoreErrors CoreTypes Sources Datalog Runtime Solver.
From Stdlib Require Import Ascii String.
Open Scope string_scope.

Definition maxExplainDepth : nat := 32.
Definition maxExplainSteps : Z := 1000.

Definition ViaRule : string := "rule".
Definition ViaFact : string := "fact".
Definition ViaNegation : string := "negation".
Definition ViaBuiltin : string := "builtin".
Definition ViaDepthLimit : string := "depth-limit".

Inductive DerivationStep := Step {
  ds_Fact : string;
  ds_Rule : string;
  ds_Predicate : string;
  ds_Tier : string;
  ds_Bindings : list (string * string);
  ds_Via : string;
  ds_Children : list DerivationStep
}.

Record Explanation := { ex_Query : string; ex_Outcome : bool; ex_Derivations : list DerivationStep }.

(** What explanations use of the library beyond [Mangle]. *)
Class MangleText (St : Type) `{FactStore St} `{!Mangle St} := {
  rules : ProgramInfo -> list Clause;
  term_String : BaseTerm -> string;
  clause_String : Clause -> string;
  neg_String : Atom -> string;      (* of the negation of the atom *)
  neg_IsGround : Atom -> bool
}.

(** ** Substitutions *)

Notation Subst := (gmap string BaseTerm).

Definition unifyTerm (pattern actual : BaseTerm) (subst : Subst) : option Subst :=
  match pattern with
  | TVar v =>
      match subst !! v with
      | Some bound => if decide (bound = actual) then Some subst else None
      | None => Some (<[v := actual]> subst)
      end
  | _ => if decide (pattern = actual) then Some subst else None
  end.

(** Called with lists of equal length. *)
Fixpoint unifyAtomArgs (pattern actual : list BaseTerm) (subst : Subst) : option Subst :=
  match pattern, actual with
  | p :: pattern', a :: actual' => subst' ← unifyTerm p a subst; unifyAtomArgs pattern' actual' subst'
  | _, _ => Some subst
  end.

Definition applySubstTerm (subst : Subst) (t : BaseTerm) : BaseTerm :=
  match t with
  | TVar v => default (TVar v) (subst !! v)
  | _ => t
  end.

Definition applySubstToArgs (subst : Subst) (args : list BaseTerm) : list BaseTerm := map (applySubstTerm subst) args.

Definition isGroundTerm (t : BaseTerm) : bool := match t with TVar _ => false | _ => true end.
Definition isGround (args : list BaseTerm) : bool := forallb isGroundTerm args.

(** The symbol of a constant; numbers and composite values have none. *)
Definition const_symbol (c : Constant) : string :=
  match c with CString s | CName s => s | _ => "" end.

Definition known_tier (t : string) : bool :=
  existsb (String.eqb t) [TierT0_Axiom; TierT1_Governance; TierT2_Playbook; TierT3_User].

Fixpoint tierFromSubst (headArgs : list BaseTerm) (subst : Subst) : string :=
  match headArgs with
  | [] => TierUnknown
  | a :: rest =>
      let candidate :=
        match a with
        | TVar v => if String.eqb v "Tier" then match subst !! v with Some (TConst c) => Some c | _ => None end else None
        | TConst c => Some c
        | TApply _ => None
        end in
      match candidate with
      | Some c => if known_tier (const_symbol c) then const_symbol c else tierFromSubst rest subst
      | None => tierFromSubst rest subst
      end
  end.

Section Prover.
Context {St : Type} `{FactStore St} `{!Mangle St} `{!MangleText St}.

Definition bindingsToStrings (subst : Subst) : list (string * string) :=
  map (fun '(v, t) => (v, term_String t)) (map_to_list subst).

(** ** The prover *)

Section Store.
Context (store : St) (prog : list Clause).

Definition limit_step (fact : Atom) : DerivationStep :=
  Step (atom_String fact) "" (atom_sym fact) "" [] ViaDepthLimit [].
Definition fact_step (fact : Atom) : DerivationStep :=
  Step (atom_String fact) "" (atom_sym fact) (tierFromSubst (atom_args fact) ∅) [] ViaFact [].
Definition rule_step (rule : Clause) (fact : Atom) (subst : Subst) (children : list DerivationStep) : DerivationStep :=
  Step (atom_String fact) (clause_String rule) (atom_sym fact) (tierFromSubst (atom_args (cl_head rule)) subst)
    (bindingsToStrings subst) ViaRule children.
Definition negation_step (a : Atom) : DerivationStep := Step (neg_String a) "" (atom_sym a) "" [] ViaNegation [].
Definition builtin_step (text : string) : DerivationStep := Step text "" "" "" [] ViaBuiltin [].

Definition ground_atom (a : Atom) (subst : Subst) : Atom := NewAtom (atom_sym a) (applySubstToArgs subst (atom_args a)).

(** Both sides of a comparison ground and the comparison [ok] fails. *)
Definition refuted (ok : bool) (l r : BaseTerm) : bool := isGroundTerm l && isGroundTerm r && negb ok.

Definition and_rest (c : DerivationStep) (r : Z * option (list DerivationStep)) : Z * option (list DerivationStep) :=
  (fst r, cons c <$> snd r).

(** An open premise [a], [ground] as far as [subst] goes: the stored facts of
    its predicate in turn, until one unifies, is proved, and [rest] solves
    the other premises under the extended substitution. *)
Fixpoint try_candidates (prv : Atom -> Z -> Z * option DerivationStep) (rest : Subst -> Z -> Z * option (list DerivationStep))
    (a ground : Atom) (subst : Subst) (facts : list Atom) (steps : Z) : Z * option (list DerivationStep) :=
  match facts with
  | [] => (steps, None)
  | candidate :: facts' =>
      let next := try_candidates prv rest a ground subst facts' in
      if negb (Nat.eqb (List.length (atom_args candidate)) (List.length (atom_args a))) then next steps
      else
        match unifyAtomArgs (atom_args ground) (atom_args candidate) subst with
        | None => next steps
        | Some trial =>
            match prv candidate steps with
            | (steps1, None) => next steps1
            | (steps1, Some child) =>
                match rest trial steps1 with
                | (steps2, None) => next steps2
                | (steps2, Some more) => (steps2, Some (child :: more))
                end
            end
        end
  end.

(** [solvePremises]; [prv] proves a premise one level deeper. *)
Fixpoint solvePremises (prv : Atom -> Z -> Z * option DerivationStep) (premises : list Premise) (subst : Subst) (steps : Z)
  : Z * option (list DerivationStep) :=
  match premises with
  | [] => (steps, Some [])
  | PAtom a :: rest =>
      let ground := ground_atom a subst in
      if isGround (atom_args ground) then
        if negb (st_contains store ground) then (steps, None)
        else
          match prv ground steps with
          | (steps1, None) => (steps1, None)
          | (steps1, Some child) => and_rest child (solvePremises prv rest subst steps1)
          end
      else
        try_candidates prv (solvePremises prv rest) a ground subst (st_facts store (predicate a)) steps
  | PNeg a :: rest =>
      let ground := ground_atom a subst in
      if neg_IsGround ground && st_contains store ground then (steps, None)
      else and_rest (negation_step ground) (solvePremises prv rest subst steps)
  | PEq l r :: rest =>
      let l := applySubstTerm subst l in
      let r := applySubstTerm subst r in
      if refuted (bool_decide (l = r)) l r then (steps, None)
      else and_rest (builtin_step (term_String l +:+ " = " +:+ term_String r)) (solvePremises prv rest subst steps)
  | PIneq l r :: rest =>
      let l := applySubstTerm subst l in
      let r := applySubstTerm subst r in
      if refuted (negb (bool_decide (l = r))) l r then (steps, None)
      else and_rest (builtin_step (term_String l +:+ " != " +:+ term_String r)) (solvePremises prv rest subst steps)
  | POther text :: rest => and_rest (builtin_step text) (solvePremises prv rest subst steps)
  end.

Fixpoint try_rules (prv : Atom -> Z -> Z * option DerivationStep) (rs : list Clause) (fact : Atom) (steps : Z)
  : Z * option DerivationStep :=
  match rs with
  | [] => (steps, if st_contains store fact then Some (fact_step fact) else None)
  | rule :: rest =>
      if negb (bool_decide (predicate (cl_head rule) = predicate fact)) then try_rules prv rest fact steps
      else match cl_premises rule with
           | [] => try_rules prv rest fact steps
           | _ =>
               match unifyAtomArgs (atom_args (cl_head rule)) (atom_args fact) ∅ with
               | None => try_rules prv rest fact steps
               | Some subst =>
                   match solvePremises prv (cl_premises rule) subst steps with
                   | (steps1, None) => try_rules prv rest fact steps1
                   | (steps1, Some children) => (steps1, Some (rule_step rule fact subst children))
                   end
               end
           end
  end.

(** [prove] at depth [maxExplainDepth - fuel]. *)
Fixpoint prove (fuel : nat) (fact : Atom) (steps : Z) : Z * option DerivationStep :=
  let steps := (steps + 1)%Z in
  if (maxExplainSteps <? steps)%Z then (steps, Some (limit_step fact))
  else match fuel with
       | O => (steps, Some (limit_step fact))
       | S fuel' => try_rules (prove fuel') prog fact steps
       end.

(** One derivation per fact, the steps counted over all of them. *)
Fixpoint derivations (facts : list Atom) (steps : Z) : list DerivationStep :=
  match facts with
  | [] => []
  | f :: rest =>
      let '(steps1, d) := prove maxExplainDepth f steps in
      default (fact_step f) d :: derivations rest steps1
  end.
End Store.

(** The arguments of a query and of a fact agree where the query has no
    variable. *)
Definition explain_matches (q f : Atom) : bool :=
  Nat.eqb (List.length (atom_args f)) (List.length (atom_args q)) &&
  forallb (fun '(qa, fa) => match qa with TVar _ => true | _ => bool_decide (qa = fa) end) (zip (atom_args q) (atom_args f)).

(** [MangleRuntime.Explain]. *)
Definition runtime_Explain (ctx : option error) (facts : list Atom) (queryStr : string) (r : MangleRuntime St)
  : MangleRuntime St * res error Explanation :=
  match ctx with
  | Some e => (r, Err e)
  | None =>
      let opts := match rt_program r with
                  | Some p => with_limit (rt_cfg r) (buildEvalOptionsFor (rt_cfg r) (fst p))
                  | None => with_limit (rt_cfg r) no_opts
                  end in
      let '(r1, ws) := evaluatedWorkingStore ctx facts opts r in
      (r1, match ws with
           | Err e => Err e
           | Ok store =>
               match rt_program r1 with
               | None => Err (EText "runtime not initialized")
               | Some p =>
                   match parse_atom queryStr with
                   | Err e => Err e
                   | Ok q =>
                       let matching := List.filter (explain_matches q) (st_facts store (predicate q)) in
                       Ok {| ex_Query := queryStr; ex_Outcome := negb (Nat.eqb (List.length matching) 0);
                             ex_Derivations := derivations store (rules (fst p)) matching 0 |}
                   end
               end
           end)
  end.

(** [PolicyEngine.Explain]: the facts go through the parse cache. *)
Fixpoint parse_cached `{!GateRuntime (MangleRuntime St)} (facts : list string) (e : PolicyEngine (MangleRuntime St))
  : PolicyEngine (MangleRuntime St) * res error (list Atom) :=
  match facts with
  | [] => (e, Ok [])
  | f :: rest =>
      match parseCachedAtom f e with
      | (e1, Err err) => (e1, Err (EWrap ("failed to parse fact '" +:+ f +:+ "': ") err))
      | (e1, Ok a) => let '(e2, r) := parse_cached rest e1 in (e2, match r with Ok l => Ok (a :: l) | Err x => Err x end)
      end
  end.

Definition engine_Explain `{!GateRuntime (MangleRuntime St)} (ctx : option error) (facts : list string) (queryStr : string)
    (e : PolicyEngine (MangleRuntime St)) : PolicyEngine (MangleRuntime St) * res error Explanation :=
  match parse_cached facts e with
  | (e1, Err err) => (e1, Err err)
  | (e1, Ok atoms) => let '(r, out) := runtime_Explain ctx atoms queryStr (pe_runtime e1) in (set_runtime r e1, out)
  end.

(** [QueryWithAudit]; [now] and [latency] are the clock readings. *)
Definition add_derivation (trail : AuditTrail) (d : DerivationStep) : AuditTrail :=
  AddRule trail (ds_Predicate d) (if String.eqb (ds_Rule d) "" then ds_Fact d else ds_Rule d) "" (ds_Predicate d)
    (ds_Tier d) (ds_Bindings d).

Definition audit_counts (facts matched latency : Z) (t : AuditTrail) : AuditTrail :=
  {| at_MatchedRules := at_MatchedRules t; at_Timestamp := at_Timestamp t; at_EngineID := at_EngineID t;
     at_Query := at_Query t; at_FactCount := facts; at_MatchedCount := matched; at_LatencyMs := latency |}.

Definition QueryWithAudit (now latency : Z) (ctx : option error) (facts : list string) (queryStr : string)
    (e : PolicyEngine (MangleRuntime St)) : PolicyEngine (MangleRuntime St) * res error (list Solution * AuditTrail) :=
  match res_mapM (fun f => match parse_atom f with
                           | Ok a => Ok a
                           | Err err => Err (EWrap ("failed to parse fact '" +:+ f +:+ "': ") err)
                           end) facts with
  | Err err => (e, Err err)
  | Ok atoms =>
      let '(r1, (sols, err)) := QueryWithSolutions ctx atoms queryStr (pe_runtime e) in
      match err with
      | Some x => (set_runtime r1 e, Err x)
      | None =>
          let '(r2, expl) := runtime_Explain ctx atoms queryStr r1 in
          let trail := NewAuditTrail now "manglekit-engine" queryStr in
          let trail := match expl with Ok x => foldl add_derivation trail (ex_Derivations x) | Err _ => trail end in
          (set_runtime r2 e,
           Ok (sols, audit_counts (Z.of_nat (List.length atoms)) (Z.of_nat (List.length sols)) latency trail))
      end
  end.
End Prover.

(** ** Rendering ([core/explain.go]) *)

Definition ruleText (d : DerivationStep) : string := if String.eqb (ds_Rule d) "" then ds_Fact d else ds_Rule d.

(** A step, then its children, into the trail. *)
Fixpoint appendStep (trail : AuditTrail) (d : DerivationStep) {struct d} : AuditTrail :=
  match d with
  | Step fact rule predicate tier bindings via children =>
      foldl appendStep (AddRule trail predicate (if String.eqb rule "" then fact else rule) "" predicate tier bindings) children
  end.

Definition appendSteps (e : Explanation) (trail : AuditTrail) : AuditTrail := foldl appendStep trail (ex_Derivations e).

(** [Explanation.AuditTrail]; [None] is the dereference of a nil receiver,
    whose check comes after the first use. *)
Definition Explanation_AuditTrail (now : Z) (e : option Explanation) (engineID : string) : option AuditTrail :=
  e ← e;
  Some (set_MatchedCount (Z.of_nat (List.length (ex_Derivations e)))
          (appendSteps e (NewAuditTrail now engineID (ex_Query e)))).

Fixpoint renderStep (indent : string) (d : DerivationStep) {struct d} : string :=
  match d with
  | Step fact rule predicate tier bindings via children =>
      indent +:+ fact +:+ nl +:+
      (if String.eqb via ViaFact then indent +:+ "└─ [base fact]" +:+ nl
       else if String.eqb via ViaDepthLimit then indent +:+ "└─ [proof truncated at depth limit]" +:+ nl
       else if String.eqb via ViaNegation || String.eqb via ViaBuiltin then indent +:+ "└─ [" +:+ via +:+ "]" +:+ nl
       else
         let childIndent := indent +:+ "  " in
         (if String.eqb rule "" then ""
          else childIndent +:+ "└─ via rule [" +:+ tier +:+ "]: " +:+ rule +:+ nl)
         +:+ String.concat "" (map (renderStep childIndent) children))
  end.

Definition Explanation_String (e : option Explanation) : string :=
  match e with
  | None => "<nil explanation>"
  | Some e =>
      "query: " +:+ ex_Query e +:+ nl +:+
      (if negb (ex_Outcome e) || Nat.eqb (List.length (ex_Derivations e)) 0 then "no derivations (fact not derivable)" +:+ nl
       else String.concat "" (map (renderStep "") (ex_Derivations e)))
  end.
