(* ===== verification/ExplainProps.v ===== *)
(** * Properties of explanations

    [valid_step] says what a derivation tree asserts: base facts are in the
    store and no rule derives them, a rule node is an instance of a loaded rule
    whose positive premises are stored facts with valid trees of their own,
    and nodes are left open only at the limits.
    Every tree of the prover is valid, every matching fact has one, and its
    depth is bounded; the closed examples show what the trees do not assert. *)
From S2P Require Import Prelude GoStrings CoreErrors CoreTypes Sources Datalog Ground Runtime Solver Explain.
From Stdlib Require Import Ascii String.
Open Scope string_scope.

(** ** Substitutions *)

Definition ground_subst (θ : Subst) : Prop := map_Forall (fun _ t => isGroundTerm t = true) θ.
Definition ground_store {St} `{FactStore St} (store : St) : Prop :=
  forall a, st_contains store a = true -> isGround (atom_args a) = true.

Lemma unifyTerm_ext p a θ θ' : unifyTerm p a θ = Some θ' -> θ ⊆ θ'.
Proof.
  unfold unifyTerm. destruct p as [c|v|s]; try (case_decide; intros [= <-]; done).
  destruct (θ !! v) eqn:Hv; [case_decide; intros [= <-]; done|]. intros [= <-]. by apply insert_subseteq.
Qed.

Lemma unifyTerm_ground p a θ θ' :
  unifyTerm p a θ = Some θ' -> isGroundTerm a = true -> ground_subst θ -> ground_subst θ'.
Proof.
  unfold unifyTerm. intros Hu Ha Hg. destruct p as [c|v|s]; try (case_decide; by simplify_eq).
  destruct (θ !! v); [case_decide; by simplify_eq|]. simplify_eq. by apply map_Forall_insert_2.
Qed.

Lemma applySubstTerm_ext θ θ' t : θ ⊆ θ' -> isGroundTerm (applySubstTerm θ t) = true ->
  applySubstTerm θ' t = applySubstTerm θ t.
Proof.
  intros Hsub. destruct t as [c|v|s]; cbn; [done| |done]. destruct (θ !! v) as [b|] eqn:Hv; cbn; [|done].
  intros _. by rewrite (lookup_weaken _ _ _ _ Hv Hsub).
Qed.

(** A term of a rule, instantiated as far as [θ] goes and unified, is [a]. *)
Lemma unifyTerm_apply t a θ0 θ θ' :
  θ0 ⊆ θ -> ground_subst θ0 -> unifyTerm (applySubstTerm θ0 t) a θ = Some θ' -> applySubstTerm θ' t = a.
Proof.
  intros Hsub Hg. destruct t as [c|v|s]; cbn; [case_decide; by intros [= <-]| |case_decide; by intros [= <-]].
  destruct (θ0 !! v) as [b|] eqn:Hv; cbn.
  - pose proof (map_Forall_lookup_1 _ _ _ _ Hg Hv) as Hb. destruct b; [|done|]; cbn; (case_decide; [|done]);
      intros [= <-]; by rewrite (lookup_weaken _ _ _ _ Hv Hsub).
  - destruct (θ !! v) eqn:Hv'; [case_decide; [|done]; intros [= <-]; by rewrite Hv'|].
    intros [= <-]. by rewrite lookup_insert_eq.
Qed.

Lemma unifyAtomArgs_ext ps as_ θ θ' : unifyAtomArgs ps as_ θ = Some θ' -> θ ⊆ θ'.
Proof.
  revert as_ θ. induction ps as [|p ps IH]; intros [|a as_] θ; cbn; try (by intros [= <-]).
  destruct (unifyTerm p a θ) as [θ1|] eqn:Ht; cbn; [|done]. intros Hr.
  transitivity θ1; [by eapply unifyTerm_ext|by eapply IH].
Qed.

Lemma unifyAtomArgs_ground ps as_ θ θ' :
  unifyAtomArgs ps as_ θ = Some θ' -> isGround as_ = true -> ground_subst θ -> ground_subst θ'.
Proof.
  revert as_ θ. induction ps as [|p ps IH]; intros [|a as_] θ; cbn; try (by intros [= <-]).
  destruct (unifyTerm p a θ) as [θ1|] eqn:Ht; cbn; [|done]. intros Hr [Ha Has]%andb_true_iff Hg.
  eapply IH; [done..|]. by eapply unifyTerm_ground.
Qed.

Lemma unifyAtomArgs_apply ts as_ θ0 θ θ' :
  List.length ts = List.length as_ -> isGround as_ = true -> θ0 ⊆ θ -> ground_subst θ0 ->
  unifyAtomArgs (applySubstToArgs θ0 ts) as_ θ = Some θ' -> applySubstToArgs θ' ts = as_.
Proof.
  revert as_ θ. induction ts as [|t ts IH]; intros [|a as_] θ; cbn; try done.
  intros Hlen [Ha Has]%andb_true_iff Hsub Hg.
  destruct (unifyTerm _ a θ) as [θ1|] eqn:Ht; cbn; [|done]. intros Hr. f_equal.
  - pose proof (unifyTerm_apply _ _ _ _ _ Hsub Hg Ht) as Hap. etransitivity; [|exact Hap].
    apply applySubstTerm_ext; [by eapply unifyAtomArgs_ext|by rewrite Hap].
  - eapply IH; [lia|done| |done|done]. transitivity θ; [done|by eapply unifyTerm_ext].
Qed.

Lemma applySubst_empty ts : applySubstToArgs ∅ ts = ts.
Proof. unfold applySubstToArgs. rewrite <- (map_id ts) at 2. apply map_ext. by intros []. Qed.

Lemma applySubstToArgs_ext θ θ' ts : θ ⊆ θ' -> isGround (applySubstToArgs θ ts) = true ->
  applySubstToArgs θ' ts = applySubstToArgs θ ts.
Proof.
  intros Hsub. induction ts as [|t ts IH]; [done|]. cbn. intros [Ht Hts]%andb_true_iff.
  f_equal; [by apply applySubstTerm_ext|by apply IH].
Qed.

(** The height of a derivation tree. *)
Fixpoint step_depth (d : DerivationStep) : nat :=
  match d with Step _ _ _ _ _ _ children => S (list_max (map step_depth children)) end.

Section Valid.
Context {St : Type} `{FactStoreLaws St} `{!Mangle St} `{!MangleText St}.
Context (store : St) (prog : list Clause).

(** What a premise says of an instance: a stored fact, an absent one, equal
    or different sides. *)
Definition premise_holds (θ : Subst) (p : Premise) : Prop :=
  match p with
  | PAtom a => st_contains store (ground_atom a θ) = true
  | PNeg a => st_contains store (ground_atom a θ) = false
  | PEq l r => applySubstTerm θ l = applySubstTerm θ r
  | PIneq l r => applySubstTerm θ l <> applySubstTerm θ r
  | POther _ => True
  end.

(** A rule with premises derives the fact from stored facts. *)
Definition derives (rule : Clause) (f : Atom) : Prop :=
  cl_premises rule <> [] /\ exists θ, ground_atom (cl_head rule) θ = f /\ Forall (premise_holds θ) (cl_premises rule).

(** The nodes for the premises of a rule from the substitution [θ] on.  A
    positive premise extends it to all its variables and cites the stored
    instance; a negation or a comparison is checked under the variables bound
    so far: when they make it ground it holds, and otherwise it is cited
    unchecked. *)
Inductive children_ok (V : Atom -> DerivationStep -> Prop) : Subst -> list Premise -> list DerivationStep -> Prop :=
| ok_nil θ : children_ok V θ [] []
| ok_atom θ θ' a ps c cs : θ ⊆ θ' -> isGround (atom_args (ground_atom a θ')) = true ->
    st_contains store (ground_atom a θ') = true -> V (ground_atom a θ') c ->
    children_ok V θ' ps cs -> children_ok V θ (PAtom a :: ps) (c :: cs)
| ok_neg θ a ps cs : (neg_IsGround (ground_atom a θ) = true -> st_contains store (ground_atom a θ) = false) ->
    children_ok V θ ps cs -> children_ok V θ (PNeg a :: ps) (negation_step (ground_atom a θ) :: cs)
| ok_eq θ l r ps cs : let l' := applySubstTerm θ l in let r' := applySubstTerm θ r in
    (isGroundTerm l' = true -> isGroundTerm r' = true -> l' = r') ->
    children_ok V θ ps cs -> children_ok V θ (PEq l r :: ps) (builtin_step (term_String l' +:+ " = " +:+ term_String r') :: cs)
| ok_ineq θ l r ps cs : let l' := applySubstTerm θ l in let r' := applySubstTerm θ r in
    (isGroundTerm l' = true -> isGroundTerm r' = true -> l' <> r') ->
    children_ok V θ ps cs -> children_ok V θ (PIneq l r :: ps) (builtin_step (term_String l' +:+ " != " +:+ term_String r') :: cs)
| ok_other θ text ps cs : children_ok V θ ps cs -> children_ok V θ (POther text :: ps) (builtin_step text :: cs).

(** What a derivation tree of a fact asserts, with [k] levels left and a
    search of [total] steps: a node is left open only at the depth limit or
    when the step limit was passed, a base fact is stored and no rule derives
    it, and a rule node is an instance of a loaded rule. *)
Inductive valid_step (total : Z) : nat -> Atom -> DerivationStep -> Prop :=
| valid_limit k f : k = 0 \/ (maxExplainSteps < total)%Z -> valid_step total k f (limit_step f)
| valid_fact k f : st_contains store f = true -> (forall rule, rule ∈ prog -> ~ derives rule f) -> valid_step total (S k) f (fact_step f)
| valid_rule k f rule θ children :
    rule ∈ prog -> ground_atom (cl_head rule) θ = f ->
    children_ok (valid_step total k) θ (cl_premises rule) children ->
    valid_step total (S k) f (rule_step rule f θ children).

Context (Hground : ground_store store).

Lemma ground_atom_of_unify a b θ θ' :
  predicate a = predicate b -> isGround (atom_args b) = true -> ground_subst θ ->
  unifyAtomArgs (applySubstToArgs θ (atom_args a)) (atom_args b) θ = Some θ' -> ground_atom a θ' = b.
Proof.
  intros Hp Hb Hg Hu. destruct a as [s ts], b as [s' ts']. unfold predicate in Hp. cbn in *.
  injection Hp as -> Hlen%Nat2Z.inj. unfold ground_atom, NewAtom. cbn. f_equal.
  by apply (unifyAtomArgs_apply ts ts' θ θ θ').
Qed.

Lemma ground_atom_ext a θ θ' : θ ⊆ θ' -> isGround (atom_args (ground_atom a θ)) = true ->
  ground_atom a θ' = ground_atom a θ.
Proof. intros Hsub Hg. unfold ground_atom, NewAtom in *. cbn in Hg. by rewrite (applySubstToArgs_ext θ θ'). Qed.

(** *** The counter of steps never goes back *)

Lemma try_candidates_steps prv rest a g θ facts : (forall b n, (n <= fst (prv b n))%Z) -> (forall θ n, (n <= fst (rest θ n))%Z) ->
  forall n, (n <= fst (try_candidates prv rest a g θ facts n))%Z.
Proof.
  intros Hprv Hrest. induction facts as [|b facts IH]; intros n; cbn; [lia|].
  destruct (negb _); [apply IH|]. destruct (unifyAtomArgs _ _ _) as [trial|]; [|apply IH].
  pose proof (Hprv b n). destruct (prv b n) as [n1 [c|]]; cbn in *; [|specialize (IH n1); lia].
  pose proof (Hrest trial n1). destruct (rest trial n1) as [n2 [more|]]; cbn in *; [lia|specialize (IH n2); lia].
Qed.

Lemma solvePremises_steps prv ps : (forall b n, (n <= fst (prv b n))%Z) -> forall θ n, (n <= fst (solvePremises store prv ps θ n))%Z.
Proof.
  intros Hprv. induction ps as [|p ps IH]; intros θ n; cbn [solvePremises]; [cbn; lia|].
  destruct p as [a|a|l r|l r|text]; try (case_match; [cbn; lia|apply IH]); [|apply IH].
  case_match; [|by apply try_candidates_steps]. destruct (negb _); [cbn; lia|].
  specialize (Hprv (ground_atom a θ) n). destruct (prv _ n) as [n1 [c|]]; cbn in *; [specialize (IH θ n1); lia|lia].
Qed.

Lemma try_rules_steps prv rs f : (forall b n, (n <= fst (prv b n))%Z) -> forall n, (n <= fst (try_rules store prv rs f n))%Z.
Proof.
  intros Hprv. induction rs as [|rule rs IH]; intros n; cbn; [lia|].
  destruct (negb _); [apply IH|]. destruct (cl_premises rule) eqn:Hps; [apply IH|]. rewrite <- Hps.
  destruct (unifyAtomArgs _ _ _) as [θ|]; [|apply IH]. pose proof (solvePremises_steps prv (cl_premises rule) Hprv θ n) as Hs.
  destruct (solvePremises _ _ _ _ _) as [n1 [cs|]]; cbn in *; [lia|specialize (IH n1); lia].
Qed.

Lemma prove_steps fuel : forall f n, (n < fst (prove store prog fuel f n))%Z.
Proof.
  induction fuel as [|fuel IH]; intros f n; cbn [prove]; case_match; try (cbn; lia).
  assert (n + 1 <= fst (try_rules store (prove store prog fuel) prog f (n + 1)))%Z; [|lia].
  apply try_rules_steps. intros b m. specialize (IH b m). lia.
Qed.

(** *** Sound: every tree asserts what [valid_step] says *)

Section Sound.
Context (total : Z) (k : nat) (prv : Atom -> Z -> Z * option DerivationStep).
Context (Hsteps : forall b n, (n <= fst (prv b n))%Z).
Context (Hprv : forall a n m d, isGround (atom_args a) = true -> prv a n = (m, Some d) -> (m <= total)%Z -> valid_step total k a d).

Definition sound_children (θ : Subst) (ps : list Premise) (r : Z * option (list DerivationStep)) : Prop :=
  forall m cs, r = (m, Some cs) -> (m <= total)%Z -> children_ok (valid_step total k) θ ps cs.

Lemma and_rest_sound θ p ps c r :
  (forall cs, children_ok (valid_step total k) θ ps cs -> children_ok (valid_step total k) θ (p :: ps) (c :: cs)) ->
  sound_children θ ps r -> sound_children θ (p :: ps) (and_rest c r).
Proof. intros Hp Hr m cs. destruct r as [m' [more|]]; cbn; intros [= <- <-] Hm. by eapply Hp, Hr. Qed.

Lemma try_candidates_sound ps a θ facts : ground_subst θ ->
  (forall trial n, ground_subst trial -> sound_children trial ps (solvePremises store prv ps trial n)) ->
  (forall b, b ∈ facts -> st_contains store b = true /\ predicate b = predicate a) ->
  forall n, sound_children θ (PAtom a :: ps) (try_candidates prv (solvePremises store prv ps) a (ground_atom a θ) θ facts n).
Proof.
  intros Hg Hrest. induction facts as [|b facts IH]; intros Hfacts n; cbn; [by intros m cs|].
  assert (forall k, sound_children θ (PAtom a :: ps) (try_candidates prv (solvePremises store prv ps) a (ground_atom a θ) θ facts k)) as Hskip
    by (apply IH; intros ??; apply Hfacts; by right).
  destruct (negb _); [apply Hskip|]. destruct (unifyAtomArgs _ _ _) as [trial|] eqn:Hu; [|apply Hskip].
  destruct (prv b n) as [n1 [c|]] eqn:Hp; [|apply Hskip].
  destruct (Hfacts b ltac:(by left)) as [Hb Hpred]. pose proof (Hground b Hb) as Hgb.
  assert (ground_atom a trial = b) as Hab by (by eapply ground_atom_of_unify).
  assert (ground_subst trial) as Hgt by (by eapply unifyAtomArgs_ground).
  specialize (Hrest trial n1 Hgt). pose proof (solvePremises_steps prv ps Hsteps trial n1) as Hle.
  destruct (solvePremises store prv ps trial n1) as [n2 [more|]]; [|apply Hskip].
  intros m cs [= <- <-] Hm. cbn in Hle.
  apply (ok_atom _ θ trial); rewrite ?Hab; [by eapply unifyAtomArgs_ext|done|done| |by eapply Hrest].
  eapply Hprv; [done|exact Hp|lia].
Qed.

Lemma solvePremises_sound ps : forall θ n, ground_subst θ -> sound_children θ ps (solvePremises store prv ps θ n).
Proof.
  induction ps as [|p ps IH]; intros θ n Hg; cbn [solvePremises].
  { intros m cs [= <- <-] _. constructor. }
  destruct p as [a|a|l r|l r|text].
  - destruct (isGround _) eqn:Hga.
    + destruct (st_contains store _) eqn:Hc; cbn [negb]; [|done].
      destruct (prv _ n) as [n1 [c|]] eqn:Hp; [|done]. intros m cs Heq Hm.
      pose proof (solvePremises_steps prv ps Hsteps θ n1) as Hle. specialize (IH θ n1 Hg).
      destruct (solvePremises store prv ps θ n1) as [n2 [more|]]; [|done]. cbn in Heq, Hle. injection Heq as <- <-.
      apply (ok_atom _ θ θ); [done..| |by eapply IH]. eapply Hprv; [done|exact Hp|lia].
    + apply try_candidates_sound; [done|exact IH|]. intros b Hb. by apply facts_spec.
  - destruct (_ && _) eqn:Hc; [done|]. apply and_rest_sound; [|by apply IH]. intros cs. apply ok_neg. intros Hng. by rewrite Hng in Hc.
  - destruct (refuted _ _ _) eqn:Hc; [done|]. apply and_rest_sound; [|by apply IH]. intros cs. apply ok_eq. intros Hl Hr.
    unfold refuted in Hc. rewrite Hl, Hr in Hc. by case_bool_decide.
  - destruct (refuted _ _ _) eqn:Hc; [done|]. apply and_rest_sound; [|by apply IH]. intros cs. apply ok_ineq. intros Hl Hr.
    unfold refuted in Hc. rewrite Hl, Hr in Hc. by case_bool_decide.
  - apply and_rest_sound; [|by apply IH]. intros cs. apply ok_other.
Qed.
End Sound.

(** *** Complete: a rule that derives a fact is found *)

Lemma unifyTerm_complete t θ θc θs : θ ⊆ θc -> θc ⊆ θs -> ground_subst θ -> isGroundTerm (applySubstTerm θs t) = true ->
  exists θ', unifyTerm (applySubstTerm θ t) (applySubstTerm θs t) θc = Some θ' /\ θ' ⊆ θs.
Proof.
  intros H1 H2 Hg Ht. destruct t as [c|v|s]; cbn in *; [rewrite decide_True by done; eauto| |rewrite decide_True by done; eauto].
  destruct (θs !! v) as [b|] eqn:Hv; [|done]. cbn in *. destruct (θ !! v) as [b'|] eqn:Hv'; cbn.
  - assert (b' = b) as -> by (pose proof (lookup_weaken _ _ _ _ Hv' H1) as E; apply (lookup_weaken _ _ _ _ E) in H2; congruence).
    pose proof (map_Forall_lookup_1 _ _ _ _ Hg Hv') as Hb. exists θc. split; [|done]. destruct b; [|done|]; cbn; by rewrite decide_True.
  - destruct (θc !! v) as [b'|] eqn:Hc.
    + assert (b' = b) as -> by (apply (lookup_weaken _ _ _ _ Hc) in H2; congruence). rewrite decide_True by done. eauto.
    + eexists. split; [done|]. by apply insert_subseteq_l.
Qed.

Lemma unifyAtomArgs_complete ts θ θs : θ ⊆ θs -> ground_subst θ -> isGround (applySubstToArgs θs ts) = true ->
  exists θ', unifyAtomArgs (applySubstToArgs θ ts) (applySubstToArgs θs ts) θ = Some θ' /\ θ' ⊆ θs.
Proof.
  intros Hs Hg. assert (forall θc, θ ⊆ θc -> θc ⊆ θs -> isGround (applySubstToArgs θs ts) = true ->
    exists θ', unifyAtomArgs (applySubstToArgs θ ts) (applySubstToArgs θs ts) θc = Some θ' /\ θ' ⊆ θs) as H'; [|by apply H'].
  induction ts as [|t ts IH]; intros θc H1 H2; cbn; [eauto|]. intros [Ht Hts]%andb_true_iff.
  destruct (unifyTerm_complete t θ θc θs) as (θ1 & Hu & H3); [done..|]. rewrite Hu. cbn. apply IH; [|done|done].
  apply unifyTerm_ext in Hu. by transitivity θc.
Qed.

Lemma try_candidates_complete prv rest a g θ facts b trial : (forall a n, st_contains store a = true -> is_Some (snd (prv a n))) ->
  (forall c, c ∈ facts -> st_contains store c = true) -> b ∈ facts -> List.length (atom_args b) = List.length (atom_args a) ->
  unifyAtomArgs (atom_args g) (atom_args b) θ = Some trial -> (forall n, is_Some (snd (rest trial n))) ->
  forall n, is_Some (snd (try_candidates prv rest a g θ facts n)).
Proof.
  intros Hprv Hall Hb Hlen Hu Hrest. induction facts as [|c facts IH]; intros n; [by apply not_elem_of_nil in Hb|]. cbn.
  assert (forall n, b ∈ facts -> is_Some (snd (try_candidates prv rest a g θ facts n))) as Hskip.
  { intros n' Hin. apply IH; [|done]. intros c' Hc'. apply Hall. by right. }
  destruct (decide (c = b)) as [->|Hne].
  - rewrite Hlen, Nat.eqb_refl. cbn [negb]. rewrite Hu. destruct (Hprv b n) as [d Hd]; [apply Hall; by left|].
    destruct (prv b n) as [n1 od]. cbn in Hd. subst od. destruct (Hrest n1) as [more Hm]. destruct (rest trial n1) as [n2 om].
    cbn in Hm. subst om. by eexists.
  - assert (b ∈ facts) as Hin by (apply elem_of_cons in Hb as [?|?]; congruence).
    repeat case_match; try (by apply Hskip). by eexists.
Qed.

(** The premises of a derivation are solved, whatever is tried first. *)
Lemma solvePremises_complete prv ps θs : (forall a n, st_contains store a = true -> is_Some (snd (prv a n))) ->
  Forall (premise_holds θs) ps -> forall θ n, θ ⊆ θs -> ground_subst θ -> is_Some (snd (solvePremises store prv ps θ n)).
Proof.
  intros Hprv. induction 1 as [|p ps Hp _ IH]; intros θ n Hs Hg; cbn [solvePremises]; [by eexists|].
  destruct p as [a|a|l r|l r|text]; cbn [premise_holds] in Hp.
  - destruct (isGround _) eqn:Hga.
    + rewrite (ground_atom_ext a θ θs Hs Hga) in Hp. rewrite Hp. cbn [negb].
      destruct (Hprv _ n Hp) as [c Hc]. destruct (prv _ n) as [n1 od]. cbn in Hc. subst od. cbn. by apply fmap_is_Some, IH.
    + destruct (unifyAtomArgs_complete (atom_args a) θ θs Hs Hg) as (trial & Hu & Ht); [exact (Hground _ Hp)|].
      assert (ground_atom a θs ∈ st_facts store (predicate a)) as Hin.
      { apply facts_spec. split; [done|]. unfold predicate, ground_atom, NewAtom, applySubstToArgs. cbn. by rewrite length_map. }
      eapply try_candidates_complete; [exact Hprv|by apply facts_spec|exact Hin| |exact Hu|].
      * unfold ground_atom, NewAtom, applySubstToArgs. cbn. by rewrite length_map.
      * intros m. apply IH; [done|]. eapply unifyAtomArgs_ground; [exact Hu|exact (Hground _ Hp)|exact Hg].
  - destruct (_ && _) eqn:Hc; [|by apply fmap_is_Some, IH]. apply andb_true_iff in Hc as [_ Hc].
    rewrite (ground_atom_ext a θ θs Hs (Hground _ Hc)) in Hp. congruence.
  - destruct (refuted _ _ _) eqn:Hc; [|by apply fmap_is_Some, IH]. exfalso. unfold refuted in Hc.
    apply andb_true_iff in Hc as [[Hl Hr]%andb_true_iff Hc]. rewrite !(applySubstTerm_ext θ θs) in Hp by done.
    by rewrite bool_decide_eq_true_2 in Hc.
  - destruct (refuted _ _ _) eqn:Hc; [|by apply fmap_is_Some, IH]. exfalso. unfold refuted in Hc.
    apply andb_true_iff in Hc as [[Hl Hr]%andb_true_iff Hc]. rewrite !(applySubstTerm_ext θ θs) in Hp by done.
    by rewrite bool_decide_eq_false_2 in Hc.
  - by apply fmap_is_Some, IH.
Qed.

Lemma try_rules_complete prv rs f n : (forall a n, st_contains store a = true -> is_Some (snd (prv a n))) ->
  isGround (atom_args f) = true -> (exists rule, rule ∈ rs /\ derives rule f) ->
  forall m d, try_rules store prv rs f n = (m, Some d) -> exists rule θ cs, rule ∈ rs /\ d = rule_step rule f θ cs.
Proof.
  intros Hprv Hf. revert n. induction rs as [|rule rs IH]; intros n (r0 & Hin & Hd) m d; [by apply not_elem_of_nil in Hin|]. cbn.
  assert (forall n, (r0 = rule -> False) -> try_rules store prv rs f n = (m, Some d) -> exists r θ cs, r ∈ rule :: rs /\ d = rule_step r f θ cs) as Hskip.
  { intros n' Hne Ht. apply elem_of_cons in Hin as [->|Hin]; [done|]. destruct (IH n' (ex_intro _ r0 (conj Hin Hd)) m d Ht) as (r & θ & cs & Hr & ->).
    exists r, θ, cs. split; [by right|done]. }
  destruct (bool_decide_reflect (predicate (cl_head rule) = predicate f)) as [Hp|Hp]; cbn.
  2: { apply Hskip. intros ->. destruct Hd as (_ & θ & <- & _). apply Hp. unfold predicate, ground_atom, NewAtom, applySubstToArgs. cbn. by rewrite length_map. }
  destruct (cl_premises rule) as [|p ps] eqn:Hps; [apply Hskip; intros ->; by destruct Hd|]. rewrite <- Hps.
  assert (r0 = rule -> exists θh, unifyAtomArgs (atom_args (cl_head rule)) (atom_args f) ∅ = Some θh /\
     forall n, is_Some (snd (solvePremises store prv (cl_premises rule) θh n))) as Hfound.
  { intros ->. destruct Hd as (_ & θs & <- & Hall). assert (ground_subst ∅) as Hempty by apply map_Forall_empty.
    destruct (unifyAtomArgs_complete (atom_args (cl_head rule)) ∅ θs) as (θh & Hu & Hsub); [apply map_empty_subseteq|done|done|].
    rewrite applySubst_empty in Hu. exists θh. split; [exact Hu|]. intros k. eapply solvePremises_complete; [done|exact Hall|done|].
    by eapply unifyAtomArgs_ground. }
  destruct (unifyAtomArgs (atom_args (cl_head rule)) (atom_args f) ∅) as [θh|] eqn:Hu.
  - destruct (solvePremises store prv (cl_premises rule) θh n) as [n1 [cs|]] eqn:Hs.
    + intros [= <- <-]. exists rule, θh, cs. split; [by left|done].
    + apply Hskip. intros Heq. destruct (Hfound Heq) as (θ' & [= <-] & Hsome). specialize (Hsome n). rewrite Hs in Hsome. by destruct Hsome.
  - apply Hskip. intros Heq. by destruct (Hfound Heq) as (θ' & [=] & _).
Qed.

(** *** The prover *)

Lemma try_rules_stored prv rs f n : st_contains store f = true -> is_Some (snd (try_rules store prv rs f n)).
Proof.
  intros Hf. revert n. induction rs as [|rule rs IH]; intros n; cbn; [rewrite Hf; by eexists|].
  destruct (bool_decide _); cbn; [|apply IH]. destruct (cl_premises rule) eqn:Hps; [apply IH|].
  destruct (unifyAtomArgs _ _ _); [|apply IH]. destruct (solvePremises _ _ _ _ _) as [k1 [cs|]]; [by eexists|apply IH].
Qed.

Lemma prove_stored fuel f n : st_contains store f = true -> is_Some (snd (prove store prog fuel f n)).
Proof. intros Hf. destruct fuel as [|fuel]; cbn [prove]; case_match; try (by eexists). by apply try_rules_stored. Qed.

(** A tree is a stored fact by itself, or the instance of a rule. *)
Lemma try_rules_cases total k prv rs f n m d : (forall b n, (n <= fst (prv b n))%Z) ->
  (forall a n m d, isGround (atom_args a) = true -> prv a n = (m, Some d) -> (m <= total)%Z -> valid_step total k a d) ->
  isGround (atom_args f) = true -> try_rules store prv rs f n = (m, Some d) -> (m <= total)%Z ->
  (st_contains store f = true /\ d = fact_step f) \/
  exists rule θ cs, rule ∈ rs /\ d = rule_step rule f θ cs /\ ground_atom (cl_head rule) θ = f /\
    children_ok (valid_step total k) θ (cl_premises rule) cs.
Proof.
  intros Hsteps Hprv Hf. revert n. induction rs as [|rule rs IH]; intros n; cbn.
  { destruct (st_contains store f) eqn:Hc; intros [= <- <-] _. by left. }
  assert (forall n, try_rules store prv rs f n = (m, Some d) -> (m <= total)%Z ->
    (st_contains store f = true /\ d = fact_step f) \/
    exists r θ cs, r ∈ rule :: rs /\ d = rule_step r f θ cs /\ ground_atom (cl_head r) θ = f /\ children_ok (valid_step total k) θ (cl_premises r) cs) as Hskip.
  { intros n' Ht Hm. destruct (IH n' Ht Hm) as [?|(r & θ & cs & Hr & H')]; [by left|right]. exists r, θ, cs. split; [by right|done]. }
  destruct (bool_decide_reflect (predicate (cl_head rule) = predicate f)) as [Hp|]; cbn; [|apply Hskip].
  destruct (cl_premises rule) as [|p ps] eqn:Hps; [apply Hskip|]. rewrite <- Hps.
  destruct (unifyAtomArgs _ _ ∅) as [θ|] eqn:Hu; [|apply Hskip].
  assert (ground_subst ∅) as Hempty by apply map_Forall_empty.
  pose proof (solvePremises_sound total k prv Hsteps Hprv (cl_premises rule) θ n (unifyAtomArgs_ground _ _ _ _ Hu Hf Hempty)) as Hs.
  destruct (solvePremises _ _ _ _ _) as [n1 [cs|]]; [|apply Hskip]. intros [= <- <-] Hm. right. exists rule, θ, cs.
  split_and!; [by left|done| |by eapply Hs]. apply (ground_atom_of_unify _ _ ∅); [done..|]. by rewrite applySubst_empty.
Qed.

Lemma prove_sound total fuel : forall f n m d, isGround (atom_args f) = true ->
  prove store prog fuel f n = (m, Some d) -> (m <= total)%Z -> valid_step total fuel f d.
Proof.
  induction fuel as [|fuel IH]; intros f n m d Hf; cbn [prove].
  { case_match; intros [= <- <-] _; constructor; by left. }
  destruct (Z.ltb_spec maxExplainSteps (n + 1)) as [Hlt|_]; [intros [= <- <-] Hm; constructor; right; lia|]. intros Hr Hm.
  pose proof (try_rules_cases total fuel _ prog f _ m d (fun b n => Z.lt_le_incl _ _ (prove_steps fuel b n)) IH Hf Hr Hm) as [[Hc ->]|H'].
  - constructor; [done|]. intros rule Hin Hd.
    destruct (try_rules_complete (prove store prog fuel) prog f (n + 1)%Z (fun a n => prove_stored fuel a n) Hf (ex_intro _ rule (conj Hin Hd)) _ _ Hr)
      as (r & θ & cs & _ & Heq). discriminate Heq.
  - destruct H' as (rule & θ & cs & Hin & -> & Hh & Hcs). by constructor.
Qed.


(** ** Every stored fact has a derivation *)

(** The steps of the search for all the facts. *)
Fixpoint search_steps (facts : list Atom) (n : Z) : Z :=
  match facts with
  | [] => n
  | f :: rest => search_steps rest (fst (prove store prog maxExplainDepth f n))
  end.

Lemma search_steps_le facts : forall n, (n <= search_steps facts n)%Z.
Proof.
  induction facts as [|f facts IH]; intros n; cbn [search_steps]; [lia|]. pose proof (prove_steps maxExplainDepth f n). specialize (IH (fst (prove store prog maxExplainDepth f n))). lia.
Qed.

Lemma derivations_spec facts n : (forall f, f ∈ facts -> st_contains store f = true) ->
  Forall2 (fun f d => st_contains store f = true /\ exists n' m, prove store prog maxExplainDepth f n' = (m, Some d) /\ (m <= search_steps facts n)%Z)
    facts (derivations store prog facts n).
Proof.
  revert n. induction facts as [|f facts IH]; intros n Hin; cbn [derivations search_steps]; [constructor|].
  destruct (prove_stored maxExplainDepth f n (Hin f ltac:(by left))) as [d Hd].
  destruct (prove _ _ _ _ n) as [m od] eqn:Hp. cbn in Hd. subst od. cbn [fst].
  constructor; [split; [by apply Hin; left|exists n, m; split; [done|apply search_steps_le]]|]. apply IH. intros ??. apply Hin. by right.
Qed.

(** ** Depth *)

Lemma and_rest_depth k c r : step_depth c <= k -> (forall m cs, r = (m, Some cs) -> Forall (fun d => step_depth d <= k) cs) ->
  forall m cs, and_rest c r = (m, Some cs) -> Forall (fun d => step_depth d <= k) cs.
Proof. intros Hc Hr m cs. destruct r as [m' [more|]]; cbn; intros [= <- <-]. constructor; [done|by eapply Hr]. Qed.

Lemma try_candidates_depth k prv rest a g θ facts :
  (forall b n m d, prv b n = (m, Some d) -> step_depth d <= k) ->
  (forall θ n m cs, rest θ n = (m, Some cs) -> Forall (fun d => step_depth d <= k) cs) ->
  forall n m cs, try_candidates prv rest a g θ facts n = (m, Some cs) -> Forall (fun d => step_depth d <= k) cs.
Proof.
  intros Hprv Hrest. induction facts as [|b facts IH]; intros n m cs; cbn; [done|].
  destruct (negb _); [apply IH|]. destruct (unifyAtomArgs _ _ _) as [trial|]; [|apply IH].
  destruct (prv b n) as [n1 [c|]] eqn:Hp; [|apply IH]. destruct (rest trial n1) as [n2 [more|]] eqn:Hr; [|apply IH].
  intros [= <- <-]. constructor; [by eapply Hprv|by eapply Hrest].
Qed.

Lemma solvePremises_depth k prv ps : 1 <= k ->
  (forall b n m d, prv b n = (m, Some d) -> step_depth d <= k) ->
  forall θ n m cs, solvePremises store prv ps θ n = (m, Some cs) -> Forall (fun d => step_depth d <= k) cs.
Proof.
  intros Hk Hprv. induction ps as [|p ps IH]; intros θ n; cbn [solvePremises].
  { intros m cs [= <- <-]. constructor. }
  destruct p as [a|a|l r|l r|text].
  - destruct (isGround _); [|by apply try_candidates_depth]. destruct (negb _); [done|].
    destruct (prv _ n) as [n1 [c|]] eqn:Hp; [|done]. apply and_rest_depth; [by eapply Hprv|apply IH].
  - destruct (_ && _); [done|]. apply and_rest_depth; [done|apply IH].
  - destruct (refuted _ _ _); [done|]. apply and_rest_depth; [done|apply IH].
  - destruct (refuted _ _ _); [done|]. apply and_rest_depth; [done|apply IH].
  - apply and_rest_depth; [done|apply IH].
Qed.

Lemma try_rules_depth k prv rs f : 1 <= k -> (forall b n m d, prv b n = (m, Some d) -> step_depth d <= k) ->
  forall n m d, try_rules store prv rs f n = (m, Some d) -> step_depth d <= S k.
Proof.
  intros Hk Hprv. induction rs as [|rule rs IH]; intros n m d; cbn.
  { destruct (st_contains store f); intros [= <- <-]. cbn. lia. }
  destruct (negb _); [apply IH|]. destruct (cl_premises rule) eqn:Hps; [apply IH|]. rewrite <- Hps.
  destruct (unifyAtomArgs _ _ _) as [θh|]; [|apply IH].
  destruct (solvePremises _ _ _ _ _) as [n1 [cs|]] eqn:Hs; [|apply IH]. intros [= <- <-].
  apply solvePremises_depth with (k := k) in Hs; [|done..]. cbn.
  apply le_n_S, list_max_le. by apply Forall_map.
Qed.

Lemma prove_depth fuel f n m d : prove store prog fuel f n = (m, Some d) -> step_depth d <= S fuel.
Proof.
  revert f n m d. induction fuel as [|fuel IH]; intros f n m d; cbn [prove]; case_match;
    try (intros [= <- <-]; cbn; lia).
  apply try_rules_depth; [lia|done].
Qed.
End Valid.

Lemma ews_program {St : Type} `{FactStore St} `{!Mangle St} ctx facts opts (r r1 : MangleRuntime St) x :
  evaluatedWorkingStore ctx facts opts r = (r1, x) -> rt_program r1 = rt_program r.
Proof.
  unfold evaluatedWorkingStore, ews_begin. intros He.
  assert (rt_program (if cacheable r then ensure_cache r else r) = rt_program r) as Hr
    by (unfold ensure_cache; by destruct (cacheable r), (rt_idbCache r)).
  destruct (rt_ready r); [|by simplify_eq]. destruct (rt_program r) as [p|] eqn:Hp; [|by simplify_eq].
  set (r' := if cacheable r then ensure_cache r else r) in *. rewrite <- Hr.
  destruct (if cacheable r then _ ≫= _ else _); [by simplify_eq|]. unfold ews_commit, cache_insert in He.
  repeat case_match; simplify_option_eq; done.
Qed.

(** The facts of the evaluated store that a query is explained for. *)
Definition explained {St} `{FactStore St} (store : St) (q : Atom) : list Atom :=
  List.filter (explain_matches q) (st_facts store (predicate q)).

Lemma explained_stored {St} `{FactStoreLaws St} (store : St) q f :
  f ∈ explained store q <-> st_contains store f = true /\ predicate f = predicate q /\ explain_matches q f = true.
Proof.
  unfold explained. rewrite list_elem_of_In, filter_In, <- list_elem_of_In, facts_spec. tauto.
Qed.

Section Runtime.
Context {St : Type} `{FactStoreLaws St} `{!Mangle St} `{!MangleText St}.
Context (facts : list Atom) (queryStr : string) (q : Atom) (r r1 : MangleRuntime St) (p : ProgramInfo * Strata) (s : St).
Context (Hprogram : rt_program r = Some p) (Hquery : parse_atom queryStr = Ok q).
Context (Hstore : evaluatedWorkingStore None facts (with_limit (rt_cfg r) (buildEvalOptionsFor (rt_cfg r) (fst p))) r = (r1, Ok s)).

Lemma runtime_Explain_eq :
  runtime_Explain None facts queryStr r
  = (r1, Ok {| ex_Query := queryStr; ex_Outcome := negb (Nat.eqb (List.length (explained s q)) 0);
               ex_Derivations := derivations s (rules (fst p)) (explained s q) 0 |}).
Proof.
  unfold runtime_Explain. rewrite Hprogram, Hstore. apply ews_program in Hstore as Hp. rewrite Hp, Hprogram.
  by rewrite Hquery.
Qed.

(** C23: what an explanation says is so.  When the evaluated store holds
    ground facts, the explanation of a query has one derivation per stored fact
    that agrees with it, in the store's order.  In it a base fact is stored and
    no loaded rule derives it from stored facts; a rule node is an instance of
    a loaded rule with the fact as its head, whose positive premises are stored
    facts explained in turn under bindings that only grow, and whose negations
    and comparisons hold where those bindings make them ground (where they do
    not, they are cited unchecked, as in the code); and a node is left without
    an explanation only at [maxExplainDepth] levels or when the whole search
    took more than [maxExplainSteps] steps.  It is not a proof from base facts:
    a fact may be cited in its own explanation ([circular_explanation]). *)
Theorem explanation_sound : ground_store s ->
  exists ex, runtime_Explain None facts queryStr r = (r1, Ok ex) /\
    Forall2 (valid_step s (rules (fst p)) (search_steps s (rules (fst p)) (explained s q) 0) maxExplainDepth) (explained s q) (ex_Derivations ex).
Proof.
  intros Hg. eexists. split; [apply runtime_Explain_eq|]. cbn.
  eapply Forall2_impl; [apply derivations_spec; intros f Hf; by apply explained_stored in Hf as []|].
  intros f d (Hf & n & m & Hp & Hm). eapply prove_sound; [done|by apply Hg|exact Hp|exact Hm].
Qed.

(** C36: explanations are complete and bounded: [Outcome] says whether some
    stored fact agrees with the query, there is one derivation per such fact,
    and no derivation is deeper than [maxExplainDepth] rule applications. *)
Theorem explanation_complete :
  exists ex, runtime_Explain None facts queryStr r = (r1, Ok ex) /\
    (ex_Outcome ex = true <->
       exists f, st_contains s f = true /\ predicate f = predicate q /\ explain_matches q f = true) /\
    List.length (ex_Derivations ex) = List.length (explained s q) /\
    Forall (fun d => step_depth d <= S maxExplainDepth) (ex_Derivations ex).
Proof.
  assert (forall f, f ∈ explained s q -> st_contains s f = true) as Hin by (intros f Hf; by apply explained_stored in Hf as []).
  pose proof (derivations_spec s (rules (fst p)) (explained s q) 0%Z Hin) as Hd.
  eexists. split; [apply runtime_Explain_eq|]. cbn. split_and!.
  - rewrite negb_true_iff, Nat.eqb_neq. setoid_rewrite <- explained_stored.
    destruct (explained s q) as [|f l]; cbn; [|split; [intros _; exists f; by left|lia]].
    split; [lia|intros (f & Hf); by apply not_elem_of_nil in Hf].
  - symmetry. by eapply Forall2_length.
  - clear -Hd. induction Hd as [|f d fs ds (_ & n & m & Hp & _) _ IH]; constructor; [by eapply prove_depth|done].
Qed.
End Runtime.

(** ** Audit trails *)

Fixpoint preorder (d : DerivationStep) : list DerivationStep :=
  match d with Step _ _ _ _ _ _ children => d :: flat_map preorder children end.

Definition inference (d : DerivationStep) : RuleInference :=
  {| ri_RuleName := ds_Predicate d; ri_Tier := ds_Tier d; ri_Definition := ruleText d;
     ri_SourceFile := ""; ri_Bindings := ds_Bindings d; ri_Predicate := ds_Predicate d |}.

Lemma appendStep_rules d : forall t,
  at_MatchedRules (appendStep t d) = (at_MatchedRules t ++ map inference (preorder d))%list.
Proof.
  revert d. fix IH 1. intros [fact rule pred tier bindings via children] t. cbn [appendStep preorder map].
  enough (forall t', at_MatchedRules (foldl appendStep t' children)
                     = (at_MatchedRules t' ++ map inference (flat_map preorder children))%list) as ->.
  { cbn [AddRule at_MatchedRules]. by rewrite <- app_assoc. }
  induction children as [|c cs IHc]; intros t'; cbn; [by rewrite app_nil_r|].
  rewrite IHc, IH, map_app. by rewrite app_assoc.
Qed.

(** The audit trail of an explanation lists every node of its derivations,
    each before its premises, and counts the derivations. *)
Theorem audit_trail_preorder now engineID e :
  exists t, Explanation_AuditTrail now (Some e) engineID = Some t /\
    at_MatchedRules t = map inference (flat_map preorder (ex_Derivations e)) /\
    at_MatchedCount t = Z.of_nat (List.length (ex_Derivations e)).
Proof.
  eexists. split; [reflexivity|]. split; [|done]. cbn. unfold appendSteps.
  change (map inference (flat_map preorder (ex_Derivations e)))
    with (at_MatchedRules (NewAuditTrail now engineID (ex_Query e)) ++ map inference (flat_map preorder (ex_Derivations e)))%list.
  generalize (NewAuditTrail now engineID (ex_Query e)) as t. induction (ex_Derivations e) as [|d ds IH]; intros t; cbn.
  - by rewrite app_nil_r.
  - by rewrite IH, appendStep_rules, map_app, app_assoc.
Qed.

(** ** Concrete explanations *)

(** Library text for the concrete Datalog instance, with the rules given. *)
Definition ground_text_of (prog : list Clause) : MangleText (list Atom) := {|
  rules _ := prog;
  term_String t := ground_text (NewAtom "" [t]);
  clause_String c := ground_text (cl_head c) +:+ " :- ...";
  neg_String a := "!" +:+ ground_text a;
  neg_IsGround a := forallb (fun t => match t with TConst _ => true | _ => false end) (atom_args a)
|}.

Definition cst (s : string) : BaseTerm := TConst (CString s).
Definition edge (s t : string) : Atom := NewAtom "edge" [cst s; cst t].
Definition quoted (s : string) : string := dq +:+ s +:+ dq.
Definition edge_text (p s t : string) : string := p +:+ "(" +:+ quoted s +:+ "," +:+ quoted t +:+ ")." +:+ nl.

Definition path_rule : Clause :=
  {| cl_head := NewAtom "path" [TVar "X"; TVar "Y"]; cl_premises := [PAtom (NewAtom "edge" [TVar "X"; TVar "Y"])] |}.
Definition rt_path : MangleRuntime (list Atom) :=
  fst (AddPolicy None (edge_text "edge" "a" "b" +:+ edge_text "path" "a" "b") NewMangleRuntime).
Definition path_facts : list Atom := [edge "a" "b"; NewAtom "path" [cst "a"; cst "b"]].
Definition path_query : string := "path(" +:+ quoted "a" +:+ ", Y)".

Lemma path_store_ground : ground_store path_facts.
Proof.
  intros f Hf. apply bool_decide_eq_true in Hf. unfold path_facts in Hf.
  apply elem_of_cons in Hf as [-> |Hf]; [done|]. by apply list_elem_of_singleton in Hf as ->.
Qed.

Lemma explanation_sound_witness :
  exists ex, snd (runtime_Explain (MangleText0 := ground_text_of [path_rule]) None [] path_query rt_path) = Ok ex /\
    Forall2 (valid_step (MangleText0 := ground_text_of [path_rule]) path_facts [path_rule] 2 maxExplainDepth)
      [NewAtom "path" [cst "a"; cst "b"]] (ex_Derivations ex).
Proof.
  destruct (explanation_sound (MangleText0 := ground_text_of [path_rule]) [] path_query (NewAtom "path" [cst "a"; TVar "Y"])
              rt_path (fst (evaluatedWorkingStore None [] no_opts rt_path)) (path_facts, tt) path_facts)
    as (ex & Hex & Hall); [by_vm|by_vm|by_vm|apply path_store_ground|].
  exists ex. split; [by rewrite Hex|exact Hall].
Defined.

Lemma explanation_complete_witness :
  exists ex, snd (runtime_Explain (MangleText0 := ground_text_of [path_rule]) None [] path_query rt_path) = Ok ex /\
    ex_Outcome ex = true.
Proof.
  destruct (explanation_complete (MangleText0 := ground_text_of [path_rule]) [] path_query (NewAtom "path" [cst "a"; TVar "Y"])
              rt_path (fst (evaluatedWorkingStore None [] no_opts rt_path)) (path_facts, tt) path_facts)
    as (ex & Hex & Hout & _); [by_vm|by_vm|by_vm|].
  exists ex. split; [by rewrite Hex|]. apply Hout. exists (NewAtom "path" [cst "a"; cst "b"]). split_and!; by_vm.
Defined.

(** The derivation of the path is its rule over the base fact. *)
Example path_explained :
  derivations (MangleText0 := ground_text_of [path_rule]) path_facts [path_rule] [NewAtom "path" [cst "a"; cst "b"]] 0
  = [rule_step (MangleText0 := ground_text_of [path_rule]) path_rule (NewAtom "path" [cst "a"; cst "b"])
       (<["X" := cst "a"]> (<["Y" := cst "b"]> ∅)) [fact_step (edge "a" "b")]].
Proof. by_vm. Qed.

(** A tree without base facts: every path ends at the depth limit. *)
Fixpoint fact_free (d : DerivationStep) : bool :=
  match d with Step _ _ _ _ _ via children => negb (String.eqb via ViaFact) && forallb fact_free children end.

Definition symmetric_rule : Clause :=
  {| cl_head := NewAtom "edge" [TVar "X"; TVar "Y"]; cl_premises := [PAtom (NewAtom "edge" [TVar "Y"; TVar "X"])] |}.

(** The prover tries rules before base facts and does not remember the facts
    it is proving: with a symmetric rule a base fact is explained by itself,
    until the depth limit, and its being a base fact is not reported. *)
Theorem circular_explanation :
  let prove := prove (MangleText0 := ground_text_of [symmetric_rule]) [edge "a" "b"; edge "b" "a"] [symmetric_rule] in
  exists d, snd (prove maxExplainDepth (edge "a" "b") 0%Z) = Some d /\ fact_free d = true.
Proof. cbv zeta. destruct (snd _) as [d|] eqn:Hd; [|vm_compute in Hd; discriminate]. exists d. split; [done|].
  revert Hd. vm_compute. intros [= <-]. reflexivity. Qed.

(** An equality with an unbound side neither fails nor binds: for
    [p(X) :- q(X), Y = "z", r(Y)] the explanation of [p("a")] cites [r("w")],
    which is no instance of the rule. *)
Definition eq_rule : Clause :=
  {| cl_head := NewAtom "p" [TVar "X"];
     cl_premises := [PAtom (NewAtom "q" [TVar "X"]); PEq (TVar "Y") (cst "z"); PAtom (NewAtom "r" [TVar "Y"])] |}.
Definition eq_store : list Atom :=
  [NewAtom "q" [cst "a"]; NewAtom "r" [cst "w"]; NewAtom "r" [cst "z"]; NewAtom "p" [cst "a"]].

Theorem equality_not_enforced :
  exists d, snd (prove (MangleText0 := ground_text_of [eq_rule]) eq_store [eq_rule] maxExplainDepth (NewAtom "p" [cst "a"]) 0%Z)
            = Some d /\
    map ds_Via (ds_Children d) = [ViaFact; ViaBuiltin; ViaFact] /\
    map ds_Fact (ds_Children d) !! 2 = Some (atom_String (NewAtom "r" [cst "w"])).
Proof. eexists. split; [vm_compute; reflexivity|]. split; by_vm. Qed.

(** The step limit does not end the search: past it every premise is taken
    as proved, and the candidates of the open premises are still enumerated. *)
Definition search_rule : Clause :=
  {| cl_head := NewAtom "p" [];
     cl_premises := [PAtom (NewAtom "q" [TVar "X"]); PAtom (NewAtom "q" [TVar "Y"]); PAtom (NewAtom "never" [])] |}.
Definition search_store : list Atom :=
  (map (fun i => NewAtom "q" [TConst (CNumber (Z.of_nat i))]) (seq 0 40) ++ [NewAtom "p" []])%list.

Theorem step_limit_exceeded :
  (fst (prove (MangleText0 := ground_text_of [search_rule]) search_store [search_rule] maxExplainDepth (NewAtom "p" []) 0%Z)
   > maxExplainSteps)%Z.
Proof. apply Z.lt_gt, Z.ltb_lt. by_vm. Qed.
