(* ===== verification/Load.v ===== *)
(** * Loading a policy from files

    [MangleRuntime.Load] of [internal/engine/runtime.go] with [resolveFiles],
    [collectFiles] and [parseRuleFile]: the rule and fact files of a path, a
    directory or a glob pattern replace the program and the facts of the
    runtime.  The file system is an interface; [resolveFiles] recurses on the
    matches of a pattern and takes fuel. *)
From stdpp Require Import sorting.
From S2P Require Import Prelude GoStrings CoreErrors Facts Sources Datalog Ground Runtime RuntimeProps.
From Stdlib Require Import Ascii String.
Open Scope string_scope.

(** What the loader uses of [os], [io/fs] and [path/filepath]. *)
Class FileSystem := {
  os_Stat : string -> res error bool;             (* whether the path is a directory *)
  is_ErrNotExist : error -> bool;                 (* errors.Is(err, fs.ErrNotExist) *)
  filepath_Glob : string -> res error (list string);
  filepath_WalkDir : string -> res error (list (string * bool));  (* the visited paths; whether each is a directory *)
  os_ReadFile : string -> res error string
}.

(** Paths that a pattern matched exist. *)
Class FileSystemLaws `{FileSystem} := {
  glob_exists pattern matches m :
    filepath_Glob pattern = Ok matches -> m ∈ matches -> forall e, os_Stat m = Err e -> is_ErrNotExist e = false
}.

(** [sort.Strings]: ascending byte order. *)
Definition sort_Strings (l : list string) : list string := merge_sort strings.String.le l.

Definition hasMeta (path : string) : bool := contains path "*" || contains path "?" || contains path "[".

Section Files.
Context `{FileSystem}.

Definition collectFiles (root : string) : res error (list string) :=
  match filepath_WalkDir root with
  | Err e => Err (EWrap ("failed to walk directory " +:+ go_quote root +:+ ": ") e)
  | Ok visited => Ok (sort_Strings (map fst (List.filter (fun '(_, dir) => negb dir) visited)))
  end.

(** The files of the matches of a pattern, in their order. *)
Fixpoint resolve_matches (resolve : string -> option (res error (list string))) (matches : list string)
  : option (res error (list string)) :=
  match matches with
  | [] => Some (Ok [])
  | m :: rest =>
      match resolve m with
      | None => None
      | Some (Err e) => Some (Err (EWrap ("failed to resolve glob match " +:+ go_quote m +:+ ": ") e))
      | Some (Ok files) =>
          match resolve_matches resolve rest with
          | Some (Ok more) => Some (Ok (files ++ more)%list)
          | other => other
          end
      end
  end.

Fixpoint resolveFiles (fuel : nat) (path : string) : option (res error (list string)) :=
  match fuel with
  | O => None
  | S fuel' =>
      match os_Stat path with
      | Ok true => Some (collectFiles path)
      | Ok false => Some (Ok [path])
      | Err e =>
          let failed := Some (Err (EWrap ("failed to stat path " +:+ go_quote path +:+ ": ") e)) in
          if is_ErrNotExist e then
            if hasMeta path then
              match filepath_Glob path with
              | Err g => Some (Err (EWrap ("path globbing failed for " +:+ go_quote path +:+ ": ") g))
              | Ok [] => Some (Err (EText ("no files matched " +:+ go_quote path)))
              | Ok matches =>
                  match resolve_matches (resolveFiles fuel') matches with
                  | Some (Ok files) => Some (Ok (sort_Strings files))
                  | other => other
                  end
              end
            else failed
          else failed
      end
  end.

Context {St : Type} `{FactStore St} `{!Mangle St}.

Definition parseRuleFile (file : string) : res error SourceUnit :=
  match os_ReadFile file with
  | Err e => Err (EWrap ("could not open rule file " +:+ file +:+ ": ") e)
  | Ok b => match parse_unit (cleanSource b) with
            | Err e => Err (EWrap ("could not parse rule file " +:+ file +:+ ": ") e)
            | Ok u => Ok u
            end
  end.

Definition parse_files (what : string) (files : list string) : res error (list SourceUnit) :=
  res_mapM (fun file => match parseRuleFile file with
                        | Err e => Err (EWrap ("failed to parse " +:+ what +:+ " file " +:+ file +:+ ": ") e)
                        | Ok u => Ok u
                        end) files.

(** The facts of a fact file: its clauses without premises. *)
Definition unit_facts (u : SourceUnit) : list Atom :=
  map cl_head (List.filter (fun c => match cl_premises c with [] => true | _ => false end) (su_clauses u)).

(** The new state, from the files: parsed, analysed and evaluated, without
    the options and the timeout of the runtime. *)
Definition build (ctx : option error) (ruleFiles factFiles : list string)
  : res error (list SourceUnit * (ProgramInfo * Strata) * St * St) :=
  match parse_files "rule" ruleFiles with
  | Err e => Err e
  | Ok units =>
      match parse_files "fact" factFiles with
      | Err e => Err e
      | Ok factUnits =>
          let base := add_all (mjoin (map unit_facts factUnits)) st_empty in
          match analyze units [] with
          | Err e => Err (EWrap "failed to analyze program: " e)
          | Ok pi =>
              match stratify pi with
              | Err e => Err (EWrap "failed to stratify program: " e)
              | Ok strata =>
                  let explicit := st_merge st_empty base in
                  let '(base', err) := evalStratifiedWithContext ctx (pi, strata) base no_opts 0 in
                  match err with
                  | Some e => Err (EWrap "failed to evaluate base program: " e)
                  | None => Ok (units, (pi, strata), base', explicit)
                  end
              end
          end
      end
  end.

Definition rule_files (files : list string) : list string := List.filter isRuleFile files.
Definition fact_files (files : list string) : list string := List.filter (fun f => negb (isRuleFile f) && isFactFile f) files.

Definition runtime_Load (fuel : nat) (ctx : option error) (path : string) (r : MangleRuntime St)
  : option (MangleRuntime St * option error) :=
  if String.eqb path "" then Some (r, Some (EText "path cannot be empty"))
  else
    resolved ← resolveFiles fuel path;
    Some match resolved with
    | Err e => (r, Some (EWrap "failed to resolve path: " e))
    | Ok files =>
        match rule_files files, fact_files files with
        | [], [] => (r, Some (EText ("no .dlog or fact files found in " +:+ path)))
        | ruleFiles, factFiles =>
            match build ctx ruleFiles factFiles with
            | Err e => (r, Some e)
            | Ok (units, p, base, explicit) =>
                (invalidateIDBCacheLocked (install units p (set_stores base explicit r)), None)
            end
        end
    end.
End Files.

(** ** Termination *)

Lemma resolve_matches_ext f g matches :
  (forall m, m ∈ matches -> f m = g m) -> resolve_matches f matches = resolve_matches g matches.
Proof.
  induction matches as [|m rest IH]; intros Hfg; [done|]. cbn. rewrite (Hfg m ltac:(by left)).
  by rewrite IH by (intros ??; apply Hfg; by right).
Qed.

Lemma resolve_matches_total f matches : (forall m, m ∈ matches -> is_Some (f m)) -> is_Some (resolve_matches f matches).
Proof.
  induction matches as [|m rest IH]; intros Hf; cbn; [by eexists|].
  destruct (Hf m ltac:(by left)) as [[files|e] ->]; [|by eexists].
  destruct IH as [[more|e] ->]; [intros ??; apply Hf; by right|by eexists|by eexists].
Qed.

Section Files.
Context `{FileSystemLaws}.

(** A path that does not need a glob pattern is resolved at once. *)
Lemma resolve_existing n path :
  (forall e, os_Stat path = Err e -> is_ErrNotExist e = false) ->
  is_Some (resolveFiles (S n) path) /\ resolveFiles (S n) path = resolveFiles 1 path.
Proof.
  intros Hex. cbn. destruct (os_Stat path) as [[]|e]; [split; [by eexists|done]..|].
  rewrite (Hex e eq_refl). split; [by eexists|done].
Qed.

Lemma resolveFiles_total n path :
  is_Some (resolveFiles (S (S n)) path) /\ resolveFiles (S (S n)) path = resolveFiles 2 path.
Proof.
  change 2 with (S 1). remember (S n) as k eqn:Hk. remember 1 as o eqn:Ho. cbn [resolveFiles]. destruct (os_Stat path) as [[]|e]; [split; [by eexists|done]..|].
  destruct (is_ErrNotExist e), (hasMeta path); try (split; [by eexists|done]).
  destruct (filepath_Glob path) as [matches|g] eqn:Hg; [|split; [by eexists|done]].
  assert (forall m, m ∈ matches -> is_Some (resolveFiles k m) /\ resolveFiles k m = resolveFiles o m) as Hm
    by (intros m Hin; subst k o; apply resolve_existing; intros e'; by eapply glob_exists).
  destruct matches as [|m rest]; [split; [by eexists|done]|].
  rewrite (resolve_matches_ext (resolveFiles k) (resolveFiles o)) by (intros ??; by apply Hm).
  destruct (resolve_matches_total (resolveFiles o) (m :: rest)) as [[files|e'] Hr];
    [intros m' Hin; destruct (Hm m' Hin) as [Hs He]; by rewrite <- He| |];
    rewrite Hr; (split; [by eexists|done]).
Qed.

Context {St : Type} `{FactStoreLaws St} `{!Mangle St} `{!MangleLaws St}.

(** Loading terminates: when the paths matched by a pattern exist, [runtime_Load]
    returns, with any fuel above one, and the fuel does not matter. *)
Theorem Load_terminates n ctx path (r : MangleRuntime St) :
  is_Some (runtime_Load (S (S n)) ctx path r) /\ runtime_Load (S (S n)) ctx path r = runtime_Load 2 ctx path r.
Proof.
  unfold runtime_Load. destruct (resolveFiles_total n path) as [[x Hx] He]. rewrite <- He, Hx.
  destruct (String.eqb path ""); (split; [by eexists|done]).
Qed.
End Files.

(** ** What a load changes *)

Section Effect.
Context `{FileSystem} {St : Type} `{FactStoreLaws St} `{!Mangle St} `{!MangleLaws St}.

(** A failed load leaves the runtime as it was. *)
Theorem Load_failure_atomic fuel ctx path (r r' : MangleRuntime St) e :
  runtime_Load fuel ctx path r = Some (r', Some e) -> r' = r.
Proof.
  unfold runtime_Load. intros Hl. destruct (String.eqb path ""); [by simplify_eq|].
  destruct (resolveFiles fuel path) as [[files|x]|]; simplify_option_eq; [|done].
  destruct (rule_files files), (fact_files files); simplify_eq; try done;
    destruct (build _ _ _) as [[[[? ?] ?] ?]|?]; by simplify_eq.
Qed.

Lemma build_ok ctx ruleFiles factFiles units p base explicit :
  build (St := St) ctx ruleFiles factFiles = Ok (units, p, base, explicit) ->
  exists factUnits,
    parse_files "rule" ruleFiles = Ok units /\ parse_files "fact" factFiles = Ok factUnits /\
    analyze units [] = Ok (fst p) /\ stratify (fst p) = Ok (snd p) /\
    (forall a, st_contains explicit a = true <-> a ∈ mjoin (map unit_facts factUnits)) /\
    (forall a, st_contains explicit a = true -> st_contains base a = true).
Proof.
  unfold build. destruct (parse_files "rule" _) as [us|]; [|done]. destruct (parse_files "fact" _) as [fus|]; [|done].
  destruct (analyze us []) as [pi|] eqn:Ha; [|done]. destruct (stratify pi) as [strata|] eqn:Hs; [|done].
  set (b0 := add_all _ _). destruct (evalStratifiedWithContext _ _ _ _ _) as [base' [x|]] eqn:He; [done|].
  intros [= <- <- <- <-]. exists fus. split_and!; [done..| |].
  - intros a. rewrite contains_merge, contains_empty. unfold b0. rewrite contains_add_all, contains_empty.
    rewrite orb_false_l, orb_false_r. apply bool_decide_eq_true.
  - intros a. rewrite contains_merge, contains_empty. cbn [orb]. intros Ha0.
    unfold evalStratifiedWithContext in He. destruct ctx; [done|].
    pose proof (eval_monotone pi strata no_opts 0%Z b0 a Ha0) as Hm. cbn [fst snd] in He. by rewrite He in Hm.
Qed.

(** A successful load replaces program and facts by those of the files: the
    units of the rule files in file order, the analysed program, as explicit
    facts the premise-free clauses of the fact files, all of them in the base
    store; earlier facts and rules are gone, the cache is emptied, persistent
    units and configuration are kept. *)
Theorem Load_success fuel ctx path (r r' : MangleRuntime St) :
  runtime_Load fuel ctx path r = Some (r', None) ->
  exists files units factUnits p,
    resolveFiles fuel path = Some (Ok files) /\
    parse_files "rule" (rule_files files) = Ok units /\ parse_files "fact" (fact_files files) = Ok factUnits /\
    analyze units [] = Ok (fst p) /\ stratify (fst p) = Ok (snd p) /\
    rt_program r' = Some p /\ rt_ruleUnits r' = units /\ rt_ready r' = true /\ rt_idbCache r' = None /\
    rt_persistentUnits r' = rt_persistentUnits r /\ rt_cfg r' = rt_cfg r /\
    (forall a, st_contains (rt_explicit r') a = true <-> a ∈ mjoin (map unit_facts factUnits)) /\
    (forall a, st_contains (rt_explicit r') a = true -> st_contains (rt_base r') a = true).
Proof.
  unfold runtime_Load. intros Hl. destruct (String.eqb path ""); [by simplify_eq|].
  destruct (resolveFiles fuel path) as [[files|x]|] eqn:Hf; simplify_option_eq.
  assert (exists units p base explicit, build ctx (rule_files files) (fact_files files) = Ok (units, p, base, explicit) /\
            r' = invalidateIDBCacheLocked (install units p (set_stores base explicit r))) as (units & p & base & explicit & Hb & ->).
  { destruct (rule_files files), (fact_files files); [by simplify_eq|..];
      (destruct (build _ _ _) as [[[[? ?] ?] ?]|?] eqn:Hb; [|by simplify_eq]); simplify_eq; by repeat eexists. }
  apply build_ok in Hb as (factUnits & Hr & Hfacts & Ha & Hs & Hex & Hbase).
  exists files, units, factUnits, p. by split_and!.
Qed.
End Effect.

(** ** A concrete file system *)

(** A directory with a rule file, a fact file and another file. *)
Definition demo_files : list (string * string) :=
  [("policies/b.facts", "q."); ("policies/a.dl", "p."); ("policies/README", "text")].

#[local] Instance demo_fs : FileSystem := {|
  os_Stat p := if String.eqb p "policies" then Ok true
               else if bool_decide (p ∈ demo_files.*1) then Ok false else Err (EText "file does not exist");
  is_ErrNotExist e := String.eqb (Error e) "file does not exist";
  filepath_Glob p := Ok (if String.eqb p "policies/*" then demo_files.*1 else []);
  filepath_WalkDir p := Ok (("policies", true) :: map (fun f => (fst f, false)) demo_files);
  os_ReadFile p := match list_find (fun f => fst f = p) demo_files with
                   | Some (_, (_, text)) => Ok text
                   | None => Err (EText "file does not exist")
                   end
|}.

#[local] Instance demo_fs_laws : FileSystemLaws.
Proof.
  split. cbn. intros pattern matches m Hg Hin e Hs. destruct (String.eqb pattern "policies/*"); simplify_eq; [|by apply not_elem_of_nil in Hin].
  cbn in Hin. repeat (apply elem_of_cons in Hin as [-> |Hin]; [by vm_compute in Hs|]). by apply not_elem_of_nil in Hin.
Qed.

Definition demo_loaded : MangleRuntime (list Atom) :=
  match runtime_Load 2 None "policies" rt0 with Some (r, _) => r | None => rt0 end.

Lemma Load_terminates_witness :
  is_Some (runtime_Load 7 None "policies/*" rt0) /\ runtime_Load 7 None "policies/*" rt0 = runtime_Load 2 None "policies/*" rt0.
Proof. apply (Load_terminates 5). Defined.

Lemma demo_load : runtime_Load 2 None "policies" rt0 = Some (demo_loaded, None).
Proof. by_vm. Qed.

Lemma Load_success_witness :
  rt_ready demo_loaded = true /\ st_contains (rt_explicit demo_loaded) (NewAtom "q" []) = true.
Proof.
  destruct (Load_success 2 None "policies" rt0 demo_loaded demo_load)
    as (files & units & factUnits & p & Hf & _ & Hfu & _ & _ & _ & _ & Hready & _ & _ & _ & Hex & _).
  split; [exact Hready|]. apply Hex.
  assert (resolveFiles 2 "policies" = Some (Ok ["policies/README"; "policies/a.dl"; "policies/b.facts"])) as Hf' by by_vm.
  rewrite Hf' in Hf. injection Hf as <-.
  assert (parse_files "fact" (fact_files ["policies/README"; "policies/a.dl"; "policies/b.facts"])
          = Ok [{| su_decls := []; su_clauses := [{| cl_head := NewAtom "q" []; cl_premises := [] |}] |}]) as Hp by by_vm.
  rewrite Hp in Hfu. injection Hfu as <-. by left.
Defined.

Lemma Load_failure_atomic_witness : exists e, runtime_Load 2 None "missing" rt0 = Some (rt0, Some e).
Proof.
  assert (match runtime_Load 2 None "missing" rt0 with Some (_, Some _) => true | _ => false end = true) as Hc by by_vm.
  destruct (runtime_Load 2 None "missing" rt0) as [[r [e|]]|] eqn:Hl; [|discriminate Hc..].
  exists e. by rewrite (Load_failure_atomic 2 None "missing" rt0 r e Hl).
Defined.

(** A path that does not exist but matches itself as a pattern, such as a
    dangling symbolic link named like a pattern, is resolved forever. *)
Theorem dangling_pattern_diverges (path : string) (e : error) :
  hasMeta path = true ->
  let fs := {| os_Stat _ := Err e; is_ErrNotExist _ := true; filepath_Glob p := Ok [p];
               filepath_WalkDir _ := Err e; os_ReadFile _ := Err e |} in
  forall fuel, resolveFiles (H := fs) fuel path = None.
Proof. intros Hm fs fuel. induction fuel as [|fuel IH]; [done|]. cbn. by rewrite Hm, IH. Qed.
