(* ===== verification/Temporal.v ===== *)
(** * Temporal facts

    The temporal operations of [MangleRuntime] (internal/engine/runtime.go)
    and their surface on the SDK client (sdk/temporal.go): facts with a
    validity interval, a settable evaluation time, point and interval queries.
    The library's temporal store is the [TemporalStore] interface; times are
    nanoseconds, the zero time is [None]. *)
From S2P Require Import Prelude GoStrings CoreErrors Sources Datalog Ground Runtime RuntimeProps.
From Stdlib Require Import Ascii String.
Open Scope string_scope.

Inductive TInterval :=
| TimeInterval (start finish : Z)
| PointInterval (at_ : Z)
| Eternal.

Definition covers (i : TInterval) (x : Z) : bool :=
  match i with
  | TimeInterval s f => (s <=? x)%Z && (x <=? f)%Z
  | PointInterval t => (x =? t)%Z
  | Eternal => true
  end.

(** [factstore.TemporalStore]; [ts_during] lists the facts valid at some
    point of an interval. *)
Class TemporalStore (TS : Type) := {
  ts_empty : TS;
  ts_add : Atom -> TInterval -> TS -> TS * option error;    (* Add and AddEternal *)
  ts_contains : TS -> Atom -> Z -> bool;                    (* ContainsAt *)
  ts_at : TS -> Atom -> Z -> res error (list Atom);         (* GetFactsAt *)
  ts_during : TS -> Atom -> Z -> Z -> res error (list Atom) (* GetFactsDuring *)
}.

Class TemporalStoreLaws (TS : Type) `{TemporalStore TS} := {
  ts_contains_empty a x : ts_contains ts_empty a x = false;
  ts_contains_add a i t t' b x :
    ts_add a i t = (t', None) -> ts_contains t' b x = (bool_decide (a = b) && covers i x) || ts_contains t b x
}.

Definition go_neg (d : Z) : Z := if decide (d = - 2 ^ 63)%Z then d else (- d)%Z.

Section Temporal.
Context {St TS : Type} `{FactStore St} `{!Mangle St} `{TemporalStore TS}.

(** The runtime with its temporal store ([None]: the nil pointer). *)
Record TemporalRuntime := { tr_rt : MangleRuntime St; tr_store : option TS }.

Definition NewTemporalRuntime : TemporalRuntime := {| tr_rt := NewMangleRuntime; tr_store := None |}.
Definition set_rt (r : MangleRuntime St) (t : TemporalRuntime) : TemporalRuntime := {| tr_rt := r; tr_store := tr_store t |}.
Definition set_store (s : TS) (t : TemporalRuntime) : TemporalRuntime := {| tr_rt := tr_rt t; tr_store := Some s |}.

Definition rt_EnableTemporal (t : TemporalRuntime) : TemporalRuntime :=
  {| tr_rt := EnableTemporal (tr_rt t); tr_store := Some ts_empty |}.
Definition IsTemporalEnabled (t : TemporalRuntime) : bool := cfg_temporalEnabled (rt_cfg (tr_rt t)).
Definition rt_SetEvaluationTime (x : option Z) (t : TemporalRuntime) : TemporalRuntime :=
  set_rt (SetEvaluationTime x (tr_rt t)) t.
Definition GetEvaluationTime (t : TemporalRuntime) : option Z := cfg_evaluationTime (rt_cfg (tr_rt t)).
Definition GetTemporalStore (t : TemporalRuntime) : option TS := tr_store t.

(** The evaluation time, or the clock when it is not set. *)
Definition now_or (now : Z) (t : TemporalRuntime) : Z := default now (GetEvaluationTime t).

(** The addition of a parsed fact; [None] is a nil dereference. *)
Definition add_interval (a : Atom) (i : TInterval) (t : TemporalRuntime) : option (TemporalRuntime * option error) :=
  s ← tr_store t;
  let '(s', err) := ts_add a i s in
  Some (set_store s' t, err).

Definition add_enabled (factString : string) (i : TInterval) (t : TemporalRuntime) : option (TemporalRuntime * option error) :=
  if negb (IsTemporalEnabled t) then Some (t, Some (EText "temporal reasoning not enabled. Call EnableTemporal() first"))
  else match parse_atom factString with
       | Err e => Some (t, Some (EWrap ("failed to parse fact '" +:+ factString +:+ "': ") e))
       | Ok a => add_interval a i t
       end.

Definition AddTemporalFact (factString : string) (start finish : Z) (t : TemporalRuntime) :=
  add_enabled factString (TimeInterval start finish) t.
Definition AddTemporalFactAt (factString : string) (at_ : Z) (t : TemporalRuntime) :=
  add_enabled factString (PointInterval at_) t.
Definition AddTemporalFactInPast (now : Z) (factString : string) (duration : Z) (t : TemporalRuntime) :=
  let endTime := now_or now t in
  add_enabled factString (TimeInterval (endTime + go_neg duration) endTime) t.
Definition AddTemporalFactInFuture (now : Z) (factString : string) (duration : Z) (t : TemporalRuntime) :=
  let startTime := now_or now t in
  add_enabled factString (TimeInterval startTime (startTime + duration)) t.

Definition AddEternalFact (factString : string) (t : TemporalRuntime) : option (TemporalRuntime * option error) :=
  match parse_atom factString with
  | Err e => Some (t, Some (EWrap ("failed to parse fact '" +:+ factString +:+ "': ") e))
  | Ok a => add_interval a Eternal t
  end.

(** The two queries, given the lookup in the store. *)
Definition query_temporal (lookup : TS -> Atom -> res error (list Atom)) (factPattern : string) (t : TemporalRuntime)
  : res error (list string) :=
  match GetTemporalStore t with
  | None => Err (EText "temporal store not available")
  | Some s =>
      match parse_atom factPattern with
      | Err e => Err (EWrap ("failed to parse query '" +:+ factPattern +:+ "': ") e)
      | Ok q => match lookup s q with
                | Err e => Err (EWrap "query failed: " e)
                | Ok facts => Ok (map atom_String facts)
                end
      end
  end.

Definition QueryTemporalFactsAt (factPattern : string) (at_ : Z) (t : TemporalRuntime) :=
  query_temporal (fun s q => ts_at s q at_) factPattern t.
Definition QueryTemporalFactsDuring (factPattern : string) (start finish : Z) (t : TemporalRuntime) :=
  query_temporal (fun s q => ts_during s q start finish) factPattern t.

Definition ContainsTemporalFact (now : Z) (factString : string) (t : TemporalRuntime) : res error bool :=
  match GetTemporalStore t with
  | None => Err (EText "temporal store not available")
  | Some s =>
      match parse_atom factString with
      | Err e => Err (EWrap ("failed to parse fact '" +:+ factString +:+ "': ") e)
      | Ok a => Ok (ts_contains s a (now_or now t))
      end
  end.

(** ** The client's surface

    [None] is an engine without the temporal capability. *)
Definition TClient := option TemporalRuntime.
Definition no_temporal : error := EText "engine does not support temporal reasoning".

(** A mutation through the capability; the outer option is a panic. *)
Definition client_update (f : TemporalRuntime -> option (TemporalRuntime * option error)) (c : TClient)
  : option (TClient * option error) :=
  match c with
  | None => Some (c, Some no_temporal)
  | Some t => '(t', err) ← f t; Some (Some t', err)
  end.
Definition client_read {A} (f : TemporalRuntime -> res error A) (c : TClient) : res error A :=
  match c with None => Err no_temporal | Some t => f t end.

Definition client_EnableTemporal := client_update (fun t => Some (rt_EnableTemporal t, None)).
Definition client_IsTemporalEnabled := client_read (fun t => Ok (IsTemporalEnabled t)).
Definition client_AddTemporalFact f s e := client_update (AddTemporalFact f s e).
Definition client_AddTemporalFactAt f x := client_update (AddTemporalFactAt f x).
Definition client_AddTemporalFactInPast now f d := client_update (AddTemporalFactInPast now f d).
Definition client_AddTemporalFactInFuture now f d := client_update (AddTemporalFactInFuture now f d).
Definition client_AddEternalFact f := client_update (AddEternalFact f).
Definition client_SetEvaluationTime x := client_update (fun t => Some (rt_SetEvaluationTime x t, None)).
Definition client_QueryTemporalFactsAt p x := client_read (QueryTemporalFactsAt p x).
Definition client_QueryTemporalFactsDuring p s e := client_read (QueryTemporalFactsDuring p s e).
Definition client_ContainsTemporalFact now f := client_read (ContainsTemporalFact now f).
End Temporal.
Arguments TemporalRuntime St TS {_}.
Arguments TClient St TS {_}.

(** ** Operation sequences and the log of additions *)

Inductive TOp :=
| OpEnable
| OpDuring (f : string) (s e : Z)
| OpAt (f : string) (x : Z)
| OpInPast (f : string) (d : Z)
| OpInFuture (f : string) (d : Z)
| OpEternal (f : string)
| OpSetTime (x : option Z).

Section Refinement.
Context {St TS : Type} `{FactStore St} `{!Mangle St} `{TemporalStoreLaws TS}.

Definition run_op (now : Z) (o : TOp) : TClient St TS -> option (TClient St TS * option error) :=
  match o with
  | OpEnable => client_EnableTemporal
  | OpDuring f s e => client_AddTemporalFact f s e
  | OpAt f x => client_AddTemporalFactAt f x
  | OpInPast f d => client_AddTemporalFactInPast now f d
  | OpInFuture f d => client_AddTemporalFactInFuture now f d
  | OpEternal f => client_AddEternalFact f
  | OpSetTime x => client_SetEvaluationTime x
  end.

(** The specification: the log of validity intervals since temporal
    reasoning was last enabled, and the evaluation time. *)
Definition Log : Type := list (Atom * TInterval) * option Z.

Definition logged (f : string) (i : TInterval) (l : Log) : Log :=
  match parse_atom f with Ok a => ((a, i) :: fst l, snd l) | Err _ => l end.

Definition log_op (now : Z) (o : TOp) (l : Log) : Log :=
  let x := default now (snd l) in
  match o with
  | OpEnable => ([], snd l)
  | OpDuring f s e => logged f (TimeInterval s e) l
  | OpAt f y => logged f (PointInterval y) l
  | OpInPast f d => logged f (TimeInterval (x + go_neg d) x) l
  | OpInFuture f d => logged f (TimeInterval x (x + d)) l
  | OpEternal f => logged f Eternal l
  | OpSetTime y => (fst l, y)
  end.

Definition valid_at (l : Log) (a : Atom) (x : Z) : bool :=
  existsb (fun '(b, i) => bool_decide (b = a) && covers i x) (fst l).

Definition represents (t : TemporalRuntime St TS) (l : Log) : Prop :=
  IsTemporalEnabled t = true /\ GetEvaluationTime t = snd l /\
  exists s, tr_store t = Some s /\ forall a x, ts_contains s a x = valid_at l a x.

Lemma add_interval_rep a i t l t' :
  represents t l -> add_interval a i t = Some (t', None) -> represents t' ((a, i) :: fst l, snd l).
Proof.
  intros (He & Ht & s & Hs & Hc). unfold add_interval. rewrite Hs. cbn.
  destruct (ts_add a i s) as [s' err] eqn:Ha. intros [= <- ->]. split_and!; [done..|].
  exists s'. split; [done|]. intros b x. rewrite (ts_contains_add _ _ _ _ b x Ha), Hc. done.
Qed.

Lemma add_enabled_rep f i t l t' :
  represents t l -> add_enabled f i t = Some (t', None) -> represents t' (logged f i l).
Proof.
  intros Hr. unfold add_enabled, logged. destruct Hr as (He & Hr). rewrite He. cbn.
  destruct (parse_atom f); [|done]. apply add_interval_rep. by split.
Qed.

Lemma run_op_rep now o t l c : represents t l -> run_op now o (Some t) = Some (c, None) ->
  exists t', c = Some t' /\ represents t' (log_op now o l).
Proof.
  intros Hr. assert (now_or now t = default now (snd l)) as Hnow by (unfold now_or; by destruct Hr as (_ & -> & _)).
  destruct o; cbn; unfold AddTemporalFact, AddTemporalFactAt, AddTemporalFactInPast, AddTemporalFactInFuture; try (destruct (add_enabled _ _ _) as [[t' err]|] eqn:Ha; cbn; intros [= <- ->];
    eexists; (split; [done|]); rewrite <- ?Hnow; by eapply add_enabled_rep).
  - intros [= <-]. eexists. split; [done|]. split; [done|]. split; [by destruct Hr as (_ & ? & _)|]. exists ts_empty. split; [done|]. apply ts_contains_empty.
  - unfold AddEternalFact, logged. destruct (parse_atom f); [|by cbn].
    destruct (add_interval _ _ _) as [[t' err]|] eqn:Ha; cbn; intros [= <- ->]. eexists. split; [done|].
    by eapply add_interval_rep.
  - intros [= <-]. eexists. split; [done|]. destruct Hr as (He & _ & s & Hs & Hc). split; [done|]. split; [done|]. by exists s.
Qed.

(** A run in which every operation succeeds. *)
Fixpoint run_ops (ops : list (Z * TOp)) (c : TClient St TS) : option (TClient St TS) :=
  match ops with
  | [] => Some c
  | (now, o) :: rest => match run_op now o c with Some (c', None) => run_ops rest c' | _ => None end
  end.

(** C33: Temporal facts refine a log of intervals: after temporal reasoning
    was enabled and any sequence of successful operations (clock readings
    included) was run, [ContainsTemporalFact] answers exactly whether an
    addition since the last enabling gave the fact an interval that covers
    the evaluation time (the clock when it is not set). *)
Theorem temporal_refines_log (t : TemporalRuntime St TS) (ops : list (Z * TOp)) c now f a :
  run_ops ((0%Z, OpEnable) :: ops) (Some t) = Some c -> parse_atom f = Ok a ->
  let l := foldl (fun l '(now, o) => log_op now o l) ([], GetEvaluationTime t) ops in
  client_ContainsTemporalFact now f c = Ok (valid_at l a (default now (snd l))).
Proof.
  cbn. intros Hrun Ha.
  assert (represents (rt_EnableTemporal t) ([], GetEvaluationTime t)) as Hr
    by (split; [done|]; split; [done|]; exists ts_empty; split; [done|]; apply ts_contains_empty).
  revert Hrun Hr. generalize (rt_EnableTemporal t) as t0. generalize ([] : list (Atom * TInterval), GetEvaluationTime t) as l.
  induction ops as [|[now' o] ops IH]; intros l t0 Hrun Hr.
  - cbn in Hrun. injection Hrun as <-. destruct Hr as (_ & Ht & s & Hs & Hc). cbn. unfold ContainsTemporalFact, GetTemporalStore.
    rewrite Hs, Ha, Hc. unfold now_or. by rewrite Ht.
  - cbn [run_ops] in Hrun. destruct (run_op now' o (Some t0)) as [[c' [e|]]|] eqn:Ho; [done| |done].
    destruct (run_op_rep _ _ _ _ _ Hr Ho) as (t1 & -> & Hr'). by apply (IH _ t1).
Qed.
End Refinement.

(** ** A concrete temporal store *)

(** The additions, newest first. *)
#[local] Instance log_store : TemporalStore (list (Atom * TInterval)) := {|
  ts_empty := [];
  ts_add a i s := ((a, i) :: s, None);
  ts_contains s a x := existsb (fun '(b, i) => bool_decide (b = a) && covers i x) s;
  ts_at s q x := Ok (map fst (List.filter (fun '(b, i) => bool_decide (predicate b = predicate q) && covers i x) s));
  ts_during s q x y := Ok (map fst (List.filter (fun '(b, i) => bool_decide (predicate b = predicate q)) s))
|}.

#[local] Instance log_store_laws : TemporalStoreLaws (list (Atom * TInterval)).
Proof. split; [done|]. intros a i t t' b x [= <-]. done. Qed.

Definition temporal0 : TemporalRuntime (list Atom) (list (Atom * TInterval)) := {| tr_rt := rt0; tr_store := None |}.

Lemma temporal_refines_log_witness :
  client_ContainsTemporalFact 100 "on_call" (run_ops [(0, OpEnable); (50, OpInPast "on_call" 20); (60, OpSetTime (Some 40))]%Z (Some temporal0) ≫= id)
  = Ok true.
Proof.
  exact (temporal_refines_log temporal0 [(50, OpInPast "on_call" 20); (60, OpSetTime (Some 40))]%Z _ 100%Z "on_call"
           (NewAtom "on_call" []) eq_refl eq_refl).
Defined.

(** Enabling temporal reasoning again discards the facts recorded so far. *)
Theorem enable_twice_forgets {St TS : Type} `{FactStore St} `{!Mangle St} `{TemporalStoreLaws TS}
    (t t' : TemporalRuntime St TS) (now : Z) f a :
  parse_atom f = Ok a -> rt_EnableTemporal t = t' -> ContainsTemporalFact now f t' = Ok false.
Proof. intros Ha <-. unfold ContainsTemporalFact. cbn. by rewrite Ha, ts_contains_empty. Qed.

(** [AddEternalFact] does not check that temporal reasoning is enabled and
    dereferences the nil store, where the other additions return an error. *)
Theorem eternal_fact_panics :
  AddEternalFact "p" temporal0 = None /\
  exists e, AddTemporalFactAt "p" 0 temporal0 = Some (temporal0, Some e).
Proof. split; [reflexivity|]. eexists. reflexivity. Qed.
