(* ===== verification/Extern.v ===== *)
(** * External predicates and extracted arguments

    The registry of external predicates and the adapter that calls one during
    an evaluation (internal/engine/runtime.go), and [ExtractActionArguments]
    with [convertDatalogValue] (internal/engine/solver.go). *)
From S2P Require Import Prelude GoStrings CoreErrors CoreTypes Facts Sources Datalog Ground Runtime RuntimeProps Solver.
From Stdlib Require Import Ascii String.
Open Scope string_scope.

(** Values that cross the boundary to external Go functions. *)
Inductive AnyVal :=
| AString (s : string)
| AInt (z : Z)
| AInt64 (z : Z)
| AFloat64 (g : string)       (* by its %g text *)
| ABool (b : bool)
| AOther (rendering : string). (* any other type, by its %v text *)

Definition ExternalPredicate : Type := list AnyVal -> res error (list (list AnyVal)).

(** ** The registry *)

Record ExternalPredicateRegistry := { er_predicates : gmap string ExternalPredicate }.

Definition NewExternalPredicateRegistry : ExternalPredicateRegistry := {| er_predicates := ∅ |}.

(** A nil function is [None]. *)
Definition Register (name : string) (fn : option ExternalPredicate) (r : ExternalPredicateRegistry)
  : ExternalPredicateRegistry * option error :=
  match fn with
  | None => (r, Some (EText ("external predicate " +:+ name +:+ " cannot be nil")))
  | Some f => ({| er_predicates := <[name := f]> (er_predicates r) |}, None)
  end.

Definition registry_Get (name : string) (r : ExternalPredicateRegistry) : option ExternalPredicate := er_predicates r !! name.
Definition registry_List (r : ExternalPredicateRegistry) : gmap string ExternalPredicate := er_predicates r.
Definition registry_Count (r : ExternalPredicateRegistry) : nat := size (er_predicates r).

(** ** The adapter *)

Section Adapter.
(** The library's boolean constants, and the [Symbol] field of a constant
    that is neither a name nor a string. *)
Context (TrueConstant FalseConstant : Constant) (constant_Symbol : Constant -> string).

Definition astConstantToGoValue (c : Constant) : AnyVal :=
  match c with
  | CName v => AString v
  | CString v => AString v
  | CNumber z => AInt64 z
  | _ => AString (constant_Symbol c)
  end.

Definition goValueToAstConstant (v : AnyVal) : Constant :=
  match v with
  | AString s => CString s
  | AInt z | AInt64 z => CNumber z
  | AFloat64 g => CFloat64 g
  | ABool b => if b then TrueConstant else FalseConstant
  | AOther r => CString r
  end.

Definition ShouldPushdown : bool := false.
Definition ShouldQuery (inputs : list Constant) (filters : list BaseTerm) : bool := true.

(** The tuples handed to the callback, in order, or the error; the caller's
    context is not passed on. *)
Definition adapter_ExecuteQuery (fn : ExternalPredicate) (inputs : list Constant) : res error (list (list BaseTerm)) :=
  match fn (map astConstantToGoValue inputs) with
  | Err e => Err (EWrap "external predicate failed: " e)
  | Ok results =>
      Ok (map (map (fun v => TConst (goValueToAstConstant v)))
            (List.filter (fun row => match row with [] => false | _ => true end) results))
  end.
End Adapter.

(** ** Extracted arguments *)

(** Values that [convertDatalogValue] distinguishes; [DAnyMap] is a
    map[any]any, [DStrMap] a map[string]any. *)
Inductive DVal :=
| DString (s : string)
| DNumber (rendering : string)     (* any integer or float type, unchanged *)
| DBool (b : bool)
| DList (l : list DVal)
| DAnyMap (m : list (DVal * DVal))
| DStrMap (m : list (string * DVal))
| DOther (rendering : string).

Section Convert.
(** fmt's [%v] text. *)
Context (sprint : DVal -> string).

Fixpoint convertDatalogValue (v : DVal) : DVal :=
  match v with
  | DString _ | DNumber _ | DBool _ => v
  | DList l => DList (map convertDatalogValue l)
  | DAnyMap m => DStrMap (omap (fun '(k, x) => match k with DString s => Some (s, convertDatalogValue x) | _ => None end) m)
  | DStrMap _ | DOther _ => DString (sprint v)
  end.

Context {R : Type} `{!GateRuntime R} (G : GoEnv).

(** The callback of the first query, over the solutions in order. *)
Definition args_of (sols : list Solution) : gmap string DVal :=
  fold_left (fun (args : gmap string DVal) (sol : Solution) =>
               match sol !! "Key", sol !! "Value" with
               | Some k, Some v => <[k := convertDatalogValue (DString v)]> args
               | _, _ => args
               end) sols ∅.

(** The entries of a map[any]any with string keys. *)
Definition map_args (v : DVal) (args : gmap string DVal) : gmap string DVal :=
  match v with
  | DAnyMap m => fold_left (fun acc '(k, x) => match k with DString s => <[s := convertDatalogValue x]> acc | _ => acc end) m args
  | _ => args
  end.

(** The callback of the second query. *)
Definition alternative_args (sols : list Solution) : gmap string DVal :=
  fold_left (fun args (sol : Solution) => match sol !! "Args" with Some v => map_args (DString v) args | None => args end) sols ∅.

Definition ExtractActionArguments (ctx : option error) (input : Envelope) (actionName : string) (e : PolicyEngine R)
  : option (PolicyEngine R * gmap string DVal) :=
  payload ← toMangleFacts G EntityInput (env_Payload input) (env_ContentType input);
  Some match payload with
       | Err _ => (e, ∅)
       | Ok facts =>
           let '(e1, _) := appendEnvelopeFacts G facts input actionName e in
           let '(r1, (sols, _)) := gr_query ctx [] ("action_args(" +:+ quoted actionName +:+ ", Key, Value)") (pe_runtime e1) in
           let e2 := set_runtime r1 e1 in
           let args := args_of sols in
           if decide (args = ∅) then
             let '(r2, (alt, _)) := gr_query ctx [] ("suggested_action(" +:+ quoted actionName +:+ ", Args)") (pe_runtime e2) in
             (set_runtime r2 e2, alternative_args alt)
           else (e2, args)
       end.
End Convert.

(** ** Properties *)

(** The names the runtime sees are those registered. *)
Theorem Register_names {St : Type} `{FactStore St} `{!Mangle St} name fn (reg : ExternalPredicateRegistry) (r : MangleRuntime St) :
  name <> "" -> cfg_external (rt_cfg r) = dom (er_predicates reg) ->
  let '(reg', err) := Register name fn reg in
  let '(r', err') := RegisterExternalPredicate name (bool_decide (fn = None)) r in
  err = err' /\ cfg_external (rt_cfg r') = dom (er_predicates reg').
Proof.
  intros Hn%String.eqb_neq Hd. unfold RegisterExternalPredicate. rewrite Hn. destruct fn as [f|]; cbn; [|done].
  split; [done|]. by rewrite dom_insert_L, Hd.
Qed.

(** A value that an external predicate returns reaches the next external
    predicate unchanged exactly when it is a string or an int64: an int comes
    back as an int64, floats and booleans as the text of their constant. *)
Theorem extern_value_roundtrip T F Sym (v : AnyVal) :
  astConstantToGoValue Sym (goValueToAstConstant T F v) = v <-> (exists s, v = AString s) \/ (exists z, v = AInt64 z).
Proof.
  destruct v as [s|z|z|g|b|r]; cbn; split; intros Hv; try done; try (by destruct Hv as [(? & [=])|(? & [=])]); eauto.
  destruct b; [destruct T|destruct F]; done.
Qed.

(** No map[any]any is left. *)
Fixpoint native (v : DVal) : bool :=
  match v with
  | DList l => forallb native l
  | DStrMap m => forallb (fun '(_, x) => native x) m
  | DAnyMap _ | DOther _ => false
  | _ => true
  end.

Lemma convertDatalogValue_native sprint : forall v, native (convertDatalogValue sprint v) = true.
Proof.
  fix IH 1. intros [s|r|b|l|m|m|r]; cbn; try done.
  - induction l as [|x l IHl]; cbn; [done|]. by rewrite IH, IHl.
  - induction m as [|[k x] m IHm]; cbn; [done|]. destruct k; cbn; try apply IHm. by rewrite IH, IHm.
Qed.

Lemma alternative_args_empty sprint sols : alternative_args sprint sols = ∅.
Proof. unfold alternative_args. induction sols as [|sol sols IH]; cbn; [done|]. by destruct (sol !! "Args"). Qed.

(** Arguments are exactly the bindings of [action_args]: every solution of
    the query is a map of texts, so the values are passed on as strings, and
    the [suggested_action] alternative, which expects a map, never adds an
    argument. *)
Theorem extracted_arguments {R : Type} `{!GateRuntime R} sprint (G : GoEnv) ctx input actionName (e e1 : PolicyEngine R) facts extra :
  toMangleFacts G EntityInput (env_Payload input) (env_ContentType input) = Some (Ok facts) ->
  appendEnvelopeFacts G facts input actionName e = (e1, extra) ->
  exists e', ExtractActionArguments sprint G ctx input actionName e
    = Some (e', args_of sprint (fst (snd (gr_query ctx [] ("action_args(" +:+ quoted actionName +:+ ", Key, Value)") (pe_runtime e1))))).
Proof.
  intros Hp Ha. unfold ExtractActionArguments. rewrite Hp. cbn [mbind option_bind]. rewrite Ha.
  destruct (gr_query ctx [] _ (pe_runtime e1)) as [r1 [sols err]]. cbn [fst snd].
  case_decide as Hempty; [|by eexists]. rewrite Hempty.
  destruct (gr_query ctx [] ("suggested_action(" +:+ _) _) as [r2 [alt err']]. rewrite alternative_args_empty. by eexists.
Qed.
