(* ===== verification/Reconstruct.v ===== *)
(** * Reconstruction of values from facts

    [ParseAtomContent] (internal/engine/parse/atom.go) and [FromFacts] with
    [buildFactIndex], [hydrate] and [setPrimitive]
    (internal/engine/reconstruction.go).  Texts are valid UTF-8, on which the
    rune loop of the argument splitter acts byte by byte.  A Go type is a
    [GType] over an environment of named structs, so that types can be
    recursive; [hydrate] recurses along the links between facts and takes
    fuel. *)
From S2P Require Import Prelude GoStrings CoreErrors CoreTypes Facts Reflect Sources Datalog Runtime Solver.
From Stdlib Require Import Ascii String.
Open Scope string_scope.

(** ** Splitting a fact *)

(** A word character. *)
Definition is_word (c : ascii) : bool :=
  let z := bval c in
  ((48 <=? z) && (z <=? 57) || (65 <=? z) && (z <=? 90) || (97 <=? z) && (z <=? 122) || (z =? 95))%Z.

(** The regular expression for a word, an opening parenthesis, any text
    without line breaks and a closing parenthesis at the end. *)
Definition match_atom (s : string) : option (string * string) :=
  i ← index_of s "(";
  let pred := str_take i s in
  let rest := str_drop (S i) s in
  if negb (String.eqb pred "") && all_bytes is_word pred && has_suffix rest ")" &&
     negb (contains (trim_suffix rest ")") nl)
  then Some (pred, trim_suffix rest ")") else None.

(** The argument loop, [current] being the argument under construction. *)
Fixpoint split_args (s current : string) (inQuote : bool) : list string :=
  match s with
  | "" => if String.eqb current "" then [] else [trim_space current]
  | String c s' =>
      if Ascii.eqb c c_dq then split_args s' (current +:+ String c "") (negb inQuote)
      else if Ascii.eqb c c_comma && negb inQuote then trim_space current :: split_args s' "" inQuote
      else split_args s' (current +:+ String c "") inQuote
  end.

Definition clean_arg (a : string) : string :=
  if has_prefix a dq && has_suffix a dq then
    if (2 <=? String.length a)%nat then str_take (String.length a - 2) (str_drop 1 a) else ""
  else a.

Definition ParseAtomContent (fact : string) : res error (string * list string) :=
  match match_atom (trim_space fact) with
  | None => Err (EText "invalid atom format")
  | Some (pred, argsStr) => Ok (pred, map clean_arg (split_args argsStr "" false))
  end.

(** ** The index *)

Abbreviation FactIndex := (gmap string (gmap string (list string))).

Definition index_add (subject key value : string) (index : FactIndex) : FactIndex :=
  let node := default ∅ (index !! subject) in
  <[subject := <[key := (default [] (node !! key) ++ [value])%list]> node]> index.

Definition is_json_pred (pred : string) : bool :=
  existsb (String.eqb pred) ["json_str"; "json_num"; "json_bool"; "json_link"].

(** Subject, key and value of a parsed fact; [None] when it is skipped. *)
Definition fact_entry (pred : string) (args : list string) : option (string * string * string) :=
  if is_json_pred pred || String.eqb pred "triple" then
    match args with subject :: key :: value :: _ => Some (subject, key, value) | _ => None end
  else
    match args with [subject; value] => Some (subject, pred, value) | _ => None end.

Definition index_fact (index : FactIndex) (f : string) : FactIndex :=
  match ParseAtomContent f with
  | Err _ => index
  | Ok (pred, args) =>
      match fact_entry pred args with
      | Some (subject, key, value) => index_add subject key value index
      | None => index
      end
  end.

Definition buildFactIndex (facts : list string) : FactIndex := fold_left index_fact facts ∅.

(** ** Types and values *)

Inductive GType :=
| TyString
| TyInt (bits : Z)
| TyUint (bits : Z)
| TyFloat
| TyBool
| TyStruct (name : string)
| TyPtr (t : GType)
| TySlice (t : GType)
| TyOther.

Inductive RVal :=
| RZero (t : GType)                 (* the zero value of the type *)
| RStr (s : string)
| RInt (z : Z)
| RUint (z : Z)
| RFloat (g : string)
| RBool (b : bool)
| RStruct (fields : list RVal)
| RPtr (v : RVal)
| RSlice (elems : list RVal).

Section Hydrate.
(** The struct definitions; [strings.ToLower] beyond ASCII; ParseFloat. *)
Context (structs : string -> list (FieldInfo * GType)).
Context (unicode_lower : string -> string) (parse_float : string -> option string).

Definition isStructOrPtr (t : GType) : bool :=
  match t with TyStruct _ | TyPtr (TyStruct _) => true | _ => false end.

(** [SetInt] and [SetUint] keep the low bits. *)
Definition wrap_int (bits z : Z) : Z := ((z + 2 ^ (bits - 1)) mod 2 ^ bits - 2 ^ (bits - 1))%Z.
Definition wrap_uint (bits z : Z) : Z := (z mod 2 ^ bits)%Z.

(** [strconv.ParseUint(s, 10, 64)]. *)
Definition parse_uint64 (s : string) : option Z :=
  if String.eqb s "" then None else
  match digits_value 0 s with
  | Some v => if (v <? 2 ^ 64)%Z then Some v else None
  | None => None
  end.

Definition parse_bool (s : string) : option bool :=
  if existsb (String.eqb s) ["1"; "t"; "T"; "TRUE"; "true"; "True"] then Some true
  else if existsb (String.eqb s) ["0"; "f"; "F"; "FALSE"; "false"; "False"] then Some false
  else None.

Definition parse_error (what s : string) : error := EText ("strconv." +:+ what +:+ ": parsing " +:+ go_quote s).

Definition setPrimitive (t : GType) (s : string) : res error RVal :=
  let s := trim_cut s dq in
  match t with
  | TyString => Ok (RStr s)
  | TyInt bits => match parse_int64 s with Some n => Ok (RInt (wrap_int bits n)) | None => Err (parse_error "ParseInt" s) end
  | TyUint bits => match parse_uint64 s with Some n => Ok (RUint (wrap_uint bits n)) | None => Err (parse_error "ParseUint" s) end
  | TyFloat => match parse_float s with Some g => Ok (RFloat g) | None => Err (parse_error "ParseFloat" s) end
  | TyBool => match parse_bool s with Some b => Ok (RBool b) | None => Err (parse_error "ParseBool" s) end
  | _ => Ok (RZero t)
  end.

(** The key of a field in the facts, [None] when it is skipped. *)
Definition field_tag (f : FieldInfo) : option string :=
  if negb (fi_Exported f) then None
  else if String.eqb (fi_mangle f) "-" then None
  else Some (if String.eqb (fi_mangle f) "" then to_lower unicode_lower (fi_Name f) else fi_mangle f).

(** A single value: a child node by its id, or a primitive. [hyd] hydrates a
    struct one level deeper. *)
Definition hydrate_value (hyd : GType -> string -> option (res error RVal)) (fieldName : string) (t : GType) (v : string)
  : option (res error RVal) :=
  if isStructOrPtr t then hyd t v
  else Some match setPrimitive t v with
            | Err e => Err (EWrap ("field " +:+ fieldName +:+ ": ") e)
            | Ok x => Ok x
            end.

(** All of a list, stopping at the first error. *)
Fixpoint hydrate_all {A} (f : A -> option (res error RVal)) (l : list A) : option (res error (list RVal)) :=
  match l with
  | [] => Some (Ok [])
  | x :: rest =>
      match f x with
      | None => None
      | Some (Err e) => Some (Err e)
      | Some (Ok v) =>
          match hydrate_all f rest with
          | None => None
          | Some (Err e) => Some (Err e)
          | Some (Ok vs) => Some (Ok (v :: vs))
          end
      end
  end.

Definition hydrate_field (hyd : GType -> string -> option (res error RVal)) (nodeData : gmap string (list string))
    (ft : FieldInfo * GType) : option (res error RVal) :=
  let '(f, t) := ft in
  match field_tag f ≫= fun tag => nodeData !! tag with
  | None => Some (Ok (RZero t))
  | Some values =>
      match t with
      | TySlice elem =>
          match hydrate_all (hydrate_value hyd (fi_Name f) elem) values with
          | None => None
          | Some (Err e) => Some (Err e)
          | Some (Ok vs) => Some (Ok (RSlice vs))
          end
      | _ =>
          match values with
          | rawVal :: _ => hydrate_value hyd (fi_Name f) t rawVal
          | [] => Some (Ok (RZero t))     (* not reached: index entries have a value *)
          end
      end
  end.

Definition bad_target : error := EText "target must be a struct".

Fixpoint hydrate (fuel : nat) (index : FactIndex) (t : GType) (currentID : string) : option (res error RVal) :=
  match fuel with
  | O => None
  | S fuel' =>
      let node name :=
        match hydrate_all (hydrate_field (hydrate fuel' index) (default ∅ (index !! currentID))) (structs name) with
        | None => None
        | Some (Err e) => Some (Err e)
        | Some (Ok vs) => Some (Ok (RStruct vs))
        end in
      match t with
      | TyStruct name => node name
      | TyPtr (TyStruct name) =>
          match node name with Some (Ok v) => Some (Ok (RPtr v)) | other => other end
      | _ => Some (Err bad_target)
      end
  end.

(** [FromFacts] of type [t]. *)
Definition FromFacts (fuel : nat) (t : GType) (rootID : string) (facts : list string) : option (res error RVal) :=
  hydrate fuel (buildFactIndex facts) t rootID.
End Hydrate.
