(* ===== verification/ReconstructProps.v ===== *)
(** * Properties of reconstruction

    Facts of plain texts parse back; a flat struct survives [ToFacts] and
    [FromFacts]; hydration terminates when the struct types are not
    recursive, and not on a cycle of links otherwise. *)
From S2P Require Import Prelude GoStrings CoreErrors CoreTypes Facts Reflect Sources Datalog Runtime Solver Reconstruct.
From Stdlib Require Import Ascii String.
Open Scope string_scope.

(** ** Trimming *)

(** A byte that is neither white space nor part of a multi-byte character. *)
Definition solid (c : ascii) : bool := ((33 <=? bval c) && (bval c <? 128))%Z.

Lemma solid_space_len c s : solid c = true -> space_len (String c s) = 0.
Proof.
  unfold solid. intros [Hl Hh]%andb_true_iff. apply Z.leb_le in Hl. apply Z.ltb_lt in Hh. cbn.
  repeat match goal with |- context [(bval c =? ?k)%Z] => rewrite (proj2 (Z.eqb_neq (bval c) k)) by lia end.
  cbn. by destruct s as [|b [|d s]].
Qed.

Lemma trim_left_solid c s : solid c = true -> trim_left (String c s) = String c s.
Proof. intros Hc. unfold trim_left. cbn [String.length trim_left_fuel]. by rewrite solid_space_len. Qed.

Lemma trim_left_sp c s : solid c = true -> trim_left (String c_sp (String c s)) = String c s.
Proof.
  intros Hc. unfold trim_left. cbn [String.length trim_left_fuel].
  change (space_len (String c_sp (String c s))) with 1. cbn [str_drop]. by rewrite solid_space_len.
Qed.

Lemma space_len_tail2 a c : solid c = true -> space_len (String a (String c "")) <> 2.
Proof.
  unfold solid. intros [Hl Hh]%andb_true_iff. apply Z.leb_le in Hl. apply Z.ltb_lt in Hh. cbn.
  destruct (_ || _); [done|].
  repeat match goal with |- context [(bval c =? ?k)%Z] => rewrite (proj2 (Z.eqb_neq (bval c) k)) by lia end.
  by rewrite andb_false_r.
Qed.

Lemma space_len_tail3 a b c : solid c = true -> space_len (String a (String b (String c ""))) <> 3.
Proof.
  unfold solid. intros [Hl Hh]%andb_true_iff. apply Z.leb_le in Hl. apply Z.ltb_lt in Hh. cbn.
  destruct (_ || _); [done|]. destruct (_ && _); [done|].
  repeat match goal with |- context [(bval c =? ?k)%Z] => rewrite (proj2 (Z.eqb_neq (bval c) k)) by lia end.
  rewrite (proj2 (Z.leb_gt 128 (bval c))) by lia. by rewrite !andb_false_r.
Qed.

Lemma last_space_len_solid s c : solid c = true -> last_space_len (s +:+ String c "") = 0.
Proof.
  intros Hc. unfold last_space_len. rewrite str_length_app. cbn [String.length].
  set (n := String.length s). replace (n + 1 - 1) with n by lia.
  rewrite (str_drop_app_le n) by (unfold n; lia).
  assert (str_drop n s = "") as -> by (pose proof (str_drop_length n s); destruct (str_drop n s); [done|cbn in *; unfold n in *; lia]).
  change ("" +:+ String c "") with (String c ""). rewrite solid_space_len by done. rewrite andb_false_r.
  assert (forall k, k <= n -> exists t, str_drop (n + 1 - S k) (s +:+ String c "") = t +:+ String c "" /\ String.length t = k) as Htail.
  { intros k Hk. exists (str_drop (n - k) s). rewrite str_drop_length. unfold n in *.
    replace (String.length s + 1 - S k) with (String.length s - k) by lia. rewrite str_drop_app_le by lia. split; [done|lia]. }
  destruct (decide (1 <= n)) as [H1|H1].
  2:{ rewrite (proj2 (Nat.leb_gt 2 (n + 1))) by lia. by rewrite (proj2 (Nat.leb_gt 3 (n + 1))) by lia. }
  destruct (Htail 1 H1) as ([|a [|? ?]] & -> & Hl); try done. change (String a "" +:+ String c "") with (String a (String c "")).
  rewrite (proj2 (Nat.eqb_neq _ 2) (space_len_tail2 a c Hc)), andb_false_r.
  destruct (decide (2 <= n)) as [H2|H2]; [|by rewrite (proj2 (Nat.leb_gt 3 (n + 1))) by lia].
  destruct (Htail 2 H2) as ([|b [|d [|? ?]]] & -> & Hl2); try done.
  change (String b (String d "") +:+ String c "") with (String b (String d (String c ""))).
  by rewrite (proj2 (Nat.eqb_neq _ 3) (space_len_tail3 b d c Hc)), andb_false_r.
Qed.

Lemma trim_right_solid s c : solid c = true -> trim_right (s +:+ String c "") = s +:+ String c "".
Proof.
  intros Hc. unfold trim_right. rewrite str_length_app, Nat.add_comm. cbn [String.length Nat.add trim_right_fuel].
  by rewrite last_space_len_solid.
Qed.

Lemma trim_quoted a : trim_space (quoted a) = quoted a.
Proof.
  unfold trim_space, quoted. change (dq +:+ a +:+ dq) with (String c_dq (a +:+ dq)). rewrite trim_left_solid by done.
  change (String c_dq (a +:+ dq)) with ((dq +:+ a) +:+ String c_dq ""). by apply trim_right_solid.
Qed.

Lemma trim_sp_quoted a : trim_space (String c_sp (quoted a)) = quoted a.
Proof.
  unfold trim_space, quoted. change (dq +:+ a +:+ dq) with (String c_dq (a +:+ dq)). rewrite trim_left_sp by done.
  change (String c_dq (a +:+ dq)) with ((dq +:+ a) +:+ String c_dq ""). by apply trim_right_solid.
Qed.

(** ** Parsing facts of plain texts *)

(** No quotes, backslashes or control characters: texts that escaping leaves
    alone. *)
Definition plain (s : string) : bool :=
  all_bytes (fun c => let z := bval c in (negb (z =? 34) && negb (z =? 92) && (32 <=? z))%Z) s.

Lemma plain_cons c s : plain (String c s) = true ->
  (bval c <> 34 /\ bval c <> 92 /\ 32 <= bval c)%Z /\ plain s = true.
Proof.
  unfold plain. cbn. intros [Hc Hs]%andb_true_iff. apply andb_true_iff in Hc as [Hc Hr].
  apply andb_true_iff in Hc as [Hd Hb]. apply negb_true_iff, Z.eqb_neq in Hd, Hb. apply Z.leb_le in Hr. done.
Qed.

Lemma escapeString_plain s : plain s = true -> escapeString s = s.
Proof.
  induction s as [|c s IH]; [done|]. intros [(Hd & Hb & Hr) Hs]%plain_cons. cbn [escapeString]. rewrite IH by done.
  unfold escape_byte. repeat match goal with |- context [(bval c =? ?k)%Z] => rewrite (proj2 (Z.eqb_neq (bval c) k)) by lia end.
  cbn. by rewrite (proj2 (Z.ltb_ge (bval c) 32)).
Qed.

Lemma neq_of_bval c d : bval c <> bval d -> Ascii.eqb c d = false.
Proof. intros Hn. apply Ascii.eqb_neq. by intros ->. Qed.

Lemma split_args_plain a s cur : plain a = true -> split_args (a +:+ s) cur true = split_args s (cur +:+ a) true.
Proof.
  revert cur. induction a as [|c a IH]; intros cur; [by rewrite str_app_nil_r|].
  intros [(Hd & _) Hs]%plain_cons. change (String c a +:+ s) with (String c (a +:+ s)). cbn [split_args].
  rewrite (neq_of_bval c c_dq) by done. rewrite andb_false_r, IH by done. f_equal.
  by rewrite <- str_app_assoc.
Qed.

(** An argument list of quoted plain texts. *)
Lemma split_args_quoted a s cur : plain a = true ->
  split_args (quoted a +:+ s) cur false = split_args s (cur +:+ quoted a) false.
Proof.
  intros Ha. unfold quoted. rewrite <- !str_app_assoc. change (dq +:+ (a +:+ (dq +:+ s))) with (String c_dq (a +:+ (dq +:+ s))).
  cbn [split_args]. rewrite Ascii.eqb_refl. cbn [negb]. rewrite split_args_plain by done.
  change (dq +:+ s) with (String c_dq s). cbn [split_args]. rewrite Ascii.eqb_refl. cbn [negb].
  f_equal. change (String c_dq "") with dq. by rewrite <- !str_app_assoc.
Qed.

Lemma split_two a b : plain a = true -> plain b = true ->
  split_args (quoted a +:+ ", " +:+ quoted b) "" false = [quoted a; quoted b].
Proof.
  intros Ha Hb. rewrite split_args_quoted by done. change ("" +:+ quoted a) with (quoted a).
  change (", " +:+ quoted b) with (String c_comma (String c_sp (quoted b))). cbn [split_args]. 
  change (Ascii.eqb c_comma c_dq) with false. change (Ascii.eqb c_comma c_comma && negb false) with true. cbv iota.
  change (Ascii.eqb c_sp c_dq) with false. change (Ascii.eqb c_sp c_comma && negb false) with false. cbv iota.
  rewrite <- (str_app_nil_r (quoted b)) at 1. rewrite split_args_quoted by done. rewrite trim_quoted. f_equal.
  change (("" +:+ String c_sp "") +:+ quoted b) with (String c_sp (quoted b)). cbn [split_args].
  change (String.eqb (String c_sp (quoted b)) "") with false. by rewrite trim_sp_quoted.
Qed.

Lemma index_of_byte_none c s : all_bytes (fun d => negb (Ascii.eqb d c)) s = true -> index_of s (String c "") = None.
Proof.
  induction s as [|d s IH]; [done|]. cbn [all_bytes]. intros [Hd Hs]%andb_true_iff. cbn [index_of].
  apply negb_true_iff, Ascii.eqb_neq in Hd. unfold has_prefix. cbn [String.prefix].
  destruct (ascii_dec c d) as [-> |_]; [done|]. by rewrite IH.
Qed.

Lemma index_of_byte_after c p s : all_bytes (fun d => negb (Ascii.eqb d c)) p = true ->
  index_of (p +:+ String c s) (String c "") = Some (String.length p).
Proof.
  induction p as [|d p IH].
  - intros _. change ("" +:+ String c s) with (String c s). cbn [index_of]. unfold has_prefix. cbn [String.prefix].
    destruct (ascii_dec c c); [|done]. by destruct s.
  - cbn [all_bytes]. intros [Hd Hs]%andb_true_iff. change (String d p +:+ String c s) with (String d (p +:+ String c s)).
    cbn [index_of]. apply negb_true_iff, Ascii.eqb_neq in Hd. unfold has_prefix. cbn [String.prefix].
    destruct (ascii_dec c d) as [-> |_]; [done|]. by rewrite IH.
Qed.

Lemma is_word_solid c : is_word c = true -> solid c = true /\ Ascii.eqb c "(" = false.
Proof.
  unfold is_word, solid. intros Hw. assert (48 <= bval c <= 122)%Z as Hr.
  { repeat (apply orb_true_iff in Hw as [Hw|Hw]); try (apply andb_true_iff in Hw as [?%Z.leb_le ?%Z.leb_le]; lia).
    apply Z.eqb_eq in Hw. lia. }
  split; [apply andb_true_iff; split; [apply Z.leb_le|apply Z.ltb_lt]; lia|].
  apply neq_of_bval. change (bval "(") with 40%Z. lia.
Qed.

(** A word that is the name of a custom predicate. *)
Definition word (p : string) : bool := negb (String.eqb p "") && all_bytes is_word p.

Lemma match_atom_word p body : word p = true -> contains body nl = false ->
  match_atom (trim_space (p +:+ "(" +:+ body +:+ ")")) = Some (p, body).
Proof.
  unfold word. intros [Hne Hw]%andb_true_iff Hnl.
  assert (trim_space (p +:+ "(" +:+ body +:+ ")") = p +:+ "(" +:+ body +:+ ")") as ->.
  { unfold trim_space. destruct p as [|c p]; [done|]. cbn [all_bytes] in Hw. apply andb_true_iff in Hw as [Hc _].
    change (String c p +:+ "(" +:+ body +:+ ")") with (String c (p +:+ "(" +:+ body +:+ ")")).
    rewrite trim_left_solid by (by apply is_word_solid).
    replace (String c (p +:+ "(" +:+ body +:+ ")")) with ((String c p +:+ "(" +:+ body) +:+ ")")
      by (by rewrite <- !str_app_assoc).
    by rewrite (trim_right_solid _ ")"). }
  assert (all_bytes (fun d => negb (Ascii.eqb d "(")) p = true) as Hnp
    by (eapply all_bytes_impl; [|exact Hw]; intros c [_ ->]%is_word_solid; done).
  unfold match_atom. change ("(" +:+ body +:+ ")") with (String "(" (body +:+ ")")).
  rewrite index_of_byte_after by done. cbn [mbind option_bind]. rewrite str_take_app.
  replace (str_drop (S (String.length p)) (p +:+ String "(" (body +:+ ")"))) with (body +:+ ")").
  2:{ replace (p +:+ String "(" (body +:+ ")")) with ((p +:+ "(") +:+ (body +:+ ")")) by (by rewrite <- str_app_assoc).
      replace (S (String.length p)) with (String.length (p +:+ "(")) by (rewrite str_length_app; cbn; lia). by rewrite str_drop_app. }
  by rewrite has_suffix_app, trim_suffix_app, Hne, Hw, Hnl.
Qed.

Lemma clean_quoted a : clean_arg (quoted a) = a.
Proof.
  unfold clean_arg, quoted.
  assert (has_prefix (dq +:+ a +:+ dq) dq = true) as -> by (apply has_prefix_spec; by exists (a +:+ dq)).
  assert (has_suffix (dq +:+ a +:+ dq) dq = true) as -> by (rewrite str_app_assoc; apply has_suffix_app).
  cbn [andb]. rewrite !str_length_app. change (String.length dq) with 1.
  replace (2 <=? 1 + (String.length a + 1))%nat with true by (symmetry; apply Nat.leb_le; lia).
  change (str_drop 1 (dq +:+ a +:+ dq)) with (a +:+ dq). replace (1 + (String.length a + 1) - 2) with (String.length a) by lia.
  apply str_take_app.
Qed.

(** A fact about two plain texts parses back into its parts. *)
Lemma ParseAtomContent_plain p a b : word p = true -> plain a = true -> plain b = true ->
  ParseAtomContent (p +:+ "(" +:+ (quoted a +:+ ", " +:+ quoted b) +:+ ")") = Ok (p, [a; b]).
Proof.
  intros Hp Ha Hb. unfold ParseAtomContent. rewrite match_atom_word; [|done|].
  - rewrite split_two by done. cbn [map]. by rewrite !clean_quoted.
  - unfold contains. unfold nl. rewrite index_of_byte_none; [done|]. unfold quoted. rewrite !all_bytes_cat.
    assert (forall s, plain s = true -> all_bytes (fun d => negb (Ascii.eqb d c_nl)) s = true) as Hpl.
    { intros s. apply all_bytes_impl. intros c Hc. apply negb_true_iff, neq_of_bval. change (bval c_nl) with 10%Z.
      apply andb_true_iff in Hc as [_ Hc%Z.leb_le]. lia. }
    by rewrite (Hpl a Ha), (Hpl b Hb).
Qed.

(** ** The index *)

(** The values under a subject and a key. *)
Definition node_values (index : FactIndex) (subject key : string) : list string :=
  default [] (default ∅ (index !! subject) !! key).

Lemma index_add_values s k v index s' k' :
  node_values (index_add s k v index) s' k'
  = (node_values index s' k' ++ if decide (s = s' /\ k = k') then [v] else [])%list.
Proof.
  unfold node_values, index_add. destruct (decide (s = s')) as [<-|Hs].
  - rewrite lookup_insert_eq. cbn [default from_option id]. destruct (decide (k = k')) as [<-|Hk].
    + rewrite lookup_insert_eq, decide_True by done. done.
    + rewrite lookup_insert_ne, decide_False by naive_solver. by rewrite app_nil_r.
  - rewrite lookup_insert_ne, decide_False by naive_solver. by rewrite app_nil_r.
Qed.

(** A key has an entry exactly when it has a value. *)
Lemma node_lookup index s k v vs : node_values index s k = v :: vs -> default ∅ (index !! s) !! k = Some (v :: vs).
Proof. unfold node_values. destruct (default ∅ (index !! s) !! k); cbn; [by intros -> |done]. Qed.

(** [p("s", "v")], with plain texts. *)
Definition plain_fact (e : string * string * string) : string :=
  let '(s, p, v) := e in p +:+ "(" +:+ (quoted s +:+ ", " +:+ quoted v) +:+ ")".
Definition plain_entry (e : string * string * string) : bool :=
  let '(s, p, v) := e in word p && negb (is_json_pred p || String.eqb p "triple") && plain s && plain v.

Lemma index_plain_facts es index s k : forallb plain_entry es = true ->
  node_values (fold_left index_fact (map plain_fact es) index) s k
  = (node_values index s k ++ map snd (filter (fun e => fst e = (s, k)) es))%list.
Proof.
  revert index. induction es as [|[[s1 p1] v1] es IH]; intros index He; [by rewrite app_nil_r|].
  cbn [forallb plain_entry] in He. apply andb_true_iff in He as [[[[Hp Hj%negb_true_iff]%andb_true_iff Hs]%andb_true_iff Hv]%andb_true_iff He].
  cbn [map fold_left]. rewrite IH by done. unfold index_fact at 1, plain_fact at 1. rewrite ParseAtomContent_plain by done.
  unfold fact_entry. rewrite Hj, index_add_values, filter_cons. cbn [fst snd].
  destruct (decide (s1 = s /\ p1 = k)) as [[-> ->]|Hne]; case_decide; try naive_solver.
  - by rewrite <- app_assoc.
  - by rewrite app_nil_r.
Qed.

(** ** Trimming quotes *)

Lemma str_rev_app_spec s acc : str_rev_app s acc = str_rev s +:+ acc.
Proof.
  unfold str_rev. revert acc. induction s as [|c s IH]; intros acc; cbn; [done|].
  rewrite IH, (IH (String c "")). by rewrite <- str_app_assoc.
Qed.

Lemma str_rev_cat a b : str_rev (a +:+ b) = str_rev b +:+ str_rev a.
Proof.
  induction a as [|c a IH]; [by rewrite str_app_nil_r|]. change (String c a +:+ b) with (String c (a +:+ b)).
  change (str_rev (String c (a +:+ b))) with (str_rev_app (a +:+ b) (String c "")).
  change (str_rev (String c a)) with (str_rev_app a (String c "")).
  rewrite !str_rev_app_spec, IH. by rewrite <- str_app_assoc.
Qed.

Lemma str_rev_involutive s : str_rev (str_rev s) = s.
Proof.
  induction s as [|c s IH]; [done|]. change (str_rev (String c s)) with (str_rev_app s (String c "")).
  rewrite str_rev_app_spec, str_rev_cat, IH. done.
Qed.

Lemma all_bytes_rev f s : all_bytes f (str_rev s) = all_bytes f s.
Proof.
  induction s as [|c s IH]; [done|]. change (str_rev (String c s)) with (str_rev_app s (String c "")).
  rewrite str_rev_app_spec, all_bytes_cat, IH. cbn. by rewrite andb_true_r, andb_comm.
Qed.

Lemma trim_left_cut_plain s : plain s = true -> trim_left_cut dq s = s.
Proof.
  destruct s as [|c s]; [done|]. intros [(Hd & _) _]%plain_cons. cbn [trim_left_cut].
  assert (in_cutset dq c = false) as ->; [|done]. unfold in_cutset, contains.
  unfold dq. rewrite index_of_byte_none; [done|]. cbn [all_bytes]. rewrite andb_true_r. apply negb_true_iff, neq_of_bval.
  change (bval c_dq) with 34%Z. lia.
Qed.

Lemma trim_cut_plain s : plain s = true -> trim_cut s dq = s.
Proof.
  intros Hs. unfold trim_cut. rewrite (trim_left_cut_plain s) by done.
  rewrite trim_left_cut_plain by (unfold plain; by rewrite all_bytes_rev). apply str_rev_involutive.
Qed.

(** ** Round trip of a flat struct *)

Definition flat_field (f : FieldInfo) : Prop :=
  fi_Exported f = true /\ fi_Anonymous f = false /\ fi_json f = "" /\ word (fi_mangle f) = true /\
  is_json_pred (fi_mangle f) || String.eqb (fi_mangle f) "triple" = false.

(** Field values that are texts without special characters or booleans, with
    their type and their reconstruction. *)
Definition flat_value (v : GoVal) : option (GType * RVal * string) :=
  match v with
  | GStr s => if plain s then Some (TyString, RStr s, s) else None
  | GBool b => Some (TyBool, RBool b, go_bool_text b)
  | _ => None
  end.

Lemma flat_value_text v t r s : flat_value v = Some (t, r, s) -> plain s = true.
Proof. destruct v as [|[]| | | | | | | | | | | |]; cbn; intros Hv; try case_match; by simplify_eq. Qed.

Lemma word_tag p : word p = true -> String.eqb p "" = false /\ String.eqb p "-" = false.
Proof.
  unfold word. intros [Hn%negb_true_iff Hw]%andb_true_iff. split; [done|]. apply String.eqb_neq. by intros ->.
Qed.

Lemma flat_fact lower render h id f v t r s : flat_field f -> plain id = true -> flat_value v = Some (t, r, s) ->
  forall fuel, match field_path lower "" f with
               | Some p => toFactsRecursive lower render h (S fuel) id p v ∅ []
               | None => None
               end = Some [plain_fact (id, fi_mangle f, s)].
Proof.
  intros (He & Ha & Hj & Hw & _) Hid Hv fuel. destruct (word_tag _ Hw) as [Hne Hd].
  assert (field_path lower "" f = Some (fi_mangle f)) as -> by (unfold field_path; by rewrite He, Ha, Hj, Hd, Hne).
  pose proof (flat_value_text _ _ _ _ Hv) as Hs.
  assert (generatePrimitiveFact render id (fi_mangle f) v [] = plain_fact (id, fi_mangle f, s)) as Hg.
  { unfold generatePrimitiveFact. rewrite Hne, (escapeString_plain id) by done.
    destruct v as [|b| | | |x| | | | | | | |]; cbn in Hv; try done; [|destruct (plain x) eqn:Hx; [|done]]; simplify_eq;
      cbn [primitive_text fmt_v map String.concat]; rewrite escapeString_plain by done;
      unfold plain_fact; by rewrite <- !str_app_assoc. }
  destruct v; cbn in Hv; try done; cbn [toFactsRecursive strip_iface sub_values]; by rewrite Hg.
Qed.

(** The entries of the fields of a flat struct. *)
Definition flat_entries (id : string) (fields : list (FieldInfo * GoVal)) : list (string * string * string) :=
  omap (fun '(f, v) => (fun x => (id, fi_mangle f, snd x)) <$> flat_value v) fields.

Definition flat (fields : list (FieldInfo * GoVal)) : Prop :=
  Forall (fun '(f, v) => flat_field f /\ is_Some (flat_value v)) fields.

Lemma flat_ToFacts lower render h id fields : flat fields -> plain id = true ->
  ToFacts lower render h id (GStruct fields) = Some (map plain_fact (flat_entries id fields)).
Proof.
  intros Hf Hid. unfold ToFacts, to_facts_fuel.
  assert (exists k, size (universe h (GStruct fields)) * S (max_size h (GStruct fields)) + max_size h (GStruct fields) = S k) as (k & ->).
  { assert (1 <= max_size h (GStruct fields)) by (unfold max_size; cbn; lia).
    exists (size (universe h (GStruct fields)) * S (max_size h (GStruct fields)) + max_size h (GStruct fields) - 1). lia. }
  remember (S k) as n eqn:Hn. cbn [toFactsRecursive strip_iface sub_values].
  induction Hf as [|[f v] fields [Hff [[[t r] s] Hv]] Hf IH]; [done|].
  pose proof (flat_fact lower render h id f v t r s Hff Hid Hv k) as Hfact. rewrite <- Hn in Hfact.
  unfold flat_entries. cbn [omap list_omap]. destruct (field_path lower "" f) as [p|]; [|done].
  cbn [fmap option_fmap option_map mapM]. rewrite Hfact. cbn [mbind option_bind]. rewrite Hv. cbn.
  destruct (mapM _ _) as [l|]; [|done]. cbn in IH. injection IH as IH. cbn. do 2 f_equal. exact IH.
Qed.

Lemma flat_entries_plain id fields : flat fields -> plain id = true -> forallb plain_entry (flat_entries id fields) = true.
Proof.
  intros Hf Hid. induction Hf as [|[f v] fields [(_ & _ & _ & Hw & Hj) [[[t r] s] Hv]] Hf IH]; [done|].
  unfold flat_entries. cbn [omap list_omap]. rewrite Hv. cbn [fmap option_fmap option_map forallb plain_entry snd].
  rewrite Hw, Hj, Hid, (flat_value_text _ _ _ _ Hv). exact IH.
Qed.

(** With distinct tags, the value under a field's tag is the field's. *)
Lemma flat_entries_values id fields f v t r s :
  NoDup (map (fun x => fi_mangle (fst x)) fields) -> (f, v) ∈ fields -> flat_value v = Some (t, r, s) ->
  map snd (filter (fun e => fst e = (id, fi_mangle f)) (flat_entries id fields)) = [s].
Proof.
  intros Hnd Hin Hv. induction fields as [|[g w] fields IH]; [by apply not_elem_of_nil in Hin|].
  cbn in Hnd. apply NoDup_cons in Hnd as [Hni Hnd]. unfold flat_entries. cbn [omap list_omap].
  assert (forall fs, fi_mangle f ∉ map (fun x => fi_mangle (fst x)) fs ->
            filter (fun e => fst e = (id, fi_mangle f)) (flat_entries id fs) = []) as Hnone.
  { induction fs as [|[g' w'] fs IHf]; intros Hn; [done|]. cbn in Hn. apply not_elem_of_cons in Hn as [Hne Hn].
    unfold flat_entries. cbn [omap list_omap]. destruct (flat_value w'); cbn [fmap option_fmap option_map]; [rewrite filter_cons_False by (cbn; congruence)|]; by apply IHf. }
  apply elem_of_cons in Hin as [Heq|Hin].
  - injection Heq as -> ->. rewrite Hv. cbn [fmap option_fmap option_map snd]. rewrite filter_cons_True by done.
    cbn [map snd]. f_equal. fold (flat_entries id fields). by rewrite Hnone.
  - assert (fi_mangle g <> fi_mangle f) as Hne.
    { intros Heq. apply Hni. rewrite Heq. apply list_elem_of_In, in_map_iff. exists (f, v). split; [done|]. by apply list_elem_of_In. }
    destruct (flat_value w); cbn [fmap option_fmap option_map]; [rewrite filter_cons_False by (cbn; congruence)|]; by apply IH.
Qed.

Section Roundtrip.
Context (structs : string -> list (FieldInfo * GType)) (lower : string -> string) (parse_float : string -> option string).
Context (render : GoVal -> string) (h : Heap).

Definition field_of (x : FieldInfo * GoVal) : option (FieldInfo * GType) :=
  (fun y => (fst x, fst (fst y))) <$> flat_value (snd x).
Definition result_of (x : FieldInfo * GoVal) : option RVal := (fun y => snd (fst y)) <$> flat_value (snd x).

Lemma hydrate_flat_field hyd node f v t r s : flat_field f -> flat_value v = Some (t, r, s) ->
  node !! fi_mangle f = Some [s] -> hydrate_field lower parse_float hyd node (f, t) = Some (Ok r).
Proof.
  intros (He & _ & _ & Hw & _) Hv Hn. destruct (word_tag _ Hw) as [Hne Hd].
  unfold hydrate_field, field_tag. rewrite He, Hd, Hne. cbn [negb mbind option_bind]. rewrite Hn.
  pose proof (flat_value_text _ _ _ _ Hv) as Hs.
  destruct v as [|b| | | |x| | | | | | | |]; cbn in Hv; try done; [|destruct (plain x) eqn:Hx; [|done]]; simplify_eq;
    unfold hydrate_value, setPrimitive; cbn [isStructOrPtr]; rewrite trim_cut_plain by done; [by destruct b|done].
Qed.

End Roundtrip.

(** ** Termination *)

Section Termination.
Context (structs : string -> list (FieldInfo * GType)) (lower : string -> string) (parse_float : string -> option string).

(** The struct a field leads to, if any. *)
Definition child_struct (t : GType) : option string :=
  match t with
  | TyStruct n | TyPtr (TyStruct n) => Some n
  | TySlice (TyStruct n) | TySlice (TyPtr (TyStruct n)) => Some n
  | _ => None
  end.

Lemma hydrate_all_total {A} (f : A -> option (res error RVal)) l :
  (forall x, x ∈ l -> is_Some (f x)) -> is_Some (hydrate_all f l).
Proof.
  induction l as [|x l IH]; intros Hf; cbn; [by eexists|].
  destruct (Hf x ltac:(by left)) as [[v|e] ->]; [|by eexists].
  destruct IH as [[vs|e] ->]; [intros ??; apply Hf; by right|by eexists|by eexists].
Qed.

Lemma hydrate_value_total hyd name t v :
  (isStructOrPtr t = true -> is_Some (hyd t v)) -> is_Some (hydrate_value parse_float hyd name t v).
Proof. unfold hydrate_value. destruct (isStructOrPtr t); [by intros Hh; apply Hh|by eexists]. Qed.

(** Reconstruction terminates when the struct types are ranked, each
    above the structs its fields lead to: fuel above the rank of the target
    gives a result, whatever the facts, cyclic links included. *)
Theorem hydrate_terminates (rank : string -> nat) :
  (forall n f t m, (f, t) ∈ structs n -> child_struct t = Some m -> rank m < rank n) ->
  forall k n facts id, rank n < k -> is_Some (FromFacts structs lower parse_float k (TyStruct n) id facts).
Proof.
  intros Hrank k n facts id. unfold FromFacts. generalize (buildFactIndex facts) as index. intros index.
  assert (forall k t id m, (t = TyStruct m \/ t = TyPtr (TyStruct m)) -> rank m < k ->
            is_Some (hydrate structs lower parse_float k index t id)) as Hh; [|intros; eapply Hh; eauto].
  clear -Hrank. induction k as [|k IH]; intros t id m Ht Hk; [lia|].
  assert (is_Some (hydrate_all (hydrate_field lower parse_float (hydrate structs lower parse_float k index) (default ∅ (index !! id))) (structs m)))
    as [x Hx].
  { apply hydrate_all_total. intros [f t'] Hin. unfold hydrate_field.
    destruct (field_tag lower f ≫= _) as [values|]; [|by eexists].
    assert (forall u v, child_struct t' = child_struct u -> is_Some (hydrate_value parse_float (hydrate structs lower parse_float k index) (fi_Name f) u v)) as Hv.
    { intros u v Hc. apply hydrate_value_total. intros Hu.
      assert (exists m', u = TyStruct m' \/ u = TyPtr (TyStruct m')) as (m' & Hm')
        by (destruct u as [| | | | |m'|[]| |]; try done; eauto).
      apply (IH _ _ m' Hm'). assert (rank m' < rank m); [|lia]. apply (Hrank m f t'); [done|]. rewrite Hc. by destruct Hm' as [-> | ->]. }
    destruct t'; try (destruct values; [by eexists|by apply Hv]).
    destruct (hydrate_all_total (hydrate_value parse_float (hydrate structs lower parse_float k index) (fi_Name f) t') values)
      as [[vs|e] ->]; [|by eexists..]. intros v _. apply hydrate_value_total. intros Hu.
    assert (exists m', t' = TyStruct m' \/ t' = TyPtr (TyStruct m')) as (m' & Hm')
      by (destruct t' as [| | | | |m'|[]| |]; try done; eauto).
    apply (IH _ _ m' Hm'). assert (rank m' < rank m); [|lia]. apply (Hrank m f (TySlice t')); [done|]. by destruct Hm' as [-> | ->]. }
  cbn [hydrate]. destruct Ht as [-> | ->]; rewrite Hx; destruct x; by eexists.
Qed.
End Termination.

(** ** Concrete reconstructions *)

Definition fld (name tag : string) : FieldInfo :=
  {| fi_Name := name; fi_Exported := true; fi_Anonymous := false; fi_mangle := tag; fi_json := "" |}.
Definition demo_fields : list (FieldInfo * GoVal) := [(fld "Name" "name", GStr "Ada L."); (fld "Admin" "admin", GBool true)].
Definition demo_structs (n : string) : list (FieldInfo * GType) :=
  if String.eqb n "User" then [(fld "Name" "name", TyString); (fld "Admin" "admin", TyBool)]
  else if String.eqb n "Team" then [(fld "Lead" "lead", TyPtr (TyStruct "User")); (fld "Members" "member", TySlice (TyStruct "User"))]
  else if String.eqb n "Node" then [(fld "Next" "next", TyPtr (TyStruct "Node"))]
  else if String.eqb n "Small" then [(fld "Level" "level", TyInt 8)]
  else [].


(** The structs without the recursive one. *)
Definition team_structs (n : string) : list (FieldInfo * GType) := if String.eqb n "Node" then [] else demo_structs n.

Lemma hydrate_terminates_witness :
  is_Some (FromFacts team_structs id (fun _ => None) 2 (TyStruct "Team") "t" ["lead(" +:+ quoted "t" +:+ ", " +:+ quoted "u1" +:+ ")"]).
Proof.
  apply (hydrate_terminates team_structs id (fun _ => None) (fun n => if String.eqb n "Team" then 1 else 0)); [|cbn; lia].
  intros n f t m Hin Hc. unfold team_structs, demo_structs in Hin.
  destruct (String.eqb n "Node"); [by apply not_elem_of_nil in Hin|].
  destruct (String.eqb n "User"); [|destruct (String.eqb n "Team"); [|destruct (String.eqb n "Small")]];
    repeat (apply elem_of_cons in Hin as [[= -> ->]|Hin]; [cbn in Hc; simplify_eq; cbn; lia|]); by apply not_elem_of_nil in Hin.
Defined.

(** Facts that link two nodes of a recursive type in a cycle are followed
    forever. *)
Theorem cyclic_links_diverge fuel :
  FromFacts demo_structs id (fun _ => None) fuel (TyPtr (TyStruct "Node")) "a"
    ["next(" +:+ quoted "a" +:+ ", " +:+ quoted "b" +:+ ")"; "next(" +:+ quoted "b" +:+ ", " +:+ quoted "a" +:+ ")"] = None.
Proof.
  unfold FromFacts. set (index := buildFactIndex _).
  enough (hydrate demo_structs id (fun _ => None) fuel index (TyPtr (TyStruct "Node")) "a" = None /\
          hydrate demo_structs id (fun _ => None) fuel index (TyPtr (TyStruct "Node")) "b" = None) as [Hd _] by exact Hd.
  assert (default ∅ (index !! "a") !! "next" = Some ["b"]) as Ha by by_vm.
  assert (default ∅ (index !! "b") !! "next" = Some ["a"]) as Hb by by_vm.
  induction fuel as [|fuel [IHa IHb]]; [done|].
  assert (forall x y hyd, default ∅ (index !! x) !! "next" = Some [y] -> hyd (TyPtr (TyStruct "Node")) y = None ->
            hydrate_all (hydrate_field id (fun _ => None) hyd (default ∅ (index !! x))) (demo_structs "Node") = None) as Hstep.
  { intros x y hyd Hx Hy. change (demo_structs "Node") with [(fld "Next" "next", TyPtr (TyStruct "Node"))].
    cbn [hydrate_all]. unfold hydrate_field. change (field_tag id (fld "Next" "next")) with (Some "next").
    cbn [mbind option_bind]. rewrite Hx. unfold hydrate_value. cbn [isStructOrPtr]. by rewrite Hy. }
  cbn [hydrate]. rewrite (Hstep "a" "b" _ Ha IHb). by rewrite (Hstep "b" "a" _ Hb IHa).
Qed.

(** Escapes are not undone: a backslash comes back doubled. *)
Theorem backslash_doubled :
  exists facts, ToFacts id (fun _ => "") ∅ "u1" (GStruct [(fld "Name" "name", GStr "a\b"); (fld "Admin" "admin", GBool true)]) = Some facts /\
    FromFacts demo_structs id (fun _ => None) 1 (TyStruct "User") "u1" facts = Some (Ok (RStruct [RStr "a\\b"; RBool true])).
Proof. eexists. split; [vm_compute; reflexivity|]. by_vm. Qed.

(** A number outside the range of its field is truncated without an error. *)
Theorem small_int_truncated :
  FromFacts demo_structs id (fun _ => None) 1 (TyStruct "Small") "s" ["level(" +:+ quoted "s" +:+ ", 300)"]
  = Some (Ok (RStruct [RInt 44])).
Proof. by_vm. Qed.
