(* ===== verification/Evaluator.v ===== *)
(** * The single-rule evaluator

    [Evaluator] of internal/engine/evaluator.go: one clause evaluated against
    the facts of a Go struct.  The struct is a [GoVal] over the heap of
    [CoreTypes]; the recursion through pointers has no cycle detection, so
    [structToFactsRecursive] takes fuel and returns [None] when it runs out.
    Analysis and evaluation of the clause are the library's. *)
From S2P Require Import Prelude GoStrings CoreErrors CoreTypes Facts Reflect Sources Datalog.
From Stdlib Require Import Ascii String.
Open Scope string_scope.

Section Evaluator.
(** [strings.ToLower] beyond ASCII, and fmt's [%f] text of a float given by
    its [%g] text. *)
Context (unicode_lower : string -> string) (f_text : string -> string) (h : Heap).

(** The entity behind one pointer; [None] for a nil pointer. *)
Definition entity_val (v : GoVal) : option GoVal :=
  match strip_iface v with
  | GPtr None => None
  | GPtr (Some (_, c)) => Some (pointee h c)
  | w => Some w
  end.

Definition wrap_int64 (z : Z) : Z := ((z + 2 ^ 63) mod 2 ^ 64 - 2 ^ 63)%Z.

(** The predicate of a field under [prefix]; [None] when it is skipped. *)
Definition eval_tag (prefix : string) (f : FieldInfo) : option string :=
  if negb (fi_Exported f) then None
  else if String.eqb (fi_mangle f) "-" then None
  else
    let tag := if String.eqb (fi_mangle f) "" then to_lower unicode_lower (fi_Name f) else fi_mangle f in
    Some (if String.eqb prefix "" then tag else prefix +:+ "_" +:+ tag).

(** The values a composite value recurses into, with their predicates. *)
Definition entity_children (prefix : string) (v : GoVal) : list (string * GoVal) :=
  match v with
  | GStruct fs => omap (fun '(f, x) => (fun tag => (tag, x)) <$> eval_tag prefix f) fs
  | GMap r => map (fun '(k, x) => (prefix +:+ "_" +:+ k, x)) (map_entries h r)
  | GSlice r => imap (fun i x => (prefix +:+ "_" +:+ go_int_text (Z.of_nat i), x)) (slice_elems h r)
  | GArray es => imap (fun i x => (prefix +:+ "_" +:+ go_int_text (Z.of_nat i), x)) es
  | _ => []
  end.

Definition entity_atom (prefix entityID : string) (c : Constant) : Atom :=
  NewAtom prefix [TConst (CString entityID); TConst c].

Definition primitive_atoms (prefix entityID : string) (v : GoVal) : list Atom :=
  match v with
  | GInt z => [entity_atom prefix entityID (CNumber z)]
  | GUint z => [entity_atom prefix entityID (CNumber (wrap_int64 z))]
  | GFloat g => [entity_atom prefix entityID (CString (f_text g))]
  | GStr s => [entity_atom prefix entityID (CString s)]
  | GBool b => [entity_atom prefix entityID (CString (go_bool_text b))]
  | _ => []
  end.

Definition eval_join_errors (errs : list error) : option error :=
  match errs with [] => None | _ => Some (EText (join nl (map Error errs))) end.

Definition no_facts : error := EText "no valid facts could be extracted from entity".
Definition nil_entity : error := EText "entity cannot be nil".

Definition is_struct (v : GoVal) : bool := match v with GStruct _ => true | _ => false end.

(** [collectErr]. *)
Definition field_result (tag : string) (r : list Atom * option error) : list Atom * option error :=
  (fst r, option_map (EWrap ("field " +:+ tag +:+ ": ")) (snd r)).

Fixpoint structToFactsRecursive (fuel : nat) (entityID : string) (entity : GoVal) (prefix : string)
  : option (list Atom * option error) :=
  match fuel with
  | O => None
  | S fuel' =>
      match entity_val entity with
      | None => Some ([], Some nil_entity)
      | Some val =>
          subs ← mapM (fun '(tag, x) => field_result tag <$> structToFactsRecursive fuel' entityID x tag) (entity_children prefix val);
          let atoms := (mjoin (map fst subs) ++ primitive_atoms prefix entityID val)%list in
          if is_struct val && bool_decide (atoms = []) then Some ([], Some no_facts)
          else Some (atoms, eval_join_errors (omap snd subs))
      end
  end.

Definition structToFacts (fuel : nat) (entityID : string) (entity : GoVal) : option (res error (list Atom)) :=
  match entity_val entity with
  | None => Some (Err nil_entity)
  | Some val =>
      if is_struct val then
        '(atoms, err) ← structToFactsRecursive fuel entityID entity "";
        Some match err with
             | Some e => Err e
             | None => match atoms with [] => Err no_facts | _ => Ok atoms end
             end
      else Some (Err (EText "entity must be a struct"))
  end.

(** ** Evaluation *)

Record EvaluateResult := { er_Matched : bool; er_EntityID : string; er_RuleHead : string }.

Context {St : Type} `{FactStore St} `{!Mangle St}.
(** [parse.Clause]; [analysis.AnalyzeOneUnit] with the known predicates
    followed by [engine.EvalProgram]. *)
Context (parse_clause : string -> res error Clause).
Context (analyze_one : Clause -> list PredSym -> res error ProgramInfo).
Context (eval_program : ProgramInfo -> St -> St * option error).

Definition NewEvaluator (rule : string) : res error Clause :=
  if String.eqb rule "" then Err (EText "rule cannot be empty")
  else match parse_clause rule with
       | Err e => Err (EWrap "failed to parse rule: " e)
       | Ok c => Ok c
       end.

Definition Evaluate (fuel : nat) (clause : Clause) (entityID : string) (entity : GoVal)
  : option (EvaluateResult * option error) :=
  let result matched := {| er_Matched := matched; er_EntityID := entityID; er_RuleHead := atom_sym (cl_head clause) |} in
  facts ← structToFacts fuel entityID entity;
  Some match facts with
  | Err e => (result false, Some (EWrap "failed to convert entity to facts: " e))
  | Ok facts =>
      let store := add_all facts st_empty in
      match analyze_one clause (remove_dups (map predicate facts)) with
      | Err e => (result false, Some (EWrap "failed to analyze program: " e))
      | Ok pi =>
          let '(store', err) := eval_program pi store in
          match err with
          | Some e => (result false, Some (EWrap "failed to evaluate program: " e))
          | None =>
              match parse_atom (atom_sym (cl_head clause) +:+ "(" +:+ quoted entityID +:+ ")") with
              | Err e => (result false, Some (EWrap "failed to parse query: " e))
              | Ok q => (result (st_contains store' q), None)
              end
          end
      end
  end.
End Evaluator.

(** ** The facts of an entity *)

Section Facts.
Context (unicode_lower : string -> string) (f_text : string -> string) (h : Heap).

Definition about (entityID : string) (a : Atom) : Prop :=
  exists c, atom_args a = [TConst (CString entityID); TConst c].

Lemma primitive_about prefix entityID v : Forall (about entityID) (primitive_atoms f_text prefix entityID v).
Proof. destruct v; cbn; repeat constructor; by eexists. Qed.

Lemma structToFactsRecursive_about fuel entityID : forall entity prefix atoms err,
  structToFactsRecursive unicode_lower f_text h fuel entityID entity prefix = Some (atoms, err) ->
  Forall (about entityID) atoms.
Proof.
  induction fuel as [|fuel IH]; intros entity prefix atoms err; cbn [structToFactsRecursive]; [done|].
  destruct (entity_val h entity) as [val|]; [|intros [= <- <-]; constructor].
  intros (subs & Hs & Hr)%bind_Some.
  assert (Forall (about entityID) (mjoin (map fst subs))) as Hsubs.
  { clear Hr. apply mapM_Some in Hs. induction Hs as [|[tag x] [as_ e] cs ss Hx _ IHs]; [constructor|].
    apply fmap_Some in Hx as ([as' e'] & Hx & [= -> _]). cbn. apply Forall_app. split; [by eapply IH|done]. }
  destruct (_ && _); simplify_eq; [constructor|]. apply Forall_app. split; [done|apply primitive_about].
Qed.

(** Every fact extracted from an entity is binary, about the entity's id, and
    extraction succeeds only with at least one fact. *)
Theorem structToFacts_about fuel entityID entity atoms :
  structToFacts unicode_lower f_text h fuel entityID entity = Some (Ok atoms) ->
  atoms <> [] /\ Forall (about entityID) atoms.
Proof.
  unfold structToFacts. destruct (entity_val h entity) as [val|]; [|done]. destruct (is_struct val); [|done].
  intros ([as_ err] & Hr & Hx)%bind_Some. destruct err; [by simplify_eq|]. destruct as_ as [|a as_]; [by simplify_eq|].
  injection Hx as <-. split; [done|]. by eapply structToFactsRecursive_about.
Qed.

(** A field that yields no facts but an error, such as a nil pointer or a
    struct with unexported fields only, makes the whole extraction fail. *)
Theorem field_error_fails fuel entityID fs f x tag e atoms :
  (f, x) ∈ fs -> eval_tag unicode_lower "" f = Some tag ->
  structToFactsRecursive unicode_lower f_text h fuel entityID x tag = Some ([], Some e) ->
  structToFacts unicode_lower f_text h (S fuel) entityID (GStruct fs) <> Some (Ok atoms).
Proof.
  intros Hin Htag Hx. unfold structToFacts. cbn [entity_val strip_iface is_struct structToFactsRecursive].
  intros ([as_ err] & Hr & Hy)%bind_Some. destruct err as [|]; [by simplify_eq|].
  apply bind_Some in Hr as (subs & Hs & Hr). destruct (_ && _); [done|]. injection Hr as _ Hj.
  assert (exists e', (EWrap ("field " +:+ tag +:+ ": ") e) ∈ omap snd subs /\ e' = e) as (_ & Hmem & _).
  { exists e. split; [|done]. apply list_elem_of_omap. exists ([], Some (EWrap ("field " +:+ tag +:+ ": ") e)). split; [|done].
    apply mapM_Some in Hs.
    assert ((tag, x) ∈ entity_children unicode_lower h "" (GStruct fs)) as Hc.
    { cbn. apply list_elem_of_omap. exists (f, x). split; [done|]. by rewrite Htag. }
    apply list_elem_of_lookup in Hc as [i Hi]. destruct (Forall2_lookup_l _ _ _ _ _ Hs Hi) as (y & Hy' & Hxy).
    rewrite Hx in Hxy. cbn in Hxy. injection Hxy as <-. by eapply list_elem_of_lookup_2. }
  unfold eval_join_errors in Hj. destruct (omap snd subs); [by apply not_elem_of_nil in Hmem|done].
Qed.
End Facts.

(** An optional pointer that is nil makes its entity unusable. *)
Example nil_field_fails lower f_text fuel atoms :
  structToFacts lower f_text ∅ (S (S fuel)) "e"
    (GStruct [({| fi_Name := "Name"; fi_Exported := true; fi_Anonymous := false; fi_mangle := "name"; fi_json := "" |}, GStr "x");
              ({| fi_Name := "Boss"; fi_Exported := true; fi_Anonymous := false; fi_mangle := "boss"; fi_json := "" |}, GPtr None)])
  <> Some (Ok atoms).
Proof. eapply field_error_fails; [by right; left|reflexivity|reflexivity]. Qed.

(** A struct that points to itself is traversed forever. *)
Definition self_heap : Heap :=
  {[ 0 := CellVal (GStruct [({| fi_Name := "Next"; fi_Exported := true; fi_Anonymous := false; fi_mangle := "next"; fi_json := "" |}, GPtr (Some (1%Z, 0)))]) ]}.

Theorem cyclic_entity_diverges lower f_text fuel entityID :
  structToFacts lower f_text self_heap fuel entityID (GPtr (Some (1%Z, 0))) = None.
Proof.
  unfold structToFacts.
  assert (forall prefix, structToFactsRecursive lower f_text self_heap fuel entityID (GPtr (Some (1%Z, 0))) prefix = None) as Hr.
  { induction fuel as [|fuel IH]; intros prefix; [done|].
    assert (exists t, entity_children lower self_heap prefix (pointee self_heap 0) = [(t, GPtr (Some (1%Z, 0)))]) as (t & Ht)
      by (eexists; reflexivity).
    cbn [structToFactsRecursive entity_val strip_iface]. rewrite Ht. cbn [mapM]. by rewrite IH. }
  by rewrite Hr.
Qed.
