(* ===== verification/Genes.v ===== *)
(** * Policy genes

    [x/genes]: signed units of Datalog source.  Signing and verification
    (genes.go), compilation with the tier discipline (policy.go), pools and
    their manifests (pool.go) and their application to a client (apply.go).
    SHA-256 is a parameter on byte strings, the YAML codec a pair of
    functions between manifests and text; an out-of-range slice, which panics in Go, is [None]. *)
From stdpp Require Import sorting.
From S2P Require Import Prelude GoStrings CoreErrors CoreTypes Facts Sources Datalog Runtime Solver.
From Stdlib Require Import Ascii String.
Open Scope string_scope.

Record Gene := {
  g_Name : string;
  g_Tier : string;
  g_Source : string;
  g_Intents : list string;
  g_Rules : string;
  g_Signature : string;     (* 32 bytes *)
  g_Signed : bool
}.

Definition set_signature (sig : string) (g : Gene) : Gene :=
  {| g_Name := g_Name g; g_Tier := g_Tier g; g_Source := g_Source g; g_Intents := g_Intents g;
     g_Rules := g_Rules g; g_Signature := sig; g_Signed := true |}.

Definition validTier (t : string) : bool :=
  existsb (String.eqb t) [TierT0_Axiom; TierT1_Governance; TierT2_Playbook; TierT3_User].

Definition isHardTier (t : string) : bool := String.eqb t TierT0_Axiom || String.eqb t TierT1_Governance.

(** ** Hexadecimal *)

Definition hex_byte (c : ascii) : string :=
  String (hex_digit (bval c / 16)) (String (hex_digit (bval c mod 16)) "").

Fixpoint hex_EncodeToString (s : string) : string :=
  match s with "" => "" | String c s' => hex_byte c +:+ hex_EncodeToString s' end.

Definition hex_value (c : ascii) : option Z :=
  let z := bval c in
  if ((48 <=? z) && (z <=? 57))%Z then Some (z - 48)%Z
  else if ((97 <=? z) && (z <=? 102))%Z then Some (z - 87)%Z
  else if ((65 <=? z) && (z <=? 70))%Z then Some (z - 55)%Z
  else None.

Fixpoint hex_DecodeString (s : string) : option string :=
  match s with
  | "" => Some ""
  | String a (String b s') =>
      hi ← hex_value a; lo ← hex_value b; rest ← hex_DecodeString s';
      Some (String (byte (hi * 16 + lo)) rest)
  | String _ "" => None
  end.

Section Signing.
Context (sha256 : string -> string).

(** The text under the hash, and [canonical]. *)
Definition preamble (g : Gene) : string :=
  "name=" +:+ g_Name g +:+ nl +:+ "tier=" +:+ g_Tier g +:+ nl +:+ "source=" +:+ g_Source g +:+ nl +:+
  "intents=[" +:+ join " " (g_Intents g) +:+ "]" +:+ nl +:+ "rules=" +:+ g_Rules g +:+ nl.
Definition canonical (g : Gene) : string := sha256 (preamble g).

Definition Sign (g : Gene) : Gene := set_signature (sha256 (canonical g)) g.

Definition SignatureHex (g : Gene) : string := hex_EncodeToString (g_Signature g).

Definition SetSignatureHex (s : string) (g : Gene) : Gene * option error :=
  match hex_DecodeString s with
  | Some raw => if Nat.eqb (String.length raw) 32 then (set_signature raw g, None)
                else (g, Some (EText ("invalid signature hex: " +:+ go_quote s)))
  | None => (g, Some (EText ("invalid signature hex: " +:+ go_quote s)))
  end.

Definition gene_Verify (g : Gene) : option error :=
  if negb (g_Signed g) then Some (EText ("gene " +:+ go_quote (g_Name g) +:+ " is unsigned"))
  else if negb (String.eqb (g_Signature g) (sha256 (canonical g)))
       then Some (EText ("gene " +:+ go_quote (g_Name g) +:+ " signature mismatch — rules or metadata were modified after signing"))
       else None.

(** ** Compilation *)

(** [splitTopLevel]: [cur] is the argument under construction. *)
Fixpoint splitTopLevel (s cur : string) (depth : nat) : list string :=
  match s with
  | "" => if String.eqb cur "" then [] else [cur]
  | String c s' =>
      if Ascii.eqb c c_lpar then splitTopLevel s' (cur +:+ String c "") (S depth)
      else if Ascii.eqb c c_rpar then
        match depth with O => [cur] | S d => splitTopLevel s' (cur +:+ String c "") d end
      else if Ascii.eqb c c_comma && Nat.eqb depth 0 then cur :: splitTopLevel s' "" depth
      else splitTopLevel s' (cur +:+ String c "") depth
  end.

Context (unicode_lower : string -> string).

(** [s[i:]], which panics past the end. *)
Definition slice_from (i : nat) (s : string) : option string :=
  if (i <=? String.length s)%nat then Some (str_drop i s) else None.

(** The loop of [tierInHead] over the predicates. *)
Fixpoint tier_of_head (preds : list string) (head : string) : option string :=
  match preds with
  | [] => Some ""
  | pred :: rest =>
      match index_of (to_lower unicode_lower head) (pred +:+ "(") with
      | None => tier_of_head rest head
      | Some idx =>
          after ← slice_from (idx + String.length pred + 1) head;
          match splitTopLevel after "" 0 !! 2 with
          | Some a => let t := trim_cut (trim_space a) (dq +:+ "'") in
                      if validTier t then Some t else tier_of_head rest head
          | None => tier_of_head rest head
          end
      end
  end.

Definition tierInHead (ruleLine : string) : option string :=
  let head := match index_of ruleLine ":-" with Some i => str_take i ruleLine | None => ruleLine end in
  tier_of_head ["halt"; "deny"] head.

Fixpoint check_lines (g : Gene) (lines : list string) : option (option error) :=
  match lines with
  | [] => Some None
  | line :: rest =>
      let line := trim_space line in
      if String.eqb line "" || has_prefix line "%" then check_lines g rest
      else
        t ← tierInHead line;
        if negb (String.eqb t "") && negb (String.eqb t (g_Tier g))
        then Some (Some (EText ("x/genes: gene " +:+ go_quote (g_Name g) +:+ " declares tier " +:+ g_Tier g +:+
                                " but rule emits tier " +:+ go_quote t +:+ ": " +:+ line)))
        else check_lines g rest
  end.

Definition checkTierConsistency (g : Gene) : option (option error) :=
  let lower := to_lower unicode_lower (g_Rules g) in
  if negb (contains lower "halt(") && negb (contains lower "deny(") then Some None
  else check_lines g (split_on c_nl (g_Rules g)).

(** The checks of one gene in [Compile]. *)
Definition check_gene (allowHardTiers : bool) (g : Gene) : option (option error) :=
  match gene_Verify g with
  | Some e => Some (Some e)
  | None =>
      if negb (validTier (g_Tier g)) then
        Some (Some (EText ("x/genes: gene " +:+ go_quote (g_Name g) +:+ " has invalid tier " +:+ go_quote (g_Tier g))))
      else if isHardTier (g_Tier g) && negb allowHardTiers then
        Some (Some (EText ("x/genes: gene " +:+ go_quote (g_Name g) +:+ " carries hard tier " +:+ g_Tier g +:+ " (can block); " +:+
          "applying learned blocking rules requires WithAllowHardTiers() — promote through human review first")))
      else checkTierConsistency g
  end.

Definition gene_text (g : Gene) : string :=
  nl +:+ "% gene: " +:+ g_Name g +:+ " | tier: " +:+ g_Tier g +:+ " | source: " +:+ g_Source g +:+ nl
  +:+ trim_space (g_Rules g) +:+ nl.

Fixpoint compile_genes (allowHardTiers : bool) (genes : list Gene) : option (res error string) :=
  match genes with
  | [] => Some (Ok "")
  | g :: rest =>
      err ← check_gene allowHardTiers g;
      match err with
      | Some e => Some (Err e)
      | None => out ← compile_genes allowHardTiers rest;
                Some match out with Err e => Err e | Ok text => Ok (gene_text g +:+ text) end
      end
  end.

Definition Compile (allowHardTiers : bool) (genes : list Gene) : option (res error string) :=
  match genes with
  | [] => Some (Err (EText "x/genes: compile called with no genes"))
  | _ => out ← compile_genes allowHardTiers genes;
         Some match out with Err e => Err e | Ok text => Ok ("% ---- x/genes compiled policy ----" +:+ nl +:+ text) end
  end.

(** ** Pools *)

Record Pool := { p_genes : list Gene }.

Definition gene_le (a b : Gene) : Prop := strings.String.le (g_Name a) (g_Name b).
#[global] Instance gene_le_dec : RelDecision gene_le.
Proof. intros a b. unfold gene_le. apply _. Defined.

(** [Genes]: sorted by name; the names of a loaded pool are distinct. *)
Definition Genes (p : Pool) : list Gene := merge_sort gene_le (p_genes p).

Definition active_for (intent : string) (g : Gene) : bool :=
  match g_Intents g with [] => true | l => existsb (fun i => String.eqb i intent) l end.
Definition Active (intent : string) (p : Pool) : list Gene := List.filter (active_for intent) (Genes p).

Record manifestGene := {
  mg_Name : string; mg_Tier : string; mg_Source : string; mg_Intents : list string; mg_Rules : string; mg_Signature : string
}.
Record manifest := { m_Version : Z; m_Genes : list manifestGene }.

Definition unsigned_gene (mg : manifestGene) : Gene :=
  {| g_Name := mg_Name mg; g_Tier := mg_Tier mg; g_Source := mg_Source mg; g_Intents := mg_Intents mg;
     g_Rules := mg_Rules mg; g_Signature := ""; g_Signed := false |}.

Definition load_gene (mg : manifestGene) : res error Gene :=
  let quoted_name := go_quote (mg_Name mg) in
  if negb (validTier (mg_Tier mg)) then
    Err (EText ("x/genes: gene " +:+ quoted_name +:+ " has invalid tier " +:+ go_quote (mg_Tier mg) +:+ " (want T0..T3)"))
  else if String.eqb (mg_Rules mg) "" then Err (EText ("x/genes: gene " +:+ quoted_name +:+ " has no rules"))
  else if String.eqb (mg_Signature mg) "" then
    Err (EText ("x/genes: gene " +:+ quoted_name +:+ " is unsigned — run Gene.Sign() and write the manifest again"))
  else
    match SetSignatureHex (mg_Signature mg) (unsigned_gene mg) with
    | (_, Some e) => Err (EWrap ("x/genes: gene " +:+ quoted_name +:+ ": ") e)
    | (g, None) => match gene_Verify g with Some e => Err (EWrap "x/genes: " e) | None => Ok g end
    end.

Fixpoint load_genes (seen : gset string) (mgs : list manifestGene) : res error (list Gene) :=
  match mgs with
  | [] => Ok []
  | mg :: rest =>
      if String.eqb (mg_Name mg) "" || bool_decide (mg_Name mg ∈ seen)
      then Err (EText ("x/genes: gene with empty or duplicate name " +:+ go_quote (mg_Name mg)))
      else match load_gene mg with
           | Err e => Err e
           | Ok g => match load_genes ({[mg_Name mg]} ∪ seen) rest with Err e => Err e | Ok gs => Ok (g :: gs) end
           end
  end.

Definition to_manifest (g : Gene) : manifestGene :=
  {| mg_Name := g_Name g; mg_Tier := g_Tier g; mg_Source := g_Source g; mg_Intents := g_Intents g;
     mg_Rules := g_Rules g; mg_Signature := SignatureHex g |}.

(** The YAML codec of the manifest: the text or an error; a manifest, the end
    of an empty input ([None]), or an error. *)
Section Yaml.
Context (yaml_Encode : manifest -> res error string) (yaml_Decode : string -> res error (option manifest)).

(** [LoadPool] on the text of the reader. *)
Definition LoadPool (text : string) : res error Pool :=
  match yaml_Decode text with
  | Err e => Err (EWrap "x/genes: parse manifest: " e)
  | Ok None => Ok {| p_genes := [] |}
  | Ok (Some m) =>
      if negb (m_Version m =? 1)%Z
      then Err (EText ("x/genes: unsupported manifest version " +:+ pretty (m_Version m) +:+ " (want 1)"))
      else match load_genes ∅ (m_Genes m) with Err e => Err e | Ok gs => Ok {| p_genes := gs |} end
  end.

(** [LoadPoolFile]; [os_Open] gives the text of the file. *)
Definition LoadPoolFile (os_Open : string -> res error string) (path : string) : res error Pool :=
  match os_Open path with
  | Err e => Err (EWrap "x/genes: open manifest: " e)
  | Ok text => LoadPool text
  end.

(** [WritePool]: what is written, or the error. *)
Definition WritePool (genes : list Gene) : res error string :=
  match res_mapM (fun g => if g_Signed g then Ok (to_manifest g)
                           else Err (EText ("x/genes: gene " +:+ go_quote (g_Name g) +:+ " is not signed"))) genes with
  | Err e => Err e
  | Ok mgs => yaml_Encode {| m_Version := 1; m_Genes := mgs |}
  end.
End Yaml.

(** ** Application *)

(** [ApplyTo]; [load] is the client's [LoadPolicy] on a client state, [None]
    a nil client. *)
Definition ApplyTo {C : Type} (load : option (string -> C -> C * option error)) (allowHardTiers : bool) (genes : list Gene) (c : C)
  : option (C * option error) :=
  compiled ← Compile allowHardTiers genes;
  Some match compiled with
  | Err e => (c, Some e)
  | Ok src =>
      match load with
      | None => (c, Some (EText "x/genes: nil client"))
      | Some f => let '(c', err) := f src c in
                  (c', EWrap "x/genes: compiled genes failed to load as policy: " <$> err)
      end
  end.
End Signing.
