(* ===== verification/GenesProps.v ===== *)
(** * Properties of policy genes

    What a signature protects, what a compiled program and a loaded pool
    guarantee, the round trip of a pool through its YAML text, and the rules
    that escape the tier discipline. *)
From stdpp Require Import sorting.
From S2P Require Import Prelude GoStrings CoreErrors CoreTypes Facts Sources Datalog Runtime Solver Genes.
From Stdlib Require Import Ascii String.
Open Scope string_scope.

(** ** Hexadecimal *)

Lemma hex_value_digit n : (0 <= n < 16)%Z -> hex_value (hex_digit n) = Some n.
Proof.
  intros Hn. assert (forallb (fun k => bool_decide (hex_value (hex_digit (Z.of_nat k)) = Some (Z.of_nat k))) (seq 0 16) = true) as Hall
    by reflexivity.
  rewrite forallb_forall in Hall. specialize (Hall (Z.to_nat n)). rewrite in_seq, Z2Nat.id in Hall by lia.
  apply bool_decide_eq_true in Hall; [done|lia].
Qed.

Lemma hex_roundtrip s : hex_DecodeString (hex_EncodeToString s) = Some s.
Proof.
  induction s as [|c s IH]; [done|]. cbn [hex_EncodeToString]. unfold hex_byte.
  change (hex_DecodeString (String ?a (String ?b "") +:+ ?r)) with (hex_DecodeString (String a (String b r))).
  pose proof (bval_range c) as Hc. pose proof (Z.mod_pos_bound (bval c) 16 ltac:(lia)).
  assert (0 <= bval c / 16 < 16)%Z by (split; [apply Z.div_pos; lia|apply Z.div_lt_upper_bound; lia]).
  cbn [hex_DecodeString]. rewrite !hex_value_digit by lia. cbn [mbind option_bind]. rewrite IH. cbn [mbind option_bind].
  do 2 f_equal. rewrite (Z.mul_comm _ 16), <- Z.div_mod by lia.
  apply bval_inj. by apply bval_byte.
Qed.

(** ** Signatures *)

Definition without (c : ascii) (s : string) : Prop := all_bytes (fun d => negb (Ascii.eqb d c)) s = true.

Lemma without_cons c d s : without c (String d s) <-> d <> c /\ without c s.
Proof. unfold without. cbn. rewrite andb_true_iff, negb_true_iff, Ascii.eqb_neq. done. Qed.

Lemma cut_at c a b x y : without c a -> without c b -> a +:+ String c x = b +:+ String c y -> a = b /\ x = y.
Proof.
  revert b. induction a as [|d a IH]; intros [|e b] Ha Hb Heq.
  - by injection Heq.
  - apply without_cons in Hb as [Hb _]. by injection Heq as <-.
  - apply without_cons in Ha as [Ha _]. by injection Heq as ->.
  - apply without_cons in Ha as [_ Ha], Hb as [_ Hb].
    change (String d (a +:+ String c x) = String e (b +:+ String c y)) in Heq. injection Heq as -> Heq.
    by destruct (IH b Ha Hb Heq) as [-> ->].
Qed.

(** Intents as the signature can tell them apart: non-empty words. *)
Definition intent_word (s : string) : Prop := s <> "" /\ without c_sp s /\ without c_nl s.

Lemma split_on_without c a : without c a -> split_on c a = [a].
Proof.
  induction a as [|d a IH]; [done|]. intros [Hd Ha]%without_cons. cbn. apply Ascii.eqb_neq in Hd. by rewrite Hd, IH.
Qed.

Lemma split_on_cut c a x : without c a -> split_on c (a +:+ String c x) = a :: split_on c x.
Proof.
  induction a as [|d a IH]; intros Ha.
  - change ("" +:+ String c x) with (String c x). cbn. by rewrite Ascii.eqb_refl.
  - apply without_cons in Ha as [Hd Ha]. change (String d a +:+ String c x) with (String d (a +:+ String c x)). cbn.
    apply Ascii.eqb_neq in Hd. by rewrite Hd, IH.
Qed.

Lemma split_join c l : l <> [] -> Forall (without c) l -> split_on c (join (String c "") l) = l.
Proof.
  intros Hne Hl. induction Hl as [|a l Ha Hl IH]; [done|]. destruct l as [|b l]; [by apply split_on_without|].
  change (join (String c "") (a :: b :: l)) with (a +:+ String c (join (String c "") (b :: l))).
  rewrite split_on_cut by done. by rewrite IH.
Qed.

Lemma join_words_inj l l' : Forall intent_word l -> Forall intent_word l' -> join " " l = join " " l' -> l = l'.
Proof.
  assert (forall l, Forall intent_word l -> Forall (without c_sp) l) as Hsp
    by (intros k Hk; eapply Forall_impl; [exact Hk|]; by intros x (_ & ? & _)).
  assert (forall l, Forall intent_word l -> join " " l = "" -> l = []) as Hempty.
  { intros [|a [|b k]] Hk Hj; [done|..]; apply Forall_cons in Hk as [[Hne _] _]; [by cbn in Hj|].
    destruct a; [done|]. by cbn in Hj. }
  intros Hl Hl' Heq. destruct l as [|a l]; [symmetry; by apply Hempty|].
  destruct l' as [|b l']; [by apply Hempty|].
  rewrite <- (split_join c_sp (a :: l)) by (try done; by apply Hsp).
  rewrite <- (split_join c_sp (b :: l')) by (try done; by apply Hsp). by f_equal.
Qed.

Lemma without_join c l : without c " " -> Forall (without c) l -> without c (join " " l).
Proof.
  intros Hsp Hl. induction Hl as [|a [|b l] Ha Hl IH]; [done|done|].
  change (join " " (a :: b :: l)) with (a +:+ (" " +:+ join " " (b :: l))). unfold without in *.
  rewrite !all_bytes_cat. by rewrite Ha, Hsp, IH.
Qed.

(** Fields as a signature can tell them apart. *)
Definition clean_gene (g : Gene) : Prop :=
  without c_nl (g_Name g) /\ without c_nl (g_Tier g) /\ without c_nl (g_Source g) /\ Forall intent_word (g_Intents g).

Lemma app_cancel (a x y : string) : a +:+ x = a +:+ y -> x = y.
Proof. induction a as [|c a IH]; [done|]. intros Heq. injection Heq as Heq. by apply IH. Qed.

Lemma cut_nl a b x y : without c_nl a -> without c_nl b -> a +:+ nl +:+ x = b +:+ nl +:+ y -> a = b /\ x = y.
Proof. exact (cut_at c_nl a b x y). Qed.

Lemma preamble_inj g g' : clean_gene g -> clean_gene g' -> preamble g = preamble g' ->
  g_Name g = g_Name g' /\ g_Tier g = g_Tier g' /\ g_Source g = g_Source g' /\ g_Intents g = g_Intents g' /\ g_Rules g = g_Rules g'.
Proof.
  intros (Hn & Ht & Hs & Hi) (Hn' & Ht' & Hs' & Hi') Heq. unfold preamble in Heq.
  apply app_cancel in Heq. apply cut_nl in Heq as [Hname Heq]; [|done..].
  apply app_cancel in Heq. apply cut_nl in Heq as [Htier Heq]; [|done..].
  apply app_cancel in Heq. apply cut_nl in Heq as [Hsource Heq]; [|done..].
  apply app_cancel in Heq. rewrite !(str_app_assoc (join _ _)) in Heq.
  assert (forall l, Forall intent_word l -> without c_nl (join " " l +:+ "]")) as Hj.
  { intros l Hl. unfold without. rewrite all_bytes_cat.
    rewrite (without_join c_nl l); [done|done|]. eapply Forall_impl; [exact Hl|]. by intros x (_ & _ & ?). }
  apply cut_nl in Heq as [Hint Heq]; [|by apply Hj..].
  apply app_cancel in Heq.
  split_and!; [done..| |].
  - apply join_words_inj; [done..|]. apply (f_equal (fun s => trim_suffix s "]")) in Hint. by rewrite !trim_suffix_app in Hint.
  - apply (f_equal (fun s => trim_suffix s nl)) in Heq. by rewrite !trim_suffix_app in Heq.
Qed.

(** ** What the tier check reads *)

(** The depth of the parentheses after a text that starts at depth [d];
    nothing when the text closes more than it opens or has a comma at depth
    zero. *)
Fixpoint inner (d : nat) (s : string) : option nat :=
  match s with
  | "" => Some d
  | String c s' =>
      if Ascii.eqb c c_lpar then inner (S d) s'
      else if Ascii.eqb c c_rpar then match d with O => None | S d' => inner d' s' end
      else if Ascii.eqb c c_comma && Nat.eqb d 0 then None
      else inner d s'
  end.

(** [a] is the third argument of the text: two parts that end in a comma come
    before it, and a comma or a parenthesis, or the end, after it. *)
Definition third_argument (text a : string) : Prop :=
  exists p q rest d, text = p +:+ String c_comma (q +:+ String c_comma (a +:+ rest)) /\
    inner 0 p = Some 0 /\ inner 0 q = Some 0 /\ inner 0 a = Some d /\
    (rest = "" /\ a <> "" \/ d = 0 /\ exists r, rest = String c_comma r \/ rest = String c_rpar r).

Lemma inner_cases s : forall d, (exists d', inner d s = Some d') \/
  exists p c r, s = p +:+ String c r /\ inner d p = Some 0 /\ (c = c_comma \/ c = c_rpar).
Proof.
  induction s as [|c s IH]; intros d; cbn [inner]; [left; eauto|].
  assert (forall d', (exists e, inner d' s = Some e) \/ (exists p c0 r, s = p +:+ String c0 r /\ inner d' p = Some 0 /\ (c0 = c_comma \/ c0 = c_rpar))) as Hs by apply IH.
  destruct (Ascii.eqb c c_lpar) eqn:H1.
  { destruct (Hs (S d)) as [?|(p & c0 & r & -> & Hp & Hc)]; [by left|right]. exists (String c p), c0, r. cbn [inner]. by rewrite H1. }
  destruct (Ascii.eqb_spec c c_rpar) as [->|Hr].
  { destruct d as [|d]; [right; exists "", c_rpar, s; auto|].
    destruct (Hs d) as [?|(p & c0 & r & -> & Hp & Hc)]; [by left|right]. by exists (String c_rpar p), c0, r. }
  destruct (Ascii.eqb c c_comma && Nat.eqb d 0) eqn:Hc0.
  { apply andb_true_iff in Hc0 as [->%Ascii.eqb_eq ->%Nat.eqb_eq]. right. exists "", c_comma, s. auto. }
  destruct (Hs d) as [?|(p & c0 & r & -> & Hp & Hc)]; [by left|right]. exists (String c p), c0, r. cbn [inner].
  apply Ascii.eqb_neq in Hr. by rewrite H1, Hr, Hc0.
Qed.

Lemma split_inner s : forall cur d d', inner d s = Some d' ->
  splitTopLevel s cur d = if String.eqb (cur +:+ s) "" then [] else [cur +:+ s].
Proof.
  induction s as [|c s IH]; intros cur d d'; cbn [inner splitTopLevel]; [by rewrite str_app_nil_r|].
  assert (cur +:+ String c s = (cur +:+ String c "") +:+ s) as -> by by rewrite <- str_app_assoc.
  destruct (Ascii.eqb c c_lpar); [apply IH|]. destruct (Ascii.eqb c c_rpar); [destruct d; [done|apply IH]|].
  destruct (_ && _); [done|apply IH].
Qed.

Lemma split_on_part p c r : forall cur d, inner d p = Some 0 -> c = c_comma \/ c = c_rpar ->
  splitTopLevel (p +:+ String c r) cur d = (cur +:+ p) :: if Ascii.eqb c c_comma then splitTopLevel r "" 0 else [].
Proof.
  induction p as [|b p IH]; intros cur d; cbn [inner].
  { intros [= ->] Hc. rewrite str_app_nil_r. by destruct Hc as [-> | ->]. }
  change (String b p +:+ String c r) with (String b (p +:+ String c r)). cbn [splitTopLevel].
  assert (cur +:+ String b p = (cur +:+ String b "") +:+ p) as -> by by rewrite <- str_app_assoc.
  destruct (Ascii.eqb b c_lpar); [apply IH|]. destruct (Ascii.eqb b c_rpar); [destruct d; [done|apply IH]|].
  destruct (_ && _); [done|apply IH].
Qed.

Lemma split_nil s cur d : splitTopLevel s cur d = [] -> s = "".
Proof.
  destruct (inner_cases s d) as [[d' Hd]|(p & c & r & -> & Hp & Hc)]; [|by rewrite split_on_part by done].
  rewrite (split_inner _ _ _ _ Hd). destruct (String.eqb_spec (cur +:+ s) "") as [He|]; [|done]. by destruct cur.
Qed.

(** The head of the list of arguments. *)
Lemma split_first s a rest : splitTopLevel s "" 0 = a :: rest <->
  (exists d, inner 0 s = Some d /\ s <> "" /\ a = s /\ rest = []) \/
  (exists r, s = a +:+ String c_comma r /\ inner 0 a = Some 0 /\ rest = splitTopLevel r "" 0) \/
  (exists r, s = a +:+ String c_rpar r /\ inner 0 a = Some 0 /\ rest = []).
Proof.
  split.
  - destruct (inner_cases s 0) as [[d' Hd]|(p & c & r & -> & Hp & Hc)].
    + rewrite (split_inner _ _ _ _ Hd). cbn. destruct (String.eqb_spec s "") as [|Hne]; [done|]. intros [= <- <-]. left. eauto.
    + rewrite split_on_part by done. cbn. intros [= -> <-]. right. destruct Hc as [-> | ->]; [left|right]; eauto.
  - intros [(d & Hd & Hne & -> & ->)|[(r & -> & Ha & ->)|(r & -> & Ha & ->)]].
    + rewrite (split_inner _ _ _ _ Hd). cbn. by apply String.eqb_neq in Hne as ->.
    + rewrite split_on_part by auto. done.
    + rewrite split_on_part by auto. done.
Qed.

Lemma split_third text a : splitTopLevel text "" 0 !! 2 = Some a <-> third_argument text a.
Proof.
  split.
  - intros H. destruct (splitTopLevel text "" 0) as [|p [|q [|x l]]] eqn:Hs; [done..|]. injection H as ->.
    apply split_first in Hs as [(? & _ & _ & _ & [=])|[(r & -> & Hp & Hr)|(? & _ & _ & [=])]]. symmetry in Hr.
    apply split_first in Hr as [(? & _ & _ & _ & [=])|[(r' & -> & Hq & Hr)|(? & _ & _ & [=])]]. symmetry in Hr.
    apply split_first in Hr as [(d & Hd & Hne & -> & _)|[(r & -> & Ha & _)|(r & -> & Ha & _)]].
    + exists p, q, "", d. rewrite str_app_nil_r. split_and!; auto.
    + exists p, q, (String c_comma r), 0. split_and!; try done. right. eauto.
    + exists p, q, (String c_rpar r), 0. split_and!; try done. right. eauto.
  - intros (p & q & rest & d & -> & Hp & Hq & Ha & Hr). rewrite split_on_part by auto. cbn. rewrite split_on_part by auto. cbn.
    destruct Hr as [[-> Hne]|[-> [r [-> | ->]]]].
    + rewrite str_app_nil_r, (split_inner _ _ _ _ Ha). cbn. by apply String.eqb_neq in Hne as ->.
    + rewrite split_on_part by auto. done.
    + rewrite split_on_part by auto. done.
Qed.

Lemma validTier_iff t : validTier t = true <-> t ∈ ["T0"; "T1"; "T2"; "T3"].
Proof.
  unfold validTier. rewrite !elem_of_cons. cbn [existsb]. rewrite !orb_true_iff, !String.eqb_eq. rewrite elem_of_nil.
  unfold TierT0_Axiom, TierT1_Governance, TierT2_Playbook, TierT3_User. naive_solver.
Qed.

Section Tiers.
Context (lower : string -> string).

(** The first [pred(] of the head, found in its lower-case text, is a place of
    the head itself; otherwise the code panics. *)
Definition readable (pred head : string) : Prop :=
  forall i, index_of (to_lower lower head) (pred +:+ "(") = Some i -> i + String.length pred + 1 <= String.length head.

(** The third argument of the first [pred(] of the head, without spaces and
    quotes around it, is the tier [t]. *)
Definition names_tier (pred head t : string) : Prop :=
  exists i a, index_of (to_lower lower head) (pred +:+ "(") = Some i /\
    third_argument (str_drop (i + String.length pred + 1) head) a /\
    t = trim_cut (trim_space a) (dq +:+ "'") /\ t ∈ ["T0"; "T1"; "T2"; "T3"].

(** The tier that a rule emits is the gene's: of the first [halt], when it
    names a tier, and otherwise of the first [deny]. *)
Definition emits_only (tier line : string) : Prop :=
  let head := match index_of line ":-" with Some i => str_take i line | None => line end in
  readable "halt" head /\
  (names_tier "halt" head tier \/
   ((forall t, ~ names_tier "halt" head t) /\ readable "deny" head /\ (forall t, names_tier "deny" head t -> t = tier))).

(** Rules that respect a tier: none halts or denies at all, or every line is
    empty, a comment, or a rule that emits this tier only. *)
Definition respects_tier (tier rules : string) : Prop :=
  (contains (to_lower lower rules) "halt(" = false /\ contains (to_lower lower rules) "deny(" = false) \/
  Forall (fun line => let line := trim_space line in line = "" \/ has_prefix line "%" = true \/ emits_only tier line) (split_on c_nl rules).

Lemma names_tier_fun pred head t t' : names_tier pred head t -> names_tier pred head t' -> t = t'.
Proof.
  intros (i & a & Hi & Ha%split_third & -> & _) (i' & a' & Hi' & Ha'%split_third & -> & _). congruence.
Qed.

(** One predicate of the loop of [tierInHead]. *)
Lemma tier_of_head_step pred rest head :
  (~ readable pred head /\ tier_of_head lower (pred :: rest) head = None) \/
  (readable pred head /\ exists t, names_tier pred head t /\ tier_of_head lower (pred :: rest) head = Some t) \/
  (readable pred head /\ (forall t, ~ names_tier pred head t) /\ tier_of_head lower (pred :: rest) head = tier_of_head lower rest head).
Proof.
  cbn [tier_of_head]. destruct (index_of (to_lower lower head) (pred +:+ "(")) as [i|] eqn:Hi.
  2: { right. right. split_and!; [intros i'; congruence| |done]. intros t (i & a & Hi' & _). congruence. }
  unfold slice_from. destruct (Nat.leb_spec (i + String.length pred + 1) (String.length head)) as [Hle|Hgt]; cbn [mbind option_bind].
  2: { left. split; [|done]. intros Hr. specialize (Hr i Hi). lia. }
  assert (readable pred head) as Hr by (intros i' Hi'; rewrite Hi in Hi'; by injection Hi' as <-).
  right. destruct (splitTopLevel (str_drop (i + String.length pred + 1) head) "" 0 !! 2) as [a|] eqn:Hs.
  - pose proof (proj1 (split_third _ _) Hs) as Ha. destruct (validTier (trim_cut (trim_space a) (dq +:+ "'"))) eqn:Hv.
    + left. split; [done|]. eexists. split; [|reflexivity]. exists i, a. split_and!; [done|done|done|]. by apply validTier_iff.
    + right. split_and!; [done| |done]. intros t (i' & a' & Hi' & Ha' & -> & Ht). apply split_third in Ha'. apply validTier_iff in Ht. congruence.
  - right. split_and!; [done| |done]. intros t (i' & a' & Hi' & Ha' & _). apply split_third in Ha'. congruence.
Qed.

Lemma tierInHead_ok tier line : tier ∈ ["T0"; "T1"; "T2"; "T3"] ->
  (exists t, tierInHead lower line = Some t /\ (t = "" \/ t = tier)) <-> emits_only tier line.
Proof.
  intros Htier. unfold tierInHead, emits_only. set (head := match index_of line ":-" with Some i => _ | None => _ end).
  assert (forall pred t, names_tier pred head t -> t <> "") as Hne.
  { intros pred t (_ & _ & _ & _ & _ & Ht) ->. apply validTier_iff in Ht. done. }
  destruct (tier_of_head_step "halt" ["deny"] head) as [[Hr ->]|[(Hr & t & Ht & ->)|(Hr & Hn & ->)]].
  - split; [by intros (? & [=] & _)|by intros [? _]].
  - split.
    + intros (? & [= <-] & [-> | ->]); [by destruct (Hne _ _ Ht)|]. split; [done|by left].
    + intros [_ [H|[H _]]]; [|by destruct (H t)]. exists t. split; [done|right]. by eapply names_tier_fun.
  - destruct (tier_of_head_step "deny" [] head) as [[Hr' ->]|[(Hr' & t & Ht & ->)|(Hr' & Hn' & ->)]].
    + split; [by intros (? & [=] & _)|]. intros [_ [H|(_ & ? & _)]]; [by destruct (Hn tier)|done].
    + split.
      * intros (? & [= <-] & [-> | ->]); [by destruct (Hne _ _ Ht)|]. split; [done|right]. split_and!; [done|done|].
        intros t' Ht'. by eapply names_tier_fun.
      * intros [_ [H|(_ & _ & H)]]; [by destruct (Hn tier)|]. exists t. split; [done|right]. by apply H.
    + split; [|intros _; exists ""; split; [done|by left]]. intros _. split; [done|right]. split_and!; [done|done|]. intros t' Ht'. by destruct (Hn' t').
Qed.

Lemma check_lines_ok g lines : g_Tier g ∈ ["T0"; "T1"; "T2"; "T3"] ->
  check_lines lower g lines = Some None <->
  Forall (fun line => let line := trim_space line in line = "" \/ has_prefix line "%" = true \/ emits_only (g_Tier g) line) lines.
Proof.
  intros Htier. induction lines as [|line lines IH]; cbn [check_lines]; [split; [by constructor|done]|]. rewrite Forall_cons. cbv zeta.
  destruct (String.eqb_spec (trim_space line) "") as [He|He]; cbn [orb]; [rewrite IH; naive_solver|].
  destruct (has_prefix (trim_space line) "%") eqn:Hp; [rewrite IH; naive_solver|].
  rewrite <- (tierInHead_ok _ _ Htier). destruct (tierInHead lower (trim_space line)) as [t|]; cbn [mbind option_bind].
  2: { split; [done|]. intros [[?|[?|(? & [=] & _)]] _]; congruence. }
  destruct (String.eqb_spec t ""); cbn [negb andb]; [rewrite IH; split; [|naive_solver]; intros ?; split; [|done]; right; right; eauto|].
  destruct (String.eqb_spec t (g_Tier g)) as [Ht|Ht]; cbn [negb].
  - rewrite IH. split; [|naive_solver]. intros ?. split; [|done]. right. right. eauto.
  - split; [done|]. intros [[?|[?|(? & [= <-] & [?|?])]] _]; congruence.
Qed.

Lemma checkTierConsistency_ok g : g_Tier g ∈ ["T0"; "T1"; "T2"; "T3"] ->
  checkTierConsistency lower g = Some None <-> respects_tier (g_Tier g) (g_Rules g).
Proof.
  intros Htier. unfold checkTierConsistency, respects_tier.
  destruct (contains (to_lower lower (g_Rules g)) "halt(") eqn:Hh, (contains (to_lower lower (g_Rules g)) "deny(") eqn:Hd; cbn [negb andb];
    rewrite ?check_lines_ok by done; naive_solver.
Qed.

End Tiers.

Section Props.
Context (sha256 : string -> string).

Lemma Verify_iff g : gene_Verify sha256 g = None <-> g_Signed g = true /\ g_Signature g = sha256 (canonical sha256 g).
Proof.
  unfold gene_Verify. destruct (g_Signed g); cbn; [|split; [done|by intros []]].
  destruct (String.eqb_spec (g_Signature g) (sha256 (canonical sha256 g))); cbn; split; naive_solver.
Qed.

(** Signatures detect tampering: for a hash without collisions on the
    texts at hand, two genes with clean fields that verify under the same
    signature have the same name, tier, source, intents and rules. *)
Theorem signature_binds_fields g g' :
  (forall x y, sha256 x = sha256 y -> x = y) -> clean_gene g -> clean_gene g' ->
  gene_Verify sha256 g = None -> gene_Verify sha256 g' = None -> g_Signature g = g_Signature g' ->
  g_Name g = g_Name g' /\ g_Tier g = g_Tier g' /\ g_Source g = g_Source g' /\ g_Intents g = g_Intents g' /\ g_Rules g = g_Rules g'.
Proof.
  intros Hinj Hc Hc' [_ Hv]%Verify_iff [_ Hv']%Verify_iff Hs. apply preamble_inj; [done..|].
  apply Hinj, Hinj. unfold canonical in *. congruence.
Qed.

(** ** Compilation *)

Section Compilation.
Context (lower : string -> string).

(** What [Compile] has checked of a gene. *)
Definition admissible (allow : bool) (g : Gene) : Prop :=
  g_Signed g = true /\
  g_Signature g = sha256 (sha256 ("name=" +:+ g_Name g +:+ nl +:+ "tier=" +:+ g_Tier g +:+ nl +:+ "source=" +:+ g_Source g +:+ nl +:+
    "intents=[" +:+ join " " (g_Intents g) +:+ "]" +:+ nl +:+ "rules=" +:+ g_Rules g +:+ nl)) /\
  g_Tier g ∈ ["T0"; "T1"; "T2"; "T3"] /\ (g_Tier g = "T0" \/ g_Tier g = "T1" -> allow = true) /\
  respects_tier lower (g_Tier g) (g_Rules g).

Lemma check_gene_ok allow g : check_gene sha256 lower allow g = Some None <-> admissible allow g.
Proof.
  unfold check_gene, admissible. pose proof (Verify_iff g) as Hv. unfold canonical, preamble in Hv.
  destruct (gene_Verify sha256 g); [split; [done|]; intros (H1 & H2 & _); by destruct (proj2 Hv (conj H1 H2))|].
  destruct (proj1 Hv eq_refl) as [H1 H2]. pose proof (validTier_iff (g_Tier g)) as Ht.
  destruct (validTier (g_Tier g)); cbn [negb]; [|split; [done|]; intros (_ & _ & H & _); by apply Ht in H].
  rewrite <- checkTierConsistency_ok by by apply Ht. unfold isHardTier.
  destruct (String.eqb_spec (g_Tier g) TierT0_Axiom) as [E0|E0], (String.eqb_spec (g_Tier g) TierT1_Governance) as [E1|E1], allow;
    cbn [orb andb negb]; unfold TierT0_Axiom, TierT1_Governance in *; naive_solver.
Qed.

(** The rules of the genes, each after a comment that names it. *)
Definition program_text (genes : list Gene) : string :=
  foldr (fun g acc => nl +:+ "% gene: " +:+ g_Name g +:+ " | tier: " +:+ g_Tier g +:+ " | source: " +:+ g_Source g +:+ nl
                      +:+ trim_space (g_Rules g) +:+ nl +:+ acc) "" genes.

Lemma program_text_cons g genes : program_text (g :: genes) = gene_text g +:+ program_text genes.
Proof. unfold gene_text. cbn [program_text foldr]. by rewrite !str_app_assoc. Qed.

Lemma compile_genes_ok allow genes text :
  compile_genes sha256 lower allow genes = Some (Ok text) <-> Forall (admissible allow) genes /\ text = program_text genes.
Proof.
  revert text. induction genes as [|g genes IH]; intros text; cbn [compile_genes].
  { split; [by intros [= <-]|by intros [_ ->]]. }
  rewrite Forall_cons, program_text_cons. destruct (check_gene sha256 lower allow g) as [[e|]|] eqn:Hc; cbn [mbind option_bind].
  - split; [done|]. intros [[Hg _] _]. apply check_gene_ok in Hg. congruence.
  - apply check_gene_ok in Hc. destruct (compile_genes sha256 lower allow genes) as [[t|e]|]; cbn [mbind option_bind].
    + split.
      * intros [= <-]. destruct (proj1 (IH t) eq_refl) as [Hall ->]. done.
      * intros [[_ Hall] ->]. assert (Some (Ok t) = Some (Ok (E := error) (program_text genes))) as [= ->]; [|done]. by apply IH.
    + split; [done|]. intros [[_ Hall] _]. by pose proof (proj2 (IH _) (conj Hall eq_refl)).
    + split; [done|]. intros [[_ Hall] _]. by pose proof (proj2 (IH _) (conj Hall eq_refl)).
  - split; [done|]. intros [[Hg _] _]. apply check_gene_ok in Hg. congruence.
Qed.


(** Genes that do not compile leave the client as it was. *)
Theorem ApplyTo_atomic {C : Type} load allow genes (c c' : C) err :
  (forall src, Compile sha256 lower allow genes <> Some (Ok src)) ->
  ApplyTo sha256 lower load allow genes c = Some (c', err) -> c' = c /\ is_Some err.
Proof.
  unfold ApplyTo. intros Hc. destruct (Compile sha256 lower allow genes) as [[src|e]|]; [by destruct (Hc src)| |done].
  cbn. intros [= <- <-]. split; [done|by eexists].
Qed.
End Compilation.

(** ** Pools *)

Definition pool_gene (g : Gene) : Prop :=
  gene_Verify sha256 g = None /\ validTier (g_Tier g) = true /\ g_Rules g <> "" /\ g_Name g <> "".

Lemma load_gene_ok mg g : load_gene sha256 mg = Ok g -> mg_Name mg <> "" -> pool_gene g /\ g_Name g = mg_Name mg.
Proof.
  unfold load_gene. intros Hl Hn. destruct (validTier (mg_Tier mg)) eqn:Ht; [|done]. cbn in Hl.
  destruct (String.eqb_spec (mg_Rules mg) "") as [|Hr]; [done|]. destruct (String.eqb (mg_Signature mg) ""); [done|].
  unfold SetSignatureHex in Hl. destruct (hex_DecodeString (mg_Signature mg)) as [raw|]; [|done].
  destruct (Nat.eqb _ 32); [|done]. destruct (gene_Verify sha256 _) eqn:Hv in Hl; [done|]. injection Hl as <-.
  by split_and!.
Qed.

Lemma load_genes_ok seen mgs gs : load_genes sha256 seen mgs = Ok gs ->
  Forall pool_gene gs /\ NoDup (map g_Name gs) /\ Forall (fun n => n ∉ seen) (map g_Name gs).
Proof.
  revert seen gs. induction mgs as [|mg mgs IH]; intros seen gs; cbn [load_genes].
  { intros [= <-]. split_and!; constructor. }
  destruct (String.eqb_spec (mg_Name mg) "") as [|Hn]; [done|]. cbn [orb]. case_bool_decide as Hseen; [done|].
  destruct (load_gene sha256 mg) as [g|] eqn:Hg; [|done]. destruct (load_genes sha256 _ mgs) as [gs'|] eqn:Hr; [|done].
  intros [= <-]. apply IH in Hr as (Hall & Hnd & Hfresh). apply load_gene_ok in Hg as [Hp Hname]; [|done].
  split_and!.
  - by constructor.
  - cbn. apply NoDup_cons. split; [|done]. rewrite Hname. intros Hin. rewrite Forall_forall in Hfresh.
    apply (Hfresh _ Hin). set_solver.
  - cbn. constructor; [by rewrite Hname|]. eapply Forall_impl; [exact Hfresh|]. set_solver.
Qed.

(** A pool loads only intact: every gene of a loaded pool has a distinct
    non-empty name, a governance tier, rules, and a signature over its
    current fields; and the genes an intent activates are among them. *)
Theorem LoadPool_intact decode text p : LoadPool sha256 decode text = Ok p ->
  Forall pool_gene (p_genes p) /\ NoDup (map g_Name (p_genes p)) /\
  forall intent g, g ∈ Active intent p -> g ∈ p_genes p /\ active_for intent g = true.
Proof.
  intros Hl. assert (Forall pool_gene (p_genes p) /\ NoDup (map g_Name (p_genes p))) as [Hall Hnd].
  { unfold LoadPool in Hl. destruct (decode text) as [[m|]|]; [|injection Hl as <-; split; constructor|done].
    destruct (negb _); [done|]. destruct (load_genes sha256 ∅ (m_Genes m)) as [gs|] eqn:Hg; [|done].
    injection Hl as <-. by apply load_genes_ok in Hg as (? & ? & _). }
  split_and!; [done..|]. intros intent g Hin. unfold Active in Hin.
  apply list_elem_of_In, filter_In in Hin as [Hin Ha]. split; [|done].
  apply list_elem_of_In in Hin. unfold Genes in Hin. by rewrite merge_sort_Permutation in Hin.
Qed.

Lemma load_to_manifest g : pool_gene g -> String.length (g_Signature g) = 32 -> load_gene sha256 (to_manifest g) = Ok g.
Proof.
  intros (Hv & Ht & Hr & Hn) Hlen. unfold load_gene. cbn [to_manifest mg_Tier mg_Rules mg_Signature mg_Name]. rewrite Ht. cbn [negb].
  destruct (String.eqb_spec (g_Rules g) ""); [done|]. unfold SignatureHex.
  destruct (String.eqb_spec (hex_EncodeToString (g_Signature g)) "") as [Hs|_].
  { exfalso. destruct (g_Signature g); [by cbn in Hlen|]. by cbn in Hs. }
  unfold SetSignatureHex. rewrite hex_roundtrip, Hlen. cbn [Nat.eqb].
  assert (set_signature (g_Signature g) (unsigned_gene (to_manifest g)) = g) as Hg.
  { apply Verify_iff in Hv as [Hs _]. destruct g; cbn in *. by subst. }
  by rewrite Hg, Hv.
Qed.

(** C28: Pools round-trip through their YAML file.  For genes with distinct
    non-empty names, a governance tier (T0 to T3), non-empty rules, and a
    32-byte signature over their current fields, [WritePool] writes the
    encoding of the manifest with the genes' fields in order and the signature
    in hexadecimal; and when the YAML decoder gives back the manifest that was
    encoded, [LoadPool] of the written text gives back the same genes. *)
Theorem pool_roundtrip (encode : manifest -> res error string) (decode : string -> res error (option manifest)) genes text :
  Forall (fun g => g_Name g <> "" /\ g_Tier g ∈ ["T0"; "T1"; "T2"; "T3"] /\ g_Rules g <> "" /\
                   gene_Verify sha256 g = None /\ String.length (g_Signature g) = 32) genes ->
  NoDup (map g_Name genes) ->
  let m := {| m_Version := 1;
              m_Genes := map (fun g => {| mg_Name := g_Name g; mg_Tier := g_Tier g; mg_Source := g_Source g; mg_Intents := g_Intents g;
                                          mg_Rules := g_Rules g; mg_Signature := hex_EncodeToString (g_Signature g) |}) genes |} in
  WritePool encode genes = encode m /\
  (encode m = Ok text -> decode text = Ok (Some m) -> LoadPool sha256 decode text = Ok {| p_genes := genes |}).
Proof.
  intros Hall Hnd m.
  assert (Forall (fun g => pool_gene g /\ String.length (g_Signature g) = 32) genes) as Hp.
  { eapply Forall_impl; [exact Hall|]. intros g (Hn & Ht & Hr & Hv & Hl). split; [|done]. split_and!; try done.
    unfold validTier. rewrite !elem_of_cons in Ht. destruct Ht as [->|[->|[->|[->|[]%elem_of_nil]]]]; done. }
  split.
  - unfold WritePool. assert (res_mapM (fun g => if g_Signed g then Ok (to_manifest g)
      else Err (EText ("x/genes: gene " +:+ go_quote (g_Name g) +:+ " is not signed"))) genes = Ok (map to_manifest genes)) as ->; [|done].
    clear -Hp. induction Hp as [|g genes [(Hv & _) _] _ IH]; [done|]. apply Verify_iff in Hv as [Hs _]. cbn [res_mapM map]. rewrite Hs. cbn [res_bind]. by rewrite IH.
  - intros _ Hd. unfold LoadPool. rewrite Hd. cbn [m_Version m_Genes m Z.eqb negb].
    assert (forall seen, Forall (fun n => n ∉ seen) (map g_Name genes) -> load_genes sha256 seen (map to_manifest genes) = Ok genes) as Hload.
    { clear -Hp Hnd. induction Hp as [|g genes [Hg Hlen] Hp IH]; intros seen Hfresh; [done|].
      cbn in Hnd, Hfresh. apply NoDup_cons in Hnd as [Hni Hnd]. apply Forall_cons in Hfresh as [Hn Hfresh].
      cbn [map load_genes]. rewrite load_to_manifest by done. cbn [to_manifest mg_Name].
      destruct Hg as (_ & _ & _ & Hne). apply String.eqb_neq in Hne. rewrite Hne. rewrite bool_decide_eq_false_2 by done. cbn [orb].
      rewrite IH; [done|done|]. rewrite Forall_forall in Hfresh |- *. intros x Hx. specialize (Hfresh x Hx). set_solver. }
    change (map _ genes) with (map to_manifest genes). rewrite Hload; [done|]. apply Forall_forall. set_solver.
Qed.

End Props.

(** ** Concrete genes *)

(** A stand-in for the hash that keeps the first 32 bytes. *)
Definition demo_sha (s : string) : string := str_take 32 (s +:+ "--------------------------------").

Definition demo_gene (tier rules : string) : Gene :=
  Sign demo_sha {| g_Name := "spam"; g_Tier := tier; g_Source := "review 12"; g_Intents := ["mail"]; g_Rules := rules;
                   g_Signature := ""; g_Signed := false |}.
Definition quote_sq (s : string) : string := dq +:+ s +:+ dq.
Definition advisory_rule : string :=
  "halt(Req, " +:+ quote_sq "spam" +:+ ", " +:+ quote_sq "T2" +:+ ") :- spam(Req).".

Lemma demo_pool_gene : pool_gene demo_sha (demo_gene "T2" advisory_rule).
Proof. split_and!; [by_vm|by_vm|done|done]. Qed.

(** A codec: the fields in hexadecimal, separated by commas, the genes by bars. *)
Definition field_line (fields : list string) : string := join "," (map hex_EncodeToString fields).
Definition demo_Encode (m : manifest) : res error string :=
  if (m_Version m =? 1)%Z
  then Ok (join "|" ("v1" :: map (fun g => field_line ([mg_Name g; mg_Tier g; mg_Source g; mg_Rules g; mg_Signature g] ++ mg_Intents g)%list) (m_Genes m)))
  else Err (EText "version").
Definition demo_gene_line (line : string) : res error manifestGene :=
  match mapM hex_DecodeString (split_on c_comma line) with
  | Some (name :: tier :: source :: rules :: sig :: intents) =>
      Ok {| mg_Name := name; mg_Tier := tier; mg_Source := source; mg_Intents := intents; mg_Rules := rules; mg_Signature := sig |}
  | _ => Err (EText "gene")
  end.
Definition demo_Decode (text : string) : res error (option manifest) :=
  match split_on "|" text with
  | "v1" :: lines => match res_mapM demo_gene_line lines with Ok gs => Ok (Some {| m_Version := 1; m_Genes := gs |}) | Err e => Err e end
  | _ => Err (EText "version")
  end.

Definition demo_text : string :=
  match WritePool demo_Encode [demo_gene "T2" advisory_rule] with Ok text => text | Err _ => "" end.

Lemma emits_demo : emits_only id "T2" advisory_rule.
Proof. apply tierInHead_ok; [by apply validTier_iff|]. exists "T2". split; [by_vm|by right]. Qed.


Lemma pool_roundtrip_witness :
  WritePool demo_Encode [demo_gene "T2" advisory_rule] = Ok demo_text /\
  LoadPool demo_sha demo_Decode demo_text = Ok {| p_genes := [demo_gene "T2" advisory_rule] |}.
Proof.
  destruct (pool_roundtrip demo_sha demo_Encode demo_Decode [demo_gene "T2" advisory_rule] demo_text) as [Hw Hl].
  - apply Forall_singleton. split_and!; [done|set_solver|done|by_vm|done].
  - apply NoDup_singleton.
  - split; [rewrite Hw; by_vm|]. apply Hl; by_vm.
Defined.

Lemma LoadPool_intact_witness : exists p,
  LoadPool demo_sha demo_Decode demo_text = Ok p /\ Forall (pool_gene demo_sha) (p_genes p).
Proof.
  exists {| p_genes := [demo_gene "T2" advisory_rule] |}.
  assert (LoadPool demo_sha demo_Decode demo_text = Ok {| p_genes := [demo_gene "T2" advisory_rule] |}) as Hl by by_vm.
  split; [exact Hl|]. apply (LoadPool_intact demo_sha _ _ _ Hl).
Defined.

(** The identity is a hash without collisions. *)
Lemma signature_binds_fields_witness :
  let g := Sign id (demo_gene "T2" advisory_rule) in
  let g' := set_signature (g_Signature g) (unsigned_gene (to_manifest g)) in
  g_Rules g = g_Rules g'.
Proof.
  intros g g'. assert (clean_gene g) as Hc by (split_and!; [reflexivity..|]; repeat constructor; done).
  apply (signature_binds_fields id g g' (fun x y H => H) Hc Hc); by_vm.
Defined.

(** ** What the discipline misses *)

(** Two different intent lists have the same signature: the intents of a
    signed gene can be regrouped without being noticed. *)
Theorem regrouped_intents_verify sha256 name tier source rules :
  let gene intents := {| g_Name := name; g_Tier := tier; g_Source := source; g_Intents := intents; g_Rules := rules;
                         g_Signature := ""; g_Signed := false |} in
  gene_Verify sha256 (set_signature (g_Signature (Sign sha256 (gene ["read"; "mail"]))) (gene ["read mail"])) = None.
Proof. intros gene. by apply Verify_iff. Qed.

(** The tier check splits arguments at commas inside quoted text: an
    advisory gene whose reason contains a comma may emit a blocking tier. *)
Theorem blocking_rule_in_advisory_gene lower :
  exists src, Compile demo_sha lower false
    [demo_gene "T2" ("halt(Req, " +:+ quote_sq "no, never" +:+ ", " +:+ quote_sq "T1" +:+ ") :- spam(Req).")] = Some (Ok src).
Proof. eexists. vm_compute. reflexivity. Qed.

(** It reads only the head before the first [:-] of a line, so a second rule
    on a line is not checked. *)
Theorem second_rule_unchecked lower :
  exists src, Compile demo_sha lower false
    [demo_gene "T2" ("p(X) :- q(X). halt(Req, M, " +:+ quote_sq "T1" +:+ ") :- spam(Req).")] = Some (Ok src).
Proof. eexists. vm_compute. reflexivity. Qed.

(** A rule without a tier argument passes as well, although [halt/2] blocks. *)
Theorem untiered_halt_compiles lower :
  exists src, Compile demo_sha lower false [demo_gene "T2" "halt(Req, M) :- spam(Req, M)."] = Some (Ok src).
Proof. eexists. vm_compute. reflexivity. Qed.

(** Control: the plain mismatch is refused. *)
Example plain_mismatch_refused lower :
  exists e, Compile demo_sha lower false
    [demo_gene "T2" ("halt(Req, M, " +:+ quote_sq "T1" +:+ ") :- spam(Req).")] = Some (Err e).
Proof. eexists. vm_compute. reflexivity. Qed.

(** The position of the predicate is found in the lower-case text and used in
    the original: when lower-casing grows the text (the two bytes of U+023A
    become three), the slice is out of range. *)
Definition upper_A : string := String (byte 200) (String (byte 186) "").
Definition lower_A : string := String (byte 226) (String (byte 177) (String (byte 165) "")).

Theorem lowercase_growth_panics (lower : string -> string) :
  let rules := String.concat "" (repeat upper_A 6) +:+ "halt(" in
  lower rules = String.concat "" (repeat lower_A 6) +:+ "halt(" ->
  Compile demo_sha lower false [demo_gene "T2" rules] = None.
Proof.
  intros rules Hl. assert (trim_space rules = rules) as Ht by by_vm.
  assert (tierInHead lower rules = None) as Htier.
  { unfold tierInHead. replace (index_of rules ":-") with (@None nat) by by_vm. cbn [tier_of_head].
    replace (to_lower lower rules) with (lower rules) by reflexivity. rewrite Hl. by_vm. }
  assert (gene_Verify demo_sha (demo_gene "T2" rules) = None) as Hv by by_vm.
  assert (to_lower lower rules = lower rules) as Hto by reflexivity.
  assert (contains (lower rules) "halt(" = true) as Hc by (rewrite Hl; by_vm).
  assert (split_on c_nl rules = [rules]) as Hs by by_vm.
  assert (String.eqb rules "" || has_prefix rules "%" = false) as Hskip by by_vm.
  clearbody rules. unfold Compile. cbn [compile_genes]. unfold check_gene. rewrite Hv.
  change (g_Tier (demo_gene "T2" rules)) with "T2". cbn -[checkTierConsistency].
  unfold checkTierConsistency. change (g_Rules (demo_gene "T2" rules)) with rules.
  rewrite Hto, Hc, Hs. cbn [negb andb check_lines]. by rewrite Ht, Hskip, Htier.
Qed.
