(* ===== verification/Knowledge.v ===== *)
(** * Knowledge readers

    [adapters/knowledge]: the N-Triples reader (ntriples.go), the N-Quads
    reader (nquads.go) and the graph files of the CLI (graph_loader.go), from
    file contents to Datalog facts.  Contents are valid UTF-8, on which the
    rune loops act byte by byte; an out-of-range slice, which panics, is
    [None].  The RDF loader (rdf.go) wraps an external decoder and is left
    out. *)
From S2P Require Import Prelude GoStrings CoreErrors Facts.
From Stdlib Require Import Ascii String.
Open Scope string_scope.

(** ** Lines ([bufio.Scanner]) *)

Definition maxScanTokenSize : nat := Nat.pow 2 16.
Definition err_too_long : error := EText "bufio.Scanner: token too long".

Definition drop_cr (l : string) : string := trim_suffix l (String c_cr "").

(** The lines before the first one that does not fit the buffer. *)
Fixpoint scan_tokens (lines : list string) : list string * option error :=
  match lines with
  | [] => ([], None)
  | [""] => ([], None)               (* the text after the last line break *)
  | l :: rest =>
      if (maxScanTokenSize <=? String.length l)%nat then ([], Some err_too_long)
      else let '(ls, e) := scan_tokens rest in (drop_cr l :: ls, e)
  end.
Definition scan_lines (content : string) : list string * option error := scan_tokens (split_on c_nl content).

(** Lines that carry a statement, trimmed. *)
Definition statement_lines (lines : list string) : list string :=
  List.filter (fun l => negb (String.eqb l "" || has_prefix l "#")) (map trim_space lines).

(** ** N-Triples *)

(** [strings.Index] of a space, and [strings.SplitN(line, " ", 3)]. *)
Definition cut_space (s : string) : option (string * string) :=
  i ← index_of s " "; Some (str_take i s, str_drop (S i) s).
Definition split_n3 (line : string) : option (string * string * string) :=
  '(a, r) ← cut_space line; '(b, c) ← cut_space r; Some (a, b, c).

(** [s[1:len(s)-1]], which panics for a single byte. *)
Definition unwrap_ends (s : string) : option string :=
  if (2 <=? String.length s)%nat then Some (str_take (String.length s - 2) (str_drop 1 s)) else None.

Definition wrapped (s l r : string) : bool := has_prefix s l && has_suffix s r.

Definition clean (s : string) : option string := if wrapped s "<" ">" then unwrap_ends s else Some s.

(** [strings.LastIndex] of a quote. *)
Fixpoint last_quote (s : string) : option nat :=
  match s with
  | "" => None
  | String c s' => match last_quote s' with
                   | Some i => Some (S i)
                   | None => if Ascii.eqb c c_dq then Some 0 else None
                   end
  end.

Definition cleanObject (s : string) : option string :=
  let s := trim_space (trim_suffix (trim_space s) ".") in
  if wrapped s "<" ">" then unwrap_ends s
  else if has_prefix s dq then
    if has_suffix s dq then unwrap_ends s
    else match last_quote s with
         | Some (S i) => Some (str_take i (str_drop 1 s))
         | _ => Some s
         end
  else Some s.

Definition escape (s : string) : string :=
  replace_all dq (String c_bs dq) (replace_all (String c_bs "") (String c_bs (String c_bs "")) s).

Definition triple_fact (s p o : string) : string :=
  "triple(" +:+ quoted (escape s) +:+ ", " +:+ quoted (escape p) +:+ ", " +:+ quoted (escape o) +:+ ")".

(** A statement line: skipped ([Some None]), a fact, or a panic. *)
Definition ntriple_line (line : string) : option (option string) :=
  match split_n3 line with
  | None => Some None
  | Some (a, b, c) => s ← clean a; p ← clean b; o ← cleanObject c; Some (Some (triple_fact s p o))
  end.

Definition ParseNTriples (content : string) : option (res error (list string)) :=
  let '(lines, err) := scan_lines content in
  facts ← mapM ntriple_line (statement_lines lines);
  Some match err with Some e => Err e | None => Ok (omap id facts) end.

(** ** N-Quads *)

Definition DefaultGraph : string := "default".

(** The tokenizer of a line. *)
Fixpoint tokenize (s cur : string) (inQuote escaped : bool) : list string :=
  match s with
  | "" => if String.eqb cur "" then [] else [cur]
  | String c s' =>
      let cur' := cur +:+ String c "" in
      if inQuote then
        if Ascii.eqb c c_dq && negb escaped then tokenize s' cur' false escaped
        else if Ascii.eqb c c_bs && negb escaped then tokenize s' cur' true true
        else tokenize s' cur' true false
      else if Ascii.eqb c c_dq then tokenize s' cur' true escaped
      else if Ascii.eqb c c_sp || Ascii.eqb c c_tab then
        (if String.eqb cur "" then tokenize s' "" false escaped else cur :: tokenize s' "" false escaped)
      else tokenize s' cur' false escaped
  end.

Definition drop_dot (tokens : list string) : list string :=
  match last tokens with
  | Some "." => take (List.length tokens - 1) tokens
  | _ => tokens
  end.

Definition quad_fact (s p o g : string) : string :=
  "quad(" +:+ go_quote s +:+ ", " +:+ go_quote p +:+ ", " +:+ go_quote o +:+ ", " +:+ go_quote g +:+ ")".

Definition nquad_line (line : string) : option (option string) :=
  match drop_dot (tokenize line "" false false) with
  | [s; p; o] => s ← clean s; p ← clean p; o ← clean o; g ← clean DefaultGraph; Some (Some (quad_fact s p o g))
  | [s; p; o; g] => s ← clean s; p ← clean p; o ← clean o; g ← clean g; Some (Some (quad_fact s p o g))
  | _ => Some None
  end.

Definition NQuads_Parse (content : string) : option (res error (list string)) :=
  let '(lines, err) := scan_lines content in
  facts ← mapM nquad_line (statement_lines lines);
  Some match err with Some e => Err e | None => Ok (omap id facts) end.

(** ** Graph files *)

Record Triple := { tr_Subject : string; tr_Predicate : string; tr_Object : string }.

Fixpoint first_seen (seen : gset string) (l : list string) : list string :=
  match l with
  | [] => []
  | x :: rest => if decide (x ∈ seen) then first_seen seen rest else x :: first_seen ({[x]} ∪ seen) rest
  end.
Definition GetPredicates (triples : list Triple) : list string := first_seen ∅ (map tr_Predicate triples).

(** [strings.Fields]. *)
Fixpoint fields_fuel (fuel : nat) (s cur : string) : list string :=
  let emit := if String.eqb cur "" then [] else [cur] in
  match fuel, s with
  | O, _ | _, "" => emit
  | S f, String c s' =>
      match space_len s with
      | O => fields_fuel f s' (cur +:+ String c "")
      | n => (emit ++ fields_fuel f (str_drop n s) "")%list
      end
  end.
Definition strings_Fields (s : string) : list string := fields_fuel (String.length s) s "".

(** [strings.LastIndexAny(s, "/#:")]: the text after it. *)
Fixpoint after_last_sep (s : string) : option string :=
  match s with
  | "" => None
  | String c s' => match after_last_sep s' with
                   | Some r => Some r
                   | None => if in_cutset "/#:" c then Some s' else None
                   end
  end.

Definition SanitizePredicate (raw : string) : string :=
  if String.eqb raw "a" then "type"
  else
    let s := trim_cut raw "<>" in
    let s := default s (after_last_sep s) in
    replace_all "." "_" (replace_all "-" "_" s).

Definition splitLineRespectingQuotes (s : string) : list string := strings_Fields s.

(** ASCII white space, the [\s] class. *)
Definition re_space (c : ascii) : bool :=
  let z := bval c in ((z =? 9) || (z =? 10) || (z =? 12) || (z =? 13) || (z =? 32))%Z.

Fixpoint skip_while (f : ascii -> bool) (s : string) : string :=
  match s with "" => "" | String c s' => if f c then skip_while f s' else s end.

(** The text after [<...>] with something inside. *)
Definition after_iri (s : string) : option string :=
  match s with
  | String "<" (String c s') =>
      if Ascii.eqb c ">" then None
      else match skip_while (fun d => negb (Ascii.eqb d ">")) s' with
           | String _ rest => Some rest
           | "" => None
           end
  | _ => None
  end.
(** The text after a blank node label. *)
Definition after_bnode (s : string) : option string :=
  match s with
  | String "_" (String ":" (String c s')) => if re_space c then None else Some (skip_while (fun d => negb (re_space d)) s')
  | _ => None
  end.
Definition after_spaces (s : string) : option string :=
  match s with String c s' => if re_space c then Some (skip_while re_space s') else None | "" => None end.

(** A space directly before a dot. *)
Fixpoint has_space_dot (s : string) : bool :=
  match s with
  | String c (String d _ as s') => (re_space c && Ascii.eqb d ".") || has_space_dot s'
  | _ => false
  end.

Definition after_subject (s : string) : option string :=
  match after_iri s with Some r => Some r | None => after_bnode s end.

(** The statement pattern on a trimmed line: subject, predicate, and after at
    least one space a text that ends with space and dot. *)
Definition statement_re (line : string) : bool :=
  match r ← after_subject line; r ← after_spaces r; after_iri r with
  | Some (String c r) => re_space c && has_space_dot r
  | _ => false
  end.

Definition nq_triple (line : string) : option Triple :=
  if statement_re line then
    match splitLineRespectingQuotes line with
    | s :: p :: o :: _ => Some {| tr_Subject := s; tr_Predicate := SanitizePredicate p; tr_Object := o |}
    | _ => None
    end
  else None.

Definition parseNQuads (content : string) : list Triple * option error :=
  let '(lines, err) := scan_lines content in (omap nq_triple (statement_lines lines), err).

(** *** Turtle *)

Inductive TurtleState := StateSubject | StatePredicate | StateObject.

Fixpoint turtle_tokens (tokens : list string) (state : TurtleState) (subject predicate : string) : list Triple :=
  match tokens with
  | [] => []
  | t :: rest =>
      if String.eqb t "" then turtle_tokens rest state subject predicate
      else if String.eqb t "." then turtle_tokens rest StateSubject subject predicate
      else if String.eqb t ";" then turtle_tokens rest StatePredicate subject predicate
      else if String.eqb t "," then turtle_tokens rest StateObject subject predicate
      else match state with
           | StateSubject => turtle_tokens rest StatePredicate t predicate
           | StatePredicate => turtle_tokens rest StateObject subject (SanitizePredicate t)
           | StateObject => {| tr_Subject := subject; tr_Predicate := predicate; tr_Object := t |}
                            :: turtle_tokens rest StateObject subject predicate
           end
  end.

Definition turtle_text (content : string) : string :=
  let lines := List.filter (fun l => negb (has_prefix l "#" || has_prefix l "@prefix" || has_prefix l "@base"))
                 (map trim_space (split_on c_nl content)) in
  let text := join " " lines in
  replace_all "," " , " (replace_all "." " . " (replace_all ";" " ; " text)).

Definition parseTurtle (content : string) : list Triple :=
  turtle_tokens (strings_Fields (turtle_text content)) StateSubject "" "".

(** *** Facts *)

Section Cast.
(** Whether [strconv.ParseFloat] accepts a text. *)
Context (is_float : string -> bool).

Definition smartCast (val : string) : option string :=
  let val := match index_of val "^^" with Some i => str_take i val | None => val end in
  let val := trim_space val in
  val ← (if wrapped val "<" ">" then unwrap_ends val else Some val);
  let cleanVal := trim_cut val dq in
  Some (if is_float cleanVal then
          if has_prefix cleanVal "0" && negb (String.eqb cleanVal "0") && negb (has_prefix cleanVal "0.")
          then go_quote cleanVal else cleanVal
        else go_quote cleanVal).

Definition graph_fact (t : Triple) : option string :=
  obj ← smartCast (tr_Object t);
  Some (tr_Predicate t +:+ "(" +:+ go_quote (trim_cut (tr_Subject t) "<>") +:+ ", " +:+ obj +:+ ").").

Definition TriplesToFacts (triples : list Triple) : option (list string) := mapM graph_fact triples.
End Cast.
