(* ===== verification/KnowledgeProps.v ===== *)
(** * Properties of the knowledge readers

    Facts of the N-Triples reader read back to their terms, printed N-Quads
    parse back, and the closed examples of statements the readers corrupt. *)
From S2P Require Import Prelude GoStrings CoreErrors Facts Knowledge.
From Stdlib Require Import Ascii String.
Open Scope string_scope.

(** ** Escaping *)

Definition escape1 (c : ascii) : string :=
  if Ascii.eqb c c_bs then String c_bs (String c_bs "")
  else if Ascii.eqb c c_dq then String c_bs dq
  else String c "".

Fixpoint escape_all (s : string) : string := match s with "" => "" | String c s' => escape1 c +:+ escape_all s' end.

Lemma replace_byte_cons c new d s :
  replace_all (String c "") new (String d s)
  = (if Ascii.eqb d c then new else String d "") +:+ replace_all (String c "") new s.
Proof.
  unfold replace_all. cbn [replace_all_aux String.length Nat.sub]. unfold has_prefix. cbn [String.prefix].
  destruct (ascii_dec c d) as [-> |Hne].
  - rewrite Ascii.eqb_refl. by destruct s.
  - by rewrite (proj2 (Ascii.eqb_neq d c)) by congruence.
Qed.

Lemma escape_eq s : escape s = escape_all s.
Proof.
  unfold escape. induction s as [|c s IH]; [done|]. rewrite replace_byte_cons. cbn [escape_all]. unfold escape1.
  destruct (Ascii.eqb c c_bs) eqn:Hb.
  - change (String c_bs (String c_bs "") +:+ ?r) with (String c_bs (String c_bs r)). unfold dq at 1.
    rewrite !replace_byte_cons. change (Ascii.eqb c_bs c_dq) with false. cbv iota. fold dq. rewrite IH. done.
  - change (String c "" +:+ ?r) with (String c r). unfold dq at 1. rewrite replace_byte_cons. fold dq.
    rewrite IH. by destruct (Ascii.eqb c c_dq).
Qed.

Lemma read_const_escape1 c s :
  read_const (escape1 c +:+ s) = match read_const s with Some (v, r) => Some (String c v, r) | None => None end.
Proof. destruct c as [[] [] [] [] [] [] [] []]; vm_compute escape1; cbn; reflexivity. Qed.

(** An escaped text inside quotes reads back as the text. *)
Lemma read_const_escaped s rest : read_const (escape s +:+ dq +:+ rest) = Some (s, rest).
Proof.
  rewrite escape_eq. induction s as [|c s IH]; [reflexivity|].
  cbn [escape_all]. by rewrite <- str_app_assoc, read_const_escape1, IH.
Qed.

(** Reference reader of [triple("a", "b", "c")]. *)
Definition read_triple (s : string) : option (string * string * string) :=
  r1 ← strip_prefix ("triple(" +:+ dq) s;
  '(a, r2) ← read_const r1;
  r3 ← strip_prefix (", " +:+ dq) r2;
  '(b, r4) ← read_const r3;
  r5 ← strip_prefix (", " +:+ dq) r4;
  '(c, r6) ← read_const r5;
  if String.eqb r6 ")" then Some (a, b, c) else None.

Lemma read_triple_fact s p o : read_triple (triple_fact s p o) = Some (s, p, o).
Proof.
  assert (triple_fact s p o = ("triple(" +:+ dq) +:+ (escape s +:+ dq +:+ ((", " +:+ dq) +:+ (escape p +:+ dq +:+ ((", " +:+ dq) +:+
            (escape o +:+ dq +:+ ")")))))) as ->.
  { unfold triple_fact, quoted. by rewrite <- !str_app_assoc. }
  unfold read_triple. rewrite strip_prefix_app. cbn [mbind option_bind]. rewrite read_const_escaped. cbn [mbind option_bind].
  rewrite strip_prefix_app. cbn [mbind option_bind]. rewrite read_const_escaped. cbn [mbind option_bind].
  rewrite strip_prefix_app. cbn [mbind option_bind]. rewrite read_const_escaped. done.
Qed.

(** C25: statements cannot inject facts: every fact the N-Triples reader emits
    reads back as one triple, whose terms are the cleaned parts of one
    statement line of the input, whatever quotes and backslashes they hold. *)
Theorem ntriples_no_injection content facts f :
  ParseNTriples content = Some (Ok facts) -> f ∈ facts ->
  exists line a b c s p o, line ∈ statement_lines (fst (scan_lines content)) /\
    split_n3 line = Some (a, b, c) /\ clean a = Some s /\ clean b = Some p /\ cleanObject c = Some o /\
    read_triple f = Some (s, p, o).
Proof.
  unfold ParseNTriples. destruct (scan_lines content) as [lines err]. cbn [fst].
  intros (outs & Hm & Hr)%bind_Some Hf. destruct err; [done|]. injection Hr as <-.
  apply list_elem_of_omap in Hf as (out & Hin & Hout). cbn in Hout. subst out.
  apply mapM_Some in Hm. apply list_elem_of_lookup in Hin as [i Hi].
  destruct (Forall2_lookup_r _ _ _ _ _ Hm Hi) as (line & Hline & Hl).
  unfold ntriple_line in Hl. destruct (split_n3 line) as [[[a b] c]|] eqn:Hs; [|done].
  apply bind_Some in Hl as (s & Ha & Hl). apply bind_Some in Hl as (p & Hb & Hl). apply bind_Some in Hl as (o & Hc & [= <-]).
  exists line, a, b, c, s, p, o. split_and!; try done; [by eapply list_elem_of_lookup_2|apply read_triple_fact].
Qed.

Definition demo_nt : string := "<a> <b> " +:+ quoted ("x" +:+ String c_bs (quoted "y")) +:+ " ." +:+ nl.

Lemma ntriples_no_injection_witness :
  exists facts f s p o, ParseNTriples demo_nt = Some (Ok facts) /\ f ∈ facts /\ read_triple f = Some (s, p, o).
Proof.
  destruct (ParseNTriples demo_nt) as [[facts|e]|] eqn:Hp; [|vm_compute in Hp; discriminate..].
  destruct facts as [|f fs]; [vm_compute in Hp; discriminate|].
  destruct (ntriples_no_injection demo_nt (f :: fs) f Hp ltac:(by left)) as (_ & _ & _ & _ & s & p & o & _ & _ & _ & _ & _ & Hr).
  exists (f :: fs), f, s, p, o. split_and!; [done|by left|done].
Defined.

(** ** Panics *)

Lemma unwrap_ends_none s : unwrap_ends s = None <-> String.length s < 2.
Proof.
  unfold unwrap_ends. destruct (Nat.leb_spec 2 (String.length s)); split; try done; lia.
Qed.

Lemma wrapped_iri_long s : wrapped s "<" ">" = true -> 2 <= String.length s.
Proof.
  unfold wrapped. intros [Hp Hs]%andb_true_iff. apply has_prefix_spec in Hp as [r ->]. apply has_suffix_spec in Hs as [q Hq].
  destruct r; [|cbn; lia]. destruct q as [|c [|d q]]; discriminate.
Qed.

Lemma clean_total s : is_Some (clean s).
Proof.
  unfold clean. destruct (wrapped s "<" ">") eqn:Hw; [|by eexists]. apply wrapped_iri_long in Hw.
  destruct (unwrap_ends s) eqn:Hu; [by eexists|]. apply unwrap_ends_none in Hu. lia.
Qed.

(** The object of a statement panics exactly when it is a single quote. *)
Theorem cleanObject_panics_iff s :
  cleanObject s = None <-> trim_space (trim_suffix (trim_space s) ".") = dq.
Proof.
  unfold cleanObject. set (t := trim_space _). clearbody t. split.
  - destruct (wrapped t "<" ">") eqn:Hw.
    { intros Hu%unwrap_ends_none. apply wrapped_iri_long in Hw. lia. }
    destruct (has_prefix t dq) eqn:Hp; [|done]. destruct (has_suffix t dq).
    + intros Hu%unwrap_ends_none. apply has_prefix_spec in Hp as [r ->]. rewrite str_length_app in Hu. change (String.length dq) with 1 in Hu.
      destruct r; [done|cbn in Hu; lia].
    + by destruct (last_quote t) as [[|i]|].
  - intros ->. reflexivity.
Qed.

(** So the reader of N-Triples does not return on a statement whose object
    is a lone quote. *)
Theorem lone_quote_panics : ParseNTriples ("<s> <p> " +:+ dq +:+ " ." +:+ nl) = None.
Proof. by_vm. Qed.

(** ** N-Quads *)

(** A term text without quotes and blanks. *)
Definition token (s : string) : bool :=
  negb (String.eqb s "") && all_bytes (fun c => negb (Ascii.eqb c c_dq || Ascii.eqb c c_sp || Ascii.eqb c c_tab)) s.

Lemma tokenize_app t rest cur : all_bytes (fun c => negb (Ascii.eqb c c_dq || Ascii.eqb c c_sp || Ascii.eqb c c_tab)) t = true ->
  tokenize (t +:+ rest) cur false false = tokenize rest (cur +:+ t) false false.
Proof.
  revert cur. induction t as [|c t IH]; intros cur; [by rewrite str_app_nil_r|].
  cbn [all_bytes]. intros [Hc%negb_true_iff Ht]%andb_true_iff.
  apply orb_false_iff in Hc as [Hc Htab]. apply orb_false_iff in Hc as [Hdq Hsp].
  change (String c t +:+ rest) with (String c (t +:+ rest)). cbn [tokenize]. rewrite Hdq, Hsp, Htab. cbn [orb].
  rewrite IH by done. f_equal. by rewrite <- str_app_assoc.
Qed.

Lemma str_app_not_nil a b : a <> "" -> String.eqb (a +:+ b) "" = false.
Proof. destruct a; [done|]. intros _. done. Qed.

Lemma tokenize_token t rest : token t = true -> tokenize (t +:+ " " +:+ rest) "" false false = t :: tokenize rest "" false false.
Proof.
  unfold token. intros [Hne%negb_true_iff Ht]%andb_true_iff. rewrite tokenize_app by done.
  change ("" +:+ t) with t. change (" " +:+ rest) with (String c_sp rest). cbn [tokenize].
  change (Ascii.eqb c_sp c_dq) with false. change (Ascii.eqb c_sp c_sp || Ascii.eqb c_sp c_tab) with true. cbv iota. by rewrite Hne.
Qed.

Definition iri (s : string) : string := "<" +:+ s +:+ ">".

Lemma iri_token s : all_bytes (fun c => negb (Ascii.eqb c c_dq || Ascii.eqb c c_sp || Ascii.eqb c c_tab)) s = true -> token (iri s) = true.
Proof. intros Hs. unfold token, iri. rewrite !all_bytes_cat, Hs. done. Qed.

Lemma clean_iri s : clean (iri s) = Some s.
Proof.
  unfold clean, wrapped, iri.
  assert (has_prefix ("<" +:+ s +:+ ">") "<" = true) as -> by (apply has_prefix_spec; by exists (s +:+ ">")).
  assert (has_suffix ("<" +:+ s +:+ ">") ">" = true) as -> by (rewrite str_app_assoc; apply has_suffix_app).
  cbn [andb]. unfold unwrap_ends. rewrite !str_length_app. change (String.length "<") with 1. change (String.length ">") with 1.
  rewrite (proj2 (Nat.leb_le 2 _)) by lia. change (str_drop 1 ("<" +:+ s +:+ ">")) with (s +:+ ">").
  replace (1 + (String.length s + 1) - 2) with (String.length s) by lia. by rewrite str_take_app.
Qed.

(** Printed statements parse back: a line of four IRIs without quotes and
    blanks, and one of three, becomes the quad of exactly these terms, the
    default graph for a triple. *)
Theorem nquads_roundtrip s p o g :
  (forall x, x ∈ [s; p; o; g] -> all_bytes (fun c => negb (Ascii.eqb c c_dq || Ascii.eqb c c_sp || Ascii.eqb c c_tab)) x = true) ->
  nquad_line (iri s +:+ " " +:+ (iri p +:+ " " +:+ (iri o +:+ " " +:+ (iri g +:+ " " +:+ ".")))) = Some (Some (quad_fact s p o g)) /\
  nquad_line (iri s +:+ " " +:+ (iri p +:+ " " +:+ (iri o +:+ " " +:+ "."))) = Some (Some (quad_fact s p o DefaultGraph)).
Proof.
  intros Hx. assert (token (iri s) = true /\ token (iri p) = true /\ token (iri o) = true /\ token (iri g) = true) as (Hs & Hp & Ho & Hg)
    by (split_and!; apply iri_token, Hx; set_solver).
  unfold nquad_line. split; rewrite !tokenize_token by done; change (tokenize "." "" false false) with ["."].
  - change (drop_dot [iri s; iri p; iri o; iri g; "."]) with [iri s; iri p; iri o; iri g]. cbv iota beta. by rewrite !clean_iri.
  - change (drop_dot [iri s; iri p; iri o; "."]) with [iri s; iri p; iri o]. cbv iota beta. by rewrite !clean_iri.
Qed.

Lemma nquads_roundtrip_witness :
  nquad_line (iri "ex:s" +:+ " " +:+ (iri "ex:p" +:+ " " +:+ (iri "ex:o" +:+ " " +:+ (iri "ex:g" +:+ " " +:+ "."))))
  = Some (Some (quad_fact "ex:s" "ex:p" "ex:o" "ex:g")).
Proof. apply (nquads_roundtrip "ex:s" "ex:p" "ex:o" "ex:g"). intros x Hx.
  repeat (apply elem_of_cons in Hx as [-> |Hx]; [reflexivity|]). by apply not_elem_of_nil in Hx. Defined.

(** ** Corrupted statements *)

(** Dots split the IRIs of a Turtle file, so a statement about IRIs with host
    names yields no triple at all. *)
Theorem turtle_splits_iris :
  parseTurtle "<http://ex.org/a> <http://ex.org/knows> <http://ex.org/b> ." = [].
Proof. by_vm. Qed.

(** A literal with a space is cut at the space. *)
Theorem literal_cut_at_space :
  parseNQuads ("<s> <p> " +:+ quoted "hello world" +:+ " ." +:+ nl)
  = ([{| tr_Subject := "<s>"; tr_Predicate := "p"; tr_Object := dq +:+ "hello" |}], None).
Proof. by_vm. Qed.

(** Texts that ParseFloat accepts but that are no Datalog numbers are emitted
    without quotes: an object named NaN becomes a variable. *)
Theorem nan_becomes_variable is_float : is_float "NaN" = true ->
  graph_fact is_float {| tr_Subject := "<s>"; tr_Predicate := "name"; tr_Object := quoted "NaN" |}
  = Some ("name(" +:+ quoted "s" +:+ ", NaN).").
Proof.
  intros Hf. unfold graph_fact, smartCast. cbn [tr_Object tr_Subject tr_Predicate].
  change (trim_space _) with (quoted "NaN"). change (wrapped (quoted "NaN") "<" ">") with false. cbn [mbind option_bind].
  change (trim_cut (quoted "NaN") dq) with "NaN". rewrite Hf. reflexivity.
Qed.
