(* ===== verification/Config.v ===== *)
(** * Configuration

    [config/loader.go] and [config/schema.go]: the expansion of environment
    references in the configuration text, defaults and validation.
    [os.Expand] is Go's standard library and modelled on byte strings; YAML
    decoding and [os.Stat] are parameters. *)
From S2P Require Import Prelude GoStrings CoreErrors Float64 CoreTypes.
From Stdlib Require Import Ascii String.
Open Scope string_scope.

(** ** Environment references *)

(** [os.Expand] as the literal bytes and references of a text. *)
Inductive Segment :=
| Lit (c : ascii)
| Ref (name : string).

Definition is_special_var (c : ascii) : bool :=
  in_cutset "*#$@!?-0123456789" c.

Definition is_alnum (c : ascii) : bool :=
  let z := bval c in
  ((z =? 95) || (48 <=? z) && (z <=? 57) || (97 <=? z) && (z <=? 122) || (65 <=? z) && (z <=? 90))%Z.

Fixpoint alnum_prefix (s : string) : string :=
  match s with
  | String c s' => if is_alnum c then String c (alnum_prefix s') else ""
  | "" => ""
  end.

(** [os.getShellName] on a non-empty text: the name and the bytes consumed. *)
Definition getShellName (s : string) : string * nat :=
  match s with
  | String "{" rest =>
      match index_of rest "}" with
      | Some O => ("", 2%nat)
      | Some i => (str_take i rest, (i + 2)%nat)
      | None => ("", 1%nat)
      end
  | String c _ => if is_special_var c then (String c "", 1%nat) else let n := alnum_prefix s in (n, String.length n)
  | "" => ("", 0%nat)
  end.

Definition c_dollar : ascii := byte 36.

Fixpoint segments_fuel (fuel : nat) (s : string) : list Segment :=
  match fuel, s with
  | O, _ | _, "" => []
  | S f, String c s' =>
      if Ascii.eqb c c_dollar && negb (String.eqb s' "") then
        let '(name, w) := getShellName s' in
        ((if String.eqb name "" then (if (0 <? w)%nat then [] else [Lit c]) else [Ref name])
         ++ segments_fuel f (str_drop w s'))%list
      else Lit c :: segments_fuel f s'
  end.
Definition segments (s : string) : list Segment := segments_fuel (String.length s) s.

Definition allowedEnvPrefixes : list string :=
  ["MANGLEKIT_"; "POLICY_"; "SERVICE_"; "LOG_"; "OTLP_"; "API_"; "GOOGLE_"; "OPENAI_"; "MCP_"].
Definition isAllowedEnvVar (name : string) : bool := existsb (has_prefix name) allowedEnvPrefixes.

Abbreviation Env := (gmap string string).

(** A reference: variable name and default. *)
Definition split_ref (key : string) : string * option string :=
  match index_of key ":-" with
  | Some i => (str_take i key, Some (str_drop (i + 2) key))
  | None => (key, None)
  end.

(** The expansion of a reference and the variable it warns about. *)
Definition expand_ref (env : Env) (key : string) : string * option string :=
  let '(varName, def) := split_ref key in
  let warn := match def with None => Some varName | Some _ => None end in
  if negb (isAllowedEnvVar varName) then (default "" def, warn)
  else match env !! varName with
       | Some v => (v, None)
       | None => (default "" def, warn)
       end.

Definition warning (varName : string) : string :=
  "${" +:+ varName +:+ "} expanded to an empty string (variable is unset or not allowlisted); " +:+
  "if this is unintentional, fix the variable name or provide a default with ${" +:+ varName +:+ ":-value}".

Definition expand_segment (env : Env) (g : Segment) : string :=
  match g with Lit c => String c "" | Ref key => fst (expand_ref env key) end.
Definition segment_warning (env : Env) (g : Segment) : option string :=
  match g with Lit _ => None | Ref key => snd (expand_ref env key) end.

(** Names in the order of their first occurrence. *)
Fixpoint distinct (seen : gset string) (l : list string) : list string :=
  match l with
  | [] => []
  | x :: rest => if decide (x ∈ seen) then distinct seen rest else x :: distinct ({[x]} ∪ seen) rest
  end.

Definition expandEnvWithDefaults (env : Env) (s : string) : string * list string :=
  (String.concat "" (map (expand_segment env) (segments s)),
   map warning (distinct ∅ (omap (segment_warning env) (segments s)))).

(** ** The configuration *)

Definition DefaultServiceName : string := "manglekit-app".
Definition DefaultLogLevel : string := "info".
Definition DefaultPolicyMaxSteps : Z := 10.
Definition DefaultPolicyEvaluationTimeout : Z := 0.
Definition KnownMemoryProviders : list string := ["inmem"; "qdrant"].
Definition KnownMCPTransports : list string := ["stdio"; "sse"].

(** Provider options ([map[string]any]) and [v, _ := opts[k].(string)]. *)
Abbreviation Options := (gmap string GoVal).
Definition option_string (opts : Options) (k : string) : string :=
  match opts !! k with Some (GStr v) => v | _ => "" end.

Record ActionConfig := {
  acf_Type : string; acf_Provider : string; acf_FailOnStartup : bool; acf_Options : Options
}.
Record MemoryConfig := { mc_Provider : string; mc_Path : string; mc_Options : Options }.
Record PolicyConfig := {
  pc_Path : string; pc_EvaluationTimeout : Z; pc_MaxSteps : Z; pc_SteeringEnabled : bool; pc_ParadoxThreshold : float64
}.
Record ObservabilityConfig := { oc_Enabled : bool; oc_ServiceName : string; oc_LogLevel : string; oc_OTLPEndpoint : string }.
Record MCPServerConfig := {
  ms_Name : string; ms_Transport : string; ms_Command : string; ms_Args : list string; ms_Env : list string;
  ms_FailOnStartup : bool; ms_Tools : list string
}.
Record KnowledgeConfig := { kc_Path : string }.
Record Config := {
  cf_Policy : PolicyConfig;
  cf_Observability : ObservabilityConfig;
  cf_Actions : gmap string ActionConfig;
  cf_MCP : list MCPServerConfig;
  cf_Knowledge : KnowledgeConfig;
  cf_Memory : MemoryConfig
}.

Definition set_policy (p : PolicyConfig) (o : ObservabilityConfig) (c : Config) : Config :=
  {| cf_Policy := p; cf_Observability := o; cf_Actions := cf_Actions c; cf_MCP := cf_MCP c;
     cf_Knowledge := cf_Knowledge c; cf_Memory := cf_Memory c |}.

Definition or_text (d s : string) : string := if String.eqb s "" then d else s.

Definition applyDefaults (c : Config) : Config :=
  let o := cf_Observability c in
  let p := cf_Policy c in
  set_policy
    {| pc_Path := pc_Path p;
       pc_EvaluationTimeout := if (pc_EvaluationTimeout p =? 0)%Z then DefaultPolicyEvaluationTimeout else pc_EvaluationTimeout p;
       pc_MaxSteps := if (pc_MaxSteps p =? 0)%Z then DefaultPolicyMaxSteps else pc_MaxSteps p;
       pc_SteeringEnabled := pc_SteeringEnabled p; pc_ParadoxThreshold := pc_ParadoxThreshold p |}
    {| oc_Enabled := oc_Enabled o; oc_ServiceName := or_text DefaultServiceName (oc_ServiceName o);
       oc_LogLevel := or_text DefaultLogLevel (oc_LogLevel o); oc_OTLPEndpoint := oc_OTLPEndpoint o |} c.

Definition containsString (list : list string) (s : string) : bool := existsb (fun v => String.eqb v s) list.

Fixpoint check_mcp (i : nat) (servers : list MCPServerConfig) : option error :=
  match servers with
  | [] => None
  | srv :: rest =>
      if String.eqb (ms_Transport srv) "" || containsString KnownMCPTransports (ms_Transport srv) then check_mcp (S i) rest
      else Some (EText ("mcp[" +:+ pretty i +:+ "] (" +:+ ms_Name srv +:+ "): transport " +:+ go_quote (ms_Transport srv)
                        +:+ " must be one of [" +:+ join " " KnownMCPTransports +:+ "]"))
  end.

Section Load.
Context (os_Stat : string -> option error) (yaml : string -> res error Config).

Definition Config_Validate (c : Config) : option error :=
  let level := oc_LogLevel (cf_Observability c) in
  let p := cf_Policy c in
  let provider := mc_Provider (cf_Memory c) in
  if negb (existsb (String.eqb level) [""; "debug"; "info"; "warn"; "error"])
  then Some (EText ("log_level must be one of debug, info, warn, error; got " +:+ go_quote level))
  else if (pc_EvaluationTimeout p <? 0)%Z
  then Some (EText ("policy.evaluation_timeout must be non-negative, got " +:+ pretty (pc_EvaluationTimeout p)))
  else if (pc_MaxSteps p <? 0)%Z
  then Some (EText ("policy.max_steps must be non-negative, got " +:+ pretty (pc_MaxSteps p)))
  else match (if String.eqb (pc_Path p) "" then None else os_Stat (pc_Path p)) with
       | Some e => Some (EWrap ("policy.path " +:+ go_quote (pc_Path p) +:+ " does not exist or is not readable: ") e)
       | None =>
           if negb (String.eqb provider "") && negb (containsString KnownMemoryProviders provider)
           then Some (EText ("memory.provider " +:+ go_quote provider +:+ " is not one of the known providers ["
                  +:+ join " " KnownMemoryProviders +:+ "]; register custom providers with sdk.RegisterMemoryProvider"
                  +:+ " and add them to config.KnownMemoryProviders"))
           else check_mcp 0 (cf_MCP c)
       end.

(** [ParseConfig], with the warnings printed on the way. *)
Definition ParseConfig (env : Env) (data : string) : list string * res error Config :=
  let '(expanded, warnings) := expandEnvWithDefaults env data in
  (warnings,
   match yaml expanded with
   | Err e => Err (EWrap "failed to unmarshal YAML: " e)
   | Ok cfg =>
       let cfg := applyDefaults cfg in
       match Config_Validate cfg with
       | Some e => Err (EWrap "invalid configuration: " e)
       | None => Ok cfg
       end
   end).

(** [Load] and [LoadFromReader], given the outcome of reading. *)
Definition config_Load (env : Env) (path : string) (file : res error string) : list string * res error Config :=
  match file with
  | Err e => ([], Err (EWrap ("failed to read config file " +:+ go_quote path +:+ ": ") e))
  | Ok data => ParseConfig env data
  end.
Definition LoadFromReader (env : Env) (content : res error string) : list string * res error Config :=
  match content with
  | Err e => ([], Err (EWrap "failed to read from reader: " e))
  | Ok data => ParseConfig env data
  end.
End Load.

(** ** Properties *)

(** Two environments that agree on the allowed variables. *)
Definition same_allowed (e1 e2 : Env) : Prop := forall v, isAllowedEnvVar v = true -> e1 !! v = e2 !! v.

Lemma expand_ref_same e1 e2 key : same_allowed e1 e2 -> expand_ref e1 key = expand_ref e2 key.
Proof.
  intros Hs. unfold expand_ref. destruct (split_ref key) as [v def].
  destruct (isAllowedEnvVar v) eqn:Ha; cbn [negb]; [|done]. by rewrite (Hs v Ha).
Qed.

(** C19: A configuration reads no variable outside the allowlist: processes
    whose environments agree on the allowed variables parse every text to the
    same configuration, with the same warnings. *)
Theorem config_env_noninterference os_Stat yaml e1 e2 data :
  same_allowed e1 e2 -> ParseConfig os_Stat yaml e1 data = ParseConfig os_Stat yaml e2 data.
Proof.
  intros Hs. unfold ParseConfig.
  assert (expandEnvWithDefaults e1 data = expandEnvWithDefaults e2 data) as ->; [|done].
  unfold expandEnvWithDefaults. f_equal.
  - f_equal. apply map_ext. intros [c|key]; cbn; [done|]. by rewrite (expand_ref_same e1 e2).
  - do 2 f_equal. apply list_omap_ext. apply Forall2_same_length_lookup. split; [done|].
    intros i g g' Hg Hg'. simplify_eq. destruct g; cbn; [done|]. by rewrite (expand_ref_same e1 e2).
Qed.

Lemma config_env_noninterference_witness :
  ParseConfig (fun _ => None) (fun s => Err (EText s)) {["HOME" := "/root"; "API_KEY" := "k"]} "key: ${API_KEY} ${HOME}"
  = ParseConfig (fun _ => None) (fun s => Err (EText s)) {["HOME" := "/secret"; "API_KEY" := "k"]} "key: ${API_KEY} ${HOME}".
Proof.
  apply config_env_noninterference. intros v Hv.
  destruct (decide (v = "HOME")) as [-> |Hh]; [by vm_compute in Hv|].
  rewrite !lookup_insert_ne by done. done.
Defined.

Lemma segments_fuel_lits fuel s : String.length s <= fuel ->
  all_bytes (fun c => negb (Ascii.eqb c c_dollar)) s = true ->
  forall env, String.concat "" (map (expand_segment env) (segments_fuel fuel s)) = s /\
              omap (segment_warning env) (segments_fuel fuel s) = [].
Proof.
  revert fuel. induction s as [|c s IH]; intros [|fuel] Hf Hs env; cbn in Hf; try done; [lia|].
  cbn [all_bytes] in Hs. apply andb_true_iff in Hs as [Hc%negb_true_iff Hs].
  cbn [segments_fuel]. rewrite Hc. cbn [andb]. destruct (IH fuel ltac:(lia) Hs env) as [He Hw].
  cbn [map omap list_omap expand_segment segment_warning]. split; [|exact Hw].
  rewrite <- He at 2. by destruct (map (expand_segment env) (segments_fuel fuel s)).
Qed.

(** A text without references is not changed, and nothing is warned about. *)
Theorem expand_plain env s : all_bytes (fun c => negb (Ascii.eqb c c_dollar)) s = true ->
  expandEnvWithDefaults env s = (s, []).
Proof.
  intros Hs. unfold expandEnvWithDefaults, segments. destruct (segments_fuel_lits (String.length s) s (le_n _) Hs env) as [-> ->].
  done.
Qed.

Lemma elem_distinct seen l x : x ∈ distinct seen l <-> x ∈ l /\ x ∉ seen.
Proof.
  revert seen. induction l as [|y l IH]; intros seen; cbn [distinct]; [set_solver|].
  case_decide as Hy; rewrite ?elem_of_cons, IH; [set_solver|].
  destruct (decide (x = y)) as [-> |]; set_solver.
Qed.

(** No reference vanishes silently: a reference that expands to the empty
    string, without a default and without an empty value of an allowed
    variable behind it, is reported. *)
Theorem empty_expansion_warned env s key v :
  Ref key ∈ segments s -> split_ref key = (v, None) -> (isAllowedEnvVar v = true -> env !! v = None) ->
  expand_segment env (Ref key) = "" /\ warning v ∈ snd (expandEnvWithDefaults env s).
Proof.
  intros Hin Hr Hv. assert (expand_ref env key = ("", Some v)) as He.
  { unfold expand_ref. rewrite Hr. destruct (isAllowedEnvVar v); cbn [negb]; [by rewrite Hv|done]. }
  split; [by cbn; rewrite He|]. cbn [expandEnvWithDefaults snd].
  apply list_elem_of_fmap_2 with (f := warning). apply elem_distinct. split; [|set_solver].
  apply list_elem_of_omap. exists (Ref key). split; [done|]. cbn. by rewrite He.
Qed.

Lemma empty_expansion_warned_witness :
  warning "HOME" ∈ snd (expandEnvWithDefaults ∅ "path: ${HOME}").
Proof.
  apply (empty_expansion_warned ∅ "path: ${HOME}" "HOME" "HOME"); [|reflexivity|done].
  apply (list_elem_of_lookup_2 _ 6). reflexivity.
Defined.

(** What a parsed configuration guarantees. *)
Definition config_ok (os_Stat : string -> option error) (c : Config) : Prop :=
  oc_LogLevel (cf_Observability c) ∈ ["debug"; "info"; "warn"; "error"] /\ oc_ServiceName (cf_Observability c) <> "" /\
  (0 <= pc_EvaluationTimeout (cf_Policy c))%Z /\ (0 < pc_MaxSteps (cf_Policy c))%Z /\
  (pc_Path (cf_Policy c) <> "" -> os_Stat (pc_Path (cf_Policy c)) = None) /\
  (mc_Provider (cf_Memory c) = "" \/ mc_Provider (cf_Memory c) ∈ KnownMemoryProviders) /\
  Forall (fun srv => ms_Transport srv = "" \/ ms_Transport srv ∈ KnownMCPTransports) (cf_MCP c).

Lemma containsString_spec l s : containsString l s = true <-> s ∈ l.
Proof.
  unfold containsString. rewrite existsb_exists. setoid_rewrite <- list_elem_of_In. setoid_rewrite String.eqb_eq. naive_solver.
Qed.

Lemma check_mcp_ok i servers : check_mcp i servers = None ->
  Forall (fun srv => ms_Transport srv = "" \/ ms_Transport srv ∈ KnownMCPTransports) servers.
Proof.
  revert i. induction servers as [|srv rest IH]; intros i; cbn [check_mcp]; [constructor|].
  destruct (_ || _) eqn:Ht; [|done]. intros Hr. constructor; [|by eapply IH].
  apply orb_true_iff in Ht as [Ht%String.eqb_eq|Ht%containsString_spec]; [by left|by right].
Qed.

(** C20: A parsed configuration is usable: its log level, service name, step
    limit and time-out are set and in range, its policy path exists, and its
    memory provider and MCP transports are known. *)
Theorem parsed_config_ok os_Stat yaml env data c :
  snd (ParseConfig os_Stat yaml env data) = Ok c -> config_ok os_Stat c.
Proof.
  unfold ParseConfig. destruct (expandEnvWithDefaults env data) as [text warnings]. cbn [snd].
  destruct (yaml text) as [cfg|]; [|done]. destruct (Config_Validate os_Stat (applyDefaults cfg)) eqn:Hv; [done|]. intros [= <-].
  unfold Config_Validate in Hv. destruct (existsb _ _) eqn:Hlevel; [|done]. cbn [negb] in Hv.
  destruct (Z.ltb_spec (pc_EvaluationTimeout (cf_Policy (applyDefaults cfg))) 0); [done|].
  destruct (Z.ltb_spec (pc_MaxSteps (cf_Policy (applyDefaults cfg))) 0); [done|].
  destruct (if String.eqb (pc_Path _) "" then _ else _) eqn:Hpath in Hv; [done|].
  destruct (negb _ && negb _) eqn:Hmem in Hv; [done|]. split_and!.
  - apply existsb_exists in Hlevel as (l & Hl & Heq%String.eqb_eq). rewrite <- Heq in Hl. apply list_elem_of_In in Hl.
    apply elem_of_cons in Hl as [Hl|Hl]; [|done]. exfalso. revert Hl. cbn. unfold or_text.
    destruct (String.eqb_spec (oc_LogLevel (cf_Observability cfg)) ""); done.
  - cbn. unfold or_text. destruct (String.eqb_spec (oc_ServiceName (cf_Observability cfg)) ""); done.
  - done.
  - cbn in *. destruct (Z.eqb_spec (pc_MaxSteps (cf_Policy cfg)) 0); cbn in *; unfold DefaultPolicyMaxSteps in *; lia.
  - intros Hne. apply String.eqb_neq in Hne. by rewrite Hne in Hpath.
  - apply andb_false_iff in Hmem as [Hm%negb_false_iff|Hm%negb_false_iff]; [left; by apply String.eqb_eq|right; by apply containsString_spec].
  - by apply check_mcp_ok in Hv.
Qed.

Definition demo_config : Config :=
  {| cf_Policy := {| pc_Path := "p.dl"; pc_EvaluationTimeout := 0; pc_MaxSteps := 0; pc_SteeringEnabled := false; pc_ParadoxThreshold := f_zero |};
     cf_Observability := {| oc_Enabled := true; oc_ServiceName := ""; oc_LogLevel := ""; oc_OTLPEndpoint := "" |};
     cf_Actions := ∅; cf_MCP := []; cf_Knowledge := {| kc_Path := "" |}; cf_Memory := {| mc_Provider := "inmem"; mc_Path := ""; mc_Options := ∅ |} |}.

Lemma parsed_config_ok_witness : config_ok (fun _ => None) (applyDefaults demo_config).
Proof. apply (parsed_config_ok (fun _ => None) (fun _ => Ok demo_config) ∅ "text"). reflexivity. Defined.

(** References without braces are expanded too: a dollar sign in a password
    removes the word after it. *)
Theorem unbraced_reference_expanded :
  fst (expandEnvWithDefaults ∅ "password: pa$word9") = "password: pa" /\
  fst (expandEnvWithDefaults ∅ "price: $5") = "price: ".
Proof. split; by_vm. Qed.
