(* ===== verification/Predicates.v ===== *)
(** * Reference external predicates

    [providers/predicates/predicates.go]: the fixed-window rate limiter, the
    registry of limiters with its eviction, and the time window predicate.
    Times are nanoseconds read from the clock and
    passed in, one reading per call; the limiters are
    shared objects in a store, which the registry names and eviction
    unlinks. *)
From stdpp Require Import sorting.
From S2P Require Import Prelude GoStrings CoreErrors CoreTypes Facts Sources Datalog Runtime Solver Extern.
From Stdlib Require Import Ascii String.
Open Scope string_scope.

(** ** The limiter *)

Record RateLimitEntry := { rl_Count : Z; rl_WindowEnd : Z }.
Record RateLimiter := { rl_entries : gmap string RateLimitEntry; rl_limit : Z; rl_window : Z }.

Definition NewRateLimiter (limit window : Z) : RateLimiter := {| rl_entries := ∅; rl_limit := limit; rl_window := window |}.

Definition set_entry (key : string) (e : RateLimitEntry) (r : RateLimiter) : RateLimiter :=
  {| rl_entries := <[key := e]> (rl_entries r); rl_limit := rl_limit r; rl_window := rl_window r |}.

Definition IsExceeded (now : Z) (key : string) (r : RateLimiter) : RateLimiter * bool :=
  match rl_entries r !! key with
  | Some e =>
      if (rl_WindowEnd e <? now)%Z then (set_entry key {| rl_Count := 1; rl_WindowEnd := now + rl_window r |} r, false)
      else
        let count := (rl_Count e + 1)%Z in
        (set_entry key {| rl_Count := count; rl_WindowEnd := rl_WindowEnd e |} r, (rl_limit r <? count)%Z)
  | None => (set_entry key {| rl_Count := 1; rl_WindowEnd := now + rl_window r |} r, false)
  end.

Definition limiter_Reset (r : RateLimiter) : RateLimiter :=
  {| rl_entries := ∅; rl_limit := rl_limit r; rl_window := rl_window r |}.

(** ** The registry of limiters *)

(** [rateLimiters] by name, the limiters behind the pointers, the number of
    creations and the time of the last sweep ([None]: never). *)
Record Limiters := {
  lm_names : gmap string nat;
  lm_store : gmap nat RateLimiter;
  lm_next : nat;
  lm_callCount : Z;
  lm_lastEvict : option Z
}.

Definition NewLimiters : Limiters := {| lm_names := ∅; lm_store := ∅; lm_next := 0; lm_callCount := 0; lm_lastEvict := None |}.

Definition evictInterval : Z := 30000000000.
Definition minute : Z := 60000000000.

(** No window of the limiter is open. *)
Definition expired (now : Z) (r : RateLimiter) : bool :=
  forallb (fun '(_, e) => negb (now <? rl_WindowEnd e)%Z) (map_to_list (rl_entries r)).

Definition live (now : Z) (s : Limiters) (p : nat) : bool :=
  match lm_store s !! p with Some r => negb (expired now r) | None => true end.

Definition evictExpiredLimiters (now : Z) (s : Limiters) : Limiters :=
  {| lm_names := filter (fun x => live now s (snd x) = true) (lm_names s);
     lm_store := lm_store s; lm_next := lm_next s; lm_callCount := lm_callCount s; lm_lastEvict := Some now |}.

Definition limiter_key (key : string) (limit : Z) : string := key +:+ ":" +:+ pretty limit.

Definition add_limiter (k : string) (r : RateLimiter) (s : Limiters) : Limiters :=
  {| lm_names := <[k := lm_next s]> (lm_names s); lm_store := <[lm_next s := r]> (lm_store s); lm_next := S (lm_next s);
     lm_callCount := (lm_callCount s + 1)%Z; lm_lastEvict := lm_lastEvict s |}.

Definition sweep_due (now : Z) (s : Limiters) : bool :=
  (lm_callCount s mod 1000 =? 0)%Z || match lm_lastEvict s with Some t => (evictInterval <=? now - t)%Z | None => true end.

(** The pointer of the limiter. *)
Definition getOrCreateLimiter (now : Z) (key : string) (limit : Z) (s : Limiters) : Limiters * nat :=
  let k := limiter_key key limit in
  match lm_names s !! k with
  | Some p => (s, p)
  | None =>
      let p := lm_next s in
      let s := add_limiter k (NewRateLimiter limit minute) s in
      (if sweep_due now s then evictExpiredLimiters now s else s, p)
  end.

Definition put_limiter (p : nat) (r : RateLimiter) (s : Limiters) : Limiters :=
  {| lm_names := lm_names s; lm_store := <[p := r]> (lm_store s); lm_next := lm_next s; lm_callCount := lm_callCount s;
     lm_lastEvict := lm_lastEvict s |}.

(** The check of one key against one limit. *)
Definition check_limit (now : Z) (key : string) (limit : Z) (s : Limiters) : Limiters * bool :=
  let '(s, p) := getOrCreateLimiter now key limit s in
  match lm_store s !! p with
  | Some r => let '(r', exceeded) := IsExceeded now key r in (put_limiter p r' s, exceeded)
  | None => (s, false)     (* not reached: pointers are valid *)
  end.

Section Predicates.
Context (typeName : AnyVal -> string).   (* the [%T] text *)

Definition limit_of (v : AnyVal) : Z := match v with AInt64 z | AInt z => z | _ => 100%Z end.

Definition rateLimitExceeded (now : Z) (inputs : list AnyVal) (s : Limiters) : Limiters * res error (list (list AnyVal)) :=
  match inputs with
  | _ :: k :: l :: _ =>
      match k with
      | AString key => let '(s', exceeded) := check_limit now key (limit_of l) s in
                       (s', Ok (if exceeded then [[ABool true]] else []))
      | v => (s, Err (EText ("key must be string, got " +:+ typeName v)))
      end
  | _ => (s, Err (EText "rate_limit_exceeded requires 3 args: entity, key, limit"))
  end.

(** ** The time window *)

(** [%d] of [fmt.Sscanf]: blanks, a sign, digits; the number and the rest. *)
Fixpoint take_digits (s : string) : string * string :=
  match s with
  | String c s' => if ((48 <=? bval c) && (bval c <=? 57))%Z then let '(d, r) := take_digits s' in (String c d, r) else ("", s)
  | "" => ("", "")
  end.

Fixpoint skip_blanks (s : string) : string :=
  match s with
  | String c s' =>
      let z := bval c in
      if ((z =? 32) || (9 <=? z) && (z <=? 13) && negb (z =? 10))%Z then skip_blanks s' else s
  | "" => ""
  end.

Definition scan_int (s : string) : option (Z * string) :=
  let s := skip_blanks s in
  let '(sign, s) := match s with
                    | String "-" s' => ("-", s')
                    | String "+" s' => ("", s')
                    | _ => ("", s)
                    end in
  let '(digits, rest) := take_digits s in
  (fun z => (z, rest)) <$> parse_int64 (sign +:+ digits).

(** [parseTime]: "HH:MM"; what follows the minutes is not read. *)
Definition parseTime (s : string) : res error (Z * Z) :=
  let bad := Err (EText ("invalid time format " +:+ go_quote s +:+ ", expected HH:MM")) in
  match scan_int s with
  | Some (hour, String ":" rest) =>
      match scan_int rest with
      | Some (minutes, _) =>
          if (hour <? 0)%Z || (23 <? hour)%Z || (minutes <? 0)%Z || (59 <? minutes)%Z
          then Err (EText ("time out of range: " +:+ s)) else Ok (hour, minutes)
      | None => bad
      end
  | _ => bad
  end.

Definition in_window (start finish current : Z) : bool :=
  if (start <=? finish)%Z then (start <=? current)%Z && (current <=? finish)%Z
  else (start <=? current)%Z || (current <=? finish)%Z.

(** [nowMinutes] is the UTC time of day. *)
Definition withinTimeWindow (nowMinutes : Z) (inputs : list AnyVal) : res error (list (list AnyVal)) :=
  match inputs with
  | _ :: a :: b :: _ =>
      match a, b with
      | AString startStr, AString endStr =>
          match parseTime startStr with
          | Err e => Err (EWrap "invalid start_hour: " e)
          | Ok (sh, sm) =>
              match parseTime endStr with
              | Err e => Err (EWrap "invalid end_hour: " e)
              | Ok (eh, em) => Ok (if in_window (sh * 60 + sm) (eh * 60 + em) nowMinutes then [[ABool true]] else [])
              end
          end
      | AString _, v => Err (EText ("end_hour must be string, got " +:+ typeName v))
      | v, _ => Err (EText ("start_hour must be string, got " +:+ typeName v))
      end
  | _ => Err (EText "within_time_window requires 3 args: entity, start_hour, end_hour")
  end.

End Predicates.

(** [RegisterAll] on a registrar; the errors are joined. *)
Definition RegisterAll {R : Type} (register : string -> R -> R * option error) (r : R) : R * option error :=
  let '(r1, e1) := register "within_time_window" r in
  let '(r2, e2) := register "rate_limit_exceeded" r1 in
  (r2, match e1, e2 with
       | None, None => None
       | Some a, None => Some (EWrap "within_time_window: " a)
       | None, Some b => Some (EWrap "rate_limit_exceeded: " b)
       | Some a, Some b => Some (EText (Error (EWrap "within_time_window: " a) +:+ nl +:+ Error (EWrap "rate_limit_exceeded: " b)))
       end).

(** ** Properties *)

(** *** One limiter *)

(** The answers to checks of one key at the given times. *)
Fixpoint run_checks (key : string) (times : list Z) (r : RateLimiter) : RateLimiter * list bool :=
  match times with
  | [] => (r, [])
  | t :: rest => let '(r1, b) := IsExceeded t key r in let '(r2, bs) := run_checks key rest r1 in (r2, b :: bs)
  end.

Lemma run_checks_open key r e times :
  rl_entries r !! key = Some e -> Forall (fun t => t <= rl_WindowEnd e)%Z times ->
  snd (run_checks key times r) = imap (fun i _ => (rl_limit r <? rl_Count e + 1 + Z.of_nat i)%Z) times.
Proof.
  revert r e. induction times as [|t times IH]; intros r e He Ht; [done|]. apply Forall_cons in Ht as [Ht Hts].
  cbn [run_checks]. unfold IsExceeded. rewrite He. destruct (Z.ltb_spec (rl_WindowEnd e) t); [lia|].
  set (e' := {| rl_Count := rl_Count e + 1; rl_WindowEnd := rl_WindowEnd e |}).
  destruct (run_checks key times (set_entry key e' r)) as [r2 bs] eqn:Hr. cbn [snd imap].
  assert (bs = imap (fun i _ => (rl_limit r <? rl_Count e' + 1 + Z.of_nat i)%Z) times) as ->.
  { pose proof (IH (set_entry key e' r) e') as Hi. rewrite Hr in Hi. apply Hi; [cbn; by rewrite lookup_insert_eq|done]. }
  f_equal; [f_equal; lia|]. apply imap_ext. intros i x _. cbn. f_equal. lia.
Qed.

(** A limiter counts requests per window: of the checks of a key that
    fall into one window after a first check opened it, the i-th is refused
    exactly when it is past the limit; the check that opens a window is never
    refused. *)
Theorem limiter_counts key r t0 times :
  match rl_entries r !! key with Some e => (rl_WindowEnd e < t0)%Z | None => True end ->
  Forall (fun t => t <= t0 + rl_window r)%Z times ->
  snd (run_checks key (t0 :: times) r) = false :: imap (fun i _ => (rl_limit r <? Z.of_nat i + 2)%Z) times.
Proof.
  intros Hnew Ht. cbn [run_checks].
  assert (IsExceeded t0 key r = (set_entry key {| rl_Count := 1; rl_WindowEnd := t0 + rl_window r |} r, false)) as ->.
  { unfold IsExceeded. destruct (rl_entries r !! key) as [e|]; [|done]. destruct (Z.ltb_spec (rl_WindowEnd e) t0); [done|lia]. }
  set (r1 := set_entry _ _ r). destruct (run_checks key times r1) as [r2 bs] eqn:Hr. cbn [snd]. f_equal.
  replace bs with (snd (run_checks key times r1)) by (by rewrite Hr).
  rewrite (run_checks_open key r1 {| rl_Count := 1; rl_WindowEnd := t0 + rl_window r |}); [|cbn; by rewrite lookup_insert_eq|done].
  apply imap_ext. intros i x _. cbn. f_equal. lia.
Qed.

Lemma limiter_counts_witness :
  snd (run_checks "user" [0; 1; 2; 3]%Z (NewRateLimiter 2 10)) = [false; false; true; true].
Proof.
  apply (limiter_counts "user" (NewRateLimiter 2 10) 0 [1; 2; 3]%Z); [done|]. repeat constructor; cbn; lia.
Defined.

(** *** The registry *)

(** A limiter whose creation triggers a sweep has no entries yet, so the sweep
    removes it from the registry at once. *)
Lemma created_and_swept now key limit s :
  lm_names s !! limiter_key key limit = None -> sweep_due now (add_limiter (limiter_key key limit) (NewRateLimiter limit minute) s) = true ->
  lm_names (fst (getOrCreateLimiter now key limit s)) !! limiter_key key limit = None.
Proof.
  intros Hn Hs. unfold getOrCreateLimiter. rewrite Hn, Hs. cbn [fst evictExpiredLimiters lm_names].
  apply map_lookup_filter_None_2. right. intros p Hp. cbn in Hp. rewrite lookup_insert_eq in Hp. injection Hp as <-.
  cbn. unfold live. cbn. by rewrite lookup_insert_eq.
Qed.

Fixpoint run_limits (key : string) (limit : Z) (times : list Z) (s : Limiters) : list bool :=
  match times with
  | [] => []
  | t :: rest => let '(s1, b) := check_limit t key limit s in b :: run_limits key limit rest s1
  end.

Lemma check_swept now key limit s :
  lm_names s !! limiter_key key limit = None -> sweep_due now (add_limiter (limiter_key key limit) (NewRateLimiter limit minute) s) = true ->
  snd (check_limit now key limit s) = false /\
  lm_names (fst (check_limit now key limit s)) !! limiter_key key limit = None /\
  lm_lastEvict (fst (check_limit now key limit s)) = Some now.
Proof.
  intros Hn Hs. pose proof (created_and_swept now key limit s Hn Hs) as Hgone.
  unfold check_limit. unfold getOrCreateLimiter in *. rewrite Hn, Hs in *. cbn [fst] in Hgone.
  cbn [evictExpiredLimiters add_limiter lm_store]. rewrite lookup_insert_eq. cbn. split_and!; [done| |done].
  exact Hgone.
Qed.

(** The rate limit is not enforced for slow callers: a key whose requests
    are at least thirty seconds apart is never refused, whatever its limit,
    because every request creates the limiter anew and the sweep it triggers
    drops it. *)
Theorem slow_requests_never_limited key limit (times : list Z) s :
  lm_names s !! limiter_key key limit = None ->
  match lm_lastEvict s, times with Some t, t1 :: _ => (evictInterval <= t1 - t)%Z | _, _ => True end ->
  Sorted (fun t t' => evictInterval <= t' - t)%Z times ->
  Forall (fun b => b = false) (run_limits key limit times s).
Proof.
  revert s. induction times as [|t times IH]; intros s Hn Hlast Hs; cbn [run_limits]; [constructor|].
  assert (sweep_due t (add_limiter (limiter_key key limit) (NewRateLimiter limit minute) s) = true) as Hdue.
  { unfold sweep_due. cbn. apply orb_true_iff. right. destruct (lm_lastEvict s); [by apply Z.leb_le|done]. }
  destruct (check_swept t key limit s Hn Hdue) as (Hb & Hn' & Hl').
  destruct (check_limit t key limit s) as [s1 b]. cbn [fst snd] in *. subst b. apply Sorted_inv in Hs as [Hs Hhd].
  constructor; [done|]. apply IH; [done| |done]. rewrite Hl'. destruct times as [|t1 times]; [done|]. by apply HdRel_inv in Hhd.
Qed.

Lemma slow_requests_never_limited_witness :
  Forall (fun b => b = false) (run_limits "user" 0 [0; 30000000000; 60000000000; 90000000000]%Z NewLimiters).
Proof.
  apply slow_requests_never_limited; [done|done|]. repeat constructor; unfold evictInterval; lia.
Defined.

(** *** The time window *)

(** A window is a circular interval: with distinct ends, of a window and the
    opposite one at least one contains a time, and both only at the ends. *)
Theorem window_complement start finish m : start <> finish ->
  in_window start finish m || in_window finish start m = true /\
  (in_window start finish m = true -> in_window finish start m = true -> m = start \/ m = finish).
Proof.
  unfold in_window. intros Hne. split; [|intros H1 H2];
    repeat match goal with
    | |- context [(?a <=? ?b)%Z] => destruct (Z.leb_spec a b)
    | H : context [(?a <=? ?b)%Z] |- _ => destruct (Z.leb_spec a b)
    end; cbn in *; try done; lia.
Qed.

(** Text after the minutes is ignored. *)
Example trailing_text_ignored : parseTime "22:30pm" = Ok (22, 30)%Z.
Proof. reflexivity. Qed.
