(* ===== verification/FloatText.v ===== *)
(** * Floats as texts, and their order

    [strconv.FormatFloat] with a fixed number of decimals (also [%.2f] of
    fmt), [strconv.ParseFloat] for decimal, hexadecimal and special texts,
    and the order of [float64] as a lexicographic order on integers. *)
From S2P Require Import Prelude GoStrings CoreErrors Float64.
From Stdlib Require Import Ascii String SpecFloat.
Open Scope string_scope.

(** ** Formatting *)

(** [n / d] rounded to the nearest integer, halves to the even one. *)
Definition div_half_even (n d : Z) : Z :=
  let q := (n / d)%Z in
  let r := (n mod d)%Z in
  if (2 * r <? d)%Z then q else if (d <? 2 * r)%Z then (q + 1)%Z else if Z.even q then q else (q + 1)%Z.

Fixpoint pad_zeros (n : nat) (s : string) : string :=
  match n with
  | O => s
  | S k => if (String.length s <? n)%nat then "0" +:+ pad_zeros k s else s
  end.

(** The number [m * 2^e], scaled by [10^prec] and rounded. *)
Definition scaled (prec : nat) (m e : Z) : Z :=
  let p := (10 ^ Z.of_nat prec)%Z in
  if (0 <=? e)%Z then (m * p * 2 ^ e)%Z else div_half_even (m * p) (2 ^ (- e)).

Definition fixed_text (prec : nat) (neg : bool) (n : Z) : string :=
  let p := (10 ^ Z.of_nat prec)%Z in
  (if neg then "-" else "") +:+ pretty (n / p)%Z
  +:+ (match prec with O => "" | S _ => "." +:+ pad_zeros prec (pretty (n mod p)%Z) end).

(** [FormatFloat(x, 'f', prec, 64)]. *)
Definition FormatFloat (prec : nat) (x : float64) : string :=
  match x with
  | S754_nan => "NaN"
  | S754_infinity s => if s then "-Inf" else "+Inf"
  | S754_zero s => fixed_text prec s 0
  | S754_finite s m e => fixed_text prec s (scaled prec (Zpos m) e)
  end.

(** ** Parsing *)

Definition c_underscore : ascii := byte 95.
Definition c_dot : ascii := byte 46.

Definition digit_value (hex : bool) (c : ascii) : option Z :=
  let z := bval (lower_byte c) in
  if ((48 <=? z) && (z <=? 57))%Z then Some (z - 48)%Z
  else if hex && ((97 <=? z) && (z <=? 102))%Z then Some (z - 87)%Z
  else None.

(** Digits read so far as an integer, how many of them follow the dot,
    whether a dot and whether a digit was read. *)
Record Mantissa := { mt_value : Z; mt_frac : Z; mt_dot : bool; mt_digits : bool }.

Fixpoint read_mantissa (hex : bool) (m : Mantissa) (s : string) : Mantissa * string :=
  match s with
  | "" => (m, "")
  | String c s' =>
      if Ascii.eqb c c_underscore then read_mantissa hex m s'
      else if Ascii.eqb c c_dot then
        (if mt_dot m then (m, s)
         else read_mantissa hex {| mt_value := mt_value m; mt_frac := mt_frac m; mt_dot := true; mt_digits := mt_digits m |} s')
      else match digit_value hex c with
           | Some d =>
               read_mantissa hex
                 {| mt_value := (mt_value m * (if hex then 16 else 10) + d)%Z;
                    mt_frac := (if mt_dot m then mt_frac m + 1 else mt_frac m)%Z;
                    mt_dot := mt_dot m; mt_digits := true |} s'
           | None => (m, s)
           end
  end.

(** Exponent digits; beyond 10000 they are read and ignored. *)
Fixpoint read_exponent (e : Z) (s : string) : Z * string :=
  match s with
  | "" => (e, "")
  | String c s' =>
      if Ascii.eqb c c_underscore then read_exponent e s'
      else match digit_value false c with
           | Some d => read_exponent (if (e <? 10000)%Z then e * 10 + d else e)%Z s'
           | None => (e, s)
           end
  end.

Definition read_exponent_part (hex : bool) (s : string) : option (option Z * string) :=
  match s with
  | String c s' =>
      if Ascii.eqb (lower_byte c) (if hex then "p" else "e")%char then
        let '(sign, s'') := match s' with
                            | String "+" r => (1%Z, r)
                            | String "-" r => ((-1)%Z, r)
                            | _ => (1%Z, s')
                            end in
        match s'' with
        | String d _ => match digit_value false d with
                        | Some _ => let '(e, rest) := read_exponent 0 s'' in Some (Some (sign * e)%Z, rest)
                        | None => None
                        end
        | "" => None
        end
      else if hex then None else Some (None, s)
  | "" => if hex then None else Some (None, s)
  end.

(** [underscoreOK]: [prev] is the kind of the previous byte: a digit, an
    underscore or something else. *)
Inductive PrevByte := PDigit | PUnderscore | POther.
Fixpoint underscores_ok (hex : bool) (prev : PrevByte) (s : string) : bool :=
  match s with
  | "" => match prev with PUnderscore => false | _ => true end
  | String c s' =>
      match digit_value hex c with
      | Some _ => underscores_ok hex PDigit s'
      | None =>
          if Ascii.eqb c c_underscore then
            match prev with PDigit => underscores_ok hex PUnderscore s' | _ => false end
          else match prev with PUnderscore => false | _ => underscores_ok hex POther s' end
      end
  end.

(** [m * 10^e] to the nearest float; the quotient is rounded once. *)
Definition scale10 (m e : Z) : float64 :=
  match m with
  | Zpos p => if (0 <=? e)%Z then binary_normalize 53 1024 (m * 10 ^ e) 0 false
              else SFdiv 53 1024 (S754_finite false p 0) (S754_finite false (Z.to_pos (10 ^ (- e))) 0)
  | _ => f_zero
  end.

Definition is_infinite (x : float64) : bool := match x with S754_infinity _ => true | _ => false end.
Definition negate (neg : bool) (x : float64) : float64 :=
  if neg then match x with
              | S754_zero s => S754_zero (negb s) | S754_infinity s => S754_infinity (negb s)
              | S754_finite s m e => S754_finite (negb s) m e | S754_nan => S754_nan
              end
  else x.

Definition split_sign (s : string) : bool * string :=
  match s with
  | String "-" r => (true, r)
  | String "+" r => (false, r)
  | _ => (false, s)
  end.

Definition special_float (s : string) : option float64 :=
  let '(neg, body) := split_sign s in
  let l := map_bytes lower_byte body in
  if String.eqb l "inf" || String.eqb l "infinity" then Some (S754_infinity neg)
  else if String.eqb (map_bytes lower_byte s) "nan" then Some S754_nan
  else None.

Definition parse_number (s : string) : option float64 :=
  let '(neg, body) := split_sign s in
  let hex := has_prefix (map_bytes lower_byte (str_take 2 body)) "0x" in
  let digits := if hex then str_drop 2 body else body in
  let '(m, rest) := read_mantissa hex {| mt_value := 0; mt_frac := 0; mt_dot := false; mt_digits := false |} digits in
  if negb (mt_digits m) then None
  else match read_exponent_part hex rest with
       | Some (e, "") =>
           if contains s "_" && negb (underscores_ok hex (if hex then PDigit else POther) digits) then None
           else
             let e := default 0%Z e in
             Some (negate neg (if hex then binary_normalize 53 1024 (mt_value m) (e - 4 * mt_frac m) false
                               else scale10 (mt_value m) (e - mt_frac m)))
       | _ => None
       end.

Definition parse_float_error (s msg : string) : error :=
  EText ("strconv.ParseFloat: parsing " +:+ go_quote s +:+ ": " +:+ msg).

Definition ParseFloat (s : string) : res error float64 :=
  match special_float s with
  | Some x => Ok x
  | None =>
      match parse_number s with
      | Some x => if is_infinite x then Err (parse_float_error s "value out of range") else Ok x
      | None => Err (parse_float_error s "invalid syntax")
      end
  end.

(** ** The order *)

(** Class, exponent and mantissa, such that the order is lexicographic. *)
Definition order_key (x : float64) : Z * Z * Z :=
  match x with
  | S754_infinity true => (-2, 0, 0)
  | S754_finite true m e => (-1, - e, - Zpos m)
  | S754_zero _ => (0, 0, 0)
  | S754_finite false m e => (1, e, Zpos m)
  | S754_infinity false => (2, 0, 0)
  | S754_nan => (0, 0, 0)
  end%Z.

Definition key_lt (a b : Z * Z * Z) : Prop :=
  let '(a1, a2, a3) := a in let '(b1, b2, b3) := b in
  (a1 < b1 \/ a1 = b1 /\ (a2 < b2 \/ a2 = b2 /\ a3 < b3))%Z.

Lemma f_lt_key x y : is_nan x = false -> is_nan y = false -> f_lt x y = true <-> key_lt (order_key x) (order_key y).
Proof.
  unfold f_lt, SFltb.
  destruct x as [[]|[]| |[] m e], y as [[]|[]| |[] m' e']; try done; intros _ _; cbn -[Z.compare];
    try (split; intros; try done; lia);
    destruct (Z.compare_spec e e') as [->|?|?]; try (split; [done|lia]); try (split; intros; try done; lia);
    change (Pos.compare_cont Eq m m') with (Pos.compare m m'); destruct (Pos.compare_spec m m') as [->|?|?];
    cbn; split; intros; try done; lia.
Qed.

Lemma f_le_key x y : is_nan x = false -> is_nan y = false -> f_le x y = true <-> ~ key_lt (order_key y) (order_key x).
Proof.
  unfold f_le, SFleb.
  destruct x as [[]|[]| |[] m e], y as [[]|[]| |[] m' e']; try done; intros _ _; cbn -[Z.compare];
    try (split; intros; try done; lia);
    destruct (Z.compare_spec e e') as [->|?|?]; try (split; [done|lia]); try (split; intros; try done; lia);
    change (Pos.compare_cont Eq m m') with (Pos.compare m m'); destruct (Pos.compare_spec m m') as [->|?|?];
    cbn; split; intros; try done; lia.
Qed.

Lemma key_lt_trans a b c : key_lt a b -> key_lt b c -> key_lt a c.
Proof. destruct a as [[??]?], b as [[??]?], c as [[??]?]. cbn. lia. Qed.
Lemma key_lt_le_trans a b c : key_lt a b -> ~ key_lt c b -> key_lt a c.
Proof. destruct a as [[??]?], b as [[??]?], c as [[??]?]. cbn. lia. Qed.
Lemma key_le_lt_trans a b c : ~ key_lt b a -> key_lt b c -> key_lt a c.
Proof. destruct a as [[??]?], b as [[??]?], c as [[??]?]. cbn. lia. Qed.
Lemma key_le_trans a b c : ~ key_lt b a -> ~ key_lt c b -> ~ key_lt c a.
Proof. destruct a as [[??]?], b as [[??]?], c as [[??]?]. cbn. lia. Qed.

Lemma f_not_lt x y : is_nan x = false -> is_nan y = false -> f_lt x y = false <-> f_le y x = true.
Proof. intros Hx Hy. rewrite f_le_key, <- f_lt_key by done. destruct (f_lt x y); naive_solver. Qed.

Lemma f_lt_trans x y z : is_nan x = false -> is_nan y = false -> is_nan z = false ->
  f_lt x y = true -> f_lt y z = true -> f_lt x z = true.
Proof. intros Hx Hy Hz. rewrite !f_lt_key by done. apply key_lt_trans. Qed.
Lemma f_le_lt_trans x y z : is_nan x = false -> is_nan y = false -> is_nan z = false ->
  f_le x y = true -> f_lt y z = true -> f_lt x z = true.
Proof. intros Hx Hy Hz. rewrite !f_lt_key, f_le_key by done. apply key_le_lt_trans. Qed.
Lemma f_lt_le_trans x y z : is_nan x = false -> is_nan y = false -> is_nan z = false ->
  f_lt x y = true -> f_le y z = true -> f_lt x z = true.
Proof. intros Hx Hy Hz. rewrite !f_lt_key, f_le_key by done. apply key_lt_le_trans. Qed.
Lemma f_le_trans x y z : is_nan x = false -> is_nan y = false -> is_nan z = false ->
  f_le x y = true -> f_le y z = true -> f_le x z = true.
Proof. intros Hx Hy Hz. rewrite !f_le_key by done. apply key_le_trans. Qed.

(** ** Quotients are numbers *)

Lemma shr_1_pos r : (0 <= shr_m r)%Z -> (0 <= shr_m (shr_1 r))%Z.
Proof. destruct r as [[|[p|p|]|[p|p|]] ? ?]; cbn; lia. Qed.
Lemma iter_shr_pos p r : (0 <= shr_m r)%Z -> (0 <= shr_m (SpecFloat.iter_pos shr_1 p r))%Z.
Proof. revert r. induction p as [p IH|p IH|]; intros r Hr; cbn; auto using shr_1_pos. Qed.
Lemma shr_fexp_pos m e l : (0 <= m)%Z -> (0 <= shr_m (fst (shr_fexp 53 1024 m e l)))%Z.
Proof.
  intros Hm. unfold shr_fexp, shr. assert (0 <= shr_m (shr_record_of_loc m l))%Z by by destruct l as [|[]].
  destruct (_ - e)%Z; cbn; auto using iter_shr_pos.
Qed.

Lemma binary_round_aux_number s m e l : (0 <= m)%Z ->
  is_nan (binary_round_aux 53 1024 s m e l) = false /\ signbit (binary_round_aux 53 1024 s m e l) = s.
Proof.
  intros Hm. unfold binary_round_aux. pose proof (shr_fexp_pos m e l Hm) as H1.
  destruct (shr_fexp 53 1024 m e l) as [r1 e1]. cbn [fst] in H1.
  assert (0 <= round_nearest_even (shr_m r1) (loc_of_shr_record r1))%Z as H2.
  { unfold round_nearest_even. destruct (loc_of_shr_record r1) as [|[]]; try destruct (Z.even _); lia. }
  pose proof (shr_fexp_pos _ e1 loc_Exact H2) as H3. destruct (shr_fexp _ _ _ e1 loc_Exact) as [r2 e2]. cbn [fst] in H3.
  destruct (shr_m r2); [done| |lia]. by destruct (_ <=? _)%Z.
Qed.

Lemma SFdiv_core_pos mx ex my ey q e l :
  SFdiv_core_binary 53 1024 (Zpos mx) ex (Zpos my) ey = (q, e, l) -> (0 <= q)%Z.
Proof.
  unfold SFdiv_core_binary. match goal with |- context [Z.div_eucl ?a (Zpos my)] => set (m := a) end.
  assert (0 <= m)%Z as Hm.
  { unfold m. destruct (_ - _)%Z; [lia| |lia]. apply Z.shiftl_nonneg. lia. }
  clearbody m. pose proof (Z.div_pos m (Zpos my) Hm ltac:(lia)) as Hq. unfold Z.div in Hq.
  destruct (Z.div_eucl m (Zpos my)) as [q' r']. by intros [= <- <- <-].
Qed.

Definition is_finite (x : float64) : bool :=
  match x with S754_zero _ | S754_finite _ _ _ => true | _ => false end.

Lemma f_div_number x y : is_finite x = true -> is_finite y = true -> f_eq y f_zero = false ->
  is_nan (f_div x y) = false /\ signbit (f_div x y) = xorb (signbit x) (signbit y).
Proof.
  destruct x as [sx|sx| |sx mx ex], y as [sy|sy| |sy my ey]; try done; intros _ _ _.
  unfold f_div, SFdiv. destruct (SFdiv_core_binary 53 1024 (Zpos mx) ex (Zpos my) ey) as [[q e] l] eqn:Hc.
  apply binary_round_aux_number. by eapply SFdiv_core_pos.
Qed.

Lemma finite_number x : is_finite x = true -> is_nan x = false.
Proof. by destruct x. Qed.

Lemma positive_sign x : is_nan x = false -> signbit x = false -> f_le f_zero x = true.
Proof. by destruct x as [[]|[]| |[] ? ?]. Qed.

(** A quotient of a non-negative by a positive finite number. *)
Lemma f_div_nonneg x y : is_finite x = true -> f_le f_zero x = true -> is_finite y = true -> f_lt f_zero y = true ->
  is_nan (f_div x y) = false /\ f_le f_zero (f_div x y) = true.
Proof.
  intros Hx Hxp Hy Hyp. assert (f_eq y f_zero = false) as Hz by by destruct y as [[]|[]| |[] ? ?].
  destruct (f_div_number x y Hx Hy Hz) as [Hn Hs]. split; [done|].
  destruct x as [sx|[]| |[] mx ex]; try done.
  - by destruct y.
  - apply positive_sign; [done|]. rewrite Hs. by destruct y as [[]|[]| |[] ? ?].
Qed.

Lemma f_add_finite x y : is_finite (f_add x y) = true -> is_finite x = true /\ is_finite y = true.
Proof. destruct x as [[]|[]| |[] m e], y as [[]|[]| |[] m' e']; done. Qed.

(** ** Examples *)

Example format_tenth : FormatFloat 3 f_0_1 = "0.100" /\ FormatFloat 2 (f_div f_1 (f_of_int 3)) = "0.33" /\ FormatFloat 2 (f_of_int (-12)) = "-12.00".
Proof. repeat split; by_vm. Qed.
Example parse_tenth : map ParseFloat ["0.1"; "1e-1"; "-.9_0"; "0x1p-1"; "4.9e-324"; "+Inf"]
  = [Ok f_0_1; Ok f_0_1; Ok (negate true f_0_9); Ok f_0_5; Ok (S754_finite false 1 (-1074)); Ok (S754_infinity false)].
Proof. by_vm. Qed.
Example parse_rejects : is_ok (ParseFloat "1e400") || is_ok (ParseFloat "_1") || is_ok (ParseFloat "1e") || is_ok (ParseFloat "") = false.
Proof. by_vm. Qed.
