(* ===== verification/Scoring.v ===== *)
(** * Fixed-choice scoring

    [adapters/scoring]: the decision built from raw probabilities, the
    thresholds a policy supplies, the envelope of a routing call
    ([scoring.go]), and the two backends: a server scoring given token ids
    ([score.go]) and a chat endpoint with log-probabilities ([chat.go]).
    [math.Exp] and [math.Log], JSON encoding and the HTTP exchange are
    parameters. *)
From S2P Require Import Prelude GoStrings CoreErrors CoreTypes Float64 FloatText.
From Stdlib Require Import Ascii String.
Open Scope string_scope.

(** Errors wrapping [ErrLabelsUnobserved], and others. *)
Inductive scoring_error :=
| Unobserved (detail : string)
| Failed (e : error).

Definition sText (s : string) : scoring_error := Failed (EText s).
Definition sWrap (pre : string) (e : error) : scoring_error := Failed (EWrap pre e).

Definition ErrLabelsUnobserved_text : string := "scoring: option labels not all observable".
Definition scoring_error_text (e : scoring_error) : string :=
  match e with Unobserved d => ErrLabelsUnobserved_text +:+ ": " +:+ d | Failed e => Error e end.

Record ScoreDecision := {
  sd_Choice : string;
  sd_Distribution : gmap string float64;
  sd_Margin : float64;
  sd_Entropy : float64
}.

Definition Prob (d : ScoreDecision) (option : string) : float64 := default f_zero (sd_Distribution d !! option).
Definition Top (d : ScoreDecision) : float64 := Prob d (sd_Choice d).

(** The value seen twice, or the empty text. *)
Fixpoint duplicate_from (seen : gset string) (xs : list string) : string :=
  match xs with
  | [] => ""
  | x :: rest => if bool_decide (x ∈ seen) then x else duplicate_from ({[x]} ∪ seen) rest
  end.
Definition firstDuplicate (xs : list string) : string := duplicate_from ∅ xs.

Definition clamp (p : float64) : float64 := if f_lt p f_zero then f_zero else p.
Definition total_of (probs : list float64) : float64 := fold_left (fun t p => f_add t (clamp p)) probs f_zero.

(** The loop over the options: the distribution, the best index, the two
    largest probabilities. *)
Record Ranking := { rk_dist : gmap string float64; rk_best : nat; rk_top : float64; rk_second : float64 }.

Definition rank_step (total : float64) (i : nat) (o : string) (p : float64) (r : Ranking) : Ranking :=
  let p := f_div (clamp p) total in
  let dist := <[o := p]> (rk_dist r) in
  if f_lt (rk_top r) p then {| rk_dist := dist; rk_best := i; rk_top := p; rk_second := rk_top r |}
  else {| rk_dist := dist; rk_best := rk_best r; rk_top := rk_top r;
          rk_second := if f_lt (rk_second r) p then p else rk_second r |}.

Fixpoint rank_from (total : float64) (i : nat) (l : list (string * float64)) (r : Ranking) : Ranking :=
  match l with
  | [] => r
  | (o, p) :: rest => rank_from total (S i) rest (rank_step total i o p r)
  end.
Definition ranking0 : Ranking := {| rk_dist := ∅; rk_best := 0; rk_top := f_zero; rk_second := f_zero |}.

Section Math.
Context `{GoRange} (math_Exp math_Log : float64 -> float64).

Definition entropy_of (dist : gmap string float64) : float64 :=
  fold_left (fun e '(_, p) => if f_lt f_zero p then f_sub e (f_mul p (math_Log p)) else e) (range dist) f_zero.

Definition BuildDecision (labels options : list string) (probs : list float64) : res scoring_error ScoreDecision :=
  let n := List.length options in
  if negb (List.length labels =? n)%nat || negb (n =? List.length probs)%nat
  then Err (sText ("scoring: labels=" +:+ pretty (List.length labels) +:+ " options=" +:+ pretty n
                   +:+ " probs=" +:+ pretty (List.length probs) +:+ " must match"))
  else if (n =? 0)%nat then Err (sText "scoring: no options to choose among")
  else if negb (String.eqb (firstDuplicate options) "")
  then Err (sText ("scoring: duplicate option " +:+ go_quote (firstDuplicate options) +:+ " — options must be distinct"))
  else if negb (String.eqb (firstDuplicate labels) "")
  then Err (sText ("scoring: duplicate label " +:+ go_quote (firstDuplicate labels) +:+ " — labels must be distinct"))
  else
    let total := total_of probs in
    if f_le total f_zero
    then Err (sText ("scoring: probabilities sum to zero — nothing was observed (log-probabilities passed where"
                     +:+ " probabilities were expected?)"))
    else
      let r := rank_from total 0 (zip options probs) ranking0 in
      Ok {| sd_Choice := default "" (options !! rk_best r); sd_Distribution := rk_dist r;
            sd_Margin := f_sub (rk_top r) (rk_second r); sd_Entropy := entropy_of (rk_dist r) |}.

(** ** Softmax *)

Definition float_max (x : float64) (l : list float64) : float64 := fold_left (fun m v => if f_lt m v then v else m) l x.

Definition Softmax (logProbs : list float64) : list float64 :=
  match logProbs with
  | [] => []
  | x :: _ =>
      let out := map (fun v => math_Exp (f_sub v (float_max x logProbs))) logProbs in
      let sum := fold_left f_add out f_zero in
      if f_eq sum f_zero then out else map (fun v => f_div v sum) out
  end.

(** ** Thresholds *)

Record Thresholds := { th_Auto : float64; th_Margin : float64; th_Review : float64 }.

Definition PolicyQuery : Type := list string -> string -> res error (list (gmap string string)).

Definition get_threshold (q : PolicyQuery) (predicate name : string) : res error float64 :=
  let call := predicate +:+ "(" +:+ go_quote name +:+ ")" in
  match q [] (predicate +:+ "(" +:+ dq +:+ name +:+ dq +:+ ", V)") with
  | Err e => Err (EWrap ("query " +:+ call +:+ ": ") e)
  | Ok [] => Err (EText ("policy defines no " +:+ call))
  | Ok [sol] =>
      let text := default "" (sol !! "V") in
      match ParseFloat (trim_space text) with
      | Ok v => Ok v
      | Err e => Err (EWrap ("policy " +:+ call +:+ "=" +:+ go_quote text +:+ " is not a number: ") e)
      end
  | Ok sols => Err (EText ("policy " +:+ call +:+ " is ambiguous (" +:+ pretty (List.length sols)
                           +:+ " values) — a reloaded program may still carry the old definition"))
  end.

(** The thresholds read so far are returned with an error. *)
Definition ThresholdsFromPolicy (q : option PolicyQuery) (predicate : string) : Thresholds * option error :=
  let th0 := {| th_Auto := f_zero; th_Margin := f_zero; th_Review := f_zero |} in
  match q with
  | None => (th0, Some (EText "scoring: nil policy query"))
  | Some q =>
      let predicate := if String.eqb predicate "" then "threshold" else predicate in
      match get_threshold q predicate "auto" with
      | Err e => (th0, Some e)
      | Ok auto =>
          let th1 := {| th_Auto := auto; th_Margin := f_zero; th_Review := f_zero |} in
          match get_threshold q predicate "margin" with
          | Err e => (th1, Some e)
          | Ok margin =>
              let th2 := {| th_Auto := auto; th_Margin := margin; th_Review := f_zero |} in
              match get_threshold q predicate "review" with
              | Err e => (th2, Some e)
              | Ok review =>
                  let th := {| th_Auto := auto; th_Margin := margin; th_Review := review |} in
                  (th, if f_lt auto review
                       then Some (EText ("policy review floor " +:+ FormatFloat 2 review +:+ " exceeds auto bar "
                                         +:+ FormatFloat 2 auto +:+ " — every case would escalate"))
                       else None)
              end
          end
      end
  end.

Definition Flags (t : Thresholds) (d : option ScoreDecision) : gmap string string :=
  match d with
  | None => {["unobserved_distribution" := "true"]}
  | Some d =>
      let top := Top d in
      let f0 : gmap string string := ∅ in
      let f1 := if f_lt top (th_Review t) then <["below_review" := "true"]> f0 else f0 in
      let f2 := if f_lt top (th_Auto t) then <["below_auto" := "true"]> f1 else f1 in
      if f_le (th_Auto t) top && f_lt (sd_Margin d) (th_Margin t) then <["thin_margin" := "true"]> f2 else f2
  end.

(** ** The request *)

(** The payload is the action's input or an envelope. *)
Inductive RequestPayload :=
| PlainPayload (v : GoVal)
| EnvelopePayload (e : Envelope).

Definition formatProb (p : float64) : string := FormatFloat 3 p.
Definition number_fact (predicate : string) (p : float64) : string := predicate +:+ "(" +:+ go_quote (formatProb p) +:+ ").".

(** [id] is the fresh identifier of a new envelope. *)
Definition ScoringRequest (id : Z) (payload : RequestPayload) (d : option ScoreDecision) (t : Thresholds) : Envelope :=
  let env := match payload with EnvelopePayload e => e | PlainPayload v => NewEnvelope id v end in
  let env := set_Metadata ((GStr <$> Flags t d) ∪ env_Metadata env) env in
  match d with
  | None => env
  | Some d =>
      let env := SetMeta env "choice" (GStr (sd_Choice d)) in
      set_Facts (env_Facts env ++ [number_fact "confidence" (Top d); number_fact "margin_value" (sd_Margin d);
                                   number_fact "entropy_value" (sd_Entropy d)])%list env
  end.

(** ** The chat backend *)

Record chatTopLogProb := { ct_Token : string; ct_LogProb : float64 }.
Record chatContentLogProb := { cc_Token : string; cc_LogProb : float64; cc_TopLogProbs : list chatTopLogProb }.

Definition observe_token (token : string) (logProb : float64) (seen : gmap string float64) : gmap string float64 :=
  let k := trim_space token in
  if String.eqb k "" then seen
  else match seen !! k with
       | Some v => if f_lt v logProb then <[k := logProb]> seen else seen
       | None => <[k := logProb]> seen
       end.

Definition observed_logs (content : chatContentLogProb) : gmap string float64 :=
  fold_left (fun seen t => observe_token (ct_Token t) (ct_LogProb t) seen) (cc_TopLogProbs content)
            (observe_token (cc_Token content) (cc_LogProb content) ∅).

Definition label_log (seen : gmap string float64) (lb : string) : option float64 := seen !! trim_space lb.

Definition decisionFromAnswerToken (content : chatContentLogProb) (labels options : list string)
  : res scoring_error ScoreDecision :=
  let seen := observed_logs content in
  match List.filter (fun lb => match label_log seen lb with None => true | Some _ => false end) labels with
  | [] => BuildDecision labels options (Softmax (map (fun lb => default f_zero (label_log seen lb)) labels))
  | missing => Err (Unobserved (join ", " missing +:+ " (not among the " +:+ pretty (List.length (cc_TopLogProbs content))
                                +:+ " candidates returned; raise TopLogProbs or use a /v1/score endpoint)"))
  end.

(** *** Over HTTP *)

Record HttpRequest := { hr_URL : string; hr_Headers : list (string * string); hr_Body : string }.

(** The first bytes of a body ([io.LimitReader]). *)
Fixpoint limit_read (n : N) (s : string) : string :=
  match s with
  | String c s' => if (n =? 0)%N then "" else String c (limit_read (N.pred n) s')
  | "" => ""
  end.
Definition body_limit : N := 4194304.

Definition json_header : string * string := ("Content-Type", "application/json").

(** The world behind the endpoints; building a request fails on a bad URL. *)
Context {W : Type} (newRequest : string -> option error) (send : HttpRequest -> W -> res error (Z * string) * W).

(** One POST, as the backends and the tokenizer perform it: [what] is the
    endpoint's name in errors. *)
Definition post (what url : string) (headers : list (string * string)) (body : string) (w : W) : res error string * W :=
  match newRequest url with
  | Some e => (Err e, w)
  | None =>
      match send {| hr_URL := url; hr_Headers := headers; hr_Body := body |} w with
      | (Err e, w) => (Err (EWrap ("scoring: " +:+ what +:+ ": ") e), w)
      | (Ok (status, text), w) =>
          let raw := limit_read body_limit text in
          (if negb (status =? 200)%Z
           then Err (EText ("scoring: " +:+ what +:+ ": HTTP " +:+ pretty status +:+ ": " +:+ trim_space raw))
           else Ok raw, w)
      end
  end.

Record ChatConfig := { chc_BaseURL : string; chc_APIKey : string; chc_Model : string; chc_TopLogProbs : Z }.
Record ChatScorer := { chs_BaseURL : string; chs_APIKey : string; chs_Model : string; chs_TopLogProbs : Z }.

Definition trim_right_slash (s : string) : string := str_rev (trim_left_cut "/" (str_rev s)).

Definition NewChatScorer (cfg : ChatConfig) : res scoring_error ChatScorer :=
  if String.eqb (trim_space (chc_BaseURL cfg)) "" then Err (sText "scoring: ChatConfig.BaseURL is required")
  else if String.eqb (trim_space (chc_Model cfg)) "" then Err (sText "scoring: ChatConfig.Model is required")
  else
    let top := if (chc_TopLogProbs cfg =? 0)%Z then 20%Z else chc_TopLogProbs cfg in
    if (top <? 2)%Z
    then Err (sText ("scoring: ChatConfig.TopLogProbs=" +:+ pretty top +:+ " is too small to rank options"))
    else Ok {| chs_BaseURL := trim_right_slash (chc_BaseURL cfg); chs_APIKey := chc_APIKey cfg; chs_Model := chc_Model cfg;
               chs_TopLogProbs := top |}.

Record chatMessage := { cm_Role : string; cm_Content : string }.
Record chatRequest := {
  cq_Model : string; cq_Messages : list chatMessage; cq_MaxTokens : Z; cq_Temperature : float64; cq_LogProbs : bool;
  cq_TopLogProbs : Z
}.
(** The choices, with their log-probabilities where present. *)
Definition chatResponse : Type := list (chatMessage * option (list chatContentLogProb)).

Context (chat_marshal : chatRequest -> res error string) (chat_unmarshal : string -> res error chatResponse).

Definition chat_request (s : ChatScorer) (prompt : string) : chatRequest :=
  {| cq_Model := chs_Model s; cq_Messages := [{| cm_Role := "user"; cm_Content := prompt |}]; cq_MaxTokens := 1;
     cq_Temperature := f_zero; cq_LogProbs := true; cq_TopLogProbs := chs_TopLogProbs s |}.

Definition chat_Score (s : ChatScorer) (prompt : string) (labels options : list string) (w : W)
  : res scoring_error ScoreDecision * W :=
  let n := Z.of_nat (List.length labels) in
  if negb (List.length labels =? List.length options)%nat
  then (Err (sText ("scoring: " +:+ pretty (List.length labels) +:+ " labels but " +:+ pretty (List.length options) +:+ " options")), w)
  else if (chs_TopLogProbs s <? n)%Z
  then (Err (sText ("scoring: TopLogProbs=" +:+ pretty (chs_TopLogProbs s) +:+ " cannot rank " +:+ pretty n +:+ " options")), w)
  else match chat_marshal (chat_request s prompt) with
  | Err e => (Err (Failed e), w)
  | Ok body =>
      let headers := json_header :: (if String.eqb (chs_APIKey s) "" then [] else [("Authorization", "Bearer " +:+ chs_APIKey s)]) in
      let '(r, w) := post "chat/completions" (chs_BaseURL s +:+ "/chat/completions") headers body w in
      (match r with
       | Err e => Err (Failed e)
       | Ok raw =>
           match chat_unmarshal raw with
           | Err e => Err (sWrap "scoring: chat/completions decode: " e)
           | Ok [] => Err (sText "scoring: chat/completions returned no choices")
           | Ok ((_, Some (content :: _)) :: _) => decisionFromAnswerToken content labels options
           | Ok ((_, _) :: _) => Err (Unobserved "the endpoint returned no logprobs (does this provider support them?)")
           end
       end, w)
  end.

(** ** The scoring server *)

Record TokenIDResolver := {
  TokenLen : string -> W -> res error Z * W;
  SingleTokenID : string -> W -> res error Z * W
}.

Fixpoint ValidateSingleTokens (tk : TokenIDResolver) (labels : list string) (w : W) : option error * W :=
  match labels with
  | [] => (None, w)
  | lb :: rest =>
      match TokenLen tk lb w with
      | (Err e, w) => (Some (EWrap ("tokenize label " +:+ go_quote lb +:+ ": ") e), w)
      | (Ok n, w) =>
          if (n =? 1)%Z then ValidateSingleTokens tk rest w
          else (Some (EText ("label " +:+ go_quote lb +:+ " occupies " +:+ pretty n
                             +:+ " tokens; fixed-choice scoring requires exactly 1")), w)
      end
  end.

Record ScoreConfig := {
  sc_BaseURL : string; sc_Model : string; sc_Tokenizer : option TokenIDResolver; sc_LabelTokenIDs : gmap string Z;
  sc_SpacePrefix : bool
}.
Record ScoreServer := {
  ss_BaseURL : string; ss_Model : string; ss_Tok : option TokenIDResolver; ss_LabelTokenIDs : gmap string Z;
  ss_SpacePrefix : bool; ss_idCache : gmap string (list Z)
}.

Definition NewScoreServer (cfg : ScoreConfig) : res scoring_error ScoreServer :=
  if String.eqb (trim_space (sc_BaseURL cfg)) "" then Err (sText "scoring: ScoreConfig.BaseURL is required")
  else if String.eqb (trim_space (sc_Model cfg)) "" then Err (sText "scoring: ScoreConfig.Model is required")
  else match sc_Tokenizer cfg, bool_decide (sc_LabelTokenIDs cfg = ∅) with
       | None, true => Err (sText "scoring: ScoreConfig needs a Tokenizer or LabelTokenIDs to resolve labels to token ids")
       | tok, _ => Ok {| ss_BaseURL := trim_right_slash (sc_BaseURL cfg); ss_Model := sc_Model cfg; ss_Tok := tok;
                         ss_LabelTokenIDs := sc_LabelTokenIDs cfg; ss_SpacePrefix := sc_SpacePrefix cfg; ss_idCache := ∅ |}
       end.

Definition tokenSurfaces (s : ScoreServer) (labels : list string) : list string :=
  map (fun lb => if ss_SpacePrefix s then " " +:+ lb else lb) labels.

Definition c_nul : ascii := byte 0.
Definition cache_key (s : ScoreServer) (labels : list string) : string :=
  (if ss_SpacePrefix s then " " else "") +:+ join (String c_nul "") labels.

Definition set_cached (key : string) (ids : list Z) (s : ScoreServer) : ScoreServer :=
  {| ss_BaseURL := ss_BaseURL s; ss_Model := ss_Model s; ss_Tok := ss_Tok s; ss_LabelTokenIDs := ss_LabelTokenIDs s;
     ss_SpacePrefix := ss_SpacePrefix s; ss_idCache := <[key := ids]> (ss_idCache s) |}.

Definition supplied_ids (ids : gmap string Z) (labels : list string) : res scoring_error (list Z) :=
  res_mapM (fun lb => match ids !! lb with
                      | Some id => Ok id
                      | None => Err (sText ("scoring: no token id supplied for label " +:+ go_quote lb))
                      end) labels.

Fixpoint surface_ids (tk : TokenIDResolver) (surfaces : list string) (w : W) : res scoring_error (list Z) * W :=
  match surfaces with
  | [] => (Ok [], w)
  | text :: rest =>
      match SingleTokenID tk text w with
      | (Err e, w) => (Err (sWrap ("scoring: token id for " +:+ go_quote text +:+ ": ") e), w)
      | (Ok id, w) => let '(r, w) := surface_ids tk rest w in (res_bind r (fun ids => Ok (id :: ids)), w)
      end
  end.

(** The ids of the labels, without the cache; [None] is the panic of a
    missing tokenizer. *)
Definition fresh_ids (s : ScoreServer) (labels : list string) (w : W) : option (res scoring_error (list Z) * W) :=
  if negb (bool_decide (ss_LabelTokenIDs s = ∅)) then Some (supplied_ids (ss_LabelTokenIDs s) labels, w)
  else
    let surfaces := tokenSurfaces s labels in
    match ss_Tok s with
    | None => match labels with [] => Some (Ok [], w) | _ => None end
    | Some tk =>
        Some (match ValidateSingleTokens tk surfaces w with
              | (Some e, w) => (Err (Failed e), w)
              | (None, w) => surface_ids tk surfaces w
              end)
    end.

Definition resolveLabelIDs (s : ScoreServer) (labels : list string) (w : W)
  : option (res scoring_error (list Z) * ScoreServer * W) :=
  match ss_idCache s !! cache_key s labels with
  | Some cached => Some (Ok cached, s, w)
  | None =>
      match fresh_ids s labels w with
      | None => None
      | Some (Ok ids, w) => Some (Ok ids, set_cached (cache_key s labels) ids s, w)
      | Some (Err e, w) => Some (Err e, s, w)
      end
  end.

Record scoreRequest := {
  sq_Model : string; sq_Query : string; sq_Items : list string; sq_LabelTokenIDs : list Z; sq_ApplySoftmax : bool
}.
Context (score_marshal : scoreRequest -> res error string) (score_unmarshal : string -> res error (list (list float64))).

Definition server_Score (s : ScoreServer) (prompt : string) (labels options : list string) (w : W)
  : option (res scoring_error ScoreDecision * ScoreServer * W) :=
  if negb (List.length labels =? List.length options)%nat
  then Some (Err (sText ("scoring: " +:+ pretty (List.length labels) +:+ " labels but " +:+ pretty (List.length options)
                         +:+ " options")), s, w)
  else match resolveLabelIDs s labels w with
  | None => None
  | Some (Err e, s, w) => Some (Err e, s, w)
  | Some (Ok ids, s, w) =>
      match score_marshal {| sq_Model := ss_Model s; sq_Query := prompt; sq_Items := [""]; sq_LabelTokenIDs := ids;
                             sq_ApplySoftmax := true |} with
      | Err e => Some (Err (Failed e), s, w)
      | Ok body =>
          let '(r, w) := post "/v1/score" (ss_BaseURL s +:+ "/v1/score") [json_header] body w in
          Some (match r with
                | Err e => Err (Failed e)
                | Ok raw =>
                    match score_unmarshal raw with
                    | Err e => Err (sWrap "scoring: /v1/score decode: " e)
                    | Ok [] => Err (Unobserved "/v1/score returned no scores")
                    | Ok (probs :: _) =>
                        if negb (List.length probs =? List.length ids)%nat
                        then Err (sText ("scoring: /v1/score returned " +:+ pretty (List.length probs) +:+ " probabilities for "
                                         +:+ pretty (List.length ids) +:+ " labels"))
                        else BuildDecision labels options probs
                    end
                end, s, w)
      end
  end.

(** ** The tokenizer endpoint *)

Record tokenizeResponse := { tz_Tokens : list Z; tz_Count : Z; tz_Content : list string }.
Context (tok_marshal : string -> res error string) (tok_unmarshal : string -> res error tokenizeResponse).

Definition NewHTTPTokenizer (baseURL : string) : string := trim_right_slash baseURL.

Definition tokenizer_call (baseURL text : string) (w : W) : res error tokenizeResponse * W :=
  match tok_marshal text with
  | Err e => (Err e, w)
  | Ok body =>
      let '(r, w) := post "/tokenize" (baseURL +:+ "/tokenize") [json_header] body w in
      (res_bind r (fun raw => match tok_unmarshal raw with
                              | Err e => Err (EWrap "scoring: /tokenize decode: " e)
                              | Ok tk => Ok tk
                              end), w)
  end.

Definition http_TokenLen (baseURL text : string) (w : W) : res error Z * W :=
  let '(r, w) := tokenizer_call baseURL text w in
  (res_bind r (fun tk =>
     if (0 <? List.length (tz_Tokens tk))%nat then Ok (Z.of_nat (List.length (tz_Tokens tk)))
     else if (0 <? tz_Count tk)%Z then Ok (tz_Count tk)
     else if (0 <? List.length (tz_Content tk))%nat then Ok (Z.of_nat (List.length (tz_Content tk)))
     else Err (EText "scoring: /tokenize returned nothing")), w).

Definition http_SingleTokenID (baseURL text : string) (w : W) : res error Z * W :=
  let '(r, w) := tokenizer_call baseURL text w in
  (res_bind r (fun tk =>
     match tz_Tokens tk with
     | [id] => Ok id
     | l => Err (EText ("text " +:+ go_quote text +:+ " is " +:+ pretty (List.length l) +:+ " tokens, need exactly 1"))
     end), w).

Definition HTTPTokenizer (baseURL : string) : TokenIDResolver :=
  {| TokenLen := http_TokenLen baseURL; SingleTokenID := http_SingleTokenID baseURL |}.
End Math.
