(* ===== verification/ScoringProps.v ===== *)
(** * Properties of the scoring adapter *)
From S2P Require Import Prelude GoStrings CoreErrors CoreTypes Float64 FloatText Genes GenesProps Scoring.
From Stdlib Require Import Ascii String SpecFloat.
Open Scope string_scope.

(** ** Floats *)

Lemma total_finite probs t0 : is_finite (fold_left (fun t p => f_add t (clamp p)) probs t0) = true ->
  is_finite t0 = true /\ Forall (fun p => is_finite (clamp p) = true) probs.
Proof.
  revert t0. induction probs as [|p probs IH]; intros t0; cbn [fold_left]; [done|].
  intros [[Ha Hb]%f_add_finite Hf]%IH. by split; [|constructor].
Qed.

Lemma clamp_nonneg p : is_finite (clamp p) = true -> f_le f_zero (clamp p) = true.
Proof.
  unfold clamp. destruct (f_lt p f_zero) eqn:Hl; [done|]. intros Hf%finite_number. by apply f_not_lt.
Qed.

(** ** The ranking loop *)

Definition f_same (x y : float64) : Prop := f_le x y = true /\ f_le y x = true.
Definition number (x : float64) : Prop := is_nan x = false /\ f_le f_zero x = true.

(** What the loop knows after the probabilities [done]. *)
Record ranked (done : list float64) (r : Ranking) : Prop := {
  rd_top : number (rk_top r);
  rd_second : number (rk_second r);
  rd_le : f_le (rk_second r) (rk_top r) = true;
  rd_max : Forall (fun q => f_le q (rk_top r) = true) done;
  rd_start : done = [] -> rk_top r = f_zero /\ rk_second r = f_zero /\ rk_best r = 0;
  rd_best : done <> [] -> exists q, done !! rk_best r = Some q /\ f_same (rk_top r) q;
  rd_first : forall j q, done !! j = Some q -> j < rk_best r -> f_lt q (rk_top r) = true;
  rd_others : forall j q, done !! j = Some q -> j <> rk_best r -> f_le q (rk_second r) = true;
  rd_attained : rk_second r = f_zero \/ exists j q, done !! j = Some q /\ j <> rk_best r /\ f_same (rk_second r) q
}.

Lemma f_same_refl x : is_nan x = false -> f_same x x.
Proof. intros H. by split; apply f_le_refl. Qed.

Lemma ranked_start : ranked [] ranking0.
Proof. by split; try done; [left]. Qed.

Ltac numbers := unfold number in *; destruct_and?; split_and?; eauto using f_lt_le, f_le_refl, f_le_trans, f_lt_le_trans, f_le_lt_trans.

Lemma ranked_number done r q j : ranked done r -> Forall number done -> done !! j = Some q -> is_nan q = false /\ f_le q (rk_top r) = true.
Proof.
  intros H Hd Hj. split; [by apply (Forall_lookup_1 _ _ _ _ Hd Hj)|]. exact (Forall_lookup_1 _ _ _ _ (rd_max _ _ H) Hj).
Qed.

Lemma ranked_win done r total o p : ranked done r -> Forall number done ->
  number (f_div (clamp p) total) -> f_lt (rk_top r) (f_div (clamp p) total) = true ->
  ranked (done ++ [f_div (clamp p) total]) (rank_step total (List.length done) o p r).
Proof.
  intros H Hd Hq Hlt. unfold rank_step. rewrite Hlt. set (q := f_div (clamp p) total) in *. clearbody q.
  pose proof (rd_top _ _ H) as Ht. pose proof (rd_second _ _ H). split; cbn [rk_top rk_second rk_best].
  - done.
  - done.
  - by apply f_lt_le.
  - apply Forall_app. split; [|constructor; [|constructor]; numbers].
    apply Forall_lookup. intros j q' Hj. destruct (ranked_number _ _ _ _ H Hd Hj). numbers.
  - by intros [_ ?]%app_nil.
  - intros _. exists q. split; [by rewrite lookup_app_r, Nat.sub_diag by lia|]. apply f_same_refl. apply Hq.
  - intros j q' Hj Hlt'. rewrite lookup_app_l in Hj by done. destruct (ranked_number _ _ _ _ H Hd Hj). numbers.
  - intros j q' Hj Hne. assert (j < List.length done) as Hl.
    { apply lookup_lt_Some in Hj. rewrite length_app in Hj. cbn in Hj. lia. }
    rewrite lookup_app_l in Hj by done. by destruct (ranked_number _ _ _ _ H Hd Hj).
  - destruct (decide (done = [])) as [->|Hne]; [left; by apply (rd_start _ _ H)|right].
    destruct (rd_best _ _ H Hne) as (q' & Hb & Hs). exists (rk_best r), q'. pose proof (lookup_lt_Some _ _ _ Hb).
    split; [by rewrite lookup_app_l|]. split; [lia|done].
Qed.

Lemma ranked_lose done r total o p : ranked done r -> Forall number done ->
  number (f_div (clamp p) total) -> f_lt (rk_top r) (f_div (clamp p) total) = false ->
  ranked (done ++ [f_div (clamp p) total]) (rank_step total (List.length done) o p r).
Proof.
  intros H Hd Hq Hlt. unfold rank_step. rewrite Hlt. set (q := f_div (clamp p) total) in *. clearbody q.
  pose proof (rd_top _ _ H) as Ht. pose proof (rd_second _ _ H) as Hs. pose proof (rd_le _ _ H) as Hle.
  assert (f_le q (rk_top r) = true) as Hqt by (apply f_not_lt in Hlt; [done|apply Ht|apply Hq]).
  set (second := if f_lt (rk_second r) q then q else rk_second r).
  assert (number second /\ f_le (rk_second r) second = true /\ f_le q second = true /\ f_le second (rk_top r) = true) as (Hn & Hs1 & Hs2 & Hs3).
  { unfold second. destruct (f_lt (rk_second r) q) eqn:E; [split_and!; numbers|].
    apply f_not_lt in E; [|apply Hs|apply Hq]. split_and!; numbers. }
  assert (Forall (fun q' => f_le q' (rk_top r) = true) (done ++ [q])) as Hmax by (apply Forall_app; split; [apply H|by repeat constructor]).
  destruct (decide (done = [])) as [->|Hne].
  { destruct (rd_start _ _ H eq_refl) as (H1 & H2 & H3).
    split; cbn [rk_top rk_second rk_best app]; try done.
    - intros _. exists q. rewrite H3. split; [done|]. split; [|done]. rewrite H1. apply Hq.
    - intros j q' _ Hj. lia.
    - intros [|j] q' Hj Hj'; [by rewrite H3 in Hj'|done].
    - left. unfold second. rewrite H1 in Hlt. by rewrite H2, Hlt. }
  destruct (rd_best _ _ H Hne) as (qb & Hb & Hsame). pose proof (lookup_lt_Some _ _ _ Hb) as Hbl.
  split; cbn [rk_top rk_second rk_best]; try done.
  - by intros [_ ?]%app_nil.
  - intros _. exists qb. by rewrite lookup_app_l.
  - intros j q' Hj Hj'. rewrite lookup_app_l in Hj by lia. by apply (rd_first _ _ H j).
  - intros j q' Hj Hj'. apply lookup_app_Some in Hj as [Hj|[Hj1 Hj2]].
    + destruct (ranked_number _ _ _ _ H Hd Hj) as [Hnan _]. pose proof (rd_others _ _ H _ _ Hj Hj').
      apply (f_le_trans _ (rk_second r)); numbers.
    + by apply list_lookup_singleton_Some in Hj2 as [_ ->].
  - unfold second. destruct (f_lt (rk_second r) q).
    + right. exists (List.length done), q. rewrite lookup_app_r, Nat.sub_diag by lia. split; [done|]. split; [lia|].
      apply f_same_refl, Hq.
    + destruct (rd_attained _ _ H) as [->|(j & q' & Hj & Hj' & Hjs)]; [by left|right]. exists j, q'.
      by rewrite lookup_app_l by (by eapply lookup_lt_Some).
Qed.

Definition normalised (total p : float64) : float64 := f_div (clamp p) total.

Lemma rank_from_ranked total l done r : ranked done r -> Forall number done ->
  Forall (fun x => number (normalised total (snd x))) l ->
  ranked (done ++ map (normalised total) l.*2) (rank_from total (List.length done) l r).
Proof.
  revert done r. induction l as [|[o p] l IH]; intros done r Hr Hd Hl; cbn [rank_from map fmap list_fmap].
  { by rewrite app_nil_r. }
  apply Forall_cons in Hl as [Hp Hl]. cbn [snd fst] in *.
  change (normalised total p :: map (normalised total) l.*2) with ([normalised total p] ++ map (normalised total) l.*2)%list.
  rewrite app_assoc. replace (S (List.length done)) with (List.length (done ++ [normalised total p])%list) by (rewrite length_app; cbn; lia).
  apply IH; [|by apply Forall_app; split; [|apply Forall_singleton]|done].
  destruct (f_lt (rk_top r) (f_div (clamp p) total)) eqn:E; [by apply ranked_win|by apply ranked_lose].
Qed.

Lemma rank_step_dist total i o p r : rk_dist (rank_step total i o p r) = <[o := normalised total p]> (rk_dist r).
Proof. unfold rank_step. by destruct (f_lt _ _). Qed.

Lemma rank_from_dist_other total l i r o : o ∉ l.*1 -> rk_dist (rank_from total i l r) !! o = rk_dist r !! o.
Proof.
  revert i r. induction l as [|[o' p] l IH]; intros i r Ho; [done|]. cbn [rank_from fmap list_fmap fst] in *.
  rewrite IH, rank_step_dist, lookup_insert_ne by set_solver. done.
Qed.

Lemma rank_from_dist total l i r j o p : NoDup l.*1 -> l !! j = Some (o, p) ->
  rk_dist (rank_from total i l r) !! o = Some (normalised total p).
Proof.
  revert i j r. induction l as [|[o' p'] l IH]; intros i j r Hnd Hj; [done|]. cbn [rank_from fmap list_fmap fst] in *.
  apply NoDup_cons in Hnd as [Ho Hnd]. destruct j as [|j]; [|by apply (IH _ j)]. injection Hj as -> ->.
  by rewrite rank_from_dist_other, rank_step_dist, lookup_insert_eq.
Qed.

Lemma rank_from_dom total l i r : dom (rk_dist (rank_from total i l r)) = list_to_set l.*1 ∪ dom (rk_dist r).
Proof.
  revert i r. induction l as [|[o p] l IH]; intros i r; cbn [rank_from fmap list_fmap list_to_set fst]; [set_solver|].
  rewrite IH, rank_step_dist, dom_insert_L. set_solver.
Qed.

Lemma duplicate_from_nodup seen xs : "" ∉ xs -> duplicate_from seen xs = "" -> NoDup xs /\ Forall (fun x => x ∉ seen) xs.
Proof.
  revert seen. induction xs as [|x xs IH]; intros seen Hne H; cbn [duplicate_from] in H; [by split; constructor|].
  apply not_elem_of_cons in Hne as [Hx Hne]. case_bool_decide as Hs; [congruence|].
  destruct (IH _ Hne H) as [Hnd Hf]. rewrite Forall_forall in Hf. split.
  - constructor; [|done]. intros Hin. specialize (Hf _ Hin). set_solver.
  - constructor; [done|]. apply Forall_forall. intros y Hy. specialize (Hf _ Hy). set_solver.
Qed.

Section BuildDecision.
Context `{GoRange} (math_Log : float64 -> float64).

Lemma BuildDecision_ok labels options probs d : BuildDecision math_Log labels options probs = Ok d ->
  let r := rank_from (total_of probs) 0 (zip options probs) ranking0 in
  List.length labels = List.length options /\ List.length options = List.length probs /\ options <> [] /\
  firstDuplicate options = "" /\ firstDuplicate labels = "" /\ f_le (total_of probs) f_zero = false /\
  sd_Choice d = default "" (options !! rk_best r) /\ sd_Distribution d = rk_dist r /\ sd_Margin d = f_sub (rk_top r) (rk_second r).
Proof.
  unfold BuildDecision. destruct (Nat.eqb_spec (List.length labels) (List.length options)); [|done].
  destruct (Nat.eqb_spec (List.length options) (List.length probs)); [|done].
  destruct (Nat.eqb_spec (List.length options) 0) as [|Hn]; [done|].
  destruct (String.eqb_spec (firstDuplicate options) ""); [|done].
  destruct (String.eqb_spec (firstDuplicate labels) ""); [|done]. cbn [negb orb].
  destruct (f_le (total_of probs) f_zero); [done|]. intros [= <-]. cbn. split_and!; try done.
  intros ->. done.
Qed.

(** What the ranking loop leaves behind a decision: the ranked probabilities,
    one per option and none of them NaN. *)
Lemma BuildDecision_ranked labels options probs d :
  BuildDecision math_Log labels options probs = Ok d -> "" ∉ options -> is_finite (total_of probs) = true ->
  let qs := map (normalised (total_of probs)) probs in
  exists r, ranked qs r /\ options <> [] /\ List.length options = List.length qs /\
    dom (sd_Distribution d) = list_to_set options /\
    sd_Choice d = default "" (options !! rk_best r) /\ sd_Margin d = f_sub (rk_top r) (rk_second r) /\
    (forall j o, options !! j = Some o -> exists q, qs !! j = Some q /\ Prob d o = q) /\
    (forall j x, qs !! j = Some x -> is_nan x = false).
Proof.
  intros HB Hne Hfin. apply BuildDecision_ok in HB as (Hl & Hp & Hno & Hdup & _ & Hpos & Hc & Hd & Hm).
  set (total := total_of probs) in *. set (l := zip options probs) in *. set (r := rank_from total 0 l ranking0) in *.
  assert (l.*1 = options) as Hl1.
  { apply fst_zip. lia. }
  assert (l.*2 = probs) as Hl2.
  { apply snd_zip. lia. }
  destruct (duplicate_from_nodup ∅ options Hne Hdup) as [Hnd _].
  destruct (total_finite probs f_zero Hfin) as [_ Hall].
  assert (f_lt f_zero total = true) as Hlt.
  { destruct (f_lt f_zero total) eqn:E; [done|]. apply f_not_lt in E; [|done|by apply finite_number]. congruence. }
  assert (Forall (fun x => number (normalised total (snd x))) l) as Hnum.
  { change (Forall ((fun p => number (normalised total p)) ∘ snd) l). apply Forall_fmap. rewrite Hl2. eapply Forall_impl; [exact Hall|].
    intros p Hpf. by apply f_div_nonneg; [|apply clamp_nonneg| |]. }
  pose proof (rank_from_ranked total l [] ranking0 ranked_start (Forall_nil_2 _) Hnum) as Hr. cbn [app List.length] in Hr. fold r in Hr.
  rewrite Hl2 in Hr.
  assert (forall j o, options !! j = Some o -> exists q, map (normalised total) probs !! j = Some q /\ Prob d o = q) as Hprob.
  { intros j o Hj. destruct (lookup_lt_is_Some_2 probs j) as [p Hpj]; [rewrite <- Hp; by eapply lookup_lt_Some|].
    exists (normalised total p). split; [by rewrite list_lookup_fmap, Hpj|]. unfold Prob. rewrite Hd. unfold r.
    rewrite (rank_from_dist total l 0 ranking0 j o p); [done|by rewrite Hl1|]. unfold l. apply lookup_zip_Some. done. }
  exists r. split_and!; [exact Hr|done|by rewrite length_map| |done|done|exact Hprob|].
  - rewrite Hd. unfold r. rewrite rank_from_dom, Hl1. cbn. set_solver.
  - intros j x Hx. rewrite list_lookup_fmap in Hx. destruct (probs !! j) as [p|] eqn:Hpj; [|done]. injection Hx as <-.
    rewrite Forall_forall in Hnum. destruct (lookup_lt_is_Some_2 options j) as [oj Hoj].
    { rewrite Hp. by eapply lookup_lt_Some. }
    apply (Hnum (oj, p)). apply (list_elem_of_lookup_2 _ j). unfold l. apply lookup_zip_Some. done.
Qed.

(** C18: The decision is the first option of highest probability, over exactly
    the given options; the margin is its lead over the best of the others
    (or over zero).  This is stated for options none of which is the empty
    string (the empty text also means that no option is repeated) and for
    probabilities whose total is a finite float. *)
Theorem build_choice labels options probs d :
  BuildDecision math_Log labels options probs = Ok d -> "" ∉ options -> is_finite (total_of probs) = true ->
  dom (sd_Distribution d) = list_to_set options /\
  exists i runner_up, options !! i = Some (sd_Choice d) /\ (exists top, sd_Margin d = f_sub top runner_up /\ f_same top (Top d)) /\
    (forall j o, options !! j = Some o ->
       f_le (Prob d o) (Top d) = true /\ (j < i -> f_lt (Prob d o) (Top d) = true) /\ (j <> i -> f_le (Prob d o) runner_up = true)) /\
    (runner_up = f_zero \/ exists j o, options !! j = Some o /\ j <> i /\ f_same runner_up (Prob d o)).
Proof.
  intros HB Hne Hfin. destruct (BuildDecision_ranked _ _ _ _ HB Hne Hfin) as (r & Hr & Hno & Hlen & Hdom & Hc & Hm & Hprob & Hnan).
  set (qs := map _ probs) in *. split; [done|]. destruct (rd_best _ _ Hr) as (q & Hq & Hs1 & Hs2).
  { intros Hnil. apply Hno, length_zero_iff_nil. by rewrite Hlen, Hnil. }
  destruct (lookup_lt_is_Some_2 options (rk_best r)) as [o Ho].
  { rewrite Hlen. by eapply lookup_lt_Some. }
  rewrite Ho in Hc. cbn in Hc. destruct (Hprob _ _ Ho) as (q' & Hq' & HT). assert (q' = q) as -> by congruence.
  assert (Top d = q) as Htop by (unfold Top; congruence). rewrite Htop in *.
  pose proof (rd_top _ _ Hr) as Htn. pose proof (Hnan _ _ Hq) as Hqn.
  exists (rk_best r), (rk_second r). split; [congruence|]. split; [by exists (rk_top r)|]. split.
  - intros j oj Hj. destruct (Hprob _ _ Hj) as (x & Hx & ->). pose proof (Hnan _ _ Hx) as Hxn. split_and!.
    + pose proof (Forall_lookup_1 _ _ _ _ (rd_max _ _ Hr) Hx). numbers.
    + intros Hlt'. pose proof (rd_first _ _ Hr _ _ Hx Hlt'). numbers.
    + intros Hj'. by apply (rd_others _ _ Hr _ _ Hx).
  - destruct (rd_attained _ _ Hr) as [->|(j & x & Hx & Hj & Hsm)]; [by left|right].
    destruct (lookup_lt_is_Some_2 options j) as [oj Hoj]; [rewrite Hlen; by eapply lookup_lt_Some|].
    exists j, oj. destruct (Hprob _ _ Hoj) as (x' & Hx' & ->). assert (x' = x) as -> by congruence. done.
Qed.
End BuildDecision.

Lemma build_choice_witness :
  exists d, BuildDecision (H := stored_order) (fun x => x) ["A"; "B"; "C"] ["net"; "db"; "ui"] [f_0_2; f_0_6; f_0_2] = Ok d /\
    sd_Choice d = "db" /\ dom (sd_Distribution d) = list_to_set ["net"; "db"; "ui"].
Proof.
  destruct (BuildDecision (H := stored_order) (fun x => x) ["A"; "B"; "C"] ["net"; "db"; "ui"] [f_0_2; f_0_6; f_0_2]) as [d|e] eqn:E; [|by vm_compute in E].
  exists d. split; [done|].
  destruct (build_choice (H := stored_order) (fun x => x) _ _ _ _ E) as (Hdom & _); [by set_solver|by vm_compute|].
  split; [|done]. vm_compute in E. by injection E as <-.
Defined.

(** An empty option that occurs twice is not noticed, since the empty text
    also means that nothing is repeated. *)
Theorem empty_duplicate_unnoticed :
  firstDuplicate [""; ""] = "" /\
  is_ok (BuildDecision (H := stored_order) (fun x => x) ["A"; "B"] [""; ""] [f_0_1; f_0_9]) = true.
Proof. split; by_vm. Qed.

(** ** Thresholds and flags *)

Definition threshold_numbers (t : Thresholds) : Prop :=
  is_nan (th_Auto t) = false /\ is_nan (th_Margin t) = false /\ is_nan (th_Review t) = false.

(** With thresholds that are numbers, the absence of flags is exactly the
    case of an observed decision that clears every bar. *)
Theorem no_flags_iff t d :
  threshold_numbers t -> (forall d', d = Some d' -> is_nan (Top d') = false /\ is_nan (sd_Margin d') = false) ->
  Flags t d = ∅ <->
  exists d', d = Some d' /\ f_le (th_Review t) (Top d') = true /\ f_le (th_Auto t) (Top d') = true /\
             f_le (th_Margin t) (sd_Margin d') = true.
Proof.
  intros (Ha & Hm & Hr) Hd. destruct d as [d'|]; [|split; [|naive_solver]].
  - destruct (Hd d' eq_refl) as [Ht Hmd]. unfold Flags. split.
    + intros Hf. exists d'. split; [done|].
      destruct (f_lt (Top d') (th_Review t)) eqn:E1, (f_lt (Top d') (th_Auto t)) eqn:E2, (f_le (th_Auto t) (Top d')) eqn:E3,
        (f_lt (sd_Margin d') (th_Margin t)) eqn:E4; cbn [andb] in Hf; try by apply insert_non_empty in Hf.
      all: try (apply f_not_lt in E1; [|done..]); try (apply f_not_lt in E2; [|done..]); try (apply f_not_lt in E4; [|done..]); try done; congruence.
    + intros (? & [= <-] & H1 & H2 & H3). rewrite (f_le_not_lt _ _ H1), (f_le_not_lt _ _ H2), (f_le_not_lt _ _ H3), andb_false_r. done.
  - cbn. intros He. by apply map_non_empty_singleton in He.
Qed.

Definition sure : ScoreDecision :=
  {| sd_Choice := "net"; sd_Distribution := {["net" := f_0_9; "db" := f_0_1]}; sd_Margin := f_0_8; sd_Entropy := f_zero |}.
Definition bars : Thresholds := {| th_Auto := f_0_8; th_Margin := f_0_2; th_Review := f_0_5 |}.

Lemma no_flags_iff_witness : Flags bars (Some sure) = ∅.
Proof.
  apply no_flags_iff; [by split_and!|intros d' [= <-]; by split|]. exists sure. by split_and!.
Defined.

(** A threshold that is not a number is accepted and never flagged: with such
    a fact in the policy every observed decision passes every bar, although
    a missing or non-numeric threshold is an error. *)
Theorem nan_threshold_permissive d :
  ThresholdsFromPolicy (Some (fun _ _ => Ok [{["V" := "nan"]}])) "" =
    ({| th_Auto := S754_nan; th_Margin := S754_nan; th_Review := S754_nan |}, None) /\
  Flags {| th_Auto := S754_nan; th_Margin := S754_nan; th_Review := S754_nan |} (Some d) = ∅.
Proof.
  split; [by_vm|].
  assert (forall x, f_lt x S754_nan = false /\ f_le S754_nan x = false) as Hn by by intros [[]|[]| |[] ? ?].
  unfold Flags. cbn [th_Auto th_Margin th_Review]. destruct (Hn (Top d)) as [-> ->]. by destruct (Hn (sd_Margin d)) as [-> _].
Qed.

(** ** The request *)

Definition scoring_keys : gset string := {["unobserved_distribution"; "below_review"; "below_auto"; "thin_margin"; "choice"]}.

Lemma Flags_keys t d : dom (Flags t d) ⊆ scoring_keys.
Proof.
  unfold Flags, scoring_keys. destruct d as [d|]; [|set_solver].
  repeat match goal with |- context [if ?b then _ else _] => destruct b end; rewrite ?dom_insert_L, ?dom_empty_L; set_solver.
Qed.

(** A request built from an envelope keeps its payload, identity, labels
    and context facts, every metadata entry that is not a scoring key, and
    its facts, to which an observed decision adds three and an unobserved
    one none; every raised flag is in the metadata. *)
Theorem Request_keeps id env d t :
  let req := ScoringRequest id (EnvelopePayload env) d t in
  env_ID req = env_ID env /\ env_Payload req = env_Payload env /\ env_SecurityLabels req = env_SecurityLabels env /\
  env_ContextFacts req = env_ContextFacts env /\
  (forall k, k ∉ scoring_keys -> env_Metadata req !! k = env_Metadata env !! k) /\
  (forall k v, k <> "choice" -> Flags t d !! k = Some v -> env_Metadata req !! k = Some (GStr v)) /\
  exists added, env_Facts req = (env_Facts env ++ added)%list /\ List.length added = match d with Some _ => 3 | None => 0 end.
Proof.
  cbn zeta. unfold ScoringRequest. pose proof (Flags_keys t d) as Hk.
  assert (forall k, k ∉ scoring_keys -> ((GStr <$> Flags t d) ∪ env_Metadata env) !! k = env_Metadata env !! k) as Hkeep.
  { intros k Hn. apply lookup_union_r. rewrite lookup_fmap. destruct (Flags t d !! k) eqn:E; [|done].
    apply elem_of_dom_2 in E. set_solver. }
  assert (forall k v, Flags t d !! k = Some v -> ((GStr <$> Flags t d) ∪ env_Metadata env) !! k = Some (GStr v)) as Hflag.
  { intros k v Hv. apply lookup_union_Some_l. by rewrite lookup_fmap, Hv. }
  destruct d as [d|]; cbn -[Flags scoring_keys]; split_and!; try done.
  - intros k Hn. rewrite lookup_insert_ne by (unfold scoring_keys in Hn; set_solver). by apply Hkeep.
  - intros k v Hc Hv. rewrite lookup_insert_ne by done. by apply Hflag.
  - eexists. split; [reflexivity|done].
  - intros k v _. by apply Hflag.
  - exists []. by rewrite app_nil_r.
Qed.

(** ** The chat backend *)

Definition candidates (content : chatContentLogProb) : list string := cc_Token content :: map ct_Token (cc_TopLogProbs content).

Lemma observe_dom token lp seen k : k ∈ dom (observe_token token lp seen) <-> k ∈ dom seen \/ (k = trim_space token /\ k <> "").
Proof.
  unfold observe_token. destruct (String.eqb_spec (trim_space token) "") as [He|He]; [rewrite He; naive_solver|].
  destruct (seen !! trim_space token) as [v|] eqn:Hv.
  - apply elem_of_dom_2 in Hv. destruct (f_lt v lp); rewrite ?dom_insert_L; set_solver.
  - rewrite dom_insert_L. set_solver.
Qed.

Lemma observed_logs_dom content k : k ∈ dom (observed_logs content) <-> k <> "" /\ exists tok, tok ∈ candidates content /\ trim_space tok = k.
Proof.
  unfold observed_logs, candidates. assert (forall l seen, k ∈ dom (fold_left (fun seen t => observe_token (ct_Token t) (ct_LogProb t) seen) l seen) <->
    k ∈ dom seen \/ (k <> "" /\ exists tok, tok ∈ map ct_Token l /\ trim_space tok = k)) as Hf.
  { induction l as [|t l IH]; intros seen; cbn [fold_left map]; [set_solver|]. rewrite IH, observe_dom. setoid_rewrite elem_of_cons. naive_solver. }
  rewrite Hf, observe_dom, dom_empty_L. setoid_rewrite elem_of_cons. set_solver.
Qed.

(** Whether a label is among the candidates, up to surrounding blanks. *)
Definition label_observed (content : chatContentLogProb) (lb : string) : Prop :=
  trim_space lb <> "" /\ exists tok, tok ∈ candidates content /\ trim_space tok = trim_space lb.

Lemma label_log_observed content lb : is_Some (label_log (observed_logs content) lb) <-> label_observed content lb.
Proof. unfold label_log. rewrite <- elem_of_dom, observed_logs_dom. done. Qed.

(** The chat backend never guesses: it reports unobserved labels exactly
    when some label is not among the candidates the endpoint returned. *)
Theorem chat_unobserved_iff `{GoRange} math_Exp math_Log content labels options :
  (exists detail, decisionFromAnswerToken math_Exp math_Log content labels options = Err (Unobserved detail)) <->
  ~ Forall (label_observed content) labels.
Proof.
  unfold decisionFromAnswerToken.
  set (f := fun lb => match label_log (observed_logs content) lb with None => true | Some _ => false end).
  assert (List.filter f labels = [] <-> Forall (label_observed content) labels) as Hiff.
  { induction labels as [|lb labels IH]; cbn; [split; [constructor|done]|]. rewrite Forall_cons, <- IH, <- label_log_observed.
    unfold f at 1. destruct (label_log (observed_logs content) lb) eqn:E; [|split; [done|intros [[] ?]; done]]. naive_solver. }
  rewrite <- Hiff. destruct (List.filter f labels) as [|x missing]; [|split; [done|by eexists]].
  split; [|done]. intros [detail Hb]. exfalso. revert Hb. unfold BuildDecision.
  repeat match goal with |- context [if ?b then _ else _] => destruct b end; done.
Qed.

(** ** The cache of label ids *)

Section LabelCache.
Context {W : Type}.
Implicit Types (s : ScoreServer (W := W)) (w : W).

(** The tokenizer answers the same whenever it is asked. *)
Definition stable_tokenizer s : Prop :=
  forall tk, ss_Tok s = Some tk ->
  exists (len id : string -> res error Z), forall t w, fst (TokenLen tk t w) = len t /\ fst (SingleTokenID tk t w) = id t.

(** A sequence of resolutions, with the cache and without. *)
Fixpoint resolve_all s (qs : list (list string)) w : list (option (res scoring_error (list Z))) :=
  match qs with
  | [] => []
  | labels :: rest =>
      match resolveLabelIDs s labels w with
      | Some (r, s', w') => Some r :: resolve_all s' rest w'
      | None => [None]
      end
  end.

Fixpoint fresh_all s (qs : list (list string)) w : list (option (res scoring_error (list Z))) :=
  match qs with
  | [] => []
  | labels :: rest =>
      match fresh_ids s labels w with
      | Some (r, w') => Some r :: fresh_all s rest w'
      | None => [None]
      end
  end.

Definition plain_labels (labels : list string) : Prop := labels <> [] /\ Forall (without c_nul) labels.

Lemma cache_key_inj s l1 l2 : plain_labels l1 -> plain_labels l2 -> cache_key s l1 = cache_key s l2 -> l1 = l2.
Proof.
  intros [H1 F1] [H2 F2] He. unfold cache_key in He.
  assert (join (String c_nul "") l1 = join (String c_nul "") l2) as Hj.
  { destruct (ss_SpacePrefix s); [by injection He|done]. }
  rewrite <- (split_join c_nul l1), <- (split_join c_nul l2) by done. by rewrite Hj.
Qed.

Definition answer (r : option (res scoring_error (list Z) * W)) : option (res scoring_error (list Z)) := fst <$> r.

Lemma ValidateSingleTokens_stable (tk : TokenIDResolver) labels w w' (len : string -> res error Z) :
  (forall t w, fst (TokenLen tk t w) = len t) ->
  fst (ValidateSingleTokens tk labels w) = fst (ValidateSingleTokens tk labels w').
Proof.
  intros Hs. revert w w'. induction labels as [|lb labels IH]; intros w w'; cbn; [done|].
  pose proof (Hs lb w) as H1. pose proof (Hs lb w') as H2.
  destruct (TokenLen tk lb w) as [r v], (TokenLen tk lb w') as [r' v']. cbn in H1, H2. subst r r'.
  destruct (len lb) as [n|e]; [|done]. destruct (n =? 1)%Z; [apply IH|done].
Qed.

Lemma surface_ids_stable (tk : TokenIDResolver) labels w w' (id : string -> res error Z) :
  (forall t w, fst (SingleTokenID tk t w) = id t) -> fst (surface_ids tk labels w) = fst (surface_ids tk labels w').
Proof.
  intros Hs. revert w w'. induction labels as [|lb labels IH]; intros w w'; cbn; [done|].
  pose proof (Hs lb w) as H1. pose proof (Hs lb w') as H2.
  destruct (SingleTokenID tk lb w) as [r v], (SingleTokenID tk lb w') as [r' v']. cbn in H1, H2. subst r r'.
  destruct (id lb) as [n|e]; [|done]. pose proof (IH v v') as Hi.
  destruct (surface_ids tk labels v), (surface_ids tk labels v'). cbn in *. by subst.
Qed.

Lemma fresh_ids_stable s labels w w' : stable_tokenizer s -> answer (fresh_ids s labels w) = answer (fresh_ids s labels w').
Proof.
  intros Hs. unfold fresh_ids. destruct (negb _); [done|]. destruct (ss_Tok s) as [tk|] eqn:Ht; [|by destruct labels].
  destruct (Hs tk Ht) as (len & id & Hstable). cbn.
  pose proof (ValidateSingleTokens_stable tk (tokenSurfaces s labels) w w' len (fun t v => proj1 (Hstable t v))) as Hv.
  destruct (ValidateSingleTokens tk _ w) as [[e|] v], (ValidateSingleTokens tk _ w') as [[e'|] v']; cbn in *; try congruence.
  by rewrite (surface_ids_stable tk _ v v' id (fun t v => proj2 (Hstable t v))).
Qed.

(** Every entry is what the labels of its key resolve to. *)
Definition cache_ok s : Prop :=
  forall key ids, ss_idCache s !! key = Some ids ->
  exists labels, plain_labels labels /\ key = cache_key s labels /\ forall w, answer (fresh_ids s labels w) = Some (Ok ids).

Lemma resolve_step s labels w : stable_tokenizer s -> cache_ok s -> plain_labels labels ->
  match resolveLabelIDs s labels w with
  | Some (r, s', w') => answer (fresh_ids s labels w) = Some r /\ cache_ok s' /\ stable_tokenizer s' /\
                        (forall ls v, fresh_ids s' ls v = fresh_ids s ls v)
  | None => fresh_ids s labels w = None
  end.
Proof.
  intros Hst Hc Hp. unfold resolveLabelIDs. destruct (ss_idCache s !! cache_key s labels) as [ids|] eqn:Hk.
  { destruct (Hc _ _ Hk) as (ls & Hls & He & Ha). apply (cache_key_inj s) in He; [|done..]. subst ls. by split_and!. }
  destruct (fresh_ids s labels w) as [[[ids|e] w']|] eqn:Hf; [|by split_and!|done]. split_and!; [done| |done|done].
  intros key ids'. cbn. rewrite lookup_insert_Some. intros [[<- <-]|[_ Hk']]; [|by apply Hc].
  exists labels. split_and!; [done|done|]. intros v.
  change (fresh_ids (set_cached (cache_key s labels) ids s) labels v) with (fresh_ids s labels v).
  by rewrite (fresh_ids_stable s labels v w Hst), Hf.
Qed.

(** The cache is invisible: with a tokenizer that always answers the
    same, every sequence of label sets without NUL bytes resolves to what it
    would resolve to without the cache. *)
Theorem label_cache_transparent s qs w :
  ss_idCache s = ∅ -> stable_tokenizer s -> Forall plain_labels qs -> resolve_all s qs w = fresh_all s qs w.
Proof.
  intros He Hst Hqs. assert (cache_ok s) as Hc by (intros k ids; by rewrite He, lookup_empty). clear He.
  enough (forall s' v, cache_ok s' -> stable_tokenizer s' -> (forall ls u, fresh_ids s' ls u = fresh_ids s ls u) ->
            resolve_all s' qs w = fresh_all s qs v) as Hgen by (by apply Hgen).
  revert w. induction Hqs as [|labels qs Hp Hqs IH]; intros w s' v Hc' Hst' Hsame; cbn; [done|].
  pose proof (resolve_step s' labels w Hst' Hc' Hp) as Hstep. rewrite Hsame in Hstep.
  destruct (resolveLabelIDs s' labels w) as [[[r s''] w']|].
  - destruct Hstep as (Hr & Hc'' & Hst'' & Hs''). rewrite (fresh_ids_stable s labels w v Hst) in Hr.
    destruct (fresh_ids s labels v) as [[r' v']|]; [|done]. injection Hr as <-. f_equal. apply IH; [done|done|].
    intros ls u. rewrite Hs''. apply Hsame.
  - assert (answer (fresh_ids s labels v) = None) as Hn by (by rewrite <- (fresh_ids_stable s labels w v Hst), Hstep).
    by destruct (fresh_ids s labels v).
Qed.
End LabelCache.

Definition demo_tokenizer : TokenIDResolver (W := nat) :=
  {| TokenLen t w := (Ok (Z.of_nat (String.length t)), S w); SingleTokenID t w := (Ok 7%Z, S w) |}.
Definition demo_server : ScoreServer (W := nat) :=
  {| ss_BaseURL := "u"; ss_Model := "m"; ss_Tok := Some demo_tokenizer; ss_LabelTokenIDs := ∅; ss_SpacePrefix := false; ss_idCache := ∅ |}.

Lemma label_cache_transparent_witness :
  resolve_all demo_server [["A"; "B"]; ["AB"]; ["A"; "B"]] 0 = fresh_all demo_server [["A"; "B"]; ["AB"]; ["A"; "B"]] 0.
Proof.
  apply label_cache_transparent; [done| |].
  - intros tk [= <-]. exists (fun t => Ok (Z.of_nat (String.length t))), (fun _ => Ok 7%Z). done.
  - repeat (constructor; try (split; [done|repeat constructor])).
Defined.

(** Labels that contain a NUL byte can take the ids of other labels of the
    same number. *)
Theorem nul_labels_collide :
  let a := String c_nul "" in
  let s : ScoreServer (W := unit) :=
    {| ss_BaseURL := "u"; ss_Model := "m"; ss_Tok := None;
       ss_LabelTokenIDs := {["x" := 1%Z; "y" +:+ a +:+ "z" := 2%Z; "x" +:+ a +:+ "y" := 3%Z; "z" := 4%Z]};
       ss_SpacePrefix := false; ss_idCache := ∅ |} in
  resolve_all s [["x"; "y" +:+ a +:+ "z"]; ["x" +:+ a +:+ "y"; "z"]] tt = [Some (Ok [1; 2]%Z); Some (Ok [1; 2]%Z)] /\
  fresh_all s [["x"; "y" +:+ a +:+ "z"]; ["x" +:+ a +:+ "y"; "z"]] tt = [Some (Ok [1; 2]%Z); Some (Ok [3; 4]%Z)].
Proof. split; by_vm. Qed.
