(* ===== verification/ContextManager.v ===== *)
(** * Context manager and prompt compiler

    [internal/core/logic/context_manager.go] and [compiler.go]: the token
    budget, the two passes of context pruning, and the assembly of a prompt.
    The conversion of an out-of-range float to an integer, which Go leaves to
    the implementation, is a parameter. *)
From stdpp Require Import sorting.
From S2P Require Import Prelude GoStrings CoreErrors CoreTypes Facts Float64 FloatText Ooda Evaluator.
From Stdlib Require Import Ascii String SpecFloat.
Open Scope string_scope.

(** [int(x)]: truncation, where the result is representable. *)
Definition truncate (x : float64) : option Z :=
  match x with
  | S754_zero _ => Some 0%Z
  | S754_finite s m e =>
      let a := (if (0 <=? e)%Z then Zpos m * 2 ^ e else Zpos m / 2 ^ (- e))%Z in
      let z := (if s then - a else a)%Z in
      if ((- 2 ^ 63 <=? z) && (z <? 2 ^ 63))%Z then Some z else None
  | _ => None
  end.

Record ContextManager := { cmg_BaseBuffer : Z; cmg_ShaveThreshold : Z }.
Definition NewContextManager : ContextManager := {| cmg_BaseBuffer := 200; cmg_ShaveThreshold := 24000 |}.

Definition CalculateContextBudget (convert : float64 -> Z) (cm : ContextManager) (totalBudget fp32Usage : Z)
    (logicSuccess : float64) (previousOutputTokens : Z) : Z :=
  let sharpeningMultiplier := f_add f_1 (f_sub f_1 logicSuccess) in
  let x := f_mul (f_of_int (cmg_BaseBuffer cm)) sharpeningMultiplier in
  let adjustedBuffer := default (convert x) (truncate x) in
  let remaining := wrap_int64 (totalBudget - fp32Usage - adjustedBuffer - previousOutputTokens) in
  if (remaining <? 0)%Z then 0%Z else remaining.

Definition FilterStrategic (atoms : list OAtom) (currentIntent : string) : list OAtom :=
  List.filter (fun a => String.eqb (oa_OriginIntent a) "" || String.eqb (oa_OriginIntent a) currentIntent
                        || f_le f_0_9 (oa_Weight a)) atoms.

Definition token_count (a : OAtom) : Z :=
  ((Z.of_nat (String.length (oa_Subject a)) + Z.of_nat (String.length (oa_Predicate a))
    + Z.of_nat (String.length (oa_Object a)) + 15) / 4)%Z.

(** [sort.SliceStable] by descending weight, as insertion sort: each atom
    moves left past lighter ones. *)
Fixpoint insert_from_right (x : OAtom) (reversed : list OAtom) : list OAtom :=
  match reversed with
  | [] => [x]
  | y :: rest => if f_lt (oa_Weight y) (oa_Weight x) then y :: insert_from_right x rest else x :: reversed
  end.
Definition sort_by_weight (l : list OAtom) : list OAtom :=
  rev (fold_left (fun acc x => insert_from_right x acc) l []).

Fixpoint take_budget (used maxTokens : Z) (l : list OAtom) : list OAtom :=
  match l with
  | [] => []
  | a :: rest => if (maxTokens <? used + token_count a)%Z then [] else a :: take_budget (used + token_count a) maxTokens rest
  end.

Definition tokens_of (l : list OAtom) : Z := foldr (fun a n => token_count a + n)%Z 0%Z l.

Definition qualified (cm : ContextManager) (atoms : list OAtom) : list OAtom :=
  let shouldShave := (cmg_ShaveThreshold cm <? tokens_of atoms)%Z in
  List.filter (fun a => negb (shouldShave && f_lt (oa_Weight a) f_0_5)) atoms.

Definition Prune (cm : ContextManager) (atoms : list OAtom) (maxTokens : Z) : list OAtom :=
  if (maxTokens <=? 0)%Z then [] else take_budget 0 maxTokens (sort_by_weight (qualified cm atoms)).

(** ** The prompt compiler *)

Record ProofNode := { pn_Rule : string; pn_Matches : gmap string string; pn_Pass : bool }.

(** The fields of [domain.AuditResult] that the compiler reads. *)
Record DraftAudit := { da_Pass : bool; da_ConflictPath : string; da_ProofTree : option ProofNode }.
Record PromptRefinement := { rc_AuditResult : option DraftAudit; rc_PreviousDraft : GoVal }.

Record PromptConfig := {
  pr_Intent : string; pr_TaskType : string; pr_Context : list OAtom; pr_Axioms : list OAtom; pr_Facts : string;
  pr_SteeringMagnitude : float64; pr_InjectParadox : bool; pr_RefinementFeedback : option PromptRefinement;
  pr_Pass : Z; pr_PreviousOutput : string; pr_SessionHistory : list DraftAudit
}.

(** The options; [OtherOption] is an argument of another type, which the
    compiler ignores. *)
Inductive PromptOption :=
| WithIntent (i : string)
| WithTaskType (t : string)
| WithContext (a : list OAtom)
| WithAxioms (a : list OAtom)
| WithFacts (f : string)
| WithSteering (m : float64) (p : bool)
| WithRefinement (r : option PromptRefinement)
| WithPass (p : Z)
| WithPrevious (o : string)
| WithHistory (h : list DraftAudit)
| OtherOption.

Definition apply_option (c : PromptConfig) (o : PromptOption) : PromptConfig :=
  let mk i t cx ax f m p r ps po h :=
    {| pr_Intent := i; pr_TaskType := t; pr_Context := cx; pr_Axioms := ax; pr_Facts := f; pr_SteeringMagnitude := m;
       pr_InjectParadox := p; pr_RefinementFeedback := r; pr_Pass := ps; pr_PreviousOutput := po; pr_SessionHistory := h |} in
  let '(Build_PromptConfig i t cx ax f m p r ps po h) := c in
  match o with
  | WithIntent i' => mk i' t cx ax f m p r ps po h
  | WithTaskType t' => mk i t' cx ax f m p r ps po h
  | WithContext cx' => mk i t cx' ax f m p r ps po h
  | WithAxioms ax' => mk i t cx ax' f m p r ps po h
  | WithFacts f' => mk i t cx ax f' m p r ps po h
  | WithSteering m' p' => mk i t cx ax f m' p' r ps po h
  | WithRefinement r' => mk i t cx ax f m p r' ps po h
  | WithPass ps' => mk i t cx ax f m p r ps' po h
  | WithPrevious po' => mk i t cx ax f m p r ps po' h
  | WithHistory h' => mk i t cx ax f m p r ps po h'
  | OtherOption => c
  end.

Definition default_prompt (intent : string) : PromptConfig :=
  {| pr_Intent := intent; pr_TaskType := ""; pr_Context := []; pr_Axioms := []; pr_Facts := ""; pr_SteeringMagnitude := f_zero;
     pr_InjectParadox := false; pr_RefinementFeedback := None; pr_Pass := 1; pr_PreviousOutput := ""; pr_SessionHistory := [] |}.

Definition axiom_line (a : OAtom) : string :=
  "- " +:+ oa_Predicate a +:+ "(" +:+ oa_Subject a +:+ ", " +:+ oa_Object a +:+ ")" +:+ nl.
Definition context_line (a : OAtom) : string :=
  "- " +:+ oa_Predicate a +:+ "(" +:+ oa_Subject a +:+ ", " +:+ oa_Object a +:+ ") [w=" +:+ FormatFloat 2 (oa_Weight a) +:+ "]" +:+ nl.

(** The correction of a failed audit; [None] is the nil dereference of
    feedback without an audit result. *)
Definition refinement_section (r : option PromptRefinement) : option string :=
  match r with
  | None => Some ""
  | Some rc =>
      audit ← rc_AuditResult rc;
      if da_Pass audit then Some ""
      else Some ("## CRITICAL EXECUTION FAILURE" +:+ nl
                 +:+ "Your previous proposal violated system invariants. You MUST correct this." +:+ nl
                 +:+ "Violation Path: " +:+ da_ConflictPath audit +:+ nl
                 +:+ (match da_ProofTree audit with Some p => "Rule Trace: " +:+ pn_Rule p +:+ nl | None => "" end) +:+ nl)
  end.

Definition prompt_head (axioms : list OAtom) : string :=
  "[SYSTEM PROMPT]" +:+ nl +:+ "## ABSOLUTE TRUTHS (Never Override)" +:+ nl
  +:+ String.concat "" (map axiom_line axioms) +:+ nl.

Definition render_prompt (config : PromptConfig) : option string :=
  correction ← refinement_section (pr_RefinementFeedback config);
  Some (prompt_head (pr_Axioms config) +:+ correction
        +:+ (match pr_Context config with
             | [] => ""
             | l => "## OBSERVED CONTEXT" +:+ nl +:+ String.concat "" (map context_line l) +:+ nl
             end)
        +:+ (if String.eqb (pr_Facts config) "" then ""
             else "## STRUCTURAL TOPOLOGY (Required Sub-graph)" +:+ nl +:+ pr_Facts config +:+ nl)
        +:+ "## TASK" +:+ nl +:+ "Intent: " +:+ pr_Intent config +:+ nl +:+ "Task Type: " +:+ pr_TaskType config +:+ nl
        +:+ (if pr_InjectParadox config
             then "WARNING: Cognitive pressure is EXTREME. Limit creative assumptions. Act deterministically and enumerate steps carefully." +:+ nl
             else "")).

Definition prompt_Compile (intent : string) (options : list PromptOption) : option string :=
  render_prompt (fold_left apply_option options (default_prompt intent)).

(** ** Properties *)

Definition weighed (l : list OAtom) : Prop := Forall (fun a => is_nan (oa_Weight a) = false) l.
Definition lighter (a b : OAtom) : Prop := f_le (oa_Weight a) (oa_Weight b) = true.
Definition same_weight (v : float64) (a : OAtom) : bool := f_le v (oa_Weight a) && f_le (oa_Weight a) v.

Lemma lighter_trans a b c : is_nan (oa_Weight a) = false -> is_nan (oa_Weight b) = false -> is_nan (oa_Weight c) = false ->
  lighter a b -> lighter b c -> lighter a c.
Proof. unfold lighter. intros Ha Hb Hc. by apply f_le_trans. Qed.

Lemma insert_perm x l : insert_from_right x l ≡ₚ x :: l.
Proof. induction l as [|y l IH]; cbn; [done|]. destruct (f_lt _ _); [|done]. rewrite IH. apply Permutation_swap. Qed.

Lemma insert_sorted x l : is_nan (oa_Weight x) = false -> weighed l -> StronglySorted lighter l ->
  StronglySorted lighter (insert_from_right x l).
Proof.
  intros Hx Hl Hs. induction Hs as [|y l Hs IH Hy]; cbn; [repeat constructor|]. apply Forall_cons in Hl as [Hny Hl].
  destruct (f_lt (oa_Weight y) (oa_Weight x)) eqn:Hlt.
  - constructor; [by apply IH|]. rewrite insert_perm. constructor; [by apply f_lt_le|done].
  - apply f_not_lt in Hlt; [|done..]. constructor; [by constructor|]. constructor; [done|].
    apply Forall_forall. intros z Hz. rewrite Forall_forall in Hy, Hl. apply (lighter_trans x y z); auto.
Qed.

Lemma insert_stable v x l : is_nan v = false -> is_nan (oa_Weight x) = false -> weighed l ->
  List.filter (same_weight v) (insert_from_right x l) = List.filter (same_weight v) (x :: l).
Proof.
  intros Hv Hx Hl. induction Hl as [|y l Hy Hl IH]; [done|]. cbn [insert_from_right].
  destruct (f_lt (oa_Weight y) (oa_Weight x)) eqn:Hlt; [|done]. cbn [List.filter]. rewrite IH. cbn [List.filter].
  destruct (same_weight v y) eqn:Ey, (same_weight v x) eqn:Ex; try done. exfalso.
  unfold same_weight in *. apply andb_true_iff in Ey as [Ey1 Ey2], Ex as [Ex1 Ex2].
  assert (f_le (oa_Weight x) (oa_Weight y) = true) as Hle by (by apply (f_le_trans _ v)).
  apply f_le_not_lt in Hle. congruence.
Qed.

(** The sort is the stable one: a permutation, heaviest first, that keeps
    the order of atoms of the same weight. *)
Lemma sort_by_weight_spec l : weighed l ->
  sort_by_weight l ≡ₚ l /\ StronglySorted (fun a b => lighter b a) (sort_by_weight l) /\
  forall v, is_nan v = false -> List.filter (same_weight v) (sort_by_weight l) = List.filter (same_weight v) l.
Proof.
  intros Hl. unfold sort_by_weight.
  enough (forall acc, weighed acc -> StronglySorted lighter acc ->
    let r := fold_left (fun acc x => insert_from_right x acc) l acc in
    r ≡ₚ acc ++ l /\ StronglySorted lighter r /\
    forall v, is_nan v = false -> List.filter (same_weight v) (rev r) = (List.filter (same_weight v) (rev acc) ++ List.filter (same_weight v) l)%list) as Hgen.
  { destruct (Hgen [] ltac:(constructor) ltac:(constructor)) as (Hp & Hs & Hf). split_and!.
    - rewrite <- Permutation_rev. done.
    - set (r := fold_left _ l []) in *. clearbody r. clear -Hs. induction Hs as [|x r Hs IH Hx]; cbn; [constructor|].
      apply StronglySorted_app_2; [|done|repeat constructor]. intros a b Ha Hb. rewrite list_elem_of_singleton in Hb. subst b.
      rewrite <- Permutation_rev in Ha. rewrite Forall_forall in Hx. by apply Hx.
    - intros v Hv. rewrite (Hf v Hv). done. }
  induction Hl as [|x l Hx Hl IH]; intros acc Hacc Hs; cbn [fold_left].
  { split_and!; [by rewrite app_nil_r|done|]. intros v _. cbn. by rewrite app_nil_r. }
  assert (weighed (insert_from_right x acc)) as Hw by (unfold weighed; rewrite insert_perm; by constructor).
  destruct (IH _ Hw (insert_sorted _ _ Hx Hacc Hs)) as (Hp & Hss & Hf). split_and!; [|done|].
  - rewrite Hp, insert_perm. cbn. apply Permutation_middle.
  - intros v Hv. rewrite (Hf v Hv), !List.filter_rev, (insert_stable v x acc Hv Hx Hacc). cbn [List.filter].
    destruct (same_weight v x); cbn [rev]; [by rewrite <- app_assoc|done].
Qed.

Lemma take_budget_spec used maxTokens l :
  exists rest, l = (take_budget used maxTokens l ++ rest)%list /\
    (used <= maxTokens -> used + tokens_of (take_budget used maxTokens l) <= maxTokens)%Z /\
    match rest with [] => True | a :: _ => (maxTokens < used + tokens_of (take_budget used maxTokens l) + token_count a)%Z end.
Proof.
  revert used. induction l as [|a l IH]; intros used; cbn [take_budget]; [exists []; split_and!; [done|cbn; lia|done]|].
  destruct (Z.ltb_spec maxTokens (used + token_count a)).
  - exists (a :: l). split_and!; [done|cbn; lia|cbn; lia].
  - destruct (IH (used + token_count a)%Z) as (rest & Hl & Hb & Hr). exists rest. split_and!; [cbn; by f_equal|cbn [tokens_of foldr]|].
    + specialize (Hb ltac:(lia)). fold (tokens_of (take_budget (used + token_count a) maxTokens l)). lia.
    + destruct rest as [|b rest]; [done|]. cbn [tokens_of foldr]. fold (tokens_of (take_budget (used + token_count a) maxTokens l)). lia.
Qed.

(** Pruning keeps a prefix of the qualified atoms, heaviest first and in
    their order of arrival among equal weights; it fits the budget, and the
    first atom left out would not have. *)
Theorem Prune_spec cm atoms maxTokens : weighed atoms -> (0 < maxTokens)%Z ->
  exists dropped, let kept := Prune cm atoms maxTokens in
    (kept ++ dropped)%list ≡ₚ qualified cm atoms /\
    StronglySorted (fun a b => lighter b a) (kept ++ dropped)%list /\
    (forall v, is_nan v = false -> List.filter (same_weight v) (kept ++ dropped)%list = List.filter (same_weight v) (qualified cm atoms)) /\
    (tokens_of kept <= maxTokens)%Z /\
    match dropped with [] => True | a :: _ => (maxTokens < tokens_of kept + token_count a)%Z end.
Proof.
  intros Hw Hm. unfold Prune. destruct (Z.leb_spec maxTokens 0); [lia|].
  assert (weighed (qualified cm atoms)) as Hq.
  { apply Forall_forall. intros a Ha. apply list_elem_of_In, List.filter_In in Ha as [Ha _]. rewrite <- list_elem_of_In in Ha.
    unfold weighed in Hw. rewrite Forall_forall in Hw. by apply Hw. }
  destruct (sort_by_weight_spec _ Hq) as (Hp & Hs & Hf).
  destruct (take_budget_spec 0 maxTokens (sort_by_weight (qualified cm atoms))) as (rest & Hl & Hb & Hr).
  exists rest. cbn zeta. rewrite <- Hl. split_and!; [done|done|done|lia|]. by destruct rest.
Qed.

Definition observation (name : string) (w : float64) : OAtom :=
  {| oa_Predicate := name; oa_Subject := "s"; oa_Object := "o"; oa_Weight := w; oa_OriginIntent := "" |}.
Definition observations : list OAtom := [observation "a" f_0_5; observation "b" f_0_9; observation "c" f_0_5; observation "d" f_0_1].

Lemma Prune_spec_witness :
  map oa_Predicate (Prune NewContextManager observations 12) = ["b"; "a"; "c"] /\
  (tokens_of (Prune NewContextManager observations 12) <= 12)%Z.
Proof.
  split; [by_vm|].
  destruct (Prune_spec NewContextManager observations 12 ltac:(by repeat constructor) ltac:(lia)) as (d & _ & _ & _ & H & _). exact H.
Defined.

Theorem budget_nonneg convert cm total fp32 ls prev :
  (0 <= CalculateContextBudget convert cm total fp32 ls prev < 2 ^ 63)%Z.
Proof.
  unfold CalculateContextBudget. set (z := wrap_int64 _). destruct (Z.ltb_spec z 0); [lia|].
  assert (z < 2 ^ 63)%Z; [|lia]. unfold z, wrap_int64. match goal with |- ((?x mod _) - _ < _)%Z => pose proof (Z.mod_pos_bound x (2 ^ 64) ltac:(lia)) end. lia.
Qed.

(** The documented buffer: a fifth more at a logic success of 0.8. *)
Example sharpened_budget : CalculateContextBudget (fun _ => 0%Z) NewContextManager 1000 100 f_0_8 50 = 610%Z.
Proof. by_vm. Qed.

Definition final_config (intent : string) (options : list PromptOption) : PromptConfig :=
  fold_left apply_option options (default_prompt intent).

Lemma compile_eq intent options : prompt_Compile intent options = render_prompt (final_config intent options).
Proof. done. Qed.

(** The axioms are pinned: every prompt starts with the header and one
    line per axiom, and compiling fails only on feedback without an audit
    result. *)
Theorem prompt_pins_axioms intent options :
  match prompt_Compile intent options with
  | Some p => has_prefix p (prompt_head (pr_Axioms (final_config intent options))) = true
  | None => exists rc, pr_RefinementFeedback (final_config intent options) = Some rc /\ rc_AuditResult rc = None
  end.
Proof.
  rewrite compile_eq. unfold render_prompt. set (c := final_config intent options).
  destruct (refinement_section (pr_RefinementFeedback c)) as [correction|] eqn:Hr; cbn [mbind option_bind].
  - apply has_prefix_spec. eexists. reflexivity.
  - unfold refinement_section in Hr. destruct (pr_RefinementFeedback c) as [rc|]; [|done]. exists rc. split; [done|].
    destruct (rc_AuditResult rc) as [a|]; [|done]. cbn in Hr. by destruct (da_Pass a).
Qed.

(** The pass number, the previous output and the session history do not
    reach the prompt. *)
Theorem pass_and_history_ignored intent options p o h :
  prompt_Compile intent (options ++ [WithPass p; WithPrevious o; WithHistory h]) = prompt_Compile intent options.
Proof.
  unfold prompt_Compile. rewrite fold_left_app. cbn [fold_left]. by destruct (fold_left apply_option options (default_prompt intent)).
Qed.
