(* ===== verification/Memory.v ===== *)
(** * Agent memory

    [sdk/memory_orchestrator.go] (HybridMemory: a history store and a vector
    store behind one interface) and [adapters/vector/simple_store.go] (the
    in-memory vector store with cosine similarity).  The embedding model and
    SHA-256 are parameters; [float32] arithmetic is the executable binary32
    of the Standard Library. *)
From stdpp Require Import sorting.
From S2P Require Import Prelude GoStrings CoreErrors CoreTypes Facts Float64 Session AgentLoop AgentLoopProps Genes FloatText.
From Stdlib Require Import Ascii String SpecFloat.
Open Scope string_scope.

(** ** Vector stores *)

Record VectorStore (W : Type) := {
  vs_Upsert : string -> string -> W -> W * option error;
  vs_Search : string -> Z -> W -> W * res error (list string);
  vs_Get : string -> W -> W * res error string
}.
Arguments vs_Upsert {W} _. Arguments vs_Search {W} _. Arguments vs_Get {W} _.

(** ** HybridMemory *)

Record HybridMemory (W : Type) := {
  hm_History : option (HistoryStore W);
  hm_Vectors : option (VectorStore W);
  hm_TopK : Z
}.
Arguments hm_History {W} _. Arguments hm_Vectors {W} _. Arguments hm_TopK {W} _.

Definition separator : string := nl +:+ "---" +:+ nl.

Section Memory.
Context {W : Type} (sha256 : string -> string).
Implicit Types (m : HybridMemory W) (w : W).

Definition NewHybridMemory (h : option (HistoryStore W)) (v : option (VectorStore W)) : HybridMemory W :=
  {| hm_History := h; hm_Vectors := v; hm_TopK := 3 |}.

Definition memory_Read m (sessionID : string) w : W * res error (list Message) :=
  match hm_History m with None => (w, Ok []) | Some h => hs_Read h sessionID w end.
Definition memory_Append m (sessionID : string) (msgs : list Message) w : W * option error :=
  match hm_History m with None => (w, None) | Some h => hs_Append h sessionID msgs w end.

Definition effective_topK m : Z := if (hm_TopK m <=? 0)%Z then 3%Z else hm_TopK m.

(** The documents found, in order; missing ones are skipped. *)
Fixpoint fetch (v : VectorStore W) (ids : list string) w : W * list (string * string) :=
  match ids with
  | [] => (w, [])
  | id :: rest =>
      let '(w, r) := vs_Get v id w in
      let '(w, docs) := fetch v rest w in
      (w, match r with Ok content => (id, content) :: docs | Err _ => docs end)
  end.

Definition recall_text (docs : list (string * string)) : string :=
  String.concat "" (map (fun '(_, content) => content +:+ separator) docs).

Definition hit_key (i : nat) : string := "memory_hit_" +:+ pretty i.

(** [facts["memory_hit_<hit>"] = id] for the documents found. *)
Fixpoint hit_facts (hit : nat) (docs : list (string * string)) (facts : gmap string GoVal) : gmap string GoVal :=
  match docs with
  | [] => facts
  | (id, _) :: rest => hit_facts (S hit) rest (<[hit_key hit := GStr id]> facts)
  end.

Definition memory_Recall m (query : string) w : W * res error string :=
  match hm_Vectors m with
  | None => (w, Ok "")
  | Some v =>
      match vs_Search v query (effective_topK m) w with
      | (w, Err e) => (w, Err (EWrap "failed to search vectors: " e))
      | (w, Ok ids) => let '(w, docs) := fetch v ids w in (w, Ok (recall_text docs))
      end
  end.

Definition memory_RecallWithFacts m (query : string) w : W * res error (string * gmap string GoVal) :=
  match hm_Vectors m with
  | None => (w, Ok ("", ∅))
  | Some v =>
      match vs_Search v query (effective_topK m) w with
      | (w, Err e) => (w, Err (EWrap "failed to search vectors: " e))
      | (w, Ok ids) => let '(w, docs) := fetch v ids w in (w, Ok (recall_text docs, hit_facts 0 docs ∅))
      end
  end.

Definition memory_content (query answer : string) : string := "Q: " +:+ query +:+ nl +:+ "A: " +:+ answer.
Definition doc_id (content : string) : string := hex_EncodeToString (str_take 8 (sha256 content)).

Definition Memorize m (query answer : string) w : W * option error :=
  match hm_Vectors m with
  | None => (w, None)
  | Some v => let content := memory_content query answer in vs_Upsert v (doc_id content) content w
  end.

(** HybridMemory as the memory of the reasoning loop. *)
Definition hybrid_agent_memory m : AgentMemory W :=
  {| am_history := {| hs_Read := memory_Read m; hs_Append := memory_Append m |};
     am_Recall := memory_Recall m;
     am_RecallWithFacts := Some (memory_RecallWithFacts m) |}.
End Memory.

(** ** [float32] *)

Abbreviation float32 := spec_float.
Definition f32_add : float32 -> float32 -> float32 := SFadd 24 128.
Definition f32_mul : float32 -> float32 -> float32 := SFmul 24 128.
Definition f32_div : float32 -> float32 -> float32 := SFdiv 24 128.

(** [float32(x)] of a double; [float64(x)] of a single is exact, but for
    the normal form of the mantissa. *)
Definition to_f32 (x : float64) : float32 :=
  match x with S754_finite s m e => binary_round 24 128 s m e | _ => x end.
Definition to_f64 (x : float32) : float64 :=
  match x with S754_finite s m e => binary_round 53 1024 s m e | _ => x end.
Definition math_Sqrt : float64 -> float64 := SFsqrt 53 1024.

(** ** SimpleStore *)

Record SimpleStore := { st_vectors : gmap string (list float32); st_docs : gmap string string }.
Definition NewSimpleStore : SimpleStore := {| st_vectors := ∅; st_docs := ∅ |}.

Record Sums := { sm_dot : float32; sm_magA : float32; sm_magB : float32 }.
Definition sum_step (acc : Sums) (xy : float32 * float32) : Sums :=
  let '(x, y) := xy in
  {| sm_dot := f32_add (sm_dot acc) (f32_mul x y); sm_magA := f32_add (sm_magA acc) (f32_mul x x);
     sm_magB := f32_add (sm_magB acc) (f32_mul y y) |}.

Definition cosineSimilarity (a b : list float32) : float32 :=
  if negb (List.length a =? List.length b)%nat then f_zero
  else
    let s := fold_left sum_step (zip a b) {| sm_dot := f_zero; sm_magA := f_zero; sm_magB := f_zero |} in
    if f_eq (sm_magA s) f_zero || f_eq (sm_magB s) f_zero then f_zero
    else f32_div (sm_dot s) (f32_mul (to_f32 (math_Sqrt (to_f64 (sm_magA s)))) (to_f32 (math_Sqrt (to_f64 (sm_magB s))))).

Section Store.
(** The embedding model, and [sort.Slice] by descending score, which is not
    stable. *)
Context `{GoRange} (embed : string -> res error (list float32)) (sort : list (string * float32) -> list (string * float32)).

Definition store_Upsert (id content : string) (s : SimpleStore) : SimpleStore * option error :=
  match embed content with
  | Err e => (s, Some e)
  | Ok vec => ({| st_vectors := <[id := vec]> (st_vectors s); st_docs := <[id := content]> (st_docs s) |}, None)
  end.

Definition scored (qVec : list float32) (s : SimpleStore) : list (string * float32) :=
  map (fun '(id, vec) => (id, cosineSimilarity qVec vec)) (range (st_vectors s)).

Definition store_Search (query : string) (topK : Z) (s : SimpleStore) : SimpleStore * res error (list string) :=
  (s, match embed query with
      | Err e => Err e
      | Ok qVec => Ok (map fst (take (Z.to_nat topK) (sort (scored qVec s))))
      end).

Definition store_Get (id : string) (s : SimpleStore) : SimpleStore * res error string :=
  (s, match st_docs s !! id with Some c => Ok c | None => Err (EText ("document not found: " +:+ id)) end).

Definition simple_vector_store : VectorStore SimpleStore :=
  {| vs_Upsert := store_Upsert; vs_Search := store_Search; vs_Get := store_Get |}.
End Store.

(** ** Properties *)

(** ** Recall *)

Lemma hit_key_inj i j : hit_key i = hit_key j -> i = j.
Proof. unfold hit_key. intros H. apply (inj pretty). by apply (inj (String.app "memory_hit_")) in H. Qed.

Lemma hit_facts_lookup n docs facts k v :
  (forall j, n <= j -> facts !! hit_key j = None) ->
  hit_facts n docs facts !! k = Some v <->
  facts !! k = Some v \/ exists i id c, docs !! i = Some (id, c) /\ k = hit_key (n + i) /\ v = GStr id.
Proof.
  revert n facts. induction docs as [|[id c] docs IH]; intros n facts Hf; cbn [hit_facts].
  { split; [by left|]. by intros [H|(i & ? & ? & H & _)]. }
  rewrite IH.
  - rewrite lookup_insert_Some. split.
    + intros [[[<- <-]|[Hne Hk]]|(i & id' & c' & Hi & -> & ->)]; [right|by left|right].
      * exists 0, id, c. by rewrite Nat.add_0_r.
      * exists (S i), id', c'. split; [done|]. split; [f_equal; lia|done].
    + intros [Hk|([|i] & id' & c' & Hi & -> & ->)].
      * left. right. split; [|done]. intros <-. rewrite (Hf n) in Hk by lia. done.
      * left. left. cbn in Hi. injection Hi as <- <-. by rewrite Nat.add_0_r.
      * right. exists i, id', c'. split; [done|]. split; [f_equal; lia|done].
  - intros j Hj. rewrite lookup_insert_ne; [apply Hf; lia|]. intros H%hit_key_inj. lia.
Qed.

Section Recall.
Context {W : Type}.

(** What is recalled is what policies see: the text is that of the plain
    recall, the concatenation of the documents found, and the published facts
    are exactly one memory_hit_i per document, naming it. *)
Theorem recall_facts_exact (m : HybridMemory W) query w w' text facts :
  memory_RecallWithFacts m query w = (w', Ok (text, facts)) ->
  memory_Recall m query w = (w', Ok text) /\
  exists docs, text = recall_text docs /\
    forall k v, facts !! k = Some v <-> exists i id c, docs !! i = Some (id, c) /\ k = hit_key i /\ v = GStr id.
Proof.
  unfold memory_RecallWithFacts, memory_Recall. destruct (hm_Vectors m) as [v|].
  - destruct (vs_Search v query (effective_topK m) w) as [w1 [ids|e]]; [|done].
    destruct (fetch v ids w1) as [w2 docs]. intros [= <- <- <-]. split; [done|]. exists docs. split; [done|].
    intros k x. rewrite hit_facts_lookup by done. rewrite lookup_empty. cbn. naive_solver.
  - intros [= <- <- <-]. split; [done|]. exists []. split; [done|]. intros k x. rewrite lookup_empty. naive_solver.
Qed.
End Recall.

Definition tiny_store : VectorStore (gmap string string) :=
  {| vs_Upsert id c w := (<[id := c]> w, None); vs_Search _ _ w := (w, Ok ["d1"; "gone"; "d2"]);
     vs_Get id w := (w, match w !! id with Some c => Ok c | None => Err (EText "missing") end) |}.
Definition tiny_world : gmap string string := {["d1" := "one"; "d2" := "two"]}.
Definition tiny_memory : HybridMemory (gmap string string) := NewHybridMemory None (Some tiny_store).

Lemma recall_facts_exact_witness :
  memory_Recall tiny_memory "q" tiny_world = (tiny_world, Ok ("one" +:+ separator +:+ "two" +:+ separator)).
Proof.
  destruct (recall_facts_exact tiny_memory "q" tiny_world tiny_world ("one" +:+ separator +:+ "two" +:+ separator)
              {["memory_hit_0" := GStr "d1"; "memory_hit_1" := GStr "d2"]}) as [H _]; [|exact H].
  reflexivity.
Defined.

(** ** In the reasoning loop *)

Section Loop.
Context {E : Type} `{!LoopEngine E} {W : Type} (V : LoopEnv) (m : HybridMemory W).

Lemma hit_key_not_context i : hit_key i <> KeyContext.
Proof. by unfold hit_key, KeyContext. Qed.

(** No retrieved document reaches a prompt unseen by policies: after the
    recall of a step, either nothing was recalled and the envelope is
    unchanged, or the context entry is made of documents each of which has
    its memory_hit fact in the metadata. *)
Theorem recalled_documents_visible (c : Client E W) payload env s s' env' :
  cl_agentMemory c = Some (hybrid_agent_memory m) ->
  recallContext V c payload env s = Some (s', env') ->
  env' = env \/
  exists docs, (forall i id content, docs !! i = Some (id, content) -> env_Metadata env' !! hit_key i = Some (GStr id)) /\
    (recall_text docs <> "" -> env_Metadata env' !! KeyContext = Some (GStr (recall_text docs))) /\
    (recall_text docs = "" -> env_Metadata env' !! KeyContext = env_Metadata env !! KeyContext).
Proof.
  intros Hm. unfold recallContext. rewrite Hm. cbn [mbind option_bind].
  destruct (le_CheckRequirement env "memory" (ls_E s)) as [[e1 [[|]|err]]|]; cbn [mbind option_bind]; try done;
    try (intros [= <- <-]; by left).
  unfold recall_memory. cbn [hybrid_agent_memory am_RecallWithFacts].
  destruct (memory_RecallWithFacts m _ _) as [w1 [[text facts]|e]] eqn:Hr; intros [= <- <-]; [right|by left].
  destruct (recall_facts_exact m _ _ _ _ _ Hr) as [_ (docs & -> & Hf)]. exists docs.
  assert (facts !! KeyContext = None) as Hctx.
  { destruct (facts !! KeyContext) as [v|] eqn:Hk; [|done]. apply Hf in Hk as (i & _ & _ & _ & Hk & _).
    by apply eq_sym, hit_key_not_context in Hk. }
  split_and!.
  - intros i id content Hi. assert (facts !! hit_key i = Some (GStr id)) as Hk by (apply Hf; by exists i, id, content).
    assert ((facts ∪ env_Metadata env) !! hit_key i = Some (GStr id)) as Hu by by apply lookup_union_Some_l.
    destruct (String.eqb (recall_text docs) ""); cbn [SetMeta overlay set_Metadata env_Metadata]; [done|].
    rewrite lookup_insert_ne; [done|]. apply not_eq_sym, hit_key_not_context.
  - intros Hne. apply String.eqb_neq in Hne. rewrite Hne. cbn. by rewrite lookup_insert_eq.
  - intros ->. cbn. by apply lookup_union_r.
Qed.
End Loop.

Definition needy_engine : LoopEngine nat :=
  {| le_EvaluateSteering _ e := Some (e, (DecisionProceed, ∅, None)); le_CheckRequirement _ _ e := Some (e, Ok true);
     le_LoadFacts _ e := (e, None) |}.
Definition rag_client : Client nat (gmap string string) :=
  {| cl_registry := ∅; cl_agentMemory := Some (hybrid_agent_memory tiny_memory); cl_stateManager := None;
     cl_steeringEnabled := false; cl_maxSteps := 0; cl_shuttingDown := false |}.

Lemma recalled_documents_visible_witness :
  exists s' env', @recallContext nat needy_engine _ quiet_env rag_client (GStr "q") (NewEnvelope 1 GNil)
      {| ls_E := 0; ls_W := tiny_world; ls_async := [] |} = Some (s', env') /\
    (env' = NewEnvelope 1 GNil \/ exists docs : list (string * string), forall i id content,
       docs !! i = Some (id, content) -> env_Metadata env' !! hit_key i = Some (GStr id)).
Proof.
  destruct (@recallContext nat needy_engine _ quiet_env rag_client (GStr "q") (NewEnvelope 1 GNil)
      {| ls_E := 0; ls_W := tiny_world; ls_async := [] |}) as [[s' env']|] eqn:Hr; [|by vm_compute in Hr].
  exists s', env'. split; [done|].
  destruct (@recalled_documents_visible nat needy_engine _ quiet_env tiny_memory rag_client (GStr "q") (NewEnvelope 1 GNil) _ s' env' eq_refl Hr)
    as [H|(docs & H & _)]; [by left|right; by exists docs].
Defined.

(** ** The in-memory vector store *)

Section Store.
Context `{GoRange} (embed : string -> res error (list float32)) (sort : list (string * float32) -> list (string * float32)).

(** The two maps describe the same documents. *)
Definition store_wf (s : SimpleStore) : Prop := dom (st_vectors s) = dom (st_docs s).

Lemma Upsert_wf id content s : store_wf s -> store_wf (fst (store_Upsert embed id content s)).
Proof. unfold store_wf, store_Upsert. destruct (embed content); [|done]. cbn. intros Hs. by rewrite !dom_insert_L, Hs. Qed.

(** What sorting by descending score does to a list. *)
Definition sorts_by_score (l : list (string * float32)) : Prop :=
  sort l ≡ₚ l /\
  (Forall (fun x => is_nan (snd x) = false) l -> StronglySorted (fun a b => f_le (snd b) (snd a) = true) (sort l)).

Lemma scored_ids qVec s id : id ∈ map fst (scored qVec s) <-> id ∈ dom (st_vectors s).
Proof.
  unfold scored. rewrite map_map, list_elem_of_In, in_map_iff, elem_of_dom. split.
  - intros ([id' vec] & <- & Hin). rewrite <- list_elem_of_In, elem_of_range in Hin. by exists vec.
  - intros [vec Hv]. exists (id, vec). split; [done|]. by rewrite <- list_elem_of_In, elem_of_range.
Qed.

(** A search over a well-formed store returns the documents of the
    highest scores: at most [topK] distinct ids, all of them stored documents
    that can be read back, and no other document scores higher than a
    returned one. *)
Theorem Search_spec query topK s qVec ids :
  store_wf s -> embed query = Ok qVec -> sorts_by_score (scored qVec s) -> snd (store_Search embed sort query topK s) = Ok ids ->
  List.length ids = Nat.min (Z.to_nat topK) (size (st_vectors s)) /\ NoDup ids /\
  Forall (fun id => is_ok (snd (store_Get id s)) = true) ids /\
  (Forall (fun x => is_nan (snd x) = false) (scored qVec s) ->
   forall id x other y, id ∈ ids -> other ∉ ids -> (id, x) ∈ scored qVec s -> (other, y) ∈ scored qVec s -> f_le y x = true).
Proof.
  intros Hwf He Hsort. unfold store_Search. cbn [snd]. rewrite He. intros [= <-].
  destruct Hsort as [Hp Hs]. set (l := sort (scored qVec s)) in *. set (k := Z.to_nat topK).
  assert (map fst (scored qVec s) = (range (st_vectors s)).*1) as Hfst.
  { unfold scored. rewrite map_map. apply map_ext. by intros [a b]. }
  assert (NoDup (map fst l)) as Hnd.
  { assert (map fst l ≡ₚ map fst (scored qVec s)) as -> by (by apply Permutation_map). rewrite Hfst. apply NoDup_range. }
  split_and!.
  - rewrite length_map, length_take. f_equal. rewrite Hp. unfold scored. rewrite length_map, range_perm, length_map_to_list. done.
  - rewrite <- (take_drop k l), map_app in Hnd. by apply NoDup_app in Hnd as [Hnd _].
  - apply Forall_forall. intros id Hid. apply list_elem_of_In, in_map_iff in Hid as ([id' x] & <- & Hin). rewrite <- list_elem_of_In in Hin.
    assert (id' ∈ dom (st_vectors s)) as Hd.
    { apply (scored_ids qVec). apply list_elem_of_In, in_map_iff. exists (id', x). split; [done|].
      rewrite <- list_elem_of_In, <- Hp, <- (take_drop k l), elem_of_app. by left. }
    rewrite Hwf in Hd. apply elem_of_dom in Hd as [c Hc]. cbn. by rewrite Hc.
  - intros Hnum id x other y Hid Hother Hx Hy. specialize (Hs Hnum). rewrite <- (take_drop k l) in Hs.
    rewrite <- Hp, <- (take_drop k l), elem_of_app in Hx, Hy.
    assert (forall a b, (a, b) ∈ take k l -> a ∈ map fst (take k l)) as Hin.
    { intros a b Hab. apply list_elem_of_In, in_map_iff. exists (a, b). split; [done|by apply list_elem_of_In]. }
    destruct Hy as [Hy|Hy]; [by apply Hin in Hy|]. destruct Hx as [Hx|Hx].
    + exact (StronglySorted_app_1_elem_of (fun a b : string * float32 => f_le (snd b) (snd a) = true) _ _ (id, x) (other, y) Hs Hx Hy).
    + exfalso. rewrite <- (take_drop k l), map_app in Hnd. apply NoDup_app in Hnd as (_ & Hnd & _). apply (Hnd id Hid).
      apply list_elem_of_In, in_map_iff. exists (id, x). split; [done|by apply list_elem_of_In].
Qed.
End Store.

Definition one32 : float32 := S754_finite false 8388608 (-23).
Definition two_docs : SimpleStore :=
  {| st_vectors := {["a" := [one32; f_zero]; "b" := [one32; one32]]}; st_docs := {["a" := "alpha"; "b" := "beta"]} |}.
Definition by_first (l : list (string * float32)) : list (string * float32) :=
  match l with [x; y] => if f_lt (snd x) (snd y) then [y; x] else [x; y] | _ => l end.

Lemma by_first_sorts l : List.length l = 2 -> sorts_by_score by_first l.
Proof.
  destruct l as [|x [|y [|]]]; try done. intros _. unfold sorts_by_score, by_first.
  destruct (f_lt (snd x) (snd y)) eqn:Hl; (split; [|intros [Hx [Hy _]%Forall_cons]%Forall_cons]).
  - apply Permutation_swap.
  - repeat constructor. by apply f_lt_le.
  - done.
  - repeat constructor. by apply f_not_lt.
Qed.

Lemma Search_spec_witness :
  snd (store_Search (H := stored_order) (fun _ => Ok [one32; f_zero]) by_first "q" 1 two_docs) = Ok ["a"] /\ NoDup ["a"].
Proof.
  assert (snd (store_Search (H := stored_order) (fun _ => Ok [one32; f_zero]) by_first "q" 1 two_docs) = Ok ["a"]) as H by by_vm.
  split; [exact H|].
  destruct (Search_spec (H := stored_order) (fun _ => Ok [one32; f_zero]) by_first "q" 1 two_docs [one32; f_zero] ["a"]) as (_ & Hn & _);
    [reflexivity|reflexivity| |exact H|exact Hn].
  apply by_first_sorts. by_vm.
Defined.

(** A search asks for more than the store holds: everything is returned. *)
Example search_all : snd (store_Search (H := stored_order) (fun _ => Ok [one32; one32]) by_first "q" 5 two_docs) = Ok ["b"; "a"].
Proof. by_vm. Qed.
