(* ===== verification/ClientCalls.v ===== *)
(** * Calls built on the loop

    [sdk/planner.go] (plans read from the policy), [sdk/executor.go] (their
    execution), [sdk/proxy.go] (a registered action as an action value),
    [sdk/generics.go] and [sdk/execute_typed.go] (typed wrappers), and
    [adapters/func/wrapper.go] (Go functions as actions).  JSON conversion,
    Go's [%T] texts and [sort.Slice] are parameters. *)
From stdpp Require Import sorting.
From S2P Require Import Prelude GoStrings CoreErrors CoreTypes Reflect Datalog Runtime Solver Supervisor Session AgentLoop AgentLoopProps.
From Stdlib Require Import Ascii String.
Open Scope string_scope.

(** ** Plans *)

Record PlanStep := { ps_ActionName : string; ps_Order : Z }.

Definition Atoi (s : string) : res error Z :=
  match parse_int64 s with
  | Some z => Ok z
  | None => Err (EText ("strconv.Atoi: parsing " +:+ go_quote s +:+ ": invalid syntax"))
  end.

Definition goal_fact (goalName : string) : string := "goal(" +:+ dq +:+ goalName +:+ dq +:+ ")".
Definition plan_query : string := "plan_step(Action, Order)".

(** Solutions without both variables are skipped; an order that is no
    integer ends the reading. *)
Fixpoint read_steps (sols : list Solution) : res error (list PlanStep) :=
  match sols with
  | [] => Ok []
  | sol :: rest =>
      match sol !! "Action", sol !! "Order" with
      | Some action, Some orderStr =>
          match Atoi orderStr with
          | Err e => Err (EWrap ("invalid order '" +:+ orderStr +:+ "': ") e)
          | Ok order => res_bind (read_steps rest) (fun steps => Ok ({| ps_ActionName := action; ps_Order := order |} :: steps))
          end
      | _, _ => read_steps rest
      end
  end.

Section Plan.
Context {E : Type} `{!Evaluator E} (sort : list PlanStep -> list PlanStep).

(** [engine] is [None] for a client without one. *)
Definition Plan (ctx : option error) (goalName : string) (engine : option E) : option E * res error (list PlanStep) :=
  match engine with
  | None => (None, Err (EText "engine not initialized"))
  | Some e =>
      match ev_Query ctx [goal_fact goalName] plan_query e with
      | (e, Err x) => (Some e, Err (EWrap "planning query failed: " x))
      | (e, Ok sols) => (Some e, res_bind (read_steps sols) (fun steps => Ok (sort steps)))
      end
  end.
End Plan.

(** ** Execution of plans, and proxies *)

Section Calls.
Context {E : Type} `{!LoopEngine E} {W : Type} (V : LoopEnv).

(** What is passed on of an envelope. *)
Definition pass_on (env : Envelope) : LoopInput * list ExecuteOption :=
  (InPayload (env_Payload env), [WithMetadataMap (lv_render V) (env_Metadata env)]).

Definition call (c : Client E W) (name : string) (env : Envelope) (s : LState E W) : option (LState E W * res error Envelope) :=
  ExecuteByName V c name (fst (pass_on env)) (snd (pass_on env)) s.

Fixpoint plan_from (c : Client E W) (i : nat) (steps : list PlanStep) (env : Envelope) (s : LState E W)
  : option (LState E W * res error Envelope) :=
  match steps with
  | [] => Some (s, Ok env)
  | step :: rest =>
      '(s1, r) ← call c (ps_ActionName step) env s;
      match r with
      | Err x => Some (s1, Err (EWrap ("step " +:+ pretty (i + 1) +:+ " (" +:+ ps_ActionName step +:+ ") failed: ") x))
      | Ok env1 => plan_from c (S i) rest env1 s1
      end
  end.
Definition ExecutePlan (c : Client E W) (steps : list PlanStep) (initialInput : Envelope) (s : LState E W)
  : option (LState E W * res error Envelope) := plan_from c 0 steps initialInput s.

(** [actionProxy]. *)
Definition proxy_Execute (c : Client E W) (name : string) (env : Envelope) (s : LState E W)
  : option (LState E W * res error Envelope) := call c name env s.
Definition proxy_Metadata (name : string) : ActionMetadata := 
  {| am_Name := name; am_Type := "proxy"; am_InputContentType := ""; am_InputType := ""; am_OutputType := ""; am_IsDynamic := false |}.

(** ** Typed calls *)

Section Typed.
(** The output type: its type assertion on a payload, the JSON conversion of
    a payload, its zero value, and [%T] texts. *)
Context {Out : Type} (assert_out : GoVal -> option Out) (convert : GoVal -> res error Out) (zero : Out)
  (type_text : GoVal -> string) (out_text : string).

Definition convertPayload (input : GoVal) : res error Out :=
  match input with GNil => Ok zero | v => convert v end.

Definition Execute_typed (c : Client E W) (name : string) (input : GoVal) (s : LState E W) : option (LState E W * res error Out) :=
  '(s1, r) ← ExecuteByName V c name (InPayload input) [] s;
  Some (s1, res_bind r (fun env => match assert_out (env_Payload env) with
                                   | Some out => Ok out
                                   | None => convertPayload (env_Payload env)
                                   end)).

Definition Runnable_Run (c : Client E W) (name : string) (input : GoVal) (s : LState E W) : option (LState E W * res error Out) :=
  '(s1, r) ← ExecuteByName V c name (InPayload input) [] s;
  Some (s1, res_bind r (fun env => match assert_out (env_Payload env) with
                                   | Some out => Ok out
                                   | None => Err (EText ("output type mismatch: expected " +:+ out_text +:+ ", got "
                                                         +:+ type_text (env_Payload env)))
                                   end)).
End Typed.
End Calls.

(** ** Go functions as actions *)

Section Wrapper.
Context {In : Type} (assert_in : GoVal -> option In) (type_text : GoVal -> string) (in_text : string).

Record Wrapper := {
  wr_name : string; wr_fn : In -> res error GoVal; wr_contentType : string; wr_inputType : string; wr_outputType : string
}.
Definition NewWrapper (name : string) (fn : In -> res error GoVal) (inName outName : string) : Wrapper :=
  {| wr_name := name; wr_fn := fn; wr_contentType := TypeStruct; wr_inputType := inName; wr_outputType := outName |}.
Definition SetContentType (ct : string) (w : Wrapper) : Wrapper :=
  {| wr_name := wr_name w; wr_fn := wr_fn w; wr_contentType := ct; wr_inputType := wr_inputType w; wr_outputType := wr_outputType w |}.

(** [id] is the identifier of the new envelope. *)
Definition wrapper_Execute (id : Z) (w : Wrapper) (input : Envelope) : Envelope * option error :=
  match assert_in (env_Payload input) with
  | None => (emptyEnvelope, Some (ENote (ESentinel ErrSystemError) (": invalid input type, expected " +:+ in_text +:+ " but got "
                                                                             +:+ type_text (env_Payload input))))
  | Some v => match wr_fn w v with
              | Err e => (emptyEnvelope, Some e)
              | Ok out => (NewEnvelope id out, None)
              end
  end.
Definition wrapper_Metadata (w : Wrapper) : ActionMetadata :=
  {| am_Name := wr_name w; am_Type := "function"; am_InputContentType := wr_contentType w; am_InputType := wr_inputType w;
     am_OutputType := wr_outputType w; am_IsDynamic := false |}.
End Wrapper.

(** ** Properties *)

(** A solution that names a step. *)
Definition names_step (sol : Solution) : bool :=
  match sol !! "Action", sol !! "Order" with Some _, Some _ => true | _, _ => false end.
Definition step_of (sol : Solution) (step : PlanStep) : Prop :=
  sol !! "Action" = Some (ps_ActionName step) /\ (o ← sol !! "Order"; parse_int64 o) = Some (ps_Order step).

Lemma read_steps_ok sols steps : read_steps sols = Ok steps -> Forall2 step_of (List.filter names_step sols) steps.
Proof.
  revert steps. induction sols as [|sol sols IH]; intros steps; cbn [read_steps List.filter]; [intros [= <-]; constructor|].
  unfold names_step at 1. destruct (sol !! "Action") as [a|] eqn:Ha; [|apply IH]. destruct (sol !! "Order") as [o|] eqn:Ho; [|apply IH].
  unfold Atoi. destruct (parse_int64 o) as [z|] eqn:Hz; [|done]. intros H. apply res_bind_ok in H as (steps' & Hs & [= <-]).
  constructor; [|by apply IH]. split; [done|]. cbn. by rewrite Ho.
Qed.

(** What [sort.Slice] by order does. *)
Definition sorts_by_order (sort : list PlanStep -> list PlanStep) : Prop :=
  forall l, sort l ≡ₚ l /\ StronglySorted (fun a b => (ps_Order a <= ps_Order b)%Z) (sort l).

(** A plan is what the policy derived: its steps are the answers that
    name an action and an order, one step each, by increasing order. *)
Theorem Plan_spec {E : Type} `{!Evaluator E} sort ctx goal (e : E) e' plan :
  sorts_by_order sort -> Plan sort ctx goal (Some e) = (e', Ok plan) ->
  exists e1 sols steps, ev_Query ctx [goal_fact goal] plan_query e = (e1, Ok sols) /\ e' = Some e1 /\
    Forall2 step_of (List.filter names_step sols) steps /\ plan ≡ₚ steps /\
    StronglySorted (fun a b => (ps_Order a <= ps_Order b)%Z) plan.
Proof.
  intros Hsort. unfold Plan. destruct (ev_Query ctx [goal_fact goal] plan_query e) as [e1 [sols|x]] eqn:Hq; [|by intros [= _]].
  intros [= <- H]. apply res_bind_ok in H as (steps & Hs & [= <-]). exists e1, sols, steps.
  destruct (Hsort steps) as [Hp Ho]. split_and!; [done|done|by apply read_steps_ok|done|done].
Qed.

(** The goal is put between quotes as it is: a quote in its name closes the
    text, and the rest of the name is policy text. *)
Theorem goal_fact_injection :
  goal_fact ("x" +:+ dq +:+ "). halt(" +:+ dq +:+ "Req") =
  "goal(" +:+ dq +:+ "x" +:+ dq +:+ "). halt(" +:+ dq +:+ "Req" +:+ dq +:+ ")".
Proof. reflexivity. Qed.

Section Forwarding.
Context {E : Type} `{!LoopEngine E} {W : Type} (V : LoopEnv).

(** Two envelopes that agree on payload and metadata. *)
Definition same_passed (e1 e2 : Envelope) : Prop := env_Payload e1 = env_Payload e2 /\ env_Metadata e1 = env_Metadata e2.

Lemma call_same (c : Client E W) name e1 e2 s : same_passed e1 e2 -> call V c name e1 s = call V c name e2 s.
Proof. intros [Hp Hm]. unfold call, pass_on. by rewrite Hp, Hm. Qed.

(** Executing a plan, or an action through its proxy, forgets the
    security labels, the facts, the context facts and the violations of the
    envelope: envelopes that differ only there run identically, whatever the
    policies say about them. *)
Theorem plan_forgets_labels (c : Client E W) steps e1 e2 s :
  steps <> [] -> same_passed e1 e2 ->
  ExecutePlan V c steps e1 s = ExecutePlan V c steps e2 s /\
  forall name, proxy_Execute V c name e1 s = proxy_Execute V c name e2 s.
Proof.
  intros Hne Hs. split; [|intros name; by apply call_same]. unfold ExecutePlan. destruct steps as [|step rest]; [done|].
  cbn [plan_from]. by rewrite (call_same c _ e1 e2).
Qed.

(** A plan runs its steps in order, each on the result of the one before. *)
Lemma plan_from_app (c : Client E W) i l1 l2 env s :
  plan_from V c i (l1 ++ l2) env s =
  ('(s1, r) ← plan_from V c i l1 env s;
   match r with Ok env1 => plan_from V c (i + List.length l1) l2 env1 s1 | Err x => Some (s1, Err x) end).
Proof.
  revert i env s. induction l1 as [|step l1 IH]; intros i env s; cbn [app plan_from List.length mbind option_bind].
  { by rewrite Nat.add_0_r. }
  destruct (call V c (ps_ActionName step) env s) as [[s1 [env1|x]]|]; cbn [mbind option_bind]; [|done..].
  rewrite IH. destruct (plan_from V c (S i) l1 env1 s1) as [[s2 [env2|x]]|]; cbn [mbind option_bind]; try done. f_equal. lia.
Qed.

(** The error of a plan names the step that failed: everything before it
    succeeded, nothing after it ran. *)
Theorem plan_error_located (c : Client E W) steps env s s' err :
  ExecutePlan V c steps env s = Some (s', Err err) ->
  exists before step after env1 s1 x, steps = (before ++ step :: after)%list /\
    ExecutePlan V c before env s = Some (s1, Ok env1) /\ call V c (ps_ActionName step) env1 s1 = Some (s', Err x) /\
    err = EWrap ("step " +:+ pretty (List.length before + 1) +:+ " (" +:+ ps_ActionName step +:+ ") failed: ") x.
Proof.
  unfold ExecutePlan. assert (forall i env s, plan_from V c i steps env s = Some (s', Err err) ->
    exists before step after env1 s1 x, steps = (before ++ step :: after)%list /\
    (forall j, plan_from V c j before env s = Some (s1, Ok env1)) /\ call V c (ps_ActionName step) env1 s1 = Some (s', Err x) /\
    err = EWrap ("step " +:+ pretty (i + List.length before + 1) +:+ " (" +:+ ps_ActionName step +:+ ") failed: ") x) as Hgen.
  { induction steps as [|step rest IH]; intros i env0 s0; cbn [plan_from]; [done|].
    destruct (call V c (ps_ActionName step) env0 s0) as [[s1 [env1|x]]|] eqn:Hc; cbn [mbind option_bind]; [| |done].
    - intros H. apply IH in H as (before & st & after & env2 & s2 & x & -> & Hb & Hx & ->).
      exists (step :: before), st, after, env2, s2, x. split; [done|]. split.
      + intros j. cbn [plan_from]. rewrite Hc. cbn [mbind option_bind]. apply Hb.
      + split; [done|]. cbn [List.length]. do 3 f_equal. f_equal. lia.
    - intros [= <- <-]. exists [], step, rest, env0, s0, x. split; [done|]. split; [done|]. split; [done|].
      cbn [List.length]. by rewrite Nat.add_0_r. }
  intros H. apply Hgen in H as (before & step & after & env1 & s1 & x & -> & Hb & Hx & ->).
  exists before, step, after, env1, s1, x. cbn [Nat.add]. split_and!; [done|apply Hb|done|done].
Qed.
End Forwarding.

(** ** Witnesses *)

Definition order_le (a b : PlanStep) : Prop := (ps_Order a <= ps_Order b)%Z.
#[global] Instance order_le_dec : RelDecision order_le.
Proof. intros a b. unfold order_le. apply _. Defined.
#[global] Instance order_le_trans : Transitive order_le.
Proof. intros a b c. unfold order_le. lia. Qed.
#[global] Instance order_le_total : Total order_le.
Proof. intros a b. unfold order_le. lia. Qed.

Lemma merge_sort_orders : sorts_by_order (merge_sort order_le).
Proof. intros l. split; [apply merge_sort_Permutation|]. apply (StronglySorted_merge_sort order_le). Qed.

Definition two_steps : list Solution :=
  [{["Action" := "deploy"; "Order" := "2"]}; {["Action" := "noise"]}; {["Action" := "build"; "Order" := "1"]}].
Definition planning : Evaluator nat :=
  {| ev_AssessPlan _ _ _ := None; ev_Reflect _ _ _ _ := None; ev_Query _ _ _ e := (S e, Ok two_steps) |}.

Lemma Plan_spec_witness :
  exists plan, @Plan nat planning (merge_sort order_le) None "release" (Some 0) = (Some 1, Ok plan) /\
    map ps_ActionName plan = ["build"; "deploy"] /\ StronglySorted order_le plan.
Proof.
  exists [{| ps_ActionName := "build"; ps_Order := 1 |}; {| ps_ActionName := "deploy"; ps_Order := 2 |}].
  assert (@Plan nat planning (merge_sort order_le) None "release" (Some 0) =
    (Some 1, Ok [{| ps_ActionName := "build"; ps_Order := 1 |}; {| ps_ActionName := "deploy"; ps_Order := 2 |}])) as H by by_vm.
  split; [exact H|]. split; [done|].
  destruct (@Plan_spec nat planning (merge_sort order_le) None "release" 0 _ _ merge_sort_orders H) as (e1 & sols & steps & _ & _ & _ & _ & Hs).
  exact Hs.
Defined.

Definition tainted_env : Envelope := set_Labels ["tainted"] (NewEnvelope 3 (GStr "p")).

Lemma plan_forgets_labels_witness :
  @ExecutePlan nat idle_engine _ quiet_env log_client [{| ps_ActionName := "act"; ps_Order := 1 |}] tainted_env start
  = @ExecutePlan nat idle_engine _ quiet_env log_client [{| ps_ActionName := "act"; ps_Order := 1 |}] (NewEnvelope 3 (GStr "p")) start.
Proof. apply (@plan_forgets_labels nat idle_engine _ quiet_env log_client); [done|by split]. Defined.

Definition broken_plan : list PlanStep := [{| ps_ActionName := "act"; ps_Order := 1 |}; {| ps_ActionName := "gone"; ps_Order := 2 |}].

Lemma plan_error_located_witness :
  exists s' err, @ExecutePlan nat idle_engine _ quiet_env log_client broken_plan (NewEnvelope 3 (GStr "p")) start = Some (s', Err err) /\
  exists before step after, broken_plan = (before ++ step :: after)%list.
Proof.
  destruct (@ExecutePlan nat idle_engine _ quiet_env log_client broken_plan (NewEnvelope 3 (GStr "p")) start) as [[s' [env|err]]|] eqn:He;
    [by vm_compute in He| |by vm_compute in He].
  exists s', err. split; [done|].
  destruct (@plan_error_located nat idle_engine _ quiet_env log_client _ _ _ _ _ He) as (b & st & a & _ & _ & _ & Heq & _).
  by exists b, st, a.
Defined.
