(* ===== verification/ClientInit.v ===== *)
(** * Construction of a client

    [sdk/client.go] (construction, registration, policy entry points,
    shutdown), [sdk/options.go] (client options, the wiring of a
    configuration), [sdk/registry.go] (providers), [sdk/config_loader.go],
    [sdk/explain.go] (hot reload), [adapters/mcp/loader.go] and the facade
    [manglekit.go].

    Engines are shared objects: the state holds them by handle, so an option
    that replaces the engine of the client leaves the old one with the actions
    it supervises.  Options are functions on the state, as in the code.
    Files, knowledge readers, providers and MCP servers are parameters;
    loggers and tracers are left out. *)
From S2P Require Import Prelude GoStrings CoreErrors CoreTypes Float64 Config Predicates.
From Stdlib Require Import Ascii String.
Open Scope string_scope.

(** What the client asks of an engine. *)
Class ClientEngine (E : Type) := {
  ce_new : res error E;                                         (* engine.NewWithObservability *)
  ce_LoadPolicy : string -> E -> E * option error;
  ce_LoadFromSource : string -> E -> E * option error;
  ce_LoadFacts : list string -> E -> E * option error;
  ce_RegisterExternalPredicate : string -> E -> E * option error;
  ce_RegisterAction : ActionMetadata -> E -> E * option error;
  ce_Reload : option (string -> E -> E * option error)          (* the optional interface for hot reload *)
}.

(** Actions: one handed to the client, an MCP tool (with the error of its
    server), or a supervised one, with the engine that governs it. *)
Inductive CAction :=
| Plain (meta : ActionMetadata)
| McpTool (server name : string) (initError : option error)
| Supervised (engine : nat) (a : CAction).

Fixpoint Metadata (a : CAction) : ActionMetadata :=
  match a with
  | Plain m => m
  | McpTool server name _ =>
      {| am_Name := "mcp_" +:+ server +:+ "_" +:+ name; am_Type := "mcp_tool"; am_InputContentType := ""; am_InputType := "";
         am_OutputType := ""; am_IsDynamic := false |}
  | Supervised _ a => Metadata a
  end.

Definition defaultParadoxThreshold : float64 := f_0_8.

Section Client.
Context {E : Type} `{!ClientEngine E} `{GoRange}.
(** History stores, the other half of a HybridMemory, other memories, state
    providers, text generators. *)
Context {Hist Rag Other Provider Llm : Type}.

Inductive ClientMemory :=
| Hybrid (history : option Hist) (rag : Rag)
| Custom (m : Other).

Record CState := {
  cs_engines : gmap nat E;
  cs_next : nat;
  cs_engine : option nat;
  cs_memory : option ClientMemory;
  cs_registry : gmap string CAction;
  cs_blueprint : string;
  cs_llm : option Llm;
  cs_maxSteps : Z;
  cs_steering : bool;
  cs_paradox : float64;
  cs_state : option Provider;
  cs_shuttingDown : bool
}.

Definition ClientOption : Type := CState -> CState * option error.

(** [a] and then, unless it failed, [b]. *)
Definition followed_by (a b : ClientOption) : ClientOption := fun c =>
  match a c with (c', None) => b c' | (c', Some e) => (c', Some e) end.
Definition skip : ClientOption := fun c => (c, None).
Definition fail (e : error) : ClientOption := fun c => (c, Some e).
Definition wrap_error (pre : string) (a : ClientOption) : ClientOption := fun c =>
  match a c with (c', Some e) => (c', Some (EWrap pre e)) | r => r end.
Fixpoint seq_options (l : list ClientOption) : ClientOption :=
  match l with [] => skip | a :: rest => followed_by a (seq_options rest) end.

(** Field assignments. *)
Definition upd (en : gmap nat E) (nx : nat) (eng : option nat) (mem : option ClientMemory) (reg : gmap string CAction) (bp : string)
    (llm : option Llm) (ms : Z) (st : bool) (px : float64) (sp : option Provider) (c : CState) : CState :=
  {| cs_engines := en; cs_next := nx; cs_engine := eng; cs_memory := mem; cs_registry := reg; cs_blueprint := bp; cs_llm := llm;
     cs_maxSteps := ms; cs_steering := st; cs_paradox := px; cs_state := sp; cs_shuttingDown := cs_shuttingDown c |}.
Definition set_engine (h : option nat) (c : CState) : CState :=
  upd (cs_engines c) (cs_next c) h (cs_memory c) (cs_registry c) (cs_blueprint c) (cs_llm c) (cs_maxSteps c) (cs_steering c) (cs_paradox c) (cs_state c) c.
Definition set_engines (en : gmap nat E) (c : CState) : CState :=
  upd en (cs_next c) (cs_engine c) (cs_memory c) (cs_registry c) (cs_blueprint c) (cs_llm c) (cs_maxSteps c) (cs_steering c) (cs_paradox c) (cs_state c) c.
Definition add_engine (e : E) (c : CState) : CState :=
  upd (<[cs_next c := e]> (cs_engines c)) (S (cs_next c)) (Some (cs_next c)) (cs_memory c) (cs_registry c) (cs_blueprint c) (cs_llm c) (cs_maxSteps c) (cs_steering c) (cs_paradox c) (cs_state c) c.
Definition set_memory (m : option ClientMemory) (c : CState) : CState :=
  upd (cs_engines c) (cs_next c) (cs_engine c) m (cs_registry c) (cs_blueprint c) (cs_llm c) (cs_maxSteps c) (cs_steering c) (cs_paradox c) (cs_state c) c.
Definition set_registry (r : gmap string CAction) (c : CState) : CState :=
  upd (cs_engines c) (cs_next c) (cs_engine c) (cs_memory c) r (cs_blueprint c) (cs_llm c) (cs_maxSteps c) (cs_steering c) (cs_paradox c) (cs_state c) c.
Definition set_blueprint (p : string) (c : CState) : CState :=
  upd (cs_engines c) (cs_next c) (cs_engine c) (cs_memory c) (cs_registry c) p (cs_llm c) (cs_maxSteps c) (cs_steering c) (cs_paradox c) (cs_state c) c.
Definition set_llm (l : option Llm) (c : CState) : CState :=
  upd (cs_engines c) (cs_next c) (cs_engine c) (cs_memory c) (cs_registry c) (cs_blueprint c) l (cs_maxSteps c) (cs_steering c) (cs_paradox c) (cs_state c) c.
Definition set_loop (ms : Z) (st : bool) (px : float64) (c : CState) : CState :=
  upd (cs_engines c) (cs_next c) (cs_engine c) (cs_memory c) (cs_registry c) (cs_blueprint c) (cs_llm c) ms st px (cs_state c) c.
Definition set_provider (sp : option Provider) (c : CState) : CState :=
  upd (cs_engines c) (cs_next c) (cs_engine c) (cs_memory c) (cs_registry c) (cs_blueprint c) (cs_llm c) (cs_maxSteps c) (cs_steering c) (cs_paradox c) sp c.

(** An operation on the client's engine. *)
Definition on_engine (op : E -> E * option error) : ClientOption := fun c =>
  match cs_engine c with
  | None => (c, Some (EText "engine not initialized"))
  | Some h =>
      match cs_engines c !! h with
      | None => (c, Some (EText "engine not initialized"))     (* not reached: handles are valid *)
      | Some e => let '(e', err) := op e in (set_engines (<[h := e']> (cs_engines c)) c, err)
      end
  end.

Definition client_LoadFacts (facts : list string) : ClientOption := on_engine (ce_LoadFacts facts).
Definition client_RegisterExternalPredicate (name : string) : ClientOption := on_engine (ce_RegisterExternalPredicate name).
Definition client_LoadPolicy (policy : string) : ClientOption := on_engine (ce_LoadPolicy policy).
Definition client_LoadFromSource (source : string) : ClientOption := on_engine (ce_LoadFromSource source).

(** [Supervise], with the engine the client has now. *)
Definition Supervise (c : CState) (a : CAction) : CAction :=
  match cs_engine c with Some h => Supervised h a | None => a end.

(** A failure to register the metadata is only logged. *)
Definition client_RegisterAction (name : string) (a : CAction) (c : CState) : CState :=
  let c := set_registry (<[name := a]> (cs_registry c)) c in
  match cs_engine c with Some _ => fst (on_engine (ce_RegisterAction (Metadata a)) c) | None => c end.
Definition RegisterSupervised (name : string) (act : CAction) (c : CState) : CState * CAction :=
  let s := Supervise c act in (client_RegisterAction name s c, s).

(** ** Client options *)

Definition ensureDependencies : ClientOption := fun c =>
  match cs_engine c with
  | Some _ => (c, None)
  | None => match ce_new with
            | Err e => (c, Some (EWrap "failed to initialize default engine: " e))
            | Ok e => (add_engine e c, None)
            end
  end.

Definition WithEngine (h : option nat) : ClientOption := fun c => (set_engine h c, None).
Definition WithPolicyPath (path : string) : ClientOption := fun c => (set_blueprint path c, None).
Definition WithSteeringEnabled : ClientOption := fun c => (set_loop (cs_maxSteps c) true (cs_paradox c) c, None).

(** [nop_rag] is the Nop half of a HybridMemory, [type_text] the [%T] text. *)
Context (nop_history : Hist) (nop_rag : Rag) (type_text : Other -> string).

Definition WithHistory (store : option Hist) : ClientOption := fun c =>
  match store with
  | None => (c, None)
  | Some s =>
      match cs_memory c with
      | Some (Hybrid _ rag) => (set_memory (Some (Hybrid (Some s) rag)) c, None)
      | Some (Custom m) =>
          (c, Some (EText ("WithHistory: refusing to discard the custom memory of type " +:+ type_text m +:+ "; "
                           +:+ "compose with sdk.NewHybridMemory(store, vectorStore, embedder) and pass it to WithMemory")))
      | None => (set_memory (Some (Hybrid (Some s) nop_rag)) c, None)
      end
  end.
Definition client_WithMemory (mem : option ClientMemory) : ClientOption := fun c =>
  (match mem with Some m => set_memory (Some m) c | None => c end, None).
Definition WithLLM (gen : option Llm) : ClientOption := fun c => (match gen with Some g => set_llm (Some g) c | None => c end, None).
Definition SetLLM (gen : option Llm) (c : CState) : CState := set_llm gen c.
Definition WithStateProvider (provider : option Provider) : ClientOption :=
  match provider with
  | None => skip
  | Some p => followed_by ensureDependencies (fun c => (set_provider (Some p) c, None))
  end.

(** ** Providers *)

Context (readFile : string -> res error string)
  (providers : gmap string (Options -> res error ClientOption)).

(** [RegisterProvider] and [Provider] on the global registry. *)
Definition RegisterProvider {F : Type} (name : string) (factory : F) (registry : gmap string F) : gmap string F :=
  <[name := factory]> registry.
Definition ProviderOf {F : Type} (kind name : string) (registry : gmap string F) : res error F :=
  match registry !! name with
  | Some f => Ok f
  | None => Err (EText (kind +:+ " '" +:+ name +:+ "' is not registered"))
  end.

(** Without [fail_on_startup], failures are only logged. *)
Definition startup_failure (cfg : ActionConfig) (e : error) : ClientOption :=
  if acf_FailOnStartup cfg then fail e else skip.

Definition WithProviderConfig (name : string) (cfg : ActionConfig) : ClientOption := fun c =>
  match providers !! acf_Provider cfg with
  | None => startup_failure cfg (EText ("provider factory '" +:+ acf_Provider cfg +:+ "' not found for action '" +:+ name +:+ "'")) c
  | Some factory =>
      match factory (<["_action_name" := GStr name]> (acf_Options cfg)) with
      | Err e => startup_failure cfg (EWrap ("failed to create option for action '" +:+ name +:+ "': ") e) c
      | Ok opt =>
          match opt c with
          | (c', Some e) => startup_failure cfg (EWrap ("failed to apply provider option for action '" +:+ name +:+ "': ") e) c'
          | (c', None) => (c', None)
          end
      end
  end.

(** ** MCP servers *)

(** The tools of a server; both connecting and listing may fail. *)
Context (mcp_tools : MCPServerConfig -> res error (list string)).

Definition mcp_Load (cfg : MCPServerConfig) : res error (list CAction) :=
  match mcp_tools cfg with
  | Ok tools => Ok (map (fun t => McpTool (ms_Name cfg) t None) tools)
  | Err e =>
      if ms_FailOnStartup cfg then Err (EWrap ("failed to load MCP server " +:+ ms_Name cfg +:+ ": ") e)
      else Ok (map (fun t => McpTool (ms_Name cfg) t (Some e)) (ms_Tools cfg))
  end.

(** [MCPAction.Execute]: an unhealthy tool fails; [run] is the tool. *)
Definition mcp_Execute (run : string -> GoVal -> res error GoVal) (id : Z) (name : string) (initError : option error)
    (input : Envelope) : Envelope * option error :=
  match initError with
  | Some e => (emptyEnvelope, Some (EWrap ("tool '" +:+ name +:+ "' is unavailable due to startup failure: ") e))
  | None => match run name (env_Payload input) with
            | Err e => (emptyEnvelope, Some (EWrap ("execution failed for mcp tool " +:+ name +:+ ": ") e))
            | Ok v => (NewEnvelope id v, None)
            end
  end.

Definition register_mcp (a : CAction) : ClientOption := fun c =>
  let safe := Supervise c a in (set_registry (<[am_Name (Metadata safe) := safe]> (cs_registry c)) c, None).

Definition load_mcp (cfg : MCPServerConfig) : ClientOption :=
  match mcp_Load cfg with
  | Err e => if ms_FailOnStartup cfg then fail (EWrap ("critical tool '" +:+ ms_Name cfg +:+ "' failed to load: ") e) else skip
  | Ok actions => seq_options (map register_mcp actions)
  end.

(** ** A configuration *)

(** [knowledge.ParseNTriples] (modelled in [Knowledge]) and the RDF reader. *)
Context (parse_ntriples : string -> res error (list string)) (parse_rdf : string -> res error (list string)) (memories : gmap string (MemoryConfig -> res error (option ClientMemory))).

Definition config_policy (cfg : Config) : ClientOption :=
  let path := pc_Path (cf_Policy cfg) in
  if String.eqb path "" then skip
  else match readFile path with
       | Err e => fail (EWrap ("failed to read policy file " +:+ go_quote path +:+ ": ") e)
       | Ok content => wrap_error ("failed to load policy from " +:+ go_quote path +:+ ": ") (client_LoadPolicy content)
       end.

(** The error of the N-Triples reader is assigned to a variable of the inner
    block and never looked at. *)
Definition config_knowledge (cfg : Config) : ClientOption :=
  let path := kc_Path (cf_Knowledge cfg) in
  let load facts := wrap_error ("failed to load knowledge facts from " +:+ go_quote path +:+ ": ") (client_LoadFacts facts) in
  if String.eqb path "" then skip
  else if has_suffix path ".nt" then
    match readFile path with
    | Err e => fail (EWrap ("failed to open knowledge file " +:+ go_quote path +:+ ": ") e)
    | Ok content => load (match parse_ntriples content with Ok facts => facts | Err _ => [] end)
    end
  else match parse_rdf path with
       | Err e => fail (EWrap ("failed to parse knowledge from " +:+ go_quote path +:+ ": ") e)
       | Ok facts => load facts
       end.

Definition config_memory (cfg : Config) : ClientOption := fun c =>
  let provider := mc_Provider (cf_Memory cfg) in
  if String.eqb provider "" then (c, None)
  else match ProviderOf "memory provider" provider memories with
       | Err e => (c, Some (EWrap ("memory provider " +:+ go_quote provider +:+ " not found: ") e))
       | Ok factory =>
           match factory (cf_Memory cfg) with
           | Err e => (c, Some (EWrap "failed to create memory: " e))
           | Ok mem => (set_memory mem c, None)
           end
       end.

Definition config_actions (cfg : Config) : ClientOption :=
  seq_options (map (fun '(name, a) => WithProviderConfig name a) (range (cf_Actions cfg))).

Definition config_loop (cfg : Config) : ClientOption := fun c =>
  let p := cf_Policy cfg in
  (set_loop (if (0 <? pc_MaxSteps p)%Z then pc_MaxSteps p else cs_maxSteps c) (pc_SteeringEnabled p)
            (if f_le (pc_ParadoxThreshold p) f_zero then defaultParadoxThreshold else pc_ParadoxThreshold p) c, None).

Definition WithConfig (cfg : option Config) : ClientOption :=
  match cfg with
  | None => skip
  | Some cfg =>
      seq_options [ensureDependencies; config_policy cfg; config_knowledge cfg; config_memory cfg; config_actions cfg;
                   seq_options (map load_mcp (cf_MCP cfg)); config_loop cfg]
  end.

Definition WithConfigFile (load : string -> res error Config) (path : string) : ClientOption :=
  match load path with
  | Err e => fail (EWrap "failed to load configuration: " e)
  | Ok cfg => WithConfig (Some cfg)
  end.

(** ** Construction *)

(** The engines that callers may pass to [WithEngine]. *)
Definition blank_client (engines : gmap nat E) (next : nat) : CState :=
  {| cs_engines := engines; cs_next := next; cs_engine := None; cs_memory := Some (Hybrid (Some nop_history) nop_rag);
     cs_registry := ∅; cs_blueprint := ""; cs_llm := None; cs_maxSteps := 0; cs_steering := false;
     cs_paradox := defaultParadoxThreshold; cs_state := None; cs_shuttingDown := false |}.

Definition register_reference_predicates : ClientOption :=
  wrap_error "failed to register reference predicates: " (RegisterAll (fun name c => client_RegisterExternalPredicate name c)).

Definition load_blueprint : ClientOption := fun c =>
  let path := cs_blueprint c in
  if String.eqb path "" then (c, None)
  else match readFile path with
       | Err e => (c, Some (EWrap ("failed to read policy " +:+ go_quote path +:+ ": ") e))
       | Ok content => wrap_error ("failed to load policy " +:+ go_quote path +:+ ": ") (client_LoadPolicy content) c
       end.

Definition init_client (opts : list ClientOption) : ClientOption :=
  followed_by (seq_options opts) (followed_by ensureDependencies (followed_by register_reference_predicates load_blueprint)).

Definition NewClient (engines : gmap nat E) (next : nat) (opts : list ClientOption) : res error CState :=
  match init_client opts (blank_client engines next) with
  | (c, None) => Ok c
  | (_, Some e) => Err e
  end.
Definition QuickClient (engines : gmap nat E) (next : nat) (policyPath : string) : res error CState :=
  NewClient engines next [WithPolicyPath policyPath].

(** ** Hot reload *)

Definition client_ReloadPolicySource (engine_text : string) (source : string) : ClientOption :=
  fun c => match cs_engine c with
  | None => (c, Some (EText "engine not initialized"))
  | Some _ => match ce_Reload with
              | None => (c, Some (EText ("engine " +:+ engine_text +:+ " does not support hot policy reload")))
              | Some reload => on_engine (reload source) c
              end
  end.

Definition client_ReloadPolicy (engine_text path : string) : ClientOption :=
  if String.eqb path "" then fail (EText "policy path cannot be empty")
  else match readFile path with
       | Err e => fail (EWrap ("failed to read policy " +:+ go_quote path +:+ ": ") e)
       | Ok content => followed_by (client_ReloadPolicySource engine_text content) (fun c => (set_blueprint path c, None))
       end.

(** ** Shutdown *)

(** [drained] is the error of the context when it ends before the background
    work; the result tells whether the cleanup function ran. *)
Definition Shutdown (drained : option error) (cleanup : option (option error)) (c : CState) : CState * option error * bool :=
  if cs_shuttingDown c then (c, None, false)
  else
    let c := {| cs_engines := cs_engines c; cs_next := cs_next c; cs_engine := cs_engine c; cs_memory := cs_memory c;
                cs_registry := cs_registry c; cs_blueprint := cs_blueprint c; cs_llm := cs_llm c; cs_maxSteps := cs_maxSteps c;
                cs_steering := cs_steering c; cs_paradox := cs_paradox c; cs_state := cs_state c; cs_shuttingDown := true |} in
    match drained, cleanup with
    | Some e, _ => (c, Some e, false)
    | None, Some r => (c, r, true)
    | None, None => (c, None, false)
    end.
End Client.

(** [NewRequestEnv] of the facade. *)
Definition NewRequestEnv (id : Z) (text action : string) (labels : list string) : Envelope :=
  let env := set_Labels labels (NewEnvelope id (GStr text)) in
  if String.eqb action "" then env
  else set_Facts (env_Facts env ++ ["action_operation(" +:+ go_quote EntityInput +:+ ", " +:+ go_quote action +:+ ")"])%list env.

(** [MustReadFile]: a relative path that is not found is tried next to the
    caller's source file; [None] is the panic. *)
Definition MustReadFile (readFile : string -> res error string) (isAbs : string -> bool) (beside_caller : string -> option string)
    (path : string) : option string :=
  match readFile path with
  | Ok data => Some data
  | Err _ =>
      if isAbs path then None
      else alt ← beside_caller path; match readFile alt with Ok data => Some data | Err _ => None end
  end.
