(* ===== verification/ClientInitProps.v ===== *)
(** * Properties of the construction of a client

    A constructed client has its predicates and its policy in force, the tools
    of its configuration are supervised, the order of options matters where
    stated, history and shutdown. *)
From S2P Require Import Prelude GoStrings CoreErrors CoreTypes Float64 Config Predicates ClientInit.
From Stdlib Require Import Ascii String.
Open Scope string_scope.

Section Monad.
Context {E Hist Rag Other Provider Llm : Type}.
Local Abbreviation State := (CState (E := E) (Hist := Hist) (Rag := Rag) (Other := Other) (Provider := Provider) (Llm := Llm)).
Local Abbreviation Opt := (ClientOption (E := E) (Hist := Hist) (Rag := Rag) (Other := Other) (Provider := Provider) (Llm := Llm)).

Lemma followed_by_ok (a b : Opt) c c' : followed_by a b c = (c', None) <-> exists c1, a c = (c1, None) /\ b c1 = (c', None).
Proof. unfold followed_by. destruct (a c) as [c1 [e|]]; naive_solver. Qed.

Lemma wrap_ok pre (a : Opt) c c' : wrap_error pre a c = (c', None) <-> a c = (c', None).
Proof. unfold wrap_error. destruct (a c) as [c1 [e|]]; naive_solver. Qed.

(** A property of states that every option keeps, successful or not. *)
Definition keeps (P : State -> Prop) (a : Opt) : Prop := forall c, P c -> P (fst (a c)).

Lemma keeps_followed_by P a b : keeps P a -> keeps P b -> keeps P (followed_by a b).
Proof.
  intros Ha Hb c Hc. unfold followed_by. specialize (Ha c Hc). destruct (a c) as [c1 [e|]]; [done|]. by apply Hb.
Qed.
Lemma keeps_wrap P pre a : keeps P a -> keeps P (wrap_error pre a).
Proof. intros Ha c Hc. unfold wrap_error. specialize (Ha c Hc). by destruct (a c) as [c1 [e|]]. Qed.
Lemma keeps_seq P l : Forall (keeps P) l -> keeps P (seq_options l).
Proof. induction 1; cbn; [by intros c|]. by apply keeps_followed_by. Qed.
Lemma keeps_skip P : keeps P skip.
Proof. by intros c. Qed.
Lemma keeps_fail P e : keeps P (fail e).
Proof. by intros c. Qed.
End Monad.

#[export] Hint Resolve keeps_followed_by keeps_wrap keeps_skip keeps_fail : mk.

Section Props.
Context {E : Type} `{!ClientEngine E} `{GoRange} {Hist Rag Other Provider Llm : Type}.
Local Abbreviation State := (CState (E := E) (Hist := Hist) (Rag := Rag) (Other := Other) (Provider := Provider) (Llm := Llm)).
Local Abbreviation Opt := (ClientOption (E := E) (Hist := Hist) (Rag := Rag) (Other := Other) (Provider := Provider) (Llm := Llm)).
Context (nop_history : Hist) (nop_rag : Rag) (readFile : string -> res error string).

(** The engine of a client. *)
Definition engine_is (c : State) (e : E) : Prop := exists h, cs_engine c = Some h /\ cs_engines c !! h = Some e.

Lemma on_engine_ok op (c c' : State) : on_engine op c = (c', None) ->
  exists e e', engine_is c e /\ op e = (e', None) /\ engine_is c' e' /\ cs_blueprint c' = cs_blueprint c.
Proof.
  unfold on_engine. destruct (cs_engine c) as [h|] eqn:Hh; [|done]. destruct (cs_engines c !! h) as [e|] eqn:He; [|done].
  destruct (op e) as [e' err] eqn:Hop. intros [= <- ->]. exists e, e'. split_and!; [by exists h|done| |done].
  exists h. split; [done|]. cbn. by rewrite lookup_insert_eq.
Qed.

Lemma engine_is_fun (c : State) e1 e2 : engine_is c e1 -> engine_is c e2 -> e1 = e2.
Proof. intros (h1 & H1 & H2) (h2 & H3 & H4). congruence. Qed.

(** The chain of operations that ends in the engine of a new client. *)
Definition policy_in_force (path : string) (e0 e : E) : Prop :=
  exists e1 e2, ce_RegisterExternalPredicate "within_time_window" e0 = (e1, None) /\
    ce_RegisterExternalPredicate "rate_limit_exceeded" e1 = (e2, None) /\
    if String.eqb path "" then e = e2
    else exists content, readFile path = Ok content /\ ce_LoadPolicy content e2 = (e, None).

Lemma seq_snoc (l : list Opt) a c c' : seq_options (l ++ [a]) c = (c', None) -> exists c1, seq_options l c = (c1, None) /\ a c1 = (c', None).
Proof.
  revert c. induction l as [|b l IH]; intros c; cbn [app seq_options].
  - intros (c1 & H1 & [= <-])%followed_by_ok. by exists c.
  - intros (c1 & H1 & (c2 & H2 & H3)%IH)%followed_by_ok. exists c2. split; [|done]. apply followed_by_ok. by exists c1.
Qed.

(** What a configuration loads, from one engine to the next: its policy file,
    then the facts of its knowledge file (with the N-Triples reader, none when
    it rejects the file). *)
Definition config_policy_loaded (cfg : Config) (e e' : E) : Prop :=
  if String.eqb (pc_Path (cf_Policy cfg)) "" then e' = e
  else exists content, readFile (pc_Path (cf_Policy cfg)) = Ok content /\ ce_LoadPolicy content e = (e', None).

Definition config_knowledge_loaded (nt rdf : string -> res error (list string)) (cfg : Config) (e e' : E) : Prop :=
  let path := kc_Path (cf_Knowledge cfg) in
  if String.eqb path "" then e' = e
  else exists facts, ce_LoadFacts facts e = (e', None) /\
    if has_suffix path ".nt"
    then exists content, readFile path = Ok content /\ (nt content = Ok facts \/ is_ok (nt content) = false /\ facts = [])
    else rdf path = Ok facts.

(** Options that leave the engines and the choice of the engine alone. *)
Definition spares_engine (a : Opt) : Prop :=
  forall c c', a c = (c', None) -> cs_engine c' = cs_engine c /\ cs_engines c' = cs_engines c.

Lemma spares_seq l : Forall spares_engine l -> spares_engine (seq_options l).
Proof.
  induction 1 as [|a l Ha _ IH]; cbn [seq_options]; [by intros c c' [= <-]|].
  intros c c' (c1 & H1%Ha & H2%IH)%followed_by_ok. destruct H1, H2. split; congruence.
Qed.
Lemma spares_load_mcp mcp_tools cfg : spares_engine (load_mcp mcp_tools cfg).
Proof.
  unfold load_mcp. destruct (mcp_Load mcp_tools cfg); [|destruct (ms_FailOnStartup cfg); by intros c c' [= <-]].
  apply spares_seq, Forall_forall. intros o Ho. apply list_elem_of_In, in_map_iff in Ho as (x & <- & _). by intros c c' [= <-].
Qed.
Lemma spares_memory memories cfg : spares_engine (config_memory memories cfg).
Proof. intros c c'. unfold config_memory. repeat case_match; intros; by simplify_eq. Qed.

Lemma config_policy_ok cfg (c c1 : State) e1 : config_policy readFile cfg c = (c1, None) -> engine_is c1 e1 ->
  exists e0, engine_is c e0 /\ config_policy_loaded cfg e0 e1.
Proof.
  unfold config_policy, config_policy_loaded. intros Hp H1. destruct (String.eqb _ ""); [injection Hp as <-; by exists e1|].
  destruct (readFile _) as [content|]; [|done]. apply wrap_ok, on_engine_ok in Hp as (x & y & Hx & Hop & Hy & _).
  rewrite (engine_is_fun _ _ _ Hy H1) in Hop. exists x. split; [done|by exists content].
Qed.

Lemma config_knowledge_ok nt rdf cfg (c c1 : State) e1 : config_knowledge readFile nt rdf cfg c = (c1, None) -> engine_is c1 e1 ->
  exists e0, engine_is c e0 /\ config_knowledge_loaded nt rdf cfg e0 e1.
Proof.
  unfold config_knowledge, config_knowledge_loaded. intros Hk H1. destruct (String.eqb _ ""); [injection Hk as <-; by exists e1|].
  assert (forall pre facts, wrap_error pre (client_LoadFacts facts) c = (c1, None) ->
    exists e0, engine_is c e0 /\ ce_LoadFacts facts e0 = (e1, None)) as Hload.
  { intros pre facts Hf. apply wrap_ok, on_engine_ok in Hf as (x & y & Hx & Hop & Hy & _).
    rewrite (engine_is_fun _ _ _ Hy H1) in Hop. by exists x. }
  destruct (has_suffix _ ".nt").
  - destruct (readFile _) as [content|]; [|done]. apply Hload in Hk as (x & Hx & Hop). exists x. split; [done|].
    eexists. split; [exact Hop|]. exists content. destruct (nt content); auto.
  - destruct (rdf _) as [facts|]; [|done]. apply Hload in Hk as (x & Hx & Hop). exists x. split; [done|]. by exists facts.
Qed.

Lemma range_empty {A : Type} : range (∅ : gmap string A) = [].
Proof. apply Permutation_nil_r. rewrite range_perm. by rewrite map_to_list_empty. Qed.

Lemma new_engine_present (c c' : State) : ensureDependencies c = (c', None) -> cs_engine c' <> None /\ cs_registry c' = cs_registry c.
Proof.
  unfold ensureDependencies. destruct (cs_engine c) as [h|] eqn:Hh; [intros [= <-]; by rewrite Hh|].
  destruct ce_new; [|done]. by intros [= <-].
Qed.

(** Everything in the registry was there before or is supervised, and there
    is an engine to supervise with. *)
Definition guarded (reg : gmap string CAction) (c : State) : Prop :=
  cs_engine c <> None /\
  forall name a, cs_registry c !! name = Some a -> reg !! name = Some a \/ exists h raw, a = Supervised h raw.

Lemma keeps_on_engine reg op : keeps (guarded reg) (on_engine op).
Proof.
  intros c Hc. pose proof Hc as [He Hr]. unfold on_engine. destruct (cs_engine c) as [h|] eqn:Hh; [|exact Hc].
  destruct (cs_engines c !! h) as [e|]; [|exact Hc]. destruct (op e). split; [cbn; by rewrite Hh|exact Hr].
Qed.

Lemma keeps_LoadPolicy reg content : keeps (guarded reg) (client_LoadPolicy content).
Proof. apply keeps_on_engine. Qed.
Lemma keeps_LoadFacts reg facts : keeps (guarded reg) (client_LoadFacts facts).
Proof. apply keeps_on_engine. Qed.

Lemma keeps_register_mcp reg a : keeps (guarded reg) (register_mcp a).
Proof.
  intros c [He Hr]. unfold register_mcp, Supervise. destruct (cs_engine c) as [h|] eqn:Hh; [|done]. split; [cbn; by rewrite Hh|].
  intros name x. cbn. rewrite lookup_insert_Some. intros [[_ <-]|[_ Hx]]; [right; by exists h, a|by apply Hr].
Qed.

Lemma keeps_load_mcp reg mcp_tools cfg : keeps (guarded reg) (load_mcp mcp_tools cfg).
Proof.
  unfold load_mcp. destruct (mcp_Load mcp_tools cfg); [|destruct (ms_FailOnStartup cfg); auto with mk].
  apply keeps_seq, Forall_forall. intros o Ho. apply list_elem_of_In, in_map_iff in Ho as (x & <- & _). apply keeps_register_mcp.
Qed.

Lemma keeps_policy reg cfg : keeps (guarded reg) (config_policy readFile cfg).
Proof. unfold config_policy. repeat case_match; auto using keeps_LoadPolicy, keeps_LoadFacts with mk. Qed.

Lemma keeps_knowledge reg nt rdf cfg : keeps (guarded reg) (config_knowledge readFile nt rdf cfg).
Proof. unfold config_knowledge. repeat case_match; auto using keeps_LoadPolicy, keeps_LoadFacts with mk. Qed.

Lemma keeps_memory reg memories cfg : keeps (guarded reg) (config_memory memories cfg).
Proof. intros c Hc. unfold config_memory. repeat case_match; done. Qed.

Lemma keeps_loop reg cfg : keeps (guarded reg) (config_loop cfg).
Proof. intros c Hc. done. Qed.

(** A configuration without provider actions adds supervised actions only, and
    leaves a client with an engine. *)
Lemma config_guarded providers mcp_tools nt rdf memories cfg (c c' : State) : cf_Actions cfg = ∅ ->
  WithConfig readFile providers mcp_tools nt rdf memories (Some cfg) c = (c', None) -> guarded (cs_registry c) c'.
Proof.
  intros Ha Hw. unfold WithConfig in Hw. cbn [seq_options] in Hw. apply followed_by_ok in Hw as (c1 & H1 & Hw).
  destruct (new_engine_present _ _ H1) as [He Hreg].
  assert (guarded (cs_registry c) c1) as Hg by (split; [done|]; rewrite Hreg; auto).
  match type of Hw with ?rest c1 = _ => assert (keeps (guarded (cs_registry c)) rest) as Hk end.
  { repeat apply keeps_followed_by; [apply keeps_policy|apply keeps_knowledge|apply keeps_memory| | |apply keeps_loop|apply keeps_skip].
    - unfold config_actions. rewrite Ha, range_empty. apply keeps_skip.
    - apply keeps_seq, Forall_forall. intros o Ho. apply list_elem_of_In, in_map_iff in Ho as (m & <- & _). apply keeps_load_mcp. }
  specialize (Hk c1 Hg). by rewrite Hw in Hk.
Qed.

(** A configuration without provider actions leaves the engine with what it
    loaded. *)
Lemma config_loaded providers mcp_tools nt rdf memories cfg (c c' : State) e : cf_Actions cfg = ∅ ->
  WithConfig readFile providers mcp_tools nt rdf memories (Some cfg) c = (c', None) -> engine_is c' e ->
  exists e0 e1, config_policy_loaded cfg e0 e1 /\ config_knowledge_loaded nt rdf cfg e1 e.
Proof.
  intros Ha Hw He. unfold WithConfig in Hw. cbn [seq_options] in Hw. apply followed_by_ok in Hw as (c1 & _ & Hw).
  apply followed_by_ok in Hw as (c2 & H2 & Hw). apply followed_by_ok in Hw as (c3 & H3 & Hw). apply followed_by_ok in Hw as (c4 & H4 & Hw).
  apply followed_by_ok in Hw as (c5 & H5 & Hw). apply followed_by_ok in Hw as (c6 & H6 & Hw). apply followed_by_ok in Hw as (c7 & H7 & Hw).
  injection Hw as <-. unfold config_actions in H5. rewrite Ha, range_empty in H5. injection H5 as <-.
  apply spares_memory in H4 as [H4 H4'].
  apply spares_seq in H6 as [H6 H6']; [|apply Forall_forall; intros o Ho; apply list_elem_of_In, in_map_iff in Ho as (x & <- & _); apply spares_load_mcp].
  injection H7 as <-. assert (engine_is c3 e) as H3e by (unfold engine_is in *; cbn in He; by rewrite H6, H6', H4, H4' in He).
  destruct (config_knowledge_ok _ _ _ _ _ _ H3 H3e) as (e1 & H2e & Hk). destruct (config_policy_ok _ _ _ _ H2 H2e) as (e0 & _ & Hp). by exists e0, e1.
Qed.

(** C6: Construction fails closed, and what that covers.  A client that was
    constructed has an engine in which the reference predicates are registered
    and into which the policy file of the policy-path option that was in force
    last (if any) was then read and loaded without error, after every option
    and whatever their order.  The policy and knowledge files of a
    configuration are loaded when that option is applied, before the
    predicates: when the configuration is the last option and has no provider
    actions, they were read and loaded without error into that same engine; an
    engine option after a configuration replaces the engine, and with it that
    policy. *)
Theorem new_client_governed (engines : gmap nat E) next (opts : list Opt) (c : State) :
  NewClient nop_history nop_rag readFile engines next opts = Ok c ->
  exists e0 e, engine_is c e /\ policy_in_force (cs_blueprint c) e0 e /\
    (forall front providers mcp_tools nt rdf memories cfg,
       opts = (front ++ [WithConfig readFile providers mcp_tools nt rdf memories (Some cfg)])%list -> cf_Actions cfg = ∅ ->
       exists e2 e1, config_policy_loaded cfg e2 e1 /\ config_knowledge_loaded nt rdf cfg e1 e0).
Proof.
  unfold NewClient. destruct (init_client readFile opts _) as [c' [e|]] eqn:Hi; [done|]. intros [= <-].
  unfold init_client in Hi. apply followed_by_ok in Hi as (c1 & Hopts & Hi). apply followed_by_ok in Hi as (c2 & Hdep & Hi).
  apply followed_by_ok in Hi as (c3 & Hr & Hb). unfold register_reference_predicates in Hr. apply wrap_ok in Hr.
  unfold RegisterAll in Hr. destruct (client_RegisterExternalPredicate "within_time_window" c2) as [r1 e1] eqn:H1.
  destruct (client_RegisterExternalPredicate "rate_limit_exceeded" r1) as [r2 e2] eqn:H2.
  destruct e1, e2; try done. injection Hr as <-.
  apply on_engine_ok in H1 as (x0 & x1 & Hx0 & Hop1 & Hx1 & _). apply on_engine_ok in H2 as (x1' & x2 & Hx1' & Hop2 & Hx2 & _).
  rewrite (engine_is_fun _ _ _ Hx1' Hx1) in *. unfold load_blueprint in Hb. exists x0.
  assert (forall front providers mcp_tools nt rdf memories cfg,
       opts = (front ++ [WithConfig readFile providers mcp_tools nt rdf memories (Some cfg)])%list -> cf_Actions cfg = ∅ ->
       exists e2 e1, config_policy_loaded cfg e2 e1 /\ config_knowledge_loaded nt rdf cfg e1 x0) as Hcfg.
  { intros front providers mcp_tools nt rdf memories cfg -> Ha. apply seq_snoc in Hopts as (c0 & _ & Hw).
    eapply config_loaded; [exact Ha|exact Hw|]. apply config_guarded in Hw as [Hw _]; [|done].
    unfold ensureDependencies in Hdep. destruct (cs_engine c1); [|done]. by injection Hdep as ->. }
  destruct (String.eqb (cs_blueprint r2) "") eqn:Hp.
  - injection Hb as <-. exists x2. split_and!; [done| |exact Hcfg]. exists x1, x2. by rewrite Hp.
  - destruct (readFile (cs_blueprint r2)) as [content|] eqn:Hf; [|done]. apply wrap_ok, on_engine_ok in Hb as (x2' & x3 & Hx2' & Hop3 & Hx3 & Hbp).
    rewrite (engine_is_fun _ _ _ Hx2' Hx2) in *. exists x3. split_and!; [done| |exact Hcfg]. exists x1, x2. rewrite Hbp, Hp. split_and!; [done|done|by exists content].
Qed.

(** C7: No tool enters by configuration without a guard: a configuration
    without provider actions leaves in the registry only what was there and
    supervised actions. *)
Theorem config_tools_supervised providers mcp_tools nt rdf memories cfg (c c' : State) :
  cf_Actions cfg = ∅ ->
  WithConfig readFile providers mcp_tools nt rdf memories (Some cfg) c = (c', None) ->
  forall name a, cs_registry c' !! name = Some a -> cs_registry c !! name = Some a \/ exists h raw, a = Supervised h raw.
Proof. intros Ha Hw. by apply config_guarded in Hw as [_ Hg]. Qed.

(** A provider that is not required never aborts the start. *)
Theorem optional_provider_never_fails providers name cfg (c : State) :
  acf_FailOnStartup cfg = false -> snd (WithProviderConfig providers name cfg c) = None.
Proof. intros Hf. unfold WithProviderConfig, startup_failure. rewrite Hf. repeat case_match; done. Qed.

(** Setting the history keeps the other half of a hybrid memory and never
    replaces another memory. *)
Theorem WithHistory_spec type_text s (c c' : State) err :
  WithHistory nop_rag type_text (Some s) c = (c', err) ->
  match cs_memory c with
  | Some (Hybrid _ rag) => err = None /\ cs_memory c' = Some (Hybrid (Some s) rag)
  | None => err = None /\ cs_memory c' = Some (Hybrid (Some s) nop_rag)
  | Some (Custom _) => is_Some err /\ c' = c
  end.
Proof. cbn. destruct (cs_memory c) as [[]|]; intros [= <- <-]; split; done. Qed.

(** A reload by path is atomic in the remembered path: it changes, to
    the given path, exactly when the file was read and the engine accepted
    its text. *)
Theorem reload_path_iff text path (c : State) : path <> cs_blueprint c ->
  cs_blueprint (fst (client_ReloadPolicy readFile text path c)) = path <->
  snd (client_ReloadPolicy readFile text path c) = None.
Proof.
  intros Hne. unfold client_ReloadPolicy. destruct (String.eqb_spec path "") as [->|Hp]; [cbn; split; [congruence|done]|].
  destruct (readFile path) as [content|e]; [|cbn; split; [congruence|done]]. unfold followed_by.
  destruct (client_ReloadPolicySource text content c) as [c1 err] eqn:Hs.
  assert (cs_blueprint c1 = cs_blueprint c) as Hbp.
  { revert Hs. unfold client_ReloadPolicySource, on_engine. repeat case_match; intros [= <- _]; done. }
  destruct err; cbn; split; congruence.
Qed.

(** ** Shutdown *)

Fixpoint shutdowns (l : list (option error * option (option error))) (c : State) : list (option error * bool) :=
  match l with
  | [] => []
  | (d, cl) :: rest => let '(c', e, ran) := Shutdown d cl c in (e, ran) :: shutdowns rest c'
  end.

Lemma shutdown_again d cl (c : State) : cs_shuttingDown c = true -> Shutdown d cl c = (c, None, false).
Proof. intros Hd. unfold Shutdown. by rewrite Hd. Qed.

(** Shutting down is idempotent: only the first call can run the cleanup
    or return an error. *)
Theorem shutdown_once l (c : State) :
  match shutdowns l c with [] => True | _ :: rest => Forall (fun r => r = (None, false)) rest end.
Proof.
  destruct l as [|[d cl] l]; [done|]. cbn. destruct (Shutdown d cl c) as [[c' e] ran] eqn:Hs.
  assert (cs_shuttingDown c' = true) as Hd.
  { revert Hs. unfold Shutdown. destruct (cs_shuttingDown c) eqn:Hc; [intros [= <- _ _]; done|]. destruct d, cl; by intros [= <- _ _]. }
  clear Hs. induction l as [|[d' cl'] l IH]; cbn; [constructor|]. rewrite (shutdown_again d' cl' c' Hd). by constructor.
Qed.

(** When the background work outlives the context of the first call, the
    cleanup function never runs. *)
Theorem timeout_skips_cleanup e (l : list (option error * option (option error))) r (c : State) : cs_shuttingDown c = false ->
  Forall (fun x => snd x = false) (shutdowns ((Some e, Some r) :: l) c).
Proof.
  intros Hc. pose proof (shutdown_once ((Some e, Some r) :: l) c) as Ho. cbn in *. unfold Shutdown in *. rewrite Hc in *.
  constructor; [done|]. eapply Forall_impl; [exact Ho|]. by intros x ->.
Qed.
End Props.

(** ** Witnesses and order of effects *)

(** An engine that logs what it is asked, and rejects the policy "bad". *)
Definition logging : ClientEngine (list string) :=
  {| ce_new := Ok [];
     ce_LoadPolicy p e := if String.eqb p "bad" then (e, Some (EText "parse error")) else ((e ++ ["policy " +:+ p])%list, None);
     ce_LoadFromSource p e := ((e ++ ["source " +:+ p])%list, None);
     ce_LoadFacts fs e := ((e ++ map (fun f => "fact " +:+ f) fs)%list, None);
     ce_RegisterExternalPredicate n e := ((e ++ ["extern " +:+ n])%list, None);
     ce_RegisterAction m e := ((e ++ ["action " +:+ am_Name m])%list, None);
     ce_Reload := Some (fun p e => if String.eqb p "bad" then (e, Some (EText "parse error")) else (["policy " +:+ p], None)) |}.

Definition files (path : string) : res error string :=
  if String.eqb path "p.dl" then Ok "halt(x)." else if String.eqb path "bad.dl" then Ok "bad"
  else if String.eqb path "facts.nt" then Ok "content" else Err (EText "not found").

Local Abbreviation TState := (CState (E := list string) (Hist := unit) (Rag := unit) (Other := unit) (Provider := unit) (Llm := unit)).
Local Abbreviation TOpt := (ClientOption (E := list string) (Hist := unit) (Rag := unit) (Other := unit) (Provider := unit) (Llm := unit)).

Definition final_log (r : res error TState) : option (list string) :=
  match r with Ok c => h ← cs_engine c; cs_engines c !! h | Err _ => None end.

Definition new_client (engines : gmap nat (list string)) (opts : list TOpt) : res error TState :=
  @NewClient _ logging _ _ _ _ _ tt tt files engines 10 opts.

Definition with_config (cfg : Config) : TOpt :=
  @WithConfig _ logging stored_order _ _ _ _ _ files ∅ (fun s => Ok ["search"; "fetch"]) (fun _ => Err (EText "token too long"))
    (fun _ => Ok []) ∅ (Some cfg).

Definition sample_config (policy knowledge : string) (servers : list MCPServerConfig) : Config :=
  {| cf_Policy := {| pc_Path := policy; pc_EvaluationTimeout := 0; pc_MaxSteps := 5; pc_SteeringEnabled := false; pc_ParadoxThreshold := f_zero |};
     cf_Observability := {| oc_Enabled := false; oc_ServiceName := ""; oc_LogLevel := ""; oc_OTLPEndpoint := "" |};
     cf_Actions := ∅; cf_MCP := servers; cf_Knowledge := {| kc_Path := knowledge |};
     cf_Memory := {| mc_Provider := ""; mc_Path := ""; mc_Options := ∅ |} |}.

Lemma new_client_governed_witness :
  exists c e0 e, new_client ∅ [WithPolicyPath "bad.dl"; WithPolicyPath "p.dl"; with_config (sample_config "p.dl" "" [])] = Ok c /\ engine_is c e /\
    @policy_in_force _ logging files "p.dl" e0 e /\ exists e2, @config_policy_loaded _ logging files (sample_config "p.dl" "" []) e2 e0.
Proof.
  destruct (new_client ∅ [WithPolicyPath "bad.dl"; WithPolicyPath "p.dl"; with_config (sample_config "p.dl" "" [])]) as [c|e] eqn:Hn;
    [|by vm_compute in Hn].
  destruct (@new_client_governed _ logging stored_order _ _ _ _ _ tt tt files ∅ 10 _ c Hn) as (e0 & e & He & Hp & Hcfg).
  assert (cs_blueprint c = "p.dl") as Hb.
  { assert ((fun r : res error TState => match r with Ok c => cs_blueprint c | Err _ => "" end)
      (new_client ∅ [WithPolicyPath "bad.dl"; WithPolicyPath "p.dl"; with_config (sample_config "p.dl" "" [])]) = "p.dl") as Hv by by_vm.
    by rewrite Hn in Hv. }
  rewrite Hb in Hp. exists c, e0, e. split_and!; [done|exact He|exact Hp|].
  destruct (Hcfg [WithPolicyPath "bad.dl"; WithPolicyPath "p.dl"] _ _ _ _ _ _ eq_refl eq_refl) as (e2 & e1 & H1 & H2). exists e2.
  unfold config_knowledge_loaded in H2. cbn in H2. by subst e1.
Defined.

Definition srv : MCPServerConfig :=
  {| ms_Name := "web"; ms_Transport := "stdio"; ms_Command := ""; ms_Args := []; ms_Env := []; ms_FailOnStartup := false; ms_Tools := [] |}.

Lemma config_tools_supervised_witness :
  exists c', with_config (sample_config "" "" [srv]) (blank_client tt tt ∅ 0) = (c', None) /\
    forall name a, cs_registry c' !! name = Some a -> exists h raw, a = Supervised h raw.
Proof.
  destruct (with_config (sample_config "" "" [srv]) (blank_client tt tt ∅ 0)) as [c' [e|]] eqn:Hc; [by vm_compute in Hc|].
  exists c'. split; [done|]. intros name a Ha.
  destruct (@config_tools_supervised _ logging stored_order _ _ _ _ _ files _ _ _ _ _ (sample_config "" "" [srv]) _ _ eq_refl Hc name a Ha) as [Hn|Hs];
    [|done]. cbn in Hn. cbn in Hn. by rewrite lookup_empty in Hn.
Defined.

Lemma optional_provider_never_fails_witness :
  snd (@WithProviderConfig (list string) unit unit unit unit unit ∅ "llm"
         {| acf_Type := "llm"; acf_Provider := "none"; acf_FailOnStartup := false; acf_Options := ∅ |} (blank_client tt tt ∅ 0)) = None.
Proof. apply optional_provider_never_fails. reflexivity. Defined.

Definition governed : TState := match new_client ∅ [WithPolicyPath "p.dl"] with Ok c => c | Err _ => blank_client tt tt ∅ 0 end.

Lemma reload_path_iff_witness :
  cs_blueprint (fst (@client_ReloadPolicy _ logging _ _ _ _ _ files "e" "bad.dl" governed)) <> "bad.dl".
Proof.
  intros H. apply (@reload_path_iff _ logging _ _ _ _ _ files "e" "bad.dl" governed) in H; [by vm_compute in H|by vm_compute].
Defined.

(** An engine option after a configuration drops the policy and the knowledge
    that the configuration loaded: the client starts without an error and
    without the policy. *)
Theorem engine_option_drops_config_policy :
  final_log (new_client {[3 := []]} [with_config (sample_config "p.dl" "" []); WithEngine (Some 3)])
  = Some ["extern within_time_window"; "extern rate_limit_exceeded"] /\
  final_log (new_client {[3 := []]} [WithEngine (Some 3); with_config (sample_config "p.dl" "" [])])
  = Some ["policy halt(x)."; "extern within_time_window"; "extern rate_limit_exceeded"].
Proof. split; by_vm. Qed.

(** The policy of a configuration is loaded before the reference predicates
    exist, that of [WithPolicyPath] after. *)
Theorem config_policy_before_predicates :
  final_log (new_client ∅ [with_config (sample_config "p.dl" "" [])])
  = Some ["policy halt(x)."; "extern within_time_window"; "extern rate_limit_exceeded"] /\
  final_log (new_client ∅ [WithPolicyPath "p.dl"])
  = Some ["extern within_time_window"; "extern rate_limit_exceeded"; "policy halt(x)."].
Proof. split; by_vm. Qed.

(** A knowledge file that the N-Triples reader rejects is loaded as an empty
    one. *)
Theorem ntriples_error_ignored :
  final_log (new_client ∅ [with_config (sample_config "" "facts.nt" [])]) = Some ["extern within_time_window"; "extern rate_limit_exceeded"].
Proof. by_vm. Qed.

(** A configuration turns steering off unless it asks for it. *)
Theorem config_resets_steering (c : TState) :
  cs_steering (fst (followed_by WithSteeringEnabled (config_loop (sample_config "" "" [])) c)) = false.
Proof. reflexivity. Qed.
