(* ===== verification/Generators.v ===== *)
(** * Text generation

    [adapters/ai/{adapter,genkit,middleware,options,errors,utils}.go] and
    [providers/openai/llm.go]: the generation options and the middleware they
    carry, the adapter over a Genkit model, the OpenAI adapter, the LLM
    action, and structured generation.

    The models themselves ([genkit.Generate], the OpenAI client), the errors'
    classification by Genkit and [encoding/json] are parameters over a world
    [W].  A [map[string]any] that two configurations share is an address in a
    heap of metadata maps, since [WithMiddleware] writes into it. *)
From S2P Require Import Prelude GoStrings CoreErrors CoreTypes Reflect Float64 Memory CircuitBreaker.
From Stdlib Require Import Ascii String.
Open Scope string_scope.

(** ** Middleware settings *)

Record Retry := { rt_MaxRetries : Z; rt_InitialDelayMs : Z; rt_MaxDelayMs : Z }.
Record Fallback := { fb_Models : list string }.
Record ToolApproval := { ta_AllowedTools : list string }.
Record Filesystem := { fs_RootDir : string; fs_AllowWriteAccess : bool }.

(** The [ai.Middleware] values of the package and those of a caller. *)
Inductive CustomMiddleware :=
| CDatalogValidator (id : nat)
| CTelemetry (id : nat)
| CLogging (id : nat)
| CForeign (id : nat).

Record MiddlewareConfig := {
  mw_Retry : option Retry;
  mw_Fallback : option Fallback;
  mw_ToolApproval : option ToolApproval;
  mw_Filesystem : option Filesystem;
  mw_Custom : list CustomMiddleware
}.

Definition no_middleware : MiddlewareConfig :=
  {| mw_Retry := None; mw_Fallback := None; mw_ToolApproval := None; mw_Filesystem := None; mw_Custom := [] |}.

#[global] Instance retry_eq_dec : EqDecision Retry.
Proof. solve_decision. Defined.
#[global] Instance fallback_eq_dec : EqDecision Fallback.
Proof. solve_decision. Defined.
#[global] Instance tool_approval_eq_dec : EqDecision ToolApproval.
Proof. solve_decision. Defined.
#[global] Instance filesystem_eq_dec : EqDecision Filesystem.
Proof. solve_decision. Defined.
#[global] Instance custom_middleware_eq_dec : EqDecision CustomMiddleware.
Proof. solve_decision. Defined.
#[global] Instance middleware_config_eq_dec : EqDecision MiddlewareConfig.
Proof. solve_decision. Defined.

(** What a metadata map of a generation holds: a middleware pointer (nil is
    [None]) or some other value. *)
Inductive MetaVal := MMiddleware (m : option MiddlewareConfig) | MValue (v : GoVal).

(** [core.GenerationConfig]; [gc_Metadata] is nil or the address of a map. *)
Record GenerationConfig := {
  gc_Temperature : float64;
  gc_MaxTokens : Z;
  gc_TopP : float64;
  gc_StopSequences : list string;
  gc_Model : string;
  gc_JSONMode : bool;
  gc_OutputType : option string;
  gc_Metadata : option nat
}.

Definition zero_config : GenerationConfig :=
  {| gc_Temperature := f_zero; gc_MaxTokens := 0; gc_TopP := f_zero; gc_StopSequences := []; gc_Model := "";
     gc_JSONMode := false; gc_OutputType := None; gc_Metadata := None |}.

Definition with_Temperature (t : float64) (c : GenerationConfig) : GenerationConfig :=
  {| gc_Temperature := t; gc_MaxTokens := gc_MaxTokens c; gc_TopP := gc_TopP c;
     gc_StopSequences := gc_StopSequences c; gc_Model := gc_Model c; gc_JSONMode := gc_JSONMode c;
     gc_OutputType := gc_OutputType c; gc_Metadata := gc_Metadata c |}.

Definition with_Metadata (m : option nat) (c : GenerationConfig) : GenerationConfig :=
  {| gc_Temperature := gc_Temperature c; gc_MaxTokens := gc_MaxTokens c; gc_TopP := gc_TopP c;
     gc_StopSequences := gc_StopSequences c; gc_Model := gc_Model c; gc_JSONMode := gc_JSONMode c;
     gc_OutputType := gc_OutputType c; gc_Metadata := m |}.

Abbreviation MetaHeap := (gmap nat (gmap string MetaVal)).

(** [core.GenerateOption]: it changes the configuration, and the maps it
    points to. *)
Definition GenerateOption : Type := GenerationConfig * MetaHeap -> GenerationConfig * MetaHeap.

Definition apply_options (opts : list GenerateOption) (s : GenerationConfig * MetaHeap) : GenerationConfig * MetaHeap :=
  foldl (fun s opt => opt s) s opts.

Definition middleware_key : string := "_genkit_middleware".

Definition WithMiddleware (m : option MiddlewareConfig) : GenerateOption := fun '(o, h) =>
  let '(l, h1) := match gc_Metadata o with
                  | Some l => (l, h)
                  | None => let l := fresh (dom h) in (l, <[l := ∅]> h)
                  end in
  (with_Metadata (Some l) o, <[l := <[middleware_key := MMiddleware m]> (default ∅ (h1 !! l))]> h1).

Definition retry_default (n : Z) : Retry := {| rt_MaxRetries := n; rt_InitialDelayMs := 1000; rt_MaxDelayMs := 60000 |}.

Definition with_Retry (r : Retry) (m : MiddlewareConfig) : MiddlewareConfig :=
  {| mw_Retry := Some r; mw_Fallback := mw_Fallback m; mw_ToolApproval := mw_ToolApproval m;
     mw_Filesystem := mw_Filesystem m; mw_Custom := mw_Custom m |}.
Definition with_Fallback (f : Fallback) (m : MiddlewareConfig) : MiddlewareConfig :=
  {| mw_Retry := mw_Retry m; mw_Fallback := Some f; mw_ToolApproval := mw_ToolApproval m;
     mw_Filesystem := mw_Filesystem m; mw_Custom := mw_Custom m |}.
Definition with_ToolApproval (t : ToolApproval) (m : MiddlewareConfig) : MiddlewareConfig :=
  {| mw_Retry := mw_Retry m; mw_Fallback := mw_Fallback m; mw_ToolApproval := Some t;
     mw_Filesystem := mw_Filesystem m; mw_Custom := mw_Custom m |}.
Definition with_Filesystem (f : Filesystem) (m : MiddlewareConfig) : MiddlewareConfig :=
  {| mw_Retry := mw_Retry m; mw_Fallback := mw_Fallback m; mw_ToolApproval := mw_ToolApproval m;
     mw_Filesystem := Some f; mw_Custom := mw_Custom m |}.
Definition with_Custom (c : list CustomMiddleware) (m : MiddlewareConfig) : MiddlewareConfig :=
  {| mw_Retry := mw_Retry m; mw_Fallback := mw_Fallback m; mw_ToolApproval := mw_ToolApproval m;
     mw_Filesystem := mw_Filesystem m; mw_Custom := c |}.

Definition WithRetry (n : Z) : GenerateOption := WithMiddleware (Some (with_Retry (retry_default n) no_middleware)).
Definition WithRetryAndBackoff (n d mx : Z) : GenerateOption :=
  WithMiddleware (Some (with_Retry {| rt_MaxRetries := n; rt_InitialDelayMs := d; rt_MaxDelayMs := mx |} no_middleware)).
Definition WithFallback (models : list string) : GenerateOption :=
  WithMiddleware (Some (with_Fallback {| fb_Models := models |} no_middleware)).
Definition WithToolApproval (tools : list string) : GenerateOption :=
  WithMiddleware (Some (with_ToolApproval {| ta_AllowedTools := tools |} no_middleware)).
Definition WithFilesystem (root : string) (allowWrite : bool) : GenerateOption :=
  WithMiddleware (Some (with_Filesystem {| fs_RootDir := root; fs_AllowWriteAccess := allowWrite |} no_middleware)).
Definition WithCustomMiddleware (mw : list CustomMiddleware) : GenerateOption :=
  WithMiddleware (Some (with_Custom mw no_middleware)).

(** What is handed to [ai.WithUse], in order. *)
Inductive Use :=
| URetry (r : Retry)
| UFallback (f : Fallback)
| UToolApproval (t : ToolApproval)
| UFilesystem (f : Filesystem)
| UCustom (c : CustomMiddleware).

Definition buildMiddlewareOptions (cfg : option MiddlewareConfig) : list Use :=
  match cfg with
  | None => []
  | Some m =>
      (option_list (URetry <$> mw_Retry m) ++ option_list (UFallback <$> mw_Fallback m)
       ++ option_list (UToolApproval <$> mw_ToolApproval m) ++ option_list (UFilesystem <$> mw_Filesystem m)
       ++ map UCustom (mw_Custom m))%list
  end.

Definition extractMiddlewareConfig (c : GenerationConfig) (h : MetaHeap) : option MiddlewareConfig :=
  match gc_Metadata c with
  | None => None
  | Some l => match default ∅ (h !! l) !! middleware_key with Some (MMiddleware m) => m | _ => None end
  end.

(** ** The incremental settings of [options.go] *)

Record GenerationSettings := { gs_Config : option GenerationConfig; gs_Middleware : option MiddlewareConfig }.
Definition GenerationOption : Type := GenerationSettings -> GenerationSettings.

Definition WithGenerationConfig (c : option GenerationConfig) : GenerationOption := fun s =>
  {| gs_Config := c; gs_Middleware := gs_Middleware s |}.
Definition on_middleware (f : MiddlewareConfig -> MiddlewareConfig) : GenerationOption := fun s =>
  {| gs_Config := gs_Config s; gs_Middleware := Some (f (default no_middleware (gs_Middleware s))) |}.

Definition WithRetryMiddleware (n : Z) : GenerationOption := on_middleware (with_Retry (retry_default n)).
Definition WithFallbackMiddleware (models : list string) : GenerationOption :=
  on_middleware (with_Fallback {| fb_Models := models |}).
Definition WithToolApprovalMiddleware (tools : list string) : GenerationOption :=
  on_middleware (with_ToolApproval {| ta_AllowedTools := tools |}).
Definition WithFilesystemMiddleware (root : string) (allowWrite : bool) : GenerationOption :=
  on_middleware (with_Filesystem {| fs_RootDir := root; fs_AllowWriteAccess := allowWrite |}).
Definition add_custom (c : CustomMiddleware) : GenerationOption :=
  on_middleware (fun m => with_Custom (mw_Custom m ++ [c])%list m).
Definition WithDatalogValidator (id : nat) : GenerationOption := add_custom (CDatalogValidator id).
Definition WithTelemetry (id : nat) : GenerationOption := add_custom (CTelemetry id).
Definition WithLogging (id : nat) : GenerationOption := add_custom (CLogging id).

Definition settings_of (opts : list GenerationOption) : GenerationSettings :=
  foldl (fun s opt => opt s) {| gs_Config := None; gs_Middleware := None |} opts.

(** [BuildGenerateOptions]: the configuration is copied over the one built so
    far, its metadata map shared. *)
Definition BuildGenerateOptions (opts : list GenerationOption) : list GenerateOption :=
  let s := settings_of opts in
  (match gs_Config s with Some c => [fun '(_, h) => (c, h)] | None => [] end
   ++ match gs_Middleware s with Some m => [WithMiddleware (Some m)] | None => [] end)%list.

Definition ComposeMiddleware (opts : list GenerationOption) : res error MiddlewareConfig :=
  match gs_Middleware (settings_of opts) with
  | Some m => Ok m
  | None => Err (EText "no middleware configured")
  end.

(** ** Requests *)

Inductive Role := RSystem | RUser.
Record ModelMessage := { mm_Role : Role; mm_Text : string }.

(** [ai.GenerationCommonConfig]. *)
Record CommonConfig := {
  cc_Temperature : float64;
  cc_MaxOutputTokens : Z;
  cc_TopP : float64;
  cc_StopSequences : list string
}.

(** The [ai.GenerateOption]s of a request. *)
Inductive RequestOption :=
| ReqMessages (l : list ModelMessage)
| ReqConfig (c : CommonConfig)
| ReqOutputFormat (f : string)
| ReqOutputType (t : string)
| ReqUse (u : Use).

Definition PrefixPromptConfig : string := "prompt.".

(** The system prompt from the facts of the context. *)
Definition system_prompt (facts : gmap string string) : string :=
  (match facts !! (PrefixPromptConfig +:+ "tone") with
   | Some v => nl +:+ "[INSTRUCTION]: Maintain a " +:+ v +:+ " tone."
   | None => ""
   end)
  +:+ (match facts !! (PrefixPromptConfig +:+ "strategy") with
       | Some v => if String.eqb v "cot" then nl +:+ "[STRATEGY]: Think step-by-step." else ""
       | None => ""
       end).

Definition common_config (c : GenerationConfig) : CommonConfig :=
  {| cc_Temperature := if f_eq (gc_Temperature c) f_zero then f_zero else gc_Temperature c;
     cc_MaxOutputTokens := gc_MaxTokens c;
     cc_TopP := if f_eq (gc_TopP c) f_zero then f_zero else gc_TopP c;
     cc_StopSequences := gc_StopSequences c |}.

(** [hasConfig]. *)
Definition has_config (c : GenerationConfig) : bool :=
  negb (f_eq (gc_Temperature c) f_zero) || negb (gc_MaxTokens c =? 0)%Z || negb (f_eq (gc_TopP c) f_zero)
  || match gc_StopSequences c with [] => false | _ => true end.

(** The options of the request that [genkitAdapter.Generate] makes. *)
Definition request_options (facts : gmap string string) (prompt : string) (c : GenerationConfig) (h : MetaHeap)
  : list RequestOption :=
  (let sys := system_prompt facts in
   [ReqMessages ((if String.eqb sys "" then [] else [{| mm_Role := RSystem; mm_Text := sys |}])
                 ++ [{| mm_Role := RUser; mm_Text := prompt |}])]
   ++ (if has_config c then [ReqConfig (common_config c)] else [])
   ++ (match gc_OutputType c with
       | Some _ => [ReqOutputFormat "json"]
       | None => if gc_JSONMode c then [ReqOutputFormat "json"] else []
       end)
   ++ map ReqUse (buildMiddlewareOptions (extractMiddlewareConfig c h)))%list.

Record Usage := { us_Input : Z; us_Output : Z; us_Total : Z }.
Record ModelResponse := { mr_Text : string; mr_Usage : option Usage }.
Record LLMResponse := { lr_Text : string; lr_Usage : gmap string Z }.

Definition response_usage (u : option Usage) : gmap string Z :=
  match u with
  | None => ∅
  | Some u => <["total" := us_Total u]> (<["completion" := us_Output u]> {["prompt" := us_Input u]})
  end.

(** [injectTelemetryLabels] on the labels already in the context. *)
Definition KeyTraceID : string := "manglekit.trace_id".
Definition inject_label (facts : gmap string string) (key label : string) (labels : gmap string string)
  : gmap string string :=
  match facts !! key with
  | Some v => if String.eqb v "" then labels else <[label := v]> labels
  | None => labels
  end.
Definition injectTelemetryLabels (facts labels : gmap string string) : gmap string string :=
  inject_label facts "parent_id" "manglekit.parent_id"
    (inject_label facts "session_id" "manglekit.session_id"
      (inject_label facts KeyTraceID "manglekit.trace_id" labels)).

(** ** Failures *)

(** The [status.Name]s of Genkit that the package names. *)
Inductive StatusName :=
| InvalidArgument | NotFound | PermissionDenied | Unauthenticated | AlreadyExists | FailedPrecondition
| OutOfRange | Unimplemented | OtherStatus (name : string).

Definition callerStatuses (s : StatusName) : bool :=
  match s with OtherStatus _ => false | _ => true end.

Section Failures.
(** [errors.Is(err, ErrModelBlocked)] and [status.Classified]. *)
Context (model_blocked : error -> bool) (Classified : error -> option StatusName).

Definition IsCallerFailure (err : option error) : bool :=
  match err with
  | None => false
  | Some e => if model_blocked e then true
              else match Classified e with Some name => callerStatuses name | None => false end
  end.

Definition IsInfraFailure (err : option error) : bool :=
  match err with None => false | Some _ => negb (IsCallerFailure err) end.

(** The breaker configuration the package documents. *)
Definition honest_breaker (threshold reset : Z) : CircuitBreakerConfig :=
  {| FailureThreshold := threshold; ResetTimeout := reset; FailureWhen := Some (fun e => IsInfraFailure (Some e)) |}.
End Failures.

(** ** The adapters *)

Section Adapters.
Context {W : Type}.

(** [core.TextGenerator] as the code uses it: the facts are those of the
    context, a stream is the chunks its channel delivers before it closes. *)
Record StreamChunk := { ck_Text : string; ck_Err : option error }.
Record TextGenerator := {
  tg_Complete : gmap string string -> string -> W -> W * res error string;
  tg_Stream : gmap string string -> string -> W -> W * res error (list StreamChunk)
}.

(** [genkit.Generate] on the adapter's model, with the telemetry labels of
    the context it is given. *)
Context (genkit_generate : gmap string string -> list RequestOption -> W -> W * res error ModelResponse).

(** [genkitAdapter.Generate]; [labels] are the telemetry labels of [ctx]. *)
Definition genkit_Generate (labels facts : gmap string string) (prompt : string) (opts : list GenerateOption)
    (h : MetaHeap) (w : W) : W * MetaHeap * res error LLMResponse :=
  let '(c, h1) := apply_options opts (with_Temperature f_0_7 zero_config, h) in
  let '(w1, r) := genkit_generate (injectTelemetryLabels facts labels) (request_options facts prompt c h1) w in
  (w1, h1, match r with
           | Err e => Err e
           | Ok m => Ok {| lr_Text := mr_Text m; lr_Usage := response_usage (mr_Usage m) |}
           end).

(** [genkitAdapter.Complete]: no options. *)
Definition genkit_Complete (labels facts : gmap string string) (prompt : string) (h : MetaHeap) (w : W)
  : W * MetaHeap * res error string :=
  let '(w1, h1, r) := genkit_Generate labels facts prompt [] h w in
  (w1, h1, match r with Err e => Err e | Ok m => Ok (lr_Text m) end).

(** ** [LLMAction] *)

(** fmt's [%s] of a value that is no string, and its [%T]. *)
Context (render : GoVal -> string) (fmt_other : GoVal -> string) (type_name : GoVal -> string).

Definition fmt_s (v : GoVal) : string := match v with GStr s => s | _ => fmt_other v end.

Definition feedback_note (v : GoVal) : string :=
  nl +:+ nl +:+ "[SYSTEM WARNING]: Your previous attempt failed. Reason: '" +:+ fmt_s v
  +:+ "'. Please correct your output to satisfy this rule.".

(** The prompt both actions build from an envelope ([promptFrom]). *)
Definition promptFrom (input : Envelope) : res error string :=
  match env_Payload input with
  | GStr prompt =>
      Ok (match env_Metadata input !! KeyFeedback with
          | None | Some (GStr "") => prompt
          | Some v => prompt +:+ feedback_note v
          end)
  | v => Err (ENote (ESentinel ErrSystemError) (": invalid input type, expected string but got " +:+ type_name v))
  end.

(** The loop that puts the dynamic configuration into the context's facts. *)
Definition inject_config `{GoRange} (meta : gmap string GoVal) (facts : gmap string string) : gmap string string :=
  foldl (fun facts '(k, v) => if has_prefix k PrefixPromptConfig then <[k := fmt_v render v]> facts else facts)
    facts (range meta).

Definition llm_output (name : string) (id : Z) (text : string) : Envelope :=
  SetMeta (SetMeta (NewEnvelope id (GStr text)) "model_type" (GStr "llm")) "action_name" (GStr name).

Record LLMAction := { la_name : string; la_generator : TextGenerator }.

(** [NewLLMAction]; the generator may be nil. *)
Definition NewLLMAction (name : string) (g : option TextGenerator) : res error LLMAction :=
  match g with
  | None => Err (EText ("NewLLMAction(" +:+ name +:+ "): generator cannot be nil"))
  | Some g => Ok {| la_name := name; la_generator := g |}
  end.

(** [LLMAction.Execute]; [id] is the fresh UUID of the output. *)
Definition LLMAction_Execute `{GoRange} (a : LLMAction) (facts : gmap string string) (id : Z) (input : Envelope) (w : W)
  : W * res error Envelope :=
  match promptFrom input with
  | Err e => (w, Err e)
  | Ok prompt =>
      let '(w1, r) := tg_Complete (la_generator a) (inject_config (env_Metadata input) facts) prompt w in
      (w1, match r with
           | Err e => Err (EWrap "llm generation failed: " e)
           | Ok text => Ok (llm_output (la_name a) id text)
           end)
  end.

(** ** [GenerateStruct] *)

Definition fence : string := "```".

Definition trim_prefix (s p : string) : string :=
  if has_prefix s p then str_drop (String.length p) s else s.

Definition strip_fences (raw : string) : string :=
  trim_space (trim_suffix (trim_prefix (trim_prefix (trim_space raw) (fence +:+ "json")) fence) fence).

Definition intervention (feedback : string) : string :=
  nl +:+ nl +:+ "[INTERVENTION]: Your previous answer failed blueprint alignment check. Reason: '" +:+ feedback
  +:+ "'. Fix it immediately.".

Definition effective_prompt (facts : gmap string string) (userReq : string) : string :=
  userReq +:+ match facts !! "mangle_feedback" with
              | Some f => if String.eqb f "" then "" else intervention f
              | None => ""
              end.

Context (model_blocked invalid_output : error -> bool).

(** The native path; [Output] is [resp.Output] at the type [T]. *)
Definition native_struct {T : Type} (type : string) (Output : ModelResponse -> res error T)
    (labels facts : gmap string string) (sys user : string) (w : W) : W * res error T :=
  let '(w1, r) := genkit_generate (injectTelemetryLabels facts labels)
                    [ReqMessages [{| mm_Role := RSystem; mm_Text := sys |};
                                  {| mm_Role := RUser; mm_Text := effective_prompt facts user |}];
                     ReqOutputType type] w in
  (w1, match r with
       | Err e =>
           if model_blocked e then Err (EWrap "model refused the request: " e)
           else if invalid_output e then Err (EWrap "structured output validation failed: " e)
           else Err (EWrap "genkit native generation failed: " e)
       | Ok m => match Output m with
                 | Ok v => Ok v
                 | Err e => Err (EWrap "genkit output parsing failed: " e)
                 end
       end).

(** The fallback for every other generator; [unmarshal] is [json.Unmarshal]
    at the type [T]. *)
Definition fallback_struct {T : Type} (unmarshal : string -> res error T) (g : TextGenerator)
    (facts : gmap string string) (sys user : string) (w : W) : W * res error T :=
  let '(w1, r) := tg_Complete g facts (sys +:+ nl +:+ nl +:+ "User Request: " +:+ effective_prompt facts user) w in
  (w1, match r with
       | Err e => Err e
       | Ok raw => match unmarshal (strip_fences raw) with
                   | Ok v => Ok v
                   | Err e => Err (EWrap "manual json unmarshal failed: " (ENote e (". Raw: " +:+ raw)))
                   end
       end).
End Adapters.
Arguments TextGenerator W : clear implicits.
Arguments LLMAction W : clear implicits.

(** ** The package's middleware *)

Section Hooks.
Context {W : Type}.

(** [ai.GenerateParams.Request] may be nil; a request is its messages' texts. *)
Record ModelRequest := { rq_Messages : list string }.

(** [next], the rest of the chain: a response pointer and an error. *)
Definition GenerateNext : Type := W -> W * (option ModelResponse * option error).

(** [DatalogValidator.wrapGenerate]; the validator may be nil. *)
Definition wrapGenerate
    (validator : option (string -> ModelRequest -> option ModelResponse -> option error))
    (req : option ModelRequest) (next : GenerateNext) (w : W) : W * (option ModelResponse * option error) :=
  let check phase resp := match validator, req with
                          | Some v, Some q => v phase q resp
                          | _, _ => None
                          end in
  match check "pre" None with
  | Some e => (w, (None, Some (EWrap "datalog pre-validation failed: " e)))
  | None =>
      let '(w1, (resp, err)) := next w in
      match err with
      | Some e => (w1, (None, Some e))
      | None =>
          match check "post" resp with
          | Some e => (w1, (None, Some (EWrap "datalog post-validation failed: " e)))
          | None => (w1, (resp, None))
          end
      end
  end.

(** What [OnGenerate] is called with, but for the duration. *)
Record GenerationMetrics := { gm_model : string; gm_inputTokens : Z; gm_outputTokens : Z }.

(** The [WrapModel] hook of [TelemetryMiddleware]; [record] is [OnGenerate]. *)
Definition telemetry_WrapModel (record : option (GenerationMetrics -> W -> W)) (req : option ModelRequest)
    (next : GenerateNext) (w : W) : W * (option ModelResponse * option error) :=
  let '(w1, (resp, err)) := next w in
  match record with
  | None => (w1, (resp, err))
  | Some f =>
      let usage := resp ≫= mr_Usage in
      let model := match req with Some q => match rq_Messages q with m :: _ => m | [] => "" end | None => "" end in
      (f {| gm_model := model;
            gm_inputTokens := match usage with Some u => us_Input u | None => 0 end;
            gm_outputTokens := match usage with Some u => us_Output u | None => 0 end |} w1, (resp, err))
  end.

(** The [WrapGenerate] hook of [LoggingMiddleware]; [log] is the logger's
    effect.  [None] is the nil dereference of [resp.FinishReason]. *)
Definition logging_WrapGenerate (log : option (string -> W -> W)) (next : GenerateNext) (w : W)
  : option (W * (option ModelResponse * option error)) :=
  match log with
  | None => Some (next w)
  | Some l =>
      let '(w1, (resp, err)) := next (l "Starting generation" w) in
      match err, resp with
      | Some _, _ => Some (l "Generation failed" w1, (resp, err))
      | None, Some _ => Some (l "Generation completed" w1, (resp, err))
      | None, None => None
      end
  end.

(** ** The OpenAI adapter *)

(** [openai.ChatCompletionRequest], as far as the adapter sets it. *)
Record ChatRequest := {
  cr_Model : string;
  cr_Prompt : string;
  cr_Temperature : float32;
  cr_MaxTokens : Z;
  cr_TopP : float32;
  cr_Stop : list string;
  cr_JSON : bool
}.

Record ChatResponse := { ch_Choices : list string; ch_Prompt : Z; ch_Completion : Z; ch_Total : Z }.

Definition model_or_default (model : string) : string := if String.eqb model "" then "gpt-3.5-turbo" else model.

Definition openai_plain (model prompt : string) : ChatRequest :=
  {| cr_Model := model; cr_Prompt := prompt; cr_Temperature := f_zero; cr_MaxTokens := 0; cr_TopP := f_zero;
     cr_Stop := []; cr_JSON := false |}.

Definition openai_request (model prompt : string) (c : GenerationConfig) : ChatRequest :=
  {| cr_Model := model; cr_Prompt := prompt;
     cr_Temperature := if f_lt f_zero (gc_Temperature c) then to_f32 (gc_Temperature c) else f_zero;
     cr_MaxTokens := if (0 <? gc_MaxTokens c)%Z then gc_MaxTokens c else 0;
     cr_TopP := if f_lt f_zero (gc_TopP c) then to_f32 (gc_TopP c) else f_zero;
     cr_Stop := gc_StopSequences c;
     cr_JSON := gc_JSONMode c |}.

Definition first_choice (r : ChatResponse) : string := match ch_Choices r with c :: _ => c | [] => "" end.

Definition positive_usage (key : string) (n : Z) (m : gmap string Z) : gmap string Z :=
  if (0 <? n)%Z then <[key := n]> m else m.

Definition openai_usage (r : ChatResponse) : gmap string Z :=
  positive_usage "total" (ch_Total r) (positive_usage "completion" (ch_Completion r)
    (positive_usage "prompt" (ch_Prompt r) ∅)).

(** [client.CreateChatCompletion]. *)
Context (CreateChatCompletion : ChatRequest -> W -> W * res error ChatResponse).

Definition openai_Complete (model prompt : string) (w : W) : W * res error string :=
  let '(w1, r) := CreateChatCompletion (openai_plain model prompt) w in
  (w1, match r with Err e => Err e | Ok m => Ok (first_choice m) end).

Definition openai_Generate (model prompt : string) (opts : list GenerateOption) (h : MetaHeap) (w : W)
  : W * MetaHeap * res error LLMResponse :=
  let '(c, h1) := apply_options opts (zero_config, h) in
  let '(w1, r) := CreateChatCompletion (openai_request model prompt c) w in
  (w1, h1, match r with
           | Err e => Err e
           | Ok m => Ok {| lr_Text := first_choice m; lr_Usage := openai_usage m |}
           end).

(** What [stream.Recv] returns: a response's deltas, an error, [io.EOF]. *)
Inductive Received := RcvDelta (choices : list string) | RcvErr (e : error) | RcvEOF.

(** The chunks the goroutine of [Stream] sends before it closes the channel,
    to a consumer that takes them all. *)
Fixpoint openai_chunks (l : list Received) : list StreamChunk :=
  match l with
  | [] | RcvEOF :: _ => []
  | RcvErr e :: _ => [{| ck_Text := ""; ck_Err := Some e |}]
  | RcvDelta (c :: _) :: rest => {| ck_Text := c; ck_Err := None |} :: openai_chunks rest
  | RcvDelta [] :: rest => openai_chunks rest
  end.
End Hooks.
