(* ===== verification/GeneratorsProps.v ===== *)
(** * Properties of text generation

    Generation options do not compose, the settings do; middleware written
    through a shared metadata map; the Datalog middleware; caller failures
    and the circuit breaker; prompts, configuration facts and code fences. *)
From S2P Require Import Prelude GoStrings CoreErrors CoreTypes Reflect Reconstruct ReconstructProps Float64 Memory CircuitBreaker Generators.
From Stdlib Require Import Ascii String.
Open Scope string_scope.

(** ** Options and middleware *)

Lemma apply_options_app a b s : apply_options (a ++ b)%list s = apply_options b (apply_options a s).
Proof. apply foldl_app. Qed.

Lemma WithMiddleware_extracts m s : let '(c, h) := WithMiddleware m s in extractMiddlewareConfig c h = m.
Proof.
  destruct s as [o h]. unfold WithMiddleware, extractMiddlewareConfig.
  destruct (gc_Metadata o) as [l|]; cbn [with_Metadata gc_Metadata]; rewrite lookup_insert_eq; cbn [from_option id];
    by rewrite lookup_insert_eq.
Qed.

Lemma elem_of_request_uses u facts prompt c h :
  ReqUse u ∈ request_options facts prompt c h <-> u ∈ buildMiddlewareOptions (extractMiddlewareConfig c h).
Proof.
  unfold request_options. rewrite !elem_of_app, list_elem_of_singleton.
  split; [|by right; right; right; apply list_elem_of_fmap; eauto].
  intros [H|[H|[H|H]]]; [done| | |].
  - destruct (has_config c); set_solver.
  - destruct (gc_OutputType c), (gc_JSONMode c); set_solver.
  - apply list_elem_of_fmap in H as (u' & [= <-] & Hu). done.
Qed.

(** Generation options do not compose.  Whatever options come before
    them, a request made with [WithToolApproval tools] followed by
    [WithFilesystem root allowWrite] (the order of the package's own example)
    uses the file-system middleware alone: no tool approval, no retry and no
    fallback reach the model call. *)
Theorem options_lose_tool_approval opts tools root allowWrite facts prompt s :
  let '(c, h) := apply_options (opts ++ [WithToolApproval tools; WithFilesystem root allowWrite])%list s in
  forall u, ReqUse u ∈ request_options facts prompt c h <->
            u = UFilesystem {| fs_RootDir := root; fs_AllowWriteAccess := allowWrite |}.
Proof.
  rewrite apply_options_app. cbn [apply_options foldl].
  match goal with |- context [WithFilesystem root allowWrite ?s] => pose proof (WithMiddleware_extracts
    (Some (with_Filesystem {| fs_RootDir := root; fs_AllowWriteAccess := allowWrite |} no_middleware)) s) as Hx;
    unfold WithFilesystem at 1; destruct (WithMiddleware _ s) as [c h] end.
  intros u. rewrite elem_of_request_uses, Hx. cbn. set_solver.
Qed.

(** Commuting updates may be applied in any order. *)
Lemma foldl_commuting {S : Type} (l1 l2 : list (S -> S)) (s : S) :
  l1 ≡ₚ l2 -> (forall f g, f ∈ l1 -> g ∈ l1 -> forall s, f (g s) = g (f s)) ->
  foldl (fun s f => f s) s l1 = foldl (fun s f => f s) s l2.
Proof.
  intros Hp. revert s. induction Hp as [|f a b Hp IH|f g a|a b c Hab IHab Hbc IHbc]; intros s Hc; cbn.
  - done.
  - apply IH. intros f' g' Hf Hg. apply Hc; by right.
  - f_equal. apply Hc; set_solver.
  - rewrite IHab by done. apply IHbc. intros f g Hf Hg. rewrite <- Hab in Hf, Hg. by apply Hc.
Qed.

(** The incremental settings do compose: in whatever order retry,
    fallback, tool approval and file-system access are set, the request built
    by [BuildGenerateOptions] uses all four, in the one fixed order. *)
Theorem settings_compose n models tools root allowWrite opts facts prompt s :
  opts ≡ₚ [WithRetryMiddleware n; WithFallbackMiddleware models; WithToolApprovalMiddleware tools;
           WithFilesystemMiddleware root allowWrite] ->
  let '(c, h) := apply_options (BuildGenerateOptions opts) s in
  buildMiddlewareOptions (extractMiddlewareConfig c h)
    = [URetry (retry_default n); UFallback {| fb_Models := models |};
       UToolApproval {| ta_AllowedTools := tools |};
       UFilesystem {| fs_RootDir := root; fs_AllowWriteAccess := allowWrite |}] /\
  forall u, u ∈ buildMiddlewareOptions (extractMiddlewareConfig c h) -> ReqUse u ∈ request_options facts prompt c h.
Proof.
  intros Hp. unfold BuildGenerateOptions.
  assert (settings_of opts = settings_of [WithRetryMiddleware n; WithFallbackMiddleware models;
            WithToolApprovalMiddleware tools; WithFilesystemMiddleware root allowWrite]) as ->.
  { unfold settings_of. apply foldl_commuting; [done|]. intros f g Hf Hg s'. rewrite Hp in Hf, Hg.
    repeat (apply elem_of_cons in Hf as [->|Hf]); try (by apply elem_of_nil in Hf);
      repeat (apply elem_of_cons in Hg as [->|Hg]); try (by apply elem_of_nil in Hg); done. }
  cbn [settings_of foldl gs_Config gs_Middleware app apply_options WithRetryMiddleware WithFallbackMiddleware
       WithToolApprovalMiddleware WithFilesystemMiddleware on_middleware].
  match goal with |- context [WithMiddleware ?m s] => pose proof (WithMiddleware_extracts m s) as Hx;
    destruct (WithMiddleware m s) as [c h] end.
  split; [by rewrite Hx|]. intros u Hu. by apply elem_of_request_uses.
Qed.

(** Middleware leaks through a shared metadata map.  Using a
    configuration whose [Metadata] is allocated, with middleware, writes the
    middleware into that map: a later generation with the same configuration
    and no middleware of its own runs with the earlier one's. *)
Theorem middleware_leaks m c l h s :
  gc_Metadata c = Some l ->
  let build := BuildGenerateOptions in
  let plain := [WithGenerationConfig (Some c)] in
  let '(_, h1) := apply_options (build (plain ++ [fun g => {| gs_Config := gs_Config g; gs_Middleware := Some m |}])%list)
                    (s, h) in
  let '(c2, h2) := apply_options (build plain) (zero_config, h1) in
  c2 = c /\ h2 = h1 /\ extractMiddlewareConfig c2 h2 = Some m.
Proof.
  intros Hl. cbn [BuildGenerateOptions settings_of app foldl WithGenerationConfig gs_Config gs_Middleware apply_options].
  unfold BuildGenerateOptions.
  cbn [settings_of app foldl WithGenerationConfig gs_Config gs_Middleware apply_options].
  pose proof (WithMiddleware_extracts (Some m) (c, h)) as Hx. unfold WithMiddleware in *. rewrite Hl in *. cbn in *.
  split_and!; [done..|]. unfold extractMiddlewareConfig in *. cbn [gc_Metadata with_Metadata] in Hx. by rewrite Hl.
Qed.

(** ** Temperature *)

(** Temperature zero cannot be requested: with every other parameter
    unset the request carries no configuration at all, exactly as if the
    provider's default had been asked for, and otherwise the temperature it
    carries is the zero value. *)
Theorem zero_temperature_unset facts prompt c h :
  f_eq (gc_Temperature c) f_zero = true ->
  (gc_MaxTokens c = 0%Z -> f_eq (gc_TopP c) f_zero = true -> gc_StopSequences c = [] ->
   forall x, ReqConfig x ∉ request_options facts prompt c h) /\
  cc_Temperature (common_config c) = f_zero.
Proof.
  intros Ht. split; [|by unfold common_config; rewrite Ht].
  intros Hm Hp Hs x. unfold request_options, has_config. rewrite Ht, Hm, Hp, Hs. cbn [negb orb Z.eqb].
  rewrite !elem_of_app, list_elem_of_singleton, list_elem_of_fmap.
  destruct (gc_OutputType c), (gc_JSONMode c); set_solver.
Qed.

(** ** The Datalog middleware *)

(** A response leaves the Datalog middleware only when both validations
    accept it, and a request denied beforehand never reaches the model: for a
    non-nil request, no error means that the validator accepted the request,
    that the rest of the chain ran once without error, and that the validator
    accepted exactly the response that is returned. *)
Theorem validated_response {W : Type} v q (next : GenerateNext) (w w' : W) resp err :
  wrapGenerate (Some v) (Some q) next w = (w', (resp, err)) ->
  match err with
  | None => v "pre" q None = None /\ next w = (w', (resp, None)) /\ v "post" q resp = None
  | Some _ => resp = None /\ (v "pre" q None <> None -> w' = w)
  end.
Proof.
  unfold wrapGenerate. destruct (v "pre" q None) as [e|] eqn:Hpre.
  - intros [= <- <- <-]. done.
  - destruct (next w) as [w1 [r [e|]]] eqn:Hn; [intros [= <- <- <-]; done|].
    destruct (v "post" q r) as [e|] eqn:Hpost; intros [= <- <- <-]; [done|]. by rewrite Hpost.
Qed.

(** A nil request is not validated at all: the middleware returns what
    the chain returns, whatever the validator would say. *)
Theorem nil_request_unvalidated {W : Type} validator (next : GenerateNext) (w : W) :
  wrapGenerate validator None next w
  = let '(w1, (resp, err)) := next w in (w1, (match err with Some _ => None | None => resp end, err)).
Proof. unfold wrapGenerate. destruct validator; destruct (next w) as [w1 [r [e|]]]; done. Qed.

(** The model name that the telemetry middleware reports is the text of
    the request's first message (the system prompt, or the user's), not the
    name of a model. *)
Theorem telemetry_reports_prompt {W : Type} (record : GenerationMetrics -> W -> W) m rest next (w : W) :
  let '(w1, out) := next w in
  exists i o, telemetry_WrapModel (Some record) (Some {| rq_Messages := m :: rest |}) next w
              = (record {| gm_model := m; gm_inputTokens := i; gm_outputTokens := o |} w1, out).
Proof. destruct (next w) as [w1 [r e]] eqn:Hn. unfold telemetry_WrapModel. rewrite Hn. eauto. Qed.

(** ** Caller failures and the circuit breaker *)

Lemma caller_or_infra blocked classified e :
  IsInfraFailure blocked classified (Some e) = negb (IsCallerFailure blocked classified (Some e)).
Proof. done. Qed.

(** With [IsInfraFailure] as its predicate, the breaker is transparent to
    caller failures: if no answer of the action is an infrastructure failure,
    a closed breaker stays closed through any sequence of calls, and the
    world evolves as if the action had been called directly. *)
Theorem caller_failures_never_trip {W : Type} blocked classified threshold reset
    (inner : Envelope -> W -> W * (Envelope * option error)) calls c (w : W) :
  (forall env w, IsInfraFailure blocked classified (snd (snd (inner env w))) = false) ->
  cb_state c = StateClosed ->
  let cfg := honest_breaker blocked classified threshold reset in
  let '(c', w') := run_all cfg inner calls c w in
  cb_state c' = StateClosed /\ w' = foldl (fun w '(_, _, env) => fst (inner env w)) w calls /\
  forall now fin env, snd (fst (Execute cfg inner now fin env c' w')) = fst (inner env w') /\
                      snd (Execute cfg inner now fin env c' w') = snd (inner env w').
Proof.
  intros Hi. revert c w. induction calls as [|[[now fin] env] rest IH]; intros c w Hc; cbn zeta.
  - cbn [run_all foldl]. split_and!; [done..|]. intros now fin env. unfold Execute, cb_decide.
    cbn [cb_snapshot sn_state]. rewrite Hc. by destruct (inner env w) as [w1 [r e]].
  - cbn [run_all foldl]. unfold Execute at 1, cb_decide. cbn [cb_snapshot sn_state]. rewrite Hc.
    specialize (Hi env w) as He. destruct (inner env w) as [w1 [r e]]. cbn [fst snd] in He |- *.
    apply (IH _ w1). unfold standard_done. rewrite decide_True by done. destruct e as [e|]; [|done].
    unfold counts, honest_breaker. cbn [FailureWhen]. rewrite He. done.
Qed.

(** ** Prompts and facts *)

(** Dynamic configuration reaches the model in one way only, whatever the
    order of [range]: the context of the call holds, under each [prompt.]
    key of the metadata, the [%v] text of its value, and every other fact is
    the caller's. *)
Theorem inject_config_spec `{GoRange} render meta facts k :
  inject_config render meta facts !! k
  = match meta !! k with
    | Some v => if has_prefix k PrefixPromptConfig then Some (fmt_v render v) else facts !! k
    | None => facts !! k
    end.
Proof.
  unfold inject_config.
  pose proof (NoDup_range meta) as Hnd. pose proof (fun k v => elem_of_range meta k v) as Hin.
  assert (match meta !! k with
          | Some v => if has_prefix k PrefixPromptConfig then Some (fmt_v render v) else facts !! k
          | None => facts !! k
          end
          = match (list_to_map (range meta) : gmap string GoVal) !! k with
          | Some v => if has_prefix k PrefixPromptConfig then Some (fmt_v render v) else facts !! k
          | None => facts !! k
          end) as ->.
  { destruct (meta !! k) as [v|] eqn:Hk.
    - apply Hin in Hk. by rewrite (elem_of_list_to_map_1 (M := gmap string) _ k v).
    - destruct ((list_to_map (range meta) : gmap string GoVal) !! k) as [v|] eqn:Hl; [|done].
      apply elem_of_list_to_map_2, Hin in Hl. congruence. }
  clear Hin. revert facts Hnd. induction (range meta) as [|[k' v] l IH]; intros facts Hnd; [done|].
  cbn [foldl fmap list_fmap fst] in *. apply NoDup_cons in Hnd as [Hni Hnd]. cbn [list_to_map foldr uncurry].
  rewrite IH by done. destruct (decide (k = k')) as [->|Hne].
  - rewrite lookup_insert_eq. apply (not_elem_of_list_to_map_1 (M := gmap string)) in Hni. rewrite Hni.
    destruct (has_prefix k' PrefixPromptConfig); [by rewrite lookup_insert_eq|done].
  - rewrite lookup_insert_ne by done. destruct ((list_to_map l : gmap string GoVal) !! k) as [x|]; [destruct (has_prefix k PrefixPromptConfig); [done|]|];
      destruct (has_prefix k' PrefixPromptConfig); try rewrite lookup_insert_ne by done; done.
Qed.

(** ** Code fences *)

Lemma trim_left_nl c s : solid c = true -> trim_left (String c_nl (String c s)) = String c s.
Proof.
  intros Hc. unfold trim_left. cbn [String.length trim_left_fuel].
  change (space_len (String c_nl (String c s))) with 1. cbn [str_drop]. by rewrite solid_space_len.
Qed.

Lemma trim_right_nl s c : solid c = true -> trim_right (s +:+ String c nl) = s +:+ String c "".
Proof.
  intros Hc. unfold trim_right. rewrite str_length_app. change (String.length (String c nl)) with 2.
  replace (String.length s + 2) with (S (S (String.length s))) by lia. cbn [trim_right_fuel].
  assert (s +:+ String c nl = (s +:+ String c "") +:+ nl) as E by (by rewrite <- str_app_assoc).
  assert (last_space_len (s +:+ String c nl) = 1) as ->.
  { unfold last_space_len. rewrite E, !str_length_app. cbn [String.length].
    replace (String.length s + 1 + String.length nl - 1) with (String.length (s +:+ String c ""))
      by (rewrite str_length_app; cbn; lia).
    rewrite str_drop_app. by rewrite (proj2 (Nat.leb_le _ _)) by (cbn; lia). }
  rewrite E, !str_length_app. change (String.length nl) with 1. cbn [String.length].
  replace (String.length s + 1 + 1 - 1) with (String.length (s +:+ String c "")) by (rewrite str_length_app; cbn; lia).
  rewrite str_take_app. rewrite last_space_len_solid by done. done.
Qed.

Lemma trim_prefix_app p s : trim_prefix (p +:+ s) p = s.
Proof.
  unfold trim_prefix. rewrite (proj2 (has_prefix_spec _ _)) by (by exists s). apply str_drop_app.
Qed.

(** A fenced text with its fences, and what is between them. *)
Lemma trim_fenced mid : trim_space (fence +:+ mid +:+ fence) = fence +:+ mid +:+ fence.
Proof.
  assert (fence +:+ mid +:+ fence = (fence +:+ mid +:+ "``") +:+ String "`" "") as E by (by rewrite <- !str_app_assoc).
  unfold trim_space. change (trim_left (fence +:+ ?r)) with (trim_left (String "`" ("``" +:+ r))).
  rewrite trim_left_solid by done. change (String "`" ("``" +:+ ?r)) with (fence +:+ r).
  rewrite E. by apply trim_right_solid.
Qed.

Lemma trim_between_newlines c mid d :
  solid c = true -> solid d = true ->
  trim_space (nl +:+ String c (mid +:+ String d "") +:+ nl) = String c (mid +:+ String d "").
Proof.
  intros Hc Hd. unfold trim_space. change (nl +:+ ?s) with (String c_nl s).
  cbn [String.append]. rewrite trim_left_nl by done. rewrite <- str_app_assoc.
  cbn [String.append]. exact (trim_right_nl (String c mid) d Hd).
Qed.

(** A language tag that does not open the text is not removed. *)
Lemma trim_prefix_nl c lang mid : Ascii.eqb c c_nl = false ->
  trim_prefix (fence +:+ nl +:+ mid) (fence +:+ String c lang) = fence +:+ nl +:+ mid.
Proof.
  intros Hc. apply Ascii.eqb_neq in Hc. unfold trim_prefix.
  assert (has_prefix (fence +:+ nl +:+ mid) (fence +:+ String c lang) = false) as ->; [|done].
  unfold has_prefix. cbn [String.append fence nl String.prefix]. repeat case_match; congruence.
Qed.

(** A JSON answer in a code fence is recovered: for a body whose first
    and last byte are printable ASCII (a brace or a bracket), the cleanup of
    [GenerateStruct] returns the body, whether or not the fence names its
    language. *)
Theorem fenced_json_recovered c mid d lang :
  solid c = true -> solid d = true -> lang = "json" \/ lang = "" ->
  let body := String c (mid +:+ String d "") in
  strip_fences (fence +:+ (lang +:+ nl +:+ body +:+ nl) +:+ fence) = body.
Proof.
  intros Hc Hd Hl body. unfold strip_fences. rewrite trim_fenced.
  assert (trim_prefix (trim_prefix (fence +:+ (lang +:+ nl +:+ body +:+ nl) +:+ fence) (fence +:+ "json")) fence
          = (nl +:+ body +:+ nl) +:+ fence) as ->.
  { destruct Hl as [-> | ->].
    - rewrite <- (str_app_assoc "json"), (str_app_assoc fence "json"). by rewrite trim_prefix_app.
    - change ("" +:+ ?x) with x. rewrite <- (str_app_assoc nl). rewrite trim_prefix_nl by done.
      by rewrite trim_prefix_app. }
  rewrite trim_suffix_app. by apply trim_between_newlines.
Qed.

(** ** Concrete runs *)

Lemma settings_compose_witness :
  let opts := [WithFallbackMiddleware ["m"]; WithRetryMiddleware 3; WithToolApprovalMiddleware ["read_file"];
               WithFilesystemMiddleware "/app/data" false] in
  let '(c, h) := apply_options (BuildGenerateOptions opts) (zero_config, ∅) in
  List.length (buildMiddlewareOptions (extractMiddlewareConfig c h)) = 4 /\
  ReqUse (UToolApproval {| ta_AllowedTools := ["read_file"] |}) ∈ request_options ∅ "hi" c h.
Proof.
  pose proof (settings_compose 3 ["m"] ["read_file"] "/app/data" false
    [WithFallbackMiddleware ["m"]; WithRetryMiddleware 3; WithToolApprovalMiddleware ["read_file"];
     WithFilesystemMiddleware "/app/data" false] ∅ "hi" (zero_config, ∅) (perm_swap _ _ _)) as H.
  cbn zeta. destruct (apply_options _ _) as [c h]. destruct H as [H1 H2].
  split; [by rewrite H1|]. apply H2. rewrite H1. right. right. by left.
Defined.

Lemma middleware_leaks_witness :
  let c := with_Metadata (Some 1) zero_config in
  let m := with_Retry (retry_default 3) no_middleware in
  extractMiddlewareConfig c {[1 := ∅]} = None /\
  let '(_, h1) := apply_options (BuildGenerateOptions
      [WithGenerationConfig (Some c); fun g => {| gs_Config := gs_Config g; gs_Middleware := Some m |}])
      (zero_config, {[1 := ∅]}) in
  let '(c2, h2) := apply_options (BuildGenerateOptions [WithGenerationConfig (Some c)]) (zero_config, h1) in
  c2 = c /\ h2 = h1 /\ extractMiddlewareConfig c2 h2 = Some m.
Proof.
  split; [by_vm|].
  exact (middleware_leaks (with_Retry (retry_default 3) no_middleware) (with_Metadata (Some 1) zero_config) 1
           {[1 := ∅]} zero_config eq_refl).
Defined.

Lemma zero_temperature_unset_witness :
  cc_Temperature (common_config zero_config) = f_zero.
Proof. exact (proj2 (zero_temperature_unset ∅ "hi" zero_config ∅ eq_refl)). Defined.

Definition refuse_secrets (phase : string) (_ : ModelRequest) (resp : option ModelResponse) : option error :=
  match resp with
  | Some r => if contains (mr_Text r) "secret" then Some (EText "leak") else None
  | None => None
  end.

Lemma validated_response_witness :
  let next := fun w : nat => (S w, (Some {| mr_Text := "a secret"; mr_Usage := None |}, None)) in
  let q := {| rq_Messages := ["tell me"] |} in
  let '(_, (resp, err)) := wrapGenerate (Some refuse_secrets) (Some q) next 0 in
  resp = None /\ (refuse_secrets "pre" q None <> None -> 1 = 0).
Proof.
  exact (validated_response refuse_secrets {| rq_Messages := ["tell me"] |}
    (fun w : nat => (S w, (Some {| mr_Text := "a secret"; mr_Usage := None |}, None))) 0 1 None
    (Some (EWrap "datalog post-validation failed: " (EText "leak"))) eq_refl).
Defined.

(** A provider that refuses every prompt, and a classification that says so. *)
Definition refusing (env : Envelope) (w : nat) : nat * (Envelope * option error) :=
  (S w, (emptyEnvelope, Some (EText "blocked"))).
Definition is_blocked (e : error) : bool := match e with EText "blocked" => true | _ => false end.

Lemma caller_failures_never_trip_witness :
  let cfg := honest_breaker is_blocked (fun _ => None) 1 10 in
  let '(c', w') := run_all cfg refusing [(0, 1, emptyEnvelope); (2, 3, emptyEnvelope)]%Z NewCircuitBreaker 0 in
  cb_state c' = StateClosed /\ w' = 2.
Proof.
  pose proof (caller_failures_never_trip is_blocked (fun _ => None) 1 10 refusing
    [(0, 1, emptyEnvelope); (2, 3, emptyEnvelope)]%Z NewCircuitBreaker 0 ltac:(done) eq_refl) as H.
  cbn zeta in H |- *. destruct (run_all _ _ _ _ _) as [c' w']. destruct H as (Hc & Hw & _). done.
Defined.

Lemma fenced_json_recovered_witness :
  strip_fences (fence +:+ ("json" +:+ nl +:+ "{...}" +:+ nl) +:+ fence) = "{...}".
Proof. exact (fenced_json_recovered "{" "..." "}" "json" eq_refl eq_refl (or_introl eq_refl)). Defined.
