(* ===== verification/Streaming.v ===== *)
(** * Supervised streaming

    [adapters/ai/stream.go]: a streaming generation between the gate's
    pre-check and its post-check.  [Execute] is the non-streaming path.
    [Stream] is split where the code is concurrent: opening the stream
    (pre-check and provider call) is synchronous, forwarding the chunks and
    the post-check run in a goroutine of their own, and the only state the
    goroutines share is [final].  [stream_step] interleaves any number of
    streams and executions of one action over one gate.

    A provider's stream is the list of chunks its channel delivers before it
    closes; [listening i] says how the select of the [i]th send ends: the
    chunk is taken, or the context is done.  [None] is a call of the gate that
    does not return. *)
From S2P Require Import Prelude GoStrings CoreErrors CoreTypes Facts Reflect Sources Datalog Runtime Solver Float64 Memory Generators.
From Stdlib Require Import Ascii String.
Open Scope string_scope.

(** [StreamingGate]. *)
Class StreamingGate (E : Type) := {
  sg_Assess : option error -> ActionMetadata -> Envelope -> E -> option (E * option error);
  sg_Reflect : option error -> ActionMetadata -> Envelope -> E -> option (E * (Envelope * option error))
}.

Definition engine_gate {R : Type} `{!GateRuntime R} (G : GoEnv) : StreamingGate (PolicyEngine R) := {|
  sg_Assess := Assess G;
  sg_Reflect := Reflect G
|}.

Definition llm_metadata (name : string) : ActionMetadata :=
  {| am_Name := name; am_Type := "llm"; am_InputContentType := ""; am_InputType := ""; am_OutputType := "";
     am_IsDynamic := false |}.

Definition pre_denied (name : string) (e : error) : error :=
  EWrap ("streaming action " +:+ go_quote name +:+ " pre-check denied: ") e.
Definition post_denied (name : string) (e : error) : error :=
  EWrap ("streaming action " +:+ go_quote name +:+ " post-check denied: ") e.

(** ** Forwarding *)

(** The forwarding loop from the [i]th send on: the chunks the consumer
    received, and the assembled text when the provider's channel closed
    without an error and with the consumer still listening. *)
Fixpoint pump (listening : nat -> bool) (i : nat) (assembled : string) (source : list StreamChunk)
  : list StreamChunk * option string :=
  match source with
  | [] => ([], Some assembled)
  | ck :: rest =>
      match ck_Err ck with
      | Some e => (if listening i then [{| ck_Text := ""; ck_Err := Some e |}] else [], None)
      | None =>
          if listening i
          then let '(sent, t) := pump listening (S i) (assembled +:+ ck_Text ck) rest in (ck :: sent, t)
          else ([], None)
      end
  end.

Section Stream.
Context {E W : Type} `{!StreamingGate E} (fmt_other type_name : GoVal -> string).

Record StreamingSupervisedAction := { ss_name : string; ss_generator : TextGenerator W }.

Definition NewStreamingSupervisedAction (name : string) (g : option (TextGenerator W)) (gate : bool)
  : res error StreamingSupervisedAction :=
  match g with
  | None => Err (EText ("NewStreamingSupervisedAction(" +:+ name +:+ "): generator cannot be nil"))
  | Some g => if gate then Ok {| ss_name := name; ss_generator := g |}
              else Err (EText ("NewStreamingSupervisedAction(" +:+ name +:+ "): gate cannot be nil"))
  end.

Implicit Types (a : StreamingSupervisedAction) (e : E) (w : W).

(** [Execute]; [ctx] and [ctx'] are the context's error at the two checks,
    [id] is the UUID of the output. *)
Definition stream_Execute (ctx ctx' : option error) a (facts : gmap string string) (id : Z) (input : Envelope) e w
  : option (E * W * (Envelope * option error)) :=
  match promptFrom fmt_other type_name input with
  | Err x => Some (e, w, (emptyEnvelope, Some x))
  | Ok prompt =>
      '(e1, denied) ← sg_Assess ctx (llm_metadata (ss_name a)) input e;
      match denied with
      | Some x => Some (e1, w, (emptyEnvelope, Some (pre_denied (ss_name a) x)))
      | None =>
          let '(w1, r) := tg_Complete (ss_generator a) facts prompt w in
          match r with
          | Err x => Some (e1, w1, (emptyEnvelope, Some (EWrap "llm generation failed: " x)))
          | Ok text =>
              '(e2, (out, err)) ← sg_Reflect ctx' (llm_metadata (ss_name a)) (llm_output (ss_name a) id text) e1;
              Some (e2, w1, match err with
                            | Some x => (emptyEnvelope, Some (post_denied (ss_name a) x))
                            | None => (out, None)
                            end)
          end
      end
  end.

(** The synchronous part of [Stream]: an error, or the provider's channel. *)
Definition stream_open (ctx : option error) a (facts : gmap string string) (input : Envelope) e w
  : option (E * W * res error (list StreamChunk)) :=
  match promptFrom fmt_other type_name input with
  | Err x => Some (e, w, Err x)
  | Ok prompt =>
      '(e1, denied) ← sg_Assess ctx (llm_metadata (ss_name a)) input e;
      match denied with
      | Some x => Some (e1, w, Err (pre_denied (ss_name a) x))
      | None =>
          let '(w1, r) := tg_Stream (ss_generator a) facts prompt w in
          Some (e1, w1, match r with
                        | Err x => Err (EWrap "llm stream failed to open: " x)
                        | Ok source => Ok source
                        end)
      end
  end.

(** The goroutine: what the consumer receives, and [final] afterwards. *)
Definition stream_run (ctx : option error) a (listening : nat -> bool) (id : Z) (source : list StreamChunk)
    (final : option Envelope) e : option (E * option Envelope * list StreamChunk) :=
  match pump listening 0 "" source with
  | (sent, None) => Some (e, final, sent)
  | (sent, Some text) =>
      '(e1, (out, err)) ← sg_Reflect ctx (llm_metadata (ss_name a)) (llm_output (ss_name a) id text) e;
      match err with
      | Some x =>
          Some (e1, final, (sent ++ if listening (List.length sent)
                                    then [{| ck_Text := ""; ck_Err := Some (post_denied (ss_name a) x) |}] else [])%list)
      | None => Some (e1, Some out, sent)
      end
  end.

(** [FinalEnvelope]. *)
Definition FinalEnvelope (final : option Envelope) : Envelope * bool :=
  match final with None => (emptyEnvelope, false) | Some env => (env, true) end.

(** ** Concurrent streams of one action *)

Record StreamSystem := {
  sy_gate : E;
  sy_world : W;
  sy_final : option Envelope;
  sy_open : list (list StreamChunk);       (* the provider channels of the running goroutines *)
  sy_received : list (list StreamChunk)    (* what each finished stream's consumer got *)
}.

Definition stream_start (e : E) (w : W) : StreamSystem :=
  {| sy_gate := e; sy_world := w; sy_final := None; sy_open := []; sy_received := [] |}.

(** A stream is opened, a goroutine runs to its end, or [Execute] is called. *)
Inductive stream_step a : StreamSystem -> StreamSystem -> Prop :=
| SOpen ctx facts input s e1 w1 source :
    stream_open ctx a facts input (sy_gate s) (sy_world s) = Some (e1, w1, Ok source) ->
    stream_step a s {| sy_gate := e1; sy_world := w1; sy_final := sy_final s;
                       sy_open := source :: sy_open s; sy_received := sy_received s |}
| SRefuse ctx facts input s e1 w1 x :
    stream_open ctx a facts input (sy_gate s) (sy_world s) = Some (e1, w1, Err x) ->
    stream_step a s {| sy_gate := e1; sy_world := w1; sy_final := sy_final s;
                       sy_open := sy_open s; sy_received := sy_received s |}
| SFinish ctx listening id s source rest e1 final1 sent :
    sy_open s ≡ₚ source :: rest ->
    stream_run ctx a listening id source (sy_final s) (sy_gate s) = Some (e1, final1, sent) ->
    stream_step a s {| sy_gate := e1; sy_world := sy_world s; sy_final := final1;
                       sy_open := rest; sy_received := sent :: sy_received s |}
| SExecute ctx ctx' facts id input s e1 w1 out :
    stream_Execute ctx ctx' a facts id input (sy_gate s) (sy_world s) = Some (e1, w1, out) ->
    stream_step a s {| sy_gate := e1; sy_world := w1; sy_final := sy_final s;
                       sy_open := sy_open s; sy_received := sy_received s |}.

Definition stream_reach a (e : E) (w : W) : StreamSystem -> Prop :=
  rtc (stream_step a) (stream_start e w).

(** ** Forwarding *)

Definition texts (l : list StreamChunk) : string := foldr (fun ck t => ck_Text ck +:+ t) "" l.

Lemma texts_cons ck l : texts (ck :: l) = ck_Text ck +:+ texts l.
Proof. done. Qed.

Definition unbroken (l : list StreamChunk) : Prop := Forall (fun ck => ck_Err ck = None) l.

(** A consumer receives a prefix of the provider's chunks, and the error that
    cut the stream when it is still listening. *)
Definition cut_short (source sent : list StreamChunk) : Prop :=
  exists pre ck rest, source = (pre ++ ck :: rest)%list /\ unbroken pre /\
    (sent = pre \/ exists x, ck_Err ck = Some x /\ sent = (pre ++ [{| ck_Text := ""; ck_Err := Some x |}])%list).

Lemma cut_short_cons ck source sent : ck_Err ck = None -> cut_short source sent -> cut_short (ck :: source) (ck :: sent).
Proof.
  intros Hx (pre & c & rest & -> & Hf & Hs). exists (ck :: pre), c, rest. split_and!; [done|by constructor|].
  destruct Hs as [-> |(x & Hc & ->)]; [by left|right; by exists x].
Qed.

Lemma pump_spec listening i acc source sent t :
  pump listening i acc source = (sent, t) ->
  match t with
  | Some text => sent = source /\ text = acc +:+ texts source /\ unbroken source
  | None => cut_short source sent
  end.
Proof.
  revert i acc sent t. induction source as [|ck rest IH]; intros i acc sent t; cbn [pump].
  - intros [= <- <-]. rewrite str_app_nil_r. split_and!; [done..|constructor].
  - destruct (ck_Err ck) as [x|] eqn:Hx.
    + intros [= <- <-]. exists [], ck, rest. split_and!; [done|constructor|].
      destruct (listening i); [right; by exists x|by left].
    + destruct (listening i); [|intros [= <- <-]; exists [], ck, rest; split_and!; [done|constructor|by left]].
      destruct (pump listening (S i) (acc +:+ ck_Text ck) rest) as [sent' t'] eqn:Hp. intros [= <- <-].
      specialize (IH _ _ _ _ Hp). destruct t' as [text|]; [|by apply cut_short_cons].
      destruct IH as (-> & -> & Hf). split_and!; [done| |by constructor]. by rewrite texts_cons, str_app_assoc.
Qed.

End Stream.
Arguments StreamingSupervisedAction W : clear implicits.
Arguments StreamSystem E W : clear implicits.
