(* ===== verification/StreamingProps.v ===== *)
(** * Properties of supervised streaming

    What a consumer receives, what a final envelope guarantees under
    concurrent streams, and the agreement of [Stream] with [Execute]. *)
From S2P Require Import Prelude GoStrings CoreErrors CoreTypes Facts Reflect Sources Datalog Runtime Solver Float64 Memory Generators Streaming.
From Stdlib Require Import Ascii String.
Open Scope string_scope.

Section Props.
Context {E W : Type} `{!StreamingGate E} (fmt_other type_name : GoVal -> string).
Implicit Types (a : StreamingSupervisedAction W) (e : E) (w : W).

Lemma pump_listening listening i acc source :
  (forall n, listening n = true) -> unbroken source -> pump listening i acc source = (source, Some (acc +:+ texts source)).
Proof.
  intros Hl. revert i acc. induction source as [|ck rest IH]; intros i acc Hc; cbn [pump].
  - by rewrite str_app_nil_r.
  - apply Forall_cons in Hc as [Hx Hc]. rewrite Hx, Hl, IH by done. by rewrite texts_cons, str_app_assoc.
Qed.

(** What a stream delivers.  A finished stream either was cut short (by
    an error of the provider, which the consumer is told, or by the consumer
    leaving): then the consumer has a prefix of the chunks, the gate is not
    asked and no envelope is recorded; or every chunk was delivered and the
    gate judged their concatenation: only its approval records an envelope,
    and a denial is one more, final, chunk, after the whole text. *)
Theorem stream_outcome ctx a listening id source final e e1 final1 sent :
  stream_run ctx a listening id source final e = Some (e1, final1, sent) ->
  (cut_short source sent /\ e1 = e /\ final1 = final) \/
  (unbroken source /\ exists out err,
     sg_Reflect ctx (llm_metadata (ss_name a)) (llm_output (ss_name a) id (texts source)) e = Some (e1, (out, err)) /\
     match err with
     | None => final1 = Some out /\ sent = source
     | Some x => final1 = final /\
         (sent = source \/ sent = (source ++ [{| ck_Text := ""; ck_Err := Some (post_denied (ss_name a) x) |}])%list)
     end).
Proof.
  unfold stream_run. destruct (pump listening 0 "" source) as [s t] eqn:Hp. apply pump_spec in Hp.
  destruct t as [text|]; [|intros [= <- <- <-]; by left].
  destruct Hp as (-> & -> & Hc). cbn [String.append]. intros H. right. split; [done|].
  destruct (sg_Reflect _ _ _ e) as [[e2 [out err]]|] eqn:Hr; [|done]. cbn [mbind option_bind] in H.
  exists out, err. destruct err as [x|]; simplify_eq; [|done]. split; [done|]. split; [done|].
  destruct (listening _); [by right|left; by rewrite app_nil_r].
Qed.

(** Nothing is generated without the gate's approval: if [Stream] or
    [Execute] touches the provider at all, the pre-check was asked about this
    very envelope and did not object. *)
Theorem no_generation_without_assessment ctx ctx' a facts id input e w e1 w1 :
  ((exists r, stream_open fmt_other type_name ctx a facts input e w = Some (e1, w1, r)) \/
   (exists r, stream_Execute fmt_other type_name ctx ctx' a facts id input e w = Some (e1, w1, r))) ->
  w1 <> w ->
  exists e', sg_Assess ctx (llm_metadata (ss_name a)) input e = Some (e', None).
Proof.
  unfold stream_open, stream_Execute. intros Hr Hw.
  destruct (promptFrom _ _ input) as [prompt|x]; [|naive_solver].
  destruct (sg_Assess _ _ input e) as [[e' [x|]]|] eqn:Ha; cbn [mbind option_bind] in Hr; [naive_solver|eauto|naive_solver].
Qed.

(** An opened stream: the gate approved its envelope beforehand. *)
Definition opened a (source : list StreamChunk) : Prop :=
  exists ctx facts input e w e1 e' w1, stream_open fmt_other type_name ctx a facts input e w = Some (e1, w1, Ok source) /\
    sg_Assess ctx (llm_metadata (ss_name a)) input e = Some (e', None).

(** The envelope is the gate's answer on the whole text of an opened stream. *)
Definition approved a (env : Envelope) : Prop :=
  exists source ctx id e e1, opened a source /\ unbroken source /\
    sg_Reflect ctx (llm_metadata (ss_name a)) (llm_output (ss_name a) id (texts source)) e = Some (e1, (env, None)).

Definition error_chunk (x : error) : StreamChunk := {| ck_Text := ""; ck_Err := Some x |}.

(** What the consumer of an opened stream may have received: chunks from the
    start of the stream, up to all of them; these, up to the first chunk with
    an error, and that error; or all of an unbroken stream and the error with
    which the gate refused its text. *)
Definition delivered a (sent : list StreamChunk) : Prop :=
  exists source, opened a source /\
    ((unbroken sent /\ exists rest, source = (sent ++ rest)%list) \/
     (exists pre ck rest x, source = (pre ++ ck :: rest)%list /\ unbroken pre /\ ck_Err ck = Some x /\ sent = (pre ++ [error_chunk x])%list) \/
     (unbroken source /\ exists ctx id e e1 out x,
        sg_Reflect ctx (llm_metadata (ss_name a)) (llm_output (ss_name a) id (texts source)) e = Some (e1, (out, Some x)) /\
        sent = (source ++ [error_chunk (post_denied (ss_name a) x)])%list)).

Lemma cut_delivered a source sent : opened a source -> cut_short source sent -> delivered a sent.
Proof.
  intros Ho (pre & ck & rest & -> & Hu & Hs). eexists. split; [exact Ho|].
  destruct Hs as [->|(x & Hx & ->)]; [left; split; [done|by exists (ck :: rest)]|right; left; by exists pre, ck, rest, x].
Qed.

Lemma whole_delivered a source : opened a source -> unbroken source -> delivered a source.
Proof. intros Ho Hu. exists source. split; [done|]. left. split; [done|]. exists []. by rewrite app_nil_r. Qed.

Lemma stream_open_opened ctx a facts input e w e1 w1 source :
  stream_open fmt_other type_name ctx a facts input e w = Some (e1, w1, Ok source) -> opened a source.
Proof.
  intros H. pose proof H as H'. unfold stream_open in H'. destruct (promptFrom _ _ input); [|done].
  destruct (sg_Assess _ _ input e) as [[e' [x|]]|] eqn:Ha; cbn [mbind option_bind] in H'; [done| |done].
  exists ctx, facts, input, e, w, e1, e', w1. done.
Qed.

Definition stream_inv a (s : StreamSystem E W) : Prop :=
  Forall (opened a) (sy_open s) /\ (forall env, sy_final s = Some env -> approved a env) /\
  Forall (delivered a) (sy_received s).

Lemma stream_step_inv a s s' : stream_step fmt_other type_name a s s' -> stream_inv a s -> stream_inv a s'.
Proof.
  intros Hs (Ho & Hf & Hd). destruct Hs as [? ? ? s e1 w1 source H| | ctx listening id s source rest e1 final1 sent Hp H|];
    unfold stream_inv; cbn [sy_open sy_final sy_received]; [|done| |done].
  - split_and!; [|done..]. constructor; [by eapply stream_open_opened|done].
  - rewrite Hp in Ho. apply Forall_cons in Ho as [Hsrc Hrest].
    apply stream_outcome in H as [(Hc & -> & ->)|(Hc & out & err & Hr & Herr)].
    + split_and!; [done..|]. constructor; [by eapply cut_delivered|done].
    + destruct err as [x|]; destruct Herr as [-> Hsent].
      * split_and!; [done..|]. constructor; [|done]. destruct Hsent as [-> | ->]; [by apply whole_delivered|].
        exists source. split; [done|]. right. right. split; [done|]. by exists ctx, id, (sy_gate s), e1, out, x.
      * subst sent. split_and!; [done| |constructor; [by apply whole_delivered|done]].
        intros env [= <-]. by exists source, ctx, id, (sy_gate s), e1.
Qed.

(** C8: Safety of concurrent streams.  In every reachable state of an action,
    whatever streams and executions ran and in whatever order, an envelope
    that [FinalEnvelope] hands out is the gate's own answer, without error,
    on the complete text of a stream whose request the gate had approved.
    Every consumer of a finished stream got, of a stream whose request the gate
    had approved, either chunks from its start (at most all of them), or the
    chunks before the first one with an error and that error, or all of an
    unbroken stream followed by the error with which the gate refused its
    text, and nothing else. *)
Theorem final_is_approved a e w s :
  stream_reach fmt_other type_name a e w s ->
  (forall env, FinalEnvelope (sy_final s) = (env, true) -> approved a env) /\ Forall (delivered a) (sy_received s).
Proof.
  unfold stream_reach. intros Hr. assert (stream_inv a s) as (_ & Hf & Hd).
  { remember (stream_start e w) as s0 eqn:Hs0. assert (stream_inv a s0) as H0.
    { subst s0. split_and!; [constructor|done|constructor]. }
    clear Hs0. induction Hr as [|x y z Hxy _ IH]; [done|].
    apply IH. by eapply stream_step_inv. }
  split; [|done]. intros env. unfold FinalEnvelope. destruct (sy_final s) as [f|]; intros [= ->]; by apply Hf.
Qed.

(** A denied stream leaves the previous stream's envelope in place:
    after it [FinalEnvelope] still answers true, with an envelope that
    belongs to another generation. *)
Theorem denied_stream_keeps_final ctx a listening id source env e e1 out x :
  (forall n, listening n = true) -> unbroken source ->
  sg_Reflect ctx (llm_metadata (ss_name a)) (llm_output (ss_name a) id (texts source)) e = Some (e1, (out, Some x)) ->
  exists final1 sent, stream_run ctx a listening id source (Some env) e = Some (e1, final1, sent) /\
    FinalEnvelope final1 = (env, true) /\
    sent = (source ++ [{| ck_Text := ""; ck_Err := Some (post_denied (ss_name a) x) |}])%list.
Proof.
  intros Hl Hc Hr. exists (Some env). eexists. unfold stream_run. rewrite pump_listening by done. cbn [String.append].
  rewrite Hr. cbn [mbind option_bind]. rewrite Hl. done.
Qed.

(** C29: Streaming is generation.  When the provider streams the text that it
    would have completed, the consumer reads to the end and neither path
    fails, the final envelope of the stream is exactly what [Execute]
    returns, and the gate ends in the same state. *)
Theorem stream_agrees_with_Execute ctx ctx' a facts id input e w e2 w1 out source listening final :
  stream_Execute fmt_other type_name ctx ctx' a facts id input e w = Some (e2, w1, (out, None)) ->
  (forall n, listening n = true) -> unbroken source ->
  (forall prompt w2 text, promptFrom fmt_other type_name input = Ok prompt ->
     tg_Complete (ss_generator a) facts prompt w = (w2, Ok text) ->
     text = texts source /\ tg_Stream (ss_generator a) facts prompt w = (w2, Ok source)) ->
  exists e1, stream_open fmt_other type_name ctx a facts input e w = Some (e1, w1, Ok source) /\
    stream_run ctx' a listening id source final e1 = Some (e2, Some out, source).
Proof.
  unfold stream_Execute, stream_open. intros Hx Hl Hc Hsame.
  destruct (promptFrom _ _ input) as [prompt|x]; [|done].
  destruct (sg_Assess _ _ input e) as [[e1 [x|]]|]; cbn [mbind option_bind] in Hx |- *; [done| |done].
  destruct (tg_Complete _ _ prompt w) as [w2 [text|x]] eqn:Hcomp; [|done].
  destruct (Hsame _ _ _ eq_refl Hcomp) as [-> Hs]. rewrite Hs. exists e1.
  destruct (sg_Reflect _ _ _ e1) as [[e3 [env [x|]]]|] eqn:Hr; cbn [mbind option_bind] in Hx; simplify_eq.
  split; [done|]. unfold stream_run. rewrite pump_listening by done. cbn [String.append]. by rewrite Hr.
Qed.
End Props.

(** ** Concrete runs *)

(** A gate that counts its calls and forbids the word "secret" in answers. *)
Definition word_gate : StreamingGate nat := {|
  sg_Assess _ _ _ n := Some (S n, None);
  sg_Reflect _ _ env n :=
    match env_Payload env with
    | GStr s => if contains s "secret" then Some (S n, (emptyEnvelope, Some (EText "leak"))) else Some (S n, (env, None))
    | _ => Some (S n, (env, None))
    end
|}.

Definition chunk (s : string) : StreamChunk := {| ck_Text := s; ck_Err := None |}.
Definition echo_model : TextGenerator nat := {|
  tg_Complete _ p w := (S w, Ok (p +:+ "!"));
  tg_Stream _ p w := (S w, Ok [chunk p; chunk "!"])
|}.
Definition echo_action : StreamingSupervisedAction nat := {| ss_name := "echo"; ss_generator := echo_model |}.
Definition say (s : string) : Envelope := NewEnvelope 1 (GStr s).
Definition no_render (_ : GoVal) : string := "".

#[local] Existing Instance word_gate.

Definition after_two : StreamSystem nat nat :=
  {| sy_gate := 4; sy_world := 2; sy_final := Some (llm_output "echo" 7 "hello!"); sy_open := [];
     sy_received := [[chunk "my secret"; chunk "!"; {| ck_Text := ""; ck_Err := Some (post_denied "echo" (EText "leak")) |}];
                     [chunk "hello"; chunk "!"]] |}.

(** Two streams opened together: the first is approved, the second denied. *)
Lemma after_two_reachable : stream_reach no_render no_render echo_action 0 0 after_two.
Proof.
  eapply rtc_l; [apply (SOpen _ _ _ None ∅ (say "hello")); reflexivity|].
  eapply rtc_l; [apply (SOpen _ _ _ None ∅ (say "my secret")); reflexivity|].
  eapply rtc_l; [eapply (SFinish _ _ _ None (fun _ => true) 7); [cbn [sy_open]; apply perm_swap|reflexivity]|].
  eapply rtc_l; [eapply (SFinish _ _ _ None (fun _ => true) 8); [cbn [sy_open]; reflexivity|reflexivity]|].
  apply rtc_refl.
Qed.

Lemma stream_outcome_witness :
  unbroken [chunk "hello"; chunk "!"] /\
  stream_run None echo_action (fun _ => true) 7 [chunk "hello"; chunk "!"] None 2
  = Some (3, Some (llm_output "echo" 7 "hello!"), [chunk "hello"; chunk "!"]).
Proof.
  pose proof (stream_outcome None echo_action (fun _ => true) 7 [chunk "hello"; chunk "!"] None 2 3
    (Some (llm_output "echo" 7 "hello!")) [chunk "hello"; chunk "!"] eq_refl) as [(_ & H & _)|(H & _)]; done.
Defined.

Lemma no_generation_without_assessment_witness :
  exists e', sg_Assess None (llm_metadata "echo") (say "hello") 0 = Some (e', None).
Proof.
  eapply (no_generation_without_assessment no_render no_render None None echo_action ∅ 7 (say "hello") 0 0 1 1);
    [left; eexists; reflexivity|done].
Defined.

Lemma final_is_approved_witness :
  approved no_render no_render echo_action (llm_output "echo" 7 "hello!") /\
  delivered no_render no_render echo_action [chunk "my secret"; chunk "!"; error_chunk (post_denied "echo" (EText "leak"))].
Proof.
  destruct (final_is_approved no_render no_render echo_action 0 0 after_two after_two_reachable) as [Hf Hd].
  split; [exact (Hf _ eq_refl)|]. by apply Forall_cons in Hd as [Hd _].
Defined.

Lemma denied_stream_keeps_final_witness :
  exists final1 sent, stream_run None echo_action (fun _ => true) 8 [chunk "my secret"; chunk "!"] (Some (say "old")) 3
                      = Some (4, final1, sent) /\ FinalEnvelope final1 = (say "old", true).
Proof.
  destruct (denied_stream_keeps_final None echo_action (fun _ => true) 8 [chunk "my secret"; chunk "!"] (say "old") 3 4
    emptyEnvelope (EText "leak") ltac:(done) ltac:(by repeat constructor) eq_refl) as (f & s & H1 & H2 & _).
  exists f, s. done.
Defined.

Lemma stream_agrees_with_Execute_witness :
  stream_Execute no_render no_render None None echo_action ∅ 7 (say "hello") 0 0
  = Some (2, 1, (llm_output "echo" 7 "hello!", None)) /\
  exists e1, stream_open no_render no_render None echo_action ∅ (say "hello") 0 0 = Some (e1, 1, Ok [chunk "hello"; chunk "!"]) /\
    stream_run None echo_action (fun _ => true) 7 [chunk "hello"; chunk "!"] None e1
    = Some (2, Some (llm_output "echo" 7 "hello!"), [chunk "hello"; chunk "!"]).
Proof.
  split; [reflexivity|].
  apply (stream_agrees_with_Execute no_render no_render None None echo_action ∅ 7 (say "hello") 0 0 2 1
    (llm_output "echo" 7 "hello!") [chunk "hello"; chunk "!"] (fun _ => true) None); [reflexivity|done|by repeat constructor|].
  by intros prompt w2 text [= <-] [= <- <-].
Defined.
