(* ===== verification/Providers.v ===== *)
(** * Model providers

    [providers/google/{plugin,factory,embedder}.go],
    [providers/openai/{plugin,factory,embedder}.go]: the choice of a backend,
    the registration of models in Genkit's global registry, the translation
    of a Genkit request for OpenAI, and the client options the factories
    build.

    A Genkit model is a function of a request and a streaming callback.  The
    plugins of Genkit (what models a sandbox built from a plugin knows) and
    the OpenAI client are parameters; the environment is a function. *)
From S2P Require Import Prelude GoStrings CoreErrors CoreTypes Reflect Float64 Memory CircuitBreaker Generators Session AgentLoop Config ClientInit.
From Stdlib Require Import Ascii String.
Open Scope string_scope.

(** ** Requests of Genkit *)

Inductive GRole := GRUser | GRModel | GRSystem | GROther (role : string).

(** [ai.ModelRequest]: messages of text parts, and a configuration of any
    type. *)
Inductive RequestConfig := RCCommon (c : CommonConfig) | RCForeign (g : GoVal).
Record GenkitRequest := {
  gr_Messages : list (GRole * list string);
  gr_Config : option RequestConfig
}.

Definition drop_config (r : GenkitRequest) : GenkitRequest := {| gr_Messages := gr_Messages r; gr_Config := None |}.

(** ** Google *)

Record GoogleConfig := {
  gg_APIKey : string;
  gg_ModelName : string;
  gg_Project : string;
  gg_Location : string;
  gg_APIVersion : string;
  gg_BaseURL : string;
  gg_Platform : string
}.

Inductive GooglePlugin :=
| PGoogleAI (apiKey apiVersion baseURL : string)
| PVertexExpress (apiKey apiVersion baseURL : string)
| PVertexProject (project location apiVersion baseURL : string).

Definition isVertex (unicode_lower : string -> string) (c : GoogleConfig) : bool :=
  let p := to_lower unicode_lower (trim_space (gg_Platform c)) in
  if String.eqb p "vertex" || String.eqb p "vertexai" || String.eqb p "vertex_express" then true
  else if String.eqb p "googleai" || String.eqb p "google" || String.eqb p "gemini" then false
  else negb (String.eqb (gg_Project c) "").

Definition expressVertex (unicode_lower : string -> string) (c : GoogleConfig) : bool :=
  isVertex unicode_lower c && String.eqb (gg_Project c) "".

(** The first non-empty of a value and environment variables. *)
Fixpoint env_fallback (getenv : string -> string) (v : string) (names : list string) : string :=
  match names with
  | [] => v
  | n :: rest => if String.eqb v "" then env_fallback getenv (getenv n) rest else v
  end.

(** An option whose value is not a string counts as absent. *)
Definition ConfigFromOpts (getenv : string -> string) (opts : Options) : res error GoogleConfig :=
  let str k := trim_space (option_string opts k) in
  let key := env_fallback getenv (str "api_key") ["GOOGLE_API_KEY"] in
  if String.eqb key "" then Err (EText "google factory: missing 'api_key'")
  else Ok {| gg_APIKey := key;
             gg_ModelName := if String.eqb (str "model") "" then "gemini-1.5-flash" else str "model";
             gg_Project := str "project"; gg_Location := str "location"; gg_APIVersion := str "api_version";
             gg_BaseURL := str "base_url"; gg_Platform := str "platform" |}.

Section Google.
Context {W : Type} (unicode_lower : string -> string) (getenv : string -> string).

(** A model, and the registry's models by name. *)
Definition StreamCallback : Type := string -> W -> W * option error.
Definition GModel : Type := GenkitRequest -> option StreamCallback -> W -> W * res error ModelResponse.
Abbreviation GenkitModels := (gmap string GModel).

(** [genkit.Init] with a plugin, then [genkit.LookupModel] on the sandbox. *)
Context (sandbox : GooglePlugin -> option (string -> option GModel)).
(** The logger's effect; it may be nil. *)
Context (warn : option (string -> W -> W)).

(** [registerProxy]: the model registered under the global name.  (The code
    clears the configuration in the request it was handed; here the request is
    a value, and its caller keeps its own.) *)
Definition proxy_model (modelName : string) (real : GModel) : GModel := fun req cb w =>
  match gr_Config req with
  | Some _ =>
      let w := match warn with
               | Some f => f ("google proxy dropping GenerationConfig; upstream plugin rejects config on proxied models: "
                              +:+ modelName) w
               | None => w
               end in
      real (drop_config req) cb w
  | None => real req cb w
  end.

Definition registerProxy (globalName modelName : string) (real : GModel) (g : GenkitModels) : GenkitModels :=
  <[globalName := proxy_model modelName real]> g.

(** The common end of both backends: look the model up in the sandbox, with
    and without the backend's prefix, and register a proxy unless the global
    name is taken. *)
Definition resolve (look : string -> option GModel) (prefix modelName notFound : string) (g : GenkitModels)
  : GenkitModels * res error string :=
  match (match look modelName with Some m => Some m | None => look (prefix +:+ modelName) end) with
  | None => (g, Err (EText notFound))
  | Some real =>
      let globalName := prefix +:+ modelName in
      match g !! globalName with
      | Some _ => (g, Ok globalName)
      | None => (registerProxy globalName modelName real g, Ok globalName)
      end
  end.

Definition registerVertex (cfg : GoogleConfig) (plugin : GooglePlugin) (g : GenkitModels) : GenkitModels * res error string :=
  match sandbox plugin with
  | None => (g, Err (EText "failed to init local genkit sandbox for vertex ai"))
  | Some look =>
      resolve look "vertexai/" (gg_ModelName cfg)
        ("model '" +:+ gg_ModelName cfg +:+ "' not found in vertex ai plugin (project=" +:+ go_quote (gg_Project cfg)
         +:+ ", express=" +:+ go_bool_text (expressVertex unicode_lower cfg) +:+ ")") g
  end.

Definition vertex_location (cfg : GoogleConfig) : string :=
  let l := env_fallback getenv (gg_Location cfg) ["GOOGLE_CLOUD_LOCATION"; "GOOGLE_CLOUD_REGION"] in
  if String.eqb l "" then "us-central1" else l.

Definition initVertexAI (cfg : GoogleConfig) (g : GenkitModels) : GenkitModels * res error string :=
  if expressVertex unicode_lower cfg then
    let key := env_fallback getenv (gg_APIKey cfg) ["GOOGLE_CLOUD_API_KEY"] in
    if String.eqb key "" then
      (g, Err (EText "google provider: Vertex Express Mode needs an API key (cfg.APIKey or GOOGLE_CLOUD_API_KEY) or a Project"))
    else registerVertex cfg (PVertexExpress key (gg_APIVersion cfg) (gg_BaseURL cfg)) g
  else registerVertex cfg (PVertexProject (gg_Project cfg) (vertex_location cfg) (gg_APIVersion cfg) (gg_BaseURL cfg)) g.

Definition InitWithConfig (cfg : GoogleConfig) (g : GenkitModels) : GenkitModels * res error string :=
  if isVertex unicode_lower cfg then initVertexAI cfg g
  else
    let key := env_fallback getenv (gg_APIKey cfg) ["GOOGLE_API_KEY"] in
    if String.eqb key "" then (g, Err (EText "google provider: API Key is required"))
    else match sandbox (PGoogleAI key (gg_APIVersion cfg) (gg_BaseURL cfg)) with
         | None => (g, Err (EText "failed to init local genkit sandbox for google"))
         | Some look =>
             resolve look "googleai/" (gg_ModelName cfg)
               ("model '" +:+ gg_ModelName cfg +:+ "' not found in local google plugin") g
         end.

(** [Init]. *)
Definition google_Init (apiKey modelName : string) (g : GenkitModels) : GenkitModels * res error string :=
  InitWithConfig {| gg_APIKey := apiKey; gg_ModelName := modelName; gg_Project := ""; gg_Location := "";
                    gg_APIVersion := ""; gg_BaseURL := ""; gg_Platform := "" |} g.
End Google.
Arguments GModel W : clear implicits.

(** ** OpenAI *)

Record OAIMessage := { om_Role : string; om_Content : string }.
Record OAIRequest := {
  oa_Model : string;
  oa_Messages : list OAIMessage;
  oa_Temperature : float32;
  oa_MaxTokens : Z;
  oa_TopP : float32;
  oa_Stop : list string;
  oa_IncludeUsage : bool
}.

Definition oai_role (r : GRole) : string :=
  match r with GRModel => "assistant" | GRSystem => "system" | GRUser | GROther _ => "user" end.

Definition parts_text (parts : list string) : string := foldl (fun acc p => acc +:+ p) "" parts.

Definition buildChatCompletionRequest (model : string) (req : GenkitRequest) : OAIRequest :=
  let set32 x := if f_eq x f_zero then f_zero else to_f32 x in
  let c := match gr_Config req with Some (RCCommon c) => Some c | _ => None end in
  {| oa_Model := model;
     oa_Messages := map (fun '(r, parts) => {| om_Role := oai_role r; om_Content := parts_text parts |}) (gr_Messages req);
     oa_Temperature := match c with Some c => set32 (cc_Temperature c) | None => f_zero end;
     oa_MaxTokens := match c with Some c => cc_MaxOutputTokens c | None => 0 end;
     oa_TopP := match c with Some c => set32 (cc_TopP c) | None => f_zero end;
     oa_Stop := [];
     oa_IncludeUsage := false |}.

Definition include_usage (r : OAIRequest) : OAIRequest :=
  {| oa_Model := oa_Model r; oa_Messages := oa_Messages r; oa_Temperature := oa_Temperature r;
     oa_MaxTokens := oa_MaxTokens r; oa_TopP := oa_TopP r; oa_Stop := oa_Stop r; oa_IncludeUsage := true |}.

(** What a streaming response's [Recv] yields, in order; the end of the list
    is [io.EOF]. *)
Inductive Delta := DResp (choices : list string) (usage : option Usage) | DErr (e : error).

Section OpenAI.
Context {W : Type} (getenv : string -> string).
(** [CreateChatCompletion] and [CreateChatCompletionStream] of a client with
    this key and base URL. *)
Context (completion : string * string -> OAIRequest -> W -> W * res error ChatResponse)
        (completion_stream : string * string -> OAIRequest -> W -> W * res error (list Delta)).

Definition no_usage : Usage := {| us_Input := 0; us_Output := 0; us_Total := 0 |}.

(** The receive loop of [generateStream]. *)
Fixpoint stream_loop (cb : StreamCallback) (aggregated : string) (usage : Usage) (l : list Delta) (w : W)
  : W * res error ModelResponse :=
  match l with
  | [] => (w, Ok {| mr_Text := aggregated; mr_Usage := Some usage |})
  | DErr e :: _ => (w, Err (EWrap "openai stream error: " e))
  | DResp choices u :: rest =>
      let usage := default usage u in
      match choices with
      | delta :: _ =>
          if String.eqb delta "" then stream_loop cb aggregated usage rest w
          else
            let '(w1, err) := cb delta w in
            match err with
            | Some e => (w1, Err (EWrap "openai stream callback error: " e))
            | None => stream_loop cb (aggregated +:+ delta) usage rest w1
            end
      | [] => stream_loop cb aggregated usage rest w
      end
  end.

Definition generateStream (client : string * string) (req : OAIRequest) (cb : StreamCallback) (w : W)
  : W * res error ModelResponse :=
  let '(w1, r) := completion_stream client (include_usage req) w in
  match r with
  | Err e => (w1, Err (EWrap "openai stream request error: " e))
  | Ok l => stream_loop cb "" no_usage l w1
  end.

(** [generate], the function registered with Genkit. *)
Definition openai_model (client : string * string) (modelID : string) : GModel W := fun req cb w =>
  let oai := buildChatCompletionRequest modelID req in
  match cb with
  | Some cb => generateStream client oai cb w
  | None =>
      let '(w1, r) := completion client oai w in
      (w1, match r with
           | Err e => Err (EWrap "openai completion error: " e)
           | Ok m =>
               match ch_Choices m with
               | [] => Err (EText "openai returned no choices")
               | c :: _ => Ok {| mr_Text := c; mr_Usage := Some {| us_Input := ch_Prompt m; us_Output := ch_Completion m;
                                                                   us_Total := ch_Total m |} |}
               end
           end)
  end.

(** [Init] of the plugin. *)
Definition openai_Init (modelID apiKey baseURL : string) (g : gmap string (GModel W))
  : gmap string (GModel W) * option error :=
  let key := env_fallback getenv apiKey ["OPENAI_API_KEY"] in
  if String.eqb key "" && String.eqb baseURL "" then
    (g, Some (EText "openai provider: API Key is missing and no BaseURL provided"))
  else (<["openai/" +:+ modelID := openai_model (key, baseURL) modelID]> g, None).
End OpenAI.

(** ** Client options *)

Section Options.
Context {E : Type} `{!ClientEngine E} `{GoRange} {Hist Rag Other Provider W : Type}.
Abbreviation ModelClient := (@CState E Hist Rag Other Provider string).

(** [NewGenkitAction]: the model must be registered; the action carries its
    name. *)
Definition NewGenkitAction (g : gmap string (GModel W)) (modelName : string) : res error CAction :=
  match g !! modelName with
  | None => Err (EText ("genkit model not found: " +:+ modelName))
  | Some _ => Ok (Plain {| am_Name := modelName; am_Type := "llm"; am_InputContentType := ""; am_InputType := "";
                           am_OutputType := ""; am_IsDynamic := false |})
  end.

(** Steps 3 to 5 of the [Enable] functions; a generator is known by the name
    of its model, and an [LLMAction] is always a [TextGenerator]. *)
Definition install_model (pre : string) (g : gmap string (GModel W)) (modelName actionName : string) (c : ModelClient)
  : ModelClient * option error :=
  match NewGenkitAction g modelName with
  | Err e => (c, Some (EWrap (pre +:+ " failed to create action: ") e))
  | Ok action =>
      let c := SetLLM (Some modelName) c in
      (if String.eqb actionName "" then c else client_RegisterAction actionName action c, None)
  end.

Context (unicode_lower : string -> string) (getenv : string -> string)
        (sandbox : GooglePlugin -> option (string -> option (GModel W))) (warn : option (string -> W -> W))
        (completion : string * string -> OAIRequest -> W -> W * res error ChatResponse)
        (completion_stream : string * string -> OAIRequest -> W -> W * res error (list Delta)).

(** [google.EnableWithConfig]; the registry is Genkit's global one. *)
Definition google_EnableWithConfig (cfg : GoogleConfig) (actionName : string) (g : gmap string (GModel W)) (c : ModelClient)
  : gmap string (GModel W) * (ModelClient * option error) :=
  let '(g1, r) := InitWithConfig unicode_lower getenv sandbox warn cfg g in
  (g1, match r with
       | Err e => (c, Some (EWrap "google.EnableWithConfig failed to init plugin: " e))
       | Ok wired => install_model "google.EnableWithConfig" g1 wired actionName c
       end).

Definition google_Enable (apiKey modelName actionName : string) (g : gmap string (GModel W)) (c : ModelClient)
  : gmap string (GModel W) * (ModelClient * option error) :=
  let '(g1, r) := google_Init unicode_lower getenv sandbox warn apiKey modelName g in
  (g1, match r with
       | Err e => (c, Some (EWrap "google.Enable failed to init plugin: " e))
       | Ok wired => install_model "google.Enable" g1 wired actionName c
       end).

Definition google_Factory (opts : Options)
  : res error (gmap string (GModel W) -> ModelClient -> gmap string (GModel W) * (ModelClient * option error)) :=
  match ConfigFromOpts getenv opts with
  | Err e => Err e
  | Ok cfg => Ok (google_EnableWithConfig cfg (option_string opts "_action_name"))
  end.

Definition openai_Enable (apiKey modelName baseURL actionName : string) (g : gmap string (GModel W)) (c : ModelClient)
  : gmap string (GModel W) * (ModelClient * option error) :=
  let '(g1, err) := openai_Init getenv completion completion_stream modelName apiKey baseURL g in
  (g1, match err with
       | Some e => (c, Some (EWrap "openai.Enable failed to init plugin: " e))
       | None => install_model "openai.Enable" g1 ("openai/" +:+ modelName) actionName c
       end).

Definition openai_Factory (opts : Options)
  : res error (gmap string (GModel W) -> ModelClient -> gmap string (GModel W) * (ModelClient * option error)) :=
  let get := option_string opts in
  let key := env_fallback getenv (get "api_key") ["OPENAI_API_KEY"] in
  if String.eqb key "" && String.eqb (get "base_url") "" then
    Err (EText "openai factory: missing 'api_key' (or 'base_url' for local setup)")
  else Ok (openai_Enable key (if String.eqb (get "model") "" then "gpt-4o" else get "model") (get "base_url")
                         (get "_action_name")).
End Options.

(** ** Embedders *)

Definition google_Dimension (model : string) : Z := 768.
Definition openai_Dimension (model : string) : Z :=
  if String.eqb model "text-embedding-3-large" then 3072
  else if String.eqb model "text-embedding-3-small" || String.eqb model "text-embedding-ada-002" then 1536
  else 0.

(** An embedder: the client it was built with and its model.  A client of
    OpenAI is its key and base URL ([""] for the default); the one of Google
    is whatever [genai.NewClient] returns. *)
Record Embedder (Cl : Type) := { eb_client : Cl; eb_model : string }.
Arguments Build_Embedder {Cl} _ _.
Arguments eb_client {Cl} _.
Arguments eb_model {Cl} _.

Definition openai_NewEmbedder (apiKey baseURL modelName : string) : Embedder (string * string) :=
  {| eb_client := (apiKey, baseURL); eb_model := if String.eqb modelName "" then "text-embedding-3-small" else modelName |}.

Definition google_NewEmbedder {Cl : Type} (newClient : string -> res error Cl) (apiKey modelName : string) : res error (Embedder Cl) :=
  match newClient apiKey with
  | Err e => Err (EWrap "failed to create google genai client: " e)
  | Ok c => Ok {| eb_client := c; eb_model := if String.eqb modelName "" then "embedding-001" else modelName |}
  end.

Section Embedding.
Context {W Vec Cl : Type}.
(** [CreateEmbeddings], [EmbedContent] (whose embedding may be nil) and
    [BatchEmbedContents] of the services. *)
Context (CreateEmbeddings : string * string -> string -> list string -> W -> W * res error (list Vec)).
Context (EmbedContent : Cl -> string -> string -> W -> W * res error (option Vec)).
Context (BatchEmbedContents : Cl -> string -> list string -> W -> W * res error (list Vec)).

Definition no_embedding : error := EText "no embedding returned".

Definition openai_Embed (e : Embedder (string * string)) (text : string) (w : W) : W * res error Vec :=
  match CreateEmbeddings (eb_client e) (eb_model e) [text] w with
  | (w1, Err x) => (w1, Err (EWrap "openai embedding error: " x))
  | (w1, Ok []) => (w1, Err no_embedding)
  | (w1, Ok (v :: _)) => (w1, Ok v)
  end.

Definition openai_EmbedBatch (e : Embedder (string * string)) (texts : list string) (w : W) : W * res error (list Vec) :=
  match CreateEmbeddings (eb_client e) (eb_model e) texts w with
  | (w1, Err x) => (w1, Err (EWrap "openai batch embedding error: " x))
  | (w1, Ok vs) => (w1, Ok vs)
  end.

Definition google_Embed (e : Embedder Cl) (text : string) (w : W) : W * res error Vec :=
  match EmbedContent (eb_client e) (eb_model e) text w with
  | (w1, Err x) => (w1, Err x)
  | (w1, Ok None) => (w1, Err no_embedding)
  | (w1, Ok (Some v)) => (w1, Ok v)
  end.

Definition google_EmbedBatch (e : Embedder Cl) (texts : list string) (w : W) : W * res error (list Vec) :=
  BatchEmbedContents (eb_client e) (eb_model e) texts w.
End Embedding.
