(* ===== verification/ProvidersProps.v ===== *)
(** * Properties of the model providers

    Which backend a configuration selects and what it needs; registrations
    are never replaced; what reaches the model; streaming and the assembled
    answer; provider actions enter the client unguarded. *)
From S2P Require Import Prelude GoStrings CoreErrors CoreTypes Reflect Float64 Memory CircuitBreaker Generators Session AgentLoop Config ClientInit ClientInitProps Providers.
From Stdlib Require Import Ascii String.
Open Scope string_scope.

(** ** Google *)

(** The configuration with another API key. *)
Definition with_key (k : string) (c : GoogleConfig) : GoogleConfig :=
  {| gg_APIKey := k; gg_ModelName := gg_ModelName c; gg_Project := gg_Project c; gg_Location := gg_Location c;
     gg_APIVersion := gg_APIVersion c; gg_BaseURL := gg_BaseURL c; gg_Platform := gg_Platform c |}.

(** A Vertex project in [mangle.yaml] needs a key that it never uses:
    initialising a Vertex project does not depend on the API key, yet the
    factory refuses any options without [api_key] when [GOOGLE_API_KEY] is
    not set, whatever project or platform they select; a key that is not a
    string in the configuration counts as none. *)
Theorem vertex_options_need_unused_key {W : Type} lower getenv (sandbox : GooglePlugin -> option (string -> option (GModel W)))
    warn :
  (forall cfg k g, isVertex lower cfg = true -> gg_Project cfg <> "" ->
     InitWithConfig lower getenv sandbox warn (with_key k cfg) g = InitWithConfig lower getenv sandbox warn cfg g) /\
  (forall opts, option_string opts "api_key" = "" -> getenv "GOOGLE_API_KEY" = "" ->
     ConfigFromOpts getenv opts = Err (EText "google factory: missing 'api_key'")).
Proof.
  split.
  - intros cfg k g Hv Hp. unfold InitWithConfig.
    assert (isVertex lower (with_key k cfg) = isVertex lower cfg) as -> by done. rewrite Hv.
    unfold initVertexAI, expressVertex. assert (isVertex lower (with_key k cfg) = isVertex lower cfg) as -> by done.
    cbn [with_key gg_Project]. destruct (String.eqb_spec (gg_Project cfg) ""); [done|]. by rewrite andb_false_r.
  - intros opts Ho He. unfold ConfigFromOpts. rewrite Ho. cbn [env_fallback String.eqb trim_space]. by rewrite He.
Qed.

Section Google.
Context {W : Type} (lower getenv : string -> string) (sandbox : GooglePlugin -> option (string -> option (GModel W)))
        (warn : option (string -> W -> W)).

(** What a registration may do: nothing, or one new name, bound to a proxy
    of a model that some sandbox knows. *)
Definition registers (g : gmap string (GModel W)) (out : gmap string (GModel W) * res error string) : Prop :=
  fst out = g \/
  exists name model real, g !! name = None /\ snd out = Ok name /\ fst out = <[name := proxy_model warn model real]> g.

Lemma resolve_registers look prefix model e g : registers g (resolve warn look prefix model e g).
Proof.
  unfold resolve. destruct (match look model with Some m => Some m | None => look (prefix +:+ model) end) as [real|]; [|by left].
  destruct (g !! (prefix +:+ model)) eqn:Hg; [by left|]. right. by exists (prefix +:+ model), model, real.
Qed.

Lemma init_registers cfg g : registers g (InitWithConfig lower getenv sandbox warn cfg g).
Proof.
  unfold InitWithConfig, initVertexAI, registerVertex.
  repeat case_match; try (by left); apply resolve_registers.
Qed.

(** The first registration of a model wins: initialising a provider never
    replaces a registered model, so a second configuration for the same model
    (another key, another endpoint) is accepted and leaves every call on the
    credentials of the first. *)
Theorem registered_model_kept cfg g name m :
  g !! name = Some m ->
  fst (InitWithConfig lower getenv sandbox warn cfg g) !! name = Some m /\
  (snd (InitWithConfig lower getenv sandbox warn cfg g) = Ok name -> fst (InitWithConfig lower getenv sandbox warn cfg g) = g).
Proof.
  intros Hm. destruct (init_registers cfg g) as [Hg|(n & model & real & Hn & Hok & Hg)]; rewrite Hg; [done|].
  destruct (decide (name = n)) as [->|Hne]; [congruence|]. rewrite lookup_insert_ne by done. rewrite Hok.
  split; [done|]. congruence.
Qed.

(** Generation settings do not reach a Google model: through a proxy, a
    request is answered as the request without configuration, but for the
    warning that is logged. *)
Theorem proxy_ignores_settings model (real : GModel W) req cb w :
  proxy_model None model real req cb w = real (drop_config req) cb w /\
  exists w', proxy_model warn model real req cb w = real (drop_config req) cb w'.
Proof.
  assert (gr_Config req = None -> drop_config req = req) as Hd.
  { destruct req as [m c]. cbn. intros ->. done. }
  unfold proxy_model. destruct (gr_Config req) as [c|]; split; eauto; rewrite Hd by done; eauto.
Qed.
End Google.

(** ** OpenAI *)

(** The translated request keeps the conversation: one message per
    message, in order, each with its role and the concatenation of its text
    parts, for the plain model id; but stop sequences are dropped: requests
    that differ in them alone are sent identically. *)
Theorem openai_request_faithful model msgs c stops :
  let req := {| gr_Messages := msgs; gr_Config := Some (RCCommon c) |} in
  let r := buildChatCompletionRequest model req in
  oa_Model r = model /\
  oa_Messages r = map (fun '(role, parts) => {| om_Role := oai_role role; om_Content := String.concat "" parts |}) msgs /\
  oa_MaxTokens r = cc_MaxOutputTokens c /\
  r = buildChatCompletionRequest model
        {| gr_Messages := msgs;
           gr_Config := Some (RCCommon {| cc_Temperature := cc_Temperature c; cc_MaxOutputTokens := cc_MaxOutputTokens c;
                                          cc_TopP := cc_TopP c; cc_StopSequences := stops |}) |}.
Proof.
  cbn zeta. split_and!; [done| |done|done]. cbn [buildChatCompletionRequest oa_Messages gr_Messages].
  apply map_ext. intros [role parts]. f_equal. unfold parts_text.
  assert (forall acc, foldl (fun acc p => acc +:+ p) acc parts = acc +:+ String.concat "" parts) as Hf; [|by rewrite Hf].
  induction parts as [|p parts IH]; intros acc; cbn [foldl]; [by rewrite str_app_nil_r|].
  rewrite IH. destruct parts as [|q parts]; cbn [String.concat]; [by rewrite str_app_nil_r|].
  change ("" +:+ ?x) with x. by rewrite str_app_assoc.
Qed.

(** The deltas a stream carries, and its last usage report. *)
Definition delta_texts (l : list Delta) : list string :=
  omap (fun d => match d with DResp (c :: _) _ => if String.eqb c "" then None else Some c | _ => None end) l.
Definition last_usage (u : Usage) (l : list Delta) : Usage :=
  foldl (fun u d => match d with DResp _ (Some v) => v | _ => u end) u l.

Definition no_error (l : list Delta) : Prop := Forall (fun d => match d with DErr _ => False | _ => True end) l.

Lemma stream_loop_text {W : Type} (cb : StreamCallback (W := W)) acc u l w :
  (forall t w, snd (cb t w) = None) -> no_error l ->
  stream_loop cb acc u l w
  = (foldl (fun w t => fst (cb t w)) w (delta_texts l),
     Ok {| mr_Text := acc +:+ String.concat "" (delta_texts l); mr_Usage := Some (last_usage u l) |}).
Proof.
  intros Hcb. revert acc u w. induction l as [|d l IH]; intros acc u w Hl; cbn [stream_loop].
  - cbn. by rewrite str_app_nil_r.
  - apply Forall_cons in Hl as [Hd Hl]. destruct d as [choices v|e]; [|done].
    assert (last_usage (default u v) l = last_usage u (DResp choices v :: l)) as Hu by (by destruct v).
    destruct choices as [|c choices]; [by rewrite IH, Hu|].
    destruct (String.eqb c "") eqn:Hc.
    + rewrite IH, Hu by done. unfold delta_texts. cbn [omap list_omap]. by rewrite Hc.
    + assert (delta_texts (DResp (c :: choices) v :: l) = c :: delta_texts l) as -> by (unfold delta_texts; cbn; by rewrite Hc).
      pose proof (Hcb c w) as He. destruct (cb c w) as [w1 e] eqn:Hw. cbn [snd] in He. subst e.
      rewrite IH, Hu by done. cbn [foldl]. rewrite Hw. cbn [fst]. do 3 f_equal. rewrite <- str_app_assoc. f_equal.
      destruct (delta_texts l) as [|t ts]; cbn [String.concat]; [by rewrite str_app_nil_r|done].
Qed.

(** A streamed answer is the complete answer: when the callback takes
    every chunk and the stream does not fail, the callback has seen exactly
    the non-empty deltas in order, the response's text is their
    concatenation, and its usage is the last one reported. *)
Theorem openai_stream_assembles {W : Type} completion completion_stream client modelID req
    (cb : StreamCallback (W := W)) w w1 l :
  completion_stream client (include_usage (buildChatCompletionRequest modelID req)) w = (w1, Ok l) ->
  (forall t w, snd (cb t w) = None) -> no_error l ->
  openai_model completion completion_stream client modelID req (Some cb) w
  = (foldl (fun w t => fst (cb t w)) w1 (delta_texts l),
     Ok {| mr_Text := String.concat "" (delta_texts l); mr_Usage := Some (last_usage no_usage l) |}).
Proof.
  intros Hs Hcb Hl. unfold openai_model, generateStream. rewrite Hs. by rewrite stream_loop_text.
Qed.

(** ** Provider actions *)

Section Client.
Context {E : Type} `{!ClientEngine E} `{GoRange} {Hist Rag Other Provider W : Type}.
Abbreviation ModelClient := (@CState E Hist Rag Other Provider string).

Lemma install_model_raw pre g model action (c c' : ModelClient) :
  action <> "" -> install_model (W := W) pre g model action c = (c', None) ->
  exists meta, cs_registry c' !! action = Some (Plain meta).
Proof.
  intros Ha. unfold install_model, NewGenkitAction. destruct (g !! model); [|done].
  destruct (String.eqb_spec action ""); [done|]. intros [= <-]. eexists.
  unfold client_RegisterAction. cbn [SetLLM set_llm upd cs_engine set_registry].
  destruct (cs_engine c); [|apply lookup_insert_eq].
  unfold on_engine. cbn. repeat case_match; apply lookup_insert_eq.
Qed.

(** A model configured as an action enters the registry without the
    supervisor: after either provider's option, whatever engine the client
    has, the action registered under its name is the bare model action and
    not a supervised one. *)
Theorem provider_actions_unsupervised lower getenv sandbox warn completion completion_stream opts name
    (g g' : gmap string (GModel W)) (c c' : ModelClient) f :
  name <> "" -> option_string opts "_action_name" = name ->
  google_Factory lower getenv sandbox warn opts = Ok f \/ openai_Factory getenv completion completion_stream opts = Ok f ->
  f g c = (g', (c', None)) ->
  exists meta, cs_registry c' !! name = Some (Plain meta).
Proof.
  intros Hn Ho Hf Hrun. destruct Hf as [Hf|Hf].
  - unfold google_Factory in Hf. destruct (ConfigFromOpts getenv opts) as [cfg|]; [|done]. rewrite Ho in Hf. injection Hf as <-.
    unfold google_EnableWithConfig in Hrun.
    destruct (InitWithConfig _ _ _ _ cfg g) as [g1 [wired|e]]; [|done]. injection Hrun as _ Hi.
    by eapply install_model_raw.
  - unfold openai_Factory in Hf. destruct (_ && _); [done|]. injection Hf as <-. rewrite Ho in Hrun.
    unfold openai_Enable in Hrun.
    destruct (openai_Init _ _ _ _ _ _ g) as [g1 [e|]]; [done|]. injection Hrun as _ Hi. by eapply install_model_raw.
Qed.
End Client.

(** ** Concrete runs *)

Definition any_model : GModel (list string) := fun req _ w => (w, Ok {| mr_Text := "ok"; mr_Usage := None |}).
Definition any_sandbox (_ : GooglePlugin) : option (string -> option (GModel (list string))) := Some (fun _ => Some any_model).
Definition no_env (_ : string) : string := "".
Definition gemini (key : string) : GoogleConfig :=
  {| gg_APIKey := key; gg_ModelName := "gemini"; gg_Project := ""; gg_Location := ""; gg_APIVersion := ""; gg_BaseURL := "";
     gg_Platform := "" |}.

Lemma registered_model_kept_witness :
  let g := {["googleai/gemini" := any_model]} in
  fst (InitWithConfig id no_env any_sandbox None (gemini "second-key") g) = g.
Proof.
  intros g. apply (registered_model_kept id no_env any_sandbox None (gemini "second-key") g "googleai/gemini" any_model);
    [apply lookup_insert_eq|reflexivity].
Defined.

(** A stream of two deltas, read by a callback that records them. *)
Definition hello_stream : list Delta :=
  [DResp ["Hel"] None; DResp [""] None; DResp ["lo"] (Some {| us_Input := 3; us_Output := 2; us_Total := 5 |}); DResp [] None].
Definition recorder : StreamCallback (W := list string) := fun t w => ((w ++ [t])%list, None).

Lemma openai_stream_assembles_witness :
  openai_model (fun _ _ w => (w, Err (EText "unused"))) (fun _ _ w => (w, Ok hello_stream)) ("k", "") "gpt-4o"
    {| gr_Messages := [(GRUser, ["hi"])]; gr_Config := None |} (Some recorder) []
  = (["Hel"; "lo"], Ok {| mr_Text := "Hello"; mr_Usage := Some {| us_Input := 3; us_Output := 2; us_Total := 5 |} |}).
Proof.
  apply (openai_stream_assembles (fun _ _ w => (w, Err (EText "unused"))) (fun _ _ w => (w, Ok hello_stream)) ("k", "") "gpt-4o"
    {| gr_Messages := [(GRUser, ["hi"])]; gr_Config := None |} recorder [] [] hello_stream);
    [reflexivity|done|by repeat constructor].
Defined.

Definition chat_opts : Options := {["_action_name" := GStr "chat"; "api_key" := GStr "k"]}.
Definition no_answer : string * string -> OAIRequest -> list string -> list string * res error ChatResponse :=
  fun _ _ w => (w, Err (EText "")).
Definition no_stream : string * string -> OAIRequest -> list string -> list string * res error (list Delta) :=
  fun _ _ w => (w, Err (EText "")).
Definition fresh_client : @CState (list string) unit unit unit unit string :=
  set_engine (Some 0) (blank_client tt tt {[0 := []]} 1).

Lemma provider_actions_unsupervised_witness :
  match @google_Factory (list string) logging unit unit unit unit (list string) id no_env any_sandbox None chat_opts with
  | Ok f => let '(_, (c', err)) := f ∅ fresh_client in
            err = None /\ exists meta, cs_registry c' !! "chat" = Some (Plain meta)
  | Err _ => False
  end.
Proof.
  destruct (@google_Factory (list string) logging unit unit unit unit (list string) id no_env any_sandbox None chat_opts)
    as [f|e] eqn:Hf; [|by vm_compute in Hf].
  destruct (f ∅ fresh_client) as [g' [c' err]] eqn:Hrun.
  assert (err = None) as ->.
  { change err with (snd (snd (g', (c', err)))). rewrite <- Hrun. revert Hf. clear. intros [= <-]. by_vm. }
  split; [done|].
  exact (@provider_actions_unsupervised _ logging _ _ _ _ _ id no_env any_sandbox None no_answer no_stream chat_opts "chat"
    ∅ g' fresh_client c' f ltac:(done) eq_refl (or_introl Hf) Hrun).
Defined.

(** ** Embedders *)

(** A single embedding is a batch of one: over OpenAI, [Embed] returns
    exactly the first vector of the batch of that text, and fails exactly when
    the batch fails or is empty. *)
Theorem embed_is_batch_of_one {W Vec : Type} create (e : Embedder (string * string)) (text : string) (w : W) :
  let '(w1, one) := @openai_Embed W Vec create e text w in
  let '(w2, batch) := @openai_EmbedBatch W Vec create e [text] w in
  w1 = w2 /\
  match one with
  | Ok v => exists vs, batch = Ok (v :: vs)
  | Err x => batch = Ok [] /\ x = no_embedding \/
             exists y, batch = Err (EWrap "openai batch embedding error: " y) /\ x = EWrap "openai embedding error: " y
  end.
Proof.
  unfold openai_Embed, openai_EmbedBatch. destruct (create (eb_client e) (eb_model e) [text] w) as [w1 [[|v vs]|x]].
  - split; [done|]. by left.
  - split; [done|]. by exists vs.
  - split; [done|]. right. by exists x.
Qed.

(** The vectors of a batch are not matched with its texts: whatever list the
    service answers with, of any length, both providers return. *)
Theorem batch_length_unchecked {W Vec Cl : Type} create batch (eo : Embedder (string * string)) (eg : Embedder Cl)
    (texts : list string) (w w' : W) (vs : list Vec) :
  create (eb_client eo) (eb_model eo) texts w = (w', Ok vs) -> batch (eb_client eg) (eb_model eg) texts w = (w', Ok vs) ->
  openai_EmbedBatch create eo texts w = (w', Ok vs) /\ google_EmbedBatch batch eg texts w = (w', Ok vs).
Proof. intros H1 H2. unfold openai_EmbedBatch, google_EmbedBatch. by rewrite H1, H2. Qed.

Lemma batch_length_unchecked_witness :
  openai_EmbedBatch (fun _ _ _ w => (w, Ok [3])) (openai_NewEmbedder "k" "" "") ["a"; "b"] 0 = (0, Ok [3]) /\
  google_EmbedBatch (fun (_ : unit) _ _ w => (w, Ok [3])) {| eb_client := tt; eb_model := "embedding-001" |} ["a"; "b"] 0 = (0, Ok [3]).
Proof.
  exact (batch_length_unchecked (fun _ _ _ w => (w, Ok [3])) (fun _ _ _ w => (w, Ok [3])) (openai_NewEmbedder "k" "" "")
    {| eb_client := tt; eb_model := "embedding-001" |} ["a"; "b"] 0 0 [3] eq_refl eq_refl).
Defined.
