(* ===== verification/Commands.v ===== *)
(** * The commands of mkit

    [cmd/mkit/commands/{eval,run,check,inspect}], [cmd/mkit/main.go] and
    [scenario/scenario.go]: evaluating a query against policy and data, batch
    inference, linting, inspection, the exit code of a run, and the scenario
    runner of CI gates.

    The engine is an interface ([EngineHost]); reading and writing files,
    [json.Unmarshal] and [os.Stat] are parameters; what a command prints is a
    value, JSON output being kept as the value that is marshalled.  [None] is
    a panic, or a value deeper than the fuel of [Flatten]. *)
From stdpp Require Import sorting.
From S2P Require Import Prelude GoStrings CoreErrors CoreTypes Facts Reflect Sources Datalog Runtime Solver Explain Load Knowledge.
From Stdlib Require Import Ascii String.
Open Scope string_scope.

(** ** Scenarios *)

Section Scenarios.
Context {W : Type}.

Record Scenario := {
  sc_Name : string;
  sc_Run : W -> W * option error;
  sc_WantBlocked : bool;
  sc_WantAllowed : bool
}.

Record ScenarioResult := { sr_Name : string; sr_Passed : bool; sr_Err : option error }.

Definition scenario_passed (s : Scenario) (err : option error) : bool :=
  if sc_WantBlocked s then bool_decide (is_Some err)
  else if sc_WantAllowed s then bool_decide (err = None)
  else bool_decide (err = None).

Fixpoint scenario_Run (l : list Scenario) (w : W) : W * list ScenarioResult :=
  match l with
  | [] => (w, [])
  | s :: rest =>
      let '(w1, err) := sc_Run s w in
      let '(w2, rs) := scenario_Run rest w1 in
      (w2, {| sr_Name := sc_Name s; sr_Passed := scenario_passed s err; sr_Err := err |} :: rs)
  end.

Definition result_line (r : ScenarioResult) : string :=
  "[" +:+ (if sr_Passed r then "PASS" else "FAIL") +:+ "] " +:+ sr_Name r
  +:+ match sr_Err r with Some e => ": " +:+ Error e | None => "" end.

(** [RunMain]: the lines printed and the exit code. *)
Definition RunMain (l : list Scenario) (w : W) : W * (list string * Z) :=
  let '(w1, rs) := scenario_Run l w in
  let failures := List.length (List.filter (fun r => negb (sr_Passed r)) rs) in
  (w1, if (0 <? failures)%nat
       then ((map result_line rs ++ [""; pretty (Z.of_nat failures) +:+ " scenario(s) FAILED."])%list, 1%Z)
       else ((map result_line rs ++ [""; "All scenarios passed."])%list, 0%Z)).
End Scenarios.
Arguments Scenario W : clear implicits.

(** ** Exit codes *)

(** [Execute] of [main.go] on the error of the command. *)
Definition main_exit (err : option error) : Z :=
  match err with
  | None => ExitSuccess
  | Some e =>
      let code := CodeFor err in
      if (code =? ExitRuntime)%Z && has_prefix (Error e) "unknown command" then ExitUsage else code
  end.

Definition flagErrorAsUsage (e : error) : error := EUsage e.

(** ** Tables *)

(** [strings.Repeat] of a byte. *)
Fixpoint repeat_byte (c : ascii) (n : nat) : string :=
  match n with O => "" | S n => String c (repeat_byte c n) end.

Definition pad (s : string) (width : nat) : string := s +:+ repeat_byte c_sp (width - String.length s).

Definition table_cols (results : list Solution) : list string :=
  sort_Strings (elements (union_list (map (fun r : Solution => dom r) results) : gset string)).

Definition table_cell (r : Solution) (c : string) : string := default "" (r !! c).

Definition col_width (results : list Solution) (c : string) : nat :=
  Nat.max (foldl (fun w r => Nat.max w (String.length (table_cell r c))) 0 results) (String.length c).

(** The lines of [printTable]. *)
Definition printTable (results : list Solution) : list string :=
  let cols := table_cols results in
  join " | " (map (fun c => pad c (col_width results c)) cols)
  :: join "-+-" (map (fun c => repeat_byte "-" (col_width results c)) cols)
  :: map (fun r => join " | " (map (fun c => pad (table_cell r c) (col_width results c)) cols)) results.

(** ** Queries that ask for a denial *)

(** [denyQueryRE]. *)
Definition deny_query (q : string) : bool :=
  let goal name := match strip_prefix name (skip_while re_space q) with
                   | Some rest => has_prefix (skip_while re_space rest) "("
                   | None => false
                   end in
  goal "halt" || goal "deny".

(** ** The engine and the outside *)

Class EngineHost (E : Type) := {
  eh_New : res error E;
  eh_LoadPolicy : string -> E -> E * option error;
  eh_LoadFacts : list string -> E -> E * option error;
  eh_Query : list string -> string -> E -> E * res error (list Solution);
  eh_Explain : list string -> string -> E -> E * res error Explanation
}.

(** What a command writes to its standard output: a line of text, or the
    indented JSON of a value. *)
Record DerivedFact := { df_Subject : string; df_Predicate : string; df_Object : string }.
Inductive Output :=
| OText (s : string)
| OJsonNull                                (* a nil slice *)
| OJsonRows (rows : list Solution)
| OJsonExplanation (e : Explanation)
| OJsonFacts (facts : list DerivedFact).

(** [cr_file] is what the command wrote to its output file. *)
Record CommandResult := {
  cr_stdout : list Output;
  cr_progress : list string;
  cr_file : list Output;
  cr_err : option error
}.
Definition cmd_fail (progress : list string) (e : error) : CommandResult :=
  {| cr_stdout := []; cr_progress := progress; cr_file := []; cr_err := Some e |}.
Definition cmd_done (progress : list string) (out : list Output) : CommandResult :=
  {| cr_stdout := out; cr_progress := progress; cr_file := []; cr_err := None |}.

Section Commands.
Context {E : Type} `{!EngineHost E}.
Context (unicode_lower : string -> string) (render : GoVal -> string).
(** [os.ReadFile], [json.Unmarshal] into an [any] (a heap and a value),
    [knowledge.ParseGraphFile], and whether a text is a number. *)
Context (readFile : string -> res error string) (unmarshal : string -> res error (Heap * GoVal))
        (parse_graph : string -> option (res error (list Triple))) (is_float : string -> bool)
        (fuel : nat).

(** A step of a command that may fail under a prefix. *)
Definition attempt {A : Type} (progress : list string) (pre : string) (r : res error A)
    (k : A -> option CommandResult) : option CommandResult :=
  match r with Err e => Some (cmd_fail progress (EWrap pre e)) | Ok a => k a end.

Definition on_host (f : E -> E * option error) (e : E) : res error E :=
  let '(e1, err) := f e in match err with Some x => Err x | None => Ok e1 end.

(** *** eval *)

Record EvalFlags := {
  ef_policy : string;
  ef_data : string;
  ef_knowledge : string;
  ef_query : string;
  ef_output : string;
  ef_quiet : bool;
  ef_explain : bool
}.

Definition report (quiet : bool) (line : string) (progress : list string) : list string :=
  if quiet then progress else (progress ++ [line])%list.

Definition schema_block (preds : list string) : string :=
  join nl (map (fun p => "Decl " +:+ p +:+ "(S, O).") preds).

(** Step 3: the knowledge base, its declarations first. *)
Definition eval_knowledge (f : EvalFlags) (e : E) (k : E -> list string -> option CommandResult) : option CommandResult :=
  if String.eqb (ef_knowledge f) "" then k e []
  else
    r ← parse_graph (ef_knowledge f);
    attempt [] "failed to parse knowledge base: " r (fun triples =>
      let preds := GetPredicates triples in
      attempt [] "failed to inject schema declarations: "
        (match preds with [] => Ok e | _ => on_host (eh_LoadPolicy (schema_block preds)) e end) (fun e1 =>
          let p1 := match preds with
                    | [] => []
                    | _ => report (ef_quiet f) ("Injected " +:+ pretty (Z.of_nat (List.length preds)) +:+ " schema declarations.") []
                    end in
          facts ← TriplesToFacts is_float triples;
          attempt p1 "failed to load knowledge facts: " (on_host (eh_LoadFacts facts) e1) (fun e2 =>
            k e2 (report (ef_quiet f) ("Loaded " +:+ pretty (Z.of_nat (List.length facts)) +:+ " knowledge facts.") p1)))).

(** Step 5: the flattened JSON data; [data] is the file's content. *)
Definition eval_data (f : EvalFlags) (data : string) (p : list string) (e : E)
    (k : E -> list string -> option CommandResult) : option CommandResult :=
  if String.eqb (ef_data f) "" then k e p
  else
    attempt p "failed to parse data JSON: " (unmarshal data) (fun '(h, v) =>
      facts ← Flatten render h fuel "input" v;
      attempt p "failed to load data facts: " (on_host (eh_LoadFacts facts) e) (fun e1 =>
        k e1 (report (ef_quiet f) ("Loaded " +:+ pretty (Z.of_nat (List.length facts)) +:+ " data facts.") p))).

Definition policy_deny (q : string) (n : nat) : error :=
  EWrap ("policy-deny: " +:+ go_quote q +:+ " matched " +:+ pretty (Z.of_nat n) +:+ " solution(s): ")
        (ESentinel ErrPolicyViolation).

(** Steps 6 to 8: the explanation, or the query, its output and its verdict. *)
Definition eval_query (f : EvalFlags) (p : list string) (e : E) : option CommandResult :=
  if ef_explain f then
    attempt p "explanation failed: " (snd (eh_Explain [] (ef_query f) e)) (fun ex =>
      Some (cmd_done p [if String.eqb (ef_output f) "json" then OJsonExplanation ex
                        else OText (Explanation_String (Some ex))]))
  else
    attempt p "query execution failed: " (snd (eh_Query [] (ef_query f) e)) (fun results =>
      let '(out, p1) :=
        if String.eqb (ef_output f) "json"
        then ([match results with [] => OJsonNull | _ => OJsonRows results end], p)
        else match results with
             | [] => ([], report (ef_quiet f) "No results found." p)
             | _ => (map OText (printTable results), p)
             end in
      Some {| cr_stdout := out; cr_progress := p1; cr_file := [];
              cr_err := if deny_query (ef_query f) && negb (Nat.eqb (List.length results) 0)
                        then Some (policy_deny (ef_query f) (List.length results)) else None |}).

Definition eval_Run (f : EvalFlags) : option CommandResult :=
  if negb (String.eqb (ef_output f) "json") && negb (String.eqb (ef_output f) "table") then
    Some (cmd_fail [] (EUsage (EText ("invalid --output value " +:+ go_quote (ef_output f)
                                      +:+ ": must be " +:+ go_quote "json" +:+ " or " +:+ go_quote "table"))))
  else if String.eqb (ef_data f) "" && String.eqb (ef_knowledge f) "" then
    Some (cmd_fail [] (EUsage (EText "must provide either --data (JSON) or --facts/--knowledge (Graph)")))
  else
    attempt [] "failed to read policy file: " (readFile (ef_policy f)) (fun policy =>
    attempt [] "failed to read data file: " (if String.eqb (ef_data f) "" then Ok "" else readFile (ef_data f)) (fun data =>
    attempt [] "failed to initialize engine: " eh_New (fun e =>
    eval_knowledge f e (fun e1 p1 =>
    attempt p1 "failed to load policy: " (on_host (eh_LoadPolicy policy) e1) (fun e2 =>
    eval_data f data p1 e2 (fun e3 p3 => eval_query f p3 e3)))))).

(** *** run *)

Record RunFlags := { rf_policy : string; rf_data : string; rf_targets : string; rf_output : string; rf_format : string }.

(** [filepath.Ext]: from the last dot of the last path element. *)
Fixpoint filepath_Ext (s : string) : string :=
  match s with
  | "" => ""
  | String c s' =>
      let rest := filepath_Ext s' in
      if String.eqb rest "" && Ascii.eqb c "." && negb (contains s' "/") then String c s' else rest
  end.

Definition run_facts (f : RunFlags) (k : list string -> option CommandResult) : option CommandResult :=
  let ext := to_lower unicode_lower (filepath_Ext (rf_data f)) in
  if String.eqb ext ".json" then
    attempt [] "failed to read data file: " (readFile (rf_data f)) (fun data =>
    attempt [] "failed to unmarshal JSON: " (unmarshal data) (fun '(h, v) =>
      facts ← Flatten render h fuel "root" v; k facts))
  else if String.eqb ext ".nq" || String.eqb ext ".nt" || String.eqb ext ".ttl" then
    r ← parse_graph (rf_data f);
    attempt [] "failed to parse graph file: " r (fun triples => facts ← TriplesToFacts is_float triples; k facts)
  else Some (cmd_fail [] (EText ("unsupported data file extension: " +:+ ext))).

(** The facts of one target: at arity two, else at arity one; errors of the
    queries are dropped. *)
Definition target_facts (target : string) (e : E) : E * list DerivedFact :=
  let row obj r := {| df_Subject := table_cell r "S"; df_Predicate := target; df_Object := obj r |} in
  let '(e1, r2) := eh_Query [] (target +:+ "(S, O)") e in
  match r2 with
  | Ok (x :: rest) => (e1, map (row (fun r => table_cell r "O")) (x :: rest))
  | _ =>
      let '(e2, r1) := eh_Query [] (target +:+ "(S)") e1 in
      (e2, match r1 with Ok l => map (row (fun _ => "true")) l | Err _ => [] end)
  end.

Fixpoint derive (targets : list string) (e : E) : list DerivedFact :=
  match targets with
  | [] => []
  | t :: rest => let '(e1, l) := target_facts (trim_space t) e in (l ++ derive rest e1)%list
  end.

Definition nquad_text (d : DerivedFact) : string :=
  "<" +:+ df_Subject d +:+ "> <" +:+ df_Predicate d +:+ "> " +:+ go_quote (df_Object d) +:+ " ." +:+ nl.

(** [os.Create], and the writes to the file: their first error. *)
Context (create : string -> option error) (write : list Output -> option error).

Definition no_err (r : option error) : res error () := match r with Some x => Err x | None => Ok tt end.

Definition output_of (format : string) (l : list DerivedFact) : list Output :=
  if String.eqb format "json" then [OJsonFacts l] else map (fun d => OText (nquad_text d)) l.

Definition run_Run (f : RunFlags) : option CommandResult :=
  if negb (String.eqb (rf_format f) "nquads") && negb (String.eqb (rf_format f) "json") then
    Some (cmd_fail [] (EUsage (EText ("invalid --format " +:+ go_quote (rf_format f)
                                      +:+ ": must be " +:+ go_quote "nquads" +:+ " or " +:+ go_quote "json"))))
  else
    attempt [] "failed to initialize engine: " eh_New (fun e =>
    attempt [] "failed to read policy file: " (readFile (rf_policy f)) (fun policy =>
    attempt [] "failed to load policy: " (on_host (eh_LoadPolicy policy) e) (fun e1 =>
    run_facts f (fun facts =>
    attempt [] "failed to load facts: " (on_host (eh_LoadFacts facts) e1) (fun e2 =>
    let out := output_of (rf_format f) (derive (split_on c_comma (rf_targets f)) e2) in
    attempt [] "failed to create output file: " (no_err (create (rf_output f))) (fun _ =>
    attempt [] "failed to write output: " (no_err (write out)) (fun _ =>
    Some {| cr_stdout := [OText ("Inference complete. Results written to " +:+ rf_output f)]; cr_progress := [];
            cr_file := out; cr_err := None |}))))))).

(** *** check and inspect struct *)

Definition check_Run (path : string) : option CommandResult :=
  attempt [] "failed to read policy file: " (readFile path) (fun content =>
  attempt [] "failed to initialize engine: " eh_New (fun e =>
  attempt [] ("policy " +:+ path +:+ " is invalid: ") (on_host (eh_LoadPolicy content) e) (fun _ =>
  Some (cmd_done [] [OText ("OK: " +:+ path +:+ " parsed and compiled successfully")])))).

(** [exists_] is whether [os.Stat] succeeds; [unmarshal_map] is
    [json.Unmarshal] into a map. *)
Definition struct_Run (exists_ : string -> bool) (unmarshal_map : string -> res error (Heap * GoVal)) (jsonFlag : string)
  : option CommandResult :=
  attempt [] "failed to read JSON file: " (if exists_ jsonFlag then readFile jsonFlag else Ok jsonFlag) (fun data =>
  attempt [] "failed to unmarshal JSON: " (unmarshal_map data) (fun '(h, v) =>
  facts ← ToFacts unicode_lower render h "request" v;
  Some (cmd_done [] (map OText facts)))).
End Commands.
