(* ===== verification/CommandsProps.v ===== *)
(** * Properties of the commands

    The verdict of [mkit eval] on the engine it prepares, aligned tables, what [mkit run] hides, and
    the scenario runner. *)
From stdpp Require Import sorting.
From S2P Require Import Prelude GoStrings CoreErrors CoreTypes Facts Reflect Sources Datalog Runtime Solver Explain Load Knowledge Commands.
From Stdlib Require Import Ascii String.
Open Scope string_scope.

(** ** Tables *)

Lemma repeat_byte_length c n : String.length (repeat_byte c n) = n.
Proof. induction n as [|n IH]; [done|]. cbn. by rewrite IH. Qed.

Lemma pad_length s n : String.length s <= n -> String.length (pad s n) = n.
Proof. intros H. unfold pad. rewrite str_length_app, repeat_byte_length. lia. Qed.

Lemma join_lengths {A : Type} sep (f g : A -> string) l :
  Forall (fun x => String.length (f x) = String.length (g x)) l ->
  forall sep', String.length sep = String.length sep' ->
  String.length (join sep (map f l)) = String.length (join sep' (map g l)).
Proof.
  intros Hl sep' Hs. induction Hl as [|x l Hx Hl IH]; [done|]. destruct l as [|y l]; [done|].
  change (String.length (f x +:+ sep +:+ join sep (map f (y :: l)))
          = String.length (g x +:+ sep' +:+ join sep' (map g (y :: l)))).
  rewrite !str_length_app, Hx, Hs. by rewrite IH.
Qed.

Lemma col_width_cell results r c : r ∈ results -> String.length (table_cell r c) <= col_width results c.
Proof.
  intros Hr. unfold col_width. apply Nat.le_trans with (foldl (fun w r => Nat.max w (String.length (table_cell r c))) 0 results); [|lia].
  assert (forall n, n <= foldl (fun w r => Nat.max w (String.length (table_cell r c))) n results /\
                    String.length (table_cell r c) <= foldl (fun w r => Nat.max w (String.length (table_cell r c))) n results) as H;
    [|apply (H 0)].
  assert (forall l n, n <= foldl (fun w r => Nat.max w (String.length (table_cell r c))) n l) as Hmono.
  { induction l as [|x l IH]; intros n; cbn [foldl]; [done|]. etransitivity; [|apply IH]. lia. }
  intros n. split; [apply Hmono|]. revert n. induction results as [|x l IH]; intros n; [by apply elem_of_nil in Hr|].
  cbn [foldl]. apply elem_of_cons in Hr as [->|Hr]; [|by apply IH].
  etransitivity; [|apply Hmono]. lia.
Qed.

(** Tables are aligned: every line of a printed table has the same length
    in bytes, and there are two lines more than results. *)
Theorem table_aligned results :
  List.length (printTable results) = 2 + List.length results /\
  forall l l', l ∈ printTable results -> l' ∈ printTable results -> String.length l = String.length l'.
Proof.
  split; [unfold printTable; cbn [List.length]; by rewrite length_map|].
  set (rule := join " | " (map (fun c => repeat_byte "-" (col_width results c)) (table_cols results))).
  assert (forall l, l ∈ printTable results -> String.length l = String.length rule) as H;
    [|intros l l' Hl Hl'; by rewrite (H l), (H l')].
  intros l Hl. unfold printTable in Hl. apply elem_of_cons in Hl as [->|Hl]; [|apply elem_of_cons in Hl as [->|Hl]].
  - apply join_lengths; [|done]. apply Forall_forall. intros c _. rewrite repeat_byte_length. apply pad_length.
    unfold col_width. lia.
  - apply join_lengths; [|done]. by apply Forall_forall.
  - apply list_elem_of_fmap in Hl as (r & -> & Hr). apply join_lengths; [|done]. apply Forall_forall. intros c _.
    rewrite repeat_byte_length. by apply pad_length, col_width_cell.
Qed.

(** ** Exit codes *)

(** A policy denial exits 1 from every command, whatever its text. *)
Lemma main_exit_denial e : errors_Is e ErrPolicyViolation = true -> main_exit (Some e) = ExitPolicyDeny.
Proof. intros H. unfold main_exit, CodeFor. rewrite H. done. Qed.

Section Eval.
Context {E : Type} `{!EngineHost E} (render : GoVal -> string) (readFile : string -> res error string)
        (unmarshal : string -> res error (Heap * GoVal)) (parse_graph : string -> option (res error (list Triple)))
        (is_float : string -> bool) (fuel : nat).

Abbreviation eval_cmd := (eval_Run render readFile unmarshal parse_graph is_float fuel).

Lemma attempt_ok {A : Type} p pre (r : res error A) k res :
  attempt p pre r k = Some res -> cr_err res = None -> exists a, r = Ok a /\ k a = Some res.
Proof. unfold attempt. destruct r as [a|e]; [eauto|]. by intros [= <-]. Qed.

(** The engine that a run asks: a new one, with the knowledge file (its
    declarations, then its facts), the policy file and the flattened data
    file, loaded in this order without an error. *)
Definition loads (op : E -> E * option error) (e e' : E) : Prop := op e = (e', None).

Definition knowledge_loaded f (e e' : E) : Prop :=
  if decide (ef_knowledge f = "") then e' = e
  else exists triples facts e1, parse_graph (ef_knowledge f) = Some (Ok triples) /\
    (if decide (GetPredicates triples = []) then e1 = e else loads (eh_LoadPolicy (schema_block (GetPredicates triples))) e e1) /\
    TriplesToFacts is_float triples = Some facts /\ loads (eh_LoadFacts facts) e1 e'.

Definition data_loaded f (e e' : E) : Prop :=
  if decide (ef_data f = "") then e' = e
  else exists text h v facts, readFile (ef_data f) = Ok text /\ unmarshal text = Ok (h, v) /\
    Flatten render h fuel "input" v = Some facts /\ loads (eh_LoadFacts facts) e e'.

Definition prepared f (e : E) : Prop :=
  exists policy e0 e1 e2, readFile (ef_policy f) = Ok policy /\ eh_New = Ok e0 /\
    knowledge_loaded f e0 e1 /\ loads (eh_LoadPolicy policy) e1 e2 /\ data_loaded f e2 e.

Lemma on_host_loads op (e e' : E) : on_host op e = Ok e' <-> loads op e e'.
Proof. unfold on_host, loads. destruct (op e) as [e1 [x|]]; split; congruence. Qed.

Lemma knowledge_ok f (e : E) k r : eval_knowledge parse_graph is_float f e k = Some r -> cr_err r = None ->
  exists e' p, knowledge_loaded f e e' /\ k e' p = Some r.
Proof.
  unfold eval_knowledge, knowledge_loaded. intros H Hr. destruct (decide (ef_knowledge f = "")) as [Hk|Hk].
  { rewrite Hk in H. by exists e, []. }
  apply String.eqb_neq in Hk. rewrite Hk in H. destruct (parse_graph (ef_knowledge f)) as [g|] eqn:Hg; [|done]. cbn [mbind option_bind] in H.
  apply attempt_ok in H as (triples & -> & H); [|done]. apply attempt_ok in H as (e1 & He1 & H); [|done].
  destruct (TriplesToFacts is_float triples) as [facts|] eqn:Hf; [|done]. cbn [mbind option_bind] in H.
  apply attempt_ok in H as (e2 & He2%on_host_loads & H); [|done]. eexists e2, _. split; [|exact H].
  exists triples, facts, e1. split_and!; [done| |done|done].
  destruct (GetPredicates triples); [rewrite decide_True by done; by injection He1|]. rewrite decide_False by done. by apply on_host_loads.
Qed.

(** A command that succeeds reached its query, with such an engine. *)
Lemma eval_reaches_query f r :
  eval_cmd f = Some r -> cr_err r = None -> exists p e, prepared f e /\ eval_query f p e = Some r.
Proof.
  unfold eval_Run. intros H Hr. destruct (negb _ && _); [by injection H as <-|].
  destruct (_ && _); [by injection H as <-|].
  apply attempt_ok in H as (policy & Hp & H); [|done]. apply attempt_ok in H as (data & Hd & H); [|done].
  apply attempt_ok in H as (e & He & H); [|done]. apply knowledge_ok in H as (e1 & p1 & Hk & H); [|done].
  apply attempt_ok in H as (e2 & He2%on_host_loads & H); [|done]. unfold eval_data in H.
  assert (forall e3, data_loaded f e2 e3 -> prepared f e3) as Hprep by (intros e3 H3; by exists policy, e, e1, e2).
  destruct (String.eqb_spec (ef_data f) "") as [Hn|Hn].
  { eexists _, e2. split; [|exact H]. apply Hprep. unfold data_loaded. by rewrite decide_True. }
  apply attempt_ok in H as ([h v] & Hv & H); [|done].
  destruct (Flatten render h fuel "input" v) as [facts|] eqn:Hf; [|done]. cbn [mbind option_bind] in H.
  apply attempt_ok in H as (e3 & He3%on_host_loads & H); [|done]. eexists _, e3. split; [|exact H].
  apply Hprep. unfold data_loaded. rewrite decide_False by done. by exists data, h, v, facts.
Qed.

(** And such an engine is asked, when the flags are valid. *)
Definition valid_flags f : Prop :=
  (ef_output f = "json" \/ ef_output f = "table") /\ (ef_data f <> "" \/ ef_knowledge f <> "").

Lemma knowledge_runs f (e e' : E) k : knowledge_loaded f e e' -> exists p, eval_knowledge parse_graph is_float f e k = k e' p.
Proof.
  unfold eval_knowledge, knowledge_loaded. destruct (decide (ef_knowledge f = "")) as [->|Hk]; [intros ->; by eexists|].
  apply String.eqb_neq in Hk as ->. intros (triples & facts & e1 & -> & He1 & Hf & He2). cbn [mbind option_bind attempt].
  assert ((match GetPredicates triples with [] => Ok e | _ => on_host (eh_LoadPolicy (schema_block (GetPredicates triples))) e end) = Ok e1) as ->.
  { destruct (GetPredicates triples); [rewrite decide_True in He1 by done; by subst e1|]. rewrite decide_False in He1 by done. by apply on_host_loads. }
  cbn [attempt]. rewrite Hf. cbn [mbind option_bind]. apply on_host_loads in He2 as ->. cbn [attempt]. by eexists.
Qed.

Lemma prepared_runs f e : valid_flags f -> prepared f e -> exists p, eval_cmd f = eval_query f p e.
Proof.
  intros [Ho Hi] (policy & e0 & e1 & e2 & Hp & He & Hk & He2 & Hd). unfold eval_Run.
  assert (negb (String.eqb (ef_output f) "json") && negb (String.eqb (ef_output f) "table") = false) as -> by (by destruct Ho as [-> | ->]).
  assert (String.eqb (ef_data f) "" && String.eqb (ef_knowledge f) "" = false) as ->.
  { destruct Hi as [Hi%String.eqb_neq|Hi%String.eqb_neq]; rewrite Hi; [done|apply andb_false_r]. }
  rewrite Hp. cbn [attempt]. unfold data_loaded in Hd. unfold eval_data. apply on_host_loads in He2.
  destruct (decide (ef_data f = "")) as [Hn|Hn].
  - rewrite Hn. cbn [String.eqb attempt]. rewrite He. cbn [attempt]. subst e. destruct (knowledge_runs f e0 e1 (fun e1 p1 =>
      attempt p1 "failed to load policy: " (on_host (eh_LoadPolicy policy) e1) (fun e2 => eval_query f p1 e2)) Hk) as [p Heq].
    rewrite Heq, He2. cbn [attempt]. by eexists.
  - destruct Hd as (text & h & v & facts & Ht & Hv & Hf & Hl). apply String.eqb_neq in Hn. rewrite Hn, Ht. cbn [attempt]. rewrite He. cbn [attempt].
    apply on_host_loads in Hl. match goal with |- context [eval_knowledge _ _ f e0 ?k] => destruct (knowledge_runs f e0 e1 k Hk) as [p Heq] end.
    rewrite Heq, He2. cbn [attempt]. rewrite Hv. cbn [attempt]. rewrite Hf. cbn [mbind option_bind]. rewrite Hl. cbn [attempt]. by eexists.
Qed.

(** C13: The verdict of [mkit eval].  Without [--explain], a run that exits
    successfully asked its query of a new engine into which the knowledge
    file, the policy file and the data file were loaded, in this order and
    without an error; the query did not fail, and when it asks for [halt] or
    [deny] it has no solution.  And whenever that engine has a solution to
    such a query, and the flags are valid, the run exits 1, its results being
    written first. *)
Theorem eval_gate f :
  ef_explain f = false ->
  (forall r, eval_cmd f = Some r -> cr_err r = None ->
     exists e results, prepared f e /\ snd (eh_Query [] (ef_query f) e) = Ok results /\ (deny_query (ef_query f) = true -> results = [])) /\
  (forall e results, valid_flags f -> prepared f e -> snd (eh_Query [] (ef_query f) e) = Ok results ->
     deny_query (ef_query f) = true -> results <> [] ->
     exists r, eval_cmd f = Some r /\ main_exit (cr_err r) = ExitPolicyDeny /\
       (cr_stdout r = [OJsonRows results] \/ cr_stdout r = map OText (printTable results))).
Proof.
  intros Hx. split.
  - intros r H Hr. apply eval_reaches_query in H as (p & e & Hp & H); [|done]. unfold eval_query in H. rewrite Hx in H.
    apply attempt_ok in H as (results & Hq & H); [|done]. exists e, results. split_and!; [done|done|]. intros Hd.
    rewrite Hd in H. destruct results as [|x results]; [done|]. exfalso. revert H Hr.
    destruct (String.eqb (ef_output f) "json"); intros [= <-]; done.
  - intros e results Hf Hp Hq Hd Hne. apply prepared_runs in Hp as [p ->]; [|done]. unfold eval_query. rewrite Hx. unfold attempt. rewrite Hq, Hd.
    destruct results as [|x results]; [done|].
    destruct (String.eqb (ef_output f) "json"); eexists; (split; [reflexivity|]); cbn [cr_err cr_stdout andb negb Nat.eqb List.length];
      (split; [by apply main_exit_denial|auto]).
Qed.

(** With [--explain] the deny contract is lost: whenever the explanation
    succeeds the run exits 0, also for a [halt] or [deny] query whose
    explanation shows derivations. *)
Theorem explain_never_denies f p e ex :
  ef_explain f = true -> snd (eh_Explain [] (ef_query f) e) = Ok ex ->
  exists r, eval_query f p e = Some r /\ main_exit (cr_err r) = ExitSuccess.
Proof. intros Hx He. unfold eval_query, attempt. rewrite Hx, He. eexists. done. Qed.

(** An empty result is printed as JSON null, not as an array. *)
Theorem empty_results_print_null f p e :
  ef_explain f = false -> ef_output f = "json" -> snd (eh_Query [] (ef_query f) e) = Ok [] ->
  exists r, eval_query f p e = Some r /\ cr_stdout r = [OJsonNull].
Proof. intros Hx Ho He. unfold eval_query, attempt. rewrite Hx, He, Ho. eexists. done. Qed.

(** ** run *)

Lemma derive_failing targets (e : E) :
  (forall q e', exists x, snd (eh_Query [] q e') = Err x) -> derive targets e = [].
Proof.
  intros Hq. revert e. induction targets as [|t targets IH]; intros e; [done|]. cbn [derive].
  unfold target_facts. destruct (Hq (trim_space t +:+ "(S, O)") e) as [x Hx].
  destruct (eh_Query [] (trim_space t +:+ "(S, O)") e) as [e1 r2]. cbn [snd] in Hx. subst r2.
  destruct (Hq (trim_space t +:+ "(S)") e1) as [y Hy].
  destruct (eh_Query [] (trim_space t +:+ "(S)") e1) as [e2 r1]. cbn [snd] in Hy. subst r1. apply IH.
Qed.

(** [mkit run] hides query failures: if every query of every target
    fails, a run that gets as far as its targets still reports success and
    writes an output file without facts. *)
Theorem run_hides_query_errors lower create write f r :
  (forall q (e' : E), exists x, snd (eh_Query [] q e') = Err x) ->
  run_Run lower render readFile unmarshal parse_graph is_float fuel create write f = Some r -> cr_err r = None ->
  main_exit (cr_err r) = ExitSuccess /\ cr_file r = output_of (rf_format f) [] /\
  cr_stdout r = [OText ("Inference complete. Results written to " +:+ rf_output f)].
Proof.
  unfold run_Run. intros Hq H Hr. destruct (negb _ && _); [by injection H as <-|].
  apply attempt_ok in H as (e & _ & H); [|done]. apply attempt_ok in H as (policy & _ & H); [|done].
  apply attempt_ok in H as (e1 & _ & H); [|done].
  assert (exists e2, attempt [] "failed to create output file: " (no_err (create (rf_output f))) (fun _ =>
    attempt [] "failed to write output: " (no_err (write (output_of (rf_format f) (derive (split_on c_comma (rf_targets f)) e2)))) (fun _ =>
    Some {| cr_stdout := [OText ("Inference complete. Results written to " +:+ rf_output f)]; cr_progress := [];
            cr_file := output_of (rf_format f) (derive (split_on c_comma (rf_targets f)) e2); cr_err := None |})) = Some r)
    as (e2 & H2).
  { unfold run_facts in H. destruct (String.eqb _ ".json").
    - apply attempt_ok in H as (data & _ & H); [|done]. apply attempt_ok in H as ([h v] & _ & H); [|done].
      destruct (Flatten _ _ _ _ _) as [facts|]; [|done]. cbn [mbind option_bind] in H.
      apply attempt_ok in H as (e2 & _ & H); [|done]. eauto.
    - destruct (_ || _); [|by injection H as <-]. destruct (parse_graph _) as [g|]; [|done]. cbn [mbind option_bind] in H.
      apply attempt_ok in H as (triples & _ & H); [|done]. destruct (TriplesToFacts _ _) as [facts|]; [|done].
      cbn [mbind option_bind] in H. apply attempt_ok in H as (e2 & _ & H); [|done]. eauto. }
  apply attempt_ok in H2 as (_ & _ & H2); [|done]. apply attempt_ok in H2 as (_ & _ & H2); [|done].
  injection H2 as <-. cbn [cr_err cr_file cr_stdout]. by rewrite derive_failing.
Qed.
End Eval.

(** ** Scenarios *)

Lemma scenario_Run_results {W : Type} (l : list (Scenario W)) w :
  List.length (snd (scenario_Run l w)) = List.length l /\
  map sr_Name (snd (scenario_Run l w)) = map sc_Name l /\
  fst (scenario_Run l w) = foldl (fun w s => fst (sc_Run s w)) w l.
Proof.
  revert w. induction l as [|s l IH]; intros w; [done|]. cbn [scenario_Run foldl].
  destruct (sc_Run s w) as [w1 err]. cbn [fst]. specialize (IH w1). destruct (scenario_Run l w1) as [w2 rs].
  destruct IH as (H1 & H2 & H3). cbn in *. by rewrite H1, H2.
Qed.

(** No failing scenario masks another: every scenario runs, in order, on
    the world the earlier ones left, whatever their outcomes; the process
    exits 0 exactly when every one of them passed, and 1 otherwise. *)
Theorem RunMain_exit {W : Type} (l : list (Scenario W)) w :
  let '(w1, (_, code)) := RunMain l w in
  w1 = foldl (fun w s => fst (sc_Run s w)) w l /\
  (code = 0%Z <-> Forall (fun r => sr_Passed r = true) (snd (scenario_Run l w))) /\ (code = 0%Z \/ code = 1%Z).
Proof.
  unfold RunMain. pose proof (scenario_Run_results l w) as (_ & _ & Hw).
  destruct (scenario_Run l w) as [w1 rs]. cbn [fst snd] in *.
  assert (List.length (List.filter (fun r => negb (sr_Passed r)) rs) = 0 <-> Forall (fun r => sr_Passed r = true) rs) as Hf.
  { rewrite Forall_forall. rewrite length_zero_iff_nil. split.
    - intros Hnil r Hr. destruct (sr_Passed r) eqn:Hp; [done|]. exfalso.
      assert (r ∈ List.filter (fun r => negb (sr_Passed r)) rs) as Hi
        by (apply list_elem_of_In, List.filter_In; split; [by apply list_elem_of_In|by rewrite Hp]).
      rewrite Hnil in Hi. by apply elem_of_nil in Hi.
    - intros Hall. destruct (List.filter _ rs) as [|r t] eqn:He; [done|]. exfalso.
      assert (In r (List.filter (fun r => negb (sr_Passed r)) rs)) as Hi by (rewrite He; by left).
      apply List.filter_In in Hi as [Hi Hp]. rewrite (Hall r) in Hp by by apply list_elem_of_In. done. }
  destruct (Nat.ltb_spec 0 (List.length (List.filter (fun r => negb (sr_Passed r)) rs))) as [Hlt|Hge].
  - split_and!; [done| |by right]. split; [done|]. intros Hall. apply Hf in Hall. lia.
  - split_and!; [done| |by left]. split; [|done]. intros _. apply Hf. lia.
Qed.

(** ** Concrete runs *)

(** An engine that records what it loads and answers [halt] queries. *)
#[local] Instance halting : EngineHost (list string) := {|
  eh_New := Ok [];
  eh_LoadPolicy p e := ((e ++ [p])%list, None);
  eh_LoadFacts l e := ((e ++ l)%list, None);
  eh_Query _ q e := (e, if has_prefix q "halt" then Ok [{["X" := "pii"; "Why" := "leaks"]}] else Ok []);
  eh_Explain _ q e := (e, Ok {| ex_Query := q; ex_Outcome := true; ex_Derivations := [] |})
|}.

Definition no_files (p : string) : res error string := if String.eqb p "p.dl" then Ok "policy" else Err (EText "no file").
Definition no_render (_ : GoVal) : string := "".
Definition no_json (_ : string) : res error (Heap * GoVal) := Err (EText "no JSON").
Definition one_triple (_ : string) : option (res error (list Triple)) :=
  Some (Ok [{| tr_Subject := "<a>"; tr_Predicate := "knows"; tr_Object := "<b>" |}]).
Definition flags (q out : string) (ex : bool) : EvalFlags :=
  {| ef_policy := "p.dl"; ef_data := ""; ef_knowledge := "k.nq"; ef_query := q; ef_output := out; ef_quiet := true;
     ef_explain := ex |}.
Definition run_eval f := eval_Run no_render no_files no_json one_triple (fun _ => false) 10 f.

(** The engine of these runs: the declaration, the fact and the policy. *)
Definition loaded_engine : list string :=
  (schema_block ["knows"] :: default [] (TriplesToFacts (fun _ => false) [{| tr_Subject := "<a>"; tr_Predicate := "knows"; tr_Object := "<b>" |}]) ++ ["policy"])%list.

Lemma eval_gate_witness :
  (exists r e, run_eval (flags "ok(X)" "json" false) = Some r /\ cr_err r = None /\
     prepared (E := list string) no_render no_files no_json one_triple (fun _ => false) 10 (flags "ok(X)" "json" false) e /\
     snd (eh_Query (E := list string) [] "ok(X)" e) = Ok []) /\
  (exists r, run_eval (flags "halt(X, Why)" "json" false) = Some r /\
     main_exit (cr_err r) = ExitPolicyDeny).
Proof.
  split.
  - destruct (run_eval (flags "ok(X)" "json" false)) as [r|] eqn:Hr; [|by vm_compute in Hr].
    assert (cr_err r = None) as Hn by (revert Hr; intros [= <-]; by_vm).
    destruct (proj1 (eval_gate no_render no_files no_json one_triple (fun _ => false) 10 (flags "ok(X)" "json" false) eq_refl) r Hr Hn)
      as (e & l & Hp & Hq & Hl). exists r, e. split_and!; [done|done|exact Hp|done].
  - assert (prepared (E := list string) no_render no_files no_json one_triple (fun _ => false) 10 (flags "halt(X, Why)" "json" false) loaded_engine) as Hp.
    { exists "policy", [], (removelast loaded_engine), loaded_engine. split_and!; [done|done| |done|done].
      unfold knowledge_loaded. rewrite decide_False by done. eexists _, _, [schema_block ["knows"]]. split; [reflexivity|]. split; [|split; [reflexivity|reflexivity]].
      rewrite decide_False by done. reflexivity. }
    destruct (proj2 (eval_gate no_render no_files no_json one_triple (fun _ => false) 10 (flags "halt(X, Why)" "json" false) eq_refl)
      loaded_engine [{["X" := "pii"; "Why" := "leaks"]}]) as (r & Hr & Hm & _); [split; [by left|by right]|exact Hp|done|done|done|].
    by exists r.
Defined.

Lemma explain_never_denies_witness :
  exists r, eval_query (E := list string) (flags "halt(X, Why)" "table" true) [] [] = Some r /\ main_exit (cr_err r) = 0%Z.
Proof. eapply explain_never_denies; reflexivity. Defined.

Lemma empty_results_print_null_witness :
  exists r, eval_query (E := list string) (flags "ok(X)" "json" false) [] [] = Some r /\ cr_stdout r = [OJsonNull].
Proof. apply empty_results_print_null; reflexivity. Defined.

(** An engine whose queries all fail. *)
Definition broken : EngineHost (list string) := {|
  eh_New := Ok [];
  eh_LoadPolicy p e := ((e ++ [p])%list, None);
  eh_LoadFacts l e := ((e ++ l)%list, None);
  eh_Query _ q e := (e, Err (EText "undeclared predicate"));
  eh_Explain _ q e := (e, Err (EText "undeclared predicate"))
|}.
Definition batch : RunFlags :=
  {| rf_policy := "p.dl"; rf_data := "in.NQ"; rf_targets := "risk, owner"; rf_output := "out.nq"; rf_format := "nquads" |}.

Lemma run_hides_query_errors_witness :
  exists r, @run_Run _ broken (map_bytes lower_byte) no_render no_files no_json one_triple (fun _ => false) 10
              (fun _ => None) (fun _ => None) batch = Some r /\ main_exit (cr_err r) = 0%Z /\ cr_file r = [].
Proof.
  destruct (@run_Run _ broken (map_bytes lower_byte) no_render no_files no_json one_triple (fun _ => false) 10
              (fun _ => None) (fun _ => None) batch) as [r|] eqn:Hr; [|by vm_compute in Hr].
  assert (cr_err r = None) as Hn by (revert Hr; intros [= <-]; by_vm).
  exists r. split; [done|].
  destruct (@run_hides_query_errors _ broken no_render no_files no_json one_triple (fun _ => false) 10 (map_bytes lower_byte)
              (fun _ => None) (fun _ => None) batch r (fun _ _ => ex_intro _ _ eq_refl) Hr Hn) as (H1 & H2 & _). done.
Defined.
