(* ===== verification/RuleGen.v ===== *)
(** * Generating rules

    [sdk/policy_generator.go], [cmd/mkit/commands/gen/logic.go] and
    [gen/inductor]: the vocabulary extracted from a struct or inferred from a
    sample file, the cleanup and the check of what a model answers, and the
    feedback loop that asks again.

    The model, the Mangle parser and [text/template] are parameters; decoded
    JSON is a tree whose object fields are listed in the order of [range]. *)
From S2P Require Import Prelude GoStrings CoreErrors CoreTypes Facts Reflect Sources Datalog Runtime Generators Knowledge Commands.
From Stdlib Require Import Ascii String.
Open Scope string_scope.

(** ** The policy generator *)

Record GeneratorOptions := { go_RuleHead : string; go_PromptTemplate : string; go_Examples : string }.

Definition with_defaults (template examples : string) (o : GeneratorOptions) : GeneratorOptions :=
  {| go_RuleHead := if String.eqb (go_RuleHead o) "" then "deny(Req)" else go_RuleHead o;
     go_PromptTemplate := if String.eqb (go_PromptTemplate o) "" then template else go_PromptTemplate o;
     go_Examples := if String.eqb (go_Examples o) "" then examples else go_Examples o |}.

(** The type column of a field's kind; [None] for an unsupported one. *)
Definition field_type (v : GoVal) : option string :=
  match v with
  | GInt _ | GUint _ => Some "IntValue"
  | GFloat _ => Some "FloatValue"
  | GStr _ => Some "StringValue"
  | GBool _ => Some "BoolValue"
  | _ => None
  end.

Section Generator.
Context (unicode_lower : string -> string) (h : Heap) (kind_name : GoVal -> string).

Definition schema_predicate (f : FieldInfo) (v : GoVal) : option string :=
  if negb (fi_Exported f) then None
  else if String.eqb (fi_mangle f) "-" then None
  else
    let tag := if String.eqb (fi_mangle f) "" then to_lower unicode_lower (fi_Name f) else fi_mangle f in
    (fun t => tag +:+ "(EntityID, " +:+ t +:+ ")") <$> field_type v.

(** [extractSchema] of a struct or a pointer to one. *)
Definition extractSchema (sample : GoVal) : res error string :=
  let val := match sample with GPtr (Some (_, c)) => pointee h c | GPtr None => GNil | v => v end in
  match val with
  | GStruct fields =>
      match omap (fun '(f, v) => schema_predicate f v) fields with
      | [] => Err (EText "no valid predicates could be extracted from schema sample")
      | preds => Ok ("Available Predicates: " +:+ join ", " preds)
      end
  | v => Err (EText ("schemaSample must be a struct or a pointer to a struct, got " +:+ kind_name v))
  end.
End Generator.

Definition sanitizeOutput (resp : string) : string :=
  let fenced lang s := trim_prefix s (fence +:+ lang) in
  trim_space (trim_suffix (fenced "" (fenced "prolog" (fenced "mangle" (fenced "datalog" (trim_space resp))))) fence).

(** [verifyRuleSyntax]; [parse_clause] is Mangle's [parse.Clause]. *)
Definition verifyRuleSyntax (parse_clause : string -> option error) (rule : string) : option error :=
  if String.eqb rule "" then Some (EText "generated rule is empty")
  else match parse_clause rule with
       | Some e => Some (EWrap "parsing clause failed: " e)
       | None => if contains rule ":-" then None
                 else Some (EText "generated code is not a rule (missing ':-')")
       end.

(** The data of the prompt template. *)
Record PromptData := { pd_RuleHead : string; pd_SchemaContext : string; pd_Examples : string; pd_UserPolicy : string }.

Section GenerateRule.
Context {W : Type} (unicode_lower : string -> string) (h : Heap) (kind_name type_name : GoVal -> string)
        (template : PromptData -> res error string) (parse_clause : string -> option error)
        (llm : Envelope -> W -> W * res error Envelope).

(** [GenerateRule]; [id] is the UUID of the request envelope. *)
Definition GenerateRule (o : GeneratorOptions) (id : Z) (sample : GoVal) (policyText : string) (w : W) : W * res error string :=
  match extractSchema unicode_lower h kind_name sample with
  | Err e => (w, Err (EWrap "failed to extract schema: " e))
  | Ok schema =>
  match template {| pd_RuleHead := go_RuleHead o; pd_SchemaContext := schema; pd_Examples := go_Examples o;
                    pd_UserPolicy := policyText |} with
  | Err e => (w, Err (EWrap "failed to construct prompt: " (EWrap "failed to execute template: " e)))
  | Ok prompt =>
      let input := SetMeta (SetMeta (NewEnvelope id (GStr prompt)) "schema_sample_type" (GStr (type_name sample)))
                           "policy_text" (GStr policyText) in
      let '(w1, r) := llm input w in
      (w1, match r with
           | Err e => Err (EWrap "llm action execution failed: " e)
           | Ok out =>
               match env_Payload out with
               | GStr resp =>
                   let rule := sanitizeOutput resp in
                   match verifyRuleSyntax parse_clause rule with
                   | Some e => Err (EWrap "generated rule failed syntax check: " (ENote e (". Rule: '" +:+ rule +:+ "'")))
                   | None => Ok rule
                   end
               | v => Err (EText ("llm action returned non-string payload: expected string, got " +:+ type_name v))
               end
           end)
  end end.
End GenerateRule.

(** ** Schema hints *)

Record SchemaHint := { sh_Declarations : list string; sh_JsonKeys : list string; sh_FileType : string }.

(** A value decoded from JSON. *)
#[warnings="-register-all"]
Inductive JVal :=
| JNull
| JBool (b : bool)
| JNum
| JStr (s : string)
| JArr (l : list JVal)
| JObj (fields : list (string * JVal)).

Definition full_key (prefix k : string) : string := if String.eqb prefix "" then k else prefix +:+ "." +:+ k.

(** The line of a leaf, and of an array's first element. *)
Definition leaf_line (key : string) (v : JVal) : list string :=
  match v with
  | JNum => [key +:+ " (number)"]
  | JStr _ => [key +:+ " (string)"]
  | JBool _ => [key +:+ " (boolean)"]
  | _ => []
  end.
Definition element_line (key : string) (v : JVal) : list string :=
  match v with
  | JStr _ => [key +:+ " (array of string)"]
  | JNum => [key +:+ " (array of number)"]
  | JBool _ => [key +:+ " (array of boolean)"]
  | _ => []
  end.

(** [walkJSON] on the value of one key. *)
Fixpoint walk_value (key : string) (v : JVal) : list string :=
  let fix walk (prefix : string) (fields : list (string * JVal)) : list string :=
    match fields with
    | [] => []
    | (k, x) :: rest => (walk_value (full_key prefix k) x ++ walk prefix rest)%list
    end in
  match v with
  | JObj fields => walk key fields
  | JArr (JObj fields :: _) => walk (key +:+ "[]") fields
  | JArr (x :: _) => element_line key x
  | _ => leaf_line key v
  end.

Definition walkJSON (prefix : string) (fields : list (string * JVal)) : list string :=
  flat_map (fun '(k, v) => walk_value (full_key prefix k) v) fields.

Definition json_hint (keys : list string) : SchemaHint :=
  {| sh_Declarations := []; sh_JsonKeys := keys; sh_FileType := "json" |}.

(** [parseJSON] on the decoded value: an object, or the first element of an
    array. *)
Definition parseJSON (raw : JVal) : SchemaHint :=
  match raw with
  | JObj fields | JArr (JObj fields :: _) => json_hint (walkJSON "" fields)
  | _ => json_hint []
  end.

Definition SanitizeTerm (raw : string) : string :=
  if String.eqb raw "a" then "type"
  else
    let s := trim_cut raw ("<>" +:+ dq) in
    let s := default s (after_last_sep s) in
    replace_all "." "_" (replace_all "-" "_" s).

Definition decl_line (pred sub obj : string) : string :=
  "Decl " +:+ pred +:+ "(S, O).       % Sample: " +:+ pred +:+ "(" +:+ go_quote sub +:+ ", " +:+ go_quote obj +:+ ")".

(** The declarations of the first occurrence of every usable predicate. *)
Fixpoint hint_decls (seen : gset string) (triples : list (string * string * string)) : list string :=
  match triples with
  | [] => []
  | (s, p, o) :: rest =>
      let pred := SanitizeTerm p in
      if String.eqb pred "" || String.eqb pred "_" || bool_decide (pred ∈ seen) then hint_decls seen rest
      else decl_line pred (SanitizeTerm s) (SanitizeTerm o) :: hint_decls ({[pred]} ∪ seen) rest
  end.

Definition graph_hint (triples : list (string * string * string)) : SchemaHint :=
  {| sh_Declarations := hint_decls ∅ triples; sh_JsonKeys := []; sh_FileType := "graph" |}.

(** The part of [s] before its suffix [rest]. *)
Definition before (s rest : string) : string := str_take (String.length s - String.length rest) s.

(** The groups of the statement pattern on a trimmed line: the object is
    everything up to the final dot, at least one byte. *)
Definition graph_groups (line : string) : option (string * string * string) :=
  r1 ← after_subject line;
  r2 ← after_spaces r1;
  r3 ← after_iri r2;
  match r3 with
  | String c r => if re_space c && has_suffix r "." && (2 <=? String.length r)%nat
                  then Some (before line r1, before r2 r3, trim_space (trim_suffix r "."))
                  else None
  | "" => None
  end.

Definition parseGraph (content : string) : res error SchemaHint :=
  let '(lines, err) := scan_lines content in
  match err with
  | Some e => Err e
  | None => Ok (graph_hint (omap graph_groups (statement_lines lines)))
  end.

(** The token loop of [parseTurtle]: a token that opens a string is no
    predicate. *)
Fixpoint hint_tokens (tokens : list string) (state : TurtleState) (subject predicate : string)
  : list (string * string * string) :=
  match tokens with
  | [] => []
  | t :: rest =>
      if String.eqb t "" then hint_tokens rest state subject predicate
      else if String.eqb t "." then hint_tokens rest StateSubject subject predicate
      else if String.eqb t ";" then hint_tokens rest StatePredicate subject predicate
      else if String.eqb t "," then hint_tokens rest StateObject subject predicate
      else match state with
           | StateSubject => hint_tokens rest StatePredicate t predicate
           | StatePredicate => if has_prefix t dq then hint_tokens rest StateObject subject predicate
                               else hint_tokens rest StateObject subject t
           | StateObject => (subject, predicate, t) :: hint_tokens rest StateObject subject predicate
           end
  end.

Definition hint_parseTurtle (content : string) : SchemaHint :=
  graph_hint (hint_tokens (strings_Fields (turtle_text content)) StateSubject "" "").

(** [InferFromFile]: [content] is the file, [decode] its JSON. *)
Definition InferFromFile (unicode_lower : string -> string) (readFile : string -> res error string)
    (decode : string -> res error JVal) (path : string) : res error SchemaHint :=
  let ext := to_lower unicode_lower (filepath_Ext path) in
  if String.eqb ext ".json" then
    match readFile path with
    | Err e => Err e
    | Ok c => match decode c with Ok v => Ok (parseJSON v) | Err e => Err e end
    end
  else if String.eqb ext ".nq" || String.eqb ext ".nt" then
    match readFile path with Ok c => parseGraph c | Err e => Err e end
  else if String.eqb ext ".ttl" then
    match readFile path with Ok c => Ok (hint_parseTurtle c) | Err e => Err e end
  else Err (EText ("unsupported file type: " +:+ ext)).

(** ** The feedback loop *)

Record GeneratedPolicy := { gp_DatalogContent : string; gp_Explanation : string }.

(** [ValidatePolicySyntax] on a fresh runtime. *)
Definition ValidatePolicySyntax {St : Type} `{FactStore St} `{!Mangle St} (stdLib : string) (ctx : option error)
    (datalog schemaDeclarations : string) : option error :=
  snd (LoadFromSource stdLib ctx (stdLib +:+ nl +:+ schemaDeclarations +:+ nl +:+ datalog) NewMangleRuntime).

Section Feedback.
Context {W : Type} (validate : string -> string -> option error)
        (generate : string -> string -> W -> W * res error GeneratedPolicy).

Definition correction (userReq problem advice : string) : string :=
  userReq +:+ nl +:+ nl +:+ "[SYSTEM CORRECTION]: Previous attempt invalid." +:+ nl +:+ "Error: " +:+ problem +:+ nl +:+ advice.

(** [i] attempts are left. *)
Fixpoint feedback_loop (i : nat) (system userReq decls currentReq : string) (last : option error) (w : W)
  : W * res error GeneratedPolicy :=
  match i with
  | O => (w, Err (match last with
                  | Some e => EWrap "failed after 5 retries. Last error: " e
                  | None => EText "failed after 5 retries. Last error: %!w(<nil>)"
                  end))
  | S i =>
      let '(w1, r) := generate system currentReq w in
      match r with
      | Err e =>
          feedback_loop i system userReq decls
            (correction userReq ("Generation failed: " +:+ Error e) "Fix syntax immediately.") (Some e) w1
      | Ok p =>
          match validate (gp_DatalogContent p) decls with
          | Some e =>
              feedback_loop i system userReq decls
                (correction userReq (Error e) "Check your decl syntax. Do NOT use .Decl or .decl.") (Some e) w1
          | None => (w1, Ok p)
          end
      end
  end.

Definition max_attempts : nat := 5.

(** [GenerateWithFeedback] with the system prompt it assembled. *)
Definition GenerateWithFeedback (system userReq : string) (schema : option SchemaHint) (w : W) : W * res error GeneratedPolicy :=
  let decls := match schema with
               | Some s => match sh_Declarations s with [] => "" | l => join nl l end
               | None => ""
               end in
  feedback_loop max_attempts system userReq decls userReq None w.
End Feedback.
