(* ===== verification/RuleGenProps.v ===== *)
(** * Properties of rule generation

    The vocabulary shown to the model against the facts the engine gets, the
    samples it carries, the cleanup and checks of an answer, the bound on
    attempts. *)
From S2P Require Import Prelude GoStrings CoreErrors CoreTypes Facts Reflect Sources Datalog Runtime Reconstruct ReconstructProps Generators GeneratorsProps Knowledge Commands RuleGen.
From Stdlib Require Import Ascii String.
Open Scope string_scope.

(** ** The vocabulary of a struct *)

(** A field with a supported value and neither a JSON tag nor embedding. *)
Definition plain_field (p : FieldInfo * GoVal) : Prop :=
  fi_json (fst p) = "" /\ fi_Anonymous (fst p) = false /\ is_Some (field_type (snd p)).

Section Schema.
Context (unicode_lower : string -> string) (render : GoVal -> string) (h : Heap).

Lemma schema_predicate_path f v :
  plain_field (f, v) ->
  match field_path unicode_lower "" f with
  | Some n => exists t, field_type v = Some t /\ schema_predicate unicode_lower f v = Some (n +:+ "(EntityID, " +:+ t +:+ ")")
  | None => schema_predicate unicode_lower f v = None
  end.
Proof.
  intros (Hj & Ha & t & Ht). cbn [fst snd] in *. unfold field_path, schema_predicate. rewrite Hj, Ha, Ht.
  destruct (fi_Exported f); [|done]. destruct (String.eqb_spec (fi_mangle f) "-"); [done|]. cbn [negb].
  assert (String.eqb "" "-" || has_prefix "" "-," = false) as -> by done. cbn [andb].
  assert (String.eqb "" "" = true) as He by done. rewrite He.
  destruct (String.eqb_spec (fi_mangle f) ""); exists t; (split; [done|]); cbn; done.
Qed.

Lemma primitive_facts fuel id path v visited args :
  is_Some (field_type v) ->
  toFactsRecursive unicode_lower render h (S fuel) id path v visited args
  = Some [generatePrimitiveFact render id path v args].
Proof. intros [t Ht]. destruct v; try done. Qed.

(** The vocabulary is the facts': for a struct of plain fields without
    JSON tags, the predicates that the policy generator shows to the model
    are, in order, those of the facts that [ToFacts] gives the engine for a
    value of the struct, each with the kind of its value. *)
Theorem schema_matches_facts kind_name id fields :
  Forall plain_field fields ->
  let named := omap (fun '(f, v) => (fun n => (n, v)) <$> field_path unicode_lower "" f) fields in
  named <> [] ->
  extractSchema unicode_lower h kind_name (GStruct fields)
    = Ok ("Available Predicates: "
          +:+ join ", " (map (fun '(n, v) => n +:+ "(EntityID, " +:+ default "" (field_type v) +:+ ")") named)) /\
  ToFacts unicode_lower render h id (GStruct fields)
    = Some (map (fun '(n, v) => generatePrimitiveFact render id n v []) named).
Proof.
  intros Hf named Hne. split.
  - unfold extractSchema.
    assert (omap (fun '(f, v) => schema_predicate unicode_lower f v) fields
            = map (fun '(n, v) => n +:+ "(EntityID, " +:+ default "" (field_type v) +:+ ")") named) as ->.
    { subst named. clear Hne. induction Hf as [|[f v] fields Hp Hf IH]; [done|]. cbn [omap list_omap].
      apply schema_predicate_path in Hp. destruct (field_path unicode_lower "" f) as [n|].
      - destruct Hp as (t & Ht & ->). cbn [fmap option_fmap option_map map]. rewrite Ht. f_equal. apply IH.
      - rewrite Hp. apply IH. }
    by destruct named as [|[n v] named].
  - unfold ToFacts, to_facts_fuel. cbn [toFactsRecursive strip_iface sub_values].
    set (fuel := _ * _ + _).
    assert (mapM (fun '(p, a, x) => toFactsRecursive unicode_lower render h fuel id p x ∅ a)
              (omap (fun '(f, x) => (fun p => (p, [], x)) <$> field_path unicode_lower "" f) fields)
            = Some (map (fun '(n, v) => [generatePrimitiveFact render id n v []]) named)) as ->.
    { assert (exists k, fuel = S k) as [k ->] by (exists (pred fuel); subst fuel; unfold max_size; cbn; lia).
      subst named. clear Hne. induction Hf as [|[f v] fields (Hj & Ha & Ht) Hf IH]; [done|]. cbn [omap list_omap].
      destruct (field_path unicode_lower "" f) as [n|]; [|apply IH]. cbn [fmap option_fmap option_map mapM map].
      cbn [snd] in Ht. rewrite primitive_facts by done. cbn [mbind option_bind].
      match goal with |- context [mapM ?g ?l] => assert (mapM g l = Some (map (fun '(n, v) => [generatePrimitiveFact render id n v []])
        (omap (fun '(f, v) => (fun n => (n, v)) <$> field_path unicode_lower "" f) fields))) as -> by apply IH end.
      done. }
    cbn [fmap option_fmap option_map]. f_equal. subst named. clear.
    induction (omap _ fields) as [|[n v] l IH]; [done|]. cbn [map].
    change (mjoin (?x :: ?l)) with (x ++ mjoin l)%list. by rewrite IH.
Qed.
End Schema.

(** A JSON tag splits the two: for an exported field with a JSON name
    and no [mangle] tag, the engine's fact is called by the JSON name, while
    the predicate shown to the model is the lower-cased Go name. *)
Theorem json_name_not_in_schema unicode_lower f v t n :
  fi_Exported f = true -> fi_Anonymous f = false -> fi_mangle f = "" -> field_type v = Some t ->
  fi_json f = n -> n <> "" -> n <> "-" -> all_bytes (fun c => negb (Ascii.eqb c c_comma)) n = true ->
  field_path unicode_lower "" f = Some n /\
  schema_predicate unicode_lower f v = Some (to_lower unicode_lower (fi_Name f) +:+ "(EntityID, " +:+ t +:+ ")").
Proof.
  intros He Ha Hm Ht Hj Hn Hd Hc. unfold field_path, schema_predicate. rewrite He, Hm, Hj, Ha, Ht.
  assert (split_on c_comma n = [n]) as Hs.
  { clear -Hc. induction n as [|c n IH]; [done|]. cbn [all_bytes] in Hc. apply andb_true_iff in Hc as [Hc Hr].
    cbn [split_on]. apply negb_true_iff in Hc. rewrite Hc. by rewrite (IH Hr). }
  assert (has_prefix n "-," = false) as Hp.
  { destruct (has_prefix n "-,") eqn:Hp; [|done]. apply has_prefix_spec in Hp as [r ->]. by vm_compute in Hc. }
  rewrite Hs, Hp. destruct (String.eqb_spec n "-"); [done|]. destruct (String.eqb_spec n ""); [done|].
  cbn [negb orb andb]. done.
Qed.

(** ** Answers *)

(** A fenced rule is recovered: for a rule that starts and ends with a
    printable ASCII byte, the cleanup returns the rule, whichever of the
    known language tags opens the fence. *)
Theorem fenced_rule_recovered c mid d lang :
  solid c = true -> solid d = true -> lang ∈ ["datalog"; "mangle"; "prolog"; ""] ->
  let rule := String c (mid +:+ String d "") in
  sanitizeOutput (fence +:+ (lang +:+ nl +:+ rule +:+ nl) +:+ fence) = rule.
Proof.
  intros Hc Hd Hl rule. unfold sanitizeOutput. rewrite trim_fenced.
  set (rest := rule +:+ nl +:+ fence).
  assert (forall l, l +:+ nl +:+ rest = (l +:+ nl +:+ rule +:+ nl) +:+ fence) as Hrest
    by (intros l; unfold rest; by rewrite <- !str_app_assoc).
  rewrite <- Hrest.
  assert (forall s, trim_prefix (nl +:+ s) (fence +:+ "") = nl +:+ s) as Hnl by done.
  assert (forall k c t, trim_prefix (fence +:+ nl +:+ k) (fence +:+ String c t) = fence +:+ nl +:+ k \/ Ascii.eqb c c_nl = true) as Hkeep.
  { intros k x t. destruct (Ascii.eqb x c_nl) eqn:Hx; [by right|left; by apply trim_prefix_nl]. }
  assert (forall s l, trim_prefix (nl +:+ s) (fence +:+ l) = nl +:+ s) as Hskip by (intros; by unfold trim_prefix).
  assert (trim_prefix (trim_prefix (trim_prefix (trim_prefix (fence +:+ lang +:+ nl +:+ rest)
            (fence +:+ "datalog")) (fence +:+ "mangle")) (fence +:+ "prolog")) (fence +:+ "") = nl +:+ rest) as ->.
  { repeat (apply elem_of_cons in Hl as [-> |Hl]); [| | | |by apply elem_of_nil in Hl].
    - rewrite (str_app_assoc fence "datalog"), trim_prefix_app; try done; by rewrite !Hskip.
    - assert (trim_prefix (fence +:+ "mangle" +:+ nl +:+ rest) (fence +:+ "datalog") = fence +:+ "mangle" +:+ nl +:+ rest) as ->
        by (by unfold trim_prefix).
      rewrite (str_app_assoc fence "mangle"), trim_prefix_app; try done; by rewrite !Hskip.
    - assert (trim_prefix (fence +:+ "prolog" +:+ nl +:+ rest) (fence +:+ "datalog") = fence +:+ "prolog" +:+ nl +:+ rest) as ->
        by (by unfold trim_prefix).
      assert (trim_prefix (fence +:+ "prolog" +:+ nl +:+ rest) (fence +:+ "mangle") = fence +:+ "prolog" +:+ nl +:+ rest) as ->
        by (by unfold trim_prefix).
      rewrite (str_app_assoc fence "prolog"), trim_prefix_app; try done; by rewrite !Hskip.
    - change ("" +:+ ?x) with x. rewrite !trim_prefix_nl by done. apply trim_prefix_app. }
  assert (nl +:+ rest = (nl +:+ rule +:+ nl) +:+ fence) as -> by (unfold rest; by rewrite <- !str_app_assoc).
  rewrite trim_suffix_app. by apply trim_between_newlines.
Qed.

(** An accepted rule was checked: when [GenerateRule] returns a rule, it
    is the cleaned text of the answer of one model call on a prompt built
    from the struct's vocabulary, the Mangle parser accepts it as a clause,
    and it contains an arrow. *)
Theorem generated_rule_checked {W : Type} lower h kind_name type_name template parse_clause
    (llm : Envelope -> W -> W * res error Envelope) o id sample text w w' rule :
  GenerateRule lower h kind_name type_name template parse_clause llm o id sample text w = (w', Ok rule) ->
  exists schema prompt input out answer,
    extractSchema lower h kind_name sample = Ok schema /\
    template {| pd_RuleHead := go_RuleHead o; pd_SchemaContext := schema; pd_Examples := go_Examples o; pd_UserPolicy := text |}
      = Ok prompt /\
    env_Payload input = GStr prompt /\ llm input w = (w', Ok out) /\ env_Payload out = GStr answer /\
    rule = sanitizeOutput answer /\ parse_clause rule = None /\ contains rule ":-" = true.
Proof.
  unfold GenerateRule. destruct (extractSchema lower h kind_name sample) as [schema|]; [|done].
  destruct (template _) as [prompt|] eqn:Ht; [|done].
  match goal with |- context [llm ?i w] => set (input := i) end.
  destruct (llm input w) as [w1 [out|e]] eqn:Hl; [|done].
  destruct (env_Payload out) as [| | | | |answer| | | | | | | |] eqn:Ho; try done.
  unfold verifyRuleSyntax. destruct (String.eqb (sanitizeOutput answer) ""); [done|].
  destruct (parse_clause (sanitizeOutput answer)) as [e|] eqn:Hp; [done|].
  destruct (contains (sanitizeOutput answer) ":-") eqn:Hc; [|done]. intros [= <- <-].
  exists schema, prompt, input, out, answer. by split_and!.
Qed.

(** The arrow test does not tell rules from facts: a fact whose text
    holds the two characters passes wherever the parser accepts it as a
    clause, and the requested rule head is not compared at all. *)
Theorem fact_passes_as_rule parse_clause :
  let fact := "note(" +:+ dq +:+ "a :- b" +:+ dq +:+ ")." in
  parse_clause fact = None -> verifyRuleSyntax parse_clause fact = None.
Proof. intros fact H. unfold verifyRuleSyntax. rewrite H. by vm_compute. Qed.

(** ** Samples *)

Lemma cut_comment_app prev a b :
  all_bytes (fun c => negb (Ascii.eqb c c_dq) && negb (Ascii.eqb c "%") && negb (Ascii.eqb c "/")) a = true ->
  cut_comment prev false (a +:+ String "%" b) = a.
Proof.
  assert (is_comment_start (String "%" b) = true) as Hpc.
  { unfold is_comment_start. rewrite (proj2 (has_prefix_spec (String "%" b) "%")) by (by exists b). done. }
  revert prev. induction a as [|c a IH]; intros prev Ha.
  { cbn [String.append cut_comment]. rewrite Hpc. by destruct prev. }
  cbn [all_bytes] in Ha. apply andb_true_iff in Ha as [Hc Ha]. apply andb_true_iff in Hc as [Hc Hs].
  apply andb_true_iff in Hc as [Hq Hp]. apply negb_true_iff, Ascii.eqb_neq in Hq, Hp, Hs.
  cbn [String.append cut_comment].
  assert ((bval c =? 34)%Z = false) as Hb.
  { apply Z.eqb_neq. intros E. apply Hq. apply bval_inj. by rewrite E. }
  rewrite Hb. cbn [andb negb].
  assert (is_comment_start (String c (a +:+ String "%" b)) = false) as Hcs.
  { unfold is_comment_start, has_prefix. cbn [String.prefix]. repeat case_match; simplify_eq; try done. }
  rewrite Hcs. f_equal. by apply IH.
Qed.

Lemma last_space_len_head c s : solid c = true -> last_space_len (String c s) < String.length (String c s).
Proof.
  intros Hc. unfold last_space_len. cbn [String.length].
  pose proof (solid_space_len c) as Hsp.
  destruct (Nat.eqb_spec (space_len (str_drop (S (String.length s) - 1) (String c s))) 1) as [H1|H1].
  - cbn [Nat.leb andb]. destruct s as [|d s]; [|cbn [String.length]; lia]. cbn [String.length Nat.sub str_drop] in H1.
    rewrite Hsp in H1 by done. done.
  - rewrite andb_false_r.
    destruct (2 <=? S (String.length s))%nat eqn:H2; cbn [andb].
    + apply Nat.leb_le in H2. destruct (Nat.eqb_spec (space_len (str_drop (S (String.length s) - 2) (String c s))) 2) as [E2|E2].
      * destruct (decide (String.length s = 1)) as [E|]; [|lia]. rewrite E in E2. cbn [Nat.sub str_drop] in E2.
        rewrite Hsp in E2 by done. done.
      * destruct (3 <=? S (String.length s))%nat eqn:H3; cbn [andb]; [|lia]. apply Nat.leb_le in H3.
        destruct (Nat.eqb_spec (space_len (str_drop (S (String.length s) - 3) (String c s))) 3) as [E3|E3]; [|lia].
        destruct (decide (String.length s = 2)) as [E|]; [|lia]. rewrite E in E3. cbn [Nat.sub str_drop] in E3.
        rewrite Hsp in E3 by done. done.
    + destruct (3 <=? S (String.length s))%nat eqn:H3; cbn [andb]; [|lia]. apply Nat.leb_le in H3. apply Nat.leb_gt in H2. lia.
Qed.

Lemma trim_right_fuel_head fuel c s : solid c = true -> exists t, trim_right_fuel fuel (String c s) = String c t.
Proof.
  intros Hc. revert s. induction fuel as [|f IH]; intros s; [by exists s|]. cbn [trim_right_fuel].
  pose proof (last_space_len_head c s Hc) as Hl. destruct (last_space_len (String c s)) as [|n]; [by exists s|].
  cbn [String.length] in *. replace (S (String.length s) - S n) with (S (String.length s - S n)) by lia.
  cbn [str_take]. apply IH.
Qed.

Lemma trim_space_head c s : solid c = true -> exists t, trim_space (String c s) = String c t.
Proof. intros Hc. unfold trim_space. rewrite trim_left_solid by done. by apply trim_right_fuel_head. Qed.

(** Text that an identifier consists of. *)
Definition ident_text (s : string) : Prop :=
  all_bytes (fun c => negb (Ascii.eqb c c_dq) && negb (Ascii.eqb c "%") && negb (Ascii.eqb c "/")) s = true.

(** Sample values are inert: whatever the subject and object of the
    sample file are, the line of a declaration reaches the engine as the
    declaration alone; the sample is cut off as a comment. *)
Theorem sample_text_inert pred sub obj :
  ident_text pred -> clean_line (decl_line pred sub obj) = Some ("Decl " +:+ pred +:+ "(S, O).       ").
Proof.
  intros Hp. unfold clean_line, decl_line.
  assert (exists b, "Decl " +:+ pred +:+ "(S, O).       % Sample: " +:+ pred +:+ "(" +:+ go_quote sub +:+ ", " +:+ go_quote obj +:+ ")"
          = ("Decl " +:+ pred +:+ "(S, O).       ") +:+ String "%" b) as [b ->].
  { eexists. rewrite <- !str_app_assoc. reflexivity. }
  assert (cut_comment None false (("Decl " +:+ pred +:+ "(S, O).       ") +:+ String "%" b) = "Decl " +:+ pred +:+ "(S, O).       ") as Hcut.
  { apply cut_comment_app. rewrite !all_bytes_cat. unfold ident_text in Hp. rewrite Hp. done. }
  rewrite Hcut. change (("Decl " +:+ pred +:+ "(S, O).       ") +:+ String "%" b)
    with (String "D" (("ecl " +:+ pred +:+ "(S, O).       ") +:+ String "%" b)).
  destruct (trim_space_head "D" (("ecl " +:+ pred +:+ "(S, O).       ") +:+ String "%" b) eq_refl) as [t ->].
  change ("Decl " +:+ pred +:+ "(S, O).       ") with (String "D" ("ecl " +:+ pred +:+ "(S, O).       ")).
  destruct (trim_space_head "D" ("ecl " +:+ pred +:+ "(S, O).       ") eq_refl) as [t' ->]. done.
Qed.

(** ** The inferred vocabulary *)

Definition unquoted (s : string) : bool := all_bytes (fun c => negb (Ascii.eqb c c_dq)) s.

Lemma in_cutset_quote c : Ascii.eqb c c_dq = false -> in_cutset ("<>" +:+ dq) c = in_cutset "<>" c.
Proof.
  intros Hc. apply Ascii.eqb_neq in Hc. unfold in_cutset, contains, dq. cbn [String.append index_of].
  unfold has_prefix. cbn [String.prefix]. repeat case_match; simplify_eq; done.
Qed.

Lemma trim_left_cut_quote s :
  unquoted s = true -> trim_left_cut ("<>" +:+ dq) s = trim_left_cut "<>" s /\ unquoted (trim_left_cut "<>" s) = true.
Proof.
  unfold unquoted. induction s as [|c s IH]; [done|]. intros H. pose proof H as H'. cbn [all_bytes] in H.
  apply andb_true_iff in H as [Hc Hs]. cbn [trim_left_cut]. rewrite in_cutset_quote by by apply negb_true_iff.
  destruct (in_cutset "<>" c); [by apply IH|done].
Qed.

Lemma SanitizeTerm_unquoted p : unquoted p = true -> SanitizeTerm p = SanitizePredicate p.
Proof.
  intros Hp. unfold SanitizeTerm, SanitizePredicate, trim_cut. destruct (String.eqb p "a"); [done|].
  destruct (trim_left_cut_quote p Hp) as [-> Hu].
  destruct (trim_left_cut_quote (str_rev (trim_left_cut "<>" p))) as [-> _]; [|done].
  unfold unquoted in *. by rewrite all_bytes_rev.
Qed.

(** The tokens in predicate position hold no quote. *)
Fixpoint unquoted_predicates (tokens : list string) (state : TurtleState) : bool :=
  match tokens with
  | [] => true
  | t :: rest =>
      if String.eqb t "" then unquoted_predicates rest state
      else if String.eqb t "." then unquoted_predicates rest StateSubject
      else if String.eqb t ";" then unquoted_predicates rest StatePredicate
      else if String.eqb t "," then unquoted_predicates rest StateObject
      else match state with
           | StateSubject => unquoted_predicates rest StatePredicate
           | StatePredicate => unquoted t && unquoted_predicates rest StateObject
           | StateObject => unquoted_predicates rest StateObject
           end
  end.

Lemma hint_tokens_agree tokens state s p :
  unquoted_predicates tokens state = true ->
  map (fun '(s, p, o) => {| tr_Subject := s; tr_Predicate := SanitizePredicate p; tr_Object := o |}) (hint_tokens tokens state s p)
  = turtle_tokens tokens state s (SanitizePredicate p) /\
  (unquoted p = true -> Forall (fun '(_, p, _) => unquoted p = true) (hint_tokens tokens state s p)).
Proof.
  revert state s p. induction tokens as [|t rest IH]; intros state s p; cbn [unquoted_predicates hint_tokens turtle_tokens].
  { intros _. split; [done|constructor]. }
  destruct (String.eqb t ""); [apply IH|]. destruct (String.eqb t "."); [apply IH|].
  destruct (String.eqb t ";"); [apply IH|]. destruct (String.eqb t ","); [apply IH|].
  destruct state; [apply IH| |].
  - intros [Ht Hr]%andb_true_iff. assert (has_prefix t dq = false) as ->.
    { destruct (has_prefix t dq) eqn:Hp; [|done]. apply has_prefix_spec in Hp as [r ->]. by vm_compute in Ht. }
    destruct (IH StateObject s t Hr) as [H1 H2]. split; [done|]. intros _. by apply H2.
  - intros Hr. destruct (IH StateObject s p Hr) as [H1 H2]. cbn [map]. rewrite H1. split; [done|].
    intros Hp. constructor; [done|by apply H2].
Qed.

Definition usable (p : string) : bool := negb (String.eqb p "" || String.eqb p "_").

Lemma hint_decls_seen seen triples :
  Forall (fun '(_, p, _) => unquoted p = true) triples ->
  exists samples,
    List.length samples = List.length (List.filter usable (first_seen seen (map (fun '(_, p, _) => SanitizePredicate p) triples))) /\
    forall seen', (forall q, usable q = true -> (q ∈ seen <-> q ∈ seen')) ->
    hint_decls seen' triples
    = zip_with (fun p '(s, o) => decl_line p s o)
        (List.filter usable (first_seen seen (map (fun '(_, p, _) => SanitizePredicate p) triples))) samples.
Proof.
  revert seen. induction triples as [|[[s p] o] triples IH]; intros seen Hf; [by exists []|].
  apply Forall_cons in Hf as [Hp Hf]. cbn [map first_seen hint_decls].
  rewrite (SanitizeTerm_unquoted p Hp). set (q := SanitizePredicate p).
  destruct (decide (q ∈ seen)) as [Hin|Hni].
  - destruct (IH seen Hf) as (samples & Hl & Hs). exists samples. split; [done|]. intros seen' Hseen.
    destruct (usable q) eqn:Hu.
    + assert (q ∈ seen') as Hin' by (by apply Hseen). rewrite (bool_decide_eq_true_2 _ Hin'), orb_true_r. by apply Hs.
    + unfold usable in Hu. apply negb_false_iff in Hu. rewrite Hu. by apply Hs.
  - destruct (IH ({[q]} ∪ seen) Hf) as (samples & Hl & Hs). cbn [List.filter].
    destruct (usable q) eqn:Hu.
    + exists ((SanitizeTerm s, SanitizeTerm o) :: samples). split; [cbn; by rewrite Hl|]. intros seen' Hseen.
      assert (q ∉ seen') as Hni' by (by rewrite <- Hseen). rewrite (bool_decide_eq_false_2 _ Hni'), orb_false_r.
      unfold usable in Hu. apply negb_true_iff in Hu. rewrite Hu. cbn [zip_with]. f_equal. apply Hs. intros r Hr.
      rewrite !elem_of_union, !elem_of_singleton. by rewrite (Hseen r Hr).
    + exists samples. split; [done|]. intros seen' Hseen. pose proof Hu as Hu'. unfold usable in Hu'.
      apply negb_false_iff in Hu'. rewrite Hu'. cbn [orb]. apply Hs. intros r Hr. rewrite elem_of_union, elem_of_singleton.
      rewrite <- (Hseen r Hr). split; [|by right]. intros [->|H]; [congruence|done].
Qed.

(** C30: The model is taught the predicates that are loaded: for a Turtle file
    whose predicates hold no quotes, the declarations inferred for the prompt
    are, one each and in order of first use, those of exactly the predicates
    that loading the same file yields, except an empty or underscore name. *)
Theorem turtle_vocabulary_agrees content :
  unquoted_predicates (strings_Fields (turtle_text content)) StateSubject = true ->
  let loaded := List.filter usable (GetPredicates (parseTurtle content)) in
  exists samples, List.length samples = List.length loaded /\
    sh_Declarations (hint_parseTurtle content) = zip_with (fun p '(s, o) => decl_line p s o) loaded samples.
Proof.
  intros Hu loaded. subst loaded. unfold GetPredicates, parseTurtle, hint_parseTurtle.
  destruct (hint_tokens_agree _ StateSubject "" "" Hu) as [Ha Hf]. specialize (Hf eq_refl).
  change (SanitizePredicate "") with "" in Ha. rewrite <- Ha, map_map.
  destruct (hint_decls_seen ∅ _ Hf) as (samples & Hl & Hs). exists samples.
  assert (map (fun x => tr_Predicate (let '(s, p, o) := x in
            {| tr_Subject := s; tr_Predicate := SanitizePredicate p; tr_Object := o |}))
            (hint_tokens (strings_Fields (turtle_text content)) StateSubject "" "")
          = map (fun '(_, p, _) => SanitizePredicate p) (hint_tokens (strings_Fields (turtle_text content)) StateSubject "" "")) as ->.
  { apply map_ext. by intros [[s p] o]. }
  split; [done|]. cbn [graph_hint sh_Declarations]. by apply Hs.
Qed.

(** ** The feedback loop *)

(** A generator that also counts its calls. *)
Definition counted {W : Type} (generate : string -> string -> W -> W * res error GeneratedPolicy)
    (system req : string) (s : nat * W) : (nat * W) * res error GeneratedPolicy :=
  let '(w1, r) := generate system req (snd s) in ((S (fst s), w1), r).

Lemma feedback_loop_calls {W : Type} validate (generate : string -> string -> W -> W * res error GeneratedPolicy)
    i system userReq decls req last n (w : W) :
  let '((n', _), r) := feedback_loop validate (counted generate) i system userReq decls req last (n, w) in
  match r with
  | Ok p => validate (gp_DatalogContent p) decls = None /\ n < n' <= n + i
  | Err _ => n' = n + i
  end.
Proof.
  revert req last n w. induction i as [|i IH]; intros req last n w; cbn [feedback_loop]; [lia|].
  unfold counted at 1. cbn [fst snd]. destruct (generate system req w) as [w1 [p|e]].
  - destruct (validate (gp_DatalogContent p) decls) as [e|] eqn:Hv; [|split; [done|lia]].
    match goal with |- context [feedback_loop _ _ i _ _ _ ?r ?l ?s] => specialize (IH r l (S n) w1) end.
    destruct (feedback_loop _ _ _ _ _ _ _ _ _) as [[n' w2] [q|e2]]; [destruct IH; split; [done|lia]|lia].
  - match goal with |- context [feedback_loop _ _ i _ _ _ ?r ?l ?s] => specialize (IH r l (S n) w1) end.
    destruct (feedback_loop _ _ _ _ _ _ _ _ _) as [[n' w2] [q|e2]]; [destruct IH; split; [done|lia]|lia].
Qed.

(** The feedback loop is bounded and never hands out an invalid policy:
    the model is asked between one and five times, a policy that is returned
    was accepted by the engine together with the inferred declarations, and
    the loop fails only after the fifth attempt. *)
Theorem feedback_bounded {W : Type} validate (generate : string -> string -> W -> W * res error GeneratedPolicy)
    system userReq schema (w : W) :
  let '((n, _), r) := GenerateWithFeedback validate (counted generate) system userReq schema (0, w) in
  match r with
  | Ok p => 1 <= n <= 5 /\
      validate (gp_DatalogContent p)
        (match schema with Some s => join nl (sh_Declarations s) | None => "" end) = None
  | Err _ => n = 5
  end.
Proof.
  unfold GenerateWithFeedback.
  assert (match schema with Some s => match sh_Declarations s with [] => "" | (_ :: _) as l => join nl l end | None => "" end
          = match schema with Some s => join nl (sh_Declarations s) | None => "" end) as ->
    by (destruct schema as [s|]; [by destruct (sh_Declarations s)|done]).
  match goal with |- context [feedback_loop _ _ _ _ _ ?d _ _ _] =>
    pose proof (feedback_loop_calls validate generate max_attempts system userReq d userReq None 0 w) as H end.
  destruct (feedback_loop _ _ _ _ _ _ _ _ _) as [[n w2] [p|e]]; [destruct H; split; [unfold max_attempts in *; lia|done]|done].
Qed.

(** ** Concrete runs *)

Definition exported (name mangle json : string) : FieldInfo :=
  {| fi_Name := name; fi_Exported := true; fi_Anonymous := false; fi_mangle := mangle; fi_json := json |}.
Definition blank (_ : GoVal) : string := "".

Lemma schema_matches_facts_witness :
  extractSchema id ∅ blank (GStruct [(exported "amount" "" "", GInt 5); (exported "R" "region" "", GStr "UK")])
    = Ok "Available Predicates: amount(EntityID, IntValue), region(EntityID, StringValue)" /\
  ToFacts id blank ∅ "Req" (GStruct [(exported "amount" "" "", GInt 5); (exported "R" "region" "", GStr "UK")])
    = Some [generatePrimitiveFact blank "Req" "amount" (GInt 5) []; generatePrimitiveFact blank "Req" "region" (GStr "UK") []].
Proof.
  apply (schema_matches_facts id blank ∅ blank "Req" [(exported "amount" "" "", GInt 5); (exported "R" "region" "", GStr "UK")]).
  - repeat constructor; eexists; reflexivity.
  - done.
Defined.

Lemma json_name_not_in_schema_witness :
  field_path (map_bytes lower_byte) "" (exported "AmountUSD" "" "amount_usd") = Some "amount_usd" /\
  schema_predicate (map_bytes lower_byte) (exported "AmountUSD" "" "amount_usd") (GInt 5) = Some "amountusd(EntityID, IntValue)".
Proof.
  exact (json_name_not_in_schema (map_bytes lower_byte) (exported "AmountUSD" "" "amount_usd") (GInt 5) "IntValue" "amount_usd"
    eq_refl eq_refl eq_refl eq_refl eq_refl ltac:(done) ltac:(done) eq_refl).
Defined.

Lemma fenced_rule_recovered_witness :
  sanitizeOutput (fence +:+ ("mangle" +:+ nl +:+ "deny(Req) :- amount(Req, X)." +:+ nl) +:+ fence)
  = "deny(Req) :- amount(Req, X).".
Proof.
  exact (fenced_rule_recovered "d" "eny(Req) :- amount(Req, X)" "." "mangle" eq_refl eq_refl
    ltac:(right; left)).
Defined.

Lemma sample_text_inert_witness :
  clean_line (decl_line "name" "alice" ("x" +:+ dq +:+ "). halt(" +:+ dq)) = Some "Decl name(S, O).       ".
Proof. exact (sample_text_inert "name" "alice" ("x" +:+ dq +:+ "). halt(" +:+ dq) eq_refl). Defined.

Definition foaf_text : string :=
  "<http://e/alice> a foaf:Person ;" +:+ nl +:+ " foaf:name " +:+ dq +:+ "Alice" +:+ dq +:+ " ; foaf:knows <http://e/bob> .".

Lemma turtle_vocabulary_agrees_witness :
  List.filter usable (GetPredicates (parseTurtle foaf_text)) = ["type"; "name"; "knows"] /\
  exists samples, List.length samples = 3 /\
    sh_Declarations (hint_parseTurtle foaf_text) = zip_with (fun p '(s, o) => decl_line p s o) ["type"; "name"; "knows"] samples.
Proof.
  assert (List.filter usable (GetPredicates (parseTurtle foaf_text)) = ["type"; "name"; "knows"]) as Hl by by_vm.
  split; [done|]. destruct (turtle_vocabulary_agrees foaf_text) as (samples & Hn & Hd); [by_vm|].
  rewrite Hl in Hn, Hd. by exists samples.
Defined.

Definition canned_answer (_ : Envelope) (w : nat) : nat * res error Envelope :=
  (S w, Ok (NewEnvelope 2 (GStr "deny(Req) :- amount(Req, 5)."))).

Lemma generated_rule_checked_witness :
  exists rule, GenerateRule id ∅ blank blank (fun d => Ok (pd_SchemaContext d)) (fun _ => None) canned_answer
      (with_defaults "t" "e" {| go_RuleHead := ""; go_PromptTemplate := ""; go_Examples := "" |}) 1
      (GStruct [(exported "amount" "" "", GInt 5)]) "block" 0 = (1, Ok rule) /\ contains rule ":-" = true.
Proof.
  eexists. split; [reflexivity|].
  destruct (generated_rule_checked id ∅ blank blank (fun d => Ok (pd_SchemaContext d)) (fun _ => None) canned_answer
      (with_defaults "t" "e" {| go_RuleHead := ""; go_PromptTemplate := ""; go_Examples := "" |}) 1
      (GStruct [(exported "amount" "" "", GInt 5)]) "block" 0 1 _ eq_refl) as (s & p & i & o & a & _ & _ & _ & _ & _ & _ & _ & H).
  exact H.
Defined.
