(* ===== verification/Bridges.v ===== *)
(** * Adapters at the edge

    [adapters/storage/meb/bridge.go] (knowledge recall over a quad scan),
    [adapters/vector/retriever_adapter.go], [internal/statehelper] (the
    conversation history of a session), [adapters/extractor/adapter.go], and
    the terms of [cmd/mkit/commands/kg/convert.go].

    The scan of the store, the retriever, the models and JSON are parameters;
    a scan is the sequence its iterator yields.

    Its properties:
    What recall returns and hides, the history of a conversation across turns
    and failures, what extraction forgets. *)
From S2P Require Import Prelude GoStrings CoreErrors CoreTypes Facts Reflect Sources Datalog Runtime Ooda Knowledge Generators.
From Stdlib Require Import Ascii String.
Open Scope string_scope.

(** ** The knowledge bridge *)

Record MEBFact := { mf_Subject : string; mf_Predicate : string; mf_Object : GoVal; mf_Graph : string }.

Section Bridge.
Context (render : GoVal -> string) (scan : string -> string -> string -> string -> list (res error MEBFact)).

Definition toAtom (f : MEBFact) : GateAtom :=
  {| a_Predicate := mf_Predicate f; a_Subject := mf_Subject f; a_Object := fmt_v render (mf_Object f) |}.
Definition toQuad (f : MEBFact) : Quad :=
  {| q_Subject := mf_Subject f; q_Predicate := mf_Predicate f; q_Object := fmt_v render (mf_Object f); q_Graph := mf_Graph f |}.

Definition same_atom (a b : GateAtom) : bool :=
  String.eqb (a_Subject a) (a_Subject b) && String.eqb (a_Predicate a) (a_Predicate b)
  && String.eqb (a_Object a) (a_Object b).
Definition containsAtom (atoms : list GateAtom) (atom : GateAtom) : bool := existsb (fun a => same_atom a atom) atoms.

Definition scoped (bridgeGraph graphID : string) : string := if String.eqb graphID "" then bridgeGraph else graphID.
Definition bridge_graph (graphID : string) : string := if String.eqb graphID "" then "default" else graphID.

(** The facts a loop sees before it breaks on an error. *)
Fixpoint until_error (l : list (res error MEBFact)) : list MEBFact :=
  match l with Ok f :: rest => f :: until_error rest | _ => [] end.

(** The two loops of [Recall]; [topK - count] is what may still be added. *)
Fixpoint take_subjects (topK count : Z) (l : list MEBFact) : list GateAtom :=
  match l with
  | [] => []
  | f :: rest => if (topK <=? count)%Z then [] else toAtom f :: take_subjects topK (count + 1) rest
  end.
Fixpoint add_predicates (topK count : Z) (atoms : list GateAtom) (l : list MEBFact) : list GateAtom :=
  match l with
  | [] => atoms
  | f :: rest =>
      if (topK <=? count)%Z then atoms
      else if containsAtom atoms (toAtom f) then add_predicates topK count atoms rest
      else add_predicates topK (count + 1) (atoms ++ [toAtom f])%list rest
  end.

(** [Recall]; the error it returns is always nil. *)
Definition bridge_Recall (bridgeGraph query : string) (topK : Z) (graphID : string) : list GateAtom :=
  let g := scoped bridgeGraph graphID in
  let atoms := take_subjects topK 0 (until_error (scan query "" "" g)) in
  let count := Z.of_nat (List.length atoms) in
  if (count <? topK)%Z then add_predicates topK count atoms (until_error (scan "" query "" g)) else atoms.

Definition bridge_GetFacts (bridgeGraph subject predicate object graphID : string) : list Quad :=
  map toQuad (until_error (scan subject predicate object (scoped bridgeGraph graphID))).

(** [StreamFacts] against a consumer with a state. *)
Fixpoint stream_to {S : Type} (yield : Quad -> S -> S * bool) (l : list MEBFact) (s : S) : S :=
  match l with
  | [] => s
  | f :: rest => let '(s', more) := yield (toQuad f) s in if more then stream_to yield rest s' else s'
  end.
Definition bridge_StreamFacts {S : Type} (bridgeGraph subject predicate object graphID : string)
    (yield : Quad -> S -> S * bool) (s : S) : S :=
  stream_to yield (until_error (scan subject predicate object (scoped bridgeGraph graphID))) s.

End Bridge.

(** ** Conversation histories *)

Record ChatMessage := { cm_Role : string; cm_Content : string }.

Section History.
Context {W : Type}.
(** [StateProvider]: what [Get] returns is nil, a byte slice or some other
    value. *)
Inductive HistoryRaw := RNil | RBytes (b : string) | ROther.
Record HistoryProvider := { sp_Get : string -> W -> W * res error HistoryRaw; sp_Set : string -> string -> W -> W * option error }.
Context (marshal : list ChatMessage -> res error string) (unmarshal : string -> list ChatMessage * option error).

(** [LoadHistory]: [unmarshal] returns what it filled in before an error.
    On an error of [Get], the state it returned is still looked at; the
    providers return nil then. *)
Definition LoadHistory (sessionID : string) (sp : option HistoryProvider) (w : W) : W * list ChatMessage :=
  match sp with
  | None => (w, [])
  | Some sp =>
      if String.eqb sessionID "" then (w, [])
      else
        let '(w1, r) := sp_Get sp sessionID w in
        (w1, match r with Ok (RBytes b) => fst (unmarshal b) | _ => [] end)
  end.

(** [UpdateAndSaveHistory]: the history afterwards and the world. *)
Definition UpdateAndSaveHistory (sessionID : string) (sp : option HistoryProvider) (history : list ChatMessage)
    (query answer : string) (w : W) : W * list ChatMessage :=
  match sp with
  | None => (w, history)
  | Some sp =>
      if String.eqb sessionID "" then (w, history)
      else
        let h := (history ++ [{| cm_Role := "user"; cm_Content := query |}; {| cm_Role := "model"; cm_Content := answer |}])%list in
        match marshal h with
        | Err _ => (w, h)
        | Ok b => (fst (sp_Set sp sessionID b w), h)
        end
  end.

End History.

(** ** Retrieval and extraction *)

Section Actions.
Context {W : Type} (type_name : GoVal -> string).

Record RetrievedDoc := { rd_Content : string; rd_Source : string }.

(** [RetrieverAction.Execute]; [marshal_docs] is [json.Marshal] of the
    documents. *)
Definition retriever_Execute (name : string) (retrieve : string -> W -> W * res error (list RetrievedDoc))
    (marshal_docs : list RetrievedDoc -> res error string) (id : Z) (input : Envelope) (w : W) : W * res error Envelope :=
  match env_Payload input with
  | GStr query =>
      let '(w1, r) := retrieve query w in
      (w1, match r with
           | Err e => Err (EWrap "retrieval failed: " e)
           | Ok docs =>
               match marshal_docs docs with
               | Err e => Err (EWrap "failed to marshal documents: " e)
               | Ok text =>
                   Ok (SetMeta (SetMeta (NewEnvelope id (GStr text)) "doc_count" (GStr (pretty (Z.of_nat (List.length docs)))))
                               "action_name" (GStr name))
               end
           end)
  | v => (w, Err (ENote (ESentinel ErrSystemError) (": invalid input type, expected string but got " +:+ type_name v)))
  end.

Fixpoint doc_sections (i : Z) (docs : list RetrievedDoc) : string :=
  match docs with
  | [] => ""
  | d :: rest => "Document " +:+ pretty i +:+ " (Source: " +:+ rd_Source d +:+ "):" +:+ nl +:+ rd_Content d +:+ nl +:+ nl
                 +:+ doc_sections (i + 1) rest
  end.

Definition FormatDocsAsContext (unmarshal_docs : string -> res error (list RetrievedDoc)) (text : string) : res error string :=
  match unmarshal_docs text with
  | Err e => Err (EWrap "failed to unmarshal documents: " e)
  | Ok [] => Ok "No relevant documents found."
  | Ok docs => Ok (doc_sections 1 docs)
  end.

Definition extraction_prompt (schema input : string) : string :=
  "SYSTEM: You are a precise Data Extraction Agent." +:+ nl
  +:+ "Your goal is to extract information from the user text to match the following JSON Schema:" +:+ nl
  +:+ schema +:+ nl +:+ nl +:+ "Return ONLY the raw JSON object. No markdown, no explanations." +:+ nl +:+ nl +:+ "USER: " +:+ input.

(** [ExtractorAction.Execute]; [unmarshal_target] is [json.Unmarshal] into
    the target type. *)
Definition extractor_Execute (llm : Envelope -> W -> W * res error Envelope) (schema : string)
    (unmarshal_target : string -> res error GoVal) (id id' : Z) (input : Envelope) (w : W) : W * res error Envelope :=
  match env_Payload input with
  | GStr text =>
      let '(w1, r) := llm (NewEnvelope id (GStr (extraction_prompt schema text))) w in
      (w1, match r with
           | Err e => Err (EWrap "llm execution failed: " e)
           | Ok out =>
               match env_Payload out with
               | GStr resp =>
                   match unmarshal_target resp with
                   | Err e => Err (ENote (ESentinel ErrSystemError) (": extraction failed: " +:+ Error e))
                   | Ok v => Ok (NewEnvelope id' v)
                   end
               | v => Err (EText ("llm response payload is not string, got " +:+ type_name v))
               end
           end)
  | v => (w, Err (EText ("input payload must be string, got " +:+ type_name v)))
  end.

End Actions.

(** ** Terms of a converted graph *)

Inductive QuadTerm := QIRI (s : string) | QString (s : string).

Definition toIRI (v : string) : QuadTerm := QIRI (trim_cut (trim_space v) "<>").

Definition toTerm (v : string) : QuadTerm :=
  let v := trim_space v in
  if has_prefix v "<" && has_suffix v ">" then QIRI (trim_cut v "<>")
  else let v := match index_of v "^^" with Some i => str_take i v | None => v end in
       QString (trim_cut (trim_space v) dq).

(** [copyTurtle]; [write] is [WriteQuad]. *)
Fixpoint copy_triples {W : Type} (write : QuadTerm * QuadTerm * QuadTerm -> W -> W * option error) (n : Z)
    (triples : list Triple) (w : W) : W * (Z * option error) :=
  match triples with
  | [] => (w, (n, None))
  | t :: rest =>
      let '(w1, err) := write (toIRI (tr_Subject t), toIRI (tr_Predicate t), toTerm (tr_Object t)) w in
      match err with
      | Some e => (w1, (n, Some (EWrap "failed to write quad: " e)))
      | None => copy_triples write (n + 1) rest w1
      end
  end.

(** ** Properties *)

(** ** The knowledge bridge *)

Section Bridge.
Context (render : GoVal -> string) (scan : string -> string -> string -> string -> list (res error MEBFact)).
Abbreviation toAtom' := (Bridges.toAtom render).
Abbreviation toQuad' := (Bridges.toQuad render).
Abbreviation take_subjects' := (Bridges.take_subjects render).
Abbreviation add_predicates' := (Bridges.add_predicates render).
Abbreviation bridge_Recall' := (Bridges.bridge_Recall render scan).
Abbreviation bridge_GetFacts' := (Bridges.bridge_GetFacts render scan).
Abbreviation stream_to' := (Bridges.stream_to render).
Abbreviation bridge_StreamFacts' := (Bridges.bridge_StreamFacts render scan).

Lemma take_subjects_spec topK n l :
  exists k, take_subjects' topK n l = map toAtom' (take k l) /\ (Z.of_nat k <= Z.max 0 (topK - n))%Z.
Proof.
  revert n. induction l as [|f l IH]; intros n; cbn [take_subjects]; [exists 0; split; [done|lia]|].
  destruct (Z.leb_spec topK n); [exists 0; split; [done|lia]|].
  destruct (IH (n + 1)%Z) as (k & -> & Hk). exists (S k). split; [done|lia].
Qed.

Lemma add_predicates_spec topK n atoms l :
  exists added, add_predicates' topK n atoms l = (atoms ++ added)%list /\
    (Z.of_nat (List.length added) <= Z.max 0 (topK - n))%Z /\
    Forall (fun a => exists f, f ∈ l /\ a = toAtom' f) added /\
    (forall i a, added !! i = Some a -> containsAtom (atoms ++ take i added)%list a = false).
Proof.
  revert n atoms. induction l as [|f l IH]; intros n atoms; cbn [add_predicates].
  { exists []. rewrite app_nil_r. split_and!; [done|cbn; lia|constructor|done]. }
  assert (forall added, Forall (fun a => exists g, g ∈ l /\ a = toAtom' g) added ->
                        Forall (fun a => exists g, g ∈ f :: l /\ a = toAtom' g) added) as Hmono.
  { intros added Ha. eapply Forall_impl; [exact Ha|]. intros a (g & Hg & ->). exists g. split; [by right|done]. }
  destruct (Z.leb_spec topK n).
  { exists []. rewrite app_nil_r. split_and!; [done|cbn; lia|constructor|done]. }
  destruct (containsAtom atoms (toAtom' f)) eqn:Hc.
  - destruct (IH n atoms) as (added & -> & H1 & H2 & H3). exists added. split_and!; [done|done|by apply Hmono|done].
  - destruct (IH (n + 1)%Z (atoms ++ [toAtom' f])%list) as (added & -> & H1 & H2 & H3).
    exists (toAtom' f :: added). rewrite <- app_assoc. split_and!; [done|cbn [List.length]; lia| |].
    + constructor; [exists f; split; [by left|done]|by apply Hmono].
    + intros [|i] a; cbn [lookup list_lookup take].
      * intros [= <-]. by rewrite app_nil_r.
      * intros Ha. specialize (H3 i a Ha). by rewrite <- app_assoc in H3.
Qed.

(** Recall is bounded and sound: at most [topK] atoms come back; each is
    a fact of the scan by subject or of the scan by predicate, both in the
    requested graph (or the bridge's own); and no atom found by predicate
    repeats an earlier one. *)
Theorem recall_spec bridgeGraph query topK graphID :
  let g := scoped bridgeGraph graphID in
  let result := bridge_Recall' bridgeGraph query topK graphID in
  (Z.of_nat (List.length result) <= Z.max 0 topK)%Z /\
  exists k added, result = (map toAtom' (take k (until_error (scan query "" "" g))) ++ added)%list /\
    Forall (fun a => exists f, f ∈ until_error (scan "" query "" g) /\ a = toAtom' f) added /\
    forall i a, added !! i = Some a -> containsAtom (map toAtom' (take k (until_error (scan query "" "" g))) ++ take i added)%list a = false.
Proof.
  cbn zeta. unfold bridge_Recall'. set (g := scoped bridgeGraph graphID).
  destruct (take_subjects_spec topK 0 (until_error (scan query "" "" g))) as (k & -> & Hk).
  set (base := map toAtom' (take k (until_error (scan query "" "" g)))).
  assert (Z.of_nat (List.length base) <= Z.of_nat k)%Z as Hb.
  { unfold base. rewrite length_map, length_take. lia. }
  destruct (Z.ltb_spec (Z.of_nat (List.length base)) topK).
  - destruct (add_predicates_spec topK (Z.of_nat (List.length base)) base (until_error (scan "" query "" g)))
      as (added & -> & H1 & H2 & H3).
    split; [rewrite length_app; lia|]. exists k, added. done.
  - split; [lia|]. exists k, []. rewrite app_nil_r. split_and!; [done|constructor|done].
Qed.

(** A failing scan looks like an absence of facts: when the store's
    iterator fails at once, [GetFacts] and [Recall] return nothing, and no
    error. *)
Theorem failed_scan_looks_empty bridgeGraph s p o g query topK e rest rest' rest'' :
  scan s p o (scoped bridgeGraph g) = Err e :: rest ->
  scan query "" "" (scoped bridgeGraph g) = Err e :: rest' ->
  scan "" query "" (scoped bridgeGraph g) = Err e :: rest'' ->
  bridge_GetFacts' bridgeGraph s p o g = [] /\ bridge_Recall' bridgeGraph query topK g = [].
Proof.
  intros H1 H2 H3. unfold bridge_GetFacts', bridge_Recall'. rewrite H1, H2, H3. split; [done|]. cbn [until_error take_subjects' add_predicates' List.length Z.of_nat]. by case_match.
Qed.

(** Streaming and collecting agree: a consumer that keeps going sees
    exactly the quads that [GetFacts] returns, in the same order. *)
Theorem stream_collects bridgeGraph s p o g :
  bridge_StreamFacts' bridgeGraph s p o g (fun q acc => ((acc ++ [q])%list, true)) [] = bridge_GetFacts' bridgeGraph s p o g.
Proof.
  unfold bridge_StreamFacts', bridge_GetFacts'.
  assert (forall l acc, stream_to' (fun q acc => ((acc ++ [q])%list, true)) l acc = (acc ++ map toQuad' l)%list) as H; [|apply H].
  induction l as [|f l IH]; intros acc; cbn [stream_to map]; [by rewrite app_nil_r|]. rewrite IH. by rewrite <- app_assoc.
Qed.
End Bridge.

(** ** Conversation histories *)

Section History.
Context {W : Type} (marshal : list ChatMessage -> res error string) (unmarshal : string -> list ChatMessage * option error).
Abbreviation LoadHistory' := (Bridges.LoadHistory (W := W) unmarshal).
Abbreviation UpdateAndSaveHistory' := (Bridges.UpdateAndSaveHistory (W := W) marshal).

(** A failed read erases the conversation: when reading the state fails,
    the request continues with an empty history, and saving its turn
    overwrites whatever was stored with that single turn. *)
Theorem failed_read_erases_history sessionID sp query answer w w1 e b :
  sessionID <> "" -> sp_Get sp sessionID w = (w1, Err e) ->
  marshal [{| cm_Role := "user"; cm_Content := query |}; {| cm_Role := "model"; cm_Content := answer |}] = Ok b ->
  let '(w1', h) := LoadHistory' sessionID (Some sp) w in
  fst (UpdateAndSaveHistory' sessionID (Some sp) h query answer w1') = fst (sp_Set sp sessionID b w1).
Proof.
  intros Hs Hg Hm. unfold LoadHistory', UpdateAndSaveHistory'. destruct (String.eqb_spec sessionID ""); [done|].
  rewrite Hg. cbn [app]. by rewrite Hm.
Qed.

(** Turns accumulate: with a provider that returns what was set last and
    a faithful encoding, saving a turn and loading again yields the earlier
    messages followed by the user's and the model's. *)
Theorem history_roundtrip sessionID sp history query answer w b w1 :
  sessionID <> "" ->
  let h := (history ++ [{| cm_Role := "user"; cm_Content := query |}; {| cm_Role := "model"; cm_Content := answer |}])%list in
  marshal h = Ok b -> unmarshal b = (h, None) -> sp_Set sp sessionID b w = (w1, None) ->
  snd (sp_Get sp sessionID w1) = Ok (RBytes b) ->
  snd (LoadHistory' sessionID (Some sp) (fst (UpdateAndSaveHistory' sessionID (Some sp) history query answer w))) = h.
Proof.
  intros Hs h Hm Hu Hset Hget. unfold LoadHistory', UpdateAndSaveHistory'. destruct (String.eqb_spec sessionID ""); [done|].
  fold h. rewrite Hm. cbn [fst]. rewrite Hset. cbn [fst]. destruct (sp_Get sp sessionID w1) as [w2 r]. cbn [snd] in Hget. subst r.
  cbn [snd]. by rewrite Hu.
Qed.
End History.

(** ** Extraction *)

Section Extraction.
Context {W : Type} (type_name : GoVal -> string).
Abbreviation extractor_Execute' := (Bridges.extractor_Execute (W := W) type_name).

(** Extraction forgets its input envelope: whatever security labels,
    metadata and facts the input carries, neither the request to the model
    nor the result has any. *)
Theorem extraction_drops_labels llm schema unmarshal_target id id' input w w' out :
  extractor_Execute' llm schema unmarshal_target id id' input w = (w', Ok out) ->
  env_SecurityLabels out = [] /\ env_Metadata out = ∅ /\ env_Facts out = [] /\
  forall labels, extractor_Execute' llm schema unmarshal_target id id' (set_Labels labels input) w = (w', Ok out).
Proof.
  unfold extractor_Execute'. assert (forall labels, env_Payload (set_Labels labels input) = env_Payload input) as Hl by done.
  intros H. split_and!; [| | |intros labels; by rewrite Hl];
    (destruct (env_Payload input); try done; destruct (llm _ w) as [w1 [o|e]]; [|done];
     destruct (env_Payload o); try done; destruct (unmarshal_target _); [|done]; by injection H as _ <-).
Qed.
End Extraction.

(** ** Concrete runs *)

Definition plain_v (_ : GoVal) : string := "".
Definition works : MEBFact := {| mf_Subject := "bob"; mf_Predicate := "works_at"; mf_Object := GStr "acme"; mf_Graph := "default" |}.
Definition named_works : MEBFact := {| mf_Subject := "works_at"; mf_Predicate := "is_a"; mf_Object := GStr "relation"; mf_Graph := "default" |}.
Definition small_scan (s p o g : string) : list (res error MEBFact) :=
  if String.eqb s "works_at" then [Ok named_works] else if String.eqb p "works_at" then [Ok works; Ok works] else [].

(** A fact found twice by predicate is recalled once. *)
Example recall_example : Bridges.bridge_Recall plain_v small_scan "default" "works_at" 5 ""
  = [Bridges.toAtom plain_v named_works; Bridges.toAtom plain_v works].
Proof. reflexivity. Qed.

Definition broken_scan (s p o g : string) : list (res error MEBFact) := [Err (EText "database closed")].

Lemma failed_scan_looks_empty_witness :
  Bridges.bridge_GetFacts plain_v broken_scan "default" "bob" "" "" "" = [] /\
  Bridges.bridge_Recall plain_v broken_scan "default" "bob" 3 "" = [].
Proof. eapply (failed_scan_looks_empty plain_v broken_scan "default" "bob" "" "" "" "bob" 3); reflexivity. Defined.

(** One stored session, and a provider whose reads fail. *)
Definition one_cell (fails : bool) : HistoryProvider (W := string) := {|
  sp_Get _ w := (w, if fails then Err (EText "timeout") else Ok (RBytes w));
  sp_Set _ b _ := (b, None)
|}.
Definition count_marshal (l : list ChatMessage) : res error string := Ok (String.concat ";" (map cm_Content l)).
Definition count_unmarshal (b : string) : list ChatMessage * option error :=
  (if String.eqb b "hi;hello" then [{| cm_Role := "user"; cm_Content := "hi" |}; {| cm_Role := "model"; cm_Content := "hello" |}] else [], None).

Lemma failed_read_erases_history_witness :
  let '(w1, h) := Bridges.LoadHistory count_unmarshal "s" (Some (one_cell true)) "a;long;conversation" in
  fst (Bridges.UpdateAndSaveHistory count_marshal "s" (Some (one_cell true)) h "q" "a" w1) = "q;a".
Proof.
  exact (failed_read_erases_history count_marshal count_unmarshal "s" (one_cell true) "q" "a" "a;long;conversation"
    "a;long;conversation" (EText "timeout") "q;a" ltac:(done) eq_refl eq_refl).
Defined.

Lemma history_roundtrip_witness :
  snd (Bridges.LoadHistory count_unmarshal "s" (Some (one_cell false))
         (fst (Bridges.UpdateAndSaveHistory count_marshal "s" (Some (one_cell false)) [] "hi" "hello" "")))
  = [{| cm_Role := "user"; cm_Content := "hi" |}; {| cm_Role := "model"; cm_Content := "hello" |}].
Proof.
  exact (history_roundtrip count_marshal count_unmarshal "s" (one_cell false) [] "hi" "hello" "" "hi;hello" "hi;hello"
    ltac:(done) eq_refl eq_refl eq_refl eq_refl).
Defined.

Lemma extraction_drops_labels_witness :
  let run input := Bridges.extractor_Execute plain_v (fun _ w => (S w, Ok (NewEnvelope 2 (GStr "{}")))) "schema"
                     (fun _ => Ok (GInt 5)) 1 3 input 0 in
  run (AddLabel (NewEnvelope 0 (GStr "text")) "secret") = (1, Ok (NewEnvelope 3 (GInt 5))) /\
  env_SecurityLabels (NewEnvelope 3 (GInt 5)) = [].
Proof.
  split; [reflexivity|].
  apply (extraction_drops_labels plain_v (fun _ w => (S w, Ok (NewEnvelope 2 (GStr "{}")))) "schema"
    (fun _ => Ok (GInt 5)) 1 3 (AddLabel (NewEnvelope 0 (GStr "text")) "secret") 0 1). reflexivity.
Defined.
