(* ===== verification/Architect.v ===== *)
(** * The architect agent's stores

    [x/agents/tools/tools.go] (the in-memory transient store) and
    [x/agents/architect.go] (workflow instances kept in a transient store as
    JSON, and the session's state).

    The transient store keeps the pointers it is handed: facts live in a heap
    next to the map of sessions.  The adapter sees a transient store through
    the [TransientPort] interface; [transient_port] is the instance.  JSON of
    an instance and the clock are parameters.

    Its properties:
    Session keys split back, an instance survives the adapter, and what a
    failing or missing lookup turns into. *)
From S2P Require Import Prelude GoStrings CoreErrors CoreTypes Ooda WorkflowDef.
From Stdlib Require Import Ascii String.
Open Scope string_scope.

(** ** The transient store *)

Abbreviation FactCells := (gmap nat TransientFact).

Record TransientStoreAdapter := {
  ta_heap : FactCells;
  ta_store : gmap string (gmap string nat)
}.

Definition NewTransientStore : TransientStoreAdapter := {| ta_heap := ∅; ta_store := ∅ |}.

Definition stamped (now : string) (f : TransientFact) : TransientFact :=
  {| tf_Subject := tf_Subject f; tf_Predicate := tf_Predicate f; tf_Object := tf_Object f; tf_Graph := tf_Graph f;
     tf_CreatedAt := now |}.

(** [Put] of the fact at address [p]: it is stamped in place and shared.
    [None] is the nil dereference of a nil fact. *)
Definition ta_Put (now sessionID key : string) (p : nat) (t : TransientStoreAdapter) : option TransientStoreAdapter :=
  f ← ta_heap t !! p;
  Some {| ta_heap := <[p := stamped now f]> (ta_heap t);
          ta_store := <[sessionID := <[key := p]> (default ∅ (ta_store t !! sessionID))]> (ta_store t) |}.

(** A pointer to a fresh fact. *)
Definition ta_alloc (f : TransientFact) (t : TransientStoreAdapter) : nat * TransientStoreAdapter :=
  let p := fresh (dom (ta_heap t)) in (p, {| ta_heap := <[p := f]> (ta_heap t); ta_store := ta_store t |}).

Definition session_missing (sessionID : string) : error := EText ("session " +:+ sessionID +:+ " not found").

Definition ta_Get (sessionID key : string) (t : TransientStoreAdapter) : res error nat :=
  match ta_store t !! sessionID with
  | None => Err (session_missing sessionID)
  | Some m => match m !! key with
              | Some p => Ok p
              | None => Err (EText ("fact " +:+ key +:+ " not found in session " +:+ sessionID))
              end
  end.

Definition ta_GetAll `{GoRange} (sessionID : string) (t : TransientStoreAdapter) : res error (list nat) :=
  match ta_store t !! sessionID with
  | None => Err (session_missing sessionID)
  | Some m => Ok (map snd (range m))
  end.

Definition ta_Delete (sessionID key : string) (t : TransientStoreAdapter) : TransientStoreAdapter :=
  match ta_store t !! sessionID with
  | Some m => {| ta_heap := ta_heap t; ta_store := <[sessionID := delete key m]> (ta_store t) |}
  | None => t
  end.

Definition ta_ClearSession (sessionID : string) (t : TransientStoreAdapter) : TransientStoreAdapter :=
  {| ta_heap := ta_heap t; ta_store := delete sessionID (ta_store t) |}.

(** The facts behind the pointers. *)
Definition ta_read (t : TransientStoreAdapter) (ps : list nat) : list TransientFact :=
  omap (fun p => ta_heap t !! p) ps.

Definition ta_ToAtoms `{GoRange} (sessionID : string) (t : TransientStoreAdapter) : res error (list GateAtom) :=
  match ta_GetAll sessionID t with
  | Err e => Err e
  | Ok ps => Ok (map (fun f => {| a_Predicate := tf_Predicate f; a_Subject := tf_Subject f; a_Object := tf_Object f |})
                     (ta_read t ps))
  end.

Definition ta_ToQuads `{GoRange} (sessionID : string) (t : TransientStoreAdapter) : res error (list Quad) :=
  match ta_GetAll sessionID t with
  | Err e => Err e
  | Ok ps => Ok (map (fun f => {| q_Subject := tf_Subject f; q_Predicate := tf_Predicate f; q_Object := tf_Object f;
                                  q_Graph := tf_Graph f |}) (ta_read t ps))
  end.

(** ** Arguments of tools *)

Definition getStringArg (args : gmap string GoVal) (key defaultValue : string) : string :=
  match args !! key with Some (GStr s) => s | _ => defaultValue end.
Definition getBoolArg (args : gmap string GoVal) (key : string) (defaultValue : bool) : bool :=
  match args !! key with Some (GBool b) => b | _ => defaultValue end.

(** The tool [verify_against_axioms]. *)
Definition verify_against_axioms (args : gmap string GoVal) : string * option error :=
  ("Axiom verification complete: All T0 axioms passed"
   +:+ (if getBoolArg args "strict" true then " (strict mode)" else ""), None).

(** ** The session store adapter *)

(** What the adapter uses of [ports.TransientStore], facts by value; [Get]
    of a nil fact without error is [Ok None]. *)
Class TransientPort (T : Type) := {
  tp_Put : string -> string -> TransientFact -> T -> T * option error;
  tp_Get : string -> string -> T -> res error (option TransientFact);
  tp_GetAll : string -> T -> res error (list TransientFact);
  tp_Delete : string -> string -> T -> T * option error;
  tp_ClearSession : string -> T -> T * option error
}.

Definition transient_port `{GoRange} (now : string) : TransientPort TransientStoreAdapter := {|
  tp_Put sid key f t :=
    let '(p, t1) := ta_alloc f t in (default t1 (ta_Put now sid key p t1), None);
  tp_Get sid key t := match ta_Get sid key t with Ok p => Ok (ta_heap t !! p) | Err e => Err e end;
  tp_GetAll sid t := match ta_GetAll sid t with Ok ps => Ok (ta_read t ps) | Err e => Err e end;
  tp_Delete sid key t := (ta_Delete sid key t, None);
  tp_ClearSession sid t := (ta_ClearSession sid t, None)
|}.

(** Split at the last colon, when there is one. *)
Fixpoint cut_last_colon (s : string) : option (string * string) :=
  match s with
  | "" => None
  | String c s' =>
      match cut_last_colon s' with
      | Some (a, b) => Some (String c a, b)
      | None => if Ascii.eqb c ":" then Some ("", s') else None
      end
  end.
Definition splitSessionKey (sessionKey : string) : string * string :=
  match cut_last_colon sessionKey with Some (a, b) => (a, b) | None => (sessionKey, sessionKey) end.

Section Adapter.
Context {T : Type} `{!TransientPort T}.
(** [json.Marshal] and [json.Unmarshal] of an instance. *)
Context (marshal : WorkflowInstance -> res error string) (unmarshal : string -> res error WorkflowInstance).

Definition instance_fact (wi : WorkflowInstance) (data : string) : TransientFact :=
  {| tf_Subject := wi_SessionID wi; tf_Predicate := "workflow_instance"; tf_Object := data; tf_Graph := "session_state";
     tf_CreatedAt := "" |}.

(** [Create] and [Update] are the same code. *)
Definition adapter_Create (instance : option WorkflowInstance) (t : T) : T * option error :=
  match instance with
  | None => (t, None)
  | Some wi =>
      match marshal wi with
      | Err e => (t, Some (EWrap "failed to serialize workflow instance: " e))
      | Ok data => tp_Put (wi_SessionID wi) (SessionKey wi) (instance_fact wi data) t
      end
  end.
Definition adapter_Update : option WorkflowInstance -> T -> T * option error := adapter_Create.

Definition adapter_Get (sessionKey : string) (t : T) : res error WorkflowInstance :=
  let '(sessionID, workflowID) := splitSessionKey sessionKey in
  match tp_Get sessionID sessionKey t with
  | Ok (Some f) => match unmarshal (tf_Object f) with
                   | Ok wi => Ok wi
                   | Err e => Err (EWrap "failed to deserialize workflow instance: " e)
                   end
  | _ => Ok (NewWorkflowInstance workflowID sessionID)
  end.

Definition adapter_Delete (sessionKey : string) (t : T) : T * option error :=
  tp_Delete (fst (splitSessionKey sessionKey)) sessionKey t.

Definition adapter_Exists (sessionKey : string) (t : T) : bool :=
  match tp_Get (fst (splitSessionKey sessionKey)) sessionKey t with Ok (Some _) => true | _ => false end.

Definition adapter_List (sessionID : string) (t : T) : res error (list WorkflowInstance) :=
  match tp_GetAll sessionID t with
  | Err e => Err e
  | Ok facts =>
      Ok (omap (fun f => if String.eqb (tf_Predicate f) "workflow_instance"
                         then match unmarshal (tf_Object f) with Ok wi => Some wi | Err _ => None end
                         else None) facts)
  end.

Definition adapter_ClearSession (sessionID : string) (t : T) : T * option error := tp_ClearSession sessionID t.

(** [GetSessionState]. *)
Definition GetSessionState (sessionID : string) (t : T) : res error (gmap string string) :=
  match tp_GetAll sessionID t with
  | Err e => Err (EWrap "failed to get session state: " e)
  | Ok facts => Ok (foldl (fun m f => <[tf_Subject f +:+ ":" +:+ tf_Predicate f := tf_Object f]> m) ∅ facts)
  end.
End Adapter.

(** ** Properties *)

Definition colon_free (s : string) : bool := all_bytes (fun c => negb (Ascii.eqb c ":")) s.

Lemma cut_last_colon_none s : colon_free s = true -> cut_last_colon s = None.
Proof.
  unfold colon_free. induction s as [|c s IH]; [done|]. cbn [all_bytes cut_last_colon].
  intros [Hc Hs]%andb_true_iff. rewrite IH by done. apply negb_true_iff in Hc. by rewrite Hc.
Qed.

Lemma cut_last_colon_app a b : colon_free b = true -> cut_last_colon (a +:+ ":" +:+ b) = Some (a, b).
Proof.
  intros Hb. change (":" +:+ b) with (String ":" b). induction a as [|c a IH]; cbn [String.append cut_last_colon].
  - by rewrite (cut_last_colon_none b Hb).
  - by rewrite IH.
Qed.

(** Session keys split back: for a workflow id without a colon, the key
    of an instance splits into exactly its session id, colons included, and
    its workflow id. *)
Theorem session_key_splits wi :
  colon_free (wi_WorkflowID wi) = true -> splitSessionKey (SessionKey wi) = (wi_SessionID wi, wi_WorkflowID wi).
Proof. intros H. unfold splitSessionKey, SessionKey. by rewrite cut_last_colon_app. Qed.

(** ** The transient store *)

Section Store.
Context `{GoRange} (now : string).
#[local] Instance port : TransientPort TransientStoreAdapter := transient_port now.

(** Every stored pointer is live. *)
Definition all_live (t : TransientStoreAdapter) : Prop :=
  forall sid m key p, ta_store t !! sid = Some m -> m !! key = Some p -> is_Some (ta_heap t !! p).

(** What a session holds under a key. *)
Definition held (sid key : string) (t : TransientStoreAdapter) : option TransientFact :=
  m ← ta_store t !! sid; p ← (m : gmap string nat) !! key; ta_heap t !! p.

Lemma tp_Get_held sid key t : match tp_Get sid key t with Ok f => f | Err _ => None end = held sid key t.
Proof.
  cbn [tp_Get port transient_port]. unfold ta_Get, held. destruct (ta_store t !! sid) as [m|]; [|done].
  cbn [mbind option_bind]. by destruct (m !! key).
Qed.

Lemma put_held sid key f t :
  all_live t -> let t' := fst (tp_Put sid key f t) in
  all_live t' /\ snd (tp_Put sid key f t) = None /\ held sid key t' = Some (stamped now f) /\
  forall sid' key', (sid', key') <> (sid, key) -> held sid' key' t' = held sid' key' t.
Proof.
  intros Hl. cbn [tp_Put port transient_port ta_alloc fst snd]. set (p := fresh (dom (ta_heap t))).
  assert (ta_heap t !! p = None) as Hp by (apply not_elem_of_dom, is_fresh).
  unfold ta_Put. cbn [ta_heap ta_store]. rewrite lookup_insert_eq. cbn [mbind option_bind from_option id fst].
  rewrite insert_insert_eq.
  assert (forall sid m key q, ta_store t !! sid = Some m -> m !! key = Some q -> q <> p) as Hne.
  { intros s m k q Hs Hk ->. destruct (Hl s m k p Hs Hk). congruence. }
  split_and!; [|done| |].
  - intros s m k q. cbn [ta_store ta_heap]. intros Hs Hk. destruct (decide (q = p)) as [->|Hq]; [rewrite lookup_insert_eq; eauto|].
    rewrite lookup_insert_ne by done. apply lookup_insert_Some in Hs as [[<- <-]|[Hs1 Hs2]]; [|by eapply Hl].
    apply lookup_insert_Some in Hk as [[_ <-]|[_ Hk]]; [done|]. destruct (ta_store t !! sid) as [m0|] eqn:Hm; [|done].
    cbn [from_option id] in Hk. by eapply Hl.
  - unfold held. cbn [ta_store ta_heap]. rewrite lookup_insert_eq. cbn [mbind option_bind]. rewrite lookup_insert_eq.
    cbn [mbind option_bind]. apply lookup_insert_eq.
  - intros sid' key' Hk. unfold held. cbn [ta_store ta_heap]. destruct (decide (sid' = sid)) as [->|Hs].
    + rewrite lookup_insert_eq. cbn [mbind option_bind]. rewrite lookup_insert_ne by congruence.
      destruct (ta_store t !! sid) as [m|] eqn:Hm; cbn [from_option id mbind option_bind]; [|by rewrite lookup_empty].
      destruct (m !! key') as [q|] eqn:Hq; [|done]. cbn [mbind option_bind]. rewrite lookup_insert_ne; [done|].
      intros ->. by eapply Hne.
    + rewrite lookup_insert_ne by done. destruct (ta_store t !! sid') as [m|] eqn:Hm; [|done]. cbn [mbind option_bind].
      destruct (m !! key') as [q|] eqn:Hq; [|done]. cbn [mbind option_bind]. rewrite lookup_insert_ne; [done|].
      intros ->. by eapply Hne.
Qed.

(** ** The adapter *)

Context (marshal : WorkflowInstance -> res error string) (unmarshal : string -> res error WorkflowInstance).

(** An instance survives the adapter: over the in-memory store, creating
    (or updating) an instance that JSON encodes faithfully, whose workflow id
    has no colon, succeeds; afterwards looking up its key returns it and it
    exists, and every other fact of every session is untouched. *)
Theorem adapter_roundtrip wi data t :
  all_live t -> colon_free (wi_WorkflowID wi) = true -> marshal wi = Ok data -> unmarshal data = Ok wi ->
  let '(t', err) := adapter_Create marshal (Some wi) t in
  err = None /\ all_live t' /\ adapter_Get unmarshal (SessionKey wi) t' = Ok wi /\ adapter_Exists (SessionKey wi) t' = true /\
  forall sid key, (sid, key) <> (wi_SessionID wi, SessionKey wi) -> held sid key t' = held sid key t.
Proof.
  intros Hl Hc Hm Hu. unfold adapter_Create. rewrite Hm.
  destruct (put_held (wi_SessionID wi) (SessionKey wi) (instance_fact wi data) t Hl) as (Hl' & He & Hh & Ho).
  destruct (tp_Put (wi_SessionID wi) (SessionKey wi) (instance_fact wi data) t) as [t' err]. cbn [fst snd] in *.
  split_and!; [done|done| | |done].
  - unfold adapter_Get. rewrite session_key_splits by done. rewrite <- tp_Get_held in Hh.
    destruct (tp_Get (wi_SessionID wi) (SessionKey wi) t') as [f|e]; [|done]. subst f. cbn [stamped instance_fact tf_Object].
    by rewrite Hu.
  - unfold adapter_Exists. rewrite session_key_splits by done. cbn [fst]. rewrite <- tp_Get_held in Hh.
    destruct (tp_Get (wi_SessionID wi) (SessionKey wi) t') as [f|e]; [|done]. by subst f.
Qed.

(** A colon in a workflow id loses the state: an instance whose workflow
    id contains a colon is stored, but looking up its own key splits it
    elsewhere and answers, without error, with a fresh pending instance of
    another session and workflow. *)
Theorem colon_in_workflow_loses_state wi a b data t :
  wi_WorkflowID wi = a +:+ ":" +:+ b -> colon_free b = true -> marshal wi = Ok data -> all_live t ->
  held (wi_SessionID wi +:+ ":" +:+ a) (SessionKey wi) t = None ->
  let '(t', err) := adapter_Create marshal (Some wi) t in
  err = None /\ adapter_Get unmarshal (SessionKey wi) t' = Ok (NewWorkflowInstance b (wi_SessionID wi +:+ ":" +:+ a)).
Proof.
  intros Hw Hb Hm Hl Hn. unfold adapter_Create. rewrite Hm.
  destruct (put_held (wi_SessionID wi) (SessionKey wi) (instance_fact wi data) t Hl) as (_ & He & _ & Ho).
  destruct (tp_Put (wi_SessionID wi) (SessionKey wi) (instance_fact wi data) t) as [t' err]. cbn [fst snd] in *.
  split; [done|]. unfold adapter_Get.
  assert (splitSessionKey (SessionKey wi) = (wi_SessionID wi +:+ ":" +:+ a, b)) as ->.
  { unfold splitSessionKey, SessionKey. rewrite Hw.
    assert (wi_SessionID wi +:+ ":" +:+ a +:+ ":" +:+ b = (wi_SessionID wi +:+ ":" +:+ a) +:+ ":" +:+ b) as ->
      by (by rewrite <- !str_app_assoc).
    by rewrite cut_last_colon_app. }
  rewrite <- (Ho _ _) in Hn.
  - rewrite <- tp_Get_held in Hn. destruct (tp_Get _ _ t') as [f|e]; [by subst f|done].
  - intros [= Hs]. apply (f_equal String.length) in Hs. rewrite !str_length_app in Hs. cbn in Hs. lia.
Qed.
End Store.

(** Store failures look like new sessions: over any transient store,
    when its lookup fails, whatever the reason, the adapter answers with a
    fresh pending instance and no error. *)
Theorem lookup_failure_is_fresh {T : Type} `{!TransientPort T} unmarshal key (t : T) e :
  tp_Get (fst (splitSessionKey key)) key t = Err e ->
  adapter_Get unmarshal key t = Ok (NewWorkflowInstance (snd (splitSessionKey key)) (fst (splitSessionKey key))).
Proof. intros H. unfold adapter_Get. destruct (splitSessionKey key) as [sid wid]. cbn [fst snd] in *. by rewrite H. Qed.

(** ** Concrete runs *)

Definition deploy : WorkflowInstance := NewWorkflowInstance "deploy" "user:7".
Definition deploy_v2 : WorkflowInstance := NewWorkflowInstance "deploy:v2" "user:7".

Lemma empty_live : all_live NewTransientStore.
Proof. intros sid m key p Hs. cbn in Hs. by rewrite lookup_empty in Hs. Qed.

Lemma adapter_roundtrip_witness :
  let '(t', err) := @adapter_Create _ (@transient_port stored_order "now") (fun _ => Ok "{}") (Some deploy) NewTransientStore in
  err = None /\ @adapter_Get _ (@transient_port stored_order "now") (fun _ => Ok deploy) "user:7:deploy" t' = Ok deploy.
Proof.
  destruct (@adapter_Create _ (@transient_port stored_order "now") (fun _ => Ok "{}") (Some deploy) NewTransientStore)
    as [t' err] eqn:Hc.
  pose proof (@adapter_roundtrip stored_order "now" (fun _ => Ok "{}") (fun _ => Ok deploy) deploy "{}" NewTransientStore
    empty_live eq_refl eq_refl eq_refl) as Hr.
  cbv zeta in Hr. unfold port in Hr. rewrite Hc in Hr. destruct Hr as (He & _ & Hg & _). split; [done|]. exact Hg.
Defined.

Lemma session_key_splits_witness : splitSessionKey "user:7:deploy" = ("user:7", "deploy").
Proof. exact (session_key_splits deploy eq_refl). Defined.

Lemma colon_in_workflow_loses_state_witness :
  let '(t', err) := @adapter_Create _ (@transient_port stored_order "now") (fun _ => Ok "{}") (Some deploy_v2) NewTransientStore in
  err = None /\ @adapter_Get _ (@transient_port stored_order "now") (fun _ => Ok deploy_v2) "user:7:deploy:v2" t'
                = Ok (NewWorkflowInstance "v2" "user:7:deploy").
Proof.
  destruct (@adapter_Create _ (@transient_port stored_order "now") (fun _ => Ok "{}") (Some deploy_v2) NewTransientStore)
    as [t' err] eqn:Hc.
  pose proof (@colon_in_workflow_loses_state stored_order "now" (fun _ => Ok "{}") (fun _ => Ok deploy_v2) deploy_v2 "deploy" "v2"
    "{}" NewTransientStore eq_refl eq_refl eq_refl empty_live eq_refl) as Hr.
  unfold port in Hr. rewrite Hc in Hr. destruct Hr as [He Hg]. split; [done|]. exact Hg.
Defined.

Lemma lookup_failure_is_fresh_witness :
  @adapter_Get _ (@transient_port stored_order "now") (fun _ => Ok deploy) "s:w" NewTransientStore
  = Ok (NewWorkflowInstance "w" "s").
Proof.
  exact (@lookup_failure_is_fresh _ (@transient_port stored_order "now") (fun _ => Ok deploy) "s:w" NewTransientStore
    (session_missing "s") eq_refl).
Defined.
