(* ===== verification/Server.v ===== *)
(** * The HTTP server

    [cmd/mkit/commands/serve/serve.go]: the start of the server (client,
    policy, MCP tools), its request handler, and the reload of the policy on
    SIGHUP, over the client of [ClientInit] and the loop of [AgentLoop].

    A constructed client holds its engines by handle; at work it is a client
    of the loop whose engine state is the whole store of engines, its own
    operations acting at its handle and every supervised action at the handle
    it was supervised with.  Requests are handled one at a time, reloads
    between them.  The code of the actions, the memories and the durable
    stores, JSON decoding and files are parameters; [None] is a panic. *)
From S2P Require Import Prelude GoStrings CoreErrors CoreTypes Float64 Reflect Session Solver Supervisor Config ClientInit AgentLoop.
From Stdlib Require Import Ascii String.
Open Scope string_scope.

(** ** Engines behind handles *)

Section Handles.
Context {E : Type}.

Definition at_handle {A : Type} (h : nat) (op : E -> option (E * A)) (es : gmap nat E) : option (gmap nat E * A) :=
  e ← es !! h; '(e1, a) ← op e; Some (<[h := e1]> es, a).
Definition at_handle_total {A : Type} (h : nat) (missing : A) (op : E -> E * A) (es : gmap nat E) : gmap nat E * A :=
  match es !! h with
  | None => (es, missing)                                       (* not reached: handles are valid *)
  | Some e => let '(e1, a) := op e in (<[h := e1]> es, a)
  end.

Definition no_engine : error := EText "engine not initialized".

Definition engine_at `{!LoopEngine E} (h : nat) : LoopEngine (gmap nat E) := {|
  le_EvaluateSteering env := at_handle h (le_EvaluateSteering env);
  le_CheckRequirement env name := at_handle h (le_CheckRequirement env name);
  le_LoadFacts facts := at_handle_total h (Some no_engine) (le_LoadFacts facts)
|}.

Definition evaluator_at `{!Evaluator E} (h : nat) : Evaluator (gmap nat E) := {|
  ev_AssessPlan ctx env := at_handle h (ev_AssessPlan ctx env);
  ev_Reflect ctx meta env := at_handle h (ev_Reflect ctx meta env);
  ev_Query ctx facts q := at_handle_total h (Err no_engine) (ev_Query ctx facts q)
|}.
End Handles.

(** ** The client at work *)

Section Server.
Context {E : Type} `{!ClientEngine E, !LoopEngine E, !Evaluator E} {W : Type} (V : LoopEnv) (G : GoEnv).
Context {Hist Rag Other Provider Llm : Type}.
Abbreviation ClientState := (CState (E := E) (Hist := Hist) (Rag := Rag) (Other := Other) (Provider := Provider) (Llm := Llm)).

(** The contexts of the checks, the code behind actions, memories and durable
    stores. *)
Context (ctx ctx' : option error) (action_code : CAction -> Action W)
  (memory_code : ClientMemory (Hist := Hist) (Rag := Rag) (Other := Other) -> AgentMemory W)
  (provider_code : Provider -> StateProvider W * JsonCodec).

Definition loop_action (a : CAction) : LAction (gmap nat E) W :=
  let ct := am_InputContentType (Metadata a) in
  match a with
  | Supervised h raw =>
      {| la_InputContentType := ct; la_Execute := supervised_Execute (Evaluator0 := evaluator_at h) G ctx ctx' None (action_code raw) |}
  | _ =>
      {| la_InputContentType := ct;
         la_Execute env es w :=
           let '(w1, r) := act_exec (action_code a) env w in
           Some (es, w1, match r with Ok out => (out, None) | Err x => (emptyEnvelope, Some x) end) |}
  end.

Definition loop_client (c : ClientState) : Client (gmap nat E) W := {|
  cl_registry := loop_action <$> cs_registry c;
  cl_agentMemory := memory_code <$> cs_memory c;
  cl_stateManager := provider_code <$> cs_state c;
  cl_steeringEnabled := cs_steering c;
  cl_maxSteps := cs_maxSteps c;
  cl_shuttingDown := cs_shuttingDown c
|}.

(** [client.Execute], with [describe] as in [Client_Execute]. *)
Context (describe : string -> gmap string string -> string).

Definition client_execute (c : ClientState) (input : Envelope) (w : W) : option (ClientState * W * res error Envelope) :=
  h ← cs_engine c;
  '(s, r) ← Client_Execute (LoopEngine0 := engine_at h) V describe (loop_client c) input []
              {| ls_E := cs_engines c; ls_W := w; ls_async := [] |};
  Some (set_engines (ls_E s) c, ls_W s, r).

(** ** The handler *)

Inductive Body :=
| BText (s : string)
| BDenied (reasons : list string) (rule_id decision : string)
| BEnvelope (env : Envelope).

(** [rs_json]: the handler set the JSON content type. *)
Record Response := { rs_Status : Z; rs_Body : Body; rs_json : bool }.

Definition StatusOK : Z := 200.
Definition StatusBadRequest : Z := 400.
Definition StatusForbidden : Z := 403.
Definition StatusMethodNotAllowed : Z := 405.
Definition StatusInternalServerError : Z := 500.

Definition http_Error (msg : string) (code : Z) : Response :=
  {| rs_Status := code; rs_Body := BText (msg +:+ nl); rs_json := false |}.

(** The answer to the result of an execution; [None] is the dereference of an
    alignment error that [errors.As] did not find. *)
Definition respond (r : res error Envelope) : option Response :=
  match r with
  | Err e =>
      if IsAlignmentError e then
        a ← as_alignment e;
        Some {| rs_Status := StatusForbidden; rs_Body := BDenied [ae_Message a] (ae_RuleID a) DecisionHalt; rs_json := false |}
      else Some (http_Error ("Internal Server Error: " +:+ Error e) StatusInternalServerError)
  | Ok result =>
      Some (if meta_is result KeyDecision DecisionHalt
            then {| rs_Status := StatusForbidden; rs_Body := BEnvelope result; rs_json := false |}
            else {| rs_Status := StatusOK; rs_Body := BEnvelope result; rs_json := true |})
  end.

(** [decode] reads one JSON value of the body; [fresh] is [uuid.New]. *)
Context (decode : string -> res error Envelope) (fresh : Z).

Definition with_id (env : Envelope) : Envelope :=
  if (env_ID env =? 0)%Z
  then {| env_ID := fresh; env_Payload := env_Payload env; env_Metadata := env_Metadata env;
          env_SecurityLabels := env_SecurityLabels env; env_Facts := env_Facts env; env_ContentType := env_ContentType env;
          env_ContextFacts := env_ContextFacts env; env_Violations := env_Violations env |}
  else env.

Definition createHandler (c : ClientState) (http_method body : string) (w : W) : option (ClientState * W * Response) :=
  if negb (String.eqb http_method "POST") then Some (c, w, http_Error "Method not allowed" StatusMethodNotAllowed)
  else match decode body with
       | Err _ => Some (c, w, http_Error "Invalid JSON body" StatusBadRequest)
       | Ok env =>
           '(c1, w1, r) ← client_execute c (with_id env) w;
           response ← respond r;
           Some (c1, w1, response)
       end.

(** ** The start of the server *)

Context (nop_history : Hist) (nop_rag : Rag) (readFile : string -> res error string)
  (parse_servers : string -> res error (list MCPServerConfig)) (mcp_tools : MCPServerConfig -> res error (list string)).

Fixpoint load_servers (servers : list MCPServerConfig) : res error (list CAction) :=
  match servers with
  | [] => Ok []
  | srv :: rest =>
      match mcp_Load mcp_tools srv with
      | Err e => Err (EWrap ("MCP server " +:+ go_quote (ms_Name srv) +:+ ": ") e)
      | Ok loaded => match load_servers rest with Err e => Err e | Ok actions => Ok (loaded ++ actions)%list end
      end
  end.

Definition loadMCPActions (path : string) : res error (list CAction) :=
  match readFile path with
  | Err e => Err (EWrap ("failed to read MCP config " +:+ go_quote path +:+ ": ") e)
  | Ok data =>
      match parse_servers data with
      | Err e => Err (EWrap ("failed to parse MCP config " +:+ go_quote path +:+ " (expecting a JSON array of MCP servers): ") e)
      | Ok servers => load_servers servers
      end
  end.

Definition register_tool (c : ClientState) (a : CAction) : ClientState := fst (RegisterSupervised (am_Name (Metadata a)) a c).

(** [runServer] up to the start of the listener. *)
Definition serve_start (policyPath mcpConfig : string) : res error ClientState :=
  match NewClient nop_history nop_rag readFile ∅ 0 (if String.eqb policyPath "" then [] else [WithPolicyPath policyPath]) with
  | Err e => Err (EWrap "failed to initialize client: " e)
  | Ok c =>
      if String.eqb mcpConfig "" then Ok c
      else match loadMCPActions mcpConfig with
           | Err e => Err e
           | Ok actions => Ok (fold_left register_tool actions c)
           end
  end.

(** [runServer]; [listen] is how the listener ended ([None] when it was
    closed by a shutdown). *)
Definition runServer (policyPath mcpConfig : string) (listen : option error) : option error :=
  match serve_start policyPath mcpConfig with
  | Err e => Some e
  | Ok _ => match listen with Some e => Some (EWrap "server failed: " e) | None => None end
  end.

(** ** The server at work *)

Record Served := { sv_client : ClientState; sv_world : W }.

Inductive serve_step (engine_text policyPath : string) : Served -> Served -> Prop :=
| serve_request s http_method body c1 w1 response :
    createHandler (sv_client s) http_method body (sv_world s) = Some (c1, w1, response) ->
    serve_step engine_text policyPath s {| sv_client := c1; sv_world := w1 |}
| serve_hangup s :
    policyPath <> "" ->
    serve_step engine_text policyPath s
      {| sv_client := fst (client_ReloadPolicy readFile engine_text policyPath (sv_client s)); sv_world := sv_world s |}.
End Server.
