(* ===== verification/ServerProps.v ===== *)
(** * Properties of the HTTP server

    What its statuses mean, what governs the effects of its requests, and,
    against what its help says, that the server the command starts answers
    every well-formed request with an error. *)
From stdpp Require Import sorting.
From S2P Require Import Prelude GoStrings CoreErrors CoreTypes Float64 Reflect Session Solver SolverProps Supervisor SupervisorProps Config Predicates.
From S2P Require Import AgentLoop AgentLoopProps ClientInit ClientInitProps Server.
From Stdlib Require Import Ascii String.
Open Scope string_scope.

(** ** Errors that are not alignment errors *)

Definition unaligned (e : error) : Prop := IsAlignmentError e = false.

Lemma unaligned_as e : unaligned e -> as_alignment e = None.
Proof. unfold unaligned, IsAlignmentError. destruct (as_alignment e) eqn:Ha; [|done]. apply as_alignment_Is in Ha. congruence. Qed.
Lemma unaligned_wrap pre e : unaligned e -> unaligned (EWrap pre e).
Proof. done. Qed.

#[local] Hint Resolve unaligned_wrap : mk.

Section Refusals.
Context {E : Type} `{!LoopEngine E, !Evaluator E} {W : Type} (V : LoopEnv) (G : GoEnv).
Implicit Types (s : LState E W).

(** Code that never fails with an alignment error. *)
Definition unaligned_action (act : Action W) : Prop := forall env w w' x, act_exec act env w = (w', Err x) -> unaligned x.

Lemma supervised_unaligned ctx ctx' (act : Action W) input e e' w w' out x :
  unaligned_action act -> supervised_Execute G ctx ctx' None act input e w = Some (e', w', (out, Some x)) -> unaligned x.
Proof.
  intros Ha. unfold supervised_Execute, ExecuteInternal, post_check. intros H.
  destruct (flattenToQuads G "Req" _) as [facts|]; [|done]. cbn [mbind option_bind] in H.
  destruct (VerifyAtoms _ _ _ e) as [[e1 [res|y]]|]; [|by simplify_eq/=|done]. cbn [mbind option_bind] in H.
  destruct (blocks res); [by simplify_eq/=|].
  destruct (sdk_action_execute act _ w) as [w1 [result|y]] eqn:Hx; [|simplify_eq/=; by eapply Ha].
  destruct (flattenToQuads G EntityOutput _) as [qs|]; [|done]. cbn [mbind option_bind] in H.
  destruct (VerifyAtoms ctx' _ _ e1) as [[e2 [res'|y]]|]; [|by simplify_eq/=|done]. cbn [mbind option_bind] in H.
  destruct (blocks res'); by simplify_eq/=.
Qed.

Context (c : Client E W).
Hypothesis Hsup : forall name a, cl_registry c !! name = Some a ->
  exists ctx ctx' act ct, a = supervised_action G ctx ctx' None act ct /\ unaligned_action act.
Hypothesis Hctx : forall n x, lv_ctx_err V n = Some x \/ lv_sleep V n = Some x -> unaligned x.

Lemma ExecuteSingleStep_unaligned step name payload p s s' p' x :
  ExecuteSingleStep V c step name payload p s = Some (s', p', Err x) -> unaligned x.
Proof.
  unfold ExecuteSingleStep. destruct (cl_registry c !! name) as [a|] eqn:Ha; [|by intros [= _ _ <-]].
  apply Hsup in Ha as (ctx & ctx' & act & ct & -> & Hact).
  destruct (injectContext V c payload p _ s) as [[s1 env1]|]; [|done]. cbn [mbind option_bind].
  destruct (la_Execute _ env1 (ls_E s1) (ls_W s1)) as [[[e2 w2] [result [y|]]]|] eqn:Hx; [| |done]; cbn [mbind option_bind].
  - apply supervised_unaligned in Hx; [|done]. unfold handleExecutionError. rewrite (unaligned_as y Hx). by intros [= _ _ <-].
  - destruct (apply_steering c result _) as [[s3 result']|]; [|done]. cbn [mbind option_bind].
    destruct (updateHistory V c payload result' _ s3) as [s4 p2]. unfold handleDecision, handleRetryDecision. intros [= H].
    repeat case_match; simplify_eq; try done; eapply Hctx; by right.
Qed.

Lemma run_steps_unaligned n : forall step action payload p s s' p' x,
  run_steps V c n step action payload p s = Some (s', p', Err x) -> unaligned x.
Proof.
  induction n as [|n IH]; intros step action payload p s s' p' x; cbn [run_steps]; [by intros [= _ _ <-]|].
  destruct (lv_ctx_err V step) eqn:Hc; [intros [= _ _ <-]; eapply Hctx; by left|].
  destruct (ExecuteSingleStep V c step action payload p s) as [[[s1 p1] [result|y]]|] eqn:Hs; [| |done]; cbn [mbind option_bind].
  - repeat case_match; try (by intros [= _ _ <-]); apply IH.
  - intros [= _ _ <-]. by eapply ExecuteSingleStep_unaligned.
Qed.

Lemma ExecuteByName_unaligned action input opts s s' x :
  ExecuteByName V c action input opts s = Some (s', Err x) -> unaligned x.
Proof.
  unfold ExecuteByName, runLoopInternal. destruct (match input with InPayload v => _ | InEnvelope e => _ end) as [p payload].
  destruct (load_history c p s) as [[s1 p1]|]; [|done]. cbn [mbind option_bind].
  destruct (hydrate_session c payload p1 s1) as [[s2 p2] payload2].
  destruct (run_steps _ _ _ _ _ _ _ _) as [[[s3 p3] r']|] eqn:Hr; [|done]. intros [= <- ->]. by eapply run_steps_unaligned.
Qed.

Lemma Client_Execute_unaligned describe input opts s s' x :
  (forall env e e' d y, le_EvaluateSteering env e = Some (e', (d, Some y)) -> unaligned y) ->
  Client_Execute V describe c input opts s = Some (s', Err x) -> unaligned x.
Proof.
  intros Hst. unfold Client_Execute. destruct (negb _); [by intros [= _ <-]|].
  destruct (le_EvaluateSteering input (ls_E s)) as [[e1 [[d meta] [y|]]]|] eqn:Hs; [| |done]; cbn [mbind option_bind].
  - intros [= _ <-]. by eapply unaligned_wrap, Hst.
  - repeat case_match; try (by intros [= _ <-]). by apply ExecuteByName_unaligned.
Qed.

Lemma Client_Execute_final describe input opts s s' env :
  Client_Execute V describe c input opts s = Some (s', Ok env) -> undecided_or env.
Proof.
  unfold Client_Execute. destruct (negb _); [done|].
  destruct (le_EvaluateSteering input (ls_E s)) as [[e1 [[d meta] [y|]]]|] eqn:Hs; [done| |done]; cbn [mbind option_bind].
  destruct (String.eqb d DecisionRoute); [|done]. destruct (String.eqb _ ""); [done|].
  unfold ExecuteByName, runLoopInternal.
  destruct (load_history c _ _) as [[s1 p1]|]; [|done]. cbn [mbind option_bind].
  destruct (hydrate_session c _ p1 s1) as [[s2 p2] payload2].
  destruct (run_steps _ _ _ _ _ _ _ _) as [[[s3 p3] r']|] eqn:Hr; [|done]. intros [= <- ->]. by eapply run_steps_ok.
Qed.
End Refusals.

(** ** The handler *)

Section Handler.
Context {E : Type} `{!ClientEngine E, !LoopEngine E, !Evaluator E} {W : Type} (V : LoopEnv) (G : GoEnv).
Context {Hist Rag Other Provider Llm : Type} (ctx ctx' : option error) (action_code : CAction -> Action W)
  (memory_code : ClientMemory (Hist := Hist) (Rag := Rag) (Other := Other) -> AgentMemory W)
  (provider_code : Provider -> StateProvider W * JsonCodec) (describe : string -> gmap string string -> string)
  (decode : string -> res error Envelope) (fresh : Z)
  (nop_history : Hist) (nop_rag : Rag) (readFile : string -> res error string)
  (parse_servers : string -> res error (list MCPServerConfig)) (mcp_tools : MCPServerConfig -> res error (list string)).
Local Abbreviation State := (CState (E := E) (Hist := Hist) (Rag := Rag) (Other := Other) (Provider := Provider) (Llm := Llm)).
Local Abbreviation handle := (createHandler (Llm := Llm) V G ctx ctx' action_code memory_code provider_code describe decode fresh).
Local Abbreviation served := (Served (E := E) (W := W) (Hist := Hist) (Rag := Rag) (Other := Other) (Provider := Provider) (Llm := Llm)).
Local Abbreviation step := (serve_step (Llm := Llm) V G ctx ctx' action_code memory_code provider_code describe decode fresh readFile).
Local Abbreviation start := (serve_start (Provider := Provider) (Llm := Llm) nop_history nop_rag readFile parse_servers mcp_tools).
Local Abbreviation execute := (client_execute (Llm := Llm) V G ctx ctx' action_code memory_code provider_code describe).

(** What a request can do to the client: only its engines change. *)
Lemma handle_client (c c1 : State) m body w w1 response :
  handle c m body w = Some (c1, w1, response) -> exists es, c1 = set_engines es c.
Proof.
  assert (c = set_engines (cs_engines c) c) as Hid by by destruct c.
  unfold createHandler. destruct (negb _); [intros [= <- _ _]; eauto|]. destruct (decode body) as [env|]; [|intros [= <- _ _]; eauto].
  unfold client_execute. destruct (cs_engine c) as [h|]; [|done]. cbn [mbind option_bind].
  destruct (Client_Execute _ _ _ _ _ _) as [[s r]|]; [|done]. cbn [mbind option_bind].
  destruct (respond r) as [resp|]; [|done]. intros [= <- _ _]. eauto.
Qed.

(** An answer 200 carries the envelope of the execution, and that envelope is
    final; the handler's check of the decision of a result never fires, so an
    answer 403 always comes from an alignment error. *)
Theorem answers c m body w c1 w1 response :
  handle c m body w = Some (c1, w1, response) ->
  (rs_Status response = StatusOK -> exists env result, decode body = Ok env /\ execute c (with_id fresh env) w = Some (c1, w1, Ok result) /\
     undecided_or result /\ rs_Body response = BEnvelope result) /\
  (rs_Status response = StatusForbidden -> exists env e a, decode body = Ok env /\ execute c (with_id fresh env) w = Some (c1, w1, Err e) /\
     as_alignment e = Some a /\ rs_Body response = BDenied [ae_Message a] (ae_RuleID a) DecisionHalt).
Proof.
  unfold createHandler. destruct (negb _); [by intros [= _ _ <-]|]. destruct (decode body) as [env|]; [|by intros [= _ _ <-]].
  destruct (execute c (with_id fresh env) w) as [[[c2 w2] r]|] eqn:Hx; [|done]. cbn [mbind option_bind].
  destruct (respond r) as [resp|] eqn:Hr; [|done]. intros [= <- <- <-].
  destruct r as [result|e]; cbn [respond] in Hr.
  - assert (undecided_or result) as Hu.
    { revert Hx. unfold client_execute. destruct (cs_engine c) as [h|]; [|done]. cbn [mbind option_bind].
      destruct (Client_Execute _ _ _ _ _ _) as [[s r]|] eqn:Hc; [|done]. intros [= _ _ ->]. exact (@Client_Execute_final _ (engine_at h) _ _ _ _ _ _ _ _ _ Hc). }
    assert (Hu' := Hu). destruct Hu' as (_ & _ & Hh). rewrite Hh in Hr. injection Hr as <-. split; [|done]. intros _. by exists env, result.
  - destruct (IsAlignmentError e); [|by injection Hr as <-]. destruct (as_alignment e) as [a|] eqn:Ha; [|done].
    injection Hr as <-. split; [done|]. intros _. by exists env, e, a.
Qed.

(** A client whose actions are supervised with its own engine. *)
Definition guarded_by (h : nat) (c : State) : Prop :=
  cs_engine c = Some h /\ forall name a, cs_registry c !! name = Some a -> exists raw, a = Supervised h raw.

Lemma loop_guarded h c name a : guarded_by h c -> cl_registry (loop_client G ctx ctx' action_code memory_code provider_code c) !! name = Some a ->
  exists raw, a = @supervised_action (gmap nat E) (evaluator_at h) W G ctx ctx' None (action_code raw) (am_InputContentType (Metadata raw)).
Proof.
  intros [_ Hg]. cbn [cl_registry loop_client]. rewrite lookup_fmap. destruct (cs_registry c !! name) as [a'|] eqn:Ha; [|done].
  intros [= <-]. apply Hg in Ha as [raw ->]. by exists raw.
Qed.

(** The server never answers 403: when every action is supervised, a
    policy denial ends in a [PolicyViolationError], which the handler does
    not recognise and answers as an internal error, unless the code of an
    action itself fails with an alignment error. *)
Theorem handler_never_forbids h c m body w c1 w1 response :
  guarded_by h c -> (forall raw, unaligned_action (action_code raw)) ->
  (forall n x, lv_ctx_err V n = Some x \/ lv_sleep V n = Some x -> unaligned x) ->
  (forall env e e' d x, le_EvaluateSteering (E := E) env e = Some (e', (d, Some x)) -> unaligned x) ->
  handle c m body w = Some (c1, w1, response) -> rs_Status response <> StatusForbidden.
Proof.
  intros Hg Hact Hctx Hst Hh Hf. apply answers in Hh as [_ Hx]. destruct (Hx Hf) as (env & e & a & _ & He & Ha & _). clear Hx.
  revert He. unfold client_execute. destruct (cs_engine c) as [h'|] eqn:Hc; [|done]. cbn [mbind option_bind].
  destruct (Client_Execute _ _ _ _ _ _) as [[s r]|] eqn:Hr; [|done]. intros [= _ _ ->].
  assert (h' = h) as -> by (destruct Hg; congruence).
  eapply (@Client_Execute_unaligned _ (engine_at h) (evaluator_at h)) in Hr.
  - apply unaligned_as in Hr. congruence.
  - intros name b Hb. destruct (loop_guarded h c name b Hg Hb) as [raw ->]. eauto 10.
  - done.
  - intros env' es es' d y. cbn [le_EvaluateSteering engine_at]. unfold at_handle. destruct (es !! h) as [e0|]; [|done]. cbn [mbind option_bind].
    destruct (le_EvaluateSteering env' e0) as [[e1 [d1 y1]]|] eqn:He; [|done]. intros [= _ _ ->]. by eapply Hst.
Qed.
(** ** The server of the command *)

Definition without_steering (c : State) : Prop := cs_steering c = false.

Lemma register_tool_state (c : State) a :
  let c' := register_tool c a in
  cs_steering c' = cs_steering c /\ cs_engine c' = cs_engine c /\ cs_memory c' = cs_memory c /\ cs_state c' = cs_state c /\
  cs_registry c' = <[am_Name (Metadata a) := Supervise c a]> (cs_registry c).
Proof.
  cbn. unfold register_tool, RegisterSupervised, client_RegisterAction. cbn [fst].
  set (c1 := set_registry _ c). destruct (cs_engine c1) as [h|] eqn:Hc; [|by split_and!].
  unfold on_engine. rewrite Hc. destruct (cs_engines c1 !! h) as [e|]; [|by split_and!].
  destruct (ce_RegisterAction _ e) as [e' err]. by split_and!.
Qed.

(** What the options of the command leave behind: an engine, no steering, no
    actions, the default memory and no durable store. *)
Definition plain_server (c : State) : Prop :=
  without_steering c /\ cs_registry c = ∅ /\ cs_memory c = Some (Hybrid (Some nop_history) nop_rag) /\ cs_state c = None.

Lemma new_plain_client policyPath c :
  NewClient nop_history nop_rag readFile ∅ 0 (if String.eqb policyPath "" then [] else [WithPolicyPath policyPath]) = Ok c ->
  plain_server c /\ is_Some (cs_engine c).
Proof.
  unfold NewClient. intros H. set (opts := if String.eqb policyPath "" then _ else _) in H.
  assert (keeps plain_server (init_client readFile opts)) as Hk.
  { unfold init_client. repeat apply keeps_followed_by.
    - apply keeps_seq. subst opts. destruct (String.eqb policyPath ""); [constructor|]. constructor; [|constructor].
      by intros c0.
    - intros c0 Hc0. unfold ensureDependencies. repeat case_match; done.
    - apply keeps_wrap. intros c0 Hc0. unfold RegisterAll, client_RegisterExternalPredicate, on_engine. repeat case_match; simplify_eq; done.
    - intros c0 Hc0. unfold load_blueprint. repeat case_match; try done. apply keeps_wrap; [|done].
      intros ? ?. unfold client_LoadPolicy, on_engine. repeat case_match; done. }
  destruct (init_client readFile opts _) as [c' [e|]] eqn:Hi; [done|]. injection H as <-. split.
  - change c' with (fst (c', @None error)). rewrite <- Hi. apply Hk. by split_and!.
  - unfold init_client in Hi. apply followed_by_ok in Hi as (c1 & _ & Hi). apply followed_by_ok in Hi as (c2 & _ & Hi).
    apply followed_by_ok in Hi as (c3 & Hr & Hb). unfold register_reference_predicates in Hr. apply wrap_ok in Hr.
    unfold RegisterAll in Hr. destruct (client_RegisterExternalPredicate "within_time_window" c2) as [r1 e1].
    destruct (client_RegisterExternalPredicate "rate_limit_exceeded" r1) as [r2 e2] eqn:H2.
    destruct e1, e2; try done. injection Hr as <-. apply on_engine_ok in H2 as (x0 & x1 & _ & _ & (h & Hh & _) & _).
    unfold load_blueprint in Hb. destruct (String.eqb (cs_blueprint r2) ""); [injection Hb as <-; eauto|].
    destruct (readFile (cs_blueprint r2)); [|done]. apply wrap_ok, on_engine_ok in Hb as (? & ? & _ & _ & (h' & Hh' & _) & _). eauto.
Qed.

(** The tools are registered one by one, each supervised with the engine of
    the client. *)
Lemma registered_tools h actions : forall c, guarded_by h c -> without_steering c ->
  let c' := fold_left register_tool actions c in
  guarded_by h c' /\ without_steering c' /\ cs_memory c' = cs_memory c /\ cs_state c' = cs_state c.
Proof.
  induction actions as [|a actions IH]; intros c Hg Hs; [done|]. cbn [fold_left].
  pose proof (register_tool_state c a) as (H1 & H2 & H3 & H4 & H5). cbn zeta in *.
  destruct Hg as [He Hg]. destruct (IH (register_tool c a)) as (Ha & Hb & Hc & Hd).
  - split; [congruence|]. intros name b. rewrite H5. destruct (decide (name = am_Name (Metadata a))) as [->|Hne].
    + rewrite lookup_insert_eq. intros [= <-]. unfold Supervise. rewrite He. eauto.
    + rewrite lookup_insert_ne by done. apply Hg.
  - unfold without_steering in *. congruence.
  - split_and!; [done|done|congruence|congruence].
Qed.

(** The state the command starts its listener with. *)
Lemma serve_start_state policyPath mcpConfig c : start policyPath mcpConfig = Ok c ->
  exists h, guarded_by h c /\ without_steering c /\ cs_memory c = Some (Hybrid (Some nop_history) nop_rag) /\ cs_state c = None.
Proof.
  unfold serve_start. destruct (NewClient _ _ _ _ _ _) as [c0|] eqn:Hn; [|done].
  apply new_plain_client in Hn as [(Hs & Hr & Hm & Hp) [h Hh]].
  assert (guarded_by h c0) as Hg by (split; [done|]; intros name a; by rewrite Hr).
  destruct (String.eqb mcpConfig ""); [intros [= <-]; by exists h|].
  destruct (loadMCPActions _ _ _ mcpConfig) as [actions|]; [|done]. intros [= <-]. exists h.
  destruct (registered_tools h actions c0 Hg Hs) as (H1 & H2 & H3 & H4). split_and!; congruence || done.
Qed.

(** Requests and reloads keep everything but the engines and the policy path. *)
Lemma step_keeps engine_text policyPath s s' : step engine_text policyPath s s' ->
  let c := sv_client s in let c' := sv_client s' in
  cs_engine c' = cs_engine c /\ cs_registry c' = cs_registry c /\ cs_memory c' = cs_memory c /\ cs_state c' = cs_state c /\
  cs_steering c' = cs_steering c.
Proof.
  intros [s0 m body c1 w1 response Hh|s0 Hp]; cbn.
  - by apply handle_client in Hh as [es ->].
  - unfold client_ReloadPolicy, client_ReloadPolicySource, followed_by, on_engine. repeat case_match; simplify_eq; done.
Qed.

Definition no_steering_text : string :=
  "Internal Server Error: steering disabled: use ExecuteByName for explicit action routing" +:+ nl.

(** The command serves nothing.  The server it starts never enables the
    steering that routes requests, and nothing it does later can: in every
    reachable state every well-formed POST is answered 500 with the same
    text, no request is answered 200, and the world is as it was. *)
Theorem serve_answers_nothing engine_text policyPath mcpConfig (c : State) w (s : served) :
  start policyPath mcpConfig = Ok c -> rtc (step engine_text policyPath) {| sv_client := c; sv_world := w |} s ->
  sv_world s = w /\
  forall m body, exists response, handle (sv_client s) m body w = Some (sv_client s, w, response) /\ rs_Status response <> StatusOK /\
    (m = "POST" -> is_ok (decode body) = true ->
     rs_Status response = StatusInternalServerError /\ rs_Body response = BText no_steering_text).
Proof.
  intros Hc Hr. apply serve_start_state in Hc as (h & [He _] & Hs & _).
  assert (forall (c : State) m body w, cs_engine c = Some h -> without_steering c ->
    exists response, handle c m body w = Some (c, w, response) /\ rs_Status response <> StatusOK /\
      (m = "POST" -> is_ok (decode body) = true ->
       rs_Status response = StatusInternalServerError /\ rs_Body response = BText no_steering_text)) as Hh.
  { clear. intros c m body w He Hs. unfold createHandler. destruct (String.eqb_spec m "POST") as [->|Hm]; cbn [negb].
    - destruct (decode body) as [env|]; [|eexists; split_and!; [reflexivity|done|done]].
      unfold client_execute. rewrite He. cbn [mbind option_bind]. unfold Client_Execute. cbn [cl_steeringEnabled loop_client].
      rewrite Hs. cbn [negb mbind option_bind ls_E ls_W]. assert (set_engines (cs_engines c) c = c) as -> by by destruct c.
      eexists. split_and!; [reflexivity|done|]. intros _ _. by split.
    - eexists. split_and!; [reflexivity|done|done]. }
  assert (cs_engine (sv_client s) = Some h /\ without_steering (sv_client s) /\ sv_world s = w) as (He' & Hs' & Hw).
  { remember {| sv_client := c; sv_world := w |} as s0 eqn:Hs0.
    assert (cs_engine (sv_client s0) = Some h /\ without_steering (sv_client s0) /\ sv_world s0 = w) as H0 by by subst s0.
    clear Hs0. induction Hr as [|s0 s1 s2 H1 _ IH]; [done|]. apply IH. destruct H0 as (Ha & Hb & Hd).
    pose proof (step_keeps _ _ _ _ H1) as (K1 & _ & _ & _ & K2). unfold without_steering. split_and!; [congruence|congruence|].
    destruct H1 as [s0 m body c1 w1 response H1|]; [|done]. cbn. destruct (Hh (sv_client s0) m body (sv_world s0) Ha Hb) as (resp & Hq & _).
    rewrite Hq in H1. by simplify_eq. }
  split; [done|]. intros m body. by apply Hh.
Qed.

(** ** Governance of a server with steering *)

Lemma handle_governed h (c c1 : State) m body w w1 response :
  guarded_by h c -> (forall mem, cs_memory c = Some mem -> inert (memory_code mem)) -> cs_state c = None ->
  handle c m body w = Some (c1, w1, response) -> w1 = w \/
  let lc := loop_client G ctx ctx' action_code memory_code provider_code c in
  m = "POST" /\ exists env name e1 meta (tr : list (Execution (gmap nat E) W)), decode body = Ok env /\
    @le_EvaluateSteering _ (engine_at h) (with_id fresh env) (cs_engines c) = Some (e1, (DecisionRoute, meta, None)) /\
    meta !! KeyNextStep = Some name /\
    follows (carries V lc [] [] ∅ ∅) name (env_Payload env) tr /\ chained w tr w1 /\
    Forall (@governed_execution _ (engine_at h) (evaluator_at h) W G lc (cs_engines c)) tr.
Proof.
  intros Hg Hm Hp. unfold createHandler. destruct (String.eqb_spec m "POST") as [->|]; cbn [negb]; [|intros [= _ <- _]; by left].
  destruct (decode body) as [env|]; [|intros [= _ <- _]; by left].
  unfold client_execute. rewrite (proj1 Hg). cbn [mbind option_bind].
  destruct (Client_Execute _ _ _ _ _ _) as [[s r]|] eqn:Hx; [|done]. cbn [mbind option_bind].
  destruct (respond r); [|done]. intros [= _ <- _].
  apply (@Client_Execute_governed _ (engine_at h) (evaluator_at h) _ V G) in Hx.
  - destruct Hx as [Hx|(name & e1 & meta & tr & Hs & Hn & Hf & Hc & Hgov)]; [by left|right]. split; [done|].
    assert (env_Payload (with_id fresh env) = env_Payload env) as Hpay by (unfold with_id; by case_match). rewrite Hpay in Hf.
    exists env, name, e1, meta, tr. split_and!; done.
  - intros mem. cbn [cl_agentMemory loop_client]. destruct (cs_memory c) as [m0|] eqn:Hcm; [|done].
    intros [= <-]. by apply Hm.
  - cbn [cl_stateManager loop_client]. by rewrite Hp.
  - intros name a Ha. destruct (loop_guarded h c name a Hg Ha) as [raw ->]. eauto 10.
Qed.

(** C5: Requests are governed, whatever came before them.  Start from a client
    whose actions are supervised with its own engine, whose memory leaves the
    world alone and which has no durable store.  After any sequence of
    requests and policy reloads, a request that changes the world is a POST
    with a well-formed envelope that the engine's steering routed to an
    action; what it did is a sequence of executions from that action and the
    envelope's payload on, following routes and retries; only these change the
    world, and each that does was asked about to that engine, in a state
    reached by its own operations, as its own request (metadata, labels, facts,
    tagged payload fields, action name), and answered without a halt or with
    advisory tiers only.  The handler forwards the payload of the envelope
    alone: the requests asked about have no labels and no facts, whatever the
    envelope had. *)
Theorem requests_governed engine_text policyPath h (s0 s1 : served) m body (c2 : State) w2 response :
  guarded_by h (sv_client s0) -> (forall mem, cs_memory (sv_client s0) = Some mem -> inert (memory_code mem)) ->
  cs_state (sv_client s0) = None -> rtc (step engine_text policyPath) s0 s1 ->
  handle (sv_client s1) m body (sv_world s1) = Some (c2, w2, response) -> w2 <> sv_world s1 ->
  let lc := loop_client G ctx ctx' action_code memory_code provider_code (sv_client s1) in
  m = "POST" /\ exists env name e1 meta (tr : list (Execution (gmap nat E) W)), decode body = Ok env /\
    @le_EvaluateSteering _ (engine_at h) (with_id fresh env) (cs_engines (sv_client s1)) = Some (e1, (DecisionRoute, meta, None)) /\
    meta !! KeyNextStep = Some name /\
    follows (carries V lc [] [] ∅ ∅) name (env_Payload env) tr /\ chained (sv_world s1) tr w2 /\
    Forall (@governed_execution _ (engine_at h) (evaluator_at h) W G lc (cs_engines (sv_client s1))) tr.
Proof.
  intros Hg Hm Hp Hr Hh Hw.
  assert (guarded_by h (sv_client s1) /\ cs_memory (sv_client s1) = cs_memory (sv_client s0) /\ cs_state (sv_client s1) = None) as (Hg' & Hm' & Hp').
  { clear Hh Hw. induction Hr as [|s0 s1 s2 H1 _ IH]; [done|]. pose proof (step_keeps _ _ _ _ H1) as (K1 & K2 & K3 & K4 & _). cbn zeta in *.
    rewrite K3 in IH. destruct IH as (I1 & I2 & I3); [|done|congruence|done]. split; [destruct Hg; congruence|]. rewrite K2. apply Hg. }
  destruct (handle_governed h (sv_client s1) c2 m body (sv_world s1) w2 response) as [?|H]; [done|by rewrite Hm'|done..].
Qed.
End Handler.

(** ** Witnesses *)

#[local] Instance blank_engine : ClientEngine nat := {|
  ce_new := Ok 0; ce_LoadPolicy _ e := (e, None); ce_LoadFromSource _ e := (e, None); ce_LoadFacts _ e := (e, None);
  ce_RegisterExternalPredicate _ e := (e, None); ce_RegisterAction _ e := (e, None); ce_Reload := None |}.

(** An engine that routes the first request to the tool and then proceeds. *)
#[local] Instance routing_engine : LoopEngine nat := {|
  le_EvaluateSteering _ e := Some (if Nat.eqb e 0 then (1, (DecisionRoute, {[KeyNextStep := "mcp_web_search"]}, None))
                                   else (e, (DecisionProceed, ∅, None)));
  le_CheckRequirement _ _ e := Some (e, Ok false); le_LoadFacts _ e := (e, None) |}.

Definition halting_evaluator : Evaluator nat := {|
  ev_AssessPlan _ _ e := Some (e, ({| d_Outcome := DecisionHalt; d_Target := ""; d_Reasons := ["forbidden"]; d_Meta := []; d_AuditTrail := None;
                                    d_Action := None |}, None));
  ev_Reflect _ _ env e := Some (e, (env, None));
  ev_Query _ _ _ e := (e, Ok []) |}.

Definition nop_memory (_ : ClientMemory (Hist := unit) (Rag := unit) (Other := unit)) : AgentMemory (list Envelope) :=
  {| am_history := NopStore; am_Recall _ w := (w, Ok ""); am_RecallWithFacts := None |}.
Definition no_provider (p : Empty_set) : StateProvider (list Envelope) * JsonCodec := match p with end.
Definition tool_code (_ : CAction) : Action (list Envelope) := log_action "mcp_web_search".
Definition describe_decision (d : string) (_ : gmap string string) : string := d.
Definition decode_any (_ : string) : res error Envelope := Ok emptyEnvelope.
Definition no_file (_ : string) : res error string := Ok "[]".
Definition one_server (_ : string) : res error (list MCPServerConfig) := Ok [srv].
Definition two_tools (_ : MCPServerConfig) : res error (list string) := Ok ["search"; "fetch"].
Local Abbreviation TestClient := (CState (E := nat) (Hist := unit) (Rag := unit) (Other := unit) (Provider := Empty_set) (Llm := unit)).

Definition test_handle (ev : Evaluator nat) (c : TestClient) : option (TestClient * list Envelope * Response) :=
  @createHandler nat routing_engine ev (list Envelope) quiet_env plain_env unit unit unit Empty_set unit None None tool_code nop_memory
    no_provider describe_decision decode_any 7 c "POST" "{}" [].

Definition started : res error TestClient :=
  @serve_start nat blank_engine unit unit unit Empty_set unit tt tt no_file one_server two_tools "" "mcp.json".
Definition started_client : TestClient := match started with Ok c => c | Err _ => blank_client tt tt ∅ 0 end.
(** The same client with steering, as an embedding program can build it. *)
Definition steered_client : TestClient := set_loop 0 true (cs_paradox started_client) started_client.

Lemma started_ok : started = Ok started_client.
Proof. by_vm. Qed.

Lemma steered_guarded : guarded_by 0 steered_client.
Proof.
  destruct (@serve_start_state nat blank_engine unit unit unit Empty_set unit tt tt no_file one_server two_tools "" "mcp.json" _ started_ok)
    as (h & [Hh Hg] & _). assert (h = 0) as -> by (injection Hh; done). split; [done|exact Hg].
Qed.

Lemma serve_answers_nothing_witness :
  exists response, @createHandler nat routing_engine counting_evaluator (list Envelope) quiet_env plain_env unit unit unit Empty_set unit None None
      tool_code nop_memory no_provider describe_decision decode_any 7 started_client "POST" "{}" [] = Some (started_client, [], response) /\
    rs_Status response = 500%Z /\ rs_Body response = BText no_steering_text.
Proof.
  destruct (@serve_answers_nothing nat blank_engine routing_engine counting_evaluator (list Envelope) quiet_env plain_env unit unit unit Empty_set
    unit None None tool_code nop_memory no_provider describe_decision decode_any 7 tt tt no_file one_server two_tools "engine" "" "mcp.json"
    started_client [] {| sv_client := started_client; sv_world := [] |} started_ok (rtc_refl _ _)) as [_ H].
  destruct (H "POST" "{}") as (response & Hh & _ & Hs). exists response. destruct (Hs eq_refl eq_refl). split_and!; done.
Defined.

Definition denied : option (TestClient * list Envelope * Response) := test_handle halting_evaluator steered_client.
Definition status_of (x : option (TestClient * list Envelope * Response)) : Z :=
  match x with Some (_, _, r) => rs_Status r | None => 0 end.

(** A request that the policy denies: the tool does not run, and the answer
    is 500. *)
Lemma handler_never_forbids_witness :
  exists c w response, denied = Some (c, w, response) /\ w = [] /\ rs_Status response = 500%Z /\ rs_Status response <> StatusForbidden.
Proof.
  destruct denied as [[[c w] response]|] eqn:Hd; [|by vm_compute in Hd]. exists c, w, response.
  assert (w = [] /\ rs_Status response = 500%Z) as [-> Hs].
  { assert ((fun x : option (TestClient * list Envelope * Response) =>
        match x with Some (_, w, r) => (w, rs_Status r) | None => ([emptyEnvelope], 0%Z) end) denied = ([], 500%Z)) as Hv by by_vm.
    rewrite Hd in Hv. by injection Hv. }
  split_and!; [done|done|done|].
  eapply (@handler_never_forbids nat routing_engine halting_evaluator (list Envelope) quiet_env plain_env unit unit unit Empty_set unit None None
    tool_code nop_memory no_provider describe_decision decode_any 7 0 steered_client "POST" "{}" [] c [] response steered_guarded).
  - intros raw env w w' x. done.
  - intros n x [H|H]; discriminate H.
  - intros env e e' d x. cbn. by destruct (Nat.eqb e 0).
  - exact Hd.
Defined.

Definition allowed : option (TestClient * list Envelope * Response) := test_handle counting_evaluator steered_client.

Definition steered_loop : Client (gmap nat nat) (list Envelope) :=
  loop_client (Evaluator0 := counting_evaluator) plain_env None None tool_code nop_memory no_provider steered_client.

Lemma requests_governed_witness :
  exists c w response, allowed = Some (c, w, response) /\ w <> [] /\
    exists name (tr : list (Execution (gmap nat nat) (list Envelope))) x k ext (act : Action (list Envelope)), chained [] tr w /\ x ∈ tr /\
      follows (carries quiet_env steered_loop [] [] ∅ ∅) name GNil tr /\
      @asked_and_tolerated _ (@evaluator_at nat counting_evaluator 0) (list Envelope) plain_env k ext act (x_request x) (x_engine x).
Proof.
  destruct allowed as [[[c w] response]|] eqn:Ha; [|by vm_compute in Ha].
  assert (w <> []) as Hw.
  { assert ((fun x : option (TestClient * list Envelope * Response) =>
        match x with Some (_, _ :: _, _) => true | _ => false end) allowed = true) as Hv by by_vm.
    rewrite Ha in Hv. by destruct w. }
  exists c, w, response. split_and!; [done|exact Hw|].
  destruct (@requests_governed nat blank_engine routing_engine counting_evaluator (list Envelope) quiet_env plain_env unit unit unit Empty_set
    unit None None tool_code nop_memory no_provider describe_decision decode_any 7 no_file "engine" "" 0
    {| sv_client := steered_client; sv_world := [] |} {| sv_client := steered_client; sv_world := [] |} "POST" "{}" c w response steered_guarded)
    as (_ & env & name & e1 & meta & tr & Henv & _ & _ & Hf & Hc & Hg).
  - intros mem _. unfold inert, nop_memory. split_and!; done.
  - by_vm.
  - apply rtc_refl.
  - exact Ha.
  - exact Hw.
  - injection Henv as <-. pose proof Hc as Hc'.
    apply chained_cause with (Q := fun x => exists k ext (act : Action (list Envelope)),
      @asked_and_tolerated _ (@evaluator_at nat counting_evaluator 0) (list Envelope) plain_env k ext act (x_request x) (x_engine x)) in Hc'
      as [Heq|(x & Hx & k & ext & act & Hact)]; [destruct (Hw Heq)| |].
    + exists name, tr, x, k, ext, act. split_and!; [exact Hc|exact Hx|exact Hf|exact Hact].
    + intros x Hx. eapply Forall_forall in Hg as (_ & k & k' & ext & act & ct & e' & Hr & _ & [Heq|Hask]); [| |exact Hx]; [by left|right].
      exists k, ext, act. exact Hask.
Defined.
