(* ===== verification/Enforcement.v ===== *)
(** * Enforcement of a policy, end to end

    The guarantees of the supervisor, the gate and the loop composed: each
    execution of a call has an effect only if the policy that was in force
    before the call clears this execution's own request.

    What the engine consults (for the runtime: its program and its base
    facts) is a view of the runtime that queries keep ([PolicyView]); every
    operation of the engine that a governed call uses keeps it too. *)
From S2P Require Import Prelude GoStrings CoreErrors CoreTypes Facts Reflect Sources Datalog Runtime Cache Solver SolverProps Supervisor SupervisorProps Session AgentLoop AgentLoopProps.
From Stdlib Require Import Ascii String.
Open Scope string_scope.

(** ** What a request must pass *)

Section Gate.
Context {R : Type} `{!GateRuntime R} (G : GoEnv).
Implicit Types (e : PolicyEngine R).

(** The policy clears an envelope: a program is loaded, the facts of the
    envelope are well-formed, and either nothing halts, or every recorded halt
    carries an explicit advisory tier. *)
Definition cleared (ctx : option error) (env : Envelope) (e : PolicyEngine R) : Prop :=
  gr_ready (pe_runtime e) = true /\
  exists e1 facts, gate_facts G "" EntityInput env [] e = Some (e1, Ok facts) /\
    (undisturbed ctx facts EntityInput (pe_runtime e1) \/
     exists r2 m ms, halt_matches ctx facts EntityInput (pe_runtime e1) = (r2, Ok (m :: ms)) /\
       forall x, x ∈ m :: ms -> advisory (m_tier x)).

Lemma match_tier_named ctx facts entityID r r2 ms m :
  halt_matches ctx facts entityID r = (r2, Ok ms) -> m ∈ ms -> m_tier m <> "".
Proof.
  intros H Hm. assert (m_tier m = TierUnknown \/ exists sol, m_tier m = tier_of sol "Tier") as Ht.
  { revert H. unfold halt_matches. destruct (gr_query ctx facts (query_halt3 entityID) r) as [r1 [sols3 err3]].
    destruct (tiered_matches "Reason" sols3) as [|m0 ms0] eqn:Ht.
    - destruct (gr_query ctx facts (query_halt2 entityID) r1) as [r3 [sols2 [err|]]]; [done|]. intros [= _ <-].
      apply list_elem_of_omap in Hm as (sol & _ & Hsol). destruct (sol !! "Reason"); [|done]. injection Hsol as <-. by left.
    - intros [= _ <-]. rewrite <- Ht in Hm. apply list_elem_of_omap in Hm as (sol & _ & Hsol).
      destruct (sol !! "Reason"); [|done]. injection Hsol as <-. right. by exists sol. }
  destruct Ht as [->|[sol ->]]; [done|]. unfold tier_of. destruct (sol !! "Tier") as [t|]; [|done].
  by destruct (String.eqb_spec t "") as [->|].
Qed.

Lemma assessed_cleared ctx env e e1 d :
  AssessPlan G ctx env e = Some (e1, (d, None)) -> tolerated d -> cleared ctx env e.
Proof.
  unfold AssessPlan, assessInternal, evaluateGateWithTrail, tolerated, cleared. cbn [am_Name named_action].
  change (String.eqb "" "") with true. cbv iota.
  destruct (gr_ready (pe_runtime e)); cbn [negb fmap option_fmap option_map mbind option_bind].
  2: { cbn. intros Hd Ht. simplify_eq. by destruct (Ht eq_refl) as (t & ? & _). }
  destruct (gate_facts G "" EntityInput env [] e) as [[e2 [facts|x]]|]; [| |done]; cbn [option_map mbind option_bind].
  2: { cbn. intros Hd Ht. destruct (as_alignment x); simplify_eq. by destruct (Ht eq_refl) as (t & ? & _). }
  destruct (gate_query G ctx "" EntityInput facts (pe_runtime e2)) as [r' [trail err]] eqn:Hq. intros Hd Ht.
  split; [done|]. exists e2, facts. split; [done|].
  destruct err as [x|]; [|left; by eapply gate_query_allows].
  assert (exists t, trail = Some t /\ forall r, r ∈ at_MatchedRules t -> ri_Tier r = "" \/ advisory (ri_Tier r)) as (t & -> & Hr).
  { cbn in Hd. destruct (as_alignment x); simplify_eq. destruct (Ht eq_refl) as (t & Hd & Hr & _). by exists t. }
  right. unfold gate_query in Hq. destruct (halt_matches ctx facts EntityInput (pe_runtime e2)) as [r2 [[|m ms]|y]] eqn:Hm; [| |done].
  { destruct (gr_exec ctx facts _ r2) as [r3 [[]|]]; [|done|done].
    destruct (gr_query ctx facts _ r3) as [r4 [msgs ?]]. by destruct (gr_query ctx facts _ r4) as [r5 [ids ?]]. }
  destruct (gr_query ctx facts "violation_rule(ID)" r2) as [r3 [ids eids]]. injection Hq as _ <- _.
  exists r2, m, ms. split; [done|]. intros y Hy.
  destruct (halt_trail_rules G EntityInput (m :: ms)) as [Hrules _]. rewrite Hrules in Hr.
  destruct (Hr (trail_entry EntityInput y)) as [He|Ha]; [by apply list_elem_of_fmap_2| |done].
  exfalso. eapply match_tier_named; [exact Hm|exact Hy|exact He].
Qed.
End Gate.

(** ** What the policy is during a call *)

(** A view of the runtime that its queries leave alone. *)
Class PolicyView (R P : Type) `{!GateRuntime R} := {
  view : R -> P;
  view_query : forall ctx facts q r, view (fst (gr_query ctx facts q r)) = view r;
  view_exec : forall ctx facts q r, view (fst (gr_exec ctx facts q r)) = view r
}.

Section View.
Context {R P : Type} `{!GateRuntime R} (pv : PolicyView R P) (G : GoEnv).
Implicit Types (e : PolicyEngine R).

Lemma query_view ctx facts q r r' out : gr_query ctx facts q r = (r', out) -> view r' = view r.
Proof. intros H. pose proof (view_query ctx facts q r) as Hv. by rewrite H in Hv. Qed.
Lemma exec_view ctx facts q r r' out : gr_exec ctx facts q r = (r', out) -> view r' = view r.
Proof. intros H. pose proof (view_exec ctx facts q r) as Hv. by rewrite H in Hv. Qed.

(** Follow the queries of a computation, innermost first. *)
Ltac follow :=
  repeat match goal with
  | |- context [gr_query ?c ?f ?q ?r] =>
      let r' := fresh "r" in let o := fresh "out" in let H := fresh "Hv" in
      destruct (gr_query c f q r) as [r' o] eqn:H; apply query_view in H; destruct o
  | |- context [gr_exec ?c ?f ?q ?r] =>
      let r' := fresh "r" in let o := fresh "out" in let H := fresh "Hv" in
      destruct (gr_exec c f q r) as [r' o] eqn:H; apply exec_view in H
  end.

Lemma halt_matches_view ctx facts entityID r : view (fst (halt_matches ctx facts entityID r)) = view r.
Proof. unfold halt_matches. follow; repeat case_match; cbn; congruence. Qed.

Lemma gate_query_view ctx name entityID facts r : view (fst (gate_query G ctx name entityID facts r)) = view r.
Proof.
  unfold gate_query. pose proof (halt_matches_view ctx facts entityID r) as Hm.
  destruct (halt_matches ctx facts entityID r) as [r1 [[|m ms]|x]]; cbn in Hm; [| |done].
  - follow; repeat case_match; cbn; congruence.
  - follow; cbn; congruence.
Qed.

Lemma steering_matches_view ctx facts pred var r : view (fst (steering_matches ctx facts pred var r)) = view r.
Proof. unfold steering_matches. follow; repeat case_match; cbn; congruence. Qed.

Lemma steering_query_view ctx facts r : view (fst (steering_query ctx facts r)) = view r.
Proof.
  unfold steering_query. pose proof (steering_matches_view ctx facts PredRetry "Hint" r) as H1.
  destruct (steering_matches ctx facts PredRetry "Hint" r) as [r1 [rms|x]]; cbn in H1; [|done].
  pose proof (steering_matches_view ctx facts PredRoute "Target" r1) as H2.
  destruct (steering_matches ctx facts PredRoute "Target" r1) as [r2 [tms|x]]; cbn in *; congruence.
Qed.

(** Conversions of facts leave the runtime alone. *)
Lemma parseCachedAtom_runtime s e : pe_runtime (fst (parseCachedAtom s e)) = pe_runtime e.
Proof. unfold parseCachedAtom. by repeat case_match. Qed.

Lemma append_fact_strings_runtime strs facts name e : pe_runtime (fst (append_fact_strings facts strs name e)) = pe_runtime e.
Proof.
  revert facts e. induction strs as [|s strs IH]; intros facts e; cbn [append_fact_strings]; [done|].
  pose proof (parseCachedAtom_runtime s e) as Hp. destruct (parseCachedAtom s e) as [e1 [a|x]]; cbn in Hp; [|done]. by rewrite IH.
Qed.

Lemma appendEnvelopeFacts_runtime facts env name e : pe_runtime (fst (appendEnvelopeFacts G facts env name e)) = pe_runtime e.
Proof.
  unfold appendEnvelopeFacts. pose proof (append_fact_strings_runtime (env_Facts env) facts name e) as H.
  by destruct (append_fact_strings facts (env_Facts env) name e) as [e1 [facts1 [x|]]].
Qed.

Lemma gate_facts_runtime name entityID env extra e e' out :
  gate_facts G name entityID env extra e = Some (e', out) -> pe_runtime e' = pe_runtime e.
Proof.
  unfold gate_facts. destruct (toMangleFacts G _ _ _) as [[facts|x]|]; cbn [mbind option_bind]; [|by intros [= <- _]|done].
  destruct (parse_labels _) as [labels|x]; [|by intros [= <- _]].
  pose proof (appendEnvelopeFacts_runtime (facts ++ extra ++ labels) env name e) as H.
  destruct (appendEnvelopeFacts G _ env name e) as [e1 [facts1 [x|]]]; by intros [= <- _].
Qed.

Lemma evaluateGate_view ctx name entityID env extra e e' out :
  evaluateGateWithTrail G ctx name entityID env extra e = Some (e', out) -> view (pe_runtime e') = view (pe_runtime e).
Proof.
  unfold evaluateGateWithTrail. destruct (negb _); [by intros [= <- _]|].
  destruct (gate_facts G name entityID env extra e) as [[e1 [facts|x]]|] eqn:Hf; [| |done]; cbn [mbind option_bind];
    apply gate_facts_runtime in Hf; [|intros [= <- _]; by rewrite Hf].
  pose proof (gate_query_view ctx name entityID facts (pe_runtime e1)) as Hq.
  destruct (gate_query G ctx name entityID facts (pe_runtime e1)) as [r' o]. intros [= <- _]. cbn in *. congruence.
Qed.

(** Every operation a governed call uses keeps the view. *)
Lemma engine_step_view ctx e e' :
  @engine_step _ (policy_loop_engine G ctx) (engine_evaluator G) e e' -> view (pe_runtime e') = view (pe_runtime e).
Proof.
  intros [env e0 e0' [d err] H|env name e0 e0' out H|c pc atoms e0 e0' out H].
  - cbn [le_EvaluateSteering policy_loop_engine] in H. unfold EvaluateSteering in H. destruct (negb _); [by simplify_eq|].
    destruct (toMangleFacts G _ _ _) as [[facts|x]|]; [| |done]; cbn [mbind option_bind] in H; [|by simplify_eq].
    pose proof (appendEnvelopeFacts_runtime facts env "" e0) as Ha.
    destruct (appendEnvelopeFacts G facts env "" e0) as [e1 [facts1 [x|]]]; cbn in Ha; [simplify_eq; congruence|].
    pose proof (steering_query_view ctx facts1 (pe_runtime e1)) as Hs.
    destruct (steering_query ctx facts1 (pe_runtime e1)) as [r' o]. simplify_eq. cbn in *. congruence.
  - cbn [le_CheckRequirement policy_loop_engine] in H. unfold CheckRequirement in H.
    destruct (toMangleFacts G _ _ _) as [[facts|x]|]; [| |done]; cbn [mbind option_bind] in H; [|by simplify_eq].
    destruct (gr_exec ctx facts _ (pe_runtime e0)) as [r' o] eqn:Hx. apply exec_view in Hx. simplify_eq. exact Hx.
  - assert (forall name c env e1 o, Reflect G c (named_action name) env e0 = Some (e1, o) -> view (pe_runtime e1) = view (pe_runtime e0)) as HR.
    { intros name c0 env e1 o. unfold Reflect, evaluateGate.
      destruct (evaluateGateWithTrail G c0 _ _ env [] e0) as [[e2 [t x]]|] eqn:Hg; [|done]. apply evaluateGate_view in Hg. by intros [= <- _]. }
    assert (forall c env e1 o, AssessPlan G c env e0 = Some (e1, o) -> view (pe_runtime e1) = view (pe_runtime e0)) as HA.
    { intros c0 env e1 o. unfold AssessPlan, assessInternal.
      destruct (evaluateGateWithTrail G c0 _ _ env _ e0) as [[e2 [t x]]|] eqn:Hg; [|done]. apply evaluateGate_view in Hg. by intros [= <- _]. }
    unfold VerifyAtoms in H. cbn [ev_Reflect ev_AssessPlan engine_evaluator] in H.
    destruct atoms as [|a atoms], pc as [pc|]; try (by simplify_eq).
    all: destruct (maxFactsPerVerify <? _)%nat; [by simplify_eq|].
    all: destruct (_ && _); [destruct (Reflect G _ _ _ _) as [[e1 [o x]]|] eqn:Hr|destruct (AssessPlan G _ _ _) as [[e1 [o x]]|] eqn:Hr]; try done.
    all: cbn [mbind option_bind] in H; simplify_eq; first [eapply HR; exact Hr|eapply HA; exact Hr].
Qed.

Lemma engine_steps_view ctx e e' :
  rtc (@engine_step _ (policy_loop_engine G ctx) (engine_evaluator G)) e e' -> view (pe_runtime e') = view (pe_runtime e).
Proof. induction 1 as [|e1 e2 e3 H _ IH]; [done|]. apply engine_step_view in H. congruence. Qed.
End View.

(** The view of the engine's runtime: its program, its base facts and whether
    it is ready, which decide every answer (up to the derived-fact cache). *)
Section Runtime.
Context {St : Type} `{FactStore St} `{!Mangle St} (stdLib : string).

Definition policy_of (r : MangleRuntime St) : option (ProgramInfo * Strata) * St * bool := (rt_program r, rt_base r, rt_ready r).

Lemma ews_policy ctx facts opts r : policy_of (fst (evaluatedWorkingStore ctx facts opts r)) = policy_of r.
Proof.
  unfold evaluatedWorkingStore, ews_begin. destruct (rt_ready r) eqn:Hr, (rt_program r) as [p|] eqn:Hp; try done.
  assert (policy_of (if cacheable r then ensure_cache r else r) = policy_of r) as He.
  { unfold ensure_cache. by destruct (cacheable r), (rt_idbCache r). }
  destruct (if cacheable r then _ ≫= _ else None) as [cached|]; [exact He|].
  unfold ews_commit. destruct ctx as [x|]; [exact He|].
  destruct (evalStratifiedWithContext _ _ _ _ _) as [s [x|]]; [exact He|].
  cbn [pd_key]. destruct (cacheable r); [|exact He]. unfold cache_insert. cbn [rt_idbCache count_eval].
  destruct (rt_idbCache (ensure_cache r)) as [c|] eqn:Hc; [|exact He]. exact He.
Qed.

#[local] Instance mangle_gate : GateRuntime (MangleRuntime St) := mangle_gate_runtime stdLib.

Lemma query_policy ctx facts q r : policy_of (fst (QueryWithSolutions ctx facts q r)) = policy_of r.
Proof.
  unfold QueryWithSolutions. destruct ctx as [x|]; [done|].
  set (opts := match rt_program r with Some p => _ | None => _ end). pose proof (ews_policy None facts opts r) as He.
  by destruct (evaluatedWorkingStore None facts opts r) as [r1 ws].
Qed.

Lemma exec_policy ctx facts q r : policy_of (fst (ExecuteQuery ctx facts q r)) = policy_of r.
Proof.
  unfold ExecuteQuery. destruct ctx as [x|]; [done|]. pose proof (ews_policy None facts no_opts r) as He.
  by destruct (evaluatedWorkingStore None facts no_opts r) as [r1 ws].
Qed.

Definition runtime_view : PolicyView (MangleRuntime St) (option (ProgramInfo * Strata) * St * bool) :=
  {| view := policy_of; view_query := query_policy; view_exec := exec_policy |}.
End Runtime.

(** ** The composition *)

(** C1: Enforcement by the loaded policy, through the whole stack.  In a
    client of the policy engine whose actions are all supervised, whose memory
    leaves the world alone and which has no durable sessions, a call is a
    sequence of executions that starts with the call's action on the call's
    payload and follows the routes and retries answered; every request carries
    the call's labels and facts, its options and (without a memory) its
    metadata; the world passes from one execution to the next and is changed
    by nothing else.  The call never changes what its policy is, and an
    execution changes the world only if that policy, as it was when the call
    began, cleared an envelope that states this execution's own request (its
    metadata, labels and facts, the tagged fields of its payload, or of what
    the extractor read from it, and the name of the action).  Cleared means: a
    program is loaded, the facts are well-formed, and either the gate's
    queries report no halt, or the trail names advisory tiers only.  As in the
    code, a tiered [halt/3] query that fails, or answers without a textual
    reason, counts as no halt; a failing [halt/2] or [halt/1] query does not. *)
Theorem call_governed_by_policy {R P : Type} `{!GateRuntime R} (pv : PolicyView R P) (G : GoEnv) (ctx : option error) {W : Type} (V : LoopEnv)
    (c : Client (PolicyEngine R) W) action input opts s s' r :
  (forall mem, cl_agentMemory c = Some mem -> inert mem) -> cl_stateManager c = None ->
  @all_supervised _ (engine_evaluator G) W G c ->
  @ExecuteByName _ (policy_loop_engine G ctx) W V c action input opts s = Some (s', r) ->
  view (pe_runtime (ls_E s')) = view (pe_runtime (ls_E s)) /\
  exists tr : list (Execution (PolicyEngine R) W),
    follows (carries_call V c input opts) action (call_payload input) tr /\ chained (ls_W s) tr (ls_W s') /\
    forall x, x ∈ tr -> view (pe_runtime (x_engine x)) = view (pe_runtime (ls_E s)) /\
      exists check_ctx check_ctx' ext act ct e',
        cl_registry c !! x_action x = Some (@supervised_action _ (engine_evaluator G) W G check_ctx check_ctx' ext act ct) /\
        @supervised_Execute _ (engine_evaluator G) W G check_ctx check_ctx' ext act (x_request x) (x_engine x) (x_before x)
          = Some (e', x_after x, x_output x) /\
        (x_after x = x_before x \/
         exists p env, checked_payload ext (x_request x) p /\ asks_about G act (x_request x) p env /\ cleared G check_ctx env (x_engine x)).
Proof.
  intros Hm Hsm Hsup Hx.
  apply (@ExecuteByName_governed _ (policy_loop_engine G ctx) (engine_evaluator G) W V G c Hm Hsm Hsup) in Hx as (He & tr & Hf & Hc & Hg).
  split; [by eapply engine_steps_view|]. exists tr. split_and!; [done|done|]. intros x Hin.
  eapply Forall_forall in Hg as (Hes & c0 & c0' & ext & act & ct & e' & Hr & Hx & Hw); [|exact Hin].
  split; [by eapply engine_steps_view|]. exists c0, c0', ext, act, ct, e'. split_and!; [done|done|].
  destruct Hw as [?|(p & env & e1 & d & Hp & Ha & Hd & Ht)]; [by left|right]. exists p, env. split_and!; [done|done|].
  by eapply assessed_cleared.
Qed.

(** ** Witness: a policy with an advisory halt, on the ground runtime *)

#[local] Instance ground_gate : GateRuntime (MangleRuntime (list Atom)) := mangle_gate_runtime "".

Definition advisory_policy : string := fact_line "halt" ["Req"; "style"; "T3"].
Definition governed_action : LAction (PolicyEngine (MangleRuntime (list Atom))) (list Envelope) :=
  @supervised_action _ (engine_evaluator plain_env) (list Envelope) plain_env None None None (log_action "act") TypeStruct.
Definition governed_client : Client (PolicyEngine (MangleRuntime (list Atom))) (list Envelope) := client_of governed_action None None false.
Definition governed_start : LState (PolicyEngine (MangleRuntime (list Atom))) (list Envelope) :=
  {| ls_E := engine_with advisory_policy; ls_W := []; ls_async := [] |}.
Definition governed_input : Envelope :=
  {| env_ID := 1; env_Payload := GStr "hello"; env_Metadata := ∅; env_SecurityLabels := ["pii"]; env_Facts := []; env_ContentType := "";
     env_ContextFacts := []; env_Violations := [] |}.
Definition governed_call : option (LState (PolicyEngine (MangleRuntime (list Atom))) (list Envelope) * res error Envelope) :=
  @ExecuteByName _ (policy_loop_engine plain_env None) _ quiet_env governed_client "act" (InEnvelope governed_input) [] governed_start.

Lemma call_governed_by_policy_witness :
  exists s r, governed_call = Some (s, r) /\ ls_W s <> [] /\
    policy_of (pe_runtime (ls_E s)) = policy_of (pe_runtime (engine_with advisory_policy)) /\
    exists (x : Execution (PolicyEngine (MangleRuntime (list Atom))) (list Envelope)) (act : Action (list Envelope)) c p env,
      asks_about plain_env act (x_request x) p env /\ env_SecurityLabels env = ["pii"] /\ cleared plain_env c env (x_engine x) /\
      policy_of (pe_runtime (x_engine x)) = policy_of (pe_runtime (engine_with advisory_policy)).
Proof.
  destruct (run_worked_inv governed_call) as (s & r & H & Hw); [by_vm|]. exists s, r.
  destruct (call_governed_by_policy (runtime_view "") plain_env None quiet_env governed_client "act" (InEnvelope governed_input) [] governed_start s r)
    as (Hp & tr & Hf & Hc & Hg); [done|done| |exact H|].
  { intros name a Ha. change (({[ "act" := governed_action ]} : gmap string (LAction _ (list Envelope))) !! name = Some a) in Ha.
    apply lookup_singleton_Some in Ha as [_ <-]. by exists None, None, None, (log_action "act"), TypeStruct. }
  split_and!; [exact H|exact Hw|exact Hp|].
  apply chained_cause with (Q := fun x => exists (act : Action (list Envelope)) c p env,
    asks_about plain_env act (x_request x) p env /\ cleared plain_env c env (x_engine x)) in Hc as [Heq|(x & Hx & act & c & p & env & Ha & Hcl)].
  - destruct (Hw Heq).
  - exists x, act, c, p, env. split_and!; [exact Ha| |exact Hcl|by apply Hg].
    destruct Ha as (_ & -> & _). by apply (follows_carries _ _ _ _ Hf x) in Hx as (_ & -> & _).
  - intros x Hx. destruct (Hg x Hx) as (_ & c & c' & ext & act & ct & e' & _ & _ & [Heq|(p & env & _ & Ha & Hcl)]).
    + left. exact Heq.
    + right. exists act, c, p, env. split; [exact Ha|exact Hcl].
Defined.
