(* ===== verification/Flows.v ===== *)
(** * Flows and the architect agent

    The rest of [x/oodaflow/oodaflow.go] (streaming flows, the executor that
    builds a flow per call, the registry of flows), the tools of
    [x/agents/tools/tools.go], and the OODA side of [x/agents/architect.go],
    over [RunOODA] and [Run] of [Ooda].  Registration with Genkit is recorded
    as the list of names; time-outs have no effect on the model. *)
From S2P Require Import Prelude GoStrings CoreErrors CoreTypes Float64 Ooda Builder Architect.
From Stdlib Require Import Ascii String.
Open Scope string_scope.

Section Flows.
Context {W : Type} (lower : string -> string) (render : GoVal -> string) (is_invalid_output : error -> bool)
  (ctx_done : Z -> option error).

(** A flow: its settings and its components. *)
Record Flow := { fl_config : OODAFlowConfig; fl_ports : Ports W }.

Definition flow_Run (fl : Flow) (id : string) (input : OODAFlowInput) (w : W) : option (W * OODAFlowOutput) :=
  OODAFlow_Run (fl_ports fl) lower render is_invalid_output ctx_done (fl_config fl) id input w.

(** The function of [DefineStreamingFlow]: the chunks sent, and the result. *)
Definition streaming_flow (fl : Flow) (id : string) (input : OODAFlowInput) (w : W)
  : option (W * list string * OODAFlowOutput) :=
  '(w1, result) ← flow_Run fl id input w;
  Some (w1, if String.eqb (fo_Output result) "" then [] else [fo_Output result], result).

(** ** The executor *)

(** [M] is the type of Genkit middleware. *)
Record OODAExecutor {M : Type} := {
  ox_MaxRetries : Z;
  ox_Middleware : list M;
  ox_KnowledgeStore : option (KnowledgeStore W);
  ox_TransientStore : option (TransientStore W)
}.
Arguments OODAExecutor M : clear implicits.

Definition executor_WithMaxRetries {M : Type} (n : Z) (e : OODAExecutor M) : OODAExecutor M :=
  {| ox_MaxRetries := n; ox_Middleware := ox_Middleware e; ox_KnowledgeStore := ox_KnowledgeStore e;
     ox_TransientStore := ox_TransientStore e |}.
Definition executor_WithMiddleware {M : Type} (mw : list M) (e : OODAExecutor M) : OODAExecutor M :=
  {| ox_MaxRetries := ox_MaxRetries e; ox_Middleware := (ox_Middleware e ++ mw)%list; ox_KnowledgeStore := ox_KnowledgeStore e;
     ox_TransientStore := ox_TransientStore e |}.

(** The flow [Execute] builds: no memory, brain, executor or dispatcher. *)
Definition executor_flow {M : Type} (e : OODAExecutor M) : Flow :=
  {| fl_config := NewOODAFlow (Some {| of_MaxRetries := ox_MaxRetries e; of_ParadoxThreshold := f_zero |});
     fl_ports := {| po_Memory := None; po_Brain := None; po_Executor := None; po_Dispatcher := None;
                    po_KnowledgeStore := ox_KnowledgeStore e; po_TransientStore := ox_TransientStore e; po_ReasoningPort := None |} |}.

Definition OODAExecutor_Execute {M : Type} (e : OODAExecutor M) (id : string) (input : OODAFlowInput) (w : W)
  : option (W * OODAFlowOutput) := flow_Run (executor_flow e) id input w.

(** ** The registry of flows *)

Record FlowRegistry := { rg_flows : gmap string Flow; rg_defined : list string }.

Definition NewFlowRegistry : FlowRegistry := {| rg_flows := ∅; rg_defined := [] |}.
Definition registry_Register (name : string) (fl : Flow) (r : FlowRegistry) : FlowRegistry :=
  {| rg_flows := <[name := fl]> (rg_flows r); rg_defined := rg_defined r |}.
Definition RegisterAndDefine (name : string) (fl : Flow) (r : FlowRegistry) : FlowRegistry :=
  {| rg_flows := <[name := fl]> (rg_flows r); rg_defined := (rg_defined r ++ [name])%list |}.
Definition flow_Get (name : string) (r : FlowRegistry) : option Flow := rg_flows r !! name.
Definition registry_Run (name id : string) (input : OODAFlowInput) (r : FlowRegistry) (w : W) : option (W * res error OODAFlowOutput) :=
  match flow_Get name r with
  | None => Some (w, Err (EText ("flow " +:+ name +:+ " not found")))
  | Some fl => '(w1, out) ← flow_Run fl id input w; Some (w1, Ok out)
  end.

(** ** The architect's tools *)

Definition read_codebase (args : gmap string GoVal) : string :=
  "Read 42 files from " +:+ getStringArg args "path" "/" +:+ " with extensions "
  +:+ getStringArg args "extensions" ".go,.ts,.js,.py".
Definition csd_text : string :=
  join nl ["# Conceptual Solution Design"; ""; "## Overview";
           "This document describes the architecture for the proposed system."; "";
           "## Architecture Pattern"; "Microservices pattern detected."; "";
           "## Components"; "- API Gateway"; "- Auth Service"; "- Data Service"; "- Notification Service"; "";
           "## Risks"; "- Complexity"; "- Operational overhead"; "";
           "## Recommendations"; "1. Use container orchestration (Kubernetes)"; "2. Implement observability early"; ""].

Definition answers_with (text : gmap string GoVal -> string) : option (ToolFunc W) := Some (fun args w => (w, (text args, None))).

Definition architect_tools : list (string * option (ToolFunc W)) :=
  [("read_codebase", answers_with read_codebase);
   ("analyze_architecture", answers_with (fun _ =>
      "Architecture analysis complete: detected microservice pattern, 15 dependencies identified"));
   ("generate_csd", answers_with (fun _ => csd_text));
   ("verify_against_axioms", Some (fun args w => (w, verify_against_axioms args)));
   ("finalize_csd", answers_with (fun _ => "CSD document finalized and ready for review"));
   ("receive_input", answers_with (fun args => "Input received for project: " +:+ getStringArg args "project_path" ""))].

(** [RegisterArchitectTools]; [None] is the panic of [MustRegister]. *)
Fixpoint register_all (tools : list (string * option (ToolFunc W))) (r : Registry W) : option (Registry W) :=
  match tools with
  | [] => Some r
  | (name, fn) :: rest => r' ← MustRegister name fn r; register_all rest r'
  end.
Definition RegisterArchitectTools (r : Registry W) : option (Registry W) := register_all architect_tools r.

(** ** The architect agent *)

Record ArchitectAgent := {
  aa_frame : CognitiveFrame;
  aa_ports : Ports W;
  aa_workflowID : string;
  aa_sessionID : string;
  aa_transientStore : TransientStoreAdapter;
  aa_registry : Registry W
}.

(** [id] is the UUID of the frame, [now] the clock's text in the session id. *)
Definition NewArchitectAgent (id now workflowID : string) : option ArchitectAgent :=
  let sessionID := "architect-" +:+ now in
  registry ← RegisterArchitectTools ∅;
  let '(frame, ports) := Builder.Build (WithRegistry registry (WithWorkflowID workflowID (Builder_WithSessionID sessionID (NewBuilder id)))) in
  Some {| aa_frame := frame; aa_ports := ports; aa_workflowID := workflowID; aa_sessionID := sessionID;
          aa_transientStore := NewTransientStore; aa_registry := registry |}.

Definition with_frame (f : CognitiveFrame) (a : ArchitectAgent) : ArchitectAgent :=
  {| aa_frame := f; aa_ports := aa_ports a; aa_workflowID := aa_workflowID a; aa_sessionID := aa_sessionID a;
     aa_transientStore := aa_transientStore a; aa_registry := aa_registry a |}.

(** [SetKnowledgeStore]. *)
Definition architect_SetKnowledgeStore (store : option (KnowledgeStore W)) (a : ArchitectAgent) : ArchitectAgent :=
  let p := aa_ports a in
  {| aa_frame := aa_frame a;
     aa_ports := {| po_Memory := po_Memory p; po_Brain := po_Brain p; po_Executor := po_Executor p; po_Dispatcher := po_Dispatcher p;
                    po_KnowledgeStore := store; po_TransientStore := po_TransientStore p; po_ReasoningPort := po_ReasoningPort p |};
     aa_workflowID := aa_workflowID a; aa_sessionID := aa_sessionID a; aa_transientStore := aa_transientStore a;
     aa_registry := aa_registry a |}.

(** [RunOODA] of the agent, on the one frame it keeps. *)
Definition architect_RunOODA (input : string) (a : ArchitectAgent) (w : W) : option (W * ArchitectAgent * option error) :=
  '(f, w1, err) ← Run (aa_ports a) lower render ctx_done (with_Input input (aa_frame a)) w;
  Some (w1, with_frame f a, match err with Some e => Some (EWrap "OODA loop failed: " e) | None => None end).

Definition GetAuditTrail (a : ArchitectAgent) : string := GetAuditSummary (aa_frame a).

(** A sequence of cycles, up to the first that fails. *)
Fixpoint architect_cycles (inputs : list string) (a : ArchitectAgent) (w : W) : option (W * ArchitectAgent * option error) :=
  match inputs with
  | [] => Some (w, a, None)
  | i :: rest =>
      '(w1, a1, err) ← architect_RunOODA i a w;
      match err with Some e => Some (w1, a1, Some e) | None => architect_cycles rest a1 w1 end
  end.
End Flows.
Arguments Flow W : clear implicits.
Arguments OODAExecutor W M : clear implicits.
Arguments FlowRegistry W : clear implicits.
Arguments ArchitectAgent W : clear implicits.

(** ** Properties *)

Section Props.
Context {W : Type} (lower : string -> string) (render : GoVal -> string) (is_invalid_output : error -> bool)
  (ctx_done : Z -> option error).

(** ** Flows without a brain *)

Lemma act_undecided (P : Ports W) n f w :
  fr_Decision f = None -> act_attempts P render ctx_done (S n) 0 None f w = Some (with_Phase PhaseAct (with_RetryCount 0 f), w, None).
Proof. intros Hd. cbn [act_attempts]. cbn. unfold Act. cbn. rewrite Hd. done. Qed.

(** The executor's flows do nothing and report success: it configures no
    brain, so no decision is made and no action runs; every non-empty input
    passes with an empty output, whatever the retries, stores and middleware. *)
Theorem executor_passes_everything {M : Type} (e : OODAExecutor W M) id input (w : W) :
  fi_Input input <> "" -> exists w' out, OODAExecutor_Execute lower render is_invalid_output ctx_done e id input w = Some (w', out) /\
    fo_Status out = VerifyStatusPassed /\ fo_Output out = "" /\ fo_Error out = "" /\ fo_AuditTrail out = "".
Proof.
  intros Hi. unfold OODAExecutor_Execute, flow_Run, OODAFlow_Run. set (c := fl_config _). set (P := fl_ports _).
  set (f0 := flow_frame c id input). assert (fr_Decision f0 = None /\ frame_trail f0 = None /\ flow_output f0 = "" /\ fc_Input (fr_cfg f0) = fi_Input input)
    as (Hd & Ht & Ho & Hin) by by split_and!.
  assert (exists w1 f1, RunOODA P lower render is_invalid_output ctx_done f0 w = Some (with_Status VerifyStatusPassed f1, w1, None) /\
    frame_trail f1 = None /\ flow_output f1 = "") as (w1 & f1 & -> & Ht1 & Ho1).
  { unfold RunOODA, then_, observeWithValidation. cbn [fr_cfg with_Phase]. rewrite Hin.
    destruct (String.eqb_spec (fi_Input input) "") as [|_]; [done|]. cbn [mbind option_bind].
    set (f1 := record PhaseObserve _). assert (fr_Decision f1 = None /\ frame_trail f1 = None /\ flow_output f1 = "") as (Hd1 & Ht1 & Ho1) by by split_and!.
    assert (exists f2 w2, orientForTool P f1 w = Some (f2, w2, None) /\ fr_Decision f2 = None /\ frame_trail f2 = None /\ flow_output f2 = "")
      as (f2 & w2 & -> & Hd2 & Ht2 & Ho2).
    { unfold orientForTool, and_then. subst P. cbn [fl_ports executor_flow po_Memory optionally mbind option_bind po_KnowledgeStore].
      destruct (ox_KnowledgeStore e) as [ks|]; cbn [optionally mbind option_bind]; [|eexists _, _; by split_and!].
      unfold recall_quietly. destruct (ks_Recall _ _ _ _ _) as [w2 [atoms|x]]; cbn [mbind option_bind]; eexists _, _; by split_and!. }
    cbn [mbind option_bind]. unfold decide_phase. subst P. cbn [fl_ports executor_flow po_Brain mbind option_bind].
    unfold actWithSimpleRetry, effective_retries. cbn [fr_cfg with_Phase].
    match goal with |- context [Z.to_nat (?r + 1)] => assert (exists n, Z.to_nat (r + 1) = S n) as [n ->] end.
    { exists (Z.to_nat (if (fc_MaxRetries (fr_cfg f2) <=? 0)%Z then 3 else fc_MaxRetries (fr_cfg f2))).
      destruct (Z.leb_spec (fc_MaxRetries (fr_cfg f2)) 0); [done|]. lia. }
    rewrite act_undecided by done. cbn [mbind option_bind]. unfold VerifySchema. cbn [fr_Decision with_Phase with_RetryCount]. rewrite Hd2.
    cbn [mbind option_bind]. unfold commit, optionally. cbn [po_Memory mbind option_bind]. eexists _, _. split; [reflexivity|]. by split. }
  cbn [mbind option_bind]. eexists _, _. split; [reflexivity|]. cbn [fo_Status fo_Output fo_Error fo_AuditTrail].
  split_and!; [done|exact Ho1|done|]. change (frame_trail (with_Status VerifyStatusPassed f1)) with (frame_trail f1). by rewrite Ht1.
Qed.

(** The middleware of an executor is never used. *)
Theorem executor_ignores_middleware {M : Type} (mw : list M) (e : OODAExecutor W M) id input (w : W) :
  OODAExecutor_Execute lower render is_invalid_output ctx_done (executor_WithMiddleware mw e) id input w =
  OODAExecutor_Execute lower render is_invalid_output ctx_done e id input w.
Proof. done. Qed.

(** ** The registry *)

(** A streaming flow sends its output in one chunk, and nothing after a
    failure. *)
Theorem streaming_flow_chunks (fl : Flow W) id input (w w' : W) chunks out :
  streaming_flow lower render is_invalid_output ctx_done fl id input w = Some (w', chunks, out) ->
  join "" chunks = fo_Output out /\ (fo_Error out <> "" -> chunks = []).
Proof.
  unfold streaming_flow. destruct (flow_Run _ _ _ _ fl id input w) as [[w1 result]|] eqn:Hr; [|done]. intros [= <- <- <-].
  split; [destruct (String.eqb_spec (fo_Output result) "") as [->|_]; [done|cbn; by rewrite ?str_app_nil_r]|].
  intros He. unfold flow_Run, OODAFlow_Run in Hr. destruct (RunOODA _ _ _ _ _ _ _) as [[[f1 w2] [e|]]|]; [| |done]; cbn in Hr; injection Hr as <- <-; done.
Qed.

(** The last registration of a name wins; a flow registered with either
    method runs, an unknown one is an error. *)
Theorem registered_flow_runs name name' fl id input (r : FlowRegistry W) (w : W) :
  registry_Run lower render is_invalid_output ctx_done name id input (registry_Register name' fl r) w =
  if String.eqb name name' then (fun x => (fst x, Ok (snd x))) <$> flow_Run lower render is_invalid_output ctx_done fl id input w
  else registry_Run lower render is_invalid_output ctx_done name id input r w.
Proof.
  unfold registry_Run, flow_Get. cbn [rg_flows registry_Register]. destruct (String.eqb_spec name name') as [->|Hne].
  - rewrite lookup_insert_eq. by destruct (flow_Run _ _ _ _ fl id input w) as [[w1 out]|].
  - by rewrite lookup_insert_ne by done.
Qed.

(** ** The architect *)

Definition tool_names : list string :=
  ["read_codebase"; "analyze_architecture"; "generate_csd"; "verify_against_axioms"; "finalize_csd"; "receive_input"].

(** The registration of the tools does not panic, and every tool answers
    without an error and without touching the world: what they report is not
    the result of any work. *)
Theorem architect_tools_inert :
  exists r, RegisterArchitectTools (W := W) ∅ = Some r /\ (forall name, is_Some (r !! name) <-> name ∈ tool_names) /\
    forall name fn, r !! name = Some fn -> exists text, fn = Some (fun args w => (w, (text args, None))).
Proof.
  unfold RegisterArchitectTools, architect_tools. cbn [register_all]. unfold MustRegister, Registry_Register.
  repeat (first [rewrite lookup_empty | rewrite lookup_insert_ne by done]; cbn [mbind option_bind register_all]).
  eexists. split; [reflexivity|]. split.
  - intros name. unfold tool_names. split.
    + intros [fn H]. repeat (apply (lookup_insert_Some (M := gmap string)) in H as [[<- _]|[_ H]]; [set_solver|]). discriminate H.
    + rewrite !elem_of_cons, elem_of_nil. intros H. repeat (destruct H as [->|H]; [eexists; reflexivity|]). done.
  - intros name fn H. repeat (apply (lookup_insert_Some (M := gmap string)) in H as [[_ <-]|[_ H]]; [unfold answers_with, verify_against_axioms; by eexists|]).
    discriminate H.
Qed.

Lemma cycle_without_brain (P : Ports W) f w :
  po_Brain P = None -> po_KnowledgeStore P = None -> po_TransientStore P = None -> po_Memory P = None ->
  fr_Decision f = None -> (0 <= fc_MaxRetries (fr_cfg f))%Z ->
  exists f', Run P lower render ctx_done f w = Some (f', w, None) /\ fr_cfg f' = fr_cfg f /\ fr_Decision f' = None /\
    fr_ActionResult f' = fr_ActionResult f /\ frame_trail f' = frame_trail f /\
    fr_Context f' = (fr_Context f ++ if String.eqb (fc_Input (fr_cfg f)) "" then [] else [raw_input f f_1])%list.
Proof.
  intros Hb Hk Ht Hm Hd Hr. unfold Run, then_, observe. cbn [mbind option_bind fr_cfg with_Phase].
  set (f1 := record PhaseObserve _).
  assert (fr_Decision f1 = None /\ fr_cfg f1 = fr_cfg f /\ fr_ActionResult f1 = fr_ActionResult f /\ frame_trail f1 = frame_trail f /\
    fr_Context f1 = (fr_Context f ++ if String.eqb (fc_Input (fr_cfg f)) "" then [] else [raw_input f f_1])%list) as (H1 & H2 & H3 & H4 & H5).
  { subst f1. destruct (String.eqb (fc_Input (fr_cfg f)) ""); split_and!; try done. cbn. by rewrite app_nil_r. }
  unfold Orient, and_then. rewrite Hk, Ht, Hm. cbn [optionally mbind option_bind]. unfold decide_phase. rewrite Hb. cbn [mbind option_bind].
  unfold actWithRetry. match goal with |- context [Z.to_nat ?r] => assert (exists n, Z.to_nat r = S n) as [n ->] end.
  { exists (Z.to_nat (fc_MaxRetries (fr_cfg f))). cbn [fr_cfg with_Phase record]. change (fr_cfg (record ?p ?g)) with (fr_cfg g).
    cbn [fr_cfg with_Phase]. rewrite H2. lia. }
  rewrite act_undecided by done. cbn [mbind option_bind]. unfold verify. rewrite Hb. cbn [mbind option_bind]. unfold store_verdict. rewrite Ht.
  unfold commit. rewrite Hm. cbn [optionally mbind option_bind]. eexists. split; [reflexivity|]. by split_and!.
Qed.

(** The architect never acts: however many cycles run, no tool is called and
    the world stays as it is, every cycle succeeds, and what changes is only
    the attention context of the agent's single frame, which keeps the inputs
    of all earlier cycles. *)
Theorem architect_never_acts id now workflowID (a : ArchitectAgent W) inputs (w : W) :
  NewArchitectAgent id now workflowID = Some a ->
  exists a', architect_cycles lower render ctx_done inputs a w = Some (w, a', None) /\
    fr_ActionResult (aa_frame a') = GNil /\ GetAuditTrail a' = "No audit trail available" /\
    map oa_Object (fr_Context (aa_frame a')) = List.filter (fun i => negb (String.eqb i "")) inputs.
Proof.
  intros Ha. assert (po_Brain (aa_ports a) = None /\ po_KnowledgeStore (aa_ports a) = None /\ po_TransientStore (aa_ports a) = None /\
    po_Memory (aa_ports a) = None /\ fr_Decision (aa_frame a) = None /\ fc_MaxRetries (fr_cfg (aa_frame a)) = 3%Z /\
    fr_ActionResult (aa_frame a) = GNil /\ frame_trail (aa_frame a) = None /\ fr_Context (aa_frame a) = []) as H.
  { revert Ha. unfold NewArchitectAgent. destruct (RegisterArchitectTools ∅) as [r|]; [|done]. intros [= <-]. by split_and!. }
  destruct H as (Hb & Hk & Ht & Hm & Hd & Hr & Hres & Htr & Hc). clear Ha.
  assert (exists a', architect_cycles lower render ctx_done inputs a w = Some (w, a', None) /\
    fr_ActionResult (aa_frame a') = GNil /\ frame_trail (aa_frame a') = None /\
    map oa_Object (fr_Context (aa_frame a')) = (map oa_Object (fr_Context (aa_frame a)) ++ List.filter (fun i => negb (String.eqb i "")) inputs)%list)
    as (a' & H1 & H2 & H3 & H4).
  { clear Hc. revert a Hb Hk Ht Hm Hd Hr Hres Htr. induction inputs as [|i inputs IH]; intros a Hb Hk Ht Hm Hd Hr Hres Htr; cbn [architect_cycles].
    { exists a. by rewrite app_nil_r. }
    unfold architect_RunOODA.
    destruct (cycle_without_brain (aa_ports a) (with_Input i (aa_frame a)) w Hb Hk Ht Hm Hd) as (f' & Hf & C1 & C2 & C3 & C4 & C5).
    { change (0 <= fc_MaxRetries (fr_cfg (aa_frame a)))%Z. by rewrite Hr. }
    rewrite Hf. cbn [mbind option_bind].
    destruct (IH (with_frame f' a) Hb Hk Ht Hm) as (a' & H1 & H2 & H3 & H4); cbn [aa_frame with_frame]; [done|by rewrite C1|by rewrite C3|by rewrite C4|].
    exists a'. split_and!; [done..|]. rewrite H4. cbn [aa_frame with_frame]. rewrite C5. cbn [fc_Input fr_cfg with_Input].
    change (fr_Context (with_Input i (aa_frame a))) with (fr_Context (aa_frame a)). cbn [List.filter].
    destruct (String.eqb_spec i "") as [->|Hi]; cbn [negb].
    - by rewrite app_nil_r.
    - rewrite map_app, <- app_assoc. done. }
  exists a'. split_and!; [done|done| |by rewrite H4, Hc]. unfold GetAuditTrail, GetAuditSummary. by rewrite H3.
Qed.
End Props.

(** ** Witnesses *)

Definition asked : OODAFlowInput := {| fi_Input := "delete everything"; fi_Intent := ""; fi_TaskType := "" |}.
Definition bare_executor : OODAExecutor nat unit :=
  {| ox_MaxRetries := 5; ox_Middleware := []; ox_KnowledgeStore := None; ox_TransientStore := None |}.

Lemma executor_passes_everything_witness :
  exists w' out, OODAExecutor_Execute (fun s => s) (fun _ => "") (fun _ => false) (fun _ => None) bare_executor "id" asked 0 = Some (w', out) /\
    fo_Status out = VerifyStatusPassed /\ fo_Output out = "".
Proof.
  destruct (executor_passes_everything (fun s => s) (fun _ => "") (fun _ => false) (fun _ => None) bare_executor "id" asked 0)
    as (w' & out & H & Hs & Ho & _); [done|]. by exists w', out.
Defined.

(** A flow whose input is empty fails, and sends nothing. *)
Lemma streaming_flow_chunks_witness :
  exists chunks out, streaming_flow (W := nat) (fun s => s) (fun _ => "") (fun _ => false) (fun _ => None) (executor_flow bare_executor) "id"
      {| fi_Input := ""; fi_Intent := ""; fi_TaskType := "" |} 0 = Some (0, chunks, out) /\ chunks = [].
Proof.
  eexists _, _. split; [reflexivity|].
  eapply (streaming_flow_chunks (fun s => s) (fun _ => "") (fun _ => false) (fun _ => None) (executor_flow bare_executor) "id"
    {| fi_Input := ""; fi_Intent := ""; fi_TaskType := "" |} 0); [reflexivity|done].
Defined.

Lemma architect_never_acts_witness :
  exists a a', NewArchitectAgent (W := nat) "id" "17" "w" = Some a /\
    architect_cycles (fun s => s) (fun _ => "") (fun _ => None) ["read_codebase"; ""; "finalize_csd"] a 7 = Some (7, a', None) /\
    map oa_Object (fr_Context (aa_frame a')) = ["read_codebase"; "finalize_csd"].
Proof.
  destruct (NewArchitectAgent (W := nat) "id" "17" "w") as [a|] eqn:Ha; [|discriminate Ha].
  destruct (architect_never_acts (fun s => s) (fun _ => "") (fun _ => None) "id" "17" "w" a ["read_codebase"; ""; "finalize_csd"] 7 Ha)
    as (a' & H1 & _ & _ & H2). exists a, a'. by split_and!.
Defined.
