(* ===== verification/SessionPorts.v ===== *)
(** * Sessions over any store, and the architect's run

    [multiagent/hydrated_executor.go] sees its sessions through
    [ports.SessionStateStore] (the class [SessionStateStore]).  This file
    shows that the executor cannot tell two stores apart, gives the second
    instance of the class, the adapter of [x/agents/architect.go] over a
    transient store, and models [ArchitectAgent.Run], which loads a workflow
    and runs it on that adapter with [DefaultNodeExecutor]. *)
From S2P Require Import Prelude GoStrings CoreErrors CoreTypes Facts Ooda Builder Workflow WorkflowDef WorkflowDefProps Hydrated HydratedProps AgentSystem AgentSystemProps Architect Flows.
From Stdlib Require Import Ascii String.
Open Scope string_scope.

(** ** The adapter as a session store *)

(** An instance is decoded into a fresh object. *)
Definition adapter_sessions {T : Type} `{!TransientPort T} (marshal : WorkflowInstance -> res error string)
    (unmarshal : string -> res error WorkflowInstance) : SessionStateStore T := {|
  ss_Get key h t :=
    match adapter_Get unmarshal key t with
    | Ok wi => let p := fresh (dom h) in (<[p := wi]> h, Ok p)
    | Err e => (h, Err e)
    end;
  ss_Create p h t := adapter_Create marshal (h !! p) t;
  ss_Update p h t := adapter_Update marshal (h !! p) t
|}.

(** ** The default executor *)

Definition placeholder (nodeID agent : string) : string :=
  "output from node " +:+ nodeID +:+ " executed by agent " +:+ agent.

(** [tick] is the time a call takes; nothing else changes. *)
Definition DefaultNodeExecutor_Execute {W : Type} (tick : W -> W) (n : WorkflowNode) (input : WValue) (agent : string) (w : W)
  : W * res error WValue :=
  (tick w, Ok (WStr (placeholder (n_ID n) agent))).

Section Run.
Context `{GoRange} {Sy : Type} `{!AgentEngine Sy} {W : Type}.
Context (marshal : WorkflowInstance -> res error string) (unmarshal : string -> res error WorkflowInstance).
Context (render : list string -> string) (now : string).
(** The context of a call, and the passing of time. *)
Context (ctx : W -> option error) (wait : Z -> W -> W * option error) (tick : W -> W).

(** [NewHydratedWorkflowExecutor] with nothing but a session store: the agents
    and queries of [WfEnv] are those of the other executor. *)
Definition default_env : WfEnv W :=
  {| env_agent := fun _ w => (w, None); env_exec := DefaultNodeExecutor_Execute tick; env_query := fun _ _ w => (w, Err (EText ""));
     env_ctx := ctx; env_wait := wait |}.
Definition bare_hyd : HydEnv W := {| he_agentFinder := None; he_conditionEval := None |}.
Definition default_maxRetries : Z := 3.

Definition with_transient {V : Type} (t : TransientStoreAdapter) (a : ArchitectAgent V) : ArchitectAgent V :=
  {| aa_frame := aa_frame a; aa_ports := aa_ports a; aa_workflowID := aa_workflowID a; aa_sessionID := aa_sessionID a;
     aa_transientStore := t; aa_registry := aa_registry a |}.

(** The execution of a loaded definition. *)
Definition architect_session {V : Type} (a : ArchitectAgent V) (wd : WorkflowDef) (input : WValue) (w : W)
  : option (W * SState TransientStoreAdapter * SResult) :=
  let _ := transient_port now in
  let _ := adapter_sessions marshal unmarshal in
  ExecuteWithSession default_env bare_hyd render default_maxRetries true (aa_sessionID a) (Some wd) input
    {| sx_heap := ∅; sx_store := aa_transientStore a |} w.

(** [Run]; [None] is the panic of a result without an instance, whose
    completed nodes are logged. *)
Definition architect_Run {V : Type} (a : ArchitectAgent V) (input : WValue) (eng : AgentSystem Sy) (w : W)
  : option (AgentSystem Sy * ArchitectAgent V * W * res error WorkflowResult) :=
  let '(eng1, loaded) := LoadWorkflow (aa_workflowID a) eng in
  match loaded with
  | Err e => Some (eng1, a, w, Err (EWrap "failed to load workflow: " e))
  | Ok wd =>
      '(w1, s1, out) ← architect_session a wd input w;
      let a1 := with_transient (sx_store s1) a in
      match out with
      | (_, _, Some e) => Some (eng1, a1, w1, Err (EWrap "workflow execution failed: " e))
      | (Some r, Some _, None) => Some (eng1, a1, w1, Ok r)
      | _ => None
      end
  end.
End Run.

(** ** What an execution sees of an instance *)

(** Instances with the same progress: the statuses, the failures and the
    identity of an instance are written, never read. *)
Definition alike (x y : WorkflowInstance) : Prop :=
  wi_CurrentNodeID x = wi_CurrentNodeID y /\ wi_Variables x = wi_Variables y /\ wi_CompletedNodes x = wi_CompletedNodes y.

#[global] Instance alike_equivalence : Equivalence alike.
Proof.
  split; unfold alike.
  - done.
  - intros x y (? & ? & ?). by split_and!.
  - intros x y z (? & ? & ?) (? & ? & ?). split_and!; congruence.
Qed.

#[global] Instance alike_current : Proper (alike ==> eq) wi_CurrentNodeID.
Proof. by intros x y (? & _). Qed.
#[global] Instance alike_completed_with : Proper (alike ==> eq ==> eq) completed_with.
Proof. intros x y (_ & _ & Hc) i _ <-. unfold completed_with, IsNodeCompleted. by rewrite Hc. Qed.
#[global] Instance alike_set_status st : Proper (alike ==> alike) (set_status st).
Proof. by intros x y Hxy. Qed.
#[global] Instance alike_SetVariable k v : Proper (alike ==> alike) (SetVariable k v).
Proof. intros x y (? & Hv & ?). unfold alike. cbn. by rewrite Hv. Qed.
#[global] Instance alike_MarkNodeFailed id : Proper (alike ==> alike) (MarkNodeFailed id).
Proof. by intros x y Hxy. Qed.
#[global] Instance alike_MarkNodeCompleted id : Proper (alike ==> alike) (MarkNodeCompleted id).
Proof. intros x y Hxy. pose proof Hxy as (? & ? & ?). split_and!; [done|done|]. cbn. by rewrite Hxy. Qed.
#[global] Instance alike_SetCurrentNode id : Proper (alike ==> alike) (SetCurrentNode id).
Proof.
  intros x y Hxy. pose proof Hxy as (Hc & ? & Hd). split_and!; [done|done|]. cbn [SetCurrentNode wi_progress wi_CompletedNodes].
  rewrite <- Hc, <- Hd. by rewrite (alike_completed_with x y Hxy _ _ eq_refl).
Qed.

(** ** Executions over two stores *)

Section Independent.
Context `{GoRange} {W : Type} (E : WfEnv W) (HE : HydEnv W) (render : list string -> string) (maxRetries : Z) (wd : WorkflowDef).
Context {A B : Type} `{!SessionStateStore A} `{!SessionStateStore B} (p q : nat).

(** The executor's instances in the two states have the same progress. *)
Definition same_view (s : SState A) (t : SState B) : Prop :=
  exists x y, sx_heap s !! p = Some x /\ sx_heap t !! q = Some y /\ alike x y.

Lemma view_update s t : same_view s t -> same_view (update p s) (update q t).
Proof. done. Qed.

Lemma view_on_inst k s t : Proper (alike ==> alike) k -> same_view s t -> same_view (on_inst p k s) (on_inst q k t).
Proof. intros Hk (x & y & Hx & Hy & Hxy). exists (k x), (k y). rewrite !heap_on_inst, Hx, Hy. split_and!; [done|done|by apply Hk]. Qed.

Lemma view_stop st s t : same_view s t -> same_view (session_stop p st s) (session_stop q st t).
Proof. intros Hv. by apply view_update, view_on_inst; [apply _|]. Qed.
#[local] Hint Resolve view_update view_on_inst view_stop : core.
#[local] Hint Extern 1 (Proper _ _) => apply _ : core.

(** Two rounds with the same effects, ending in related states. *)
Inductive same_round : @Round W A -> @Round W B -> Prop :=
| same_stop w s t r : same_view s t -> same_round (RStop w s r) (RStop w t r)
| same_next w s t l : same_view s t -> same_round (RNext w s l) (RNext w t l).

Lemma same_close l s t w :
  same_view s t ->
  same_round (let '(s', r) := session_close wd p l s in RStop w s' r) (let '(t', r) := session_close wd q l t in RStop w t' r).
Proof. intros Hv. constructor. by apply view_update, view_on_inst; [apply _|]. Qed.

Lemma round_same x y l s t w :
  alike x y -> same_view s t ->
  same_round (session_round E HE render maxRetries wd p x l s w) (session_round E HE render maxRetries wd q y l t w).
Proof.
  intros Hxy Hv. unfold session_round. rewrite <- (alike_current x y Hxy).
  destruct (env_ctx E w); [constructor; auto|].
  destruct (if String.eqb _ _ then None else _) as [n|]; [|by apply same_close].
  destruct (maxRetries <? _)%Z; [constructor; auto|].
  destruct (hyd_executeNode _ _ _ _ n _ w) as [w1 nr].
  set (i := lp_input _). set (k := SetVariable "current_input" i).
  assert (same_view (update p (on_inst p k s)) (update q (on_inst q k t))) as Hv1 by auto.
  destruct (nr_Error nr) as [e|].
  - destruct (hyd_findErrorEdge wd (nd_ID n)); constructor; auto.
  - set (c := fun wi => MarkNodeCompleted _ _). assert (Proper (alike ==> alike) c) as Hc by (intros a b Hab; unfold c; by rewrite Hab).
    destruct (hyd_findNextNode _ _ _ _ _ w1) as [w2 [[next|]|e]]; [constructor; auto|apply same_close; auto|constructor; auto].
Qed.

Lemma nodes_same fuel l s t w w' s' r :
  same_view s t -> session_nodes E HE render maxRetries fuel wd p l s w = Some (w', s', r) ->
  exists t', session_nodes E HE render maxRetries fuel wd q l t w = Some (w', t', r) /\ same_view s' t'.
Proof.
  revert l s t w. induction fuel as [|fuel IH]; intros l s t w Hv; cbn [session_nodes]; [done|].
  pose proof Hv as (x & y & Hx & Hy & Hxy). rewrite Hx, Hy. cbn [mbind option_bind].
  destruct (round_same x y l s t w Hxy Hv); [|by eauto]. intros [= <- <- <-]. by eexists.
Qed.

Lemma resumed_same input x y : alike x y -> resumed_loop input x = resumed_loop input y.
Proof. intros (_ & Hv & Hc). unfold resumed_loop. by rewrite Hv, Hc. Qed.

Lemma run_same x y input s t w w' s' r pr e :
  alike x y -> same_view s t ->
  session_run E HE render maxRetries wd p x input s w = Some (w', s', (r, pr, e)) ->
  exists t', session_run E HE render maxRetries wd q y input t w = Some (w', t', (r, Some q, e)) /\ same_view s' t'.
Proof.
  intros Hxy Hv. unfold session_run. rewrite <- (alike_current x y Hxy).
  assert (forall l s t, same_view s t ->
            (fun '(w', s', r) => (w', s', (Some r, Some p, @None error))) <$> session_nodes E HE render maxRetries (session_fuel maxRetries wd) wd p l s w
              = Some (w', s', (r, pr, e)) ->
            exists t', (fun '(w', s', r) => (w', s', (Some r, Some q, @None error))) <$> session_nodes E HE render maxRetries (session_fuel maxRetries wd) wd q l t w
              = Some (w', t', (r, Some q, e)) /\ same_view s' t') as Hn.
  { intros l s0 t0 Hv0. destruct (session_nodes _ _ _ _ _ wd p l s0 w) as [[[w1 s1] r1]|] eqn:Hs; [|done].
    intros [= -> -> <- _ <-]. destruct (nodes_same _ _ _ _ _ _ _ _ Hv0 Hs) as (t' & -> & Hv'). by exists t'. }
  destruct (String.eqb _ _).
  - destruct (FindStartNode wd) as [n|].
    + rewrite (resumed_same input _ _ (alike_SetCurrentNode (nd_ID n) x y Hxy)). by apply Hn; auto.
    + rewrite (resumed_same input x y Hxy). intros [= <- <- <- _ <-]. by exists t.
  - assert (GetVariable "current_input" x = GetVariable "current_input" y) as -> by (destruct Hxy as (_ & Hvs & _); unfold GetVariable; by rewrite Hvs).
    rewrite (resumed_same _ x y Hxy). by apply Hn.
Qed.

Lemma execute_same sid input s t s1 t1 w w' s' r e :
  sid <> "" -> open_session sid wd s = (s1, Ok p) -> open_session sid wd t = (t1, Ok q) -> same_view s1 t1 ->
  ExecuteWithSession E HE render maxRetries true sid (Some wd) input s w = Some (w', s', (r, Some p, e)) ->
  exists t', ExecuteWithSession E HE render maxRetries true sid (Some wd) input t w = Some (w', t', (r, Some q, e)) /\ same_view s' t'.
Proof.
  intros Hsid Hs Ht Hv. unfold ExecuteWithSession. cbn [negb orb]. rewrite (proj2 (String.eqb_neq _ _) Hsid), Hs, Ht.
  pose proof Hv as (x & y & Hx & Hy & Hxy). rewrite Hx, Hy. cbn [mbind option_bind]. by apply run_same.
Qed.
End Independent.

(** The store of sessions is not observable: two stores, of any kind and
    in any state, that open a session on instances with the same current
    node, variables and completed nodes give the same execution, the same
    calls on the world, the same result and the same error, whatever their
    updates answer; and the two instances have the same progress afterwards. *)
Theorem session_store_independent `{GoRange} {W A B : Type} (E : WfEnv W) (HE : HydEnv W) (render : list string -> string)
    (maxRetries : Z) (wd : WorkflowDef) (SA : SessionStateStore A) (SB : SessionStateStore B) (sid : string) (input : WValue)
    (p q : nat) (s s1 s' : SState A) (t t1 : SState B) (w w' : W) (r : option WorkflowResult) (e : option error) :
  sid <> "" -> open_session sid wd s = (s1, Ok p) -> open_session sid wd t = (t1, Ok q) -> same_view p q s1 t1 ->
  ExecuteWithSession E HE render maxRetries true sid (Some wd) input s w = Some (w', s', (r, Some p, e)) ->
  exists t', ExecuteWithSession E HE render maxRetries true sid (Some wd) input t w = Some (w', t', (r, Some q, e)) /\
    same_view p q s' t'.
Proof. intros Hsid Hs Ht Hv Hx. by eapply execute_same. Qed.

(** ** What the default executor produces *)

Definition pretended (nr : NodeResult) : Prop :=
  nr_AgentID nr = "" /\ nr_Error nr = None /\ nr_Output nr = WStr (placeholder (nr_NodeID nr) "").

Section Pretend.
Context `{GoRange} {W : Type} (render : list string -> string).
Context (ctx : W -> option error) (wait : Z -> W -> W * option error) (tick : W -> W).
Notation E := (default_env ctx wait tick).

Lemma executeNode_pretends n input w :
  exists nr, hyd_executeNode E bare_hyd render default_maxRetries n input w = (tick w, nr) /\ pretended nr.
Proof. eexists. split; [reflexivity|]. by split_and!. Qed.

Definition pretence (l : Loop) : Prop := map_Forall (fun _ => pretended) (lp_results l) /\ lp_lastError l = None.

Definition only_excuse (r : WorkflowResult) : Prop :=
  map_Forall (fun _ => pretended) (wr_NodeResults r) /\
  match wr_Error r with
  | None => wr_Status r = WorkflowStatusCompleted
  | Some x => (exists w, ctx w = Some x) \/ (exists id, x = too_many id)
  end.

Lemma finish_pretends wd l : pretence l -> only_excuse (hyd_finish wd l).
Proof. intros [Hr He]. unfold hyd_finish. by rewrite He. Qed.

Context {A : Type} `{!SessionStateStore A} (wd : WorkflowDef) (p : nat).

Lemma round_pretends wi l (s : SState A) w :
  pretence l ->
  match session_round E bare_hyd render default_maxRetries wd p wi l s w with
  | RStop _ _ r => only_excuse r
  | RNext _ _ l' => pretence l'
  end.
Proof.
  intros Hl. pose proof Hl as [Hr He]. unfold session_round. destruct (env_ctx E w) as [c|] eqn:Hc.
  { split; [done|]. left. by exists w. }
  destruct (if String.eqb _ _ then None else _) as [n|]; [|by apply finish_pretends].
  destruct (default_maxRetries <? _)%Z; [split; [done|]; right; by eexists|].
  destruct (executeNode_pretends n (lp_input (visit (wi_CurrentNodeID wi) l)) w) as (nr & -> & Hn). pose proof Hn as (_ & -> & _).
  assert (pretence (done_node (nd_ID n) nr (visit (wi_CurrentNodeID wi) l))) as Hd.
  { split; [|done]. by apply map_Forall_insert_2. }
  unfold hyd_findNextNode. generalize (GetOutgoingEdges wd (nd_ID n)) as edges. induction edges as [|e edges IH]; cbn [hyd_next_edge].
  { by apply finish_pretends. }
  destruct (String.eqb _ ""); [|exact IH]. destruct (GetNode wd (ed_To e)); [done|by apply finish_pretends].
Qed.

Lemma nodes_pretend fuel l (s : SState A) w w' s' r :
  pretence l -> session_nodes E bare_hyd render default_maxRetries fuel wd p l s w = Some (w', s', r) -> only_excuse r.
Proof.
  revert l s w. induction fuel as [|fuel IH]; intros l s w Hl; cbn [session_nodes]; [done|].
  destruct (sx_heap s !! p) as [wi|]; [|done]. cbn [mbind option_bind]. pose proof (round_pretends wi l s w Hl) as Hr.
  destruct (session_round _ _ _ _ wd p wi l s w); [by intros [= <- <- <-]|by apply IH].
Qed.

Lemma run_pretends wi input (s : SState A) w w' s' r q :
  session_run E bare_hyd render default_maxRetries wd p wi input s w = Some (w', s', (r, q, None)) ->
  exists r', r = Some r' /\ q = Some p /\ only_excuse r'.
Proof.
  unfold session_run.
  assert (forall i x s0, (fun '(w', s', r) => (w', s', (Some r, Some p, @None error))) <$>
            session_nodes E bare_hyd render default_maxRetries (session_fuel default_maxRetries wd) wd p (resumed_loop i x) s0 w
              = Some (w', s', (r, q, None)) -> exists r', r = Some r' /\ q = Some p /\ only_excuse r') as Hn.
  { intros i x s0. destruct (session_nodes _ _ _ _ _ wd p _ s0 w) as [[[w1 s1] r1]|] eqn:Hs; [|done]. intros [= _ _ <- <-].
    eexists. split_and!; [done|done|]. eapply nodes_pretend; [|exact Hs]. by split. }
  destruct (String.eqb _ _); [destruct (FindStartNode wd)|]; [by apply Hn|done|by apply Hn].
Qed.
End Pretend.

(** ** The architect's run *)

Section Architect.
Context `{GoRange} {Sy : Type} `{!AgentEngine Sy} {W V : Type}.
Context (marshal : WorkflowInstance -> res error string) (unmarshal : string -> res error WorkflowInstance).
Context (render : list string -> string) (now : string).
Context (ctx : W -> option error) (wait : Z -> W -> W * option error) (tick : W -> W).
#[local] Instance architect_port : TransientPort TransientStoreAdapter := transient_port now.
#[local] Instance architect_sessions : SessionStateStore TransientStoreAdapter := adapter_sessions marshal unmarshal.
Notation run := (architect_Run marshal unmarshal render now ctx wait tick).
Notation E := (default_env ctx wait tick).

(** The adapter hands out the object it decoded. *)
Lemma adapter_hands_out wd sid s : hands_out wd sid s.
Proof.
  intros h p. cbn [ss_Get architect_sessions adapter_sessions]. destruct (adapter_Get _ _ _); [|done]. intros [= <- <-].
  rewrite lookup_insert_eq. by eexists.
Qed.

Lemma session_instance sid wd input s w w' s' r pr e :
  sid <> "" -> ExecuteWithSession E bare_hyd render default_maxRetries true sid (Some wd) input s w = Some (w', s', (r, pr, e)) ->
  match e with Some _ => True | None => exists r' p, r = Some r' /\ pr = Some p /\ only_excuse ctx r' end.
Proof.
  intros Hsid. unfold ExecuteWithSession. cbn [negb orb]. rewrite (proj2 (String.eqb_neq _ _) Hsid).
  destruct (open_session sid wd s) as [s1 [p|x]]; [|by intros [= _ _ _ _ <-]].
  destruct (sx_heap s1 !! p) as [wi|]; [|done]. cbn [mbind option_bind]. destruct e; [done|]. intros Hr.
  apply run_pretends in Hr as (r' & -> & -> & Hr'). by exists r', p.
Qed.

(** The architect's run returns, and does no work: whatever the workflow,
    the session's stored state and the JSON of instances, [Run] of an agent
    with a session id returns without panicking; and when it returns a result,
    every node in it was run by no agent, succeeded, and produced the text of
    the placeholder executor; the result is completed unless the context ended
    or a node was visited too often. *)
Theorem architect_run_pretends (a : ArchitectAgent V) (input : WValue) (eng : AgentSystem Sy) (w : W) :
  aa_sessionID a <> "" ->
  exists eng' a' w' out, run a input eng w = Some (eng', a', w', out) /\
    forall r, out = Ok r -> only_excuse ctx r.
Proof.
  intros Hsid. unfold architect_Run. destruct (LoadWorkflow (aa_workflowID a) eng) as [eng1 [wd|x]].
  2: { eexists _, _, _, _. by split. }
  destruct (execute_with_session_total E bare_hyd render default_maxRetries true (Some wd) (aa_sessionID a) input
    {| sx_heap := ∅; sx_store := aa_transientStore a |} w) as [[[w' s'] [[r pr] e]] Hx].
  { intros d _. apply adapter_hands_out. }
  { apply hyd_Execute_total. }
  change (architect_session marshal unmarshal render now ctx wait tick a wd input w = Some (w', s', (r, pr, e))) in Hx.
  rewrite Hx. cbn [mbind option_bind].
  pose proof (session_instance _ _ _ _ _ _ _ _ _ _ Hsid Hx) as Hi. destruct e as [x|].
  - eexists _, _, _, _. by split; [destruct r; [destruct pr|]|].
  - destruct Hi as (r' & p & -> & -> & Hr). eexists _, _, _, _. split; [done|]. by intros r0 [= <-].
Qed.

Lemma loaded_keyed name eng eng1 wd : LoadWorkflow name eng = (eng1, Ok wd) -> keyed wd.
Proof.
  unfold LoadWorkflow. destruct (GetWorkflow name eng) as [s1 [wf|e]]; intros [= _ <-]. intros id n. by apply inserts_keyed.
Qed.

(** The first run is a plain run: when an agent whose transient store is
    still empty runs a loaded workflow that has nodes and whose edges join
    them, the session machinery changes nothing: [Run] returns what
    [Execute] of the same executor returns. *)
Theorem architect_first_run (a : ArchitectAgent V) (input : WValue) (eng eng1 : AgentSystem Sy) (wd : WorkflowDef) (w : W) :
  aa_sessionID a <> "" -> aa_transientStore a = NewTransientStore ->
  LoadWorkflow (aa_workflowID a) eng = (eng1, Ok wd) ->
  wd_Nodes wd <> ∅ -> wd_Nodes wd !! "" = None -> check_edges wd (wd_Edges wd) = None ->
  exists a' w' r, hyd_Execute E bare_hyd render default_maxRetries (Some wd) input w = Some (w', (Some r, None)) /\
    run a input eng w = Some (eng1, a', w', Ok r).
Proof.
  intros Hsid Hempty Hload Hne H0 Hedges. set (sid := aa_sessionID a) in *.
  set (s0 := {| sx_heap := ∅; sx_store := NewInMemorySessionStore |}).
  destruct (fresh_session_runs E bare_hyd render default_maxRetries wd input w sid s0) as (w' & r & s' & p & wi & Hx & Hs & _);
    [split; [by eapply loaded_keyed|by split]|done|done|by apply lookup_empty|].
  set (t0 := {| sx_heap := ∅; sx_store := NewTransientStore |} : SState TransientStoreAdapter).
  set (key := sid +:+ ":" +:+ wd_ID wd).
  set (q := fresh (dom (∅ : InstHeap))).
  set (y := NewWorkflowInstance (snd (splitSessionKey key)) (fst (splitSessionKey key))).
  assert (open_session sid wd t0 = ({| sx_heap := <[q := y]> ∅; sx_store := NewTransientStore |}, Ok q)) as Ht.
  { unfold open_session. cbn [ss_Get architect_sessions adapter_sessions sx_store sx_heap t0]. unfold adapter_Get. fold key. unfold y.
    by destruct (splitSessionKey key). }
  assert (exists x s1, open_session sid wd s0 = (s1, Ok p) /\ sx_heap s1 !! p = Some x /\ alike x y) as (x & s1 & Hs1 & Hpx & Hxy).
  { revert Hs. unfold ExecuteWithSession. cbn [negb orb]. rewrite (proj2 (String.eqb_neq _ _) Hsid). unfold open_session.
    cbn [ss_Get ss_Create in_memory_sessions sx_store sx_heap s0]. unfold InMemorySessionStore_Get. cbn [is_sessions NewInMemorySessionStore].
    rewrite lookup_empty. destruct (InMemorySessionStore_Create _ _ _) as [st [e|]]; [by intros [=]|].
    cbn [sx_heap]. rewrite lookup_insert_eq. cbn [mbind option_bind]. intros Hr. apply run_pretends in Hr as (r' & _ & [= ->] & _).
    eexists _, _. split; [done|]. cbn [sx_heap]. by rewrite lookup_insert_eq. }
  destruct (execute_same E bare_hyd render default_maxRetries wd p q sid input s0 t0 s1 _ w w' s' (Some r) None Hsid Hs1 Ht)
    as (t' & Hrun & _); [by exists x, y; split_and!; [|apply lookup_insert_eq|]|done|].
  exists (with_transient (sx_store t') a), w', r. split; [done|]. unfold architect_Run. rewrite Hload.
  assert (architect_session marshal unmarshal render now ctx wait tick a wd input w = Some (w', t', (Some r, Some q, None))) as ->;
    [|done].
  unfold architect_session. rewrite Hempty. exact Hrun.
Qed.
End Architect.

(** ** Concrete runs *)

(** JSON that keeps nothing of an instance. *)
Definition lossy_json (wi : WorkflowInstance) : res error string := Ok "{}".
Definition unreadable (data : string) : res error WorkflowInstance := Err (EText "unexpected end of JSON input").

#[local] Instance fresh_transient_sessions : SessionStateStore TransientStoreAdapter :=
  @adapter_sessions _ (@transient_port stored_order "now") lossy_json unreadable.
Definition no_facts : SState TransientStoreAdapter := {| sx_heap := ∅; sx_store := NewTransientStore |}.

(** The same workflow on an empty in-memory store and on an empty adapter. *)
Lemma session_store_independent_witness :
  exists t' r, ExecuteWithSession (H := stored_order) echo_env plain_env (fun _ => "") 3 true "s" (Some one_node) (WStr "in") no_facts 0
    = Some (1, t', (Some r, Some (fresh (∅ : gset nat)), None)) /\ wr_Status r = WorkflowStatusCompleted.
Proof.
  destruct (ExecuteWithSession (H := stored_order) echo_env plain_env (fun _ => "") 3 true "s" (Some one_node) (WStr "in") no_sessions 0)
    as [[[w' s'] [[r p] e]]|] eqn:Hx; [|vm_compute in Hx; discriminate Hx].
  assert (w' = 1 /\ exists r', r = Some r' /\ wr_Status r' = WorkflowStatusCompleted /\ p = Some (fresh (∅ : gset nat)) /\ e = None)
    as (-> & r' & -> & Hst & -> & ->).
  { vm_compute in Hx. injection Hx as <- <- <- <- <-. split; [done|]. eexists. by split_and!. }
  destruct (@session_store_independent stored_order nat InMemorySessionStore TransientStoreAdapter echo_env plain_env (fun _ => "") 3 one_node
    in_memory_sessions fresh_transient_sessions "s" (WStr "in") (fresh (∅ : gset nat)) (fresh (∅ : gset nat)) no_sessions
    (fst (open_session "s" one_node no_sessions)) s' no_facts (fst (open_session "s" one_node no_facts)) 0 1 (Some r') None)
    as (t' & Ht & _); [done|reflexivity|reflexivity| |exact Hx|by exists t', r'].
  eexists _, _. split_and!; [reflexivity|reflexivity|done].
Defined.

Definition demo_def : WorkflowDef :=
  {| wd_ID := "w"; wd_Name := "demo"; wd_Version := ""; wd_RootNodeID := "n1";
     wd_Nodes := {["n1" := {| nd_ID := "n1"; nd_AgentRole := ""; nd_TaskType := ""; nd_Config := ∅ |};
                   "n2" := {| nd_ID := "n2"; nd_AgentRole := ""; nd_TaskType := ""; nd_Config := ∅ |}]};
     wd_Edges := [{| ed_From := "n1"; ed_To := "n2"; ed_Condition := "" |}] |}.

Definition architect_run_demo (a : ArchitectAgent nat) :=
  architect_Run (H := stored_order) (AgentEngine0 := table_engine) lossy_json unreadable (fun _ => "") "now" (fun _ : nat => None)
    (fun _ w => (w, None)) S a (WOther "envelope") (NewAgentSystem graph_table) 0.

Lemma architect_run_pretends_witness :
  exists a eng' a' w' out, NewArchitectAgent (W := nat) "id" "17" "w" = Some a /\
    architect_run_demo a = Some (eng', a', w', out) /\ forall r, out = Ok r -> only_excuse (fun _ : nat => None) r.
Proof.
  destruct (NewArchitectAgent (W := nat) "id" "17" "w") as [a|] eqn:Ha; [|discriminate Ha].
  destruct (architect_run_pretends (H := stored_order) (AgentEngine0 := table_engine) lossy_json unreadable (fun _ => "") "now"
    (fun _ : nat => None) (fun _ w => (w, None)) S a (WOther "envelope") (NewAgentSystem graph_table) 0) as (eng' & a' & w' & out & Hr & Ho).
  { injection Ha as <-. done. }
  exists a, eng', a', w', out. by split_and!.
Defined.

Lemma architect_first_run_witness :
  exists a eng' a' w' r, NewArchitectAgent (W := nat) "id" "17" "w" = Some a /\
    architect_run_demo a = Some (eng', a', w', Ok r) /\
    hyd_Execute (H := stored_order) (default_env (fun _ : nat => None) (fun _ w => (w, None)) S) bare_hyd (fun _ => "") 3 (Some demo_def)
      (WOther "envelope") 0 = Some (w', (Some r, None)).
Proof.
  destruct (NewArchitectAgent (W := nat) "id" "17" "w") as [a|] eqn:Ha; [|discriminate Ha].
  destruct (LoadWorkflow (AgentEngine0 := table_engine) "w" (NewAgentSystem graph_table)) as [eng1 [wd|e]] eqn:Hl;
    [|vm_compute in Hl; discriminate Hl].
  assert (wd = demo_def) as -> by (vm_compute in Hl; injection Hl as _ <-; reflexivity).
  destruct (architect_first_run (H := stored_order) (AgentEngine0 := table_engine) lossy_json unreadable (fun _ => "") "now"
    (fun _ : nat => None) (fun _ w => (w, None)) S a (WOther "envelope") (NewAgentSystem graph_table) eng1 demo_def 0)
    as (a' & w' & r & Hx & Hr); [by injection Ha as <-|by injection Ha as <-|injection Ha as <-; exact Hl|done|reflexivity|reflexivity|].
  exists a, eng1, a', w', r. by split_and!.
Defined.

(** What the caller gets. *)
Example architect_output :
  match NewArchitectAgent (W := nat) "id" "17" "w" with
  | Some a => match architect_run_demo a with
              | Some (_, _, w, Ok r) => wr_Output r = WStr "output from node n2 executed by agent " /\ w = 2
              | _ => False
              end
  | None => False
  end.
Proof. vm_compute. by split. Qed.
