(* ===== verification/Loaders.v ===== *)
(** * Loaders and small front ends

    [sdk/config_loader.go]: actions and memories made from a configuration,
    with the built-in mock generator; [adapters/knowledge/rdf.go]: the RDF
    reader; [adapters/vector/genkit_retriever.go]: the adapter over a Genkit
    retriever; [internal/util/schema/validator.go]; and the sampling options
    of [sdk/options.go].

    The RDF decoder, the Genkit retriever, [json.Unmarshal], [json.Marshal]
    and the JSON-schema library are parameters.

    Its properties:
    Which configurations of actions load, what a mock action answers, what
    the RDF reader emits, what sampling options leave alone, and the Genkit
    retriever under the retrieval action. *)
From S2P Require Import Prelude GoStrings CoreErrors CoreTypes Facts Float64 Knowledge KnowledgeProps Config Predicates Memory ClientInit Generators Bridges.
From Stdlib Require Import Ascii String.
Open Scope string_scope.

(** ** Actions of a configuration *)

(** [mockGenerator]: it echoes its prompt after a system prompt. *)
Record mockGenerator := { mg_systemPrompt : string }.

Definition mock_reply (m : mockGenerator) (prompt : string) : string := mg_systemPrompt m +:+ " " +:+ prompt.

Definition mock_Generate (m : mockGenerator) (prompt : string) : LLMResponse :=
  {| lr_Text := mock_reply m prompt;
     lr_Usage := {["input" := Z.of_nat (String.length prompt); "output" := Z.of_nat (String.length (mock_reply m prompt))]} |}.

Definition mock_TextGenerator {W : Type} (m : mockGenerator) : @TextGenerator W :=
  {| tg_Complete := fun _ prompt w => (w, Ok (mock_reply m prompt));
     tg_Stream := fun _ prompt w => (w, Ok [{| ck_Text := mock_reply m prompt; ck_Err := None |}]) |}.

Definition createMockLLMAction {W : Type} (name : string) (cfg : ActionConfig) : res error (@LLMAction W) :=
  NewLLMAction name (Some (mock_TextGenerator {| mg_systemPrompt := option_string (acf_Options cfg) "prompt" |})).

Definition createLLMAction {W : Type} (name : string) (cfg : ActionConfig) : res error (@LLMAction W) :=
  if String.eqb (acf_Provider cfg) "mock" then createMockLLMAction name cfg
  else Err (EText ("failed to create action '" +:+ name +:+ "': provider '" +:+ acf_Provider cfg
                   +:+ "' not registered (Did you forget to call sdk.RegisterProvider in main?)")).

Definition NewActionFromConfig {W : Type} (name : string) (cfg : ActionConfig) : res error (@LLMAction W) :=
  if String.eqb (acf_Type cfg) "llm" then createLLMAction name cfg
  else Err (EText ("unsupported action type: " +:+ acf_Type cfg)).

(** The loop over the map, in its iteration order. *)
Fixpoint hydrate_from {W : Type} (l : list (string * ActionConfig)) : res error (list (@LLMAction W)) :=
  match l with
  | [] => Ok []
  | (name, cfg) :: rest =>
      match NewActionFromConfig name cfg with
      | Err e => Err (EWrap ("failed to hydrate action " +:+ go_quote name +:+ ": ") e)
      | Ok action => match hydrate_from rest with Err e => Err e | Ok hydrated => Ok (action :: hydrated) end
      end
  end.

Definition HydrateActions `{GoRange} {W : Type} (actions : gmap string ActionConfig) : res error (list (@LLMAction W)) :=
  hydrate_from (range actions).

(** [createMemory]; no provider gives no memory. *)
Definition createMemory {M : Type} (memories : gmap string (MemoryConfig -> res error (option M))) (cfg : Config)
  : res error (option M) :=
  let provider := mc_Provider (cf_Memory cfg) in
  if String.eqb provider "" then Ok None
  else match ProviderOf "memory provider" provider memories with
       | Err e => Err e
       | Ok factory => factory (cf_Memory cfg)
       end.

(** ** Sampling options *)

Definition on_config (f : GenerationConfig -> GenerationConfig) : GenerateOption := fun '(c, h) => (f c, h).

Definition WithTemperature (t : float64) : GenerateOption := on_config (with_Temperature t).
Definition WithMaxTokens (n : Z) : GenerateOption := on_config (fun c =>
  {| gc_Temperature := gc_Temperature c; gc_MaxTokens := n; gc_TopP := gc_TopP c; gc_StopSequences := gc_StopSequences c;
     gc_Model := gc_Model c; gc_JSONMode := gc_JSONMode c; gc_OutputType := gc_OutputType c; gc_Metadata := gc_Metadata c |}).
Definition WithTopP (p : float64) : GenerateOption := on_config (fun c =>
  {| gc_Temperature := gc_Temperature c; gc_MaxTokens := gc_MaxTokens c; gc_TopP := p; gc_StopSequences := gc_StopSequences c;
     gc_Model := gc_Model c; gc_JSONMode := gc_JSONMode c; gc_OutputType := gc_OutputType c; gc_Metadata := gc_Metadata c |}).
Definition WithStopSequences (seqs : list string) : GenerateOption := on_config (fun c =>
  {| gc_Temperature := gc_Temperature c; gc_MaxTokens := gc_MaxTokens c; gc_TopP := gc_TopP c; gc_StopSequences := seqs;
     gc_Model := gc_Model c; gc_JSONMode := gc_JSONMode c; gc_OutputType := gc_OutputType c; gc_Metadata := gc_Metadata c |}).
Definition WithModel (m : string) : GenerateOption := on_config (fun c =>
  {| gc_Temperature := gc_Temperature c; gc_MaxTokens := gc_MaxTokens c; gc_TopP := gc_TopP c;
     gc_StopSequences := gc_StopSequences c; gc_Model := m; gc_JSONMode := gc_JSONMode c;
     gc_OutputType := gc_OutputType c; gc_Metadata := gc_Metadata c |}).
Definition WithJSONMode (enabled : bool) : GenerateOption := on_config (fun c =>
  {| gc_Temperature := gc_Temperature c; gc_MaxTokens := gc_MaxTokens c; gc_TopP := gc_TopP c;
     gc_StopSequences := gc_StopSequences c; gc_Model := gc_Model c; gc_JSONMode := enabled;
     gc_OutputType := gc_OutputType c; gc_Metadata := gc_Metadata c |}).
(** The schema value, by the name of its type; nil is [None]. *)
Definition WithStructuredOutput (schema : option string) : GenerateOption := on_config (fun c =>
  {| gc_Temperature := gc_Temperature c; gc_MaxTokens := gc_MaxTokens c; gc_TopP := gc_TopP c;
     gc_StopSequences := gc_StopSequences c; gc_Model := gc_Model c; gc_JSONMode := gc_JSONMode c;
     gc_OutputType := schema; gc_Metadata := gc_Metadata c |}).

(** ** RDF *)

Section Rdf.
(** Terms of the RDF library, with the text of their [String] method. *)
Inductive RdfTerm := RIri (text : string) | RLiteral (text : string) | ROtherTerm (text : string).
Record RdfTriple := { rt_Subj : RdfTerm; rt_Pred : RdfTerm; rt_Obj : RdfTerm }.
Inductive RdfFormat := FRdfXml | FTurtle.

(** [os.Open] followed by [DecodeAll] of the whole file. *)
Context (unicode_lower : string -> string) (open : string -> res error string)
        (decode_all : RdfFormat -> string -> res error (list RdfTriple)).

Definition cleanTerm (t : RdfTerm) : string :=
  match t with
  | RIri s => trim_suffix (trim_prefix s "<") ">"
  | RLiteral s => s
  | ROtherTerm s => s
  end.

Definition rdf_format (path : string) : RdfFormat :=
  let p := to_lower unicode_lower path in
  if has_suffix p ".xml" || has_suffix p ".rdf" then FRdfXml else FTurtle.

(** The loader's [escape] is the N-Triples reader's. *)
Definition rdf_fact (t : RdfTriple) : string :=
  triple_fact (cleanTerm (rt_Subj t)) (cleanTerm (rt_Pred t)) (cleanTerm (rt_Obj t)).

Definition RDFLoader_Parse (path : string) : res error (list string) :=
  match open path with
  | Err e => Err (EWrap "failed to open RDF file: " e)
  | Ok content =>
      match decode_all (rdf_format path) content with
      | Err e => Err (EWrap "failed to decode RDF: " e)
      | Ok triples => Ok (map rdf_fact triples)
      end
  end.
End Rdf.

(** The reader of a build without the [rdf] tag. *)
Definition stub_Parse (path : string) : res error (list string) := 
  Err (EText "RDF support is not enabled; build with '-tags rdf' to enable").


(** ** The Genkit retriever *)

(** A document of Genkit: the texts of its parts and its metadata, which may
    be nil; documents are not nil pointers. *)
Record GenkitDoc := { gd_Content : list string; gd_Metadata : option Options }.

Definition genkit_source (m : option Options) : string :=
  match m with
  | None => ""
  | Some m => match m !! "source", m !! "uri" with
              | Some (GStr s), _ => s
              | _, Some (GStr u) => u
              | _, _ => ""
              end
  end.

Definition from_genkit (d : GenkitDoc) : RetrievedDoc :=
  {| rd_Content := match gd_Content d with t :: _ => t | [] => "" end; rd_Source := genkit_source (gd_Metadata d) |}.

(** [GenkitRetriever.Retrieve]; the retriever may be nil, and so may its
    result. *)
Definition genkit_Retrieve {W : Type} (retriever : option (string -> W -> W * res error (option (list GenkitDoc))))
    (query : string) (w : W) : W * res error (list RetrievedDoc) :=
  match retriever with
  | None => (w, Err (EText "genkit retriever: underlying retriever is nil"))
  | Some retrieve =>
      let '(w1, r) := retrieve query w in
      (w1, match r with
           | Err e => Err (EWrap "genkit retriever failed: " e)
           | Ok None => Ok []
           | Ok (Some docs) => Ok (map from_genkit docs)
           end)
  end.

(** ** JSON schemas *)

Section Schemas.
Context {Schema Resolved Value : Type} (unmarshal_schema : string -> res error Schema) (resolve : Schema -> res error Resolved)
        (unmarshal_any : string -> res error Value) (validate : Resolved -> Value -> option error).

Definition ValidateJSON (schemaStr jsonStr : string) : option error :=
  match unmarshal_schema schemaStr with
  | Err e => Some (EWrap "failed to parse schema json: " e)
  | Ok s =>
      match resolve s with
      | Err e => Some (EWrap "failed to resolve schema: " e)
      | Ok resolved =>
          match unmarshal_any jsonStr with
          | Err e => Some (EWrap "failed to unmarshal json: " e)
          | Ok v => match validate resolved v with
                    | Some e => Some (EWrap "validation failed: " e)
                    | None => None
                    end
          end
      end
  end.

Definition ValidateStruct {Input : Type} (marshal : Input -> res error string) (schemaStr : string) (input : Input) : option error :=
  match marshal input with
  | Err e => Some (EWrap "failed to marshal input struct: " e)
  | Ok bytes => ValidateJSON schemaStr bytes
  end.
End Schemas.

(** ** Properties *)

(** ** Actions *)

Definition mock_config (cfg : ActionConfig) : Prop := acf_Type cfg = "llm" /\ acf_Provider cfg = "mock".

Definition mock_action {W : Type} (name : string) (cfg : ActionConfig) : @LLMAction W :=
  {| la_name := name;
     la_generator := mock_TextGenerator {| mg_systemPrompt := option_string (acf_Options cfg) "prompt" |} |}.

Lemma new_action_ok {W : Type} name cfg (a : @LLMAction W) :
  NewActionFromConfig name cfg = Ok a <-> mock_config cfg /\ a = mock_action name cfg.
Proof.
  unfold NewActionFromConfig, createLLMAction, mock_config. split.
  - destruct (String.eqb_spec (acf_Type cfg) "llm") as [->|]; [|done].
    destruct (String.eqb_spec (acf_Provider cfg) "mock") as [->|]; [|done]. by intros [= <-].
  - by intros [[-> ->] ->].
Qed.

Lemma hydrate_from_ok {W : Type} (l : list (string * ActionConfig)) (actions : list (@LLMAction W)) :
  hydrate_from l = Ok actions <->
  (forall name cfg, (name, cfg) ∈ l -> mock_config cfg) /\ actions = map (fun '(name, cfg) => mock_action name cfg) l.
Proof.
  revert actions. induction l as [|[name cfg] l IH]; intros actions; cbn [hydrate_from map].
  { split; [intros [= <-]; split; [by intros ? ? ?%elem_of_nil|done]|by intros [_ ->]]. }
  destruct (NewActionFromConfig name cfg) as [a|e] eqn:Ha.
  - apply new_action_ok in Ha as [Hm ->]. destruct (hydrate_from l) as [hs|e] eqn:Hl.
    + destruct (proj1 (IH hs) eq_refl) as [Hall ->]. split.
      * intros [= <-]. split; [|done]. intros n c [[= -> ->]|Hin]%elem_of_cons; [done|by eapply Hall].
      * by intros [_ ->].
    + split; [done|]. intros [Hall ->]. assert (@Err error (list (@LLMAction W)) e = Ok (map (fun '(n, c) => mock_action n c) l)) as [=].
      apply IH. split; [|done]. intros n c Hin. apply (Hall n c). by right.
  - split; [done|]. intros [Hall _]. assert (NewActionFromConfig name cfg = Ok (@mock_action W name cfg)) as Hok.
    { apply new_action_ok. split; [apply (Hall name cfg); by left|done]. }
    congruence.
Qed.

(** A configuration of actions loads exactly when every action is an LLM of
    the mock provider; then there is one action per entry, under its name. *)
Theorem hydrate_actions_iff `{GoRange} {W : Type} (actions : gmap string ActionConfig) :
  ((exists l : list (@LLMAction W), HydrateActions actions = Ok l) <-> map_Forall (fun _ => mock_config) actions) /\
  (forall l : list (@LLMAction W), HydrateActions actions = Ok l ->
     map la_name l ≡ₚ (map_to_list actions).*1 /\
     forall a, a ∈ l <-> exists name cfg, actions !! name = Some cfg /\ a = mock_action name cfg).
Proof.
  unfold HydrateActions. split.
  - split.
    + intros [l [Hall _]%hydrate_from_ok] name cfg Hl. apply (Hall name cfg). by apply elem_of_range.
    + intros Hall. eexists. apply hydrate_from_ok. split; [|done]. intros name cfg Hin%elem_of_range. by apply (Hall name cfg).
  - intros l [_ ->]%hydrate_from_ok. split.
    + rewrite map_map. rewrite (map_ext _ fst) by (by intros []). by rewrite range_perm.
    + intros a. rewrite list_elem_of_In, in_map_iff. split.
      * intros ([name cfg] & <- & Hin%list_elem_of_In%elem_of_range). by exists name, cfg.
      * intros (name & cfg & Hl & ->). exists (name, cfg). split; [done|]. by apply list_elem_of_In, elem_of_range.
Qed.

(** A mock action answers the prompt an envelope gives (its payload, and the
    feedback of a failed attempt) after the configured system prompt; an
    option that is not a string counts as none. *)
Theorem mock_action_echoes `{GoRange} {W : Type} render fmt_other type_name name cfg (a : @LLMAction W) facts id input prompt w :
  NewActionFromConfig name cfg = Ok a -> promptFrom fmt_other type_name input = Ok prompt ->
  LLMAction_Execute render fmt_other type_name a facts id input w
  = (w, Ok (llm_output name id (option_string (acf_Options cfg) "prompt" +:+ " " +:+ prompt))).
Proof. intros [_ ->]%new_action_ok Hp. unfold LLMAction_Execute. by rewrite Hp. Qed.

(** ** Sampling options *)

(** A sampling option: one that only sets fields other than the metadata. *)
Definition keeps_metadata (opt : GenerateOption) : Prop :=
  forall c h, snd (opt (c, h)) = h /\ gc_Metadata (fst (opt (c, h))) = gc_Metadata c.

Lemma sampling_options t n p seqs m j ty :
  Forall keeps_metadata [WithTemperature t; WithMaxTokens n; WithTopP p; WithStopSequences seqs; WithModel m;
                         WithJSONMode j; WithStructuredOutput ty].
Proof. by repeat constructor. Qed.

(** Sampling options leave the middleware alone: wherever they stand among
    other options, the middleware a call is guarded by does not change. *)
Theorem sampling_keeps_middleware opts c h :
  Forall keeps_metadata opts ->
  let '(c1, h1) := apply_options opts (c, h) in extractMiddlewareConfig c1 h1 = extractMiddlewareConfig c h.
Proof.
  revert c h. induction opts as [|o opts IH]; intros c h; [done|]. intros [Ho Hr]%Forall_cons.
  unfold apply_options in *. cbn [foldl]. destruct (Ho c h) as [Hh Hm]. destruct (o (c, h)) as [c1 h1]. cbn [fst snd] in *. subst h1.
  specialize (IH c1 h Hr). case_match. rewrite IH. unfold extractMiddlewareConfig. by rewrite Hm.
Qed.

(** ** RDF *)

(** No term of an RDF document injects facts: the reader emits one fact for
    each triple, in order, and each reads back as the cleaned terms. *)
Theorem rdf_facts_read_back lower open decode path facts :
  RDFLoader_Parse lower open decode path = Ok facts ->
  exists content triples, open path = Ok content /\ decode (rdf_format lower path) content = Ok triples /\
    map read_triple facts = map (fun t => Some (cleanTerm (rt_Subj t), cleanTerm (rt_Pred t), cleanTerm (rt_Obj t))) triples.
Proof.
  unfold RDFLoader_Parse. destruct (open path) as [content|e] eqn:Ho; [|done].
  destruct (decode _ content) as [triples|e] eqn:Hd; [|done]. intros [= <-]. exists content, triples. split_and!; [done..|].
  rewrite map_map. apply map_ext. intros t. apply read_triple_fact.
Qed.

(** What distinguishes an IRI from a literal of the same text is lost. *)
Theorem rdf_kinds_merge s p : rdf_fact {| rt_Subj := RIri s; rt_Pred := RIri p; rt_Obj := RIri ("<" +:+ "x" +:+ ">") |}
  = rdf_fact {| rt_Subj := RIri s; rt_Pred := RIri p; rt_Obj := RLiteral "x" |}.
Proof. reflexivity. Qed.

(** ** Retrieval *)

(** Of a Genkit document the retrieval keeps the first part: documents that
    agree on it and on the source are the same to the caller. *)
Theorem genkit_keeps_first_part t parts parts' m m' :
  genkit_source m = genkit_source m' ->
  from_genkit {| gd_Content := t :: parts; gd_Metadata := m |} = from_genkit {| gd_Content := t :: parts'; gd_Metadata := m' |}.
Proof. unfold from_genkit. cbn. by intros ->. Qed.

(** The retrieval action over a Genkit retriever reports as many documents
    as the retriever found, and without a retriever it always fails. *)
Theorem genkit_retrieval_counts {W : Type} type_name name retriever marshal id query (w w' : W) env :
  retriever_Execute type_name name (genkit_Retrieve retriever) marshal id (NewEnvelope 0 (GStr query)) w = (w', Ok env) ->
  exists retrieve r, retriever = Some retrieve /\ retrieve query w = (w', Ok r) /\
    env_Metadata env !! "doc_count" = Some (GStr (pretty (Z.of_nat (List.length (default [] r))))).
Proof.
  unfold retriever_Execute, genkit_Retrieve. cbn [env_Payload NewEnvelope].
  destruct retriever as [retrieve|]; [|done]. destruct (retrieve query w) as [w1 [r|e]] eqn:Hr; [|done].
  assert ((match r with Some docs => Ok (map from_genkit docs) | None => Ok [] end)
          = @Ok error (list RetrievedDoc) (map from_genkit (default [] r))) as -> by (by destruct r).
  destruct (marshal _) as [text|e]; [|done]. intros [= <- <-]. exists retrieve, r. split_and!; [done..|].
  rewrite length_map. unfold SetMeta, set_Metadata. cbn. by rewrite lookup_insert_ne, lookup_insert_eq by done.
Qed.
