(* ===== verification/ToolCommands.v ===== *)
(** * Further commands of mkit

    [cmd/mkit/commands/kg/convert.go]: conversion between graph formats, on a
    file system; [cmd/mkit/commands/skill/new.go]: scaffolding of a skill;
    [cmd/mkit/commands/gen/{rule,logic,resources}.go]: the command around the
    feedback loop of [RuleGen], with its system prompt.

    The encoders and decoders of the quad library, [text/template], the models
    a provider offers, and the Unicode tables for runes above 127 are
    parameters. *)
From S2P Require Import Prelude GoStrings CoreErrors CoreTypes Facts Reflect Sources Datalog Runtime Solver Knowledge Commands Bridges RuleGen.
From Stdlib Require Import Ascii String.
Open Scope string_scope.

(** ** The system prompt of rule generation *)

Definition graph_vocabulary (decls : string) : string :=
  join nl
  ["";
   "### Auto-Detected Vocabulary (Graph):";
   "The data uses these predicates. Use them directly:";
   decls;
   ""].

Definition json_vocabulary (keys : string) : string :=
  join nl
  ["";
   "### Auto-Detected JSON Structure (Path -> Type):";
   keys;
   "### Handling Nested & Array Paths:";
   "1. **Dot Notation** (" +:+ quoted "deployment.replicas" +:+ "): Use 'json_link' to traverse objects.";
   "   json_link(Root, " +:+ quoted "deployment" +:+ ", DeployNode), json_num(DeployNode, " +:+ quoted "replicas" +:+ ", Val).";
   "";
   "2. **Object Arrays** (" +:+ quoted "servers[].ip" +:+ "): Use 'json_link' to list, then 'json_link' with '_' (wildcard) to iterate items.";
   "   json_link(Root, " +:+ quoted "servers" +:+ ", List), json_link(List, _, Server), json_str(Server, " +:+ quoted "ip" +:+ ", IP).";
   "";
   "3. **Primitive Arrays** (" +:+ quoted "env_vars (array of string)" +:+ "): Use 'json_link' to list, then 'json_str' with '_' to iterate values.";
   "   json_link(Root, " +:+ quoted "env_vars" +:+ ", List), json_str(List, _, " +:+ quoted "TargetValue" +:+ ").";
   ""].

(** [autoVocab]: other file types add nothing. *)
Definition auto_vocabulary (schema : option SchemaHint) : string :=
  match schema with
  | None => ""
  | Some s =>
      if String.eqb (sh_FileType s) "graph" then graph_vocabulary (join nl (sh_Declarations s))
      else if String.eqb (sh_FileType s) "json" then json_vocabulary (join nl (sh_JsonKeys s))
      else ""
  end.

Definition facts_list (vocab : list string) : string := String.concat "" (map (fun f => "- " +:+ f +:+ nl) vocab).

Definition system_prompt_of (facts auto icl : string) : string :=
  join nl
  ["You are a Senior Knowledge Engineer specializing in Google Mangle Datalog.";
   "Your task is to translate natural language requirements into strict, compilable Datalog rules.";
   "";
   "### Standard Library (Always Available):";
   "- json_num(Source, Key, Value)  // Int/Float fields";
   "- json_str(Source, Key, Value)  // String fields";
   "- json_bool(Source, Key, Value) // Boolean fields";
   "- json_link(Parent, Key, Child) // Nested objects";
   "- deny(Source, Reason)          // Main policy output (Do NOT redeclare this)";
   "";
   "### Telemetry & Compliance (MANDATORY):";
   "1. You MUST declare a violation rule predicate: Decl violation_rule(Entity, RuleID).";
   "2. For EVERY 'deny' rule you create, you MUST create a corresponding 'violation_rule'.";
   "   - The RuleID must be UPPERCASE_SNAKE_CASE (e.g., " +:+ quoted "COST_LIMIT_EXCEEDED" +:+ ").";
   "   - It captures the same conditions as the deny rule.";
   "";
   "Example:";
   "   deny(Req, " +:+ quoted "Cost too high" +:+ ") :- exceeds_cost(Req).";
   "   violation_rule(Req, " +:+ quoted "COST_LIMIT_CHECK_01" +:+ ") :- exceeds_cost(Req).";
   "";
   "### Domain Vocabulary:";
   facts;
   auto;
   "### 4. Code Style Reference (Golden Rules)";
   "The following are verified Manglekit Datalog examples.";
   "Pay close attention to how 'json_link' is used for nested objects and how predicates are declared.";
   "";
   "--- BEGIN REFERENCE ---";
   icl;
   "--- END REFERENCE ---";
   "";
   "### Syntax Rules:";
   "1. Use 'Decl name(Arg1, Arg2, ...).' to declare predicates. ";
   "   - CRITICAL: Do NOT use '.Decl', '.decl', or 'decl'. MUST be 'Decl' (Case-sensitive, no dot).";
   "   - Args MUST start with Uppercase (e.g., Decl amount(Source, Val).).";
   "2. Do NOT redeclare 'deny'. It is already declared.";
   "3. Prioritize using the Domain Vocabulary over raw json_xxx predicates if available.";
   "4. If mapping raw JSON, prefer creating a " +:+ quoted "Helper Predicate" +:+ " first (e.g., amount(R, V) :- json_num...) to keep the deny rule clean.";
   "5. Strings must be double-quoted.";
   "6. Variables start with uppercase (e.g., P, Amount).";
   "7. Do NOT use aggregation (max, count) unless absolutely necessary.";
   "";
   "Output JSON only: {" +:+ quoted "datalog_content" +:+ ": " +:+ quoted "..." +:+ ", " +:+ quoted "explanation" +:+ ": " +:+ quoted "..." +:+ "}"].

(** ** The rule command *)

(** [GetICLContent]; [golden] is the embedded file. *)
Definition GetICLContent (readFile : string -> res error string) (golden userPath : string) : res error string :=
  if String.eqb userPath "" then Ok golden else readFile userPath.

Record RuleFlags := {
  ru_provider : string; ru_model : string; ru_prompt : string; ru_desc : string; ru_vocab : list string;
  ru_sample : string; ru_icl : string
}.

Section Rule.
Context {W M : Type} (unicode_lower : string -> string) (getenv : string -> string) (readFile : string -> res error string)
        (decode_json : string -> res error JVal) (golden : string).
(** The model a plugin offers under a name, and the model the OpenAI plugin
    defines for an unknown one; both may be nil. *)
Context (google_model : string -> string -> option M) (openai_model_of : string -> string -> string -> option M)
        (openai_define : string -> string -> string -> option M).
(** One call of [GenerateStruct] on a model, and the validation. *)
Context (ask_model : M -> string -> string -> W -> W * res error GeneratedPolicy)
        (validate : string -> string -> option error).

Definition pick_model (f : RuleFlags) : res error (option M) :=
  if String.eqb (ru_provider f) "google" then
    let key := if String.eqb (getenv "GOOGLE_GENAI_API_KEY") "" then getenv "GOOGLE_API_KEY" else getenv "GOOGLE_GENAI_API_KEY" in
    if String.eqb key "" then Err (EText "GOOGLE_GENAI_API_KEY or GOOGLE_API_KEY environment variable is required")
    else Ok (google_model key (ru_model f))
  else if String.eqb (ru_provider f) "openai" then
    let key := getenv "OPENAI_API_KEY" in
    if String.eqb key "" then Err (EText "OPENAI_API_KEY environment variable is required")
    else let base := getenv "OPENAI_BASE_URL" in
         Ok (match openai_model_of key base (ru_model f) with
             | Some m => Some m
             | None => openai_define key base (ru_model f)
             end)
  else Err (EText ("unsupported LLM provider: " +:+ ru_provider f +:+ ". supported: google, openai")).

(** The lines the command prints. *)
Definition rule_Run (f : RuleFlags) (w : W) : W * res error (list string) :=
  match pick_model f with
  | Err e => (w, Err e)
  | Ok None => (w, Err (EText ("model " +:+ ru_model f +:+ " not found in provider " +:+ ru_provider f)))
  | Ok (Some m) =>
      let finalPrompt := if String.eqb (ru_desc f) "" then ru_prompt f else ru_desc f in
      if String.eqb finalPrompt "" then (w, Err (EText "either --prompt or --desc must be provided"))
      else
        match (if String.eqb (ru_sample f) "" then Ok None
               else match InferFromFile unicode_lower readFile decode_json (ru_sample f) with
                    | Err e => Err (EWrap "failed to infer schema from sample file: " e)
                    | Ok s => Ok (Some s)
                    end) with
        | Err e => (w, Err e)
        | Ok schema =>
            let detected := match schema with
                            | Some s => ["Detected schema from " +:+ ru_sample f +:+ " (" +:+ sh_FileType s +:+ ")"]
                            | None => []
                            end in
            match GetICLContent readFile golden (ru_icl f) with
            | Err e => (w, Err (EWrap "failed to load ICL content: " e))
            | Ok icl =>
                let system := system_prompt_of (facts_list (ru_vocab f)) (auto_vocabulary schema) icl in
                let '(w1, r) := GenerateWithFeedback validate (ask_model m) system finalPrompt schema w in
                (w1, match r with
                     | Err e => Err (EWrap "generation failed: " e)
                     | Ok p => Ok (detected ++ ["Explanation: " +:+ gp_Explanation p; ""; "--- Datalog Code ---"; gp_DatalogContent p])%list
                     end)
            end
        end
  end.
End Rule.

(** ** Conversion of graphs *)

Section Convert.
(** Files by path; opening a missing file and creating a file may fail. *)
Abbreviation Files := (gmap string string).
Context (unicode_lower : string -> string) (missing : string -> error) (create_error : string -> option error).

Inductive QuadFormat := FNQuads | FJsonLD.

(** The quad library: the text of written quads, failures of [WriteQuad], and
    [quad.Copy] from a reader on a text: what it writes, the number of quads
    and an error. *)
Context (encode : QuadFormat -> list (QuadTerm * QuadTerm * QuadTerm) -> string)
        (write_error : QuadFormat -> QuadTerm * QuadTerm * QuadTerm -> option error)
        (quad_Copy : QuadFormat -> QuadFormat -> string -> string * (Z * option error)).

Definition open_file (fs : Files) (path : string) : res error string :=
  match fs !! path with Some c => Ok c | None => Err (missing path) end.

(** [knowledge.ParseGraphFile]. *)
Definition ParseGraphFile (fs : Files) (path : string) : res error (list Triple) :=
  let ext := to_lower unicode_lower (filepath_Ext path) in
  if String.eqb ext ".nq" || String.eqb ext ".nt" then
    match open_file fs path with
    | Err e => Err e
    | Ok content => match parseNQuads content with (l, None) => Ok l | (_, Some e) => Err e end
    end
  else if String.eqb ext ".ttl" then
    match open_file fs path with Err e => Err e | Ok content => Ok (parseTurtle content) end
  else Err (EText ("unsupported graph file type: " +:+ ext)).

Definition input_format (inFmt inFile : string) : res error string :=
  if negb (String.eqb inFmt "") then Ok inFmt
  else let ext := filepath_Ext inFile in
       if String.eqb ext ".ttl" then Ok "turtle"
       else if String.eqb ext ".nq" then Ok "nquads"
       else if String.eqb ext ".nt" then Ok "ntriples"
       else if String.eqb ext ".jsonld" then Ok "jsonld"
       else Err (EText ("unknown input extension " +:+ ext +:+ ", please specify --from (supported: .ttl, .nq, .nt, .jsonld)")).

Definition quad_format (fmt : string) : option QuadFormat :=
  if String.eqb fmt "nquads" || String.eqb fmt "ntriples" then Some FNQuads
  else if String.eqb fmt "jsonld" then Some FJsonLD
  else None.

(** [WriteQuad] on the quads written so far. *)
Definition write_quad (fmt : QuadFormat) (q : QuadTerm * QuadTerm * QuadTerm) (l : list (QuadTerm * QuadTerm * QuadTerm)) :=
  match write_error fmt q with Some e => (l, Some e) | None => ((l ++ [q])%list, None) end.

(** The copy: the text of the output file, and the count or an error.  The
    input is read after the output file was truncated; the writer is closed on
    every path. *)
Definition convert_copy (fs : Files) (inFile format : string) (out : QuadFormat) : string * res error Z :=
  let copied r := match r with (n, None) => Ok n | (_, Some e) => Err (EWrap "conversion failed: " e) end in
  if String.eqb format "turtle" || String.eqb format "ttl" then
    match ParseGraphFile fs inFile with
    | Err e => (encode out [], copied (0%Z, Some (EWrap "failed to parse turtle input: " e)))
    | Ok triples => let '(written, r) := copy_triples (write_quad out) 0 triples [] in (encode out written, copied r)
    end
  else
    match quad_format format with
    | None => (encode out [], Err (EText ("unsupported input format: " +:+ format +:+ " (supported: turtle, nquads, ntriples, jsonld)")))
    | Some in_ => let '(text, r) := quad_Copy out in_ (default "" (fs !! inFile)) in (text, copied r)
    end.

Definition convert_Run (inFile outFile inFmt outFmt : string) (fs : Files) : Files * res error string :=
  match open_file fs inFile with
  | Err e => (fs, Err (EWrap "failed to open input file: " e))
  | Ok _ =>
      match input_format inFmt inFile with
      | Err e => (fs, Err e)
      | Ok format =>
          match create_error outFile with
          | Some e => (fs, Err (EWrap "failed to create output file: " e))
          | None =>
              let fs1 := <[outFile := ""]> fs in
              match quad_format outFmt with
              | None => (fs1, Err (EText ("unsupported output format: " +:+ outFmt)))
              | Some out =>
                  let '(text, r) := convert_copy fs1 inFile format out in
                  (<[outFile := text]> fs1,
                   match r with
                   | Err e => Err e
                   | Ok n => Ok ("Converted " +:+ pretty n +:+ " quads to " +:+ outFile +:+ nl)
                   end)
              end
          end
      end
  end.
End Convert.

(** ** Scaffolding of a skill *)

(** The length of the rune at the front of a text, as Go's decoder finds it;
    an invalid byte is a rune of its own. *)
Definition in_range (lo hi : Z) (c : ascii) : bool := ((lo <=? bval c) && (bval c <=? hi))%Z.
Definition is_cont (c : ascii) : bool := in_range 128 191 c.

(** The bytes that may follow a lead byte, and how many there are. *)
Definition lead_info (c : ascii) : option (nat * (ascii -> bool)) :=
  if in_range 194 223 c then Some (1%nat, is_cont)
  else if (bval c =? 224)%Z then Some (2%nat, in_range 160 191)
  else if (bval c =? 237)%Z then Some (2%nat, in_range 128 159)
  else if in_range 225 239 c then Some (2%nat, is_cont)
  else if (bval c =? 240)%Z then Some (3%nat, in_range 144 191)
  else if in_range 241 243 c then Some (3%nat, is_cont)
  else if (bval c =? 244)%Z then Some (3%nat, in_range 128 143)
  else None.

Definition rune_len (s : string) : nat :=
  match s with
  | "" => 0
  | String c rest =>
      match lead_info c, rest with
      | Some (n, second), String d rest' =>
          if second d && (n - 1 <=? String.length rest')%nat && all_bytes is_cont (str_take (n - 1) rest') then S n else 1
      | _, _ => 1
      end
  end.

Fixpoint runes_fuel (fuel : nat) (s : string) : list string :=
  match fuel, s with
  | S fuel, String _ _ => str_take (rune_len s) s :: runes_fuel fuel (str_drop (rune_len s) s)
  | _, _ => []
  end.
Definition runes (s : string) : list string := runes_fuel (String.length s) s.

Section Skill.
(** Letters, digits and lower case of the runes above 127, on their UTF-8
    encodings; Go's tables on ASCII. *)
Context (unicode_word : string -> bool) (unicode_to_lower : string -> string).

Definition ascii_word (c : ascii) : bool := in_range 97 122 c || in_range 65 90 c || in_range 48 57 c.

(** [unicode.IsLetter(r) || unicode.IsDigit(r)]; an invalid byte decodes to
    U+FFFD, which is neither. *)
Definition is_word_rune (r : string) : bool :=
  match r with
  | "" => false
  | String c "" => ascii_word c
  | _ => unicode_word r
  end.

Definition lower_rune (r : string) : string := match r with String c "" => String (lower_byte c) "" | _ => unicode_to_lower r end.

Fixpoint snake_runes (pendingSep : bool) (l : list string) : string :=
  match l with
  | [] => ""
  | r :: rest =>
      if is_word_rune r then lower_rune r +:+ snake_runes false rest
      else if pendingSep then snake_runes true rest
      else "_" +:+ snake_runes true rest
  end.

Definition toSnake (name : string) : string := trim_cut (snake_runes true (runes name)) "_".

(** [strings.FieldsFunc]: the maximal runs of runes that are no separator. *)
Fixpoint fields_func (cur : string) (l : list string) : list string :=
  match l with
  | [] => if String.eqb cur "" then [] else [cur]
  | r :: rest =>
      if is_word_rune r then fields_func (cur +:+ r) rest
      else if String.eqb cur "" then fields_func "" rest
      else cur :: fields_func "" rest
  end.

(** [strings.ToUpper(p[:1])]: the first byte alone, where the byte of a
    longer rune becomes the encoding of U+FFFD. *)
Definition upper_byte (c : ascii) : string :=
  if (bval c <? 128)%Z then String (if in_range 97 122 c then byte (bval c - 32) else c) ""
  else String (byte 239) (String (byte 191) (String (byte 189) "")).

Definition capitalise (p : string) : string :=
  match p with "" => "" | String c rest => upper_byte c +:+ rest end.

Definition toPascal (name : string) : string := String.concat "" (map capitalise (fields_func "" (runes name))).

(** [path.Clean] by elements, and [filepath.Join] of two of them. *)
Fixpoint clean_elems (rooted : bool) (acc : list string) (l : list string) : list string :=
  match l with
  | [] => reverse acc
  | e :: rest =>
      if String.eqb e "" || String.eqb e "." then clean_elems rooted acc rest
      else if String.eqb e ".." then
        match acc with
        | x :: acc' => if String.eqb x ".." then clean_elems rooted (e :: acc) rest else clean_elems rooted acc' rest
        | [] => if rooted then clean_elems rooted [] rest else clean_elems rooted [e] rest
        end
      else clean_elems rooted (e :: acc) rest
  end.

Definition filepath_Clean (p : string) : string :=
  let rooted := has_prefix p "/" in
  let body := join "/" (clean_elems rooted [] (split_on "/" p)) in
  if rooted then "/" +:+ body else if String.eqb body "" then "." else body.

Definition filepath_Join (a b : string) : string :=
  if String.eqb a "" then (if String.eqb b "" then "" else filepath_Clean b) else filepath_Clean (a +:+ "/" +:+ b).

(** Directories and files; creating and writing may fail. *)
Record SkillFS := { sf_dirs : gset string; sf_files : gmap string string }.
Record skillData := { sk_Name : string; sk_Pascal : string; sk_Snake : string }.

Context (mkdir_error write_error : string -> option error).
(** [template.Parse] and [Execute] on an embedded file. *)
Context (render_template : string -> skillData -> res error string).

Definition renderFile (dir outName tmplName : string) (data : skillData) (fs : SkillFS) : SkillFS * option error :=
  match render_template tmplName data with
  | Err e => (fs, Some e)
  | Ok text =>
      let outPath := filepath_Join dir outName in
      match write_error outPath with
      | Some e => (fs, Some (EWrap ("write " +:+ outPath +:+ ": ") e))
      | None => ({| sf_dirs := sf_dirs fs; sf_files := <[outPath := text]> (sf_files fs) |}, None)
      end
  end.

Definition skill_files : gmap string string :=
  {["main.go" := "templates/main.go.tmpl"; "main_test.go" := "templates/main_test.go.tmpl"; "policy.dl" := "templates/policy.dl.tmpl"]}.

Fixpoint render_all (dir : string) (data : skillData) (l : list (string * string)) (fs : SkillFS) : SkillFS * option error :=
  match l with
  | [] => (fs, None)
  | (outName, tmplName) :: rest =>
      match renderFile dir outName tmplName data fs with
      | (fs1, Some e) => (fs1, Some e)
      | (fs1, None) => render_all dir data rest fs1
      end
  end.

(** [MkdirAll] on the cleaned path: the directory and its parents. *)
Fixpoint parents (acc : string) (elems : list string) : list string :=
  match elems with
  | [] => []
  | e :: rest => let p := if String.eqb acc "" then e else acc +:+ "/" +:+ e in p :: parents p rest
  end.

Definition mkdir_all (dir : string) (fs : SkillFS) : SkillFS :=
  {| sf_dirs := list_to_set (parents "" (split_on "/" dir)) ∪ sf_dirs fs; sf_files := sf_files fs |}.

(** [os.Stat] succeeds on a directory and on a file. *)
Definition path_exists (p : string) (fs : SkillFS) : bool :=
  bool_decide (p ∈ sf_dirs fs) || bool_decide (is_Some (sf_files fs !! p)).

Definition runNew `{GoRange} (flagDir : string) (flagForce : bool) (name : string) (fs : SkillFS) : SkillFS * option error :=
  let snake := toSnake name in
  if String.eqb snake "" then
    (fs, Some (EText ("invalid skill name " +:+ go_quote name +:+ ": must contain at least one letter or digit")))
  else
    let data := {| sk_Name := name; sk_Pascal := toPascal name; sk_Snake := snake |} in
    let dir := filepath_Join flagDir snake in
    if path_exists dir fs && negb flagForce then
      (fs, Some (EText ("directory " +:+ dir +:+ " already exists (use --force to overwrite)")))
    else
      match mkdir_error dir with
      | Some e => (fs, Some (EWrap "create directory: " e))
      | None => render_all dir data (range skill_files) (mkdir_all dir fs)
      end.
End Skill.
