(* ===== verification/ToolCommandsProps.v ===== *)
(** * Properties of the further commands

    What a conversion writes, keeps and destroys; what a skill's names are and
    what scaffolding touches; and why the validation of [gen rule] rejects
    the declaration its own prompt demands. *)
From S2P Require Import Prelude GoStrings CoreErrors CoreTypes Facts Reflect Sources Datalog Runtime Solver Reconstruct ReconstructProps GenesProps Knowledge Commands Bridges RuleGen Architect ToolCommands.
From Stdlib Require Import Ascii String.
Open Scope string_scope.

(** ** Bytes of a processed text *)

Lemma all_bytes_take f n s : all_bytes f s = true -> all_bytes f (str_take n s) = true.
Proof.
  revert s. induction n as [|n IH]; intros [|c s]; try done. cbn [all_bytes str_take].
  intros [Hc Hs]%andb_true_iff. by rewrite Hc, IH.
Qed.

Lemma all_bytes_drop f n s : all_bytes f s = true -> all_bytes f (str_drop n s) = true.
Proof.
  revert s. induction n as [|n IH]; intros [|c s]; try done. cbn [all_bytes str_drop].
  intros [_ Hs]%andb_true_iff. by apply IH.
Qed.

Lemma all_bytes_trim_left_cut f cut s : all_bytes f s = true -> all_bytes f (trim_left_cut cut s) = true.
Proof.
  induction s as [|c s IH]; [done|]. cbn [all_bytes trim_left_cut]. intros [Hc Hs]%andb_true_iff.
  destruct (in_cutset cut c); [by apply IH|]. cbn [all_bytes]. by rewrite Hc, Hs.
Qed.

Lemma all_bytes_trim_cut f cut s : all_bytes f s = true -> all_bytes f (trim_cut s cut) = true.
Proof.
  intros Hs. unfold trim_cut. rewrite all_bytes_rev. apply all_bytes_trim_left_cut. rewrite all_bytes_rev.
  by apply all_bytes_trim_left_cut.
Qed.

Lemma all_bytes_trim_space f s : all_bytes f s = true -> all_bytes f (trim_space s) = true.
Proof.
  intros Hs. unfold trim_space.
  assert (forall fuel s, all_bytes f s = true -> all_bytes f (trim_left_fuel fuel s) = true) as Hl.
  { induction fuel as [|k IH]; intros t Ht; cbn [trim_left_fuel]; [done|]. destruct (space_len t); [done|].
    by apply IH, all_bytes_drop. }
  assert (forall fuel s, all_bytes f s = true -> all_bytes f (trim_right_fuel fuel s) = true) as Hr.
  { induction fuel as [|k IH]; intros t Ht; cbn [trim_right_fuel]; [done|]. destruct (last_space_len t); [done|].
    by apply IH, all_bytes_take. }
  by apply Hr, Hl.
Qed.

Lemma all_bytes_replace f old new s :
  all_bytes f s = true -> all_bytes f new = true -> all_bytes f (replace_all old new s) = true.
Proof.
  intros Hs Hn. unfold replace_all. generalize 0%nat. induction s as [|c s IH]; intros k; [by destruct k|].
  cbn [all_bytes] in Hs. apply andb_true_iff in Hs as [Hc Hs]. cbn [replace_all_aux]. destruct k as [|k]; [|by apply IH].
  destruct (has_prefix (String c s) old); [rewrite all_bytes_cat, Hn; by apply IH|]. cbn [all_bytes]. rewrite Hc. by apply IH.
Qed.

(** ** Conversion *)

Lemma after_last_sep_colon s : colon_free (default s (after_last_sep s)) = true.
Proof.
  unfold colon_free. induction s as [|c s IH]; [done|]. cbn [after_last_sep].
  destruct (after_last_sep s) as [r|]; [exact IH|]. cbn [default from_option] in IH.
  destruct (in_cutset "/#:" c) eqn:Hc; cbn [default from_option id]; [exact IH|]. cbn [all_bytes].
  destruct (Ascii.eqb_spec c ":") as [->|]; [by vm_compute in Hc|]. exact IH.
Qed.

Lemma SanitizePredicate_colon p : colon_free (SanitizePredicate p) = true.
Proof.
  unfold SanitizePredicate. destruct (String.eqb p "a"); [done|].
  apply all_bytes_replace; [|done]. apply all_bytes_replace; [|done]. apply after_last_sep_colon.
Qed.

Lemma turtle_predicates_colon tokens state s p :
  colon_free p = true -> Forall (fun t => colon_free (tr_Predicate t) = true) (turtle_tokens tokens state s p).
Proof.
  revert state s p. induction tokens as [|t rest IH]; intros state s p Hp; cbn [turtle_tokens]; [done|].
  repeat (destruct (String.eqb t _); [by apply IH|]). destruct state; [by apply IH|apply IH, SanitizePredicate_colon|].
  constructor; [done|by apply IH].
Qed.

(** The quad a triple of the reader is written as. *)
Definition quad_of (t : Triple) : QuadTerm * QuadTerm * QuadTerm :=
  (toIRI (tr_Subject t), toIRI (tr_Predicate t), toTerm (tr_Object t)).

Section Conversion.
Context (lower : string -> string) (missing : string -> error) (create_error : string -> option error)
        (encode : QuadFormat -> list (QuadTerm * QuadTerm * QuadTerm) -> string)
        (write_error : QuadFormat -> QuadTerm * QuadTerm * QuadTerm -> option error)
        (quad_Copy : QuadFormat -> QuadFormat -> string -> string * (Z * option error)).
Local Abbreviation convert := (convert_Run lower missing create_error encode write_error quad_Copy).

Lemma copy_triples_all fmt n triples l :
  (forall q, write_error fmt q = None) ->
  copy_triples (write_quad write_error fmt) n triples l
  = ((l ++ map quad_of triples)%list, ((n + Z.of_nat (List.length triples))%Z, None)).
Proof.
  intros Hw. revert n l. induction triples as [|t rest IH]; intros n l; cbn [copy_triples map].
  { rewrite app_nil_r. by replace (n + Z.of_nat (@List.length Triple []))%Z with n by (cbn; lia). }
  unfold write_quad at 1. rewrite Hw, IH, <- (assoc app). f_equal. f_equal. cbn [List.length]. lia.
Qed.

Lemma convert_copy_turtle fs file out :
  convert_copy lower missing encode write_error quad_Copy fs file "turtle" out
  = match ParseGraphFile lower missing fs file with
    | Err e => (encode out [], Err (EWrap "conversion failed: " (EWrap "failed to parse turtle input: " e)))
    | Ok triples =>
        let '(written, (n, r)) := copy_triples (write_quad write_error out) 0 triples [] in
        (encode out written, match r with None => Ok n | Some e => Err (EWrap "conversion failed: " e) end)
    end.
Proof.
  unfold convert_copy. change (String.eqb "turtle" "turtle") with true. cbn [orb].
  destruct (ParseGraphFile _ _ fs file); [|done]. by destruct (copy_triples _ _ _ _) as [l [n [e|]]].
Qed.

(** A Turtle file is converted triple by triple, and the number of triples is
    reported; the input file is left as it was.  No predicate that is written
    is an absolute IRI: the reader cuts every predicate to its local name, so
    that the text after the scheme's colon is all there is. *)
Theorem turtle_conversion inFile outFile inFmt outFmt out content fs :
  fs !! inFile = Some content -> inFile <> outFile -> create_error outFile = None ->
  to_lower lower (filepath_Ext inFile) = ".ttl" ->
  inFmt = "turtle" \/ inFmt = "" /\ filepath_Ext inFile = ".ttl" ->
  quad_format outFmt = Some out -> (forall q, write_error out q = None) ->
  let quads := map quad_of (parseTurtle content) in
  convert inFile outFile inFmt outFmt fs
  = (<[outFile := encode out quads]> fs,
     Ok ("Converted " +:+ pretty (Z.of_nat (List.length quads)) +:+ " quads to " +:+ outFile +:+ nl)) /\
  Forall (fun '(_, p, _) => exists v, p = QIRI v /\ colon_free v = true) quads.
Proof.
  intros Hin Hne Hc Hext Hfmt Hout Hw quads. split.
  - unfold convert_Run, open_file. rewrite Hin, Hc, Hout.
    assert (input_format inFmt inFile = Ok "turtle") as ->.
    { unfold input_format. destruct Hfmt as [-> |[-> ->]]; done. }
    rewrite convert_copy_turtle.
    assert (ParseGraphFile lower missing (<[outFile:=""]> fs) inFile = Ok (parseTurtle content)) as ->.
    { unfold ParseGraphFile, open_file. rewrite Hext, lookup_insert_ne, Hin by done. done. }
    rewrite copy_triples_all by done. rewrite insert_insert_eq. unfold quads. by rewrite length_map.
  - unfold quads. apply Forall_map. eapply Forall_impl; [by apply turtle_predicates_colon|]. intros t Ht.
    exists (trim_cut (trim_space (tr_Predicate t)) "<>"). split; [done|]. by apply all_bytes_trim_cut, all_bytes_trim_space.
Qed.

(** Converting a file onto itself loses it: the output file is truncated
    before the input is read, so the result is an empty graph, reported as a
    success. *)
Theorem convert_in_place_empties file outFmt out content fs :
  fs !! file = Some content -> filepath_Ext file = ".ttl" -> create_error file = None -> quad_format outFmt = Some out ->
  convert file file "" outFmt fs
  = (<[file := encode out []]> fs, Ok ("Converted 0 quads to " +:+ file +:+ nl)).
Proof.
  intros Hin Hext Hc Hout. unfold convert_Run, open_file. rewrite Hin, Hc, Hout.
  assert (input_format "" file = Ok "turtle") as -> by (unfold input_format; by rewrite Hext).
  rewrite convert_copy_turtle.
  assert (ParseGraphFile lower missing (<[file:=""]> fs) file = Ok (parseTurtle "")) as ->
    by (unfold ParseGraphFile, open_file; by rewrite Hext, lookup_insert_eq).
  change (parseTurtle "") with (@nil Triple). cbn [copy_triples]. by rewrite insert_insert_eq.
Qed.

(** The output file is gone before the formats are checked: an output format
    the command does not know leaves it empty. *)
Theorem unknown_output_truncates inFile outFile inFmt outFmt content fmt fs :
  fs !! inFile = Some content -> input_format inFmt inFile = Ok fmt -> create_error outFile = None -> quad_format outFmt = None ->
  convert inFile outFile inFmt outFmt fs = (<[outFile := ""]> fs, Err (EText ("unsupported output format: " +:+ outFmt))).
Proof. intros Hin Hf Hc Hout. unfold convert_Run, open_file. by rewrite Hin, Hf, Hc, Hout. Qed.

(** [--from turtle] does not choose the reader: the extension does, so a
    Turtle file under another name is refused although its format was named. *)
Theorem from_turtle_follows_extension inFile outFile outFmt out content fs :
  fs !! inFile = Some content -> create_error outFile = None -> quad_format outFmt = Some out ->
  to_lower lower (filepath_Ext inFile) ∉ [".nq"; ".nt"; ".ttl"] ->
  exists e, snd (convert inFile outFile "turtle" outFmt fs) = Err e.
Proof.
  intros Hin Hc Hout Hext. unfold convert_Run, open_file. rewrite Hin, Hc, Hout.
  assert (input_format "turtle" inFile = Ok "turtle") as -> by done. rewrite convert_copy_turtle. unfold ParseGraphFile.
  repeat match goal with |- context [String.eqb ?a ?b] => destruct (String.eqb_spec a b) as [E|]; [exfalso; apply Hext; rewrite E; set_solver|] end.
  by eexists.
Qed.
End Conversion.

(** ** Names of a skill *)

Lemma split_on_app c a b : split_on c (a +:+ String c b) = (split_on c a ++ split_on c b)%list.
Proof.
  induction a as [|d a IH].
  { change ("" +:+ String c b) with (String c b). cbn [split_on]. by rewrite Ascii.eqb_refl. }
  change (String d a +:+ String c b) with (String d (a +:+ String c b)). cbn [split_on]. rewrite IH.
  destruct (Ascii.eqb d c); [done|]. destruct (split_on c a) eqn:Hs; [by apply split_on_not_nil in Hs|done].
Qed.

Section Names.
Context (unicode_word : string -> bool) (unicode_to_lower : string -> string).
Local Abbreviation word := (is_word_rune unicode_word).
Local Abbreviation low := (lower_rune unicode_to_lower).

(** The words of a name: the maximal runs of letters and digits. *)
Fixpoint word_runs (cur : list string) (l : list string) : list (list string) :=
  match l with
  | [] => match cur with [] => [] | _ => [cur] end
  | r :: rest =>
      if word r then word_runs (cur ++ [r]) rest
      else match cur with [] => word_runs [] rest | _ => cur :: word_runs [] rest end
  end.
Definition words (name : string) : list (list string) := word_runs [] (runes name).

Definition text_of (w : list string) : string := String.concat "" w.
Definition lower_word (w : list string) : string := text_of (map low w).

(** Letters and digits stay clear of the separator when lowered. *)
Definition separable : Prop :=
  forall r, word r = true -> low r <> "" /\ without "_" (low r).

Lemma text_of_app a b : text_of (a ++ b) = text_of a +:+ text_of b.
Proof.
  unfold text_of. induction a as [|x a IH]; [done|].
  assert (forall (y : string) l, String.concat "" (y :: l) = y +:+ String.concat "" l) as Hc.
  { intros y [|z l]; [by rewrite str_app_nil_r|done]. }
  change ((x :: a) ++ b)%list with (x :: (a ++ b))%list. by rewrite !Hc, IH, str_app_assoc.
Qed.

Lemma snake_runs pre l :
  exists tail, lower_word pre +:+ snake_runes unicode_word unicode_to_lower (bool_decide (pre = [])) l
    = join "_" (map lower_word (word_runs pre l)) +:+ tail /\ (tail = "" \/ tail = "_" /\ word_runs pre l <> []).
Proof.
  revert pre. induction l as [|r l IH]; intros pre; cbn [snake_runes word_runs].
  { exists "". split; [|by left]. by destruct pre. }
  destruct (word r) eqn:Hr.
  - destruct (IH (pre ++ [r])%list) as (tail & He & Ht). exists tail. split; [|done]. rewrite <- He.
    rewrite bool_decide_eq_false_2 by (by destruct pre). unfold lower_word. rewrite map_app, text_of_app, str_app_assoc. cbn [map].
    unfold text_of at 3. cbn [String.concat]. done.
  - destruct pre as [|p pre].
    + rewrite bool_decide_eq_true_2 by done. destruct (IH []) as (tail & He & Ht). by exists tail.
    + rewrite bool_decide_eq_false_2 by done. destruct (IH []) as (tail & He & Ht). rewrite bool_decide_eq_true_2 in He by done.
      change (lower_word [] +:+ ?x) with x in He. rewrite He. cbn [map].
      destruct (word_runs [] l) as [|w ws] eqn:Hw.
      * destruct Ht as [-> |[_ ?]]; [|done]. exists "_". cbn [map join]. split; [done|by right].
      * exists tail. split; [|by destruct Ht as [->|[-> _]]; [left|right]].
        cbn [map join]. by rewrite <- !str_app_assoc.
Qed.

Lemma word_runs_words pre l :
  Forall (fun r => word r = true) pre ->
  Forall (fun w => w <> [] /\ Forall (fun r => word r = true) w) (word_runs pre l).
Proof.
  revert pre. induction l as [|r l IH]; intros pre Hp; cbn [word_runs].
  { destruct pre as [|x pre]; [constructor|]. constructor; [by split|constructor]. }
  destruct (word r) eqn:Hr; [apply IH, Forall_app; by split; [|constructor]|].
  destruct pre; [by apply IH|]. constructor; [done|by apply IH].
Qed.

Lemma trim_left_id s c t : s = String c t -> c <> "_"%char -> trim_left_cut "_" s = s.
Proof.
  intros -> Hc. cbn [trim_left_cut]. assert (in_cutset "_" c = false) as ->; [|done].
  unfold in_cutset, contains. cbn [index_of]. unfold has_prefix. cbn [String.prefix]. repeat case_match; simplify_eq; done.
Qed.

Lemma join_ends (ws : list string) :
  ws <> [] -> Forall (fun w => w <> "" /\ without "_" w) ws ->
  (exists c t, join "_" ws = String c t /\ c <> "_"%char) /\ (exists c t, str_rev (join "_" ws) = String c t /\ c <> "_"%char).
Proof.
  assert (forall w, w <> "" -> without "_" w -> exists c t, w = String c t /\ c <> "_"%char) as Hhd.
  { intros [|c t] Hne Hw; [done|]. exists c, t. split; [done|]. unfold without in Hw. cbn [all_bytes] in Hw.
    apply andb_true_iff in Hw as [Hc _]. by apply negb_true_iff, Ascii.eqb_neq in Hc. }
  intros Hne Hall. split.
  - destruct ws as [|w ws]; [done|]. apply Forall_cons in Hall as [[Hw1 Hw2] _].
    destruct (Hhd w Hw1 Hw2) as (c & t & -> & Hc). destruct ws as [|v ws]; [by exists c, t|].
    exists c, (t +:+ "_" +:+ join "_" (v :: ws)). by split.
  - induction ws as [|w ws IH]; [done|]. apply Forall_cons in Hall as [[Hw1 Hw2] Hall].
    destruct ws as [|v ws].
    + cbn [join]. apply Hhd; [|unfold without; by rewrite all_bytes_rev]. intros E. apply Hw1.
      by rewrite <- (str_rev_involutive w), E.
    + destruct (IH ltac:(done) Hall) as (c & t & He & Hc).
      change (join "_" (w :: v :: ws)) with (w +:+ ("_" +:+ join "_" (v :: ws))). rewrite str_rev_cat, str_rev_cat, He.
      exists c, ((t +:+ str_rev "_") +:+ str_rev w). by split.
Qed.

(** The directory name of a skill is its words in lower case, joined by
    underscores, whatever separates them in the given name. *)
Theorem toSnake_words name :
  separable -> toSnake unicode_word unicode_to_lower name = join "_" (map lower_word (words name)).
Proof.
  intros Hsep. unfold toSnake, words. destruct (snake_runs [] (runes name)) as (tail & He & Ht).
  rewrite bool_decide_eq_true_2 in He by done. change (lower_word [] +:+ ?x) with x in He. rewrite He. clear He.
  pose proof (word_runs_words [] (runes name) ltac:(constructor)) as Hw.
  destruct (word_runs [] (runes name)) as [|w ws] eqn:Hr.
  { destruct Ht as [-> |[_ ?]]; done. }
  destruct (join_ends (map lower_word (w :: ws))) as ((c & t & Hj & Hc) & (d & u & Hj' & Hd)); [done| |].
  { apply Forall_map. eapply Forall_impl; [exact Hw|]. intros v [Hne Hv]. unfold lower_word. split.
    - destruct v as [|r v]; [done|]. apply Forall_cons in Hv as [Hr' _]. destruct (Hsep r Hr') as [Hn _].
      change (r :: v) with ([r] ++ v)%list. rewrite map_app, text_of_app. change (text_of (map low [r])) with (low r). by destruct (low r).
    - clear Hne. induction Hv as [|r v Hr' Hv IH]; [done|]. change (r :: v) with ([r] ++ v)%list. rewrite map_app, text_of_app.
      unfold without. rewrite all_bytes_cat. change (text_of (map low [r])) with (low r). rewrite IH. rewrite (proj2 (Hsep r Hr')). done. }
  unfold trim_cut. rewrite (trim_left_id (join "_" (map lower_word (w :: ws)) +:+ tail) c (t +:+ tail)); [|by rewrite Hj|done].
  rewrite str_rev_cat.
  assert (trim_left_cut "_" (str_rev tail +:+ str_rev (join "_" (map lower_word (w :: ws))))
          = str_rev (join "_" (map lower_word (w :: ws)))) as ->.
  { destruct Ht as [-> |[-> _]].
    - change (str_rev "") with "". change ("" +:+ ?x) with x. by apply (trim_left_id _ d u).
    - change (str_rev "_") with "_". change ("_" +:+ ?x) with (String "_" x). cbn [trim_left_cut].
      change (in_cutset "_" "_") with true. cbv iota. by apply (trim_left_id _ d u). }
  apply str_rev_involutive.
Qed.

(** The type name is the same words, each with its first byte in upper case. *)
Theorem toPascal_words name :
  toPascal unicode_word name = text_of (map (fun w => capitalise (text_of w)) (words name)).
Proof.
  unfold toPascal, words, text_of at 1. f_equal.
  assert (forall l pre, Forall (fun r => word r = true) pre -> fields_func unicode_word (text_of pre) l = map text_of (word_runs pre l)) as H.
  { induction l as [|r l IH]; intros pre Hp; cbn [fields_func word_runs].
    all: assert (String.eqb (text_of pre) "" = match pre with [] => true | _ => false end) as Hz
      by (destruct pre as [|x pre]; [done|]; apply Forall_cons in Hp as [Hx _]; change (x :: pre) with ([x] ++ pre)%list;
          rewrite text_of_app; change (text_of [x]) with x; by destruct x).
    - rewrite Hz. by destruct pre.
    - destruct (word r) eqn:Hr.
      + rewrite <- IH by (apply Forall_app; by split; [|constructor]). by rewrite text_of_app.
      + rewrite Hz. destruct pre; [by apply (IH [])|]. cbn [map]. f_equal. by apply (IH []). }
  change (runes name) with (runes name). rewrite <- (map_map text_of capitalise). f_equal. apply (H _ []). constructor.
Qed.
End Names.

(** ** Scaffolding *)

(** An element of a path that [path.Clean] keeps. *)
Definition plain_elem (n : string) : Prop := without "/" n /\ n <> "" /\ n <> "." /\ n <> "..".

Lemma clean_elems_snoc rooted acc l n :
  plain_elem n -> clean_elems rooted acc (l ++ [n]) = (clean_elems rooted acc l ++ [n])%list.
Proof.
  intros (_ & H1 & H2 & H3). revert acc. induction l as [|e l IH]; intros acc; cbn [app clean_elems].
  - destruct (String.eqb_spec n ""), (String.eqb_spec n "."), (String.eqb_spec n ".."); try done. cbn [orb]. by rewrite reverse_cons.
  - destruct (String.eqb e "" || String.eqb e "."); [apply IH|]. destruct (String.eqb e ".."); [|apply IH].
    destruct acc as [|x acc]; [by destruct rooted|]. destruct (String.eqb x ".."); apply IH.
Qed.

Lemma str_app_inj (a b c : string) : a +:+ b = a +:+ c -> b = c.
Proof. induction a as [|d a IH]; [done|]. intros [= H]. by apply IH. Qed.

Lemma join_snoc_inj sep l n m : join sep (l ++ [n]) = join sep (l ++ [m]) -> n = m.
Proof.
  induction l as [|x l IH]; [done|]. cbn [app join].
  destruct (l ++ [n])%list eqn:H1; [by destruct l|]. destruct (l ++ [m])%list eqn:H2; [by destruct l|].
  intros H%str_app_inj%str_app_inj. by apply IH.
Qed.

Lemma join_snoc_not_nil sep l n : n <> "" -> join sep (l ++ [n]) <> "".
Proof.
  intros Hn. induction l as [|x l IH]; [done|]. cbn [app join]. destruct (l ++ [n])%list; [by destruct l|].
  destruct x; [|done]. destruct sep; [done|done].
Qed.

Lemma filepath_Join_elems dir n : plain_elem n ->
  exists (rooted : bool) elems, filepath_Join dir n = (if rooted then "/" else "") +:+ join "/" (elems ++ [n]) /\
    rooted = has_prefix dir "/" /\ elems = (if String.eqb dir "" then [] else clean_elems rooted [] (split_on "/" dir)).
Proof.
  intros Hn. pose proof Hn as (Hw & Hne & _). unfold filepath_Join. destruct (String.eqb_spec dir "") as [-> |Hd].
  - destruct (String.eqb_spec n ""); [done|]. unfold filepath_Clean. rewrite split_on_without by done.
    assert (has_prefix n "/" = false) as ->.
    { destruct (has_prefix n "/") eqn:Hp; [|done]. apply has_prefix_spec in Hp as [r ->]. by vm_compute in Hw. }
    exists false, []. pose proof (clean_elems_snoc false [] [] n Hn) as He. cbn [app] in He. rewrite He.
    change (clean_elems false [] [] ++ [n])%list with [n]. cbn [join app].
    destruct (String.eqb_spec n ""); [done|]. by split_and!.
  - exists (has_prefix dir "/"), (clean_elems (has_prefix dir "/") [] (split_on "/" dir)). split_and!; [|done..].
    unfold filepath_Clean. change (dir +:+ "/" +:+ n) with (dir +:+ String "/" n).
    rewrite split_on_app, (split_on_without _ n) by done. rewrite clean_elems_snoc by done.
    assert (has_prefix (dir +:+ String "/" n) "/" = has_prefix dir "/") as ->.
    { destruct dir as [|a d]; [done|]. change (String a d +:+ String "/" n) with (String a (d +:+ String "/" n)).
      unfold has_prefix. cbn [String.prefix]. destruct (ascii_dec _ _); [by destruct (d +:+ String "/" n), d|done]. }
    destruct (has_prefix dir "/"); [done|].
    destruct (String.eqb_spec (join "/" (clean_elems false [] (split_on "/" dir) ++ [n])) "") as [E|]; [|done].
    by apply join_snoc_not_nil in E.
Qed.

Lemma filepath_Join_inj dir n m : plain_elem n -> plain_elem m -> filepath_Join dir n = filepath_Join dir m -> n = m.
Proof.
  intros Hn Hm. destruct (filepath_Join_elems dir n Hn) as (r & l & -> & -> & ->).
  destruct (filepath_Join_elems dir m Hm) as (r & l & -> & -> & ->). intros H%str_app_inj. by eapply join_snoc_inj.
Qed.

Section Scaffold.
Context `{GoRange} (unicode_word : string -> bool) (unicode_to_lower : string -> string)
        (mkdir_error write_error : string -> option error) (render_template : string -> skillData -> res error string).

Local Abbreviation scaffold := (runNew unicode_word unicode_to_lower mkdir_error write_error render_template).

Lemma render_all_ok dir data l fs fs' :
  NoDup l.*1 -> Forall plain_elem l.*1 ->
  render_all write_error render_template dir data l fs = (fs', None) ->
  sf_dirs fs' = sf_dirs fs /\
  (forall out tmpl, (out, tmpl) ∈ l -> exists text, render_template tmpl data = Ok text /\
     sf_files fs' !! filepath_Join dir out = Some text) /\
  (forall p, (forall out, out ∈ l.*1 -> p <> filepath_Join dir out) -> sf_files fs' !! p = sf_files fs !! p).
Proof.
  revert fs. induction l as [|[out tmpl] l IH]; intros fs Hnd Hpl; cbn [render_all].
  { intros [= <-]. split_and!; [done|by intros ? ? ?%elem_of_nil|done]. }
  cbn [fmap list_fmap fst] in *. apply NoDup_cons in Hnd as [Hout Hnd]. apply Forall_cons in Hpl as [Ho Hpl].
  unfold renderFile. destruct (render_template tmpl data) as [text|e] eqn:Ht; [|done].
  destruct (write_error _); [done|]. intros Hr. destruct (IH _ Hnd Hpl Hr) as (Hd & Hall & Hoth). cbn [sf_files sf_dirs] in *.
  split_and!; [done| |].
  - intros o t [[= -> ->]|Hin]%elem_of_cons; [|by apply Hall]. exists text. split; [done|]. rewrite Hoth; [by rewrite lookup_insert_eq|].
    intros o' Ho' E%filepath_Join_inj; [by subst|done|]. by eapply Forall_forall in Hpl; [|exact Ho'].
  - intros p Hp. rewrite Hoth by (intros o Hin; apply Hp; by right). apply lookup_insert_ne. intros E. by apply (Hp out); [left|].
Qed.

Lemma skill_files_plain out : out ∈ dom skill_files -> plain_elem out.
Proof.
  unfold skill_files. rewrite !dom_insert_L, dom_singleton_L. intros Hin.
  assert (out = "main.go" \/ out = "main_test.go" \/ out = "policy.dl") as [-> |[-> | ->]] by set_solver;
    (split; [unfold without; vm_compute; reflexivity|by split_and!]).
Qed.

(** Scaffolding writes exactly the three files of the skill: on success each
    holds its rendered template, every other file is as before, and without
    [--force] the directory did not exist. *)
Theorem scaffold_writes flagDir force name fs fs' :
  scaffold flagDir force name fs = (fs', None) ->
  let dir := filepath_Join flagDir (toSnake unicode_word unicode_to_lower name) in
  let data := {| sk_Name := name; sk_Pascal := toPascal unicode_word name; sk_Snake := toSnake unicode_word unicode_to_lower name |} in
  (force = false -> path_exists dir fs = false) /\
  (forall out tmpl, skill_files !! out = Some tmpl ->
     exists text, render_template tmpl data = Ok text /\ sf_files fs' !! filepath_Join dir out = Some text) /\
  (forall p, (forall out, out ∈ dom skill_files -> p <> filepath_Join dir out) -> sf_files fs' !! p = sf_files fs !! p).
Proof.
  intros Hr dir data. unfold runNew in Hr. destruct (String.eqb (toSnake _ _ name) ""); [done|]. fold dir data in Hr.
  destruct (path_exists dir fs && negb force) eqn:Hex; [done|]. destruct (mkdir_error dir); [done|].
  destruct (render_all_ok _ _ _ _ _ (NoDup_range skill_files) ltac:(
    apply Forall_forall; intros o (t & -> & Hin)%list_elem_of_fmap; destruct t as [o t]; apply elem_of_range in Hin;
    apply skill_files_plain, elem_of_dom; by exists t) Hr) as (_ & Hall & Hoth).
  split_and!.
  - intros ->. by rewrite andb_true_r in Hex.
  - intros out tmpl Hl. apply Hall. by apply elem_of_range.
  - intros p Hp. rewrite Hoth; [done|]. intros o ([o' t] & -> & Hin)%list_elem_of_fmap. apply Hp.
    apply elem_of_range in Hin. apply elem_of_dom. by exists t.
Qed.

(** Nothing is touched when the name has no letter or digit, or the directory
    exists and [--force] was not given. *)
Theorem scaffold_refuses flagDir force name fs :
  toSnake unicode_word unicode_to_lower name = "" \/
  path_exists (filepath_Join flagDir (toSnake unicode_word unicode_to_lower name)) fs = true /\ force = false ->
  exists e, scaffold flagDir force name fs = (fs, Some e).
Proof.
  unfold runNew. intros [-> |[Hex ->]]; [by eexists|]. destruct (String.eqb _ ""); [by eexists|]. rewrite Hex. by eexists.
Qed.
End Scaffold.

(** Names that scaffold to no Go program: the type name may start with a
    digit, and a first letter above 127 is broken apart into U+FFFD and a stray
    continuation byte, although the directory name keeps it. *)
Theorem names_that_do_not_compile :
  let letters := fun _ : string => true in
  toPascal letters "3d-scan" = "3dScan" /\
  toPascal letters (String (byte 195) (String (byte 169) "lan"))
    = String (byte 239) (String (byte 191) (String (byte 189) (String (byte 169) "lan"))) /\
  toSnake letters id (String (byte 195) (String (byte 169) "lan")) = String (byte 195) (String (byte 169) "lan").
Proof. split_and!; by_vm. Qed.

(** ** The declaration the prompt demands *)

Definition mandated : string := "Decl violation_rule(Entity, RuleID).".

Lemma replace_absent c r new s : without c s -> replace_all (String c r) new s = s.
Proof.
  unfold replace_all. induction s as [|d s IH]; [done|]. intros [Hd Hs]%without_cons. cbn [replace_all_aux].
  assert (has_prefix (String d s) (String c r) = false) as ->.
  { unfold has_prefix. cbn [String.prefix]. destruct (ascii_dec c d); [by subst|done]. }
  by rewrite IH.
Qed.

Lemma split_on_all f c s : all_bytes f s = true -> Forall (fun l => all_bytes f l = true) (split_on c s).
Proof.
  induction s as [|d s IH]; [by repeat constructor|]. cbn [all_bytes split_on]. intros [Hd Hs]%andb_true_iff.
  specialize (IH Hs). destruct (Ascii.eqb d c); [by constructor|].
  destruct (split_on c s) as [|x xs]; [constructor; [|done]; cbn [all_bytes]; by rewrite Hd|].
  apply Forall_cons in IH as [Hx Hxs]. constructor; [cbn [all_bytes]; by rewrite Hd, Hx|done].
Qed.

Lemma split_on_parts c s : Forall (without c) (split_on c s).
Proof.
  induction s as [|d s IH]; [by repeat constructor|]. cbn [split_on]. destruct (Ascii.eqb d c) eqn:Hd; [by constructor|].
  destruct (split_on c s) as [|x xs]; [constructor; [apply without_cons; split; [by apply Ascii.eqb_neq|done]|done]|].
  apply Forall_cons in IH as [Hx Hxs]. constructor; [apply without_cons; split; [by apply Ascii.eqb_neq|done]|done].
Qed.

Lemma all_bytes_cut_comment f prev q s : all_bytes f s = true -> all_bytes f (cut_comment prev q s) = true.
Proof.
  revert prev q. induction s as [|c s IH]; intros prev q; [done|]. cbn [all_bytes]. intros [Hc Hs]%andb_true_iff.
  cbn [cut_comment]. case_match; [done|]. cbn [all_bytes]. rewrite Hc. by apply IH.
Qed.

Lemma clean_line_all f l l' : all_bytes f l = true -> clean_line l = Some l' -> all_bytes f l' = true.
Proof.
  unfold clean_line. intros Hl. repeat case_match; try done. intros [= <-]. by apply all_bytes_cut_comment.
Qed.

Lemma ascii_no_bom a x : is_ascii_str a = true -> has_prefix (a +:+ nl +:+ x) bom = false.
Proof.
  intros Ha. destruct (has_prefix (a +:+ nl +:+ x) bom) eqn:Hp; [|done]. apply has_prefix_spec in Hp as [r Hr].
  destruct a as [|c a]; [done|]. injection Hr as -> _. by vm_compute in Ha.
Qed.

(** Lines of a text that are the given one. *)
Abbreviation occurrences l text := (count_occ string_dec (split_on c_nl text) l).

Lemma occurrences_clean l text :
  has_prefix text bom = false -> without c_cr text -> without c_nl l -> clean_line l = Some l ->
  (occurrences l text <= occurrences l (cleanSource text))%nat.
Proof.
  intros Hb Hcr Hl Hc. unfold cleanSource. rewrite Hb, (replace_absent c_cr nl nl text Hcr).
  set (lines := split_on c_nl text). assert (Forall (without c_nl) lines) as Hparts by apply split_on_parts. clearbody lines.
  destruct (omap clean_line lines) as [|x xs] eqn:Hom.
  - assert (l ∉ lines) as Hnin.
    { intros Hin. assert (l ∈ omap clean_line lines) as Hin' by (apply list_elem_of_omap; by exists l). rewrite Hom in Hin'.
      by apply elem_of_nil in Hin'. }
    rewrite (proj1 (count_occ_not_In string_dec lines l)); [lia|]. by rewrite <- list_elem_of_In.
  - rewrite <- Hom, split_join; [|by rewrite Hom|].
    + clear Hom. induction lines as [|y lines IH]; [done|]. apply Forall_cons in Hparts as [_ Hparts]. specialize (IH Hparts).
      cbn [count_occ omap list_omap]. destruct (string_dec y l) as [-> |Hne].
      * rewrite Hc. cbn [count_occ]. destruct (string_dec l l); [lia|done].
      * destruct (clean_line y); [|done]. cbn [count_occ]. destruct (string_dec s l); lia.
    + apply Forall_forall. intros y (z & Hz & Hy)%list_elem_of_omap. eapply clean_line_all; [|exact Hy].
      by eapply Forall_forall in Hparts; [|exact Hz].
Qed.

Lemma kept_lines text kept :
  Forall (without c_nl) kept ->
  split_on c_nl (fold_right (fun l acc => l +:+ nl +:+ acc) text kept) = (kept ++ split_on c_nl text)%list.
Proof.
  induction 1 as [|l kept Hl _ IH]; [done|]. cbn [fold_right app].
  change (l +:+ nl +:+ ?x) with (l +:+ String c_nl x). by rewrite split_on_cut, IH.
Qed.

Lemma occurrences_app a b l : occurrences l (a +:+ nl +:+ b) = (occurrences l a + occurrences l b)%nat.
Proof. change (a +:+ nl +:+ b) with (a +:+ String c_nl b). by rewrite split_on_app, count_occ_app. Qed.

(** The merge of the standard library drops none of the caller's lines. *)
Lemma occurrences_prepend l std rest decls ext :
  (occurrences l (std +:+ nl +:+ rest) <= occurrences l (prependStdLibIfMissing std (std +:+ nl +:+ rest) decls ext))%nat.
Proof.
  unfold prependStdLibIfMissing. destruct (_ && _).
  - rewrite (occurrences_app std (std +:+ nl +:+ rest)). lia.
  - rewrite kept_lines; [rewrite count_occ_app; lia|]. apply Forall_forall. intros x [Hx _]%filter_std_kept.
    pose proof (split_on_parts c_nl std) as Hp. by eapply Forall_forall in Hp.
Qed.

Lemma prepend_bytes f std source decls ext :
  f c_nl = true -> all_bytes f std = true -> all_bytes f source = true ->
  all_bytes f (prependStdLibIfMissing std source decls ext) = true.
Proof.
  intros Hn Hs Ht. assert (all_bytes f nl = true) as Hnl by (unfold nl; cbn [all_bytes]; by rewrite Hn).
  unfold prependStdLibIfMissing. destruct (_ && _); [by rewrite !all_bytes_cat, Hs, Ht, Hnl|].
  {
    assert (Forall (fun l => all_bytes f l = true) (filter_std decls ext false (split_on c_nl std))) as Hk.
    { apply Forall_forall. intros x [Hx _]%filter_std_kept. pose proof (split_on_all f c_nl std Hs) as Hp. by eapply Forall_forall in Hp. }
    induction Hk as [|l ls Hl _ IH]; [done|]. cbn [fold_right]. by rewrite !all_bytes_cat, Hl, IH, Hnl. }
Qed.

Lemma prepend_no_bom std rest decls ext :
  is_ascii_str std = true -> has_prefix (prependStdLibIfMissing std (std +:+ nl +:+ rest) decls ext) bom = false.
Proof.
  intros Ha. unfold prependStdLibIfMissing. destruct (_ && _); [by apply ascii_no_bom|].
  destruct (filter_std _ _ _ _) as [|l ls] eqn:Hf; [by apply ascii_no_bom|]. cbn [fold_right]. apply ascii_no_bom.
  assert (l ∈ filter_std decls ext false (split_on c_nl std)) as [Hx _]%filter_std_kept by (rewrite Hf; by left).
  pose proof (split_on_all (fun c => (bval c <? 128)%Z) c_nl std Ha) as Hp. by eapply Forall_forall in Hp.
Qed.

(** An answer that obeys the prompt is validated as a program that declares
    the predicate twice: once in the standard library the validation prepends,
    once in the answer.  So it is only accepted by a parser and an analyser
    that accept the repeated declaration, which the merge of the standard
    library exists to avoid. *)
Theorem mandated_declaration_repeated {St : Type} `{FactStore St} `{!Mangle St} std ctx datalog decls :
  is_ascii_str std = true -> without c_cr std -> without c_cr decls -> without c_cr datalog ->
  mandated ∈ split_on c_nl std -> mandated ∈ split_on c_nl datalog ->
  ValidatePolicySyntax (St := St) std ctx datalog decls = None ->
  exists text u pi, parse_unit text = Ok u /\ analyze [u] (external_decls ∅ [u]) = Ok pi /\ (2 <= occurrences mandated text)%nat.
Proof.
  intros Ha Hs Hd Hl Hin1 Hin2. unfold ValidatePolicySyntax, LoadFromSource, ReloadFromSource.
  set (source := std +:+ nl +:+ decls +:+ nl +:+ datalog).
  destruct (String.eqb_spec source ""); [done|].
  change (cfg_external (rt_cfg NewMangleRuntime)) with (∅ : gset string).
  change (rt_persistentUnits NewMangleRuntime) with (@nil SourceUnit).
  set (combined := prependStdLibIfMissing std source _ ∅).
  destruct (parse_unit (cleanSource combined)) as [u|e] eqn:Hp; [|done]. unfold analyze_units.
  destruct (analyze [u] (external_decls ∅ [u])) as [pi|e] eqn:Han; [|done]. intros _.
  exists (cleanSource combined), u, pi. split_and!; [done..|].
  assert (2 <= occurrences mandated source)%nat as Hc.
  { unfold source. rewrite !occurrences_app.
    assert (0 < occurrences mandated std)%nat by (apply count_occ_In; by apply list_elem_of_In).
    assert (0 < occurrences mandated datalog)%nat by (apply count_occ_In; by apply list_elem_of_In). lia. }
  assert (occurrences mandated source <= occurrences mandated combined)%nat by apply occurrences_prepend.
  assert (occurrences mandated combined <= occurrences mandated (cleanSource combined))%nat; [|lia].
  apply occurrences_clean; [by apply prepend_no_bom| |unfold without; by vm_compute|by vm_compute].
  apply prepend_bytes; [done|exact Hs|]. unfold source. rewrite !all_bytes_cat.
  unfold without in *. rewrite Hs, Hd, Hl. done.
Qed.
