(* ===== verification/Doubles.v ===== *)
(** * In-memory providers and test doubles

    [providers/memory/inmem/store.go]: the agent memory that needs no vector
    store; [testutil/testutil.go]: the scripted model, the embedders and the
    state provider; and the stream of [adapters/ai/genkit.go].

    JSON is the codec of [Session]; what [genkit.Generate] streams is a
    parameter.

    Its properties:
    What the in-memory memory recalls, what the scripted model answers, where
    an embedder called deterministic is not, what the state provider forgets,
    and what a Genkit stream delivers. *)
From S2P Require Import Prelude GoStrings CoreErrors CoreTypes Facts CircuitBreaker Float64 Session AgentLoop Genes GenesProps Memory Generators Architect ToolCommandsProps.
From Stdlib Require Import Ascii String SpecFloat.
Open Scope string_scope.

(** ** The in-memory agent memory *)

Record InMemStore := { im_facts : list string; im_history : gmap string (list Message) }.

Definition inmem_New : InMemStore := {| im_facts := []; im_history := ∅ |}.

Definition inmem_Read (sessionID : string) (m : InMemStore) : list Message := default [] (im_history m !! sessionID).

Definition inmem_Append (sessionID : string) (msgs : list Message) (m : InMemStore) : InMemStore :=
  {| im_facts := im_facts m; im_history := <[sessionID := (default [] (im_history m !! sessionID) ++ msgs)%list]> (im_history m) |}.

Section Recall.
Context (unicode_lower : string -> string).

(** The words of a query that count: longer than three bytes. *)
Definition query_tokens (query : string) : list string := split_on c_sp (to_lower unicode_lower query).

Definition token_hits (tokens : list string) (fact : string) : Z :=
  fold_left (fun score t => if (3 <? String.length t)%nat && contains (to_lower unicode_lower fact) t then (score + 1)%Z else score)
    tokens 0%Z.

Definition relevant_facts (query : string) (facts : list string) : list string :=
  List.filter (fun fact => (0 <? token_hits (query_tokens query) fact)%Z) facts.

Definition inmem_Recall (query : string) (m : InMemStore) : string :=
  match relevant_facts query (im_facts m) with
  | [] => ""
  | relevant => "Relevant Past Memory:" +:+ nl +:+ "- " +:+ join (nl +:+ "- ") relevant
  end.
End Recall.

Definition qa_fact (query answer : string) : string := "Q: " +:+ query +:+ " | A: " +:+ answer.

Definition inmem_Memorize (query answer : string) (m : InMemStore) : InMemStore :=
  {| im_facts := (im_facts m ++ [qa_fact query answer])%list; im_history := im_history m |}.

(** The store as the agent memory of the loop. *)
Definition inmem_memory (unicode_lower : string -> string) : AgentMemory InMemStore :=
  {| am_history := {| hs_Read sid m := (m, Ok (inmem_Read sid m)); hs_Append sid msgs m := (inmem_Append sid msgs m, None) |};
     am_Recall query m := (m, Ok (inmem_Recall unicode_lower query m));
     am_RecallWithFacts := None |}.

(** ** The scripted model *)

Record MockLLM := { ml_responses : list string; ml_prompts : list string }.

Definition NewMockLLM (responses : list string) : MockLLM := {| ml_responses := responses; ml_prompts := [] |}.

Definition mock_next (prompt : string) (m : MockLLM) : MockLLM * string :=
  let prompts := (ml_prompts m ++ [prompt])%list in
  ({| ml_responses := ml_responses m; ml_prompts := prompts |},
   match ml_responses m with
   | [] => ""
   | rs => if (List.length rs <? List.length prompts)%nat then default "" (rs !! (List.length rs - 1)%nat)
           else default "" (rs !! (List.length prompts - 1)%nat)
   end).

Definition mock_Complete (prompt : string) (m : MockLLM) : MockLLM * res error string :=
  let '(m1, text) := mock_next prompt m in (m1, Ok text).

Definition mock_llm_Generate (prompt : string) (m : MockLLM) : MockLLM * res error LLMResponse :=
  let '(m1, text) := mock_next prompt m in
  (m1, Ok {| lr_Text := text;
             lr_Usage := {["prompt" := Z.of_nat (String.length prompt); "completion" := Z.of_nat (String.length text)]} |}).

Definition mock_Stream (prompt : string) (m : MockLLM) : MockLLM * res error (list StreamChunk) :=
  let '(m1, text) := mock_next prompt m in (m1, Ok [{| ck_Text := text; ck_Err := None |}]).

Definition mock_Calls (m : MockLLM) : Z := Z.of_nat (List.length (ml_prompts m)).

(** [MockLLM] as a [core.TextGenerator]. *)
Definition mock_generator : @TextGenerator MockLLM :=
  {| tg_Complete := fun _ => mock_Complete; tg_Stream := fun _ => mock_Stream |}.

(** ** Embedders *)

Record DeterministicEmbedder := { de_Dim : Z; de_VecFor : string -> list float32 }.

Definition f32_of_nat (n : nat) : float32 := binary_normalize 24 128 (Z.of_nat n) 0 false.

(** [int(l)] of the single-precision length is the length it was rounded to;
    lengths below 2^24 are exact. *)
Definition f32_to_Z (x : float32) : Z :=
  match x with S754_finite s m e => (if s then -1 else 1) * Z.shiftl (Z.pos m) e | _ => 0 end%Z.

Definition length_vector (text : string) : list float32 :=
  let l := f32_of_nat (String.length text) in
  [f32_div l (f32_of_nat 100); f32_div (f32_of_nat (Z.to_nat (Z.rem (f32_to_Z l) 10))) (f32_of_nat 10)].

Definition NewLengthEmbedder : DeterministicEmbedder := {| de_Dim := 2; de_VecFor := length_vector |}.

(** The first keyword of the map, in its iteration order, that the text holds. *)
Definition keyword_vector `{GoRange} (keywords : gmap string (list float32)) (fallback : list float32) (text : string) : list float32 :=
  match List.find (fun '(kw, _) => contains text kw) (range keywords) with Some (_, vec) => vec | None => fallback end.

Definition NewKeywordEmbedder `{GoRange} (keywords : gmap string (list float32)) (fallback : list float32) : DeterministicEmbedder :=
  {| de_Dim := Z.of_nat (List.length fallback); de_VecFor := keyword_vector keywords fallback |}.

Definition embedder_Embed (e : DeterministicEmbedder) (text : string) : res error (list float32) := Ok (de_VecFor e text).

Fixpoint embedder_EmbedBatch (e : DeterministicEmbedder) (texts : list string) : res error (list (list float32)) :=
  match texts with
  | [] => Ok []
  | t :: rest =>
      match embedder_Embed e t with
      | Err x => Err x
      | Ok v => match embedder_EmbedBatch e rest with Err x => Err x | Ok vs => Ok (v :: vs) end
      end
  end.

(** ** The state provider *)

Definition StateStore : Type := gmap string SessionState.

Section Provider.
Context (J : JsonCodec) (json_string : string -> string).

Definition provider_Get (sessionID : string) (m : StateStore) : StateStore * res error RawState :=
  (m, match m !! sessionID with
      | None => Ok RawNil
      | Some s => match MarshalJSON J s with
                  | Err e => Err (EWrap "failed to marshal state: " e)
                  | Ok d => Ok (RawBytes d)
                  end
      end).

(** The JSON of a value that is neither bytes nor a state. *)
Definition raw_json (raw : RawState) : res error string :=
  match raw with
  | RawNil => Ok "null"
  | RawBytes d => Ok d
  | RawString s => Ok (json_string s)
  | RawSession s => MarshalJSON J s
  | RawOther m => m
  end.

Definition provider_Set (sessionID : string) (raw : RawState) (m : StateStore) : StateStore * option error :=
  match (match raw with
         | RawSession s => Ok s
         | RawBytes d => decode J "failed to unmarshal state: " d
         | _ => match raw_json raw with
                | Err e => Err (EWrap "failed to marshal state: " e)
                | Ok d => decode J "failed to unmarshal state: " d
                end
         end) with
  | Err e => (m, Some e)
  | Ok parsed => (<[sessionID := parsed]> m, None)
  end.

Definition provider_Delete (sessionID : string) (m : StateStore) : StateStore * option error := (delete sessionID m, None).
Definition provider_Close (m : StateStore) : StateStore * option error := (∅, None).

Definition InMemoryStateProvider : StateProvider StateStore :=
  {| sp_Get := provider_Get; sp_Set := provider_Set; sp_Delete := provider_Delete |}.
End Provider.

(** ** The stream of the Genkit adapter *)

(** What [genkit.Generate] does while streaming: it hands the callback one
    text after the other, stops when the callback fails, and returns. *)
Inductive generates : list string -> option error -> option error -> list StreamChunk -> Prop :=
| gen_done err ctxErr : generates [] err ctxErr
    match err with Some e => [{| ck_Text := ""; ck_Err := Some e |}] | None => [] end
| gen_done_cancelled e ctxErr c : ctxErr = Some c -> generates [] (Some e) ctxErr []
| gen_empty texts err ctxErr chunks : generates texts err ctxErr chunks -> generates ("" :: texts) err ctxErr chunks
| gen_text t texts err ctxErr chunks : t <> "" -> generates texts err ctxErr chunks ->
    generates (t :: texts) err ctxErr ({| ck_Text := t; ck_Err := None |} :: chunks)
(* the context is done: the callback fails, Generate returns an error, which is delivered or dropped *)
| gen_cancelled t texts err ctxErr c x : t <> "" -> ctxErr = Some c ->
    generates (t :: texts) err ctxErr [{| ck_Text := ""; ck_Err := Some x |}]
| gen_cancelled_dropped t texts err ctxErr c : t <> "" -> ctxErr = Some c -> generates (t :: texts) err ctxErr [].

(** ** Properties *)

(** ** Recall *)

Section Recall.
Context (lower : string -> string).

Lemma token_hits_pos tokens fact :
  (0 < token_hits lower tokens fact)%Z <->
  exists t, t ∈ tokens /\ (3 < String.length t)%nat /\ contains (to_lower lower fact) t = true.
Proof.
  unfold token_hits.
  assert (forall acc, (0 <= acc)%Z ->
    (0 < fold_left (fun score t => if (3 <? String.length t)%nat && contains (to_lower lower fact) t then (score + 1)%Z else score) tokens acc)%Z
    <-> (0 < acc)%Z \/ exists t, t ∈ tokens /\ (3 < String.length t)%nat /\ contains (to_lower lower fact) t = true) as H.
  { induction tokens as [|t tokens IH]; intros acc Hacc; cbn [fold_left].
    - split; [by left|]. intros [?|(t & Ht & _)]; [done|]. by apply elem_of_nil in Ht.
    - destruct (Nat.ltb_spec 3 (String.length t)) as [Hl|Hl]; cbn [andb].
      + destruct (contains (to_lower lower fact) t) eqn:Hc; cbn [andb].
        * rewrite IH by lia. split; [intros _; right; exists t; split_and!; [by left|done..]|intros _; left; lia].
        * rewrite IH by done. split; (intros [?|(u & Hu & Hr)]; [by left|right]); [exists u; split; [by right|done]|].
          apply elem_of_cons in Hu as [-> |Hu]; [destruct Hr; congruence|by exists u].
      + rewrite IH by done. split; (intros [?|(u & Hu & Hr)]; [by left|right]); [exists u; split; [by right|done]|].
        apply elem_of_cons in Hu as [-> |Hu]; [lia|by exists u]. }
  rewrite H by done. split; [intros [?|?]; [lia|done]|by right].
Qed.

(** A fact is recalled exactly when it was memorised and, both in lower case,
    holds a word of the query that is longer than three bytes. *)
Theorem recalled_iff query facts fact :
  fact ∈ relevant_facts lower query facts <->
  fact ∈ facts /\ exists t, t ∈ query_tokens lower query /\ (3 < String.length t)%nat /\ contains (to_lower lower fact) t = true.
Proof.
  unfold relevant_facts. rewrite list_elem_of_In, filter_In, <- list_elem_of_In, Z.ltb_lt. by rewrite token_hits_pos.
Qed.
End Recall.

Lemma contains_mid a p b : contains (a +:+ p +:+ b) p = true.
Proof.
  unfold contains. induction a as [|c a IH].
  - change ("" +:+ p +:+ b) with (p +:+ b). assert (has_prefix (p +:+ b) p = true) as Hp by (apply has_prefix_spec; by exists b).
    destruct (p +:+ b) eqn:E; cbn [index_of]; by rewrite Hp.
  - change (String c a +:+ p +:+ b) with (String c (a +:+ p +:+ b)). cbn [index_of]. destruct (has_prefix _ p); [done|].
    by destruct (index_of (a +:+ p +:+ b) p).
Qed.

Lemma map_bytes_app f a b : map_bytes f (a +:+ b) = map_bytes f a +:+ map_bytes f b.
Proof. induction a as [|c a IH]; [done|]. cbn [map_bytes String.append]. by rewrite IH. Qed.

Lemma split_part c s p : p ∈ split_on c s -> exists a b, s = a +:+ p +:+ b.
Proof.
  revert p. induction s as [|d s IH]; intros p; cbn [split_on].
  { intros ->%list_elem_of_singleton. by exists "", "". }
  destruct (Ascii.eqb d c).
  - intros [-> |Hp]%elem_of_cons; [by exists "", (String d s)|]. destruct (IH p Hp) as (a & b & ->). by exists (String d a), b.
  - destruct (split_on c s) as [|x xs] eqn:Hs; [by apply split_on_not_nil in Hs|].
    intros [-> |Hp]%elem_of_cons.
    + assert (exists b, s = x +:+ b) as [b ->]; [|by exists "", b].
      clear -Hs. revert x xs Hs. induction s as [|e s IH]; intros x xs; cbn [split_on]; [intros [= <- _]; by exists ""|].
      destruct (Ascii.eqb e c); [intros [= <- _]; by exists (String e s)|].
      destruct (split_on c s) as [|y ys] eqn:Hy; [by apply split_on_not_nil in Hy|]. intros [= <- _].
      destruct (IH y ys eq_refl) as [b ->]. by exists b.
    + destruct (IH p) as (a & b & ->); [by right|]. by exists (String d a), b.
Qed.

(** What was memorised under a question is recalled by the same question, as
    soon as the question has one word of more than three bytes: for ASCII
    text, whatever the answer and the rest of the memory are. *)
Theorem memorised_recalled lower query answer m t :
  is_ascii_str query = true -> is_ascii_str answer = true ->
  t ∈ split_on c_sp (map_bytes lower_byte query) -> (3 < String.length t)%nat ->
  qa_fact query answer ∈ relevant_facts lower query (im_facts (inmem_Memorize query answer m)) /\
  contains (inmem_Recall lower query (inmem_Memorize query answer m)) (qa_fact query answer) = true.
Proof.
  intros Hq Ha Ht Hl.
  assert (qa_fact query answer ∈ relevant_facts lower query (im_facts (inmem_Memorize query answer m))) as Hin.
  { apply recalled_iff. split; [cbn; apply elem_of_app; right; by apply list_elem_of_singleton|]. exists t.
    unfold query_tokens, to_lower. rewrite Hq. split_and!; [done..|]. unfold qa_fact.
    assert (is_ascii_str ("Q: " +:+ query +:+ " | A: " +:+ answer) = true) as ->
      by (unfold is_ascii_str in *; by rewrite !all_bytes_cat, Hq, Ha).
    rewrite !map_bytes_app. apply split_part in Ht as (a & b & ->). rewrite <- !str_app_assoc, (str_app_assoc _ a). apply contains_mid. }
  split; [done|]. unfold inmem_Recall. destruct (relevant_facts lower query _) as [|x xs]; [by apply elem_of_nil in Hin|].
  assert (exists a b, join (nl +:+ "- ") (x :: xs) = a +:+ qa_fact query answer +:+ b) as (a & b & ->).
  { revert Hin. generalize (qa_fact query answer) as f. clear. intros f. revert x. induction xs as [|y xs IH]; intros x Hin.
    - apply list_elem_of_singleton in Hin as ->. exists "", "". cbn [join]. change ("" +:+ ?z) with z. by rewrite str_app_nil_r.
    - change (join (nl +:+ "- ") (x :: y :: xs)) with (x +:+ (nl +:+ "- ") +:+ join (nl +:+ "- ") (y :: xs)).
      apply elem_of_cons in Hin as [-> |Hin]; [by exists "", ((nl +:+ "- ") +:+ join (nl +:+ "- ") (y :: xs))|].
      destruct (IH y Hin) as (a & b & ->). exists (x +:+ (nl +:+ "- ") +:+ a), b. by rewrite <- !str_app_assoc. }
  set (q := qa_fact query answer).
  assert ("Relevant Past Memory:" +:+ nl +:+ "- " +:+ a +:+ q +:+ b = ("Relevant Past Memory:" +:+ nl +:+ "- " +:+ a) +:+ q +:+ b) as ->
    by (by rewrite <- !str_app_assoc).
  apply contains_mid.
Qed.

(** Histories of sessions do not mix, and memorising leaves them alone. *)
Theorem inmem_history sid sid' msgs m query answer :
  inmem_Read sid (inmem_Append sid' msgs m) = (inmem_Read sid m ++ (if decide (sid = sid') then msgs else []))%list /\
  inmem_Read sid (inmem_Memorize query answer m) = inmem_Read sid m.
Proof.
  split; [|done]. unfold inmem_Read, inmem_Append. cbn [im_history]. destruct (decide (sid = sid')) as [-> |Hne].
  - by rewrite lookup_insert_eq.
  - by rewrite lookup_insert_ne, app_nil_r by done.
Qed.

(** ** The scripted model *)

(** The answers of the scripted model depend only on how many calls came
    before: the n-th call gets the n-th response, calls beyond the script the
    last one, and an empty script answers with the empty text. *)
Theorem mock_script responses prompts prompt :
  let m := {| ml_responses := responses; ml_prompts := prompts |} in
  snd (mock_next prompt m) = default "" (responses !! Nat.min (List.length prompts) (List.length responses - 1)) /\
  ml_prompts (fst (mock_next prompt m)) = (prompts ++ [prompt])%list.
Proof.
  split; [|done]. unfold mock_next. cbn [snd ml_responses ml_prompts]. rewrite length_app. cbn [List.length].
  destruct responses as [|r rs]; [by rewrite lookup_nil|].
  change (List.length (r :: rs)) with (S (List.length rs)).
  destruct (Nat.ltb_spec (S (List.length rs)) (List.length prompts + 1)) as [Hl|Hl].
  - replace (Nat.min (List.length prompts) (S (List.length rs) - 1)) with (S (List.length rs) - 1)%nat by lia. done.
  - replace (Nat.min (List.length prompts) (S (List.length rs) - 1)) with (List.length prompts + 1 - 1)%nat by lia. done.
Qed.

(** ** Embedders *)

(** The keyword embedder is a function of the text only as long as no two
    keywords of the text have different vectors: which one answers is up to
    the iteration order of the map. *)
Theorem keyword_embedder_single `{GoRange} keywords fallback text kw vec :
  keywords !! kw = Some vec -> contains text kw = true ->
  (forall kw' vec', keywords !! kw' = Some vec' -> contains text kw' = true -> vec' = vec) ->
  keyword_vector keywords fallback text = vec.
Proof.
  intros Hk Hc Hu. unfold keyword_vector. destruct (List.find _ (range keywords)) as [[k v]|] eqn:Hf.
  - apply List.find_some in Hf as [Hin Hv]. apply (Hu k); [|done]. apply elem_of_range. by apply list_elem_of_In.
  - apply List.find_none with (x := (kw, vec)) in Hf; [congruence|]. apply list_elem_of_In. by apply elem_of_range.
Qed.

Definition reversed_order : GoRange :=
  {| range := fun A m => reverse (map_to_list m); range_perm := fun A m => reverse_Permutation _ |}.

(** So the embedder documented as deterministic is not: one map, one text,
    two orders, two vectors. *)
Theorem keyword_embedder_order_dependent :
  exists keywords fallback text,
    @keyword_vector stored_order keywords fallback text <> @keyword_vector reversed_order keywords fallback text.
Proof.
  exists {["alpha" := [f32_of_nat 1]; "beta" := [f32_of_nat 2]]}, [], "alpha beta".
  assert (forall o1 o2, bool_decide (map f32_to_Z (@keyword_vector o1 {["alpha" := [f32_of_nat 1]; "beta" := [f32_of_nat 2]]} [] "alpha beta")
                        = map f32_to_Z (@keyword_vector o2 {["alpha" := [f32_of_nat 1]; "beta" := [f32_of_nat 2]]} [] "alpha beta")) = false ->
          @keyword_vector o1 {["alpha" := [f32_of_nat 1]; "beta" := [f32_of_nat 2]]} [] "alpha beta"
          <> @keyword_vector o2 {["alpha" := [f32_of_nat 1]; "beta" := [f32_of_nat 2]]} [] "alpha beta") as Hd.
  { intros o1 o2 Hb%bool_decide_eq_false E. apply Hb. by rewrite E. }
  apply Hd. vm_compute. reflexivity.
Qed.

(** ** The state provider *)

(** The provider marshals a state again on every read, so what comes out
    does not depend on the payload type that was stored: two snapshots that
    differ in it alone read back as the same bytes, those of the state with
    the type of its decoded payload. *)
Theorem provider_forgets_type J js sid d d' s t m :
  js_unmarshal J d = Ok s -> js_unmarshal J d' = Ok (with_PayloadType t s) ->
  env_Payload (ses_ActiveEnvelope s) <> GNil ->
  snd (provider_Get J sid (fst (provider_Set J js sid (RawBytes d') m)))
  = snd (provider_Get J sid (fst (provider_Set J js sid (RawBytes d) m))) /\
  snd (provider_Get J sid (fst (provider_Set J js sid (RawBytes d) m)))
  = match js_marshal J (with_PayloadType (js_type_name J (env_Payload (ses_ActiveEnvelope s))) s) with
    | Ok b => Ok (RawBytes b)
    | Err e => Err (EWrap "failed to marshal state: " e)
    end.
Proof.
  intros Hd Hd' Hp. unfold provider_Set, provider_Get, StateStore, decode, UnmarshalJSON. rewrite Hd, Hd'. cbn [fst snd].
  rewrite !lookup_insert_eq. unfold MarshalJSON, payload_typed, with_PayloadType. cbn [ses_ActiveEnvelope].
  destruct (env_Payload (ses_ActiveEnvelope s)) eqn:He; try done; cbn; rewrite ?He; by destruct (js_marshal J _).
Qed.

(** A checkpoint in this provider is hydrated as it was when decoding undoes
    encoding and the decoded payload has the type its name says. *)
Theorem provider_roundtrip {E : Type} J js (load : option (list string -> E -> E * option error)) s e m m' :
  (forall x b, js_marshal J x = Ok b -> js_unmarshal J b = Ok x) ->
  Checkpoint (InMemoryStateProvider J js) J (Some s) m = (m', None) ->
  Hydrate (InMemoryStateProvider J js) J load (ses_SessionID s) e m' = (prime load (ses_LogicalFacts s) e, m', Ok (Some (payload_typed J s))).
Proof.
  intros Hj. unfold Checkpoint. destruct (Validate s) as [x|] eqn:Hv; [done|].
  unfold MarshalJSON. destruct (js_marshal J (payload_typed J s)) as [d|x] eqn:Hm; [|done].
  cbn [sp_Set InMemoryStateProvider]. unfold provider_Set, decode, UnmarshalJSON. rewrite (Hj _ _ Hm). intros [= <-].
  assert (payload_typed J (payload_typed J s) = payload_typed J s) as Hi.
  { unfold payload_typed at 1 3. unfold payload_typed. destruct (env_Payload (ses_ActiveEnvelope s)) eqn:He; cbn; rewrite ?He; done. }
  assert (ses_SessionID (payload_typed J s) = ses_SessionID s /\ ses_ActiveEnvelope (payload_typed J s) = ses_ActiveEnvelope s /\
          ses_LogicalFacts (payload_typed J s) = ses_LogicalFacts s) as (H1 & H2 & H3)
    by (unfold payload_typed; by destruct (env_Payload (ses_ActiveEnvelope s))).
  assert (Validate (payload_typed J s) = None) as Hv' by (unfold Validate in *; by rewrite H1, H2).
  unfold Hydrate. assert (String.eqb (ses_SessionID s) "" = false) as ->
    by (unfold Validate in Hv; by destruct (String.eqb (ses_SessionID s) "")).
  cbn [sp_Get InMemoryStateProvider]. unfold provider_Get, StateStore. rewrite lookup_insert_eq. unfold MarshalJSON. rewrite Hi, Hm.
  cbn. unfold decode, UnmarshalJSON. by rewrite (Hj _ _ Hm), Hv', H3.
Qed.

(** ** Streams *)

Definition text_chunk (t : string) : StreamChunk := {| ck_Text := t; ck_Err := None |}.
Definition error_chunk (e : error) : StreamChunk := {| ck_Text := ""; ck_Err := Some e |}.
Definition nonempty (l : list string) : list string := List.filter (fun t => negb (String.eqb t "")) l.

(** A Genkit stream delivers the texts of the model in order: the chunks are
    a prefix of the texts that are not empty, then at most one error; a stream
    that ends without an error chunk although the model failed, or short of
    the last text, has a context that is done. *)
Theorem genkit_stream_prefix texts err ctxErr chunks :
  generates texts err ctxErr chunks ->
  exists sent tail, chunks = (map text_chunk sent ++ tail)%list /\ sent `prefix_of` nonempty texts /\
    (tail = [] \/ exists e, tail = [error_chunk e]) /\
    (ctxErr = None -> sent = nonempty texts /\ tail = match err with Some e => [error_chunk e] | None => [] end).
Proof.
  induction 1 as [err ctxErr|e ctxErr c Hc|texts err ctxErr chunks _ IH|t texts err ctxErr chunks Ht _ IH
                  |t texts err ctxErr c x Ht Hc|t texts err ctxErr c Ht Hc].
  - exists [], (match err with Some e => [error_chunk e] | None => [] end). split_and!; [by destruct err|done| |done].
    destruct err; [right; by eexists|by left].
  - exists [], []. split_and!; [done..|by left|]. intros ->. done.
  - destruct IH as (sent & tail & -> & Hp & Ht & Hn). by exists sent, tail.
  - destruct IH as (sent & tail & -> & Hp & Htl & Hn). exists (t :: sent), tail.
    assert (nonempty (t :: texts) = t :: nonempty texts) as ->
      by (unfold nonempty; cbn [List.filter]; by destruct (String.eqb_spec t "")).
    split_and!; [done|by apply prefix_cons|done|]. intros H. destruct (Hn H) as [-> ->]. done.
  - exists [], [error_chunk x]. split_and!; [done|apply prefix_nil|right; by eexists|]. intros ->. done.
  - exists [], []. split_and!; [done|apply prefix_nil|by left|]. intros ->. done.
Qed.
